(* ===== verification/_CoqProject ===== *)
-Q . S2P
Prelude.v
GoStrings.v
Json.v
JsonCodec.v
JsonCompact.v
JsonMembers.v
JsonAny.v
OpenAIModels.v
ProxyCircuit.v
ApicompatTypes.v
ResponsesWire.v
ResToAnth.v
ResToChat.v
ClaudeModels.v
AnthToRes.v
AnthRequest.v
ResponseFormat.v
ChatRequest.v
Idempotency.v
Failover.v
ImageLimiter.v
InvalidAuth.v
InflightReservation.v
Redis.v
ConcurrencyCache.v
ConcurrencySlots.v
ConcurrencyService.v
UsagePool.v
Programs.v
RedisKeys.v
GoFloat.v
AppErrors.v
UsageBilling.v
BatchImage.v
BatchImageQueue.v
BatchImageIndex.v
BatchImageJobs.v
BatchImageSystem.v
BatchImageWorker.v
BatchImageQueueSystem.v
Subscriptions.v
SubscriptionService.v
SubscriptionSystem.v
SubscriptionChecks.v
SubscriptionAssign.v
AccountQuota.v
UsageApply.v
UsageLedger.v
PaymentOrders.v
RedeemService.v
PaymentService.v
PaymentSystem.v
PaymentSafety.v
PaymentOnce.v
PaymentLedger.v
PaymentScenarios.v
PaymentRetry.v
PaymentLifecycle.v
