(* ===== verification/Prelude.v ===== *)
(** * Sub2API: a verified model of the gateway's core

    Sub2API (Go, [src/backend/]) is a gateway that lets clients of one AI
    protocol (Anthropic Messages, OpenAI Chat Completions, OpenAI Responses)
    use pooled upstream accounts that speak another, and that meters, limits
    and protects this traffic.  A request passes, in order: authentication
    with its abuse limiter; the idempotency coordinator (for the writes of the
    management API) or the admission controls (image slots, in-flight
    balance reservations); account selection with its failover loop and the
    breaker of disconnecting proxies; and the protocol converters that turn
    the upstream's answer or event stream into the client's protocol.

    ** Files

    Shared:
    - [Prelude] (this file): struct update, machine integers, time, results,
      runs of operations, counting in maps, tactics.
    - [GoStrings]: [strings] and [strconv] on byte strings, with the decimal
      round trip and the trimming lemmas.
    - [Json]: [encoding/json] as far as the code relies on it ([Valid], string
      and object decoding, quoting) and [unicode/utf8].

    - [JsonCodec]: JSON as a tree: what [json.Marshal] writes, the decoders of
      the structs, and that decoding reads back what was written; [JsonCompact]:
      [json.Compact], which [Marshal] applies to raw messages, keeps every
      value, and re-marshalling a decoded object keeps its members;
      [JsonMembers]: the members of a marshalled struct read one by one;
      [JsonAny]: values decoded into [any].
    - [GoFloat]: [float64] arithmetic and the NUMERIC columns that store it;
      [AppErrors]: the application errors of [pkg/errors/errors.go].
    - [Programs]: handlers as programs of calls, and properties of all runs.

    Protocol conversion ([internal/pkg/apicompat], [internal/pkg/claude]):
    - [ApicompatTypes]: the wire structs of [types.go], field by field.
    - [ResToAnth]: [responses_to_anthropic.go], Responses answers and event
      streams to Anthropic.
    - [ResToChat]: [responses_to_chatcompletions.go] with its buffered
      response accumulator, Responses to Chat Completions.
    - [AnthToRes]: [anthropic_to_responses_response.go], Anthropic answers and
      event streams to Responses.
    - [ClaudeModels]: the effort catalogue the converters' requests consult;
      [OpenAIModels]: the spelling and generation of OpenAI model names.
    - [AnthRequest]: [anthropic_to_responses.go], Anthropic requests to
      Responses, from the JSON of the messages to the JSON of the input.
    - [ResponsesWire]: the wire format of a Responses request's input as the
      upstream reads it; [ResponseFormat]: the two spellings of a structured
      output format; [ChatRequest]: [chatcompletions_to_responses.go], Chat
      Completions requests to Responses.

    Gateway services:
    - [ProxyCircuit]: [service/openai_proxy_stream_circuit.go].
    - [Idempotency]: [service/idempotency.go] with the table operations of
      [repository/idempotency_repo.go].
    - [Failover]: [handler/failover_loop.go].
    - [ImageLimiter]: [handler/image_concurrency_limiter.go].
    - [InvalidAuth]: [service/invalid_auth_abuse_limiter.go].
    - [InflightReservation]: the reservation handle of
      [service/billing_inflight_reservation.go].
    - [Redis]: the interface to the Redis server, its documented laws and a
      reference store; [ConcurrencyCache]: the scripts and methods of
      [repository/concurrency_cache.go]; [ConcurrencySlots]: the system of
      many processes on one server and its theorems; [ConcurrencyService]:
      [service/concurrency_service.go].
    - [UsagePool]: [service/usage_record_worker_pool.go].

    Batch images, paid from balance holds:
    - [UsageBilling]: the holds of [repository/usage_billing_repo.go] and
      [service/usage_billing.go] on the users' balances, with the claims that
      make each of them happen once.
    - [BatchImage]: the jobs of [service/batch_image.go] and the statements of
      [repository/batch_image_repo.go].
    - [BatchImageIndex]: the provider's result lines, matched with the
      submitted items ([service/batch_image_processor.go]).
    - [BatchImageJobs]: the handlers as programs of calls: submission and
      cancellation ([batch_image_public.go]), the provider poll
      ([batch_image_processor.go]), settlement
      ([batch_image_settlement.go]), holds ([batch_image_billing_hold.go]) and
      recovery ([batch_image_billing_recovery.go]).
    - [BatchImageSystem]: what the calls do to tables and balances, programs
      alone and interleaved.
    - [RedisKeys]: the commands on lists, sorted sets and expiring strings as a
      class with laws, and a server that satisfies them; [BatchImageQueue]: the
      queue of [repository/batch_image_queue.go], its scripts and job locks;
      [BatchImageWorker]: [service/batch_image_worker.go], one round of each
      loop.
    - [BatchImageQueueSystem]: workers, API handlers and recoveries over one
      database and one server; no job gets lost.

    Billing of finished requests:
    - [AccountQuota]: the quotas of upstream accounts in their JSON column
      ([repository/account_repo.go]), with rolling and fixed periods.
    - [UsageApply]: the command that charges a request
      ([service/gateway_usage_billing.go], [service/usage_billing.go]) and its
      transaction in [repository/usage_billing_repo.go].
    - [UsageLedger]: any sequence of such transactions, and its books.

    Subscriptions, which pay for requests up to a limit per day, week, month:
    - [Subscriptions]: terms, windows and the calendar
      ([service/user_subscription.go], [pkg/timezone]) and the statements of
      [repository/user_subscription_repo.go].
    - [SubscriptionService]: the handlers of [service/subscription_service.go]
      and the check of a request in [middleware/api_key_auth.go] as programs.
    - [SubscriptionSystem]: all handlers at once over one table, with stale
      snapshots; [SubscriptionChecks]: the check with and without maintenance;
      [SubscriptionAssign]: repeated assignments.

    Payments, which fill balances and assign subscriptions:
    - [PaymentOrders]: the tables of orders, redeem codes, users and audit rows
      with their statements and transactions; [RedeemService]: redemption and
      administration of codes ([service/redeem_service.go],
      [repository/redeem_code_repo.go], [handler/admin/redeem_handler.go]);
      [PaymentService]: the creation of an order up to the provider's answer
      ([service/payment_order.go]), notifications, fulfilment and retries
      ([service/payment_fulfillment.go]), cancellation, expiry and verification
      ([service/payment_order_lifecycle.go]).
    - [PaymentSystem]: all of them at once, with what other services do to the
      same rows: refund steps, which go by the order's id whatever its status,
      and credits to balances; [PaymentSafety]: what their programs
      know when they complete an order; [PaymentOnce], [PaymentLedger],
      [PaymentRetry], [PaymentLifecycle]: the theorems; [PaymentScenarios]:
      concrete runs.

    Each file holds one Module with the names of the Go code: a struct is a
    Record with the Go fields, a method is a function from the receiver's
    state to its results and the new state, and the tests and early returns
    follow the code's order.  A converter's handler answers the events it
    emits and the new state; a repository call is one atomic step.

    ** Concurrency

    Where goroutines share state, the model is a transition system whose
    steps are the code's atomic sections: a critical section of a mutex, an
    atomic operation, one SQL statement, a wake-up, a timeout, a clock
    reading.  The theorems quantify over all interleavings of any number of
    goroutines.  [Idempotency] represents a request as a program of atomic
    calls, whose repository calls may fail before or after taking effect;
    [ConcurrencyCache] does the same for requests to Redis, where a script is
    one atomic step, a pipeline is not, and time passes between any two steps.

    ** What the theorems show

    - Streams ([ResToAnth], [ResToChat], [AnthToRes]): for every upstream event
      sequence the Anthropic stream opens and closes its blocks properly with
      increasing indices and ends its message once; text completes exactly to
      what the upstream finished with; tool arguments arrive once; the Chat
      stream, read by a client, equals the buffered answer and finishes once;
      an SDK-like client accepts the Responses stream and ends with the
      upstream's text, also when the upstream breaks off.  Whole answers keep their text, tool calls and token
      counts.  Where the code falls short of this the exact condition is a
      hypothesis and the failure is a theorem of its own.
    - Requests ([AnthRequest]): what the upstream decodes from the converted
      request is the client's conversation, every text, image, tool call and
      tool result in order; exactly three kinds of request are refused; the
      sampling, budget and reasoning parameters follow the model; tool schemas
      keep their members.  The same holds of Chat requests ([ChatRequest]), and
      a response format survives its translation there and back.
    - Exactly-once: a keyed request executes successfully at most once, in any
      interleaving and under failing repository calls; every answer comes from
      that execution; failed executions back off and are retried; a key with
      other content is refused; every request ends in at most eleven calls.
    - Concurrency limits: however many processes share the server, an account
      or user never has more slots than its limit (one more where live leases
      may replace slots), an admitted request keeps its slot for the TTL unless
      it is released or the startup of another process sweeps it, dead slots
      stop counting after it, and the wait counters stay within their bounds;
      request ids never collide.
    - Usage records: every task has exactly one counted fate, the sample
      policy keeps its percentage, the auto-scaler its bounds.
    - Batch images: any sequence of holds, captures and releases conserves each
      user's money up to what was captured, and each takes effect once; a job
      moves along its transition table (the record of a failed submission
      apart, which sets failed over any status) and keeps what was agreed; indexing
      reconciles any provider output with the submitted items; settling
      charges the successes once, at the agreed price.  Two interleavings of a
      submission with its cancellation lose money, and are theorems.
    - The batch queue: a job that was enqueued is in the queue until the
      provider has nothing more to do for it, whatever fails, crashes or
      expires; one worker at a time holds a job's lock; waiting for a job ends.
    - Billing: each request of a key is charged once, and balances, key quotas,
      subscription windows and account quotas move by exactly the sum of the
      costs rounded once, so that they can be compared without a tolerance; the
      request that exhausts a key's quota reports it; fixed account quotas are
      reset at the next configured moment of their zone, across changes of its
      clocks, too.
    - Subscriptions: while a window lasts its usage is the sum of what was
      charged, whatever resets, renewals and stale maintenance run at once;
      the check of a request answers the same with and without the writes of
      the maintenance; new periods start on the grid of their anchor and before
      the end of the term; asking twice for an assignment assigns once.
    - Payments: whatever runs at once, no code is redeemed twice, a completed
      order was paid out for its user at its amount, a user's recharges are the
      values of their codes and what other services credited, a paid order is
      never cancelled, and a retry always completes it; a late failure of its
      creation may set a paid order to failed.  This holds while administrators neither delete or expire
      codes nor set their status: three runs in which they do pay twice.
    - Bounds and liveness: the failover loop ends, with an explicit bound on
      its rounds, which for errors retried until a deadline counts the waits
      before it; the breaker trips exactly at its threshold and recovers, a
      burst counts once, and its table is bounded; image slots and queues stay
      within their limits and no wake-up is lost; a client with invalid keys
      that the limiter has an entry for is blocked at the threshold for exactly
      the block time and the limiter's memory is bounded; a balance reservation is given back exactly once.

    ** Bounds and fuel

    JSON scanning recurses with fuel [2 * length + 2], and [Json] proves that
    any larger fuel gives the same result; UTF-8 decoding has the length as
    fuel, every step consuming at least one byte.  The expected ids of a batch
    are read in at most [pages] pages, any number above its items over 500.
    [play] runs a program for a number of calls, where a run has to stop in the
    middle; [finish] runs it to its end and needs none.
    [Reserve] polls the queue at most [rounds] times, and [Reserve_answers] shows
    that its time is over before this bound is reached.
    Amounts are finite [float64]s.  No other function uses fuel.  [time.Time] is
    a count of nanoseconds from year 1 without bounds, [Time.Sub] saturates, and the counters that can overflow wrap around at
    their width; [Duration.Seconds] truncated to [int] is exact below 2^23
    seconds, where [float64] rounding cannot cross a second.  The window of
    the idempotency theorems is no longer than the TTL of the requests in it,
    so that no record expires within it.

    ** Parameters

    Random identifiers, SHA-256, JSON of dynamically typed values, log
    redaction, and the iteration order of Go maps are arguments of the
    definitions; the theorems hold for all of them.  So are the answers of the
    third-party worker pool, of the batch-image provider, of the payment
    providers and of the account lookup, [strings.EqualFold], the decimal that the SQL driver sends for a [float64] (assumed
    non-negative for a non-negative one), and the printable runes above ASCII; Redis is the class [Redis] with the laws of
    [RedisLaws], which the reference store in [Redis] satisfies, and for the
    batch queue [RedisServer] with [RedisServerLaws], whose keys of different
    purposes have to differ ([separate_keys], which the default keys do).
    That a quantised amount, printed in its shortest form, is the decimal it was
    rounded to is a hypothesis on each amount ([reads_back]), which holds up to
    15 digits; named zones are PostgreSQL's [AT TIME ZONE], both ways, with the laws of the class [Zone] (clocks
    set by an hour at most), which fixed offsets and a change of the offset
    satisfy.
    The time zone database is the offset of a time from UTC; the precision of
    a timestamp column is a function on times.

    ** Not modelled

    HTTP, SQL and Redis drivers, the generated [ent] code, the frontend,
    deployment, upstream authentication and the provider clients are input and
    output around this logic.  Pricing is [float64] arithmetic.  Logging,
    metrics and health reports do not affect the modelled state.  Of payments
    the refunds (steps that move orders once completed to their statuses, by
    id alone), the checks, price and limits before an order is created, the
    affiliate rebate and promo codes (credits of the system) are left out.  The cache of
    subscriptions is a source of stale snapshots; listings and progress
    reports read the modelled tables and are left out.

    ** Plan

    Open: batch images under arbitrary interleavings (a hold is captured or
    released, never both), their cleanup, the checks
    and prices before a submission; the Responses-to-Anthropic request
    converter with its composition, the Chat bridges, and the prices and refunds of payments. *)

From stdpp Require Export base tactics list gmap strings sorting fin_maps pretty.
From Stdlib Require Export Ascii ZArith Lia.

#[global] Open Scope Z_scope.

(** ** Struct update

    Go code mutates single fields of a struct.  A record [R] registers its
    eta-expansion as an instance of [Struct R]; [r <| f := v |>] is then [r]
    with the field [f] replaced, for any projection [f] of [R]. *)

Class Struct (R : Type) := struct_eta : R -> R.

Class FieldOf {R A : Type} (proj : R -> A) := set_field : A -> R -> R.

Ltac build_field_setter :=
  lazymatch goal with
  | |- @FieldOf ?R ?A ?proj =>
      let s := constr:(fun (v : A) (r : R) =>
        ltac:(let t := eval hnf in (struct_eta r) in
              let g := eval pattern (proj r) in t in
              lazymatch g with
              | ?G _ => let b := eval cbv beta in (G v) in exact b
              end)) in
      let s' := eval cbv beta in s in
      exact s'
  end.

#[global] Hint Extern 0 (FieldOf _) => build_field_setter : typeclass_instances.

Declare Scope go_scope.
Delimit Scope go_scope with go.

#[warnings="-postfix-notation-not-level-1"]
Notation "r <| f := v |>" := (set_field (proj := f) v r)
  (at level 12, left associativity, f at level 9, v at level 200,
   format "r  <|  f  :=  v  |>") : go_scope.
#[global] Open Scope go_scope.
#[global] Arguments set_field {R A} proj {_} v r /.

(** Go's ["switch"] and ["if"] on strings compare bytes. *)
Notation "s =s t" := (String.eqb s t) (at level 70) : go_scope.

(** ** Machine integers

    Go's [int] and [int64] are 64-bit two's complement and wrap silently. *)

Definition int64_max : Z := 2 ^ 63 - 1.
Definition int64_min : Z := - 2 ^ 63.
Definition wrap64 (z : Z) : Z := (z + 2 ^ 63) mod 2 ^ 64 - 2 ^ 63.
Definition int64_range (z : Z) : Prop := int64_min <= z <= int64_max.

(** [uint32] and [uint64] arithmetic is modulo the width. *)
Definition uint32 (z : Z) : Z := z mod 2 ^ 32.
Definition uint64 (z : Z) : Z := z mod 2 ^ 64.

Lemma wrap64_id z : int64_range z -> wrap64 z = z.
Proof. unfold int64_range, int64_min, int64_max, wrap64. intros ?. rewrite Z.mod_small; lia. Qed.

Lemma wrap64_range z : int64_range (wrap64 z).
Proof.
  unfold int64_range, int64_min, int64_max, wrap64.
  pose proof (Z.mod_pos_bound (z + 2 ^ 63) (2 ^ 64) eq_refl). lia.
Qed.

(** ** Time

    A [time.Time] is its distance in nanoseconds from Go's zero time (year 1),
    so [time.Time{}] is 0 and [IsZero] is a comparison with 0.  A
    [time.Duration] is an [int64] count of nanoseconds; [Time.Sub] saturates
    at the ends of that range. *)

Abbreviation Time := Z (only parsing).
Abbreviation Duration := Z (only parsing).

Definition Millisecond : Duration := 1000000.
Definition Second : Duration := 1000000000.
Definition Minute : Duration := 60 * Second.
Definition Hour : Duration := 60 * Minute.

Definition time_zero : Time := 0.
Definition IsZero (t : Time) : bool := t =? 0.
Definition Before (t u : Time) : bool := t <? u.
Definition After (t u : Time) : bool := u <? t.
Definition time_Add (t : Time) (d : Duration) : Time := t + d.
Definition time_Sub (t u : Time) : Duration := Z.max int64_min (Z.min int64_max (t - u)).
Definition time_Equal (t u : Time) : bool := t =? u.

(** [UnixNano], the nanoseconds since 1970 as [int64], and [time.Unix(0, n)]. *)
Definition unix_epoch : Time := 62135596800 * Second.
Definition UnixNano (t : Time) : Z := wrap64 (t - unix_epoch).
Definition time_Unix (nanos : Z) : Time := unix_epoch + nanos.

(** [UnixMilli], rounded down; [Duration.Milliseconds], truncated. *)
Definition UnixMilli (t : Time) : Z := (t - unix_epoch) / Millisecond.
Definition Milliseconds (d : Duration) : Z := Z.quot d Millisecond.

Lemma time_Sub_exact t u : int64_range (t - u) -> time_Sub t u = t - u.
Proof. unfold int64_range, time_Sub. lia. Qed.

(** The constants and comparisons of the two sections above, unfolded so that
    [lia] decides the goal. *)
Ltac time_unfold :=
  unfold Before, After, IsZero, time_Add, time_Sub, time_Equal, time_zero,
    Hour, Minute, Second, Millisecond, int64_range, int64_min, int64_max in *.
Ltac time_lia := time_unfold; lia.

(** ** Errors

    A Go call that returns [(T, error)] returns an [outcome T E]: a value, or
    the error that made the caller give up. *)

Inductive outcome (A E : Type) : Type :=
| Ok (a : A)
| Err (e : E).
Arguments Ok {A E} a.
Arguments Err {A E} e.

#[export] Instance outcome_eq_dec {A E} `{EqDecision A, EqDecision E} : EqDecision (outcome A E).
Proof. solve_decision. Defined.

(** ** Reachability

    The states an operation system reaches from a start by any finite sequence
    of operations, and the invariant principle for them. *)

Section runs.
Context {S O : Type} (step : O -> S -> S).

Definition run (ops : list O) (s : S) : S := fold_left (fun s o => step o s) ops s.

Lemma run_app ops1 ops2 s : run (ops1 ++ ops2) s = run ops2 (run ops1 s).
Proof. apply fold_left_app. Qed.

Lemma run_invariant (I : S -> Prop) :
  (forall o s, I s -> I (step o s)) -> forall ops s, I s -> I (run ops s).
Proof. intros Hs ops. induction ops as [|o ops IH]; intros s Hi; [done | exact (IH _ (Hs o s Hi))]. Qed.
End runs.

(** ** Maps

    [len(m)] of a Go map. *)

Definition map_len {K A} `{Countable K} (m : gmap K A) : Z := Z.of_nat (size m).

Section map_len.
Context {K : Type} `{Countable K} {A : Type}.
Implicit Types m : gmap K A.

Lemma map_len_empty : map_len (∅ : gmap K A) = 0.
Proof. unfold map_len. by rewrite map_size_empty. Qed.

Lemma map_len_nonneg m : 0 <= map_len m.
Proof. unfold map_len. lia. Qed.

Lemma map_len_filter_le (P : K * A -> Prop) `{!forall x, Decision (P x)} m :
  map_len (filter P m) <= map_len m.
Proof. unfold map_len. apply inj_le, map_subseteq_size, map_filter_subseteq. Qed.

Lemma map_len_delete k m : is_Some (m !! k) -> map_len (delete k m) = map_len m - 1.
Proof.
  intros [x Hx]. unfold map_len. rewrite (map_size_delete_Some k m) by eauto.
  assert (size m <> O) by (intros H0; apply map_size_empty_iff in H0; by subst). lia.
Qed.

Lemma map_len_delete_le k m : map_len (delete k m) <= map_len m.
Proof. unfold map_len. apply inj_le, map_subseteq_size, delete_subseteq. Qed.

Lemma map_len_insert_le k x m : map_len (<[k := x]> m) <= map_len m + 1.
Proof. unfold map_len. rewrite map_size_insert. case_match; cbn [id]; lia. Qed.

Lemma map_len_insert_present k x m : is_Some (m !! k) -> map_len (<[k := x]> m) = map_len m.
Proof. intros [y Hy]. unfold map_len. by rewrite map_size_insert, Hy. Qed.

Lemma map_len_insert_absent k x m : m !! k = None -> map_len (<[k := x]> m) = map_len m + 1.
Proof. intros Hk. unfold map_len. rewrite map_size_insert, Hk. lia. Qed.

Lemma filter_keys (P : K * A -> Prop) `{!forall x, Decision (P x)} m k :
  is_Some (filter P m !! k) -> is_Some (m !! k).
Proof. intros [x Hx]. apply map_lookup_filter_Some in Hx as [? _]. eauto. Qed.
End map_len.

(** The number of entries of a map whose value satisfies a test. *)
Definition count_if {K A} `{Countable K} (f : A -> bool) (m : gmap K A) : Z :=
  map_fold (fun _ x acc => Z.b2z (f x) + acc) 0 m.

Section count_if.
Context {K : Type} `{Countable K} {A : Type} (f : A -> bool).
Implicit Types m : gmap K A.

Lemma count_if_empty : count_if f (∅ : gmap K A) = 0.
Proof. unfold count_if. by rewrite map_fold_empty. Qed.

Lemma count_if_insert_new k x m : m !! k = None -> count_if f (<[k := x]> m) = Z.b2z (f x) + count_if f m.
Proof. intros Hk. unfold count_if. rewrite map_fold_insert_L; [done | intros; lia | done]. Qed.

Lemma count_if_insert k x y m :
  m !! k = Some x -> count_if f (<[k := y]> m) = Z.b2z (f y) - Z.b2z (f x) + count_if f m.
Proof.
  intros Hk. rewrite <- (insert_delete_eq m k y). rewrite count_if_insert_new by apply lookup_delete_eq.
  assert (Hm : count_if f m = Z.b2z (f x) + count_if f (delete k m)).
  { rewrite <- (insert_delete_id m k x Hk) at 1. by rewrite count_if_insert_new by apply lookup_delete_eq. }
  lia.
Qed.

Lemma count_if_nonneg m : 0 <= count_if f m.
Proof.
  induction m as [|k x m Hk IH] using map_ind; [by rewrite count_if_empty|]. rewrite count_if_insert_new by done.
  destruct (f x); simpl; lia.
Qed.

Lemma count_if_positive m : 0 < count_if f m -> exists k x, m !! k = Some x /\ f x = true.
Proof.
  induction m as [|k x m Hk IH] using map_ind; [by rewrite count_if_empty|]. rewrite count_if_insert_new by done.
  destruct (f x) eqn:E; [intros _; exists k, x; by rewrite lookup_insert_eq|]. simpl. intros Hp.
  destruct (IH Hp) as (k' & x' & Hk' & Hf). exists k', x'. split; [|done]. rewrite lookup_insert_ne by congruence. done.
Qed.
End count_if.

(** ** Tactics *)

(** Split on every [if] and [match] of the goal or of [H], clearing the
    impossible branches. *)
Ltac branches := repeat (case_match; simplify_eq/=; try done).

Ltac branches_in H := repeat (case_match; simplify_eq/=; try done).

(** Decide string tests that appear as equations. *)
Ltac str_eqb :=
  repeat match goal with
  | H : String.eqb _ _ = true |- _ => apply String.eqb_eq in H
  | H : String.eqb _ _ = false |- _ => apply String.eqb_neq in H
  end; simplify_eq/=.

Create HintDb go discriminated.
#[export] Hint Resolve wrap64_range : go.
