(* ===== verification/GoStrings.v ===== *)
(** * GoStrings: the parts of [strings] and [strconv] the modelled code uses

    A Go string is a sequence of bytes; it is a [string] of 8-bit [ascii]
    here, so every Go string has exactly one representation and [len] is
    [String.length].  Unicode matters in three places only: [TrimSpace] drops
    the UTF-8 encodings of the Unicode white space, and [ToLower]/[ToUpper]
    map the four non-ASCII letters whose image is ASCII; the remaining
    non-ASCII letters are left alone, which no caller can observe because the
    results are only compared with, split at, or parsed as ASCII text. *)

From S2P Require Import Prelude.

Abbreviation bytes := (list ascii) (only parsing).

Definition byte_of (c : ascii) : Z := Z.of_N (N_of_ascii c).
Definition chr (n : Z) : ascii := ascii_of_N (Z.to_N n).
Definition to_bytes (s : string) : list ascii := String.list_ascii_of_string s.
Definition of_bytes (l : list ascii) : string := String.string_of_list_ascii l.
Definition len (s : string) : Z := Z.of_nat (String.length s).

(** A byte test written with its hexadecimal value, as in the UTF-8 tables. *)
Definition is_byte (n : Z) (c : ascii) : bool := byte_of c =? n.
Definition byte_in (lo hi : Z) (c : ascii) : bool := (lo <=? byte_of c) && (byte_of c <=? hi).

(** ** [strings.TrimSpace] *)

Definition ascii_space (c : ascii) : bool := byte_in 9 13 c || is_byte 32 c.

(** [U+0085], [U+00A0] (two bytes), [U+1680], [U+2000]-[U+200A], [U+2028],
    [U+2029], [U+202F], [U+205F], [U+3000] (three bytes). *)
Definition space2 (a b : ascii) : bool := is_byte 194 a && (is_byte 133 b || is_byte 160 b).
Definition space3 (a b c : ascii) : bool :=
  (is_byte 225 a && is_byte 154 b && is_byte 128 c) ||
  (is_byte 226 a && is_byte 128 b && (byte_in 128 138 c || is_byte 168 c || is_byte 169 c || is_byte 175 c)) ||
  (is_byte 226 a && is_byte 129 b && is_byte 159 c) ||
  (is_byte 227 a && is_byte 128 b && is_byte 128 c).

Fixpoint trim_left (l : list ascii) : list ascii :=
  match l with
  | a :: l1 =>
      if ascii_space a then trim_left l1
      else match l1 with
      | b :: l2 =>
          if space2 a b then trim_left l2
          else match l2 with
          | c :: l3 => if space3 a b c then trim_left l3 else l
          | [] => l
          end
      | [] => l
      end
  | [] => []
  end.

(** The same on the reversed bytes, for the right end. *)
Fixpoint trim_left_rev (l : list ascii) : list ascii :=
  match l with
  | a :: l1 =>
      if ascii_space a then trim_left_rev l1
      else match l1 with
      | b :: l2 =>
          if space2 b a then trim_left_rev l2
          else match l2 with
          | c :: l3 => if space3 c b a then trim_left_rev l3 else l
          | [] => l
          end
      | [] => l
      end
  | [] => []
  end.

Definition TrimSpace (s : string) : string :=
  of_bytes (rev (trim_left_rev (rev (trim_left (to_bytes s))))).

(** ** Case mapping *)

Fixpoint lower_bytes (l : list ascii) : list ascii :=
  match l with
  | a :: l1 =>
      if byte_in 65 90 a then chr (byte_of a + 32) :: lower_bytes l1
      else match l1 with
      | b :: l2 =>
          (* U+0130 maps to i *)
          if is_byte 196 a && is_byte 176 b then chr 105 :: lower_bytes l2
          else match l2 with
          | c :: l3 =>
              (* U+212A, the Kelvin sign, maps to k *)
              if is_byte 226 a && is_byte 132 b && is_byte 170 c then chr 107 :: lower_bytes l3
              else a :: lower_bytes l1
          | [] => a :: lower_bytes l1
          end
      | [] => [a]
      end
  | [] => []
  end.

Fixpoint upper_bytes (l : list ascii) : list ascii :=
  match l with
  | a :: l1 =>
      if byte_in 97 122 a then chr (byte_of a - 32) :: upper_bytes l1
      else match l1 with
      | b :: l2 =>
          (* U+0131 maps to I, U+017F maps to S *)
          if is_byte 196 a && is_byte 177 b then chr 73 :: upper_bytes l2
          else if is_byte 197 a && is_byte 191 b then chr 83 :: upper_bytes l2
          else a :: upper_bytes l1
      | [] => [a]
      end
  | [] => []
  end.

Definition ToLower (s : string) : string := of_bytes (lower_bytes (to_bytes s)).
Definition ToUpper (s : string) : string := of_bytes (upper_bytes (to_bytes s)).

(** ** Prefixes and indices *)

Definition HasPrefix (s pre : string) : bool := String.prefix pre s.

(** [s[n:]] for [0 <= n <= len s]. *)
Fixpoint str_drop (n : nat) (s : string) : string :=
  match n, s with
  | O, _ => s
  | S n', String _ s' => str_drop n' s'
  | S _, EmptyString => EmptyString
  end.

(** [s[:n]] for [0 <= n <= len s]. *)
Fixpoint str_take (n : nat) (s : string) : string :=
  match n, s with
  | O, _ => EmptyString
  | S n', String c s' => String c (str_take n' s')
  | S _, EmptyString => EmptyString
  end.

Definition TrimPrefix (s pre : string) : string :=
  if HasPrefix s pre then str_drop (String.length pre) s else s.

(** [strings.CutPrefix]. *)
Definition CutPrefix (s pre : string) : string * bool :=
  if HasPrefix s pre then (str_drop (String.length pre) s, true) else (s, false).

(** [strings.IndexByte]; [None] is Go's -1. *)
Fixpoint IndexByte (s : string) (c : ascii) : option nat :=
  match s with
  | EmptyString => None
  | String a s' => if Ascii.eqb a c then Some O else S <$> IndexByte s' c
  end.

(** [strings.LastIndex] of a one-byte string. *)
Fixpoint LastIndexByte (s : string) (c : ascii) : option nat :=
  match s with
  | EmptyString => None
  | String a s' =>
      match LastIndexByte s' c with
      | Some i => Some (S i)
      | None => if Ascii.eqb a c then Some O else None
      end
  end.

(** [strings.Split] at a one-byte separator: never empty. *)
Fixpoint SplitByte (s : string) (c : ascii) : list string :=
  match s with
  | EmptyString => [EmptyString]
  | String a s' =>
      if Ascii.eqb a c then EmptyString :: SplitByte s' c
      else match SplitByte s' c with
      | h :: t => String a h :: t
      | [] => [String a EmptyString]
      end
  end.

(** [strings.Contains]. *)
Fixpoint Contains (s sub : string) : bool :=
  HasPrefix s sub || match s with String _ s' => Contains s' sub | EmptyString => false end.

(** [strings.ReplaceAll] of a non-empty [old]; [skip] counts the bytes of a
    match that are still to be passed over. *)
Fixpoint replace_from (skip : nat) (s old new : string) : string :=
  match s with
  | EmptyString => EmptyString
  | String c s' =>
      match skip with
      | S skip => replace_from skip s' old new
      | O => if HasPrefix s old then new +:+ replace_from (String.length old - 1) s' old new
             else String c (replace_from O s' old new)
      end
  end.
Definition ReplaceAll (s old new : string) : string := replace_from O s old new.

(** [strings.Fields]: [cur] holds the reversed bytes of the current field. *)
Fixpoint fields_from (cur l : list ascii) : list string :=
  let close := match cur with [] => [] | _ => [of_bytes (rev cur)] end in
  match l with
  | [] => close
  | a :: l1 =>
      if ascii_space a then close ++ fields_from [] l1
      else match l1 with
      | b :: l2 =>
          if space2 a b then close ++ fields_from [] l2
          else match l2 with
          | c :: l3 => if space3 a b c then close ++ fields_from [] l3 else fields_from (a :: cur) l1
          | [] => fields_from (a :: cur) l1
          end
      | [] => fields_from (a :: cur) l1
      end
  end.
Definition Fields (s : string) : list string := fields_from [] (to_bytes s).

(** ** [strconv] *)

Definition digit_value (c : ascii) : option Z :=
  if byte_in 48 57 c then Some (byte_of c - 48) else None.

Fixpoint parse_digits (acc : Z) (s : string) : option Z :=
  match s with
  | EmptyString => Some acc
  | String c s' => match digit_value c with Some d => parse_digits (10 * acc + d) s' | None => None end
  end.

(** [strconv.Atoi]: an optional sign, at least one digit, and a value that
    fits [int]; any error is [None]. *)
Definition Atoi (s : string) : option Z :=
  let unsigned (neg : bool) (t : string) :=
    if t =s "" then None
    else match parse_digits 0 t with
    | Some n =>
        let v := if neg then - n else n in
        if (int64_min <=? v) && (v <=? int64_max) then Some v else None
    | None => None
    end in
  match s with
  | EmptyString => None
  | String c s' =>
      if is_byte 45 c then unsigned true s'
      else if is_byte 43 c then unsigned false s'
      else unsigned false s
  end.

(** [strconv.Itoa] and [FormatInt(_, 10)]. *)
Definition Itoa (z : Z) : string := pretty z.

(** ** Lemmas *)

Lemma to_of_bytes l : to_bytes (of_bytes l) = l.
Proof. apply String.list_ascii_of_string_of_list_ascii. Qed.

Lemma of_to_bytes s : of_bytes (to_bytes s) = s.
Proof. apply String.string_of_list_ascii_of_string. Qed.

(** stdpp keeps [append] folded: these two equations unfold it. *)
Lemma append_nil (t : string) : "" +:+ t = t.
Proof. reflexivity. Qed.
Lemma append_cons c (s t : string) : String c s +:+ t = String c (s +:+ t).
Proof. reflexivity. Qed.

Ltac str_induction s := induction s as [|? s IH]; rewrite ?append_nil, ?append_cons; simpl; [done|].

Lemma str_app_assoc (s t u : string) : ((s +:+ t) +:+ u = s +:+ (t +:+ u))%string.
Proof. induction s as [|c s IH]; [done|]. rewrite !append_cons. by rewrite IH. Qed.

Lemma str_app_nil_r (s : string) : s +:+ "" = s.
Proof. str_induction s. by rewrite IH. Qed.

Lemma str_app_length (s t : string) : String.length (s +:+ t) = (String.length s + String.length t)%nat.
Proof. str_induction s. by rewrite IH. Qed.

Lemma to_bytes_app s t : to_bytes (s +:+ t) = to_bytes s ++ to_bytes t.
Proof. induction s as [|c s IH]; [done|]. rewrite append_cons. cbn. f_equal. exact IH. Qed.

Lemma of_bytes_app l m : of_bytes (l ++ m) = of_bytes l +:+ of_bytes m.
Proof. induction l as [|c l IH]; [done|]. cbn [app of_bytes String.string_of_list_ascii]. rewrite append_cons. by f_equal. Qed.

Lemma str_drop_app (s t : string) : str_drop (String.length s) (s +:+ t) = t.
Proof. by induction s. Qed.

Lemma str_drop_all (s : string) : str_drop (String.length s) s = "".
Proof. induction s; simpl; auto. Qed.

Lemma prefix_app (s t : string) : String.prefix s (s +:+ t) = true.
Proof.
  induction s as [|c s IH]; [by destruct t|].
  rewrite append_cons. simpl. by case_match.
Qed.

(** A string with prefix [p] is [p] followed by what [s[len(p):]] leaves. *)
Lemma prefix_drop p s : String.prefix p s = true -> p +:+ str_drop (String.length p) s = s.
Proof.
  revert s. induction p as [|c p IH]; intros s H; [done|].
  destruct s as [|d s]; [done|]. simpl in H. case_match; [|done]. subst.
  rewrite append_cons. simpl. by rewrite (IH s H).
Qed.

Lemma HasPrefix_spec s p : HasPrefix s p = true <-> exists t, s = p +:+ t.
Proof.
  unfold HasPrefix. split.
  - intros H. exists (str_drop (String.length p) s). by rewrite prefix_drop.
  - intros [t ->]. apply prefix_app.
Qed.

Lemma str_take_drop n s : str_take n s +:+ str_drop n s = s.
Proof. revert s. induction n as [|n IH]; intros [|c s]; simpl; try done. by rewrite append_cons, IH. Qed.

Lemma str_length_zero s : String.length s = O -> s = "".
Proof. by destruct s. Qed.

(** ** Decimal round trip *)

Definition is_digit (c : ascii) : bool := byte_in 48 57 c.

Lemma digit_value_pretty n : (n < 10)%N -> digit_value (pretty_N_char n) = Some (Z.of_N n) /\ is_digit (pretty_N_char n) = true.
Proof.
  intros H. assert (n = 0 ∨ n = 1 ∨ n = 2 ∨ n = 3 ∨ n = 4 ∨ n = 5 ∨ n = 6 ∨ n = 7 ∨ n = 8 ∨ n = 9)%N as Hn by lia.
  repeat destruct Hn as [->|Hn]; subst; done.
Qed.

Lemma pretty_go_ind (P : N -> string -> string -> Prop) :
  (forall s, P 0%N s s) ->
  (forall n s t, (0 < n)%N -> P (n / 10)%N (String (pretty_N_char (n mod 10)) s) t -> P n s t) ->
  forall n s, P n s (pretty_N_go n s).
Proof.
  intros H0 HS n. induction (N.lt_wf_0 n) as [n _ IH]. intros s. assert (n = 0 ∨ 0 < n)%N as [->|Hn] by lia; [apply H0|].
  rewrite pretty_N_go_step by done. apply HS; [done|]. apply IH. by apply N.div_lt.
Qed.

Lemma parse_digits_pretty n s : parse_digits 0 (pretty_N_go n s) = parse_digits (Z.of_N n) s.
Proof.
  apply (pretty_go_ind (fun n s t => parse_digits 0 t = parse_digits (Z.of_N n) s)); [done|].
  intros m t u Hm ->. simpl. rewrite (proj1 (digit_value_pretty _ (N.mod_lt m 10 ltac:(lia)))).
  f_equal. rewrite N2Z.inj_div, N2Z.inj_mod. change (Z.of_N 10) with 10. assert (H := Z.div_mod (Z.of_N m) 10). lia.
Qed.

Lemma pretty_digits n s : Forall (fun c => is_digit c = true) (to_bytes s) -> Forall (fun c => is_digit c = true) (to_bytes (pretty_N_go n s)).
Proof.
  apply (pretty_go_ind (fun n s t => Forall _ (to_bytes s) -> Forall _ (to_bytes t))); [done|].
  intros m t u Hm IH Ht. apply IH. constructor; [|done]. apply digit_value_pretty, N.mod_lt. lia.
Qed.

Lemma Itoa_digits z : 0 <= z -> Forall (fun c => is_digit c = true) (to_bytes (Itoa z)).
Proof.
  intros Hz. change (Itoa z) with (pretty_Z z). unfold pretty_Z. destruct z as [|p|p]; [by repeat constructor | | lia].
  change (pretty p) with (pretty_N_go (N.pos p) ""). apply pretty_digits. constructor.
Qed.

Lemma Itoa_parse z : 0 <= z -> parse_digits 0 (Itoa z) = Some z.
Proof.
  intros Hz. change (Itoa z) with (pretty_Z z). unfold pretty_Z. destruct z as [|p|p]; [done | | lia].
  change (pretty p) with (pretty_N_go (N.pos p) ""). by rewrite parse_digits_pretty.
Qed.

Lemma Itoa_nonempty z : 0 <= z -> Itoa z <> "".
Proof.
  intros Hz. change (Itoa z) with (pretty_Z z). unfold pretty_Z. destruct z as [|p|p]; [done | | lia].
  change (pretty p) with (pretty_N_go (N.pos p) "").
  assert (H' : forall n s, (s <> "" \/ n <> 0%N) -> pretty_N_go n s <> "").
  { apply (pretty_go_ind (fun n s t => (s <> "" \/ n <> 0%N) -> t <> "")); [intros s [?|?]; done|]. intros n s t _ IH _. apply IH. by left. }
  apply H'. by right.
Qed.

Lemma digit_bounds c : is_digit c = true -> 48 <= byte_of c <= 57.
Proof. unfold is_digit, byte_in. lia. Qed.

Lemma trim_left_keeps c l : 33 <= byte_of c <= 126 -> trim_left (c :: l) = c :: l.
Proof.
  intros H. simpl. unfold ascii_space, space2, space3, is_byte, byte_in.
  replace ((9 <=? byte_of c) && (byte_of c <=? 13) || (byte_of c =? 32)) with false by lia.
  replace (byte_of c =? 194) with false by lia. replace (byte_of c =? 225) with false by lia.
  replace (byte_of c =? 226) with false by lia. replace (byte_of c =? 227) with false by lia. simpl.
  destruct l as [|b [|d l]]; done.
Qed.

Lemma trim_left_rev_keeps c l : 33 <= byte_of c <= 126 -> trim_left_rev (c :: l) = c :: l.
Proof.
  intros H. simpl. unfold ascii_space, space2, space3, is_byte, byte_in.
  replace ((9 <=? byte_of c) && (byte_of c <=? 13) || (byte_of c =? 32)) with false by lia.
  destruct l as [|b l]; [done|]. replace (byte_of c =? 133) with false by lia. replace (byte_of c =? 160) with false by lia.
  rewrite andb_false_r. destruct l as [|d l]; [done|].
  replace (byte_of c =? 128) with false by lia. replace (byte_of c =? 159) with false by lia.
  replace (128 <=? byte_of c) with false by lia. replace (byte_of c =? 168) with false by lia.
  replace (byte_of c =? 169) with false by lia. replace (byte_of c =? 175) with false by lia.
  by rewrite !andb_false_r.
Qed.

(** A text of printable ASCII without blanks has nothing to trim. *)
Lemma TrimSpace_printable s : Forall (fun c => 33 <= byte_of c <= 126) (to_bytes s) -> TrimSpace s = s.
Proof.
  intros H. unfold TrimSpace. rewrite <- (of_to_bytes s) at 2. f_equal.
  destruct (to_bytes s) as [|c l] eqn:E; [done|]. inversion H; subst. rewrite trim_left_keeps by done.
  destruct (rev (c :: l)) as [|d m] eqn:Er; [by apply (f_equal (@length _)) in Er; rewrite length_rev in Er|].
  assert (Hd : 33 <= byte_of d <= 126).
  { assert (Hr : Forall (fun c => 33 <= byte_of c <= 126) (rev (c :: l))) by (by apply Forall_rev). rewrite Er in Hr. by inversion Hr. }
  rewrite trim_left_rev_keeps by done. by rewrite <- Er, rev_involutive.
Qed.

Lemma Atoi_Itoa z : 0 <= z <= int64_max -> Atoi (Itoa z) = Some z.
Proof.
  intros Hz. assert (Hd := Itoa_digits z ltac:(lia)). assert (Hp := Itoa_parse z ltac:(lia)).
  assert (Hn := Itoa_nonempty z ltac:(lia)). destruct (Itoa z) as [|c s]; [done|]. inversion Hd as [|? ? Hc _]; subst.
  apply digit_bounds in Hc. unfold Atoi, is_byte. replace (byte_of c =? 45) with false by lia.
  replace (byte_of c =? 43) with false by lia.
  replace (String c s =s "") with false by done. rewrite Hp. unfold int64_min, int64_max in *.
  replace (_ && _) with true by lia. done.
Qed.

Lemma TrimSpace_Itoa z : 0 <= z -> TrimSpace (Itoa z) = Itoa z.
Proof.
  intros Hz. apply TrimSpace_printable. eapply Forall_impl; [by apply Itoa_digits|].
  intros c Hc. apply digit_bounds in Hc. lia.
Qed.

Example trim_ex1 : TrimSpace "  a b  " = "a b".
Proof. reflexivity. Qed.
Example lower_ex1 : ToLower "Auto-2K" = "auto-2k".
Proof. reflexivity. Qed.
Example split_ex1 : SplitByte "2048x1152" "x" = ["2048"; "1152"].
Proof. reflexivity. Qed.
Example atoi_ex1 : (Atoi "-12", Atoi "+7", Atoi "", Atoi "1_0", Atoi "9223372036854775808")
                   = (Some (-12), Some 7, None, None, None).
Proof. vm_compute. reflexivity. Qed.
