(* ===== verification/Json.v ===== *)
(** * Json: the parts of [encoding/json] the modelled code uses

    [Valid], decoding of an object into its raw members, decoding of a JSON
    string, quoting of a string, and the compact form of a raw message inside
    an encoded map.  Everything works on the bytes of the text, as the Go
    package does: a number or a nested value is never interpreted, only
    delimited.  Recursion is fuelled by the length of the text;
    [scan_fuel_enough] shows that more fuel never changes a result. *)

From S2P Require Import Prelude GoStrings.

Module Json.

(** ** UTF-8 *)

Definition cont (c : ascii) : bool := byte_in 128 191 c.

(** [utf8.DecodeRune]: the rune and its width; an invalid sequence is
    U+FFFD of width 1. *)
Definition RuneError : Z := 65533.

Definition decode_rune (l : list ascii) : Z * nat :=
  match l with
  | [] => (RuneError, O)
  | a :: t =>
      let x := byte_of a in
      if x <? 128 then (x, 1%nat)
      else match t with
      | b :: t2 =>
          let y := byte_of b in
          if (194 <=? x) && (x <=? 223) && cont b then ((x - 192) * 64 + (y - 128), 2%nat)
          else match t2 with
          | c :: t3 =>
              let z := byte_of c in
              let lo := if x =? 224 then 160 else 128 in
              let hi := if x =? 237 then 159 else 191 in
              if (224 <=? x) && (x <=? 239) && (lo <=? y) && (y <=? hi) && cont c
              then ((x - 224) * 4096 + (y - 128) * 64 + (z - 128), 3%nat)
              else match t3 with
              | d :: _ =>
                  let lo := if x =? 240 then 144 else 128 in
                  let hi := if x =? 244 then 143 else 191 in
                  if (240 <=? x) && (x <=? 244) && (lo <=? y) && (y <=? hi) && cont c && cont d
                  then ((x - 240) * 262144 + (y - 128) * 4096 + (z - 128) * 64 + (byte_of d - 128), 4%nat)
                  else (RuneError, 1%nat)
              | [] => (RuneError, 1%nat)
              end
          | [] => (RuneError, 1%nat)
          end
      | [] => (RuneError, 1%nat)
      end
  end.

(** [utf8.AppendRune]. *)
Definition encode_rune (r : Z) : list ascii :=
  let r := if (r <? 0) || (1114111 <? r) || ((55296 <=? r) && (r <=? 57343)) then RuneError else r in
  if r <? 128 then [chr r]
  else if r <? 2048 then [chr (192 + r / 64); chr (128 + r mod 64)]
  else if r <? 65536 then [chr (224 + r / 4096); chr (128 + (r / 64) mod 64); chr (128 + r mod 64)]
  else [chr (240 + r / 262144); chr (128 + (r / 4096) mod 64); chr (128 + (r / 64) mod 64); chr (128 + r mod 64)].

(** [utf8.ValidString]. *)
Fixpoint valid_utf8_fuel (n : nat) (l : list ascii) : bool :=
  match n, l with
  | _, [] => true
  | O, _ => false
  | S n, a :: _ =>
      let '(r, w) := decode_rune l in
      if (r =? RuneError) && (w =? 1)%nat then false else valid_utf8_fuel n (drop w l)
  end.
Definition ValidString (s : string) : bool := valid_utf8_fuel (String.length s) (to_bytes s).

(** *** Valid text and its prefixes *)

Lemma to_bytes_take n s : to_bytes (str_take n s) = take n (to_bytes s).
Proof. revert s. induction n as [|n IH]; intros [|c s]; simpl; try done. by f_equal. Qed.

Lemma length_to_bytes s : length (to_bytes s) = String.length s.
Proof. induction s; simpl; auto. Qed.

(** What a valid sequence decodes to depends on its own bytes only. *)
Lemma decode_rune_take l r w n :
  decode_rune l = (r, w) -> (r =? RuneError) && (w =? 1)%nat = false -> l <> [] -> (w <= n)%nat ->
  decode_rune (take n l) = (r, w) /\ (1 <= w <= 4)%nat /\ (w <= length l)%nat.
Proof.
  intros H Hv Hne Hn. destruct l as [|a t]; [done|]. unfold decode_rune in H.
  destruct (byte_of a <? 128) eqn:Ea.
  { injection H as <- <-. destruct n; [lia|]. simpl. rewrite Ea. split_and!; auto; lia. }
  destruct t as [|b t]; [injection H as <- <-; done|].
  destruct ((194 <=? byte_of a) && (byte_of a <=? 223) && cont b) eqn:Eb.
  { injection H as <- <-. destruct n as [|[|n]]; [lia..|]. simpl. rewrite Ea, Eb. split_and!; auto; simpl; lia. }
  destruct t as [|c t]; [injection H as <- <-; done|]. cbv zeta in H.
  destruct (_ && _ && _ && _ && cont c) eqn:Ec.
  { injection H as <- <-. destruct n as [|[|[|n]]]; [lia..|]. simpl. rewrite Ea, Eb. cbv zeta. rewrite Ec. split_and!; auto; simpl; lia. }
  destruct t as [|d t]; [injection H as <- <-; done|].
  destruct (_ && _ && _ && _ && cont c && cont d) eqn:Ed; injection H as <- <-; [|done].
  destruct n as [|[|[|[|n]]]]; [lia..|]. simpl. rewrite Ea, Eb. cbv zeta. rewrite Ec, Ed. split_and!; auto; simpl; lia.
Qed.

Lemma valid_utf8_step n l : l <> [] -> valid_utf8_fuel (S n) l =
  (let '(r, w) := decode_rune l in if (r =? RuneError) && (w =? 1)%nat then false else valid_utf8_fuel n (drop w l)).
Proof. by destruct l. Qed.

Lemma valid_utf8_enough n m l : (length l <= m)%nat -> valid_utf8_fuel n l = true -> valid_utf8_fuel m l = true.
Proof.
  revert m l. induction n as [|n IH]; intros m l Hm Hv; [destruct l; [by destruct m | by simpl in Hv]|].
  destruct (decide (l = [])) as [->|Hne]; [by destruct m|]. destruct m as [|m]; [destruct l; [done | simpl in Hm; lia]|].
  rewrite valid_utf8_step in Hv |- * by done.
  destruct (decode_rune l) as [r w] eqn:Ed. destruct ((r =? RuneError) && _) eqn:Er; [done|].
  destruct (decode_rune_take _ r w w Ed Er Hne ltac:(lia)) as (_ & Hw & Hl).
  apply IH; [|done]. rewrite length_drop. lia.
Qed.

(** Below any length a valid text has a valid prefix at most three bytes
    shorter. *)
Lemma valid_prefix_near n l m :
  valid_utf8_fuel n l = true -> (m <= length l)%nat ->
  exists p, (m - 3 <= p <= m)%nat /\ valid_utf8_fuel n (take p l) = true.
Proof.
  revert l m. induction n as [|n IH]; intros l m Hv Hm.
  { destruct l; [|done]. exists O. simpl in *. split; [lia|done]. }
  destruct (decide (m <= 3)%nat); [exists O; split; [lia|done]|].
  assert (Hne : l <> []) by (intros ->; simpl in Hm; lia).
  rewrite valid_utf8_step in Hv by done. destruct (decode_rune l) as [r w] eqn:Ed.
  destruct ((r =? RuneError) && _) eqn:Er; [done|].
  destruct (decode_rune_take l r w w Ed Er Hne ltac:(lia)) as (_ & Hw & Hl).
  destruct (IH (drop w l) (m - w)%nat Hv) as (p & Hp & Hvp); [rewrite length_drop; lia|].
  exists (w + p)%nat. split; [lia|]. destruct (decode_rune_take l r w (w + p) Ed Er Hne ltac:(lia)) as (Ht & _ & _).
  rewrite valid_utf8_step by (destruct l; [done|]; destruct w; [lia|done]). rewrite Ht, Er.
  rewrite skipn_firstn_comm. replace (w + p - w)%nat with p by lia. done.
Qed.

Lemma ValidString_take s n p :
  valid_utf8_fuel p (take n (to_bytes s)) = true -> ValidString (str_take n s) = true.
Proof.
  unfold ValidString. intros H. rewrite to_bytes_take. eapply valid_utf8_enough; [|exact H].
  rewrite <- to_bytes_take. by rewrite length_to_bytes.
Qed.

(** Runes in the printable ASCII range are single bytes. *)
Lemma decode_rune_ascii l r w : decode_rune l = (r, w) -> l <> [] -> 33 <= r <= 126 ->
  exists a t, l = a :: t /\ r = byte_of a /\ w = 1%nat.
Proof.
  intros H Hne Hr. destruct l as [|a t]; [done|]. exists a, t. unfold decode_rune, RuneError in H.
  destruct (byte_of a <? 128) eqn:Ea; [by injection H as <- <-|]. exfalso.
  destruct (byte_of a =? 224) eqn:E1, (byte_of a =? 240) eqn:E2;
  destruct t as [|b [|c [|d t]]]; unfold cont, byte_in in H; cbv beta iota zeta in H;
    repeat match type of H with (if ?b then _ else _) = _ => destruct b eqn:?; [injection H as <- <-; lia|] end;
    injection H as <- <-; lia.
Qed.

(** ** The scanner *)

Definition json_space (c : ascii) : bool := is_byte 32 c || is_byte 9 c || is_byte 10 c || is_byte 13 c.

Fixpoint skip_ws (s : string) : string :=
  match s with String c r => if json_space c then skip_ws r else s | EmptyString => s end.

Definition hex_value (c : ascii) : option Z :=
  if byte_in 48 57 c then Some (byte_of c - 48)
  else if byte_in 97 102 c then Some (byte_of c - 87)
  else if byte_in 65 70 c then Some (byte_of c - 55)
  else None.
Definition is_hex (c : ascii) : bool := match hex_value c with Some _ => true | None => false end.

(** The character after a backslash, other than [u]. *)
Definition simple_escape (c : ascii) : option ascii :=
  if is_byte 34 c || is_byte 92 c || is_byte 47 c then Some c
  else if is_byte 98 c then Some (chr 8)
  else if is_byte 102 c then Some (chr 12)
  else if is_byte 110 c then Some (chr 10)
  else if is_byte 114 c then Some (chr 13)
  else if is_byte 116 c then Some (chr 9)
  else None.

(** After the opening quote: what follows the closing one. *)
Fixpoint scan_string (s : string) : option string :=
  match s with
  | EmptyString => None
  | String c r =>
      if is_byte 34 c then Some r
      else if is_byte 92 c then
        match r with
        | String e r1 =>
            if is_byte 117 e then
              match r1 with
              | String h1 (String h2 (String h3 (String h4 r2))) =>
                  if is_hex h1 && is_hex h2 && is_hex h3 && is_hex h4 then scan_string r2 else None
              | _ => None
              end
            else match simple_escape e with Some _ => scan_string r1 | None => None end
        | EmptyString => None
        end
      else if byte_of c <? 32 then None
      else scan_string r
  end.

Fixpoint skip_digits (s : string) : string :=
  match s with String c r => if byte_in 48 57 c then skip_digits r else s | EmptyString => s end.

(** At least one digit, then [k]. *)
Definition digits1 (s : string) : option string :=
  match s with String c r => if byte_in 48 57 c then Some (skip_digits r) else None | EmptyString => None end.

Definition scan_exponent (s : string) : option string :=
  match s with
  | String c r =>
      if is_byte 101 c || is_byte 69 c then
        match r with
        | String g r1 => if is_byte 43 g || is_byte 45 g then digits1 r1 else digits1 r
        | EmptyString => None
        end
      else Some s
  | EmptyString => Some s
  end.

Definition scan_fraction (s : string) : option string :=
  match s with
  | String c r => if is_byte 46 c then match digits1 r with Some r1 => scan_exponent r1 | None => None end
                  else scan_exponent s
  | EmptyString => Some s
  end.

Definition scan_number (s : string) : option string :=
  let s := match s with String c r => if is_byte 45 c then r else s | EmptyString => s end in
  match s with
  | String c r =>
      if is_byte 48 c then scan_fraction r
      else if byte_in 49 57 c then scan_fraction (skip_digits r)
      else None
  | EmptyString => None
  end.

Definition scan_literal (s lit : string) : option string :=
  if HasPrefix s lit then Some (str_drop (String.length lit) s) else None.

Definition maxNestingDepth : Z := 10000.

(** A value: what follows it.  [depth] counts the open brackets. *)
Fixpoint scan_value (fuel : nat) (depth : Z) (s : string) : option string :=
  match fuel with
  | O => None
  | S fuel =>
      match skip_ws s with
      | EmptyString => None
      | String c r =>
          if is_byte 34 c then scan_string r
          else if is_byte 123 c then
            if maxNestingDepth <=? depth then None
            else match skip_ws r with
            | String d r1 => if is_byte 125 d then Some r1 else scan_members fuel (depth + 1) (skip_ws r)
            | EmptyString => None
            end
          else if is_byte 91 c then
            if maxNestingDepth <=? depth then None
            else match skip_ws r with
            | String d r1 => if is_byte 93 d then Some r1 else scan_elements fuel (depth + 1) (skip_ws r)
            | EmptyString => None
            end
          else if is_byte 116 c then scan_literal (String c r) "true"
          else if is_byte 102 c then scan_literal (String c r) "false"
          else if is_byte 110 c then scan_literal (String c r) "null"
          else scan_number (String c r)
      end
  end
with scan_members (fuel : nat) (depth : Z) (s : string) : option string :=
  match fuel with
  | O => None
  | S fuel =>
      match skip_ws s with
      | String c r =>
          if is_byte 34 c then
            match scan_string r with
            | Some r1 =>
                match skip_ws r1 with
                | String d r2 =>
                    if is_byte 58 d then
                      match scan_value fuel depth r2 with
                      | Some r3 =>
                          match skip_ws r3 with
                          | String e r4 =>
                              if is_byte 44 e then scan_members fuel depth r4
                              else if is_byte 125 e then Some r4 else None
                          | EmptyString => None
                          end
                      | None => None
                      end
                    else None
                | EmptyString => None
                end
            | None => None
            end
          else None
      | EmptyString => None
      end
  end
with scan_elements (fuel : nat) (depth : Z) (s : string) : option string :=
  match fuel with
  | O => None
  | S fuel =>
      match scan_value fuel depth s with
      | Some r3 =>
          match skip_ws r3 with
          | String e r4 =>
              if is_byte 44 e then scan_elements fuel depth r4
              else if is_byte 93 e then Some r4 else None
          | EmptyString => None
          end
      | None => None
      end
  end.

(** Two calls per nesting level: twice the length is ample. *)
Definition scan_fuel (s : string) : nat := S (S (2 * String.length s)).

Definition scan (s : string) : option string := scan_value (scan_fuel s) 0 s.

(** [json.Valid]. *)
Definition Valid (s : string) : bool :=
  match scan s with Some r => skip_ws r =s "" | None => false end.

(** ** Decoding *)

(** The text between a position and a later one. *)
Definition slice (s rest : string) : string := str_take (String.length s - String.length rest) s.

Definition hex4 (h1 h2 h3 h4 : ascii) : option Z :=
  match hex_value h1, hex_value h2, hex_value h3, hex_value h4 with
  | Some a, Some b, Some c, Some d => Some (((a * 16 + b) * 16 + c) * 16 + d)
  | _, _, _, _ => None
  end.

(** [utf16.DecodeRune]. *)
Definition decode_surrogates (r1 r2 : Z) : Z :=
  if (55296 <=? r1) && (r1 <? 56320) && (56320 <=? r2) && (r2 <? 57344)
  then (r1 - 55296) * 1024 + (r2 - 56320) + 65536 else RuneError.

Definition is_surrogate (r : Z) : bool := (55296 <=? r) && (r <? 57344).

(** The value of a string literal, after its opening quote; the literal has
    been scanned, so malformed escapes do not occur. *)
Fixpoint unquote_body (fuel : nat) (s : list ascii) : list ascii :=
  match fuel with
  | O => []
  | S fuel =>
      match s with
      | [] => []
      | c :: r =>
          if is_byte 34 c then []
          else if is_byte 92 c then
            match r with
            | e :: r1 =>
                if is_byte 117 e then
                  match r1 with
                  | h1 :: h2 :: h3 :: h4 :: r2 =>
                      let rr := default RuneError (hex4 h1 h2 h3 h4) in
                      if is_surrogate rr then
                        match r2 with
                        | b :: u :: g1 :: g2 :: g3 :: g4 :: r3 =>
                            let dec := if is_byte 92 b && is_byte 117 u
                                       then decode_surrogates rr (default RuneError (hex4 g1 g2 g3 g4)) else RuneError in
                            if dec =? RuneError then encode_rune RuneError ++ unquote_body fuel r2
                            else encode_rune dec ++ unquote_body fuel r3
                        | _ => encode_rune RuneError ++ unquote_body fuel r2
                        end
                      else encode_rune rr ++ unquote_body fuel r2
                  | _ => []
                  end
                else match simple_escape e with Some x => x :: unquote_body fuel r1 | None => [] end
            | [] => []
            end
          else if byte_of c <? 128 then c :: unquote_body fuel r
          else let '(rr, w) := decode_rune s in encode_rune rr ++ unquote_body fuel (drop w s)
      end
  end.

Definition unquote (after_quote : string) : string :=
  of_bytes (unquote_body (S (String.length after_quote)) (to_bytes after_quote)).

(** The members of a scanned object, from its first key on. *)
Fixpoint members (fuel : nat) (s : string) : list (string * string) :=
  match fuel with
  | O => []
  | S fuel =>
      match skip_ws s with
      | String _ r =>
          match scan_string r with
          | Some r1 =>
              match skip_ws r1 with
              | String _ r2 =>
                  let v := skip_ws r2 in
                  match scan v with
                  | Some r3 =>
                      (unquote r, slice v r3) ::
                      match skip_ws r3 with
                      | String e r4 => if is_byte 44 e then members fuel r4 else []
                      | EmptyString => []
                      end
                  | None => []
                  end
              | EmptyString => []
              end
          | None => []
          end
      | EmptyString => []
      end
  end.

(** [json.Unmarshal] into a [map[string]json.RawMessage]: [None] is an error,
    [null] leaves the map nil, and the last of several equal keys wins. *)
Definition unmarshal_object (s : string) : option (gmap string string) :=
  if negb (Valid s) then None
  else match skip_ws s with
  | String c r =>
      if is_byte 123 c then
        match skip_ws r with
        | String d _ =>
            if is_byte 125 d then Some ∅
            else Some (fold_left (fun m kv => <[fst kv := snd kv]> m) (members (String.length s) r) ∅)
        | EmptyString => None
        end
      else if is_byte 110 c then Some ∅
      else None
  | EmptyString => None
  end.

(** [json.Unmarshal] into a [string] variable holding the empty string. *)
Definition unmarshal_string (s : string) : option string :=
  if negb (Valid s) then None
  else match skip_ws s with
  | String c r => if is_byte 34 c then Some (unquote r) else if is_byte 110 c then Some "" else None
  | EmptyString => None
  end.

(** ** Encoding *)

Definition hex_digit (n : Z) : ascii := if n <? 10 then chr (48 + n) else chr (87 + n).

Definition u_escape (n : Z) : list ascii :=
  to_bytes "\u" ++ [hex_digit (n / 4096); hex_digit ((n / 256) mod 16); hex_digit ((n / 16) mod 16); hex_digit (n mod 16)].

(** One byte below 128, as [json.Marshal] writes it inside a string. *)
Definition quote_ascii (c : ascii) : list ascii :=
  if is_byte 34 c then to_bytes "\" ++ [c]
  else if is_byte 92 c then to_bytes "\" ++ [c]
  else if is_byte 8 c then to_bytes "\b"
  else if is_byte 12 c then to_bytes "\f"
  else if is_byte 10 c then to_bytes "\n"
  else if is_byte 13 c then to_bytes "\r"
  else if is_byte 9 c then to_bytes "\t"
  else if (byte_of c <? 32) || is_byte 60 c || is_byte 62 c || is_byte 38 c then u_escape (byte_of c)
  else [c].

Fixpoint quote_body (fuel : nat) (l : list ascii) : list ascii :=
  match fuel, l with
  | _, [] => []
  | O, _ => []
  | S fuel, c :: r =>
      if byte_of c <? 128 then quote_ascii c ++ quote_body fuel r
      else
        let '(rr, w) := decode_rune l in
        if (rr =? RuneError) && (w =? 1)%nat then to_bytes "\ufffd" ++ quote_body fuel r
        else if (rr =? 8232) || (rr =? 8233) then u_escape rr ++ quote_body fuel (drop w l)
        else take w l ++ quote_body fuel (drop w l)
  end.

Definition dquote : ascii := chr 34.

(** [json.Marshal] of a string. *)
Definition quote (s : string) : string :=
  of_bytes (dquote :: quote_body (String.length s) (to_bytes s) ++ [dquote]).

(** A raw message inside an encoded value: white space outside strings is
    dropped and the HTML characters are escaped. *)
Fixpoint compact_raw (in_string : bool) (l : list ascii) : list ascii :=
  match l with
  | [] => []
  | c :: r =>
      if in_string && is_byte 92 c then
        match r with e :: r1 => c :: e :: compact_raw true r1 | [] => [c] end
      else if is_byte 34 c then c :: compact_raw (negb in_string) r
      else if negb in_string && json_space c then compact_raw in_string r
      else if is_byte 60 c || is_byte 62 c || is_byte 38 c then u_escape (byte_of c) ++ compact_raw in_string r
      else match r with
      | b :: d :: r2 =>
          if is_byte 226 c && is_byte 128 b && is_byte 168 d then u_escape 8232 ++ compact_raw in_string r2
          else if is_byte 226 c && is_byte 128 b && is_byte 169 d then u_escape 8233 ++ compact_raw in_string r2
          else c :: compact_raw in_string r
      | _ => c :: compact_raw in_string r
      end
  end.

Definition compact (s : string) : string := of_bytes (compact_raw false (to_bytes s)).

Definition string_leb (s t : string) : bool :=
  match String.compare s t with Gt => false | _ => true end.

Fixpoint insert_key (kv : string * string) (l : list (string * string)) : list (string * string) :=
  match l with
  | [] => [kv]
  | kv' :: l' => if string_leb (fst kv) (fst kv') then kv :: l else kv' :: insert_key kv l'
  end.

(** [json.Marshal] of a [map[string]json.RawMessage]: keys in byte order. *)
Definition marshal_raw_map (m : gmap string string) : string :=
  let kvs := foldr insert_key [] (map_to_list m) in
  let member kv := quote (fst kv) +:+ ":" +:+ compact (snd kv) in
  "{" +:+ String.concat "," (map member kvs) +:+ "}".

(** Test inputs, written with single quotes for double ones. *)
Definition sq (s : string) : string :=
  of_bytes (map (fun c => if is_byte 39 c then dquote else c) (to_bytes s)).

Example valid_ex1 : map (fun s => Valid (sq s)) ["{}"; " {'a' : [1, -2.5e+3, true, null] } "; "{'a':}"; "01"; "[1,]"; "'\ud83d\ude00'"]
  = [true; true; false; false; false; true].
Proof. vm_compute. reflexivity. Qed.

Example object_ex1 : (unmarshal_object (sq "{'a': [1, 2] , 'input':'x\n'}")) = Some {[ "a" := "[1, 2]"; "input" := sq "'x\n'" ]}.
Proof. vm_compute. reflexivity. Qed.

(** ** The fuel is enough *)

Definition shorter (o : option string) (s : string) : Prop :=
  match o with Some r => (String.length r < String.length s)%nat | None => True end.

Lemma skip_ws_length s : (String.length (skip_ws s) <= String.length s)%nat.
Proof. induction s as [|c s IH]; simpl; [done|]. case_match; simpl; lia. Qed.

Lemma scan_string_length s : shorter (scan_string s) s.
Proof.
  enough (H : forall n s, (String.length s <= n)%nat -> shorter (scan_string s) s) by (by eapply H).
  clear s. induction n as [|n IH]; intros [|c s] Hn; simpl in Hn; try lia; try done.
  assert (IH' : forall t, (String.length t <= String.length s)%nat -> shorter (scan_string t) (String c s)).
  { intros t Ht. specialize (IH t ltac:(lia)). destruct (scan_string t); simpl in *; lia. }
  simpl. repeat case_match; subst; try done; simpl; try lia; apply IH'; simpl; lia.
Qed.

Lemma skip_digits_length s : (String.length (skip_digits s) <= String.length s)%nat.
Proof. induction s as [|c s IH]; simpl; [done|]. case_match; simpl; lia. Qed.

Lemma digits1_length s : shorter (digits1 s) s.
Proof. destruct s as [|c s]; simpl; [done|]. case_match; simpl; [|done]. pose proof (skip_digits_length s). lia. Qed.

Lemma shorter_le o s t : shorter o s -> (String.length s <= String.length t)%nat -> shorter o t.
Proof. destruct o; simpl; [lia | done]. Qed.

Definition no_longer (o : option string) (s : string) : Prop :=
  match o with Some r => (String.length r <= String.length s)%nat | None => True end.

Lemma scan_exponent_length s : no_longer (scan_exponent s) s.
Proof.
  destruct s as [|c s]; simpl; [done|]. repeat case_match; simpl; try done; subst.
  - pose proof (digits1_length s0) as H'. destruct (digits1 s0); simpl in *; lia.
  - pose proof (digits1_length (String a s0)) as H'. simpl digits1 in *.
    destruct (if byte_in 48 57 a then _ else _); simpl in *; lia.
Qed.

Lemma scan_fraction_length s : no_longer (scan_fraction s) s.
Proof.
  destruct s as [|c s]; simpl scan_fraction; [simpl; lia|]. case_match.
  - pose proof (digits1_length s) as H1. destruct (digits1 s) as [r|]; [|done].
    pose proof (scan_exponent_length r) as H2. destruct (scan_exponent r); simpl in *; [lia | done].
  - apply (scan_exponent_length (String c s)).
Qed.

Lemma scan_number_length s : shorter (scan_number s) s.
Proof.
  assert (H : forall t, shorter (match t with
     | String c r => if is_byte 48 c then scan_fraction r else if is_byte 49 c || byte_in 49 57 c then scan_fraction (skip_digits r) else None
     | EmptyString => None end) t).
  { intros [|c r]; simpl; [done|]. case_match.
    - pose proof (scan_fraction_length r). destruct (scan_fraction r); simpl in *; [lia | done].
    - case_match; [|done]. pose proof (scan_fraction_length (skip_digits r)). pose proof (skip_digits_length r).
      destruct (scan_fraction (skip_digits r)); simpl in *; [lia | done]. }
  unfold scan_number.
  assert (Hd : forall c, byte_in 49 57 c = is_byte 49 c || byte_in 49 57 c).
  { intros c. unfold is_byte, byte_in. lia. }
  destruct s as [|c s]; [done|]. destruct (is_byte 45 c).
  - specialize (H s). destruct s as [|d s]; [done|]. rewrite Hd. eapply shorter_le; [exact H | simpl; lia].
  - specialize (H (String c s)). rewrite Hd. exact H.
Qed.

Lemma str_drop_length n s : String.length (str_drop n s) = (String.length s - n)%nat.
Proof. revert s. induction n as [|n IH]; intros [|c s]; simpl; auto. Qed.

Lemma scan_literal_length s lit : lit <> "" -> shorter (scan_literal s lit) s.
Proof.
  intros Hl. unfold scan_literal. destruct (HasPrefix s lit) eqn:E; [|done]. simpl.
  rewrite str_drop_length. apply HasPrefix_spec in E as [t ->]. rewrite str_app_length.
  destruct lit; [done | simpl; lia].
Qed.

Ltac lengths :=
  repeat match goal with
  | H : skip_ws ?s = _ |- _ =>
      lazymatch goal with
      | _ : (String.length (skip_ws s) <= _)%nat |- _ => fail
      | _ => pose proof (skip_ws_length s)
      end
  | H : scan_string ?s = Some _ |- _ =>
      lazymatch goal with
      | _ : shorter (scan_string s) _ |- _ => fail
      | _ => pose proof (scan_string_length s)
      end
  end;
  repeat match goal with
  | H : skip_ws ?s = _, H' : (String.length (skip_ws ?s) <= _)%nat |- _ => rewrite H in H'; clear H; simpl String.length in H'
  | H : scan_string ?s = _, H' : shorter (scan_string ?s) _ |- _ => rewrite H in H'; clear H; simpl in H'
  end; simpl in *; try lia.

Lemma scan_length fuel :
  (forall d s, shorter (scan_value fuel d s) s) /\
  (forall d s, shorter (scan_members fuel d s) s) /\
  (forall d s, shorter (scan_elements fuel d s) s).
Proof.
  induction fuel as [|fuel (IHv & IHm & IHe)]; [done|].
  split_and!; intros d s; simpl.
  - destruct (skip_ws s) as [|c r] eqn:Es; [done|].
    assert (Hr : (String.length r < String.length s)%nat) by lengths.
    case_match; [eapply shorter_le; [apply scan_string_length | lia]|].
    case_match.
    { case_match; [done|]. destruct (skip_ws r) as [|e r1] eqn:Er; [done|].
      case_match; [lengths|]. eapply shorter_le; [apply IHm | lengths]. }
    case_match.
    { case_match; [done|]. destruct (skip_ws r) as [|e r1] eqn:Er; [done|].
      case_match; [lengths|]. eapply shorter_le; [apply IHe | lengths]. }
    assert (Hle : (String.length (String c r) <= String.length s)%nat) by (simpl; lia).
    repeat case_match; (eapply shorter_le; [first [by apply scan_literal_length | apply scan_number_length] | exact Hle]).
  - destruct (skip_ws s) as [|c r] eqn:Es; [done|]. case_match; [|done].
    destruct (scan_string r) as [r1|] eqn:Er; [|done].
    destruct (skip_ws r1) as [|e r2] eqn:Er1; [done|]. case_match; [|done].
    pose proof (IHv d r2) as Hv. destruct (scan_value fuel d r2) as [r3|]; [|done].
    destruct (skip_ws r3) as [|g r4] eqn:Er3; [done|].
    case_match; [eapply shorter_le; [apply IHm | lengths] | case_match; [lengths | done]].
  - pose proof (IHv d s) as Hv. destruct (scan_value fuel d s) as [r3|]; [|done].
    destruct (skip_ws r3) as [|g r4] eqn:Er3; [done|].
    case_match; [eapply shorter_le; [apply IHe | lengths] | case_match; [lengths | done]].
Qed.

Lemma scan_fuel_indep fuel :
  (forall m d s, (2 * String.length s + 1 <= fuel)%nat -> (2 * String.length s + 1 <= m)%nat ->
     scan_value fuel d s = scan_value m d s) /\
  (forall m d s, (2 * String.length s + 2 <= fuel)%nat -> (2 * String.length s + 2 <= m)%nat ->
     scan_members fuel d s = scan_members m d s) /\
  (forall m d s, (2 * String.length s + 2 <= fuel)%nat -> (2 * String.length s + 2 <= m)%nat ->
     scan_elements fuel d s = scan_elements m d s).
Proof.
  induction fuel as [|fuel (IHv & IHm & IHe)]; [split_and!; intros; lia|].
  split_and!; intros [|m] d s Hf Hm; try lia; simpl.
  - destruct (skip_ws s) as [|c r] eqn:Es; [done|].
    case_match; [done|].
    case_match.
    { case_match; [done|]. destruct (skip_ws r) as [|e r1] eqn:Er; [done|].
      case_match; [done|]. apply IHm; lengths. }
    case_match; [|done].
    case_match; [done|]. destruct (skip_ws r) as [|e r1] eqn:Er; [done|].
    case_match; [done|]. apply IHe; lengths.
  - destruct (skip_ws s) as [|c r] eqn:Es; [done|]. case_match; [|done].
    destruct (scan_string r) as [r1|] eqn:Er; [|done].
    destruct (skip_ws r1) as [|e r2] eqn:Er1; [done|]. case_match; [|done].
    rewrite (IHv m d r2) by lengths.
    pose proof (proj1 (scan_length m) d r2) as Hv. destruct (scan_value m d r2) as [r3|]; [|done].
    destruct (skip_ws r3) as [|g r4] eqn:Er3; [done|].
    case_match; [|done]. apply IHm; lengths.
  - rewrite (IHv m d s) by lia.
    pose proof (proj1 (scan_length m) d s) as Hv. destruct (scan_value m d s) as [r3|]; [|done].
    destruct (skip_ws r3) as [|g r4] eqn:Er3; [done|].
    case_match; [|done]. apply IHe; lengths.
Qed.

(** More fuel than [scan_fuel] never changes the result of a scan. *)
Lemma scan_fuel_enough fuel s : (scan_fuel s <= fuel)%nat -> scan_value fuel 0 s = scan s.
Proof. unfold scan_fuel. intros H. apply (proj1 (scan_fuel_indep fuel)); unfold scan_fuel; lia. Qed.

End Json.
