(* ===== verification/JsonCodec.v ===== *)
(** * JsonCodec: Go values as JSON text and back

    [json.Marshal] of the values the converters build and [json.Unmarshal]
    into the structs they read, on the text functions of [Json].  An encoder
    gives the members of its value ([omitempty] ones left out) as a [json]
    tree, which [print] writes; a decoder gets the text of a value and the
    current content of the variable it decodes into, as [encoding/json] does:
    [null] changes nothing but a pointer, a slice or a raw message, names match
    exactly or else without regard to case, the last of several equal names
    wins, unknown names are skipped and any mismatch of types is an error.

    The round trip at the end: text that [print] wrote is valid, is not
    changed by another pass of [json.Marshal] over it, and decodes to the
    members it was written from. *)

From S2P Require Import Prelude GoStrings Json.

Module JsonCodec.
Import Json.

(** ** Encoding *)

#[warnings="-register-all"]
Inductive json :=
| JString (s : string)
| JBool (b : bool)
| JRaw (s : string)
| JArray (l : list json)
| JObject (l : list (string * json)).

Fixpoint print (j : json) : string :=
  match j with
  | JString s => quote s
  | JBool b => if b then "true" else "false"
  | JRaw s => compact s
  | JArray l => "[" +:+ String.concat "," (map print l) +:+ "]"
  | JObject l => "{" +:+ String.concat "," (map (fun kv => quote (fst kv) +:+ ":" +:+ print (snd kv)) l) +:+ "}"
  end.

(** [json.Marshal] refuses a raw message that is not JSON. *)
Fixpoint raw_valid (j : json) : bool :=
  match j with
  | JString _ | JBool _ => true
  | JRaw s => Valid s
  | JArray l => forallb raw_valid l
  | JObject l => forallb (fun kv => raw_valid (snd kv)) l
  end.

Definition Marshal (j : json) : option string := if raw_valid j then Some (print j) else None.

(** Members with [omitempty]. *)
Definition omit_string (k s : string) : list (string * json) := if s =s "" then [] else [(k, JString s)].
Definition omit_raw (k s : string) : list (string * json) := if s =s "" then [] else [(k, JRaw s)].
Definition omit_list (k : string) (l : list json) : list (string * json) :=
  match l with [] => [] | _ => [(k, JArray l)] end.

(** ** Decoding *)

Definition decoder (A : Type) : Type := string -> A -> option A.

Definition first_is (n : Z) (v : string) : bool := match v with String c _ => is_byte n c | EmptyString => false end.
Definition is_null (v : string) : bool := first_is 110 v.

Definition decode_string : decoder string := fun v old =>
  match v with
  | String c r => if is_byte 34 c then Some (unquote r) else if is_byte 110 c then Some old else None
  | EmptyString => None
  end.

Definition decode_bool : decoder bool := fun v old =>
  if first_is 116 v then Some true else if first_is 102 v then Some false else if is_null v then Some old else None.

(** [json.RawMessage]: the text itself, [null] included. *)
Definition decode_raw : decoder string := fun v _ => Some v.

Definition decode_pointer {A} (zero : A) (d : decoder A) : decoder (option A) := fun v old =>
  if is_null v then Some None else Some <$> d v (default zero old).

(** The elements of a scanned array, from its first one on. *)
Fixpoint elements (fuel : nat) (s : string) : list string :=
  match fuel with
  | O => []
  | S fuel =>
      let v := skip_ws s in
      match scan v with
      | Some r =>
          slice v r ::
          match skip_ws r with
          | String e r1 => if is_byte 44 e then elements fuel r1 else []
          | EmptyString => []
          end
      | None => []
      end
  end.

Definition array_elements (r : string) : list string :=
  if first_is 93 (skip_ws r) then [] else elements (String.length r) r.

Definition object_members (r : string) : list (string * string) :=
  if first_is 125 (skip_ws r) then [] else members (String.length r) r.

(** A slice that was empty before. *)
Definition decode_slice {A} (zero : A) (d : decoder A) : decoder (list A) := fun v _ =>
  match v with
  | String c r =>
      if is_byte 91 c then mapM (fun e => d e zero) (array_elements r)
      else if is_byte 110 c then Some [] else None
  | EmptyString => None
  end.

(** Names are compared after folding: the letters of ASCII, the long s
    (U+017F) and the Kelvin sign (U+212A) are the runes that fold to ASCII. *)
Fixpoint fold_name (l : list ascii) : list ascii :=
  match l with
  | [] => []
  | c :: r =>
      match r with
      | b :: r1 =>
          if is_byte 197 c && is_byte 191 b then chr 83 :: fold_name r1
          else match r1 with
          | d :: r2 =>
              if is_byte 226 c && is_byte 132 b && is_byte 170 d then chr 75 :: fold_name r2
              else (if byte_in 97 122 c then chr (byte_of c - 32) else c) :: fold_name r
          | [] => (if byte_in 97 122 c then chr (byte_of c - 32) else c) :: fold_name r
          end
      | [] => [if byte_in 97 122 c then chr (byte_of c - 32) else c]
      end
  end.

Definition fields (A : Type) : Type := list (string * decoder A).

Fixpoint find_field {A} (test : string -> bool) (fs : fields A) : option (decoder A) :=
  match fs with
  | [] => None
  | (name, d) :: fs => if test name then Some d else find_field test fs
  end.

Definition field_for {A} (fs : fields A) (key : string) : option (decoder A) :=
  match find_field (String.eqb key) fs with
  | Some d => Some d
  | None => find_field (fun name => of_bytes (fold_name (to_bytes name)) =s of_bytes (fold_name (to_bytes key))) fs
  end.

Fixpoint set_members {A} (fs : fields A) (kvs : list (string * string)) (x : A) : option A :=
  match kvs with
  | [] => Some x
  | (k, v) :: kvs =>
      match field_for fs k with
      | Some d => match d v x with Some x => set_members fs kvs x | None => None end
      | None => set_members fs kvs x
      end
  end.

Definition decode_struct {A} (fs : fields A) : decoder A := fun v old =>
  match v with
  | String c r =>
      if is_byte 123 c then set_members fs (object_members r) old
      else if is_byte 110 c then Some old else None
  | EmptyString => None
  end.

(** A field of a struct, from the decoder of its type. *)
Definition field {A B} (get : A -> B) (set : B -> A -> A) (d : decoder B) : decoder A := fun v x =>
  match d v (get x) with Some y => Some (set y x) | None => None end.

(** [json.Unmarshal] into a variable that holds [zero]. *)
Definition unmarshal {A} (d : decoder A) (zero : A) (s : string) : option A :=
  if negb (Valid s) then None
  else
    let v := skip_ws s in
    match scan v with Some r => d (slice v r) zero | None => None end.

(** ** What a quoted string looks like

    [quoted l o]: the bytes [l] of a string are written as [o] between the
    quotes.  [sequence s r]: the bytes of one rune beyond ASCII. *)

Definition sequence (s : list ascii) (r : Z) : Prop :=
  (2 <= length s)%nat /\ encode_rune r = s /\ forall l, decode_rune (s ++ l) = (r, length s).

Inductive quoted : list ascii -> list ascii -> Prop :=
| quoted_nil : quoted [] []
| quoted_ascii c l o : byte_of c < 128 -> quoted l o -> quoted (c :: l) (quote_ascii c ++ o)
| quoted_sep s r l o : r = 8232 \/ r = 8233 -> sequence s r -> quoted l o -> quoted (s ++ l) (u_escape r ++ o)
| quoted_sequence s r l o : r <> 8232 -> r <> 8233 -> sequence s r -> quoted l o -> quoted (s ++ l) (s ++ o).

(** The same without what was written: bytes that are no rune are written as
    U+FFFD, so every string has such a form. *)
Inductive written : list ascii -> Prop :=
| written_nil : written []
| written_ascii c o : byte_of c < 128 -> written o -> written (quote_ascii c ++ o)
| written_escape r o : r = 8232 \/ r = 8233 \/ r = RuneError -> written o -> written (u_escape r ++ o)
| written_sequence s r o : r <> 8232 -> r <> 8233 -> sequence s r -> written o -> written (s ++ o).

Lemma chr_byte_of c : chr (byte_of c) = c.
Proof. unfold chr, byte_of. by rewrite N2Z.id, ascii_N_embedding. Qed.

Lemma chr_eq n c : n = byte_of c -> chr n = c.
Proof. intros ->. apply chr_byte_of. Qed.

Lemma byte_of_range c : 0 <= byte_of c < 256.
Proof. unfold byte_of. pose proof (N_ascii_bounded c). lia. Qed.

Ltac solve_byte := apply chr_eq; Z.to_euclidean_division_equations; lia.

Lemma encode_decode l r w : decode_rune l = (r, w) -> (r =? RuneError) && (w =? 1)%nat = false -> l <> [] ->
  128 <= byte_of (hd "000"%char l) -> encode_rune r = take w l /\ (2 <= w)%nat.
Proof.
  intros H Hv Hne Ha. destruct l as [|a t]; [done|]. cbn [hd] in Ha. unfold decode_rune in H.
  pose proof (byte_of_range a) as Ra.
  destruct (Z.ltb_spec (byte_of a) 128); [lia|].
  destruct t as [|b t]; [injection H as <- <-; done|].
  destruct ((194 <=? byte_of a) && (byte_of a <=? 223) && cont b) eqn:Eb.
  { injection H as <- <-. unfold cont, byte_in in Eb. split; [|lia]. unfold encode_rune.
    rewrite (proj2 (orb_false_iff _ _)), (proj2 (Z.ltb_ge _ 128)), (proj2 (Z.ltb_lt _ 2048)) by lia.
    cbn [take]. f_equal; [|f_equal]; solve_byte. }
  destruct t as [|c t]; [injection H as <- <-; done|]. cbv zeta in H.
  destruct (_ && _ && _ && _ && cont c) eqn:Ec.
  { injection H as <- <-. unfold cont, byte_in in Ec. split; [|lia]. unfold encode_rune.
    assert (Hs : forall z, (224 <=? byte_of a) && (byte_of a <=? 239) && ((if byte_of a =? 224 then 160 else 128) <=? byte_of b) &&
      (byte_of b <=? (if byte_of a =? 237 then 159 else 191)) && ((128 <=? byte_of c) && (byte_of c <=? 191)) = true ->
      z = (byte_of a - 224) * 4096 + (byte_of b - 128) * 64 + (byte_of c - 128) ->
      2048 <= z < 65536 /\ (z < 55296 \/ 57343 < z)).
    { intros z Hb ->. destruct (Z.eqb_spec (byte_of a) 224), (Z.eqb_spec (byte_of a) 237); lia. }
    destruct (Hs _ Ec eq_refl) as [Hr Hsur].
    rewrite (proj2 (orb_false_iff _ _)), (proj2 (Z.ltb_ge _ 128)), (proj2 (Z.ltb_ge _ 2048)), (proj2 (Z.ltb_lt _ 65536)) by lia.
    assert (128 <= byte_of b <= 191) by (destruct (byte_of a =? 224), (byte_of a =? 237); lia).
    cbn [take]. f_equal; [|f_equal; [|f_equal]]; solve_byte. }
  destruct t as [|d t]; [injection H as <- <-; done|].
  destruct (_ && _ && _ && _ && cont c && cont d) eqn:Ed; injection H as <- <-; [|done].
  unfold cont, byte_in in Ed. split; [|lia]. unfold encode_rune.
  assert (Hs : forall z, (240 <=? byte_of a) && (byte_of a <=? 244) && ((if byte_of a =? 240 then 144 else 128) <=? byte_of b) &&
    (byte_of b <=? (if byte_of a =? 244 then 143 else 191)) && ((128 <=? byte_of c) && (byte_of c <=? 191)) &&
    ((128 <=? byte_of d) && (byte_of d <=? 191)) = true ->
    z = (byte_of a - 240) * 262144 + (byte_of b - 128) * 4096 + (byte_of c - 128) * 64 + (byte_of d - 128) -> 65536 <= z <= 1114111).
  { intros z Hb ->. destruct (Z.eqb_spec (byte_of a) 240), (Z.eqb_spec (byte_of a) 244); lia. }
  specialize (Hs _ Ed eq_refl).
  rewrite (proj2 (orb_false_iff _ _)), (proj2 (Z.ltb_ge _ 128)), (proj2 (Z.ltb_ge _ 2048)), (proj2 (Z.ltb_ge _ 65536)) by lia.
  assert (128 <= byte_of b <= 191) by (destruct (byte_of a =? 240), (byte_of a =? 244); lia).
  cbn [take]. f_equal; [|f_equal; [|f_equal; [|f_equal]]]; solve_byte.
Qed.

(** A rune's bytes decode to it whatever follows them. *)
Lemma decode_rune_own l r w l' : decode_rune l = (r, w) -> (r =? RuneError) && (w =? 1)%nat = false -> l <> [] ->
  decode_rune (take w l ++ l') = (r, w).
Proof.
  intros H Hv Hne. destruct l as [|a t]; [done|]. unfold decode_rune in H.
  destruct (byte_of a <? 128) eqn:Ea; [injection H as <- <-; cbn; by rewrite Ea|].
  destruct t as [|b t]; [injection H as <- <-; done|].
  destruct ((194 <=? byte_of a) && (byte_of a <=? 223) && cont b) eqn:Eb; [injection H as <- <-; cbn; by rewrite Ea, Eb|].
  destruct t as [|c t]; [injection H as <- <-; done|]. cbv zeta in H.
  destruct (_ && _ && _ && _ && cont c) eqn:Ec; [injection H as <- <-; cbn; cbv zeta; by rewrite Ea, Eb, Ec|].
  destruct t as [|d t]; [injection H as <- <-; done|].
  destruct (_ && _ && _ && _ && cont c && cont d) eqn:Ed; injection H as <- <-; [|done].
  cbn. cbv zeta. by rewrite Ea, Eb, Ec, Ed.
Qed.

Lemma decode_sequence l r w : decode_rune l = (r, w) -> (r =? RuneError) && (w =? 1)%nat = false -> l <> [] ->
  128 <= byte_of (hd "000"%char l) -> sequence (take w l) r /\ (1 <= w <= length l)%nat.
Proof.
  intros Hd Hv Hne Ha. destruct (encode_decode _ _ _ Hd Hv Hne Ha) as [He Hw].
  destruct (decode_rune_take l r w w Hd Hv Hne ltac:(lia)) as (_ & _ & Hl).
  assert (Hlen : length (take w l) = w) by (rewrite length_take; lia).
  split; [|lia]. split; [lia|]. split; [done|]. intros l'. rewrite Hlen. by apply decode_rune_own.
Qed.

Lemma decode_rune_low a l : byte_of a < 128 -> decode_rune (a :: l) = (byte_of a, 1%nat).
Proof. intros Ha. cbn. by rewrite (proj2 (Z.ltb_lt _ _) Ha). Qed.

Lemma quote_body_quoted n : forall m l, valid_utf8_fuel n l = true -> (length l <= m)%nat -> quoted l (quote_body m l).
Proof.
  induction n as [|n IH]; intros m l Hv Hm.
  { destruct l; [|done]. destruct m; constructor. }
  destruct l as [|a l]; [destruct m; constructor|]. destruct m as [|m]; [simpl in Hm; lia|].
  rewrite valid_utf8_step in Hv by done. cbn [quote_body].
  destruct (Z.ltb_spec (byte_of a) 128) as [Ha|Ha].
  { rewrite decode_rune_low in Hv by done. constructor; [done|]. apply IH; [|simpl in Hm; lia].
    by destruct (_ && _) in Hv. }
  destruct (decode_rune (a :: l)) as [r w] eqn:Ed. destruct ((r =? RuneError) && (w =? 1)%nat) eqn:Er; [done|].
  destruct (decode_sequence _ _ _ Ed Er ltac:(done) Ha) as [Hs Hw].
  assert (Hq : quoted (drop w (a :: l)) (quote_body m (drop w (a :: l)))).
  { apply IH; [done|]. rewrite length_drop. simpl in *. lia. }
  rewrite <- (take_drop w (a :: l)) at 1.
  destruct (Z.eqb_spec r 8232); [by apply quoted_sep; [left|..]|].
  destruct (Z.eqb_spec r 8233); [by apply quoted_sep; [right|..]|]. by eapply quoted_sequence.
Qed.

Lemma quote_body_written m : forall l, (length l <= m)%nat -> written (quote_body m l).
Proof.
  induction m as [|m IH]; intros l Hm; [destruct l; constructor|].
  destruct l as [|a l]; [constructor|]. cbn [quote_body].
  destruct (Z.ltb_spec (byte_of a) 128) as [Ha|Ha]; [constructor; [done|]; apply IH; simpl in Hm; lia|].
  destruct (decode_rune (a :: l)) as [r w] eqn:Ed. destruct ((r =? RuneError) && (w =? 1)%nat) eqn:Er.
  { apply (written_escape RuneError); [by auto|]. apply IH. simpl in Hm. lia. }
  destruct (decode_sequence _ _ _ Ed Er ltac:(done) Ha) as [Hs Hw].
  assert (Hq : written (quote_body m (drop w (a :: l)))).
  { apply IH. rewrite length_drop. simpl in *. lia. }
  destruct (Z.eqb_spec r 8232); [by apply written_escape; [left|..]|].
  destruct (Z.eqb_spec r 8233); [by apply written_escape; [right; left|..]|]. by eapply written_sequence.
Qed.

(** Such a sequence is a byte beyond ASCII and continuation bytes. *)
Lemma sequence_shape s r : sequence s r ->
  exists a t, s = a :: t /\ 128 <= byte_of a /\ Forall (fun c => 128 <= byte_of c <= 191) t /\
    (byte_of a = 226 -> exists b d, t = [b; d] /\ r = 8192 + (byte_of b - 128) * 64 + (byte_of d - 128)).
Proof.
  intros (Hl & He & Hd). specialize (Hd []). rewrite app_nil_r in Hd. destruct s as [|a s]; [simpl in Hl; lia|].
  exists a, s. split; [done|]. unfold decode_rune in Hd. destruct (Z.ltb_spec (byte_of a) 128); [injection Hd as _ E; simpl in *; lia|].
  split; [done|]. destruct s as [|b s]; [simpl in Hl; lia|].
  destruct (_ && cont b) eqn:Eb.
  { injection Hd as _ E. destruct s; [|done]. unfold cont, byte_in in Eb. split; [repeat constructor; lia | lia]. }
  destruct s as [|c s]; [done|]. cbv zeta in Hd. destruct (_ && _ && _ && _ && cont c) eqn:Ec.
  { injection Hd as <- E. destruct s; [|done]. unfold cont, byte_in in Ec. split.
    - repeat constructor; try lia; destruct (byte_of a =? 224), (byte_of a =? 237); lia.
    - intros Ha. exists b, c. split; [done|]. rewrite Ha. lia. }
  destruct s as [|d s]; [done|]. destruct (_ && _ && _ && _ && cont c && cont d) eqn:Ed; [|done].
  injection Hd as _ E. destruct s; [|done]. unfold cont, byte_in in Ed. split; [|lia].
  repeat constructor; try lia; destruct (byte_of a =? 240), (byte_of a =? 244); lia.
Qed.

Lemma sequence_bytes s r : sequence s r -> Forall (fun c => 128 <= byte_of c) s.
Proof.
  intros Hs. destruct (sequence_shape _ _ Hs) as (a & t & -> & Ha & Ht & _).
  constructor; [done|]. eapply Forall_impl; [exact Ht|]. simpl. lia.
Qed.

(** ** Reading a quoted string back *)

(** All 128 cases of a byte, for a fact about its quoted form before any
    text. *)
Ltac each_ascii c :=
  destruct c as [[] [] [] [] [] [] [] []]; intros; try reflexivity; match goal with H : _ < 128 |- _ => vm_compute in H; discriminate end.

Lemma scan_quote_ascii c t : byte_of c < 128 -> scan_string (of_bytes (quote_ascii c ++ t)) = scan_string (of_bytes t).
Proof. each_ascii c. Qed.

Lemma unquote_quote_ascii n c t : byte_of c < 128 -> unquote_body (S n) (quote_ascii c ++ t) = c :: unquote_body n t.
Proof. each_ascii c. Qed.

Lemma compact_quote_ascii c t : byte_of c < 128 -> compact_raw true (quote_ascii c ++ t) = quote_ascii c ++ compact_raw true t.
Proof. destruct t as [|x [|y t]]; each_ascii c. Qed.

Lemma scan_high s t : Forall (fun c => 128 <= byte_of c) s -> scan_string (of_bytes (s ++ t)) = scan_string (of_bytes t).
Proof.
  induction 1 as [|c s Hc _ IH]; [done|]. cbn [app of_bytes String.string_of_list_ascii scan_string].
  unfold is_byte. repeat (match goal with |- context[Z.eqb ?a ?b] => destruct (Z.eqb_spec a b); [lia|] end).
  destruct (Z.ltb_spec (byte_of c) 32); [lia|]. exact IH.
Qed.

Lemma scan_written o r : written o -> scan_string (of_bytes (o ++ dquote :: r)) = Some (of_bytes r).
Proof.
  induction 1 as [|c o Hc _ IH|z o Hz _ IH|s z o _ _ Hs _ IH]; [reflexivity|..]; rewrite <- app_assoc.
  - by rewrite scan_quote_ascii.
  - rewrite <- IH. by destruct Hz as [-> | [-> | ->]].
  - rewrite scan_high; [done|]. by eapply sequence_bytes.
Qed.

Lemma unquote_sequence n s r t : sequence s r -> unquote_body (S n) (s ++ t) = s ++ unquote_body n t.
Proof.
  intros Hs. pose proof (sequence_bytes _ _ Hs) as Hb. destruct Hs as (Hl & He & Hd).
  destruct s as [|a s]; [simpl in Hl; lia|]. inversion Hb; subst. specialize (Hd t).
  cbn [app unquote_body]. unfold is_byte.
  repeat (match goal with |- context[Z.eqb ?a ?b] => destruct (Z.eqb_spec a b); [lia|] end).
  destruct (Z.ltb_spec (byte_of a) 128); [lia|]. cbn [app] in Hd. rewrite Hd, He. cbn [app].
  f_equal. f_equal. cbn [length drop]. by rewrite drop_app_length.
Qed.

Lemma unquote_quoted l o r n : quoted l o -> (length o < n)%nat -> unquote_body n (o ++ dquote :: r) = l.
Proof.
  intros Hq. revert n. induction Hq as [|c l o Hc _ IH|s z l o Hz Hs _ IH|s z l o _ _ Hs _ IH];
    intros n; rewrite ?length_app; intros Hn; (destruct n as [|n]; [lia|]); rewrite <- ?app_assoc.
  - reflexivity.
  - rewrite unquote_quote_ascii by done. rewrite IH; [done|].
    assert (1 <= length (quote_ascii c))%nat by (clear; destruct c as [[] [] [] [] [] [] [] []]; vm_compute; lia). lia.
  - destruct Hs as (_ & He & _).
    transitivity (encode_rune z ++ unquote_body n (o ++ dquote :: r)).
    { destruct Hz as [-> | ->]; reflexivity. }
    rewrite He, IH; [done|]. change (length (u_escape z)) with 6%nat in Hn. lia.
  - rewrite unquote_sequence with (r := z) by done. rewrite IH; [done|]. destruct Hs. lia.
Qed.

Lemma quote_shape s t : quote s +:+ t = String dquote (of_bytes (quote_body (String.length s) (to_bytes s) ++ dquote :: to_bytes t)).
Proof.
  unfold quote. cbn [of_bytes String.string_of_list_ascii]. rewrite append_cons. f_equal.
  rewrite !of_bytes_app. cbn [of_bytes String.string_of_list_ascii]. by rewrite of_to_bytes, str_app_assoc.
Qed.

Lemma quote_written s : written (quote_body (String.length s) (to_bytes s)).
Proof. apply quote_body_written. by rewrite length_to_bytes. Qed.

(** The text after the opening quote is scanned up to its closing quote, and
    a valid string is read back. *)
Lemma quote_scan s t : exists o, quote s +:+ t = String dquote o /\ scan_string o = Some t /\ (ValidString s = true -> unquote o = s).
Proof.
  exists (of_bytes (quote_body (String.length s) (to_bytes s) ++ dquote :: to_bytes t)).
  split; [apply quote_shape|]. split; [by rewrite (scan_written _ _ (quote_written s)), of_to_bytes|].
  intros Hs. pose proof (quote_body_quoted _ (String.length s) _ Hs) as Hq. rewrite length_to_bytes in Hq. specialize (Hq ltac:(lia)).
  unfold unquote. rewrite to_of_bytes. rewrite (unquote_quoted _ _ _ _ Hq); [apply of_to_bytes|].
  rewrite <- (length_to_bytes (of_bytes _)), to_of_bytes, length_app. simpl. lia.
Qed.

(** Trimming keeps a quoted string. *)
Lemma trim_quote s : TrimSpace (quote s) = quote s.
Proof.
  unfold TrimSpace, quote. rewrite to_of_bytes. set (o := quote_body _ _).
  rewrite trim_left_keeps by (vm_compute; split; discriminate). cbn [rev]. rewrite rev_app_distr. cbn [rev app].
  rewrite trim_left_rev_keeps by (vm_compute; split; discriminate).
  f_equal. change (dquote :: rev o ++ [dquote]) with ([dquote] ++ (rev o ++ [dquote])).
  rewrite !rev_app_distr, rev_involutive. reflexivity.
Qed.

(** ** A quoted string is compact *)

Lemma compact_high b c t : 128 <= byte_of c -> byte_of c <> 226 -> compact_raw b (c :: t) = c :: compact_raw b t.
Proof.
  intros Hc Hn. cbn [compact_raw]. unfold is_byte, json_space, is_byte.
  repeat (match goal with |- context[Z.eqb (byte_of c) ?z] => destruct (Z.eqb_spec (byte_of c) z); [lia|] end).
  rewrite !andb_false_r. cbn [orb andb negb]. destruct t as [|? [|? ?]]; reflexivity.
Qed.

Lemma compact_conts b s t : Forall (fun c => 128 <= byte_of c <= 191) s -> compact_raw b (s ++ t) = s ++ compact_raw b t.
Proof.
  induction 1 as [|c s Hc _ IH]; [done|]. cbn [app]. rewrite compact_high by lia. by rewrite IH.
Qed.

Lemma compact_sequence b s r t : sequence s r -> r <> 8232 -> r <> 8233 -> compact_raw b (s ++ t) = s ++ compact_raw b t.
Proof.
  intros Hs H1 H2. destruct (sequence_shape _ _ Hs) as (a & s' & -> & Ha & Ht & H226).
  destruct (Z.eq_dec (byte_of a) 226) as [E|E].
  2: { cbn [app]. rewrite compact_high by done. by rewrite compact_conts. }
  destruct (H226 E) as (x & y & -> & Hr). inversion Ht as [|? ? Hx Ht']; subst. inversion Ht' as [|? ? Hy _]; subst.
  cbn [app]. transitivity (a :: compact_raw b (x :: y :: t)).
  - cbn [compact_raw]. unfold is_byte, json_space, is_byte. rewrite E. cbn -[compact_raw].
    rewrite !andb_false_r. cbn -[compact_raw Z.eqb].
    destruct (Z.eqb_spec (byte_of x) 128), (Z.eqb_spec (byte_of y) 168), (Z.eqb_spec (byte_of y) 169); try done; lia.
  - f_equal. apply (compact_conts b [x; y] t). repeat constructor; lia.
Qed.

Lemma compact_written o r : written o -> compact_raw true (o ++ dquote :: r) = o ++ dquote :: compact_raw false r.
Proof.
  induction 1 as [|c o Hc _ IH|z o Hz _ IH|s z o H1 H2 Hs _ IH]; [reflexivity|..]; rewrite <- !app_assoc, <- IH.
  - by apply compact_quote_ascii.
  - set (t := o ++ dquote :: r). clearbody t. destruct Hz as [-> | [-> | ->]]; destruct t as [|? [|? ?]]; reflexivity.
  - by apply compact_sequence with (r := z).
Qed.

(** ** Text that reads back

    [reads n t]: [t] is the text of one value with at most [n] nested
    brackets, compact, and delimited properly by what may follow a value:
    nothing, white space, a comma or a closing bracket. *)

Definition ends (rest : string) : bool :=
  match rest with
  | EmptyString => true
  | String c _ => is_byte 44 c || is_byte 93 c || is_byte 125 c || json_space c
  end.

Record reads (n : nat) (t : string) : Prop := {
  reads_head : exists c r, t = String c r /\ json_space c = false /\ is_byte 93 c = false;
  reads_scan : forall fuel d rest, ends rest = true -> (2 * String.length (t +:+ rest) + 1 <= fuel)%nat -> d + Z.of_nat n <= maxNestingDepth ->
    scan_value fuel d (t +:+ rest) = Some rest;
  reads_compact : forall l, compact_raw false (to_bytes t ++ l) = to_bytes t ++ compact_raw false l
}.

Lemma skip_ws_head n t rest : reads n t -> skip_ws (t +:+ rest) = t +:+ rest.
Proof. intros [(c & r & -> & Hs & _) _ _]. rewrite append_cons. simpl. by rewrite Hs. Qed.

Lemma compact_reads n t : reads n t -> compact t = t.
Proof.
  intros [_ _ Hc]. unfold compact. specialize (Hc []). rewrite !app_nil_r in Hc. by rewrite Hc, of_to_bytes.
Qed.

Lemma slice_app (t rest : string) : slice (t +:+ rest) rest = t.
Proof.
  unfold slice. rewrite str_app_length. replace (String.length t + String.length rest - String.length rest)%nat with (String.length t) by lia.
  induction t as [|c t IH]; [by destruct rest|]. rewrite append_cons. simpl. by f_equal.
Qed.

Lemma scan_reads n t rest : reads n t -> Z.of_nat n <= maxNestingDepth -> ends rest = true -> scan (t +:+ rest) = Some rest.
Proof. intros [_ Hs _] Hn He. apply Hs; [done | unfold scan_fuel; lia | lia]. Qed.

Lemma reads_string n s : reads n (quote s).
Proof.
  split.
  - destruct (quote_scan s "") as (o & E & _). rewrite str_app_nil_r in E. rewrite E. eexists _, _. split; [reflexivity|done].
  - intros fuel d rest _ Hf _. destruct (quote_scan s rest) as (o & E & Ho & _). rewrite E in Hf |- *.
    destruct fuel as [|fuel]; [simpl in Hf; lia|]. simpl. exact Ho.
  - intros l. unfold quote. rewrite to_of_bytes. cbn [app]. rewrite <- app_assoc.
    change (compact_raw false (dquote :: ?x)) with (dquote :: compact_raw true x). f_equal.
    cbn [app]. rewrite (compact_written _ _ (quote_written s)). by rewrite <- app_assoc.
Qed.

Lemma reads_bool n (b : bool) : reads n (if b then "true" else "false").
Proof.
  split.
  - destruct b; (eexists _, _; split; [reflexivity|done]).
  - intros fuel d rest _ Hf _. destruct fuel as [|fuel]; [lia|].
    destruct b; [transitivity (scan_literal ("true" +:+ rest) "true") | transitivity (scan_literal ("false" +:+ rest) "false")];
      try reflexivity; unfold scan_literal, HasPrefix; by rewrite prefix_app, str_drop_app.
  - intros l. destruct b, l as [|? [|? ?]]; reflexivity.
Qed.

Lemma concat_cons2 (s a b : string) l : String.concat s (a :: b :: l) = a +:+ (s +:+ String.concat s (b :: l)).
Proof. reflexivity. Qed.

Lemma concat_one (s a : string) : String.concat s [a] = a.
Proof. reflexivity. Qed.

(** A string literal, as the name of a member. *)
Definition literal (lit : string) : Prop :=
  (forall t, exists o, lit +:+ t = String dquote o /\ scan_string o = Some t) /\
  (forall l, compact_raw false (to_bytes lit ++ l) = to_bytes lit ++ compact_raw false l).

Lemma quote_literal s : literal (quote s).
Proof.
  split; [|apply (reads_string 0)]. intros t. destruct (quote_scan s t) as (o & E & Ho & _). by exists o.
Qed.

Lemma literal_reads n lit : literal lit -> reads n lit.
Proof.
  intros [Hl Hc]. split; [| |exact Hc].
  - destruct (Hl "") as (o & E & _). rewrite str_app_nil_r in E. eexists _, _. split; [exact E|done].
  - intros fuel d rest _ Hf _. destruct (Hl rest) as (o & E & Ho). rewrite E in *.
    destruct fuel as [|fuel]; [simpl in Hf; lia|]. simpl. exact Ho.
Qed.

(** Opening brackets. *)
Lemma scan_value_array fuel d r : d < maxNestingDepth -> scan_value (S fuel) d (String "[" r) =
  match skip_ws r with
  | String c r1 => if is_byte 93 c then Some r1 else scan_elements fuel (d + 1) (skip_ws r)
  | EmptyString => None
  end.
Proof. intros Hd. transitivity (if maxNestingDepth <=? d then None else match skip_ws r with
  | String c r1 => if is_byte 93 c then Some r1 else scan_elements fuel (d + 1) (skip_ws r)
  | EmptyString => None end); [reflexivity|]. by rewrite (proj2 (Z.leb_gt _ _)). Qed.

Lemma scan_value_object fuel d r : d < maxNestingDepth -> scan_value (S fuel) d (String "{" r) =
  match skip_ws r with
  | String c r1 => if is_byte 125 c then Some r1 else scan_members fuel (d + 1) (skip_ws r)
  | EmptyString => None
  end.
Proof. intros Hd. transitivity (if maxNestingDepth <=? d then None else match skip_ws r with
  | String c r1 => if is_byte 125 c then Some r1 else scan_members fuel (d + 1) (skip_ws r)
  | EmptyString => None end); [reflexivity|]. by rewrite (proj2 (Z.leb_gt _ _)). Qed.

(** A value in an array or object, and what follows it there. *)
Lemma compact_punct c l : is_byte 44 c || is_byte 58 c || is_byte 91 c || is_byte 93 c || is_byte 123 c || is_byte 125 c = true ->
  compact_raw false (c :: l) = c :: compact_raw false l.
Proof.
  intros Hc. assert (Hd : byte_of c <> 226).
  { unfold is_byte in Hc. lia. }
  cbn [compact_raw]. unfold is_byte, json_space, is_byte in *.
  repeat (match goal with |- context[Z.eqb (byte_of c) ?z] => destruct (Z.eqb_spec (byte_of c) z); [lia|] end).
  cbn [orb andb negb]. destruct l as [|? [|? ?]]; reflexivity.
Qed.

(** The quoted form of decoded members. *)
Definition quoted_member (kv : string * string) : string * string := (quote (fst kv), snd kv).

Section sequences.
Context (n : nat) (Hn : Z.of_nat n < maxNestingDepth).

Lemma compact_concat ts l : Forall (reads n) ts ->
  compact_raw false (to_bytes (String.concat "," ts) ++ l) = to_bytes (String.concat "," ts) ++ compact_raw false l.
Proof.
  intros Hts. induction Hts as [|t ts Ht Hts IH]; [done|]. destruct ts as [|u ts]; [apply Ht|].
  rewrite concat_cons2, !to_bytes_app, <- !app_assoc. rewrite (reads_compact _ _ Ht). f_equal.
  change (to_bytes ",") with [","%char]. cbn [app]. rewrite compact_punct by done. f_equal. exact IH.
Qed.

Lemma concat_head ts rest : Forall (reads n) ts -> ts <> [] ->
  exists c r, String.concat "," ts +:+ rest = String c r /\ json_space c = false /\ is_byte 93 c = false.
Proof.
  intros Hts Hne. destruct Hts as [|t ts [(c & r & -> & Hs & H9) _ _] _]; [done|].
  destruct ts as [|u ts]; rewrite ?concat_one, ?concat_cons2, ?append_cons; (eexists _, _; split; [reflexivity|done]).
Qed.

Lemma scan_elements_reads ts rest : Forall (reads n) ts -> ts <> [] -> forall fuel d,
  (2 * String.length (String.concat "," ts +:+ ("]" +:+ rest)) + 2 <= fuel)%nat -> d + Z.of_nat n <= maxNestingDepth ->
  scan_elements fuel d (String.concat "," ts +:+ ("]" +:+ rest)) = Some rest.
Proof.
  intros Hts Hne. induction Hts as [|t ts Ht Hts IH]; [done|]. intros fuel d Hf Hd.
  destruct fuel as [|fuel]; [lia|]. cbn [scan_elements]. destruct ts as [|u ts].
  - rewrite concat_one in *. rewrite (reads_scan _ _ Ht) by (done || lia). reflexivity.
  - rewrite concat_cons2, !str_app_assoc in *. rewrite (reads_scan _ _ Ht) by (done || lia).
    change ("," +:+ ?x) with (String "," x) in *. cbn [skip_ws]. change (json_space ",") with false.
    change (is_byte 44 ",") with true. cbv iota. apply IH; [done| |lia].
    rewrite str_app_length in Hf. simpl String.length in Hf at 1. cbn [String.length] in Hf. lia.
Qed.

Lemma elements_reads ts rest : Forall (reads n) ts -> ts <> [] -> forall m, (length ts <= m)%nat ->
  elements m (String.concat "," ts +:+ ("]" +:+ rest)) = ts.
Proof.
  intros Hts Hne. induction Hts as [|t ts Ht Hts IH]; [done|]. intros m Hm.
  destruct m as [|m]; [simpl in Hm; lia|]. cbn [elements]. destruct ts as [|u ts].
  - rewrite concat_one, (skip_ws_head n) by done. rewrite (scan_reads n) by (done || lia). by rewrite slice_app.
  - rewrite concat_cons2, !str_app_assoc, (skip_ws_head n) by done. rewrite (scan_reads n) by (done || lia).
    rewrite slice_app. f_equal. change ("," +:+ ?x) with (String "," x). cbn [skip_ws]. change (json_space ",") with false.
    change (is_byte 44 ",") with true. cbv iota. apply IH; [done|]. simpl in *. lia.
Qed.

Lemma concat_length ts : Forall (reads n) ts -> (length ts <= String.length (String.concat "," ts))%nat.
Proof.
  induction 1 as [|t ts [(c & r & -> & _) _ _] _ IH]; [done|]. destruct ts as [|u ts]; [simpl; lia|].
  rewrite concat_cons2, !str_app_length. cbn [String.length length] in *. lia.
Qed.

Lemma reads_array ts : Forall (reads n) ts -> reads (S n) ("[" +:+ (String.concat "," ts +:+ "]")).
Proof.
  intros Hts. split.
  - eexists _, _. split; [reflexivity|done].
  - intros fuel d rest _ Hf Hd. destruct fuel as [|fuel]; [lia|].
    rewrite !str_app_assoc in *. change ("[" +:+ ?x) with (String "[" x) in *. rewrite scan_value_array by lia.
    destruct (decide (ts = [])) as [->|Hne]; [reflexivity|].
    destruct (concat_head ts ("]" +:+ rest) Hts Hne) as (c & r & E & Hs & H9).
    assert (Hws : skip_ws (String.concat "," ts +:+ ("]" +:+ rest)) = String.concat "," ts +:+ ("]" +:+ rest)).
    { rewrite E. simpl. by rewrite Hs. }
    rewrite Hws. pose proof E as E'. rewrite E at 1. rewrite H9. apply scan_elements_reads; try done; [|lia].
    cbn [String.length] in Hf. lia.
  - intros l. rewrite !to_bytes_app. change (to_bytes "[") with ["["%char]. change (to_bytes "]") with ["]"%char].
    cbn [app]. rewrite compact_punct by done. f_equal. rewrite <- !app_assoc, compact_concat by done. f_equal.
    cbn [app]. by apply compact_punct.
Qed.

Lemma array_elements_reads ts rest : Forall (reads n) ts -> array_elements (String.concat "," ts +:+ ("]" +:+ rest)) = ts.
Proof.
  intros Hts. unfold array_elements. destruct (decide (ts = [])) as [->|Hne]; [reflexivity|].
  destruct (concat_head ts ("]" +:+ rest) Hts Hne) as (c & r & E & Hs & H9). rewrite E at 1. simpl skip_ws. rewrite Hs.
  cbn [first_is]. rewrite H9. apply elements_reads; [done|done|]. rewrite str_app_length.
  pose proof (concat_length ts Hts). lia.
Qed.
(** Members: the literal of the name, a colon, a value. *)
Definition member_text (lv : string * string) : string := fst lv +:+ ":" +:+ snd lv.
Definition member_ok (lv : string * string) : Prop := literal (fst lv) /\ reads n (snd lv).

Lemma compact_member kv l : member_ok kv ->
  compact_raw false (to_bytes (member_text kv) ++ l) = to_bytes (member_text kv) ++ compact_raw false l.
Proof.
  intros [Hk Hv]. unfold member_text. rewrite !to_bytes_app, <- !app_assoc, (proj2 Hk).
  f_equal. change (to_bytes ":") with [":"%char]. cbn [app]. rewrite compact_punct by done. f_equal. apply Hv.
Qed.

Lemma compact_members kvs l : Forall member_ok kvs ->
  compact_raw false (to_bytes (String.concat "," (map member_text kvs)) ++ l) =
  to_bytes (String.concat "," (map member_text kvs)) ++ compact_raw false l.
Proof.
  intros Hkvs. induction Hkvs as [|kv kvs Hkv Hkvs IH]; [done|]. destruct kvs as [|kv' kvs]; [by apply compact_member|].
  cbn [map]. rewrite concat_cons2, !to_bytes_app, <- !app_assoc, compact_member by done. f_equal.
  change (to_bytes ",") with [","%char]. cbn [app]. rewrite compact_punct by done. f_equal. exact IH.
Qed.

Lemma members_head kvs rest : Forall member_ok kvs -> kvs <> [] ->
  exists r, String.concat "," (map member_text kvs) +:+ rest = String dquote r.
Proof.
  intros Hkvs Hne. destruct Hkvs as [|kv kvs [Hk _] _]; [done|].
  destruct (proj1 Hk "") as (o & E & _). rewrite str_app_nil_r in E.
  destruct kvs as [|kv' kvs]; cbn [map]; rewrite ?concat_one, ?concat_cons2; unfold member_text at 1; rewrite E; by eexists.
Qed.

Lemma scan_members_reads kvs rest : Forall member_ok kvs -> kvs <> [] -> forall fuel d,
  (2 * String.length (String.concat "," (map member_text kvs) +:+ ("}" +:+ rest)) + 2 <= fuel)%nat ->
  d + Z.of_nat n <= maxNestingDepth ->
  scan_members fuel d (String.concat "," (map member_text kvs) +:+ ("}" +:+ rest)) = Some rest.
Proof.
  intros Hkvs Hne. induction Hkvs as [|[k v] kvs [Hk Hv] Hkvs IH]; [done|]. intros fuel d Hf Hd.
  destruct fuel as [|fuel]; [lia|]. cbn [fst snd] in *.
  assert (Hstep : forall tail, ends tail = true -> (2 * String.length (member_text (k, v) +:+ tail) + 2 <= S fuel)%nat ->
    scan_members (S fuel) d (member_text (k, v) +:+ tail) =
    match skip_ws tail with
    | String e r4 => if is_byte 44 e then scan_members fuel d r4 else if is_byte 125 e then Some r4 else None
    | EmptyString => None
    end).
  { intros tail Hends Ht. unfold member_text in *. cbn [fst snd] in *. rewrite !str_app_assoc in *.
    destruct (proj1 Hk (":" +:+ (v +:+ tail))) as (o & E & Ho). rewrite E in *. cbn [scan_members].
    change (skip_ws (String dquote o)) with (String dquote o). cbv iota. change (is_byte 34 dquote) with true. cbv iota.
    rewrite Ho. change (":" +:+ ?x) with (String ":" x). change (skip_ws (String ":" (v +:+ tail))) with (String ":" (v +:+ tail)).
    cbv iota. change (is_byte 58 ":") with true. cbv iota.
    pose proof (scan_string_length o) as Hl. rewrite Ho in Hl. simpl in Hl, Ht. rewrite append_nil in Hl.
    rewrite (reads_scan _ _ Hv) by (done || lia). done. }
  destruct kvs as [|kv' kvs]; cbn [map] in *.
  - rewrite concat_one in *. rewrite Hstep by (done || lia). reflexivity.
  - rewrite concat_cons2, !str_app_assoc in *. rewrite Hstep by (done || lia).
    change ("," +:+ ?x) with (String "," x) in *. rewrite str_app_length in Hf. cbn [String.length] in Hf.
    set (t := String.concat _ _ +:+ _) in *. cbn [skip_ws]. change (json_space ",") with false. cbv iota.
    change (is_byte 44 ",") with true. cbv iota. apply IH; [done| |lia]. lia.
Qed.

Lemma members_reads kvs rest : Forall (fun kv => ValidString (fst kv) = true /\ reads n (snd kv)) kvs -> kvs <> [] -> forall m, (length kvs <= m)%nat ->
  members m (String.concat "," (map member_text (map quoted_member kvs)) +:+ ("}" +:+ rest)) = kvs.
Proof.
  intros Hkvs Hne. induction Hkvs as [|[k v] kvs [Hk Hv] Hkvs IH]; [done|]. intros m Hm. cbn [fst snd] in *.
  destruct m as [|m]; [simpl in Hm; lia|].
  assert (Hstep : forall tail, ends tail = true -> members (S m) (member_text (quoted_member (k, v)) +:+ tail) = (k, v) ::
    match skip_ws tail with
    | String e r4 => if is_byte 44 e then members m r4 else []
    | EmptyString => []
    end).
  { intros tail Hends. unfold member_text, quoted_member. cbn [fst snd]. rewrite !str_app_assoc.
    destruct (quote_scan k (":" +:+ (v +:+ tail))) as (o & E & Ho & Hu). rewrite E. cbn [members].
    change (skip_ws (String dquote o)) with (String dquote o). cbv iota. rewrite Ho, (Hu Hk).
    change (":" +:+ ?x) with (String ":" x). change (skip_ws (String ":" (v +:+ tail))) with (String ":" (v +:+ tail)).
    cbv iota zeta. rewrite (skip_ws_head n), (scan_reads n) by (done || lia). by rewrite slice_app. }
  destruct kvs as [|kv' kvs]; cbn [map].
  - rewrite concat_one, Hstep by done. reflexivity.
  - rewrite concat_cons2, !str_app_assoc, Hstep by done. f_equal. change ("," +:+ ?x) with (String "," x).
    cbn [skip_ws]. change (json_space ",") with false. cbv iota. change (is_byte 44 ",") with true. cbv iota.
    apply IH; [done|]. simpl in *. lia.
Qed.

Lemma members_length kvs : Forall member_ok kvs -> (length kvs <= String.length (String.concat "," (map member_text kvs)))%nat.
Proof.
  induction 1 as [|kv kvs [Hk Hv] _ IH]; [done|].
  assert (1 <= String.length (member_text kv))%nat by (unfold member_text; rewrite !str_app_length; simpl; lia).
  destruct kvs as [|kv' kvs]; cbn [map] in *; rewrite ?concat_one, ?concat_cons2, ?str_app_length; simpl length in *; lia.
Qed.

Lemma reads_object kvs : Forall member_ok kvs -> reads (S n) ("{" +:+ (String.concat "," (map member_text kvs) +:+ "}")).
Proof.
  intros Hkvs. split.
  - eexists _, _. split; [reflexivity|done].
  - intros fuel d rest _ Hf Hd. destruct fuel as [|fuel]; [lia|].
    rewrite !str_app_assoc in *. change ("{" +:+ ?x) with (String "{" x) in *. rewrite scan_value_object by lia.
    destruct (decide (kvs = [])) as [->|Hne]; [reflexivity|].
    destruct (members_head kvs ("}" +:+ rest) Hkvs Hne) as (r & E).
    assert (Hws : skip_ws (String.concat "," (map member_text kvs) +:+ ("}" +:+ rest)) = String.concat "," (map member_text kvs) +:+ ("}" +:+ rest)).
    { by rewrite E. }
    rewrite Hws. rewrite E at 1. change (is_byte 125 dquote) with false. cbv iota.
    apply scan_members_reads; try done; [|lia]. cbn [String.length] in Hf. lia.
  - intros l. rewrite !to_bytes_app. change (to_bytes "{") with ["{"%char]. change (to_bytes "}") with ["}"%char].
    cbn [app]. rewrite compact_punct by done. f_equal. rewrite <- !app_assoc, compact_members by done. f_equal.
    cbn [app]. by apply compact_punct.
Qed.

Lemma quoted_members_ok kvs : Forall (fun kv => ValidString (fst kv) = true /\ reads n (snd kv)) kvs -> Forall member_ok (map quoted_member kvs).
Proof. intros H. rewrite Forall_map. eapply Forall_impl; [exact H|]. intros kv [_ Hv]. split; [apply quote_literal|exact Hv]. Qed.

Lemma object_members_reads kvs rest : Forall (fun kv => ValidString (fst kv) = true /\ reads n (snd kv)) kvs ->
  object_members (String.concat "," (map member_text (map quoted_member kvs)) +:+ ("}" +:+ rest)) = kvs.
Proof.
  intros Hkvs. pose proof (quoted_members_ok kvs Hkvs) as Hok. unfold object_members. destruct (decide (kvs = [])) as [->|Hne]; [reflexivity|].
  destruct (members_head _ ("}" +:+ rest) Hok) as (r & E); [by destruct kvs|]. rewrite E at 1.
  change (first_is 125 (skip_ws (String dquote r))) with false. cbv iota. apply members_reads; [done|done|].
  rewrite str_app_length. pose proof (members_length _ Hok) as Hl. rewrite length_map in Hl. lia.
Qed.
End sequences.

(** ** Printed values *)

Definition printed (kv : string * json) : string * string := (fst kv, print (snd kv)).

Lemma print_object l : print (JObject l) = "{" +:+ (String.concat "," (map member_text (map quoted_member (map printed l))) +:+ "}").
Proof. cbn [print]. by rewrite !map_map. Qed.

Lemma reads_print_string n s : reads n (print (JString s)).
Proof. apply reads_string. Qed.

Lemma reads_print_raw n t : reads n t -> reads n (print (JRaw t)).
Proof. intros Ht. cbn [print]. by rewrite (compact_reads n). Qed.

Lemma reads_print_array n l : Forall (fun j => reads n (print j)) l -> reads (S n) (print (JArray l)).
Proof. intros Hl. apply reads_array. by rewrite Forall_map. Qed.

Lemma reads_print_object n l :
  Forall (fun kv => ValidString (fst kv) = true /\ reads n (print (snd kv))) l -> reads (S n) (print (JObject l)).
Proof. intros Hl. rewrite print_object. apply reads_object, quoted_members_ok. by rewrite Forall_map. Qed.

Lemma reads_Valid n t : reads n t -> Z.of_nat n <= maxNestingDepth -> Valid t = true.
Proof.
  intros Ht Hn. pose proof (scan_reads n t "" Ht Hn eq_refl) as Hs. rewrite str_app_nil_r in Hs. unfold Valid. by rewrite Hs.
Qed.

Lemma unmarshal_reads {A} n (d : decoder A) zero t : reads n t -> Z.of_nat n <= maxNestingDepth -> unmarshal d zero t = d t zero.
Proof.
  intros Ht Hn. unfold unmarshal. rewrite (reads_Valid n) by done. cbn [negb]. cbv zeta.
  pose proof (skip_ws_head n t "" Ht) as Hw. pose proof (scan_reads n t "" Ht Hn eq_refl) as Hs. pose proof (slice_app t "") as Hl.
  rewrite str_app_nil_r in *. by rewrite Hw, Hs, Hl.
Qed.

Lemma decode_string_quote s old : ValidString s = true -> decode_string (quote s) old = Some s.
Proof.
  intros Hs. destruct (quote_scan s "") as (o & E & _ & Hu). rewrite str_app_nil_r in E. rewrite E.
  cbn [decode_string]. change (is_byte 34 dquote) with true. cbv iota. by rewrite (Hu Hs).
Qed.

Lemma unmarshal_string_quote s : ValidString s = true -> unmarshal_string (quote s) = Some s.
Proof.
  intros Hs. unfold unmarshal_string. rewrite (reads_Valid 0) by (done || apply reads_string). cbn [negb].
  destruct (quote_scan s "") as (o & E & _ & Hu). rewrite str_app_nil_r in E. rewrite E.
  change (skip_ws (String dquote o)) with (String dquote o). cbv iota. change (is_byte 34 dquote) with true. cbv iota. by rewrite (Hu Hs).
Qed.

Lemma decode_slice_print {A} n zero (d : decoder A) l old : Z.of_nat n < maxNestingDepth -> Forall (fun j => reads n (print j)) l ->
  decode_slice zero d (print (JArray l)) old = mapM (fun j => d (print j) zero) l.
Proof.
  intros Hn Hl. cbn [print]. change ("[" +:+ ?x) with (String "[" x). cbn [decode_slice].
  change (is_byte 91 "[") with true. cbv iota. rewrite <- (str_app_nil_r (_ +:+ "]")), !str_app_assoc.
  rewrite (array_elements_reads n) by (done || by rewrite Forall_map). clear. induction l as [|j l IH]; [done|].
  simpl. by rewrite IH.
Qed.

Lemma decode_struct_print {A} n (fs : fields A) l old : Z.of_nat n < maxNestingDepth ->
  Forall (fun kv => ValidString (fst kv) = true /\ reads n (print (snd kv))) l ->
  decode_struct fs (print (JObject l)) old = set_members fs (map printed l) old.
Proof.
  intros Hn Hl. rewrite print_object. change ("{" +:+ ?x) with (String "{" x). cbn [decode_struct].
  change (is_byte 123 "{") with true. cbv iota. rewrite <- (str_app_nil_r (_ +:+ "}")), !str_app_assoc.
  rewrite (object_members_reads n) by (done || by rewrite Forall_map). done.
Qed.

Lemma set_members_app {A} (fs : fields A) kvs1 kvs2 x :
  set_members fs (kvs1 ++ kvs2) x = (x ← set_members fs kvs1 x; set_members fs kvs2 x).
Proof.
  revert x. induction kvs1 as [|[k v] kvs1 IH]; intros x; [done|]. cbn [app set_members].
  destruct (field_for fs k) as [d|]; [destruct (d v x) as [y|]; [apply IH|done] | apply IH].
Qed.

Lemma mapM_map_inverse {A B} (f : A -> B) (d : B -> option A) l : Forall (fun a => d (f a) = Some a) l -> mapM d (map f l) = Some l.
Proof. induction 1 as [|a l Ha _ IH]; [done|]. simpl. rewrite Ha. simpl. by rewrite IH. Qed.

(** A struct written member by member and read back: each member sets its
    field, an omitted one leaves the zero value that was omitted. *)
Section member_by_member.
Context {A : Type} (fs : fields A).

Lemma set_string k s get set x : field_for fs k = Some (field get set decode_string) -> ValidString s = true ->
  set_members fs (map printed [(k, JString s)]) x = Some (set s x).
Proof.
  intros Hf Hs. cbn [map printed fst snd set_members print]. rewrite Hf. unfold field. by rewrite decode_string_quote.
Qed.

Lemma set_omit_string k s get set x : field_for fs k = Some (field get set decode_string) -> ValidString s = true ->
  set "" x = x -> set_members fs (map printed (omit_string k s)) x = Some (set s x).
Proof.
  intros Hf Hs Hx. unfold omit_string. destruct (String.eqb_spec s "") as [->|]; [by rewrite Hx|]. by eapply set_string.
Qed.

Lemma set_omit_raw n k s get set x : field_for fs k = Some (field get set decode_raw) -> s = "" \/ reads n s ->
  set "" x = x -> set_members fs (map printed (omit_raw k s)) x = Some (set s x).
Proof.
  intros Hf Hs Hx. unfold omit_raw. destruct (String.eqb_spec s "") as [->|Hne]; [by rewrite Hx|].
  destruct Hs as [?|Hs]; [done|]. cbn [map printed fst snd set_members print]. rewrite Hf, (compact_reads n) by done. done.
Qed.
End member_by_member.

(** What the members of a struct must satisfy to be printed. *)
Definition members_ok (n : nat) (l : list (string * json)) : Prop :=
  Forall (fun kv => ValidString (fst kv) = true /\ reads n (print (snd kv))) l.

Lemma members_string n k s : ValidString k = true -> members_ok n [(k, JString s)].
Proof. intros Hk. constructor; [|constructor]. split; [done|]. apply reads_print_string. Qed.

Lemma members_omit_string n k s : ValidString k = true -> members_ok n (omit_string k s).
Proof. intros Hk. unfold omit_string. destruct (s =s ""); [constructor|]. by apply members_string. Qed.

Lemma members_omit_raw n k s : ValidString k = true -> s = "" \/ reads n s -> members_ok n (omit_raw k s).
Proof.
  intros Hk Hs. unfold omit_raw. destruct (String.eqb_spec s "") as [->|]; [constructor|]. destruct Hs; [done|].
  constructor; [|constructor]. split; [done|]. by apply reads_print_raw.
Qed.

End JsonCodec.

Create HintDb json discriminated.
#[export] Hint Resolve JsonCodec.members_string JsonCodec.members_omit_string JsonCodec.members_omit_raw : json.
