(* ===== verification/JsonCompact.v ===== *)
(** * JsonCompact: raw messages inside encoded values

    [json.Marshal] writes a [json.RawMessage] in compact form.  For every
    valid text, however it was formatted and whatever bytes its strings hold,
    the compact form is again the text of one value that every reader
    delimits properly ([Valid_compact]); so raw members (tool schemas, format
    descriptions, cache hints) survive being embedded. *)

From S2P Require Import Prelude GoStrings Json JsonCodec.

Module JsonCompact.
Import Json JsonCodec.

(** ** Text and its compact form *)

Definition squeezes (t t' : string) : Prop := forall l, compact_raw false (to_bytes t ++ l) = to_bytes t' ++ compact_raw false l.

Lemma squeezes_app t t' u u' : squeezes t t' -> squeezes u u' -> squeezes (t +:+ u) (t' +:+ u').
Proof. intros Ht Hu l. rewrite !to_bytes_app, <- !app_assoc. by rewrite Ht, Hu. Qed.

Lemma squeezes_nil : squeezes "" "".
Proof. by intros l. Qed.

Lemma squeezes_compact t t' : squeezes t t' -> compact t = t'.
Proof. intros H. unfold compact. specialize (H []). rewrite !app_nil_r in H. by rewrite H, of_to_bytes. Qed.

(** ASCII bytes that the compaction copies. *)
Definition plain (c : ascii) : bool :=
  (byte_of c <? 128) && negb (json_space c) && negb (is_byte 34 c) && negb (is_byte 60 c) && negb (is_byte 62 c) && negb (is_byte 38 c).

Lemma compact_plain c l : plain c = true -> compact_raw false (c :: l) = c :: compact_raw false l.
Proof.
  unfold plain. rewrite !andb_true_iff, !negb_true_iff. intros (((((H1 & H2) & H3) & H4) & H5) & H6).
  cbn [compact_raw]. rewrite H3, H2, H4, H5, H6. cbn [andb negb orb].
  assert (H7 : is_byte 226 c = false) by (unfold is_byte; lia). rewrite H7. by destruct l as [|? [|? ?]].
Qed.

Lemma squeezes_plain t : Forall (fun c => plain c = true) (to_bytes t) -> squeezes t t.
Proof. intros H l. induction H as [|c b Hc _ IH]; [done|]. cbn [app]. rewrite compact_plain by done. by rewrite IH. Qed.

Lemma squeezes_space w : Forall (fun c => json_space c = true) (to_bytes w) -> squeezes w "".
Proof.
  intros H l. induction H as [|c b Hc _ IH]; [done|]. cbn [app compact_raw andb].
  assert (H3 : is_byte 34 c = false) by (unfold json_space, is_byte in *; lia). rewrite H3, Hc. exact IH.
Qed.

Lemma skip_ws_split s : exists w, s = w +:+ skip_ws s /\ squeezes w "".
Proof.
  enough (H : exists w, s = w +:+ skip_ws s /\ Forall (fun c => json_space c = true) (to_bytes w)).
  { destruct H as (w & E & Hw). exists w. split; [done|]. by apply squeezes_space. }
  induction s as [|c s IH]; [exists ""; by split|]. cbn [skip_ws]. destruct (json_space c) eqn:E.
  - destruct IH as (w & Hs & Hw). exists (String c w). rewrite append_cons. split; [by f_equal|]. by constructor.
  - exists "". by split.
Qed.

(** ** String literals *)

Definition backslash : ascii := chr 92.

(** U+2028 and U+2029 in UTF-8. *)
Definition separator (l : list ascii) : bool :=
  match l with a :: b :: c :: _ => is_byte 226 a && is_byte 128 b && (is_byte 168 c || is_byte 169 c) | _ => false end.

(** The inside of a literal and of its compact form. *)
Inductive inner : list ascii -> list ascii -> Prop :=
| inner_nil : inner [] []
| inner_escape e x b b' : is_byte 117 e = false -> simple_escape e = Some x -> inner b b' -> inner (backslash :: e :: b) (backslash :: e :: b')
| inner_unicode e h1 h2 h3 h4 b b' : is_byte 117 e = true -> is_hex h1 && is_hex h2 && is_hex h3 && is_hex h4 = true -> inner b b' ->
    inner (backslash :: e :: h1 :: h2 :: h3 :: h4 :: b) (backslash :: e :: h1 :: h2 :: h3 :: h4 :: b')
| inner_html c b b' : is_byte 60 c || is_byte 62 c || is_byte 38 c = true -> inner b b' -> inner (c :: b) (u_escape (byte_of c) ++ b')
| inner_separator x y z b b' : separator [x; y; z] = true -> inner b b' ->
    inner (x :: y :: z :: b) (u_escape (if is_byte 168 z then 8232 else 8233) ++ b')
| inner_copy c b b' : 32 <= byte_of c -> is_byte 34 c || is_byte 92 c || is_byte 60 c || is_byte 62 c || is_byte 38 c = false ->
    separator (c :: b) = false -> inner b b' -> inner (c :: b) (c :: b').

Lemma scan_string_inner s : forall rest, scan_string s = Some rest ->
  exists b b', s = of_bytes (b ++ dquote :: to_bytes rest) /\ inner b b'.
Proof.
  enough (H : forall n s, (String.length s <= n)%nat -> forall rest, scan_string s = Some rest ->
    exists b b', s = of_bytes (b ++ dquote :: to_bytes rest) /\ inner b b') by by eapply H.
  clear s. induction n as [|n IH]; intros [|c s] Hn; simpl in Hn; try lia; try done. intros rest. cbn [scan_string].
  destruct (is_byte 34 c) eqn:H34.
  { assert (c = dquote) as -> by (symmetry; apply chr_eq; unfold is_byte in H34; lia).
    intros [= <-]. exists [], []. split; [|constructor]. cbn [app of_bytes String.string_of_list_ascii]. by rewrite of_to_bytes. }
  destruct (is_byte 92 c) eqn:H92.
  { assert (c = backslash) as -> by (symmetry; apply chr_eq; unfold is_byte in H92; lia).
    destruct s as [|e s]; [done|]. simpl in Hn. destruct (is_byte 117 e) eqn:Hu.
    - destruct s as [|h1 [|h2 [|h3 [|h4 s]]]]; try done. simpl in Hn. destruct (_ && is_hex h4) eqn:Hh; [|done].
      intros H. apply IH in H as (b & b' & -> & Hi); [|lia]. eexists _, _. split; [|by apply inner_unicode]. reflexivity.
    - destruct (simple_escape e) as [x|] eqn:He; [|done]. intros H. apply IH in H as (b & b' & -> & Hi); [|lia].
      eexists _, _. split; [|by eapply inner_escape]. reflexivity. }
  destruct (Z.ltb_spec (byte_of c) 32); [done|]. intros H0.
  destruct (is_byte 60 c || is_byte 62 c || is_byte 38 c) eqn:Hh.
  { apply IH in H0 as (b & b' & -> & Hi); [|lia]. eexists _, _. split; [|by apply inner_html]. reflexivity. }
  destruct (separator (to_bytes (String c s))) eqn:Hsep.
  - destruct s as [|y [|z s]]; try done. simpl in Hn. cbn [separator to_bytes String.list_ascii_of_string] in Hsep.
    assert (Hy : is_byte 128 y = true /\ (is_byte 168 z = true \/ is_byte 169 z = true)).
    { destruct (is_byte 226 c), (is_byte 128 y), (is_byte 168 z), (is_byte 169 z); auto; done. }
    assert (Hskip : scan_string (String y (String z s)) = scan_string s).
    { cbn [scan_string]. unfold is_byte in *. destruct Hy as [Hy Hz].
      repeat match goal with |- context[Z.eqb ?a ?b] => destruct (Z.eqb_spec a b); [lia|] end.
      repeat match goal with |- context[Z.ltb ?a ?b] => destruct (Z.ltb_spec a b); [lia|] end. done. }
    rewrite Hskip in H0. apply IH in H0 as (b & b' & -> & Hi); [|lia]. eexists _, _.
    split; [|eapply (inner_separator c y z); [|exact Hi]]; [reflexivity|]. exact Hsep.
  - apply IH in H0 as (b & b' & -> & Hi); [|lia]. eexists _, _. split; [|apply inner_copy; [done| | |exact Hi]]; [reflexivity| |].
    + rewrite H34, H92. cbn [orb]. exact Hh.
    + clear -Hsep. cbn [to_bytes of_bytes String.string_of_list_ascii String.list_ascii_of_string] in Hsep.
      destruct b as [|y [|z b]]; [done|done|]. exact Hsep.
Qed.

(** The compact form starts with the same bytes beyond ASCII, so it holds no
    separator either. *)
Lemma inner_first b b' : inner b b' -> forall y w, b' = y :: w -> 128 <= byte_of y -> exists w2, b = y :: w2 /\ inner w2 w.
Proof.
  intros Hi y w -> Hy. inversion Hi; subst; try (vm_compute in Hy; congruence); eauto.
Qed.

Lemma inner_separator_free b b' c : inner b b' -> separator (c :: b) = false -> separator (c :: b') = false.
Proof.
  intros Hi Hs. destruct (separator (c :: b')) eqn:E; [|done]. exfalso.
  destruct b' as [|y [|z w]]; try done. cbn [separator] in E.
  assert (Hy : 128 <= byte_of y) by (unfold is_byte in E; lia). assert (Hz : 128 <= byte_of z) by (unfold is_byte in E; lia).
  destruct (inner_first _ _ Hi _ _ eq_refl Hy) as (w2 & -> & Hi2).
  destruct (inner_first _ _ Hi2 _ _ eq_refl Hz) as (w3 & -> & _). cbn [separator] in Hs. congruence.
Qed.

Lemma compact_copy b c l : byte_of c < 128 \/ separator (c :: l) = false -> json_space c = false \/ b = true ->
  is_byte 34 c || is_byte 92 c || is_byte 60 c || is_byte 62 c || is_byte 38 c = false ->
  compact_raw b (c :: l) = c :: compact_raw b l.
Proof.
  intros Hc Hb Hn. rewrite !orb_false_iff in Hn. destruct Hn as ((((H1 & H2) & H3) & H4) & H5).
  cbn [compact_raw]. rewrite H1, H2, H3, H4, H5, andb_false_r.
  assert (Hsp : negb b && json_space c = false) by (destruct Hb as [-> | ->]; [by rewrite andb_false_r | done]). rewrite Hsp.
  destruct l as [|y [|z l]]; try done. destruct Hc as [Hc|Hc].
  - assert (is_byte 226 c = false) as -> by (unfold is_byte; lia). done.
  - cbn [separator] in Hc. destruct (is_byte 226 c), (is_byte 128 y), (is_byte 168 z), (is_byte 169 z); done.
Qed.

Lemma separator_dquote c b l : separator (c :: b) = false -> separator (c :: b ++ dquote :: l) = false.
Proof.
  destruct b as [|y [|z b]]; intros Hs; [destruct l as [|z l]; [done|]| |exact Hs]; cbn [separator app].
  - by destruct (is_byte 226 c).
  - by destruct (is_byte 226 c), (is_byte 128 y).
Qed.

Lemma hex_range h : is_hex h = true -> 48 <= byte_of h <= 57 \/ 65 <= byte_of h <= 70 \/ 97 <= byte_of h <= 102.
Proof.
  unfold is_hex, hex_value, byte_in. destruct (_ && _) eqn:E1; [lia|]. destruct (_ && _) eqn:E2 in |- *; [lia|].
  destruct (_ && _) eqn:E3 in |- *; [lia|done].
Qed.

Lemma compact_unicode e h1 h2 h3 h4 l : is_hex h1 && is_hex h2 && is_hex h3 && is_hex h4 = true ->
  compact_raw true (backslash :: e :: h1 :: h2 :: h3 :: h4 :: l) = backslash :: e :: h1 :: h2 :: h3 :: h4 :: compact_raw true l.
Proof.
  intros Hh.
  assert (Hx : forall h m, is_hex h = true -> compact_raw true (h :: m) = h :: compact_raw true m).
  { intros h m Hh'. apply hex_range in Hh'. apply compact_copy; [left; lia|by right|]. unfold is_byte. lia. }
  rewrite !andb_true_iff in Hh. destruct Hh as [[[? ?] ?] ?].
  change (compact_raw true (backslash :: e :: ?x)) with (backslash :: e :: compact_raw true x). by rewrite !Hx.
Qed.

Lemma html_cases c : is_byte 60 c || is_byte 62 c || is_byte 38 c = true -> c = "<"%char \/ c = ">"%char \/ c = "&"%char.
Proof.
  unfold is_byte. intros Hc. rewrite <- (chr_byte_of c).
  assert (byte_of c = 60 \/ byte_of c = 62 \/ byte_of c = 38) as [-> | [-> | ->]] by lia; [by left | by right; left | by right; right].
Qed.

Lemma compact_inner b b' l : inner b b' ->
  compact_raw true (b ++ dquote :: l) = b' ++ dquote :: compact_raw false l /\
  compact_raw true (b' ++ dquote :: l) = b' ++ dquote :: compact_raw false l.
Proof.
  induction 1 as [|e x b b' Hu He Hi [IH1 IH2]|e h1 h2 h3 h4 b b' Hu Hh Hi [IH1 IH2]|c b b' Hc Hi [IH1 IH2]|x y z b b' Hs Hi [IH1 IH2]
    |c b b' H0 Hc Hs Hi [IH1 IH2]]; [done| | | | |]; rewrite <- ?app_assoc; cbn [app].
  - change (compact_raw true (backslash :: e :: ?x)) with (backslash :: e :: compact_raw true x). by rewrite IH1, IH2.
  - rewrite !compact_unicode by done. by rewrite IH1, IH2.
  - split.
    + rewrite <- IH1. set (t := b ++ dquote :: l). cbn [compact_raw].
      assert (H92 : is_byte 92 c = false /\ is_byte 34 c = false) by (unfold is_byte in *; lia).
      destruct H92 as [H92 H34]. rewrite H92, H34. cbn [andb negb]. by rewrite Hc.
    + rewrite <- IH2. set (t := b' ++ dquote :: l). clearbody t. clear -Hc.
      destruct (html_cases c Hc) as [-> | [-> | ->]]; destruct t as [|? [|? ?]]; reflexivity.
  - cbn [separator] in Hs. split.
    + rewrite <- IH1. set (t := b ++ dquote :: l). cbn [compact_raw]. unfold is_byte, json_space, is_byte in *.
      repeat match goal with |- context[Z.eqb (byte_of x) ?k] => destruct (Z.eqb_spec (byte_of x) k); try lia end.
      repeat match goal with |- context[Z.eqb (byte_of y) ?k] => destruct (Z.eqb_spec (byte_of y) k); try lia end.
      destruct (Z.eqb_spec (byte_of z) 168); [done|]. destruct (Z.eqb_spec (byte_of z) 169); [done|lia].
    + rewrite <- IH2. set (t := b' ++ dquote :: l). clearbody t. destruct (is_byte 168 z), t as [|? [|? ?]]; reflexivity.
  - split; (rewrite compact_copy; [|right|by right|done]); rewrite ?IH1, ?IH2; try done; apply separator_dquote; [done|].
    by eapply inner_separator_free.
Qed.

Lemma scan_inner b b' t : inner b b' -> scan_string (of_bytes (b' ++ dquote :: t)) = Some (of_bytes t).
Proof.
  induction 1 as [|e x b b' Hu He Hi IH|e h1 h2 h3 h4 b b' Hu Hh Hi IH|c b b' Hc Hi IH|x y z b b' Hs Hi IH|c b b' H0 Hc Hs Hi IH];
    [reflexivity| | | | |]; rewrite <- ?app_assoc; rewrite <- IH; set (m := b' ++ dquote :: t).
  - cbn [app of_bytes String.string_of_list_ascii scan_string]. change (is_byte 34 backslash) with false. change (is_byte 92 backslash) with true.
    cbv iota. by rewrite Hu, He.
  - cbn [app of_bytes String.string_of_list_ascii scan_string]. change (is_byte 34 backslash) with false. change (is_byte 92 backslash) with true.
    cbv iota. by rewrite Hu, Hh.
  - by destruct (html_cases c Hc) as [-> | [-> | ->]].
  - by destruct (is_byte 168 z).
  - cbn [app of_bytes String.string_of_list_ascii scan_string]. rewrite !orb_false_iff in Hc. destruct Hc as ((((H1 & H2) & _) & _) & _).
    rewrite H1, H2. by destruct (Z.ltb_spec (byte_of c) 32); [lia|].
Qed.

Lemma literal_squeezes r rest : scan_string r = Some rest ->
  exists t t', String dquote r = t +:+ rest /\ squeezes t t' /\ literal t'.
Proof.
  intros H. apply scan_string_inner in H as (b & b' & -> & Hi).
  assert (Ht : forall (x : list ascii) (u : string), of_bytes (dquote :: x ++ [dquote]) +:+ u = String dquote (of_bytes (x ++ dquote :: to_bytes u))).
  { intros x u. change (of_bytes (dquote :: x ++ [dquote])) with (String dquote (of_bytes (x ++ [dquote]))). rewrite append_cons. f_equal.
    rewrite !of_bytes_app, str_app_assoc. f_equal. cbn [of_bytes String.string_of_list_ascii]. rewrite append_cons, append_nil.
    by rewrite of_to_bytes. }
  assert (Hs : forall x y l, (forall m, compact_raw true (x ++ dquote :: m) = y ++ dquote :: compact_raw false m) ->
    compact_raw false (to_bytes (of_bytes (dquote :: x ++ [dquote])) ++ l) = to_bytes (of_bytes (dquote :: y ++ [dquote])) ++ compact_raw false l).
  { intros x y l Hxy. rewrite !to_of_bytes. cbn [app]. rewrite <- !app_assoc. cbn [app].
    change (compact_raw false (dquote :: ?z)) with (dquote :: compact_raw true z). by rewrite Hxy. }
  exists (of_bytes (dquote :: b ++ [dquote])), (of_bytes (dquote :: b' ++ [dquote])). split; [by rewrite Ht|]. split; [|split].
  - intros l. apply Hs. intros m. by apply compact_inner.
  - intros t. rewrite Ht. eexists. split; [reflexivity|]. rewrite (scan_inner _ _ _ Hi). by rewrite of_to_bytes.
  - intros l. apply Hs. intros m. by apply (compact_inner b b').
Qed.

(** ** Numbers and literals *)

(** A scanner that takes a piece of text without special bytes, and takes the
    same piece when something else follows. *)
Definition number_end (rest : string) : bool :=
  match rest with
  | EmptyString => true
  | String c _ => negb (byte_in 48 57 c) && negb (is_byte 46 c) && negb (is_byte 101 c) && negb (is_byte 69 c)
  end.

Definition takes (ok : string -> bool) (f : string -> option string) (s : string) : Prop :=
  match f s with
  | Some rest => exists t, s = t +:+ rest /\ Forall (fun c => plain c = true) (to_bytes t) /\
      forall rest', ok rest' = true -> f (t +:+ rest') = Some rest'
  | None => True
  end.

Definition digits_end (rest : string) : bool := match rest with String c _ => negb (byte_in 48 57 c) | EmptyString => true end.

Lemma plain_digit c : byte_in 48 57 c = true -> plain c = true.
Proof. unfold byte_in, plain, json_space, is_byte. lia. Qed.

Lemma plain_byte n c : is_byte n c = true -> n = 43 \/ n = 45 \/ n = 46 \/ n = 69 \/ n = 101 -> plain c = true.
Proof. unfold plain, json_space, is_byte. lia. Qed.

(** Digits up to something that is none. *)
Lemma skip_digits_takes s : exists t, s = t +:+ skip_digits s /\ Forall (fun c => plain c = true) (to_bytes t) /\
  (forall rest, digits_end rest = true -> skip_digits (t +:+ rest) = rest) /\ digits_end (skip_digits s) = true.
Proof.
  assert (Hnil : forall rest, digits_end rest = true -> skip_digits ("" +:+ rest) = rest).
  { intros [|c r] Hc; [done|]. rewrite append_nil. cbn [skip_digits digits_end] in *. by destruct (byte_in 48 57 c). }
  induction s as [|c s (t & Hs & Hp & Hr & Hh)]; cbn [skip_digits].
  { exists "". split; [done|]. split; [constructor|]. by split. }
  destruct (byte_in 48 57 c) eqn:E.
  - exists (String c t). rewrite append_cons. split; [by f_equal|]. split; [constructor; [by apply plain_digit|done]|]. split; [|done].
    intros rest Hc. rewrite append_cons. cbn [skip_digits]. rewrite E. by apply Hr.
  - exists "". split; [done|]. split; [constructor|]. split; [done|]. cbn. by rewrite E.
Qed.

Lemma number_end_digit rest : number_end rest = true -> digits_end rest = true.
Proof. destruct rest as [|c r]; [done|]. unfold number_end, digits_end. by destruct (byte_in 48 57 c). Qed.

Lemma takes_weaken (ok ok' : string -> bool) f s : (forall r, ok' r = true -> ok r = true) -> takes ok f s -> takes ok' f s.
Proof. unfold takes. intros Hok Hf. destruct (f s); [|done]. destruct Hf as (t & Hs & Hp & Hr). exists t. auto. Qed.

(** A byte before a scanner. *)
Lemma takes_cons ok (f g : string -> option string) c s : plain c = true -> (forall r, f (String c r) = g r) -> takes ok g s -> takes ok f (String c s).
Proof.
  unfold takes. intros Hc Hfg Hg. rewrite Hfg. destruct (g s) as [rest|]; [|done]. destruct Hg as (t & Hs & Hp & Hr).
  exists (String c t). rewrite append_cons. split; [by f_equal|]. split; [by constructor|]. intros rest' He. rewrite append_cons, Hfg. by apply Hr.
Qed.

(** Nothing taken. *)
Lemma takes_nothing ok (f : string -> option string) s : f s = Some s -> (forall r, ok r = true -> f r = Some r) -> takes ok f s.
Proof. unfold takes. intros -> Hr. exists "". split; [done|]. split; [constructor|]. intros r He. rewrite append_nil. by apply Hr. Qed.

Lemma digits1_takes s : takes digits_end digits1 s.
Proof.
  destruct s as [|c s]; [done|]. destruct (byte_in 48 57 c) eqn:E; [|unfold takes; cbn; by rewrite E].
  apply (takes_cons digits_end digits1 (fun r => Some (skip_digits r))); [by apply plain_digit| |].
  - intros r. cbn. by rewrite E.
  - unfold takes. destruct (skip_digits_takes s) as (t & Hs & Hp & Hr & _). exists t. split; [done|]. split; [done|]. intros r Hr'. by rewrite Hr.
Qed.

(** Digits, then a scanner that may take nothing. *)
Lemma takes_after_digits (f g : string -> option string) s :
  (forall r, f r = match g r with Some r1 => scan_exponent r1 | None => None end) ->
  takes digits_end g s -> (forall r, g s = Some r -> digits_end r = true) -> (forall r, takes number_end scan_exponent r) -> takes number_end f s.
Proof.
  unfold takes. intros Hf Hg Hd He. rewrite Hf. destruct (g s) as [r1|] eqn:E; [|done]. destruct Hg as (t & Hs & Hp & Hr).
  specialize (He r1). destruct (scan_exponent r1) as [r2|]; [|done]. destruct He as (t2 & Hs2 & Hp2 & Hr2).
  exists (t +:+ t2). split; [by rewrite str_app_assoc, Hs, Hs2|]. split; [rewrite to_bytes_app; by apply Forall_app|].
  intros rest' Hend. rewrite str_app_assoc, Hf, Hr; [by apply Hr2|]. destruct t2 as [|c t2].
  - rewrite append_nil. by apply number_end_digit.
  - specialize (Hd r1 eq_refl). rewrite Hs2, append_cons in Hd. rewrite append_cons. exact Hd.
Qed.

Lemma scan_exponent_end r : number_end r = true -> scan_exponent r = Some r.
Proof. destruct r as [|c r]; [done|]. unfold number_end. cbn [scan_exponent]. by destruct (is_byte 101 c), (is_byte 69 c), (byte_in 48 57 c), (is_byte 46 c). Qed.

(** A sign or none. *)
Lemma signed_takes s : takes number_end
  (fun r => match r with String g r1 => if is_byte 43 g || is_byte 45 g then digits1 r1 else digits1 r | EmptyString => None end) s.
Proof.
  set (f := fun r => _). destruct s as [|x s]; [done|]. destruct (is_byte 43 x || is_byte 45 x) eqn:Ex.
  - apply (takes_cons number_end f digits1).
    + apply orb_true_iff in Ex as [Ex|Ex]; (eapply plain_byte; [exact Ex|tauto]).
    + intros r. unfold f. by rewrite Ex.
    + apply (takes_weaken digits_end); [apply number_end_digit | apply digits1_takes].
  - destruct (byte_in 48 57 x) eqn:E; [|unfold takes, f; rewrite Ex; cbn; by rewrite E].
    apply (takes_cons number_end f (fun r => Some (skip_digits r))); [by apply plain_digit| |].
    + intros r. unfold f. rewrite Ex. cbn. by rewrite E.
    + unfold takes. destruct (skip_digits_takes s) as (t & Hs & Hp & Hr & _). exists t. split; [done|]. split; [done|].
      intros r Hr'. rewrite Hr; [done|]. by apply number_end_digit.
Qed.

Lemma scan_exponent_takes s : takes number_end scan_exponent s.
Proof.
  destruct s as [|c s]; [by apply takes_nothing; [|apply scan_exponent_end]|].
  destruct (is_byte 101 c || is_byte 69 c) eqn:E.
  - eapply takes_cons; [| |apply signed_takes].
    + apply orb_true_iff in E as [E|E]; (eapply plain_byte; [exact E|tauto]).
    + intros r. cbn [scan_exponent]. by rewrite E.
  - apply takes_nothing; [|apply scan_exponent_end]. cbn [scan_exponent]. by rewrite E.
Qed.

Lemma digits1_end s r : digits1 s = Some r -> digits_end r = true.
Proof. destruct s as [|c s]; [done|]. cbn. destruct (byte_in 48 57 c); [|done]. intros [= <-]. by destruct (skip_digits_takes s) as (? & _ & _ & _ & ?). Qed.

Lemma scan_fraction_takes s : takes number_end scan_fraction s.
Proof.
  assert (Hend : forall r, number_end r = true -> scan_fraction r = Some r).
  { intros r He. pose proof (scan_exponent_end r He) as Hx. destruct r as [|c r]; [done|]. cbn [scan_fraction].
    unfold number_end in He. destruct (is_byte 46 c); [by rewrite andb_false_r in He|exact Hx]. }
  destruct s as [|c s]; [by apply takes_nothing|]. destruct (is_byte 46 c) eqn:E.
  - eapply takes_cons; [eapply plain_byte; [exact E|tauto]| |].
    + intros r. cbn [scan_fraction]. by rewrite E.
    + eapply (takes_after_digits _ digits1); [reflexivity|apply digits1_takes|apply digits1_end|apply scan_exponent_takes].
  - destruct (is_byte 101 c || is_byte 69 c) eqn:Ec.
    + eapply takes_cons; [apply orb_true_iff in Ec as [Ec|Ec]; (eapply plain_byte; [exact Ec|tauto])| |apply signed_takes].
      intros r. cbn [scan_fraction]. rewrite E. cbn [scan_exponent]. by rewrite Ec.
    + apply takes_nothing; [|done]. cbn [scan_fraction]. rewrite E. cbn [scan_exponent]. by rewrite Ec.
Qed.

(** The integer part. *)
Definition scan_unsigned (s : string) : option string :=
  match s with
  | String c r => if is_byte 48 c then scan_fraction r else if byte_in 49 57 c then scan_fraction (skip_digits r) else None
  | EmptyString => None
  end.

Lemma fraction_after_digits s : takes number_end (fun r => scan_fraction (skip_digits r)) s.
Proof.
  destruct (skip_digits_takes s) as (t & Hs & Hp & Hr & Hd). pose proof (scan_fraction_takes (skip_digits s)) as Hf.
  unfold takes in *. destruct (scan_fraction (skip_digits s)) as [rest|]; [|done]. destruct Hf as (t2 & Hs2 & Hp2 & Hr2).
  exists (t +:+ t2). split; [by rewrite str_app_assoc, <- Hs2|]. split; [rewrite to_bytes_app; by apply Forall_app|].
  intros rest' He. rewrite str_app_assoc, Hr; [by apply Hr2|]. destruct t2 as [|c t2].
  - rewrite append_nil. by apply number_end_digit.
  - rewrite Hs2, append_cons in Hd. rewrite append_cons. exact Hd.
Qed.

Lemma scan_unsigned_takes s : takes number_end scan_unsigned s.
Proof.
  destruct s as [|c s]; [done|]. destruct (is_byte 48 c) eqn:E0.
  - eapply takes_cons; [|intros r; cbn; by rewrite E0|apply scan_fraction_takes]. apply plain_digit. unfold is_byte, byte_in in *. lia.
  - destruct (byte_in 49 57 c) eqn:E1; [|unfold takes; cbn; by rewrite E0, E1].
    eapply takes_cons; [|intros r; cbn; by rewrite E0, E1|apply fraction_after_digits]. apply plain_digit. unfold byte_in in *. lia.
Qed.

Lemma scan_number_takes s : takes number_end scan_number s.
Proof.
  assert (E : forall s, scan_number s = scan_unsigned (match s with String c r => if is_byte 45 c then r else s | EmptyString => s end)) by done.
  destruct s as [|c s]; [done|]. destruct (is_byte 45 c) eqn:Em.
  - eapply takes_cons; [eapply plain_byte; [exact Em|tauto]| |apply scan_unsigned_takes]. intros r. rewrite E. by rewrite Em.
  - pose proof (scan_unsigned_takes (String c s)) as Hu. unfold takes in *. rewrite E, Em.
    destruct (scan_unsigned (String c s)) as [rest|] eqn:Es; [|done]. destruct Hu as (t & Hs & Hp & Hr). exists t. split; [done|]. split; [done|].
    intros rest' He. rewrite <- (Hr rest' He). destruct t as [|x t].
    + exfalso. rewrite append_nil in Hs. specialize (Hr "" eq_refl). done.
    + rewrite append_cons in Hs |- *. injection Hs as -> ->. rewrite E. by rewrite Em.
Qed.

(** ** Values *)

Lemma ends_number rest : ends rest = true -> number_end rest = true.
Proof.
  destruct rest as [|c r]; [done|]. unfold ends, number_end, json_space, byte_in, is_byte. lia.
Qed.

Lemma number_squeezes n s rest : scan_number s = Some rest -> exists t, s = t +:+ rest /\ squeezes t t /\ reads n t.
Proof.
  intros H. pose proof (scan_number_takes s) as Hn. unfold takes in Hn. rewrite H in Hn. destruct Hn as (t & Hs & Hp & Hr).
  exists t. split; [done|]. pose proof (squeezes_plain t Hp) as Hq. split; [done|].
  assert (Hh : exists c r, t = String c r /\ (byte_of c = 45 \/ 48 <= byte_of c <= 57)).
  { specialize (Hr "" eq_refl). rewrite str_app_nil_r in Hr. destruct t as [|c r]; [done|]. exists c, r. split; [done|].
    unfold scan_number, is_byte, byte_in in Hr. destruct (Z.eqb_spec (byte_of c) 45); [by left|]. right.
    destruct (Z.eqb_spec (byte_of c) 48); [lia|]. destruct (_ && _) eqn:E in Hr; [lia|done]. }
  destruct Hh as (c & r & E & Hc). split; [| |exact Hq].
  - exists c, r. split; [done|]. unfold json_space, is_byte. lia.
  - intros fuel d rest' He Hf _. specialize (Hr rest' (ends_number _ He)). rewrite E in *. rewrite append_cons in *.
    destruct fuel as [|fuel]; [lia|]. cbn [scan_value skip_ws].
    assert (Hn : forall z, In z [34; 123; 91; 116; 102; 110; 32; 9; 10; 13] -> is_byte z c = false).
    { intros z Hz. unfold is_byte. cbn in Hz. lia. }
    unfold json_space. rewrite !Hn by (cbn; tauto). cbn [orb]. rewrite !Hn by (cbn; tauto). exact Hr.
Qed.

Lemma word_squeezes n s rest lit : In lit ["true"; "false"; "null"] -> scan_literal s lit = Some rest ->
  s = lit +:+ rest /\ squeezes lit lit /\ reads n lit.
Proof.
  intros Hlit H. unfold scan_literal in H. destruct (HasPrefix s lit) eqn:E; [|done]. injection H as <-.
  split; [symmetry; by apply prefix_drop|].
  assert (Hq : squeezes lit lit).
  { apply squeezes_plain. cbn in Hlit. destruct Hlit as [<-|[<-|[<-|[]]]]; by repeat constructor. }
  split; [done|]. split; [| |exact Hq].
  - cbn in Hlit. destruct Hlit as [<-|[<-|[<-|[]]]]; (eexists _, _; split; [reflexivity|done]).
  - intros fuel d rest _ Hf _. destruct fuel as [|fuel]; [lia|]. transitivity (scan_literal (lit +:+ rest) lit).
    + cbn in Hlit. by destruct Hlit as [<-|[<-|[<-|[]]]].
    + unfold scan_literal, HasPrefix. by rewrite prefix_app, str_drop_app.
Qed.

(** The depth left below [d] open brackets. *)
Definition room (d : Z) : nat := Z.to_nat (maxNestingDepth - d).

Definition value_squeezes (s rest : string) (d : Z) : Prop :=
  exists t t', skip_ws s = t +:+ rest /\ squeezes t t' /\ reads (room d) t'.

Definition elements_squeeze (s rest : string) (d : Z) : Prop :=
  exists t ts, s = t +:+ rest /\ squeezes t (String.concat "," ts +:+ "]") /\ Forall (reads (room d)) ts /\ ts <> [].

Definition members_squeeze (s rest : string) (d : Z) : Prop :=
  exists t kvs, s = t +:+ rest /\ squeezes t (String.concat "," (map member_text kvs) +:+ "}") /\ Forall (member_ok (room d)) kvs /\ kvs <> [].

Lemma squeezes_punct c : is_byte 44 c || is_byte 58 c || is_byte 91 c || is_byte 93 c || is_byte 123 c || is_byte 125 c = true ->
  squeezes (String c "") (String c "").
Proof. intros Hc l. exact (compact_punct c l Hc). Qed.

(** White space before text goes away. *)
Lemma squeezes_ws s t t' rest : skip_ws s = t +:+ rest -> squeezes t t' -> exists u, s = u +:+ rest /\ squeezes u t'.
Proof.
  intros Hs Ht. destruct (skip_ws_split s) as (w & E & Hw). exists (w +:+ t). split.
  - by rewrite E, Hs, str_app_assoc.
  - apply (squeezes_app w "" t t' Hw Ht).
Qed.

Lemma is_byte_char n c : is_byte n c = true -> c = chr n.
Proof. unfold is_byte. intros H. symmetry. apply chr_eq. lia. Qed.

Lemma concat_text_snoc (a : string) l : l <> [] -> String.concat "," (a :: l) = a +:+ ("," +:+ String.concat "," l).
Proof. by destruct l. Qed.

Lemma squeeze_step fuel :
  (forall d s rest, d <= maxNestingDepth -> scan_value fuel d s = Some rest -> value_squeezes s rest d) ->
  (forall d s rest, d <= maxNestingDepth -> scan_elements fuel d s = Some rest -> elements_squeeze s rest d) ->
  forall d s rest, d <= maxNestingDepth -> scan_elements (S fuel) d s = Some rest -> elements_squeeze s rest d.
Proof.
  intros IHv IHe d s rest Hd. cbn [scan_elements]. destruct (scan_value fuel d s) as [r3|] eqn:Ev; [|done].
  apply IHv in Ev as (t & t' & Hs & Hq & Hr); [|done]. destruct (squeezes_ws _ _ _ _ Hs Hq) as (u & Hu & Hqu).
  destruct (skip_ws_split r3) as (w & Hw & Hqw). destruct (skip_ws r3) as [|e r4] eqn:E3; [done|].
  assert (Hue : s = (u +:+ (w +:+ String e "")) +:+ r4) by by rewrite Hu, Hw, !str_app_assoc, append_cons.
  destruct (is_byte 44 e) eqn:Ec; [|destruct (is_byte 93 e) eqn:Eb; [|done]].
  - intros He. apply IHe in He as (t4 & ts & -> & Hq4 & Hts & Hne); [|done].
    exists ((u +:+ (w +:+ String e "")) +:+ t4), (t' :: ts). split; [by rewrite Hue, (str_app_assoc _ t4)|]. split; [|split; [by constructor|done]].
    rewrite concat_text_snoc by done. rewrite !str_app_assoc. apply squeezes_app; [done|].
    apply (squeezes_app w ""); [done|]. apply (squeezes_app (String e "") ","); [|done]. apply is_byte_char in Ec as ->. by apply squeezes_punct.
  - intros [= ->]. exists (u +:+ (w +:+ String e "")), [t']. split; [done|]. split; [|split; [by constructor|done]].
    rewrite concat_one. apply squeezes_app; [done|]. apply (squeezes_app w ""); [done|].
    apply is_byte_char in Eb as ->. by apply squeezes_punct.
Qed.

Lemma squeeze_members_step fuel :
  (forall d s rest, d <= maxNestingDepth -> scan_value fuel d s = Some rest -> value_squeezes s rest d) ->
  (forall d s rest, d <= maxNestingDepth -> scan_members fuel d s = Some rest -> members_squeeze s rest d) ->
  forall d s rest, d <= maxNestingDepth -> scan_members (S fuel) d s = Some rest -> members_squeeze s rest d.
Proof.
  intros IHv IHm d s rest Hd. cbn [scan_members]. destruct (skip_ws_split s) as (w0 & Hw0 & Hq0).
  destruct (skip_ws s) as [|c r] eqn:Es; [done|]. destruct (is_byte 34 c) eqn:Eq; [|done]. apply is_byte_char in Eq as ->. change (chr 34) with dquote in *.
  destruct (scan_string r) as [r1|] eqn:Ek; [|done]. apply literal_squeezes in Ek as (k & k' & Hk & Hqk & Hlk).
  destruct (skip_ws_split r1) as (w1 & Hw1 & Hq1). destruct (skip_ws r1) as [|e r2] eqn:E1; [done|].
  destruct (is_byte 58 e) eqn:Ec; [|done]. apply is_byte_char in Ec as ->.
  destruct (scan_value fuel d r2) as [r3|] eqn:Ev; [|done].
  apply IHv in Ev as (t & t' & Ht & Hq & Hr); [|done]. destruct (squeezes_ws _ _ _ _ Ht Hq) as (u & Hu & Hqu).
  destruct (skip_ws_split r3) as (w & Hw & Hqw). destruct (skip_ws r3) as [|e r4] eqn:E3; [done|].
  set (head := w0 +:+ (k +:+ (w1 +:+ (String (chr 58) "" +:+ u)))).
  assert (Hue : s = (head +:+ (w +:+ String e "")) +:+ r4).
  { unfold head. rewrite Hw0, Hk, Hw1, Hu, Hw, !str_app_assoc, !append_cons, !append_nil. done. }
  assert (Hhead : squeezes head (member_text (k', t'))).
  { unfold head, member_text. cbn [fst snd]. apply (squeezes_app w0 ""); [done|]. apply squeezes_app; [done|].
    apply (squeezes_app w1 ""); [done|]. apply (squeezes_app _ ":"); [by apply squeezes_punct|done]. }
  assert (Hok : member_ok (room d) (k', t')) by by split.
  destruct (is_byte 44 e) eqn:Ec; [|destruct (is_byte 125 e) eqn:Eb; [|done]].
  - intros He. apply IHm in He as (t4 & kvs & -> & Hq4 & Hts & Hne); [|done].
    exists ((head +:+ (w +:+ String e "")) +:+ t4), ((k', t') :: kvs). split; [by rewrite Hue, (str_app_assoc _ t4)|].
    split; [|split; [by constructor|done]]. cbn [map]. rewrite concat_text_snoc by by destruct kvs.
    rewrite !str_app_assoc. apply squeezes_app; [done|].
    apply (squeezes_app w ""); [done|]. apply (squeezes_app (String e "") ","); [|done]. apply is_byte_char in Ec as ->. by apply squeezes_punct.
  - intros [= ->]. exists (head +:+ (w +:+ String e "")), [(k', t')]. split; [done|]. split; [|split; [by constructor|done]].
    cbn [map]. rewrite concat_one. apply squeezes_app; [done|]. apply (squeezes_app w ""); [done|].
    apply is_byte_char in Eb as ->. by apply squeezes_punct.
Qed.

Lemma room_step d : d < maxNestingDepth -> room d = S (room (d + 1)).
Proof. unfold room. lia. Qed.

Lemma squeeze_array fuel d r rest :
  (forall d s rest, d <= maxNestingDepth -> scan_elements fuel d s = Some rest -> elements_squeeze s rest d) -> d < maxNestingDepth ->
  match skip_ws r with
  | String e r1 => if is_byte 93 e then Some r1 else scan_elements fuel (d + 1) (skip_ws r)
  | EmptyString => None
  end = Some rest ->
  exists t t', String "[" r = t +:+ rest /\ squeezes t t' /\ reads (room d) t'.
Proof.
  intros IH Hd H. rewrite room_step by done. destruct (skip_ws_split r) as (w & Hw & Hq).
  destruct (skip_ws r) as [|e r1] eqn:Er; [done|]. destruct (is_byte 93 e) eqn:Ee.
  - injection H as ->. apply is_byte_char in Ee as ->. exists ("[" +:+ (w +:+ "]")), ("[" +:+ (String.concat "," [] +:+ "]")).
    split; [by rewrite Hw, !str_app_assoc|]. split; [|by apply reads_array].
    apply (squeezes_app "[" "["); [by apply squeezes_punct|]. apply (squeezes_app w ""); [done|by apply squeezes_punct].
  - apply IH in H as (t & ts & Ht & Hqt & Hts & Hne); [|lia].
    exists ("[" +:+ (w +:+ t)), ("[" +:+ (String.concat "," ts +:+ "]")).
    split; [by rewrite Hw, Ht, !str_app_assoc|]. split; [|by apply reads_array].
    apply (squeezes_app "[" "["); [by apply squeezes_punct|]. by apply (squeezes_app w "").
Qed.

Lemma squeeze_object fuel d r rest :
  (forall d s rest, d <= maxNestingDepth -> scan_members fuel d s = Some rest -> members_squeeze s rest d) -> d < maxNestingDepth ->
  match skip_ws r with
  | String e r1 => if is_byte 125 e then Some r1 else scan_members fuel (d + 1) (skip_ws r)
  | EmptyString => None
  end = Some rest ->
  exists t t', String "{" r = t +:+ rest /\ squeezes t t' /\ reads (room d) t'.
Proof.
  intros IH Hd H. rewrite room_step by done. destruct (skip_ws_split r) as (w & Hw & Hq).
  destruct (skip_ws r) as [|e r1] eqn:Er; [done|]. destruct (is_byte 125 e) eqn:Ee.
  - injection H as ->. apply is_byte_char in Ee as ->. exists ("{" +:+ (w +:+ "}")), ("{" +:+ (String.concat "," (map member_text []) +:+ "}")).
    split; [by rewrite Hw, !str_app_assoc|]. split; [|by apply reads_object].
    apply (squeezes_app "{" "{"); [by apply squeezes_punct|]. apply (squeezes_app w ""); [done|by apply squeezes_punct].
  - apply IH in H as (t & kvs & Ht & Hqt & Hts & Hne); [|lia].
    exists ("{" +:+ (w +:+ t)), ("{" +:+ (String.concat "," (map member_text kvs) +:+ "}")).
    split; [by rewrite Hw, Ht, !str_app_assoc|]. split; [|by apply reads_object].
    apply (squeezes_app "{" "{"); [by apply squeezes_punct|]. by apply (squeezes_app w "").
Qed.

Lemma squeeze_value_step fuel :
  (forall d s rest, d <= maxNestingDepth -> scan_elements fuel d s = Some rest -> elements_squeeze s rest d) ->
  (forall d s rest, d <= maxNestingDepth -> scan_members fuel d s = Some rest -> members_squeeze s rest d) ->
  forall d s rest, d <= maxNestingDepth -> scan_value (S fuel) d s = Some rest -> value_squeezes s rest d.
Proof.
  intros IHe IHm d s rest Hd H. cbn [scan_value] in H. unfold value_squeezes. destruct (skip_ws s) as [|c r]; [done|].
  destruct (is_byte 34 c) eqn:E1.
  { apply is_byte_char in E1 as ->. apply literal_squeezes in H as (t & t' & Ht & Hq & Hl). exists t, t'.
    split; [exact Ht|]. split; [done|]. by apply literal_reads. }
  destruct (is_byte 123 c) eqn:E2.
  { apply is_byte_char in E2 as ->. destruct (Z.leb_spec maxNestingDepth d); [done|]. by eapply squeeze_object. }
  destruct (is_byte 91 c) eqn:E3.
  { apply is_byte_char in E3 as ->. destruct (Z.leb_spec maxNestingDepth d); [done|]. by eapply squeeze_array. }
  assert (Hword : forall lit, In lit ["true"; "false"; "null"] -> scan_literal (String c r) lit = Some rest ->
    exists t t', String c r = t +:+ rest /\ squeezes t t' /\ reads (room d) t').
  { intros lit Hlit Hs. destruct (word_squeezes (room d) _ _ _ Hlit Hs) as (Hs' & Hq & Hr). by exists lit, lit. }
  destruct (is_byte 116 c); [apply (Hword "true"); [cbn; auto|done]|].
  destruct (is_byte 102 c); [apply (Hword "false"); [cbn; auto|done]|].
  destruct (is_byte 110 c); [apply (Hword "null"); [cbn; auto|done]|].
  apply (number_squeezes (room d)) in H as (t & Ht & Hq & Hr). by exists t, t.
Qed.

Lemma scan_squeezes fuel :
  (forall d s rest, d <= maxNestingDepth -> scan_value fuel d s = Some rest -> value_squeezes s rest d) /\
  (forall d s rest, d <= maxNestingDepth -> scan_elements fuel d s = Some rest -> elements_squeeze s rest d) /\
  (forall d s rest, d <= maxNestingDepth -> scan_members fuel d s = Some rest -> members_squeeze s rest d).
Proof.
  induction fuel as [|fuel (IHv & IHe & IHm)]; [done|]. split; [|split].
  - by apply squeeze_value_step.
  - by apply squeeze_step.
  - by apply squeeze_members_step.
Qed.

(** The compact form of a valid text is the text of one value. *)
Lemma Valid_compact s : Valid s = true -> reads (Z.to_nat maxNestingDepth) (compact s) /\ squeezes s (compact s).
Proof.
  unfold Valid, scan. destruct (scan_value _ 0 s) as [rest|] eqn:E; [|done]. intros Hr. apply String.eqb_eq in Hr.
  apply scan_squeezes in E as (t & t' & Ht & Hq & Hread); [|done]. destruct (squeezes_ws _ _ _ _ Ht Hq) as (u & Hu & Hqu).
  destruct (skip_ws_split rest) as (w & Hw & Hqw). rewrite Hr, str_app_nil_r in Hw.
  assert (Hs : squeezes s t') by (rewrite Hu, Hw, <- (str_app_nil_r t'); by apply squeezes_app).
  rewrite (squeezes_compact _ _ Hs). split; [|exact Hs].
  replace (Z.to_nat maxNestingDepth) with (room 0); [exact Hread|]. unfold room. by rewrite Z.sub_0_r.
Qed.

Lemma compact_idempotent s : Valid s = true -> compact (compact s) = compact s.
Proof. intros H. destruct (Valid_compact s H) as [Hr _]. by eapply compact_reads. Qed.

Lemma compact_valid s : Valid s = true -> Valid (compact s) = true.
Proof. intros H. destruct (Valid_compact s H) as [Hr _]. eapply reads_Valid; [exact Hr|]. rewrite Z2Nat.id by done. done. Qed.

(** ** Decoded strings are UTF-8 *)

Lemma byte_of_chr z : 0 <= z < 256 -> byte_of (chr z) = z.
Proof. intros Hz. unfold byte_of, chr. rewrite N_ascii_embedding by lia. lia. Qed.

Ltac byte_arith := Z.to_euclidean_division_equations; lia.

Lemma decode_two r l : 128 <= r < 2048 -> decode_rune ([chr (192 + r / 64); chr (128 + r mod 64)] ++ l) = (r, 2%nat).
Proof.
  intros Hr. cbn [app]. unfold decode_rune, cont, byte_in. rewrite !byte_of_chr by byte_arith.
  assert (E : forall x y, x = 192 + r / 64 -> y = 128 + r mod 64 -> (x <? 128) = false /\ (194 <=? x) && (x <=? 223) && ((128 <=? y) && (y <=? 191)) = true /\ (x - 192) * 64 + (y - 128) = r).
  { intros x y -> ->. split_and!; [apply Z.ltb_ge; byte_arith| |byte_arith]. rewrite !andb_true_iff, !Z.leb_le. split_and!; byte_arith. }
  destruct (E _ _ eq_refl eq_refl) as (E1 & E2 & E3). by rewrite E1, E2, E3.
Qed.

Lemma decode_three r l : 2048 <= r < 65536 -> ~ 55296 <= r <= 57343 ->
  decode_rune ([chr (224 + r / 4096); chr (128 + (r / 64) mod 64); chr (128 + r mod 64)] ++ l) = (r, 3%nat).
Proof.
  intros Hr Hs. cbn [app]. unfold decode_rune, cont, byte_in. rewrite !byte_of_chr by byte_arith. cbv zeta.
  assert (E : forall x y z, x = 224 + r / 4096 -> y = 128 + (r / 64) mod 64 -> z = 128 + r mod 64 ->
    (x <? 128) = false /\ (x <=? 223) = false /\
    (224 <=? x) && (x <=? 239) && ((if x =? 224 then 160 else 128) <=? y) && (y <=? (if x =? 237 then 159 else 191)) && ((128 <=? z) && (z <=? 191)) = true /\
    (x - 224) * 4096 + (y - 128) * 64 + (z - 128) = r).
  { intros x y z -> -> ->. split_and!; [apply Z.ltb_ge; byte_arith|apply Z.leb_gt; byte_arith| |byte_arith].
    destruct (Z.eqb_spec (224 + r / 4096) 224), (Z.eqb_spec (224 + r / 4096) 237); rewrite !andb_true_iff, !Z.leb_le; split_and!; byte_arith. }
  destruct (E _ _ _ eq_refl eq_refl eq_refl) as (E1 & E2 & E3 & E4). rewrite E1, E2, E3, E4. by rewrite andb_false_r.
Qed.

Lemma decode_four r l : 65536 <= r <= 1114111 ->
  decode_rune ([chr (240 + r / 262144); chr (128 + (r / 4096) mod 64); chr (128 + (r / 64) mod 64); chr (128 + r mod 64)] ++ l) = (r, 4%nat).
Proof.
  intros Hr. cbn [app]. unfold decode_rune, cont, byte_in. rewrite !byte_of_chr by byte_arith. cbv zeta.
  assert (E : forall x y z w, x = 240 + r / 262144 -> y = 128 + (r / 4096) mod 64 -> z = 128 + (r / 64) mod 64 -> w = 128 + r mod 64 ->
    (x <? 128) = false /\ (x <=? 223) = false /\ (x <=? 239) = false /\
    (240 <=? x) && (x <=? 244) && ((if x =? 240 then 144 else 128) <=? y) && (y <=? (if x =? 244 then 143 else 191)) &&
      ((128 <=? z) && (z <=? 191)) && ((128 <=? w) && (w <=? 191)) = true /\
    (x - 240) * 262144 + (y - 128) * 4096 + (z - 128) * 64 + (w - 128) = r).
  { intros x y z w -> -> -> ->. split_and!; [apply Z.ltb_ge; byte_arith|apply Z.leb_gt; byte_arith|apply Z.leb_gt; byte_arith| |byte_arith].
    destruct (Z.eqb_spec (240 + r / 262144) 240), (Z.eqb_spec (240 + r / 262144) 244); rewrite !andb_true_iff, !Z.leb_le; split_and!; byte_arith. }
  destruct (E _ _ _ _ eq_refl eq_refl eq_refl eq_refl) as (E1 & E2 & E3 & E4 & E5). rewrite E1, E2, E3, E4, E5. by rewrite !andb_false_r.
Qed.

Definition utf8_bytes (l : list ascii) : Prop := exists n, valid_utf8_fuel n l = true.

Lemma utf8_step s l r w : decode_rune (s ++ l) = (r, w) -> w = length s -> s <> [] -> (r =? RuneError) && (w =? 1)%nat = false ->
  utf8_bytes l -> utf8_bytes (s ++ l).
Proof.
  intros Hd -> Hs Hr [n Hn]. exists (S n). rewrite valid_utf8_step by (by destruct s). rewrite Hd, Hr. by rewrite drop_app_length.
Qed.

Lemma utf8_ascii c l : byte_of c < 128 -> utf8_bytes l -> utf8_bytes (c :: l).
Proof.
  intros Hc Hl. apply (utf8_step [c] l (byte_of c) 1); [by apply decode_rune_low|done|done| |done].
  unfold RuneError. destruct (Z.eqb_spec (byte_of c) 65533); [lia|done].
Qed.

Lemma utf8_encode_rune r l : utf8_bytes l -> utf8_bytes (encode_rune r ++ l).
Proof.
  intros Hl. unfold encode_rune. set (r' := if _ || _ || _ then RuneError else r).
  assert (Hr : 0 <= r' <= 1114111 /\ ~ 55296 <= r' <= 57343).
  { unfold r', RuneError. destruct (_ || _ || _) eqn:E; lia. }
  clearbody r'. destruct Hr as [Hr Hs]. destruct (Z.ltb_spec r' 128).
  { apply utf8_ascii; [rewrite byte_of_chr; lia|done]. }
  destruct (Z.ltb_spec r' 2048); [eapply utf8_step; [apply decode_two; lia|done|done|by rewrite andb_false_r|done]|].
  destruct (Z.ltb_spec r' 65536); [eapply utf8_step; [apply decode_three; lia|done|done|by rewrite andb_false_r|done]|].
  eapply utf8_step; [apply decode_four; lia|done|done|by rewrite andb_false_r|done].
Qed.

Lemma simple_escape_ascii e x : simple_escape e = Some x -> byte_of x < 128.
Proof.
  unfold simple_escape. destruct (is_byte 34 e || is_byte 92 e || is_byte 47 e) eqn:E; [intros [= ->]; unfold is_byte in E; lia|].
  repeat match goal with |- context[is_byte ?z e] => destruct (is_byte z e); [intros [= <-]; vm_compute; reflexivity|] end. done.
Qed.

Lemma unquote_body_utf8 fuel : forall l, utf8_bytes (unquote_body fuel l).
Proof.
  assert (Hnil : utf8_bytes []) by by exists O.
  induction fuel as [|fuel IH]; intros l; [done|]. destruct l as [|c r]; [done|]. cbn [unquote_body].
  destruct (is_byte 34 c); [done|]. destruct (is_byte 92 c).
  - destruct r as [|e r1]; [done|]. destruct (is_byte 117 e).
    + destruct r1 as [|h1 [|h2 [|h3 [|h4 r2]]]]; try done. set (rr := default RuneError (hex4 h1 h2 h3 h4)). cbv zeta.
      destruct (is_surrogate rr); [|by apply utf8_encode_rune].
      destruct r2 as [|b [|u [|g1 [|g2 [|g3 [|g4 r3]]]]]]; try by apply utf8_encode_rune.
      set (dec := if _ && _ then _ else _). destruct (dec =? RuneError); by apply utf8_encode_rune.
    + destruct (simple_escape e) as [x|] eqn:Ex; [|done]. apply utf8_ascii; [by eapply simple_escape_ascii|apply IH].
  - destruct (Z.ltb_spec (byte_of c) 128); [by apply utf8_ascii|].
    destruct (decode_rune (c :: r)) as [rr w]. by apply utf8_encode_rune.
Qed.

Lemma unquote_valid s : ValidString (unquote s) = true.
Proof.
  unfold unquote, ValidString. rewrite to_of_bytes. destruct (unquote_body_utf8 (S (String.length s)) (to_bytes s)) as [n Hn].
  eapply valid_utf8_enough; [|exact Hn]. rewrite <- (length_to_bytes (of_bytes _)), to_of_bytes. lia.
Qed.

(** ** Members of an object *)

(** A scan succeeds in the same way with more fuel and fewer open brackets. *)
Lemma scan_mono fuel :
  (forall fuel' d d' s r, (fuel <= fuel')%nat -> d' <= d -> scan_value fuel d s = Some r -> scan_value fuel' d' s = Some r) /\
  (forall fuel' d d' s r, (fuel <= fuel')%nat -> d' <= d -> scan_members fuel d s = Some r -> scan_members fuel' d' s = Some r) /\
  (forall fuel' d d' s r, (fuel <= fuel')%nat -> d' <= d -> scan_elements fuel d s = Some r -> scan_elements fuel' d' s = Some r).
Proof.
  induction fuel as [|fuel (IHv & IHm & IHe)]; [done|].
  split_and!; intros [|fuel'] d d' s r Hf Hd; try lia; cbn [scan_value scan_members scan_elements]; apply le_S_n in Hf.
  - destruct (skip_ws s) as [|c t]; [done|]. destruct (is_byte 34 c); [done|].
    destruct (is_byte 123 c), (is_byte 91 c); try (destruct (Z.leb_spec maxNestingDepth d); [done|]; rewrite (proj2 (Z.leb_gt maxNestingDepth d')) by lia;
      destruct (skip_ws t) as [|e u]; [done|]; destruct (is_byte _ e); [done|]; first [apply IHm|apply IHe]; lia). done.
  - destruct (skip_ws s) as [|c t]; [done|]. destruct (is_byte 34 c); [|done]. destruct (scan_string t) as [r1|]; [|done].
    destruct (skip_ws r1) as [|e r2]; [done|]. destruct (is_byte 58 e); [|done].
    destruct (scan_value fuel d r2) as [r3|] eqn:E; [|done]. rewrite (IHv fuel' d d' r2 r3) by done.
    destruct (skip_ws r3) as [|g r4]; [done|]. destruct (is_byte 44 g); [by apply IHm|done].
  - destruct (scan_value fuel d s) as [r3|] eqn:E; [|done]. rewrite (IHv fuel' d d' s r3) by done.
    destruct (skip_ws r3) as [|g r4]; [done|]. destruct (is_byte 44 g); [by apply IHe|done].
Qed.

Lemma scan_any fuel d s r : scan_value fuel d s = Some r -> 0 <= d -> scan s = Some r.
Proof.
  intros H Hd. rewrite <- (scan_fuel_enough (Nat.max fuel (scan_fuel s))) by lia.
  eapply (proj1 (scan_mono fuel)); [|exact Hd|exact H]. lia.
Qed.

Lemma skip_ws_idem s : skip_ws (skip_ws s) = skip_ws s.
Proof. induction s as [|c s IH]; [done|]. cbn [skip_ws]. destruct (json_space c) eqn:E; [done|]. cbn [skip_ws]. by rewrite E. Qed.

Lemma scan_value_ws fuel d s : scan_value fuel d (skip_ws s) = scan_value fuel d s.
Proof. destruct fuel as [|fuel]; [done|]. cbn [scan_value]. by rewrite skip_ws_idem. Qed.

(** The decoded members of a scanned object: names are UTF-8 and values
    compact to text that reads at the depth of the object. *)
Lemma members_compact m : forall fuel d s r, 0 <= d <= maxNestingDepth -> scan_members fuel d s = Some r ->
  Forall (fun kv => ValidString (fst kv) = true /\ reads (room d) (compact (snd kv))) (members m s).
Proof.
  induction m as [|m IH]; intros fuel d s r Hd H; [constructor|]. destruct fuel as [|fuel]; [done|].
  cbn [members scan_members] in *. destruct (skip_ws s) as [|c t]; [constructor|].
  destruct (is_byte 34 c); [|done]. destruct (scan_string t) as [r1|]; [|done]. destruct (skip_ws r1) as [|e r2]; [constructor|].
  destruct (is_byte 58 e); [|done]. destruct (scan_value fuel d r2) as [r3|] eqn:Ev; [|done]. cbv zeta.
  pose proof Ev as Hs. rewrite <- scan_value_ws in Hs. rewrite (scan_any _ _ _ _ Hs) by lia.
  apply (proj1 (scan_squeezes fuel)) in Ev as (v & v' & Hv & Hq & Hr); [|lia].
  constructor.
  - split; [apply unquote_valid|]. cbn [snd]. rewrite Hv, slice_app, (squeezes_compact _ _ Hq). done.
  - destruct (skip_ws r3) as [|g r4]; [constructor|]. destruct (is_byte 44 g); [by eapply IH|constructor].
Qed.

(** ** Maps of raw messages *)

Lemma insert_key_perm kv l : insert_key kv l ≡ₚ kv :: l.
Proof. induction l as [|kv' l IH]; [done|]. cbn [insert_key]. destruct (string_leb _ _); [done|]. rewrite IH. apply Permutation_swap. Qed.

Lemma sort_keys_perm l : foldr insert_key [] l ≡ₚ l.
Proof. induction l as [|kv l IH]; [done|]. cbn. by rewrite insert_key_perm, IH. Qed.

Lemma fold_insert_list_to_map (l : list (string * string)) : forall m0 : gmap string string, NoDup (map fst l) -> (forall k, In k (map fst l) -> m0 !! k = None) ->
  fold_left (fun m kv => <[fst kv := snd kv]> m) l m0 = list_to_map l ∪ m0.
Proof.
  induction l as [|[k v] l IH]; intros m0 Hnd Hm; [cbn; by rewrite (left_id_L ∅ (∪))|].
  cbn [map fst] in Hnd. inversion Hnd as [|? ? Hk Hnd']; subst. cbn [fold_left fst snd]. rewrite IH; [|done|].
  - cbn. rewrite <- insert_union_l, <- insert_union_r; [done|]. by apply not_elem_of_list_to_map_1.
  - intros k' Hk'. rewrite lookup_insert_ne; [apply Hm; by right|]. intros ->. by apply Hk, list_elem_of_In.
Qed.

Lemma unmarshal_object_print n kvs : Z.of_nat n < maxNestingDepth ->
  Forall (fun kv => ValidString (fst kv) = true /\ reads n (snd kv)) kvs ->
  unmarshal_object ("{" +:+ (String.concat "," (map member_text (map quoted_member kvs)) +:+ "}")) =
  Some (fold_left (fun m kv => <[fst kv := snd kv]> m) kvs ∅).
Proof.
  intros Hn Hkvs. pose proof (quoted_members_ok n kvs Hkvs) as Hok. unfold unmarshal_object.
  rewrite (reads_Valid (S n)) by (by apply reads_object || lia). cbn [negb]. change ("{" +:+ ?x) with (String "{" x).
  change (skip_ws (String "{" ?x)) with (String "{" x). cbv iota. change (is_byte 123 "{") with true. cbv iota.
  destruct (decide (kvs = [])) as [->|Hne]; [reflexivity|].
  destruct (members_head n _ "}" Hok) as (r & E); [by destruct kvs|].
  pose proof (members_reads n Hn kvs "" Hkvs Hne) as Hm. rewrite str_app_nil_r in Hm. rewrite E in *.
  change (skip_ws (String dquote r)) with (String dquote r). cbv iota. change (is_byte 125 dquote) with false. cbv iota.
  rewrite Hm; [done|]. rewrite <- E. cbn [String.length]. rewrite str_app_length. pose proof (members_length n _ Hok) as Hl.
  rewrite length_map in Hl. lia.
Qed.

(** What [json.Marshal] writes for a map of raw messages: the compact values
    under the quoted keys, in some order. *)
Definition map_members (m : gmap string string) : list (string * string) :=
  map (fun kv => (fst kv, compact (snd kv))) (foldr insert_key [] (map_to_list m)).

Lemma marshal_raw_map_members m :
  marshal_raw_map m = "{" +:+ (String.concat "," (map member_text (map quoted_member (map_members m))) +:+ "}").
Proof. unfold marshal_raw_map, map_members. cbv zeta. by rewrite !map_map. Qed.

Lemma map_members_ok n m : (forall k v, m !! k = Some v -> ValidString k = true /\ reads n (compact v)) ->
  Forall (fun kv => ValidString (fst kv) = true /\ reads n (snd kv)) (map_members m).
Proof.
  intros Hm. unfold map_members. rewrite Forall_map, sort_keys_perm. apply Forall_forall. intros [k v] Hin.
  apply elem_of_map_to_list in Hin. exact (Hm k v Hin).
Qed.

Lemma reads_raw_map n m : Z.of_nat n < maxNestingDepth -> (forall k v, m !! k = Some v -> ValidString k = true /\ reads n (compact v)) ->
  reads (S n) (marshal_raw_map m).
Proof. intros Hn Hm. rewrite marshal_raw_map_members. by apply reads_object, quoted_members_ok, map_members_ok. Qed.

(** It decodes to the same map with compact values. *)
Lemma unmarshal_marshal_raw_map n (m : gmap string string) : Z.of_nat n < maxNestingDepth ->
  (forall k v, m !! k = Some v -> ValidString k = true /\ reads n (compact v)) ->
  unmarshal_object (marshal_raw_map m) = Some (compact <$> m).
Proof.
  intros Hn Hm. rewrite marshal_raw_map_members, (unmarshal_object_print n) by (done || by apply map_members_ok). f_equal.
  unfold map_members. set (kvs := foldr insert_key [] (map_to_list m)).
  set (kvs' := map _ kvs). assert (Hp : kvs ≡ₚ map_to_list m) by apply sort_keys_perm.
  assert (Hfst : map fst kvs' = map fst kvs) by (unfold kvs'; by rewrite map_map).
  assert (Hnd : NoDup (map fst kvs)) by (rewrite Hp; apply NoDup_fst_map_to_list).
  rewrite fold_insert_list_to_map; [|by rewrite Hfst|done].
  rewrite (right_id_L ∅ (∪)). change kvs' with (prod_map id compact <$> kvs). rewrite list_to_map_fmap. f_equal.
  rewrite (list_to_map_proper kvs (map_to_list m)) by done. apply list_to_map_to_list.
Qed.

Lemma members_ws m s : members m (skip_ws s) = members m s.
Proof. destruct m as [|m]; [done|]. cbn [members]. by rewrite skip_ws_idem. Qed.

Lemma fold_insert_lookup (l : list (string * string)) : forall (m0 : gmap string string) k v,
  fold_left (fun m kv => <[fst kv := snd kv]> m) l m0 !! k = Some v -> m0 !! k = Some v \/ In (k, v) l.
Proof.
  induction l as [|[k' v'] l IH]; intros m0 k v; cbn [fold_left fst snd]; [by left|]. intros H. apply IH in H as [H|H]; [|by right; right].
  destruct (decide (k' = k)) as [->|Hne]; [rewrite lookup_insert_eq in H; injection H as ->; right; by left|].
  rewrite lookup_insert_ne in H by done. by left.
Qed.

(** The members of a decoded object. *)
Lemma unmarshal_object_members s m k v : unmarshal_object s = Some m -> m !! k = Some v ->
  ValidString k = true /\ reads (room 1) (compact v).
Proof.
  unfold unmarshal_object. destruct (Valid s) eqn:Hv; [|done]. cbn [negb]. unfold Valid, scan in Hv.
  destruct (skip_ws s) as [|c r] eqn:Es; [done|]. destruct (is_byte 123 c) eqn:Ec.
  2: { destruct (is_byte 110 c); [|done]. intros [= <-]. by rewrite lookup_empty. }
  apply is_byte_char in Ec as ->. destruct (skip_ws r) as [|e r1] eqn:Er; [done|]. destruct (is_byte 125 e) eqn:Ee.
  { intros [= <-]. by rewrite lookup_empty. }
  intros [= <-] Hk. apply fold_insert_lookup in Hk as [Hk|Hk]; [by rewrite lookup_empty in Hk|].
  unfold scan_fuel in Hv. rewrite <- scan_value_ws, Es in Hv. change (chr 123) with "{"%char in Hv.
  rewrite scan_value_object in Hv by done. rewrite Er, Ee in Hv.
  destruct (scan_members _ (0 + 1) (String e r1)) as [rest|] eqn:Em; [|done].
  pose proof (members_compact (String.length s) _ (0 + 1) _ _ ltac:(done) Em) as Hall.
  rewrite <- Er, members_ws in Hall. rewrite Forall_forall in Hall. apply (Hall (k, v)). by apply list_elem_of_In.
Qed.

(** A decoded map written again. *)
Lemma remarshal s m : unmarshal_object s = Some m -> unmarshal_object (marshal_raw_map m) = Some (compact <$> m).
Proof.
  intros Hm. apply (unmarshal_marshal_raw_map (room 1)); [by vm_compute|]. intros k v Hk. by eapply unmarshal_object_members.
Qed.

End JsonCompact.
