(* ===== verification/JsonMembers.v ===== *)
(** * JsonMembers: the parts of a decoded value

    A decoder hands the text of every element and member on, cut out of the
    text around it.  Here: the cut-out text is itself the text of a value,
    nested no deeper than the text around it allows, so that raw messages
    inside decoded structs are valid JSON and can be written again. *)

From S2P Require Import Prelude GoStrings Json JsonCodec JsonCompact.

Module JsonMembers.
Import Json JsonCodec JsonCompact.

(** ** Cutting a value out of a text

    [cuts ok f s]: what [f] consumed of [s] is consumed alike before any
    other text that is [ok]. *)

Definition cuts (ok : string -> Prop) (f : string -> option string) (s : string) : Prop :=
  forall r, f s = Some r -> exists t, s = t +:+ r /\ forall r', ok r' -> f (t +:+ r') = Some r'.

Definition ending (r : string) : Prop := ends r = true.
Definition anything (r : string) : Prop := True.

Lemma skip_ws_cut s : exists w, s = w +:+ skip_ws s /\ forall x, skip_ws (w +:+ x) = skip_ws x.
Proof.
  induction s as [|c s (w & Hs & Hw)]; [by exists ""|]. cbn [skip_ws]. destruct (json_space c) eqn:E; [|by exists ""].
  exists (String c w). rewrite append_cons. split; [by f_equal|]. intros x. rewrite append_cons. cbn [skip_ws]. by rewrite E.
Qed.

Lemma skip_ws_stop s c r : skip_ws s = String c r -> json_space c = false.
Proof. induction s as [|d s IH]; [done|]. cbn [skip_ws]. destruct (json_space d) eqn:E; [done|]. intros [= <- _]. exact E. Qed.

(** White space, then a known character. *)
Lemma skip_ws_to s c r : skip_ws s = String c r ->
  exists w, s = w +:+ String c r /\ forall r', skip_ws (w +:+ String c r') = String c r'.
Proof.
  intros H. destruct (skip_ws_cut s) as (w & Hs & Hw). rewrite H in Hs. exists w. split; [done|].
  intros r'. rewrite Hw. cbn [skip_ws]. by rewrite (skip_ws_stop _ _ _ H).
Qed.

Lemma scan_string_cuts n : forall s, (String.length s <= n)%nat -> cuts anything scan_string s.
Proof.
  induction n as [|n IH]; intros s Hn r H; [destruct s; simpl in Hn; [done|lia]|]. destruct s as [|c s]; [done|]. cbn [scan_string] in H. simpl in Hn.
  destruct (is_byte 34 c) eqn:E1.
  { injection H as ->. exists (String c ""). split; [done|]. intros r' _. rewrite append_cons, append_nil. cbn [scan_string]. by rewrite E1. }
  destruct (is_byte 92 c) eqn:E2.
  - destruct s as [|e s]; [done|]. destruct (is_byte 117 e) eqn:E3.
    + destruct s as [|h1 [|h2 [|h3 [|h4 s]]]]; try done. destruct (_ && is_hex h4) eqn:E4; [|done].
      apply IH in H as (t & -> & Ht); [|simpl in Hn; lia]. exists (String c (String e (String h1 (String h2 (String h3 (String h4 t)))))).
      split; [done|]. intros r' Hr. rewrite !append_cons. cbn [scan_string]. rewrite E1, E2, E3, E4. by apply Ht.
    + destruct (simple_escape e) eqn:E4; [|done]. apply IH in H as (t & -> & Ht); [|simpl in Hn; lia]. exists (String c (String e t)).
      split; [done|]. intros r' Hr. rewrite !append_cons. cbn [scan_string]. rewrite E1, E2, E3, E4. by apply Ht.
  - destruct (byte_of c <? 32) eqn:E3; [done|]. apply IH in H as (t & -> & Ht); [|lia]. exists (String c t).
    split; [done|]. intros r' Hr. rewrite !append_cons. cbn [scan_string]. rewrite E1, E2, E3. by apply Ht.
Qed.

Lemma scan_string_cut s : cuts anything scan_string s.
Proof. by eapply scan_string_cuts. Qed.

Lemma scan_literal_cut lit s : cuts anything (fun s => scan_literal s lit) s.
Proof.
  intros r H. unfold scan_literal in H. destruct (HasPrefix s lit) eqn:E; [|done]. injection H as <-.
  exists lit. split; [symmetry; by apply prefix_drop|]. intros r' _. unfold scan_literal, HasPrefix. by rewrite prefix_app, str_drop_app.
Qed.

Lemma scan_number_cut s : cuts ending scan_number s.
Proof.
  intros r H. pose proof (scan_number_takes s) as Hn. unfold takes in Hn. rewrite H in Hn. destruct Hn as (t & Hs & _ & Ht).
  exists t. split; [done|]. intros r' Hr. by apply Ht, ends_number.
Qed.

(** The statement for the three scanning functions. *)
Definition cut_at (fuel : nat) : Prop :=
  (forall d s, cuts ending (scan_value fuel d) s) /\
  (forall d s, cuts anything (scan_members fuel d) s) /\
  (forall d s, cuts anything (scan_elements fuel d) s).

(** After a value: white space, then a comma or the closing bracket. *)
Lemma cut_separator s c r : skip_ws s = String c r -> is_byte 44 c || is_byte 93 c || is_byte 125 c = true ->
  exists w, s = w +:+ String c r /\ forall r', skip_ws (w +:+ String c r') = String c r' /\ ends (w +:+ String c r') = true.
Proof.
  intros H Hc. destruct (skip_ws_to s c r H) as (w & Hs & Hw). exists w. split; [done|]. intros r'. split; [done|].
  destruct w as [|x w]; [rewrite append_nil; cbn [ends]; by rewrite Hc|]. rewrite append_cons. cbn [ends].
  specialize (Hw r'). rewrite append_cons in Hw. cbn [skip_ws] in Hw. destruct (json_space x) eqn:E; [by rewrite !orb_true_r|].
  injection Hw as -> _. by rewrite Hc.
Qed.

Lemma elements_cut fuel : cut_at fuel -> forall d s, cuts anything (scan_elements (S fuel) d) s.
Proof.
  intros (IHv & _ & IHe) d s r H. cbn [scan_elements] in H. destruct (scan_value fuel d s) as [r3|] eqn:Ev; [|done].
  apply IHv in Ev as (t & -> & Ht). destruct (skip_ws r3) as [|e r4] eqn:E3; [done|].
  destruct (is_byte 44 e) eqn:Ec; [|destruct (is_byte 93 e) eqn:Eb; [|done]];
    (destruct (cut_separator r3 e r4 E3) as (w & -> & Hw); [by rewrite ?Ec, ?Eb, ?orb_true_r|]).
  - apply IHe in H as (t4 & -> & Ht4). exists (t +:+ (w +:+ String e t4)). split; [by rewrite !str_app_assoc, append_cons|].
    intros r' Hr. destruct (Hw (t4 +:+ r')) as [Hw1 Hw2]. rewrite !str_app_assoc, append_cons. cbn [scan_elements].
    rewrite Ht by done. rewrite Hw1, Ec. by apply Ht4.
  - injection H as ->. exists (t +:+ (w +:+ String e "")). split; [by rewrite !str_app_assoc|].
    intros r' Hr. destruct (Hw r') as [Hw1 Hw2]. rewrite !str_app_assoc, append_cons, append_nil. cbn [scan_elements].
    rewrite Ht by done. by rewrite Hw1, Ec, Eb.
Qed.

Lemma members_cut fuel : cut_at fuel -> forall d s, cuts anything (scan_members (S fuel) d) s.
Proof.
  intros (IHv & IHm & _) d s r H. cbn [scan_members] in H.
  destruct (skip_ws s) as [|c s1] eqn:E0; [done|]. destruct (skip_ws_to _ _ _ E0) as (w0 & -> & Hw0).
  destruct (is_byte 34 c) eqn:E34; [|done]. destruct (scan_string s1) as [r1|] eqn:Ek; [|done].
  apply scan_string_cut in Ek as (k & -> & Hk). destruct (skip_ws r1) as [|x r2] eqn:E1; [done|].
  destruct (skip_ws_to _ _ _ E1) as (w1 & -> & Hw1). destruct (is_byte 58 x) eqn:E58; [|done].
  destruct (scan_value fuel d r2) as [r3|] eqn:Ev; [|done]. apply IHv in Ev as (t & -> & Ht).
  destruct (skip_ws r3) as [|e r4] eqn:E3; [done|].
  assert (Hstep : forall y, ends y = true -> scan_members (S fuel) d (w0 +:+ String c (k +:+ (w1 +:+ String x (t +:+ y)))) =
    match skip_ws y with
    | String e r4 => if is_byte 44 e then scan_members fuel d r4 else if is_byte 125 e then Some r4 else None
    | EmptyString => None
    end).
  { intros y Hy. cbn [scan_members]. rewrite Hw0, E34, Hk, Hw1, E58, Ht by done. done. }
  destruct (is_byte 44 e) eqn:Ec; [|destruct (is_byte 125 e) eqn:Eb; [|done]];
    (destruct (cut_separator r3 e r4 E3) as (w & -> & Hw); [by rewrite ?Ec, ?Eb, ?orb_true_r|]).
  - apply IHm in H as (t4 & -> & Ht4). exists (w0 +:+ String c (k +:+ (w1 +:+ String x (t +:+ (w +:+ String e t4))))).
    split; [by repeat (rewrite ?str_app_assoc, ?append_cons)|]. intros r' Hr. destruct (Hw (t4 +:+ r')) as [Hq1 Hq2].
    repeat (rewrite ?str_app_assoc, ?append_cons). rewrite Hstep, Hq1, Ec by done. by apply Ht4.
  - injection H as ->. exists (w0 +:+ String c (k +:+ (w1 +:+ String x (t +:+ (w +:+ String e ""))))).
    split; [by repeat (rewrite ?str_app_assoc, ?append_cons, ?append_nil)|]. intros r' Hr. destruct (Hw r') as [Hq1 Hq2].
    repeat (rewrite ?str_app_assoc, ?append_cons, ?append_nil). by rewrite Hstep, Hq1, Ec, Eb.
Qed.

(** The first character stays. *)
Lemma cuts_first ok f c s r : cuts ok f (String c s) -> f "" = None -> ok "" -> f (String c s) = Some r ->
  exists t, s = t +:+ r /\ forall r', ok r' -> f (String c (t +:+ r')) = Some r'.
Proof.
  intros Hc Hn Ho H. apply Hc in H as ([|x t] & Hs & Ht).
  - specialize (Ht "" Ho). by rewrite append_nil, Hn in Ht.
  - rewrite append_cons in Hs. injection Hs as -> ->. by exists t.
Qed.

(** What follows an opening bracket. *)
Definition inside (close : Z) (f : string -> option string) (r : string) : option string :=
  match skip_ws r with String e r1 => if is_byte close e then Some r1 else f (skip_ws r) | EmptyString => None end.

Lemma inside_cut close f : (forall s, cuts anything f s) -> f "" = None -> forall s, cuts anything (inside close f) s.
Proof.
  intros Hc Hn s r H. unfold inside in H. destruct (skip_ws s) as [|e s1] eqn:E; [done|].
  destruct (skip_ws_to _ _ _ E) as (w & -> & Hw). destruct (is_byte close e) eqn:Ee.
  - injection H as ->. exists (w +:+ String e ""). rewrite str_app_assoc. split; [done|]. intros r' _.
    unfold inside. rewrite str_app_assoc, append_cons, append_nil. by rewrite Hw, Ee.
  - apply (cuts_first anything) in H as (t & -> & Ht); [|done..]. exists (w +:+ String e t). rewrite str_app_assoc. split; [done|].
    intros r' Hr. unfold inside. rewrite str_app_assoc, append_cons, Hw, Ee. by apply Ht.
Qed.

Definition value_after (fuel : nat) (d : Z) (c : ascii) (r : string) : option string :=
  if is_byte 34 c then scan_string r
  else if is_byte 123 c then if maxNestingDepth <=? d then None else inside 125 (scan_members fuel (d + 1)) r
  else if is_byte 91 c then if maxNestingDepth <=? d then None else inside 93 (scan_elements fuel (d + 1)) r
  else if is_byte 116 c then scan_literal (String c r) "true"
  else if is_byte 102 c then scan_literal (String c r) "false"
  else if is_byte 110 c then scan_literal (String c r) "null"
  else scan_number (String c r).

Lemma scan_value_after fuel d s :
  scan_value (S fuel) d s = match skip_ws s with String c r => value_after fuel d c r | EmptyString => None end.
Proof. reflexivity. Qed.

Lemma value_after_cut fuel d c s : cut_at fuel -> cuts ending (value_after fuel d c) s.
Proof.
  intros (_ & IHm & IHe).
  assert (Hw : forall f, (forall s, cuts anything f s) -> cuts ending f s).
  { intros f Hf r H. apply Hf in H as (t & Hs & Ht). exists t. split; [done|]. intros r' _. by apply Ht. }
  assert (Hl : forall lit, lit <> "" -> cuts ending (fun r => scan_literal (String c r) lit) s).
  { intros lit Hne r H. apply (cuts_first anything (fun r => scan_literal r lit)) in H as (t & -> & Ht);
      [|apply scan_literal_cut|by destruct lit|done]. exists t. split; [done|]. intros r' _. by apply Ht. }
  unfold value_after. destruct (is_byte 34 c); [apply Hw, scan_string_cut|].
  destruct (is_byte 123 c); [destruct (maxNestingDepth <=? d); [done|]; apply Hw, inside_cut; [done|by destruct fuel]|].
  destruct (is_byte 91 c); [destruct (maxNestingDepth <=? d); [done|]; apply Hw, inside_cut; [done|by destruct fuel as [|[|fuel]]]|].
  destruct (is_byte 116 c); [by apply Hl|]. destruct (is_byte 102 c); [by apply Hl|]. destruct (is_byte 110 c); [by apply Hl|].
  intros r H. apply (cuts_first ending scan_number) in H as (t & -> & Ht); [|apply scan_number_cut|done|done].
  by exists t.
Qed.

Lemma value_cut fuel : cut_at fuel -> forall d s, cuts ending (scan_value (S fuel) d) s.
Proof.
  intros IH d s r H. rewrite scan_value_after in H. destruct (skip_ws s) as [|c s1] eqn:E; [done|].
  destruct (skip_ws_to _ _ _ E) as (w & -> & Hw). apply value_after_cut in H as (t & -> & Ht); [|done].
  exists (w +:+ String c t). rewrite str_app_assoc. split; [done|]. intros r' Hr. rewrite scan_value_after, str_app_assoc, append_cons, Hw.
  by apply Ht.
Qed.

Lemma scan_cuts fuel : cut_at fuel.
Proof.
  induction fuel as [|fuel IH]; [by split_and!|]. split; [by apply value_cut|]. split; [by apply members_cut|by apply elements_cut].
Qed.

(** ** The text of a value

    [value_text d v]: [v] is the text of one value below [d] open brackets,
    without white space around it at its start. *)

Record value_text (d : Z) (v : string) : Prop := {
  value_depth : 0 <= d <= maxNestingDepth;
  value_start : skip_ws v = v;
  value_scan : exists fuel, scan_value fuel d v = Some ""
}.

Lemma value_Valid d v : value_text d v -> Valid v = true.
Proof.
  intros [Hd _ [fuel Hs]]. unfold Valid. by rewrite (scan_any _ _ _ _ Hs) by lia.
Qed.

Lemma value_compact d v : value_text d v -> reads (room d) (compact v).
Proof.
  intros [Hd Hw [fuel Hs]]. apply (proj1 (scan_squeezes fuel)) in Hs as (t & t' & E & Hq & Hr); [|lia].
  rewrite Hw, str_app_nil_r in E. subst t. by rewrite (squeezes_compact _ _ Hq).
Qed.

(** The next value of a scanned text. *)
Lemma next_value fuel d s r : 0 <= d <= maxNestingDepth -> scan_value fuel d s = Some r ->
  scan (skip_ws s) = Some r /\ value_text d (slice (skip_ws s) r).
Proof.
  intros Hd H. rewrite <- scan_value_ws in H. split; [by eapply scan_any; [exact H|lia]|].
  destruct (proj1 (scan_cuts fuel) _ _ _ H) as (t & E & Ht). rewrite E, slice_app. split; [done| |].
  - destruct t as [|c t]; [done|]. cbn [skip_ws]. pose proof (skip_ws_idem s) as Hi. rewrite E, append_cons in Hi. cbn [skip_ws] in Hi.
    destruct (json_space c); [|done]. exfalso.
    assert (Hl : forall x, (String.length (skip_ws x) <= String.length x)%nat) by (intros x; apply skip_ws_length).
    specialize (Hl (t +:+ r)). rewrite Hi in Hl. simpl in Hl. lia.
  - exists fuel. specialize (Ht "" eq_refl). by rewrite str_app_nil_r in Ht.
Qed.

Lemma elements_values m : forall fuel d s r, 0 <= d <= maxNestingDepth -> scan_elements fuel d s = Some r ->
  Forall (value_text d) (elements m s).
Proof.
  induction m as [|m IH]; intros fuel d s r Hd H; [constructor|]. destruct fuel as [|fuel]; [done|].
  cbn [elements scan_elements] in *. destruct (scan_value fuel d s) as [r3|] eqn:Ev; [|done].
  destruct (next_value _ _ _ _ Hd Ev) as [-> Hv]. constructor; [done|].
  destruct (skip_ws r3) as [|e r4]; [done|]. destruct (is_byte 44 e); [by eapply IH|done].
Qed.

Lemma members_values m : forall fuel d s r, 0 <= d <= maxNestingDepth -> scan_members fuel d s = Some r ->
  Forall (fun kv => ValidString (fst kv) = true /\ value_text d (snd kv)) (members m s).
Proof.
  induction m as [|m IH]; intros fuel d s r Hd H; [constructor|]. destruct fuel as [|fuel]; [done|].
  cbn [members scan_members] in *. destruct (skip_ws s) as [|c t]; [constructor|].
  destruct (is_byte 34 c); [|done]. destruct (scan_string t) as [r1|]; [|done]. destruct (skip_ws r1) as [|e r2]; [constructor|].
  destruct (is_byte 58 e); [|done]. destruct (scan_value fuel d r2) as [r3|] eqn:Ev; [|done].
  cbv zeta. destruct (next_value _ _ _ _ Hd Ev) as [-> Hv]. constructor; [split; [apply unquote_valid|exact Hv]|].
  destruct (skip_ws r3) as [|g r4]; [constructor|]. destruct (is_byte 44 g); [by eapply IH|constructor].
Qed.

(** The elements of an array and the members of an object. *)
Lemma value_bracket d c r : value_text d (String c r) -> is_byte 123 c || is_byte 91 c = true ->
  exists fuel, d < maxNestingDepth /\
    (if is_byte 123 c then inside 125 (scan_members fuel (d + 1)) r else inside 93 (scan_elements fuel (d + 1)) r) = Some "".
Proof.
  intros [Hd Hw [[|fuel] Hs]] Hc; [done|]. rewrite scan_value_after, Hw in Hs. exists fuel. unfold value_after in Hs.
  replace (is_byte 34 c) with false in Hs by (unfold is_byte in *; lia).
  destruct (is_byte 123 c); [|destruct (is_byte 91 c); [|done]]; (destruct (Z.leb_spec maxNestingDepth d); [done|]; by split).
Qed.

Lemma array_elements_values d c r : value_text d (String c r) -> is_byte 91 c = true -> Forall (value_text (d + 1)) (array_elements r).
Proof.
  intros Hv Hc. destruct (value_bracket d c r Hv) as (fuel & Hd & H); [by rewrite Hc, orb_true_r|].
  replace (is_byte 123 c) with false in H by (unfold is_byte in *; lia). unfold inside in H. unfold array_elements.
  destruct (skip_ws r) as [|e r1] eqn:E; [done|]. cbn [first_is]. destruct (is_byte 93 e); [constructor|].
  rewrite <- E in H. destruct fuel as [|fuel]; [done|]. cbn [scan_elements] in H. rewrite scan_value_ws in H.
  change (scan_elements (S fuel) (d + 1) r = Some "") in H. eapply elements_values; [|exact H]. destruct Hv. lia.
Qed.

Lemma object_members_values d c r : value_text d (String c r) -> is_byte 123 c = true ->
  Forall (fun kv => ValidString (fst kv) = true /\ value_text (d + 1) (snd kv)) (object_members r).
Proof.
  intros Hv Hc. destruct (value_bracket d c r Hv) as (fuel & Hd & H); [by rewrite Hc|].
  rewrite Hc in H. unfold inside in H. unfold object_members.
  destruct (skip_ws r) as [|e r1] eqn:E; [done|]. cbn [first_is]. destruct (is_byte 125 e); [constructor|].
  rewrite <- E in H. rewrite <- members_ws. eapply members_values; [|exact H]. destruct Hv. lia.
Qed.

(** ** What a decoder was given *)

Lemma unmarshal_text {A} (dec : decoder A) zero s x : unmarshal dec zero s = Some x ->
  Valid s = true /\ exists v, dec v zero = Some x /\ forall fuel d, 0 <= d <= maxNestingDepth -> is_Some (scan_value fuel d s) -> value_text d v.
Proof.
  unfold unmarshal. destruct (Valid s) eqn:Hv; [|done]. cbn [negb]. cbv zeta. unfold Valid in Hv.
  assert (Es : scan s = scan (skip_ws s)).
  { destruct (scan s) as [r|] eqn:E; [unfold scan in E; rewrite <- scan_value_ws in E; symmetry; eapply scan_any; [exact E|lia]|done]. }
  rewrite <- Es. destruct (scan s) as [r|] eqn:E; [|done]. intros H. split; [done|]. exists (slice (skip_ws s) r). split; [done|].
  unfold scan in E.
  intros fuel d Hd [r' Hr]. pose proof (scan_any _ _ _ _ Hr ltac:(lia)) as Hr'. unfold scan in Hr'. rewrite E in Hr'. injection Hr' as <-.
  by apply (next_value fuel).
Qed.

Lemma decode_slice_each {A} (zero : A) (dec : decoder A) (P : A -> Prop) d v old l :
  value_text d v -> decode_slice zero dec v old = Some l ->
  (forall e x, value_text (d + 1) e -> dec e zero = Some x -> P x) -> Forall P l.
Proof.
  intros Hv H HP. destruct v as [|c r]; [done|]. cbn [decode_slice] in H. destruct (is_byte 91 c) eqn:Ec.
  - pose proof (array_elements_values _ _ _ Hv Ec) as Hall. apply mapM_Some in H.
    induction H as [|e x es xs He _ IH]; [constructor|]. inversion Hall; subst. constructor; [by eapply HP|by apply IH].
  - destruct (is_byte 110 c); [|done]. injection H as <-. constructor.
Qed.

(** Text taken from below [d] open brackets of a valid text nests no deeper
    than what is left. *)
Definition fits (d : Z) (raw : string) : Prop := Valid raw = true -> is_Some (scan_value (scan_fuel raw) d raw).

Lemma fits_surface raw : fits 0 raw.
Proof. unfold fits, Valid, scan. destruct (scan_value _ 0 raw); [by eexists|done]. Qed.

(** The members of a map of raw messages. *)
Lemma unmarshal_object_values d s m k v : unmarshal_object s = Some m -> fits d s -> 0 <= d <= maxNestingDepth -> m !! k = Some v ->
  ValidString k = true /\ value_text (d + 1) v.
Proof.
  unfold unmarshal_object. intros H Hf Hd. destruct (Valid s) eqn:Hv; [|done]. cbn [negb] in H. destruct (Hf Hv) as [rest Hs].
  unfold scan_fuel in Hs. rewrite scan_value_after in Hs. destruct (skip_ws s) as [|c r] eqn:Es; [done|]. unfold value_after in Hs.
  destruct (is_byte 123 c) eqn:Ec; [|destruct (is_byte 110 c); [|done]; injection H as <-; by rewrite lookup_empty].
  replace (is_byte 34 c) with false in Hs by (unfold is_byte in *; lia). destruct (Z.leb_spec maxNestingDepth d); [done|].
  unfold inside in Hs. destruct (skip_ws r) as [|e r1] eqn:Er; [done|].
  destruct (is_byte 125 e); injection H as <-; [by rewrite lookup_empty|]. intros Hk.
  apply fold_insert_lookup in Hk as [Hk|Hk]; [by rewrite lookup_empty in Hk|]. rewrite <- Er in Hs.
  assert (Hall : Forall (fun kv => ValidString (fst kv) = true /\ value_text (d + 1) (snd kv)) (members (String.length s) r)).
  { rewrite <- members_ws. eapply members_values; [|exact Hs]. lia. }
  rewrite Forall_forall in Hall. apply (Hall (k, v)). by apply list_elem_of_In.
Qed.

(** Every field keeps [P], so the struct has it. *)
Definition keeps {A} (d : Z) (P : A -> Prop) (f : string * decoder A) : Prop :=
  forall v x x', value_text d v -> P x -> snd f v x = Some x' -> P x'.

Lemma find_field_in {A} test (fs : fields A) dec : find_field test fs = Some dec -> exists name, In (name, dec) fs.
Proof.
  induction fs as [|[name d] fs IH]; [done|]. cbn [find_field]. destruct (test name); [intros [= ->]; exists name; by left|].
  intros H. destruct (IH H) as [n Hn]. exists n. by right.
Qed.

Lemma set_members_keeps {A} d (P : A -> Prop) (fs : fields A) kvs : Forall (keeps d P) fs ->
  Forall (fun kv => ValidString (fst kv) = true /\ value_text d (snd kv)) kvs ->
  forall x x', P x -> set_members fs kvs x = Some x' -> P x'.
Proof.
  intros Hfs Hkvs. induction Hkvs as [|[k v] kvs [_ Hv] _ IH]; intros x x' Hx H; [by injection H as <-|].
  cbn [set_members] in H. destruct (field_for fs k) as [dec|] eqn:Ef; [|by eapply IH].
  destruct (dec v x) as [y|] eqn:Ey; [|done]. eapply IH; [|exact H].
  assert (Hin : exists name, In (name, dec) fs).
  { unfold field_for in Ef. destruct (find_field (String.eqb k) fs) eqn:E1; [injection Ef as ->|]; by eapply find_field_in. }
  destruct Hin as [name Hin]. rewrite Forall_forall in Hfs. apply (Hfs (name, dec)) with (v := v) (x := x); [by apply list_elem_of_In|done..].
Qed.

Lemma decode_struct_keeps {A} d (P : A -> Prop) (fs : fields A) v old x : value_text d v -> decode_struct fs v old = Some x ->
  Forall (keeps (d + 1) P) fs -> P old -> P x.
Proof.
  intros Hv H Hfs Ho. destruct v as [|c r]; [done|]. cbn [decode_struct] in H. destruct (is_byte 123 c) eqn:Ec.
  - eapply set_members_keeps; [exact Hfs|by eapply object_members_values|exact Ho|exact H].
  - destruct (is_byte 110 c); [by injection H as <-|done].
Qed.

(** A field that [P] does not mention, and a raw message. *)
Lemma keeps_other {A B} d (P : A -> Prop) name get set (dec : decoder B) :
  (forall b x, P x -> P (set b x)) -> keeps d P (name, field get set dec).
Proof. intros HP v x x' _ Hx H. cbn [snd] in H. unfold field in H. destruct (dec v (get x)); [|done]. injection H as <-. by apply HP. Qed.

Lemma keeps_raw {A} d (P : A -> Prop) name (get : A -> string) set :
  (forall v x, value_text d v -> P x -> P (set v x)) -> keeps d P (name, field get set decode_raw).
Proof. intros HP v x x' Hv Hx H. injection H as <-. by apply HP. Qed.

End JsonMembers.
