(* ===== verification/JsonAny.v ===== *)
(** * JsonAny: decoding into values of type any

    [encoding/json] decodes a value of unknown type into maps, slices, strings
    and [float64] numbers.  The modelled code reads only strings out of such
    values; what else matters is whether decoding fails, and on a valid text it
    fails only on a number beyond the range of [float64]. *)

From S2P Require Import Prelude GoStrings Json JsonCodec.

Module JsonAny.
Import Json JsonCodec.

(** ** Numbers in the range of float64 *)

(** The number tokens of a valid text. *)
Fixpoint numbers (fuel : nat) (s : string) : list string :=
  match fuel, s with
  | S fuel, String c r =>
      if is_byte 34 c then match scan_string r with Some r1 => numbers fuel r1 | None => [] end
      else if is_byte 45 c || byte_in 48 57 c then
        match scan_number s with Some r1 => slice s r1 :: numbers fuel r1 | None => [] end
      else numbers fuel r
  | _, _ => []
  end.

Definition digits (s : string) : string := slice s (skip_digits s).
Definition digits_value (s : string) : Z := fold_left (fun a c => a * 10 + (byte_of c - 48)) (to_bytes s) 0.

(** [strconv] stops reading an exponent at 10000. *)
Definition exponent_value (s : string) : Z :=
  fold_left (fun e c => if e <? 10000 then e * 10 + (byte_of c - 48) else e) (to_bytes s) 0.

(** A number as [mantissa * 10 ^ exponent], without its sign. *)
Definition decimal (token : string) : Z * Z :=
  let s := match token with String c r => if is_byte 45 c then r else token | EmptyString => token end in
  let whole := digits s in
  let s := skip_digits s in
  let '(fraction, s) := match s with
                        | String c r => if is_byte 46 c then (digits r, skip_digits r) else ("", s)
                        | EmptyString => ("", s)
                        end in
  let e := match s with
           | String _ (String g r) => if is_byte 45 g then - exponent_value r else if is_byte 43 g then exponent_value r else exponent_value (String g r)
           | _ => 0
           end in
  (digits_value (whole +:+ fraction), e - Z.of_nat (String.length fraction)).

(** [strconv.ParseFloat] reports a range error when the nearest [float64] is
    infinite: from half a unit above the largest one on.  The decimal exponents
    that settle the matter by themselves are those of its slow path. *)
Definition max_float_bound : Z := 2 ^ 1024 - 2 ^ 970.

Definition in_range (token : string) : bool :=
  let '(m, e) := decimal token in
  let dp := Z.of_nat (String.length (Itoa m)) + e in
  if m =? 0 then true
  else if 310 <? dp then false
  else if dp <? -330 then true
  else if 0 <=? e then m * 10 ^ e <? max_float_bound else m <? max_float_bound * 10 ^ (- e).

Example in_range_ex1 : map in_range ["-0"; "1.7976931348623158e308"; "1.7976931348623159e308"; "1e309"; "-1E400"; "0e999"; "12.5e-400"; "100e+306"; "1000e+306"]
  = [true; true; false; false; false; true; true; true; false].
Proof. vm_compute. reflexivity. Qed.

(** ** Maps *)

(** [var parts []map[string]any; json.Unmarshal(raw, &parts)]: a map keeps the
    text of its values. *)
Definition unmarshal_maps (raw : string) : option (list (gmap string string)) :=
  if negb (Valid raw) then None
  else if forallb in_range (numbers (String.length raw) raw) then unmarshal (decode_slice ∅ (fun v _ => unmarshal_object v)) [] raw
  else None.

(** [s, _ := m[key].(string)]. *)
Definition any_string (m : gmap string string) (key : string) : string :=
  match m !! key with
  | Some (String c r) => if is_byte 34 c then unquote r else ""
  | _ => ""
  end.

Example maps_ex1 : map (fun m => (any_string m "type", any_string m "text")) <$> unmarshal_maps (sq "[{'type':'text','n':1e308,'text':'a\nb'},null,{'type':4}]")
  = Some [("text", "a" +:+ String (chr 10) "b"); ("", ""); ("", "")].
Proof. vm_compute. reflexivity. Qed.

Example maps_ex2 : map (fun s => match unmarshal_maps (sq s) with Some _ => true | None => false end) ["[{'n':1e309}]"; "[1]"; "{}"; "[{'s':'1e309'}]"]
  = [false; false; false; true].
Proof. vm_compute. reflexivity. Qed.

End JsonAny.
