(* ===== verification/OpenAIModels.v ===== *)
(** * OpenAIModels: model names of the OpenAI family

    The spelling rules of [src/backend/internal/pkg/openai/constants.go] that
    the request converters consult, and the generation rule of
    [apicompat/anthropic_to_responses.go] that decides whether a model accepts
    sampling parameters. *)

From S2P Require Import Prelude GoStrings.

Module OpenAIModels.

(** [for strings.Contains(s, "--")]: every round removes a byte. *)
Fixpoint squeeze (rounds : nat) (s : string) : string :=
  match rounds with
  | O => s
  | S rounds => if Contains s "--" then squeeze rounds (ReplaceAll s "--" "-") else s
  end.

Definition replacements : list (string * string) :=
  [("gpt-5.4mini", "gpt-5.4-mini"); ("gpt-5.4nano", "gpt-5.4-nano"); ("gpt-5.3-codexspark", "gpt-5.3-codex-spark");
   ("gpt-5.3codexspark", "gpt-5.3-codex-spark"); ("gpt-5.3codex", "gpt-5.3-codex")].

Definition CanonicalizeOpenAIModelAliasSpelling (model : string) : string :=
  let model := TrimSpace model in
  let model := match LastIndexByte model "/" with
               | Some slash => TrimSpace (str_drop (S slash) model)
               | None => model
               end in
  let model := ToLower model in
  if model =s "" then ""
  else
    let normalized := ReplaceAll model "_" "-" in
    let normalized := String.concat "-" (Fields normalized) in
    let normalized := squeeze (String.length normalized) normalized in
    let normalized := if HasPrefix normalized "gpt5" then "gpt-5" +:+ TrimPrefix normalized "gpt5" else normalized in
    if negb (HasPrefix normalized "gpt-") && negb (Contains normalized "codex") then ""
    else fold_left (fun s r => ReplaceAll s (fst r) (snd r)) replacements normalized.

Definition IsGPT6SolOrLunaModelSpelling (model : string) : bool :=
  let canonical := CanonicalizeOpenAIModelAliasSpelling model in
  existsb (fun base =>
    (canonical =s base) ||
    (let '(suffix, ok) := CutPrefix canonical (base +:+ "-") in
     ok && existsb (String.eqb suffix) ["none"; "low"; "medium"; "high"; "xhigh"; "max"; "openai-compact"]))
    ["gpt-6-sol"; "gpt-6-luna"].

Definition IsGPT61SolModelSpelling (model : string) : bool :=
  let canonical := CanonicalizeOpenAIModelAliasSpelling model in
  if canonical =s "gpt-6.1-sol" then true
  else
    let '(suffix, ok) := CutPrefix canonical "gpt-6.1-sol-" in
    if negb ok then false
    else existsb (String.eqb suffix) ["none"; "minimal"; "low"; "medium"; "high"; "xhigh"; "max"; "openai-compact"].

(** [None] is no error; the error names the rejected effort. *)
Definition ValidateGPT61SolReasoningEffort (model effort : string) : option string :=
  if IsGPT61SolModelSpelling model then
    let e := ToLower (TrimSpace effort) in
    if (e =s "none") || (e =s "minimal") then Some effort else None
  else None.

(** The digits after ["gpt-"]: [major] is a Go [int]. *)
Fixpoint generation_digits (major digits : Z) (rest : string) : Z * Z :=
  match rest with
  | String r rest =>
      if is_digit r then generation_digits (wrap64 (wrap64 (major * 10) + (byte_of r - 48))) (digits + 1) rest
      else (major, digits)
  | EmptyString => (major, digits)
  end.

Definition openAIModelGeneration (model : string) : Z * bool :=
  let '(rest, ok) := CutPrefix (ToLower (TrimSpace model)) "gpt-" in
  if negb ok then (0, false)
  else
    let '(major, digits) := generation_digits 0 0 rest in
    if digits =? 0 then (0, false) else (major, true).

Definition isReasoningModel (model : string) : bool :=
  let '(major, ok) := openAIModelGeneration model in
  (ok && (5 <=? major)) || IsGPT6SolOrLunaModelSpelling model.

Example canonical_ex1 : map CanonicalizeOpenAIModelAliasSpelling
    [" OpenAI/GPT_6.1 Sol "; "gpt5.3codexspark"; "gpt--5.4mini"; "claude-3"; "x/y/gpt-6--sol-MAX"] =
  ["gpt-6.1-sol"; "gpt-5.3-codex-spark"; "gpt-5.4-mini"; ""; "gpt-6-sol-max"].
Proof. vm_compute. reflexivity. Qed.

Example reasoning_ex1 : map isReasoningModel ["gpt-4o"; "gpt-6-astra"; "openai/gpt-6-sol"; "gpt-image-1"; "gpt-10"] =
  [false; true; true; false; true].
Proof. vm_compute. reflexivity. Qed.

(** ** Lemmas *)

(** The squeeze loop ends with no double dash left: each round shortens the
    name, so as many rounds as it has bytes are enough. *)
Lemma replace_dashes_length s k : (String.length (replace_from k s "--" "-") <= String.length s)%nat.
Proof.
  revert k. induction s as [|c s IH]; intros k; [done|]. cbn [replace_from]. destruct k as [|k].
  - destruct (HasPrefix _ _); [|cbn; specialize (IH O); lia]. rewrite str_app_length. cbn. specialize (IH 1%nat). lia.
  - cbn. specialize (IH k). lia.
Qed.

Lemma squeeze_shortens s : Contains s "--" = true -> (String.length (ReplaceAll s "--" "-") < String.length s)%nat.
Proof.
  unfold ReplaceAll. induction s as [|c s IH]; [done|]. intros Hc. cbn [replace_from].
  destruct (HasPrefix (String c s) "--") eqn:Hp.
  - apply HasPrefix_spec in Hp as [t Ht]. change ("--" +:+ t) with (String "-" (String "-" t)) in Ht.
    injection Ht as -> ->. rewrite str_app_length. cbn [replace_from String.length Nat.sub].
    pose proof (replace_dashes_length t 0). simpl. lia.
  - cbn [Contains] in Hc. rewrite Hp in Hc. cbn [orb] in Hc. cbn. specialize (IH Hc). lia.
Qed.

Lemma squeeze_done rounds s : (String.length s <= rounds)%nat -> Contains (squeeze rounds s) "--" = false.
Proof.
  revert s. induction rounds as [|rounds IH]; intros s Hs; [destruct s; [done | simpl in Hs; lia]|]. cbn [squeeze].
  destruct (Contains s "--") eqn:E; [|done]. apply IH. pose proof (squeeze_shortens s E). lia.
Qed.

(** A generation number in the range of [int] is read as written. *)
Lemma parse_digits_ge s : forall acc v, 0 <= acc -> parse_digits acc s = Some v -> acc <= v.
Proof.
  induction s as [|c s IH]; intros acc v Ha; cbn; [intros [= ->]; lia|].
  destruct (digit_value c) as [d|] eqn:E; [|done]. unfold digit_value in E. case_match; [|done]. injection E as <-.
  unfold byte_in in *. intros Hv. apply IH in Hv; lia.
Qed.

Lemma generation_digits_parse s t : forall acc d v, 0 <= acc -> parse_digits acc s = Some v -> v <= int64_max ->
  generation_digits acc d (s +:+ t) = generation_digits v (d + len s) t.
Proof.
  unfold len. induction s as [|c s IH]; intros acc d v Ha Hp Hv; cbn in Hp.
  { injection Hp as ->. rewrite append_nil. f_equal. simpl. lia. }
  destruct (digit_value c) as [x|] eqn:E; [|done]. unfold digit_value in E. case_match; [|done]. injection E as <-.
  rewrite append_cons. cbn [generation_digits]. unfold is_digit. rewrite H. unfold byte_in in H.
  assert (Hle : 10 * acc + (byte_of c - 48) <= v) by (eapply parse_digits_ge; [|exact Hp]; lia).
  rewrite (wrap64_id (acc * 10)) by (unfold int64_range, int64_min, int64_max in *; lia).
  replace (acc * 10 + (byte_of c - 48)) with (10 * acc + (byte_of c - 48)) by lia.
  rewrite wrap64_id by (unfold int64_range, int64_min, int64_max in *; lia).
  rewrite (IH _ _ v) by (done || lia). f_equal. cbn [String.length]. lia.
Qed.

Lemma openAIModelGeneration_spec n t :
  0 <= n <= int64_max -> match t with String c _ => is_digit c | EmptyString => false end = false ->
  ToLower (TrimSpace ("gpt-" +:+ (Itoa n +:+ t))) = "gpt-" +:+ (Itoa n +:+ t) ->
  openAIModelGeneration ("gpt-" +:+ (Itoa n +:+ t)) = (n, true).
Proof.
  intros Hn Ht Hm. unfold openAIModelGeneration. rewrite Hm. unfold CutPrefix, HasPrefix. rewrite prefix_app, str_drop_app.
  cbn [negb]. rewrite (generation_digits_parse (Itoa n) t 0 0 n); [|lia|apply Itoa_parse; lia|lia].
  assert (Hlen : 0 < len (Itoa n)).
  { unfold len. pose proof (Itoa_nonempty n ltac:(lia)). destruct (Itoa n); [done|]. cbn [String.length]. lia. }
  assert (Hg : generation_digits n (0 + len (Itoa n)) t = (n, len (Itoa n))).
  { destruct t as [|c t]; cbn [generation_digits]; [|rewrite Ht]; f_equal; lia. }
  rewrite Hg. destruct (Z.eqb_spec (len (Itoa n)) 0); [lia | done].
Qed.

(** Efforts that mean no reasoning. *)
Definition disabled_effort (effort : string) : Prop := ToLower (TrimSpace effort) = "none" \/ ToLower (TrimSpace effort) = "minimal".

Lemma ValidateGPT61SolReasoningEffort_spec model effort :
  match ValidateGPT61SolReasoningEffort model effort with
  | Some e => IsGPT61SolModelSpelling model = true /\ e = effort /\ disabled_effort effort
  | None => IsGPT61SolModelSpelling model = true -> ~ disabled_effort effort
  end.
Proof.
  unfold ValidateGPT61SolReasoningEffort, disabled_effort. destruct (IsGPT61SolModelSpelling model); [|done].
  destruct (String.eqb_spec (ToLower (TrimSpace effort)) "none"), (String.eqb_spec (ToLower (TrimSpace effort)) "minimal"); cbn [orb];
    intuition congruence.
Qed.

End OpenAIModels.
