(* ===== verification/ProxyCircuit.v ===== *)
(** * ProxyCircuit: the proxy stream circuit breaker

    Models [openAIProxyStreamCircuit] of
    [src/backend/internal/service/openai_proxy_stream_circuit.go]: the
    per-proxy failure counter, the collapse of simultaneous disconnects, the
    quarantine, and the bounded table with its eviction.  The mutex makes every
    method atomic, so the state is passed explicitly from call to call.  Go
    iterates a map in an unspecified order; the order in which the eviction
    scan meets the entries is the section variable [iter], of which only
    "visits each entry once" is assumed.  The methods' [c == nil] guard is not
    modelled: a circuit here always exists, as after
    [getOpenAIProxyStreamCircuit]. *)

From S2P Require Import Prelude.

Module ProxyCircuit.

Definition defaultOpenAIProxyStreamFailureThreshold : Z := 2.
Definition defaultOpenAIProxyStreamFailureWindow : Duration := Minute.
Definition defaultOpenAIProxyStreamQuarantineTTL : Duration := 10 * Minute.
Definition defaultOpenAIProxyStreamCircuitMaxEntries : Z := 4096.
Definition defaultOpenAIProxyStreamFailureCollapse : Duration := 3 * Second.

Record openAIProxyStreamCircuitSettings := Settings {
  disabled : bool;
  failureThreshold : Z;
  failureWindow : Duration;
  quarantineTTL : Duration;
  collapseInterval : Duration;
  maxEntries : Z
}.
#[export] Instance settings_struct : Struct openAIProxyStreamCircuitSettings := fun r =>
  Settings (disabled r) (failureThreshold r) (failureWindow r) (quarantineTTL r)
           (collapseInterval r) (maxEntries r).

Record openAIProxyStreamCircuitEntry := Entry {
  failureCount : Z;
  windowStart : Time;
  lastFailureAt : Time;
  blockedUntil : Time;
  lastTouched : Time
}.
#[export] Instance entry_struct : Struct openAIProxyStreamCircuitEntry := fun r =>
  Entry (failureCount r) (windowStart r) (lastFailureAt r) (blockedUntil r) (lastTouched r).

(** The zero value Go's map lookup returns for an absent key. *)
Definition entry_zero : openAIProxyStreamCircuitEntry := Entry 0 time_zero time_zero time_zero time_zero.

Record openAIProxyStreamCircuit := Circuit {
  settings : openAIProxyStreamCircuitSettings;
  entries : gmap Z openAIProxyStreamCircuitEntry
}.
#[export] Instance circuit_struct : Struct openAIProxyStreamCircuit := fun r =>
  Circuit (settings r) (entries r).

(** The configuration section read by [resolveOpenAIProxyStreamCircuitSettings]. *)
Record circuitConfig := CircuitConfig {
  cfg_Disabled : bool;
  cfg_FailureThreshold : Z;
  cfg_WindowSeconds : Z;
  cfg_TTLSeconds : Z
}.

Definition resolveOpenAIProxyStreamCircuitSettings (s : option circuitConfig) : openAIProxyStreamCircuitSettings :=
  let st := Settings false defaultOpenAIProxyStreamFailureThreshold
              defaultOpenAIProxyStreamFailureWindow defaultOpenAIProxyStreamQuarantineTTL
              defaultOpenAIProxyStreamFailureCollapse defaultOpenAIProxyStreamCircuitMaxEntries in
  match s with
  | None => st
  | Some cfg =>
      let st := st <| disabled := cfg_Disabled cfg |> in
      let st := if 0 <? cfg_FailureThreshold cfg then st <| failureThreshold := cfg_FailureThreshold cfg |> else st in
      let st := if 0 <? cfg_WindowSeconds cfg then st <| failureWindow := wrap64 (cfg_WindowSeconds cfg * Second) |> else st in
      if 0 <? cfg_TTLSeconds cfg then st <| quarantineTTL := wrap64 (cfg_TTLSeconds cfg * Second) |> else st
  end.

Definition newOpenAIProxyStreamCircuit (st : openAIProxyStreamCircuitSettings) : openAIProxyStreamCircuit :=
  let st := if failureThreshold st <=? 0 then st <| failureThreshold := defaultOpenAIProxyStreamFailureThreshold |> else st in
  let st := if failureWindow st <=? 0 then st <| failureWindow := defaultOpenAIProxyStreamFailureWindow |> else st in
  let st := if quarantineTTL st <=? 0 then st <| quarantineTTL := defaultOpenAIProxyStreamQuarantineTTL |> else st in
  let st := if maxEntries st <=? 0 then st <| maxEntries := defaultOpenAIProxyStreamCircuitMaxEntries |> else st in
  let st := if collapseInterval st <? 0 then st <| collapseInterval := 0 |> else st in
  Circuit st ∅.

Section operations.
(** The order in which [range c.entries] visits the entries. *)
Context (iter : gmap Z openAIProxyStreamCircuitEntry -> list (Z * openAIProxyStreamCircuitEntry)).

(** First loop of [ensureCapacityLocked]: the entries it deletes. *)
Definition reclaimable (st : openAIProxyStreamCircuitSettings) (now : Time) (entry : openAIProxyStreamCircuitEntry) : bool :=
  let staleObservation := IsZero (blockedUntil entry) && (failureWindow st <? time_Sub now (lastTouched entry)) in
  let expiredQuarantine := negb (IsZero (blockedUntil entry)) && negb (Before now (blockedUntil entry)) in
  staleObservation || expiredQuarantine.

(** Second loop: the least recently touched entry. *)
Definition oldestEntry (l : list (Z * openAIProxyStreamCircuitEntry)) : Z * Time :=
  fold_left (fun acc kv =>
    if (fst acc =? 0) || Before (lastTouched (snd kv)) (snd acc) then (fst kv, lastTouched (snd kv)) else acc)
    l (0, time_zero).

Definition ensureCapacityLocked (now : Time) (c : openAIProxyStreamCircuit) : openAIProxyStreamCircuit :=
  if map_len (entries c) <? maxEntries (settings c) then c
  else
    let kept := filter (fun kv => reclaimable (settings c) now (snd kv) = false) (entries c) in
    if map_len kept <? maxEntries (settings c) then c <| entries := kept |>
    else
      let oldestProxyID := fst (oldestEntry (iter kept)) in
      if 0 <? oldestProxyID then c <| entries := delete oldestProxyID kept |>
      else c <| entries := kept |>.

(** [recordFailure]: whether this failure tripped the breaker, the end of the
    quarantine, and the new table. *)
Definition recordFailure (proxyID : Z) (now : Time) (c : openAIProxyStreamCircuit) : (bool * Time) * openAIProxyStreamCircuit :=
  if disabled (settings c) || (proxyID <=? 0) then ((false, time_zero), c)
  else
    let exists_ := bool_decide (is_Some (entries c !! proxyID)) in
    let entry := default entry_zero (entries c !! proxyID) in
    if exists_ && Before now (blockedUntil entry) then
      ((false, blockedUntil entry),
       c <| entries := <[proxyID := entry <| lastTouched := now |>]> (entries c) |>)
    else
      let c := if exists_ then c else ensureCapacityLocked now c in
      let entry :=
        if IsZero (windowStart entry) || Before now (windowStart entry) ||
           (failureWindow (settings c) <? time_Sub now (windowStart entry))
        then entry <| failureCount := 0 |> <| windowStart := now |> <| blockedUntil := time_zero |>
        else entry in
      if (0 <? collapseInterval (settings c)) && negb (IsZero (lastFailureAt entry)) &&
         (0 <=? time_Sub now (lastFailureAt entry)) &&
         (time_Sub now (lastFailureAt entry) <? collapseInterval (settings c))
      then
        ((false, time_zero),
         c <| entries := <[proxyID := entry <| lastTouched := now |>]> (entries c) |>)
      else
        let entry := entry <| failureCount := wrap64 (failureCount entry + 1) |>
                           <| lastFailureAt := now |> <| lastTouched := now |> in
        let tripped := failureThreshold (settings c) <=? failureCount entry in
        let entry := if tripped then entry <| blockedUntil := time_Add now (quarantineTTL (settings c)) |> else entry in
        ((tripped, blockedUntil entry), c <| entries := <[proxyID := entry]> (entries c) |>).

Definition recordSuccess (proxyID : Z) (c : openAIProxyStreamCircuit) : bool * openAIProxyStreamCircuit :=
  if proxyID <=? 0 then (false, c)
  else match entries c !! proxyID with
  | None => (false, c)
  | Some _ => (true, c <| entries := delete proxyID (entries c) |>)
  end.

Definition isBlocked (proxyID : Z) (now : Time) (c : openAIProxyStreamCircuit) : bool * openAIProxyStreamCircuit :=
  if disabled (settings c) || (proxyID <=? 0) then (false, c)
  else match entries c !! proxyID with
  | None => (false, c)
  | Some entry =>
      if IsZero (blockedUntil entry) then (false, c)
      else if negb (Before now (blockedUntil entry)) then (false, c <| entries := delete proxyID (entries c) |>)
      else (true, c)
  end.

Definition activeBlockCount (now : Time) (c : openAIProxyStreamCircuit) : Z :=
  if disabled (settings c) then 0
  else map_len (filter (fun kv => negb (IsZero (blockedUntil (snd kv))) && Before now (blockedUntil (snd kv)) = true) (entries c)).

(** The calls the gateway makes on the shared circuit. *)
Inductive op :=
| OpFailure (proxyID : Z) (now : Time)
| OpSuccess (proxyID : Z)
| OpIsBlocked (proxyID : Z) (now : Time).

Definition step (o : op) (c : openAIProxyStreamCircuit) : openAIProxyStreamCircuit :=
  match o with
  | OpFailure p now => snd (recordFailure p now c)
  | OpSuccess p => snd (recordSuccess p c)
  | OpIsBlocked p now => snd (isBlocked p now c)
  end.
End operations.

(** The caller's view of an account: [openAIProxyStreamCircuitProxyID]. *)
Record account := Account { acc_Platform : string; acc_ProxyID : option Z }.

Definition PlatformOpenAI : string := "openai".

Definition openAIProxyStreamCircuitProxyID (a : option account) : Z * bool :=
  match a with
  | None => (0, false)
  | Some a =>
      if negb (acc_Platform a =s PlatformOpenAI) then (0, false)
      else match acc_ProxyID a with
      | None => (0, false)
      | Some p => if p <=? 0 then (0, false) else (p, true)
      end
  end.

(** ** The table stays bounded *)

(** Settings as [newOpenAIProxyStreamCircuit] leaves them. *)
Definition settings_ok (st : openAIProxyStreamCircuitSettings) : Prop :=
  0 < failureThreshold st /\ 0 < failureWindow st /\ 0 < quarantineTTL st /\
  0 < maxEntries st /\ 0 <= collapseInterval st.

Definition circuit_ok (c : openAIProxyStreamCircuit) : Prop :=
  settings_ok (settings c) /\ map_len (entries c) <= maxEntries (settings c) /\
  (forall p, is_Some (entries c !! p) -> 0 < p).

Lemma new_ok st : circuit_ok (newOpenAIProxyStreamCircuit st).
Proof.
  assert (Hst : settings_ok (settings (newOpenAIProxyStreamCircuit st))).
  { unfold settings_ok, newOpenAIProxyStreamCircuit, defaultOpenAIProxyStreamFailureThreshold,
      defaultOpenAIProxyStreamFailureWindow, defaultOpenAIProxyStreamQuarantineTTL,
      defaultOpenAIProxyStreamCircuitMaxEntries.
    repeat case_match; cbn in *; time_lia. }
  split_and!; [done | |].
  - destruct Hst as (_ & _ & _ & Hmax & _). unfold newOpenAIProxyStreamCircuit at 1.
    cbn [entries]. rewrite map_len_empty. lia.
  - intros p [e He]. cbn in He. by rewrite lookup_empty in He.
Qed.

Section capacity.
Context (iter : gmap Z openAIProxyStreamCircuitEntry -> list (Z * openAIProxyStreamCircuitEntry))
        (iter_perm : forall m, Permutation (iter m) (map_to_list m)).

Lemma oldestEntry_in l :
  (forall kv, In kv l -> 0 < fst kv) -> l <> [] -> In (fst (oldestEntry l)) (map fst l).
Proof.
  intros Hpos Hne. unfold oldestEntry.
  enough (H : forall l acc, (forall kv, In kv l -> 0 < fst kv) ->
      let r := fold_left (fun acc kv => if (fst acc =? 0) || Before (lastTouched (snd kv)) (snd acc)
                 then (fst kv, lastTouched (snd kv)) else acc) l acc in
      (fst acc = 0 /\ l <> [] -> In (fst r) (map fst l)) /\
      (0 < fst acc -> fst r = fst acc \/ In (fst r) (map fst l))).
  { apply (H l (0, time_zero) Hpos). done. }
  clear. induction l as [|[k e] l IH]; intros [a t] Hpos; cbn; [by split; [intros [_ ?] | left]|].
  assert (0 < k) as Hk by (apply (Hpos (k, e)); by left).
  assert (forall kv, In kv l -> 0 < fst kv) as Hpos' by (intros; apply Hpos; by right).
  split; intros Ha; cbn in Ha.
  - destruct Ha as [-> _]. cbn.
    destruct (proj2 (IH (k, lastTouched e) Hpos') Hk) as [Hr | ?]; [by left | by right].
  - destruct ((a =? 0) || Before (lastTouched e) t).
    + destruct (proj2 (IH (k, lastTouched e) Hpos') Hk) as [Hr | ?]; [by rewrite Hr; right; left | by right; right].
    + destruct (proj2 (IH (a, t) Hpos') Ha) as [-> | ?]; [by left | by right; right].
Qed.

(** [ensureCapacityLocked] leaves room for one more entry. *)
Lemma ensureCapacity_room now c :
  circuit_ok c ->
  let c' := ensureCapacityLocked iter now c in
  settings c' = settings c /\ map_len (entries c') < maxEntries (settings c) /\
  (forall p, is_Some (entries c' !! p) -> is_Some (entries c !! p)).
Proof.
  intros (Hs & Hle & Hpos). unfold ensureCapacityLocked.
  destruct (map_len (entries c) <? maxEntries (settings c)) eqn:E1; [cbn; split_and!; try done; lia|].
  set (kept := filter _ (entries c)).
  pose proof (map_len_filter_le (fun kv => reclaimable (settings c) now (snd kv) = false) (entries c)) as Hk.
  fold kept in Hk.
  destruct (map_len kept <? maxEntries (settings c)) eqn:E2; cbn.
  { split_and!; [done | lia | intros p; apply filter_keys]. }
  assert (Hkeys : forall kv, In kv (iter kept) -> 0 < fst kv).
  { intros [k e] Hin. apply Hpos. apply (Permutation_in _ (iter_perm kept)) in Hin.
    apply list_elem_of_In, elem_of_map_to_list in Hin. eapply filter_keys. by exists e. }
  assert (Hne : iter kept <> []).
  { intros Hnil. pose proof (iter_perm kept) as HP. rewrite Hnil in HP.
    apply Permutation_nil, map_to_list_empty_iff in HP. rewrite HP in E2.
    rewrite map_len_empty in E2. destruct Hs as (?&?&?&?&?). lia. }
  pose proof (oldestEntry_in _ Hkeys Hne) as Hin.
  apply in_map_iff in Hin as ([k e] & Hfst & Hin). cbn in Hfst.
  pose proof (Hkeys _ Hin) as Hk0. cbn in Hk0. rewrite <- Hfst.
  replace (0 <? k) with true by (symmetry; lia). cbn.
  apply (Permutation_in _ (iter_perm kept)), list_elem_of_In, elem_of_map_to_list in Hin.
  split_and!; [done | rewrite map_len_delete by eauto; lia |].
  intros p [x Hx]. apply lookup_delete_Some in Hx as [_ Hx]. eapply filter_keys. by exists x.
Qed.

Lemma recordFailure_ok p now c : circuit_ok c -> circuit_ok (snd (recordFailure iter p now c)).
Proof.
  intros Hok. unfold recordFailure.
  destruct (disabled (settings c) || (p <=? 0)) eqn:Ep; [done|].
  assert (0 < p) as Hp by lia.
  destruct (bool_decide_reflect (is_Some (entries c !! p))) as [Hsome|Hnone]; cbn [andb].
  - assert (Hins : forall e, circuit_ok (c <| entries := <[p := e]> (entries c) |>)).
    { destruct Hok as (Hs & Hle & Hpos). intros e. split_and!; cbn; [done | |].
      - by rewrite map_len_insert_present.
      - intros q Hq. destruct (decide (p = q)) as [<-|Hne]; [done|].
        rewrite lookup_insert_ne in Hq by done. by apply Hpos. }
    repeat case_match; cbn [snd]; apply Hins.
  - destruct (ensureCapacity_room now c Hok) as (Hset & Hroom & Hsub).
    assert (Hins : forall e, circuit_ok (ensureCapacityLocked iter now c
               <| entries := <[p := e]> (entries (ensureCapacityLocked iter now c)) |>)).
    { destruct Hok as (Hs & Hle & Hpos). intros e. split_and!; cbn; rewrite ?Hset; [done | |].
      - pose proof (map_len_insert_le p e (entries (ensureCapacityLocked iter now c))). lia.
      - intros q Hq. destruct (decide (p = q)) as [<-|Hne]; [done|].
        rewrite lookup_insert_ne in Hq by done. by apply Hpos, Hsub. }
    repeat case_match; cbn [snd]; apply Hins.
Qed.

Lemma delete_ok p c : circuit_ok c -> circuit_ok (c <| entries := delete p (entries c) |>).
Proof.
  intros (Hs & Hle & Hpos). split_and!; cbn; [done | |].
  - pose proof (map_len_delete_le p (entries c)). lia.
  - intros q [x Hq]. apply lookup_delete_Some in Hq as [_ Hq]. eauto.
Qed.

Lemma step_ok o c : circuit_ok c -> circuit_ok (step iter o c).
Proof.
  intros Hok. destruct o; cbn; [by apply recordFailure_ok | |].
  - unfold recordSuccess. repeat case_match; first [exact Hok | apply delete_ok, Hok].
  - unfold isBlocked. repeat case_match; first [exact Hok | apply delete_ok, Hok].
Qed.

(** Whatever settings the circuit is built with and whatever failures,
    successes and lookups follow, in whatever order the eviction scan visits
    the table, the table never holds more than [maxEntries] proxies and every
    key is a valid (positive) proxy id. *)
Theorem circuit_bounded st ops :
  circuit_ok (run (step iter) ops (newOpenAIProxyStreamCircuit st)).
Proof. apply run_invariant; [intros; by apply step_ok | apply new_ok]. Qed.
End capacity.

(** ** When the breaker trips *)

Section behaviour.
Context (iter : gmap Z openAIProxyStreamCircuitEntry -> list (Z * openAIProxyStreamCircuitEntry)).

(** The failures of one proxy reported at the times [ts]: the verdict of each
    and the final circuit. *)
Fixpoint failures (p : Z) (ts : list Time) (c : openAIProxyStreamCircuit) : list bool * openAIProxyStreamCircuit :=
  match ts with
  | [] => ([], c)
  | t :: ts =>
      let '((tripped, _), c) := recordFailure iter p t c in
      let '(vs, c) := failures p ts c in
      (tripped :: vs, c)
  end.

(** A failure counted while an open window holds [k] failures. *)
Lemma recordFailure_counts p t c e :
  disabled (settings c) = false -> 0 < p ->
  entries c !! p = Some e -> blockedUntil e = time_zero ->
  0 < windowStart e <= lastFailureAt e -> lastFailureAt e <= t ->
  collapseInterval (settings c) <= t - lastFailureAt e ->
  t - windowStart e <= failureWindow (settings c) -> int64_range (failureWindow (settings c)) ->
  0 <= failureCount e < int64_max ->
  let n := failureCount e + 1 in
  let until := if failureThreshold (settings c) <=? n then time_Add t (quarantineTTL (settings c)) else time_zero in
  recordFailure iter p t c =
    ((failureThreshold (settings c) <=? n, until),
     c <| entries := <[p := Entry n (windowStart e) t until t]> (entries c) |>).
Proof.
  intros Hd Hp He Hb Hw Ht Hc Hwin Hr Hn n until. unfold recordFailure.
  rewrite Hd, He. replace (p <=? 0) with false by lia. cbn [orb].
  rewrite bool_decide_eq_true_2 by eauto. cbn [default andb id].
  assert (Hsub : time_Sub t (windowStart e) = t - windowStart e) by time_lia.
  assert (Hsub' : time_Sub t (lastFailureAt e) = t - lastFailureAt e) by time_lia.
  rewrite Hb. replace (Before t time_zero) with false by time_lia.
  rewrite Hsub. replace (IsZero (windowStart e)) with false by time_lia.
  replace (Before t (windowStart e)) with false by time_lia.
  replace (failureWindow (settings c) <? t - windowStart e) with false by lia. cbn [orb].
  rewrite Hsub'. replace (t - lastFailureAt e <? collapseInterval (settings c)) with false by lia.
  rewrite andb_false_r. rewrite wrap64_id by (cbn; time_lia).
  subst until n. cbn. rewrite Hb. by destruct (failureThreshold (settings c) <=? failureCount e + 1).
Qed.

(** The first failure of a proxy the circuit has no entry for. *)
Lemma recordFailure_first p t c :
  disabled (settings c) = false -> 0 < p -> 0 < t ->
  entries c !! p = None ->
  let c' := ensureCapacityLocked iter t c in
  settings c' = settings c ->
  let until := if failureThreshold (settings c) <=? 1 then time_Add t (quarantineTTL (settings c)) else time_zero in
  recordFailure iter p t c =
    ((failureThreshold (settings c) <=? 1, until),
     c' <| entries := <[p := Entry 1 t t until t]> (entries c') |>).
Proof.
  intros Hd Hp Ht He c' Hs until. unfold recordFailure.
  rewrite Hd, He. replace (p <=? 0) with false by lia. cbn [orb].
  rewrite bool_decide_eq_false_2 by (intros [? ?]; done). cbn [andb default].
  fold c'. unfold entry_zero at 1 2. cbn [windowStart IsZero].
  change (IsZero time_zero) with true. cbn [orb]. cbn.
  rewrite andb_false_r. cbn. subst until. cbn in Hs. rewrite Hs.
  change (wrap64 (0 + 1)) with 1. by destruct (failureThreshold (settings c) <=? 1).
Qed.
(** A disconnect within the collapse interval of the last counted one. *)
Lemma recordFailure_collapsed p t t0 c e :
  0 < p -> entries c !! p = Some e -> blockedUntil e = time_zero -> lastFailureAt e = t0 ->
  0 < t0 -> t0 <= t < t0 + collapseInterval (settings c) -> int64_range (collapseInterval (settings c)) ->
  disabled (settings c) = false ->
  exists e', recordFailure iter p t c = ((false, time_zero), c <| entries := <[p := e']> (entries c) |>) /\
    blockedUntil e' = time_zero /\ lastFailureAt e' = t0.
Proof.
  intros Hp He Hb Hl Ht0 Ht Hr Hd. unfold recordFailure. rewrite Hd, He.
  replace (p <=? 0) with false by lia. cbn [orb].
  rewrite bool_decide_eq_true_2 by eauto. cbn [default andb id].
  rewrite Hb. replace (Before t time_zero) with false by time_lia.
  set (e1 := if _ || _ || _ then _ else e).
  assert (H1 : lastFailureAt e1 = t0 /\ blockedUntil e1 = time_zero) by (subst e1; by case_match).
  destruct H1 as [H1 H2]. rewrite H1.
  replace (0 <? collapseInterval (settings c)) with true by lia.
  replace (IsZero t0) with false by time_lia.
  assert (Hsub : time_Sub t t0 = t - t0) by time_lia. rewrite Hsub.
  replace (0 <=? t - t0) with true by lia.
  replace (t - t0 <? collapseInterval (settings c)) with true by lia. cbn [negb andb].
  eexists. split; [reflexivity | done].
Qed.

Fixpoint spaced (d : Z) (t0 : Time) (ts : list Time) : Prop :=
  match ts with [] => True | t :: ts => t0 <= t /\ d <= t - t0 /\ spaced d t ts end.

Lemma counting p ts c e :
  settings_ok (settings c) -> disabled (settings c) = false -> 0 < p ->
  entries c !! p = Some e -> blockedUntil e = time_zero ->
  0 < windowStart e <= lastFailureAt e ->
  spaced (collapseInterval (settings c)) (lastFailureAt e) ts ->
  (forall t, In t ts -> t - windowStart e <= failureWindow (settings c)) ->
  int64_range (failureWindow (settings c)) -> int64_range (failureThreshold (settings c)) ->
  ts <> [] -> 0 < failureCount e ->
  failureCount e + Z.of_nat (length ts) = failureThreshold (settings c) ->
  let tn := List.last ts time_zero in
  fst (failures p ts c) = replicate (length ts - 1) false ++ [true] /\
  settings (snd (failures p ts c)) = settings c /\
  exists e', entries (snd (failures p ts c)) !! p = Some e' /\
    blockedUntil e' = time_Add tn (quarantineTTL (settings c)) /\ lastFailureAt e <= tn.
Proof.
  intros Hok Hd Hp. revert c e Hok Hd. induction ts as [|t ts IH]; [done|].
  intros c e Hok Hd He Hb Hw [Hle [Hgap Hsp]] Hwin Hr Hrt _ Hpos Hcnt. cbn [length] in Hcnt.
  cbn [failures].
  rewrite (recordFailure_counts p t c e); try done;
    [| by apply Hwin; left | revert Hrt; time_unfold; lia].
  destruct ts as [|t' ts].
  - replace (failureThreshold (settings c) <=? failureCount e + 1) with true by (cbn in Hcnt; lia).
    cbn. split_and!; [done | done |]. rewrite lookup_insert_eq. eauto.
  - replace (failureThreshold (settings c) <=? failureCount e + 1) with false by (cbn in Hcnt; lia).
    set (c1 := c <| entries := _ |>).
    destruct (IH c1 (Entry (failureCount e + 1) (windowStart e) t time_zero t)) as (Hv & Hs & e' & He' & Hbe & Hlast);
      try done; cbn [windowStart lastFailureAt failureCount]; try lia.
    { subst c1. cbn. by rewrite lookup_insert_eq. }
    { intros t'' Hin. apply Hwin. by right. }
    { subst c1. cbn in *. lia. }
    destruct (failures p (t' :: ts) c1) as [vs c2] eqn:Ef. cbn [fst snd] in *.
    rewrite Hv. split_and!; [cbn; by rewrite Nat.sub_0_r | by rewrite Hs |].
    exists e'. split_and!; [done | done | cbn in *; lia].
Qed.
End behaviour.

(** C29: For a proxy the circuit has seen nothing of, [failureThreshold]
    disconnects that are at least [collapseInterval] apart and all fall within
    [failureWindow] of the first trip the breaker exactly at the last of them;
    the proxy is then reported blocked until the quarantine TTL has passed since
    that disconnect, and from that moment on it is not, its entry being
    dropped. *)
Theorem breaker_trips_and_recovers iter p t1 ts c :
  (forall m, Permutation (iter m) (map_to_list m)) ->
  circuit_ok c -> disabled (settings c) = false -> 0 < p -> 0 < t1 ->
  entries c !! p = None ->
  spaced (collapseInterval (settings c)) t1 ts ->
  (forall t, In t ts -> t - t1 <= failureWindow (settings c)) ->
  int64_range (failureWindow (settings c)) -> int64_range (failureThreshold (settings c)) ->
  1 + Z.of_nat (length ts) = failureThreshold (settings c) ->
  let c' := snd (failures iter p (t1 :: ts) c) in
  let until := List.last (t1 :: ts) time_zero + quarantineTTL (settings c) in
  fst (failures iter p (t1 :: ts) c) = replicate (length ts) false ++ [true] /\
  (forall now, now < until -> isBlocked p now c' = (true, c')) /\
  (forall now, until <= now -> isBlocked p now c' = (false, c' <| entries := delete p (entries c') |>)).
Proof.
  intros Hperm Hok Hd Hp Ht1 He Hsp Hwin Hr Hrt Hlen.
  destruct (ensureCapacity_room iter Hperm t1 c Hok) as (Hset & _ & _).
  assert (Hgoal : let r := failures iter p (t1 :: ts) c in
    fst r = replicate (length ts) false ++ [true] /\ settings (snd r) = settings c /\
    exists e', entries (snd r) !! p = Some e' /\
      blockedUntil e' = time_Add (List.last (t1 :: ts) time_zero) (quarantineTTL (settings c)) /\
      t1 <= List.last (t1 :: ts) time_zero).
  { cbn [failures]. rewrite (recordFailure_first iter p t1 c Hd Hp Ht1 He Hset).
    destruct ts as [|t' ts].
    - replace (failureThreshold (settings c) <=? 1) with true by (cbn in Hlen; lia).
      cbn. rewrite lookup_insert_eq. split_and!; [done | done |]. eexists. split_and!; [done | done | lia].
    - replace (failureThreshold (settings c) <=? 1) with false by (cbn in Hlen; lia).
      set (c1 := _ <| entries := _ |>).
      assert (Hs1 : settings c1 = settings c) by done.
      destruct Hok as (Hsok & _ & _).
      destruct (counting iter p (t' :: ts) c1 (Entry 1 t1 t1 time_zero t1)) as (Hv & Hs & e' & He' & Hbe & Hlast);
        rewrite ?Hs1; try done; cbn [windowStart lastFailureAt failureCount]; try lia.
      { subst c1. cbn. by rewrite lookup_insert_eq. }
      destruct (failures iter p (t' :: ts) c1) as [vs c2] eqn:Ef. cbn [fst snd] in *.
      rewrite Hs1 in Hbe, Hs. split_and!; [rewrite Hv; cbn; by rewrite Nat.sub_0_r | done |].
      exists e'. split_and!; [done | done | cbn in *; lia]. }
  destruct Hgoal as (Hv & Hs & e' & He' & Hbe & Hlast). split_and!; [done | |].
  all: intros now Hnow; unfold isBlocked; rewrite Hs, Hd, He', Hbe.
  all: replace (p <=? 0) with false by lia; cbn [orb].
  all: destruct Hok as ((_ & _ & Httl & _) & _).
  all: replace (IsZero _) with false by time_lia.
  - by replace (Before now _) with true by time_lia.
  - by replace (Before now _) with false by time_lia.
Qed.

(** One dying connection reports every stream it carried.  However many
    disconnects of a proxy arrive within [collapseInterval] of the first, they
    count as one failure: with a threshold of two or more none of them trips
    the breaker and the proxy is never blocked (issue 5056). *)
Theorem burst_is_one_failure iter p t1 ts c :
  (forall m, Permutation (iter m) (map_to_list m)) ->
  circuit_ok c -> disabled (settings c) = false -> 0 < p -> 0 < t1 ->
  entries c !! p = None ->
  2 <= failureThreshold (settings c) -> int64_range (collapseInterval (settings c)) ->
  (forall t, In t ts -> t1 <= t < t1 + collapseInterval (settings c)) ->
  let '(vs, c') := failures iter p (t1 :: ts) c in
  vs = replicate (length (t1 :: ts)) false /\
  forall now, fst (isBlocked p now c') = false.
Proof.
  intros Hperm Hok Hd Hp Ht1 He Hth Hr Hts.
  destruct (ensureCapacity_room iter Hperm t1 c Hok) as (Hset & _ & _).
  cbn [failures length replicate]. rewrite (recordFailure_first iter p t1 c Hd Hp Ht1 He Hset).
  replace (failureThreshold (settings c) <=? 1) with false by lia.
  set (c1 := _ <| entries := _ |>).
  enough (H : forall ts c e, disabled (settings c) = false -> entries c !! p = Some e ->
     blockedUntil e = time_zero -> lastFailureAt e = t1 -> int64_range (collapseInterval (settings c)) ->
     (forall t, In t ts -> t1 <= t < t1 + collapseInterval (settings c)) ->
     fst (failures iter p ts c) = replicate (length ts) false /\
     forall now, fst (isBlocked p now (snd (failures iter p ts c))) = false).
  { assert (Hs1 : settings c1 = settings c) by done.
    destruct (H ts c1 (Entry 1 t1 t1 time_zero t1)) as [Hv Hb]; rewrite ?Hs1; try done.
    { subst c1. cbn. by rewrite lookup_insert_eq. }
    destruct (failures iter p ts c1) as [vs c2]. cbn [fst snd] in *. by rewrite Hv. }
  clear -Hp Ht1. induction ts as [|t ts IH]; intros c e Hd He Hb Hl Hr Hts.
  - split; [done|]. intros now. cbn. unfold isBlocked. rewrite He, Hb, Hd.
    by replace (p <=? 0) with false by lia.
  - destruct (recordFailure_collapsed iter p t t1 c e) as (e' & Hrec & Hb' & Hl'); try done.
    { apply Hts. by left. }
    cbn [failures]. rewrite Hrec. set (c1 := c <| entries := _ |>).
    destruct (IH c1 e') as [Hv Hnb]; try done.
    { subst c1. cbn. by rewrite lookup_insert_eq. }
    { intros t' Hin. apply Hts. by right. }
    destruct (failures iter p ts c1) as [vs c2]. cbn [fst snd length replicate] in *. by rewrite Hv.
Qed.

(** ** Witnesses *)

Definition demo_circuit : openAIProxyStreamCircuit :=
  newOpenAIProxyStreamCircuit (resolveOpenAIProxyStreamCircuitSettings None).

Lemma circuit_bounded_witness :
  circuit_ok (run (step map_to_list) [OpFailure 7 (5 * Second); OpSuccess 7; OpFailure (-1) 9] demo_circuit).
Proof.
  refine (circuit_bounded map_to_list _ (resolveOpenAIProxyStreamCircuitSettings None)
            [OpFailure 7 (5 * Second); OpSuccess 7; OpFailure (-1) 9]).
  intros m. reflexivity.
Defined.

Lemma demo_ok : circuit_ok demo_circuit.
Proof. apply new_ok. Qed.

(** Side conditions on a concrete circuit are decided by evaluation. *)
Ltac eval_side := vm_compute; repeat split; congruence.

Lemma breaker_trips_and_recovers_witness :
  fst (failures map_to_list 7 [100 * Second; 110 * Second] demo_circuit) = [false; true].
Proof.
  pose proof (breaker_trips_and_recovers map_to_list 7 (100 * Second) [110 * Second] demo_circuit
    (fun m => reflexivity _) demo_ok) as H.
  do 5 (specialize (H ltac:(eval_side))).
  specialize (H ltac:(intros t [<-|[]]; eval_side)).
  do 3 (specialize (H ltac:(eval_side))).
  exact (proj1 H).
Defined.

Lemma burst_is_one_failure_witness :
  let '(vs, c') := failures map_to_list 7 [100 * Second; 101 * Second; 102 * Second] demo_circuit in
  vs = [false; false; false] /\ forall now, fst (isBlocked 7 now c') = false.
Proof.
  pose proof (burst_is_one_failure map_to_list 7 (100 * Second) [101 * Second; 102 * Second] demo_circuit
    (fun m => reflexivity _) demo_ok) as H.
  do 6 (specialize (H ltac:(eval_side))).
  specialize (H ltac:(intros t [<-|[<-|[]]]; eval_side)).
  exact H.
Defined.

End ProxyCircuit.
