(* ===== verification/ApicompatTypes.v ===== *)
(** * ApicompatTypes: the wire types of the protocol converters

    The structs of [src/backend/internal/pkg/apicompat/types.go] that the
    converters read and write.  A pointer that may be nil is an [option], a
    slice a list (no converter distinguishes a nil slice from an empty one), a
    [json.RawMessage] the string of its bytes.  Every field of the source
    struct is present, prefixed with the initials of its struct; [X_zero] is
    Go's zero value of the struct [X], from which composite literals are
    built with field updates. *)

From S2P Require Import Prelude.
From Stdlib Require SpecFloat.

(** ** Anthropic Messages *)

Record AnthropicCacheControl := MkAnthropicCacheControl {
  acc_Type : string;
  acc_TTL : string
}.
#[export] Instance acc_struct : Struct AnthropicCacheControl := fun r => MkAnthropicCacheControl
  (acc_Type r) (acc_TTL r).
Definition AnthropicCacheControl_zero : AnthropicCacheControl := MkAnthropicCacheControl EmptyString
  EmptyString.

Record AnthropicImageSource := MkAnthropicImageSource {
  ais_Type : string;
  ais_MediaType : string;
  ais_Data : string
}.
#[export] Instance ais_struct : Struct AnthropicImageSource := fun r => MkAnthropicImageSource
  (ais_Type r) (ais_MediaType r) (ais_Data r).
Definition AnthropicImageSource_zero : AnthropicImageSource := MkAnthropicImageSource EmptyString
  EmptyString EmptyString.

Record AnthropicContentBlock := MkAnthropicContentBlock {
  cb_Type : string;
  cb_CacheControl : option AnthropicCacheControl;
  cb_Text : string;
  cb_Thinking : string;
  cb_Signature : string;
  cb_Data : string;
  cb_Source : option AnthropicImageSource;
  cb_ID : string;
  cb_Name : string;
  cb_Input : string;
  cb_ToolUseID : string;
  cb_Content : string;
  cb_IsError : bool
}.
#[export] Instance cb_struct : Struct AnthropicContentBlock := fun r => MkAnthropicContentBlock
  (cb_Type r) (cb_CacheControl r) (cb_Text r) (cb_Thinking r) (cb_Signature r) (cb_Data r)
  (cb_Source r) (cb_ID r) (cb_Name r) (cb_Input r) (cb_ToolUseID r) (cb_Content r) (cb_IsError r).
Definition AnthropicContentBlock_zero : AnthropicContentBlock := MkAnthropicContentBlock EmptyString
  None EmptyString EmptyString EmptyString EmptyString None EmptyString EmptyString EmptyString
  EmptyString EmptyString false.

Record AnthropicPromptTokensDetails := MkAnthropicPromptTokensDetails {
  apd_CachedTokens : Z
}.
#[export] Instance apd_struct : Struct AnthropicPromptTokensDetails := fun r =>
  MkAnthropicPromptTokensDetails (apd_CachedTokens r).
Definition AnthropicPromptTokensDetails_zero : AnthropicPromptTokensDetails :=
  MkAnthropicPromptTokensDetails 0.

Record AnthropicUsage := MkAnthropicUsage {
  au_InputTokens : Z;
  au_OutputTokens : Z;
  au_CacheCreationInputTokens : Z;
  au_CacheReadInputTokens : Z;
  au_PromptTokens : Z;
  au_CachedTokens : Z;
  au_PromptTokensDetails : option AnthropicPromptTokensDetails;
  au_PromptCacheHitTokens : option Z;
  au_PromptCacheMissTokens : option Z
}.
#[export] Instance au_struct : Struct AnthropicUsage := fun r => MkAnthropicUsage (au_InputTokens r)
  (au_OutputTokens r) (au_CacheCreationInputTokens r) (au_CacheReadInputTokens r) (au_PromptTokens
  r) (au_CachedTokens r) (au_PromptTokensDetails r) (au_PromptCacheHitTokens r)
  (au_PromptCacheMissTokens r).
Definition AnthropicUsage_zero : AnthropicUsage := MkAnthropicUsage 0 0 0 0 0 0 None None None.

Record AnthropicResponse := MkAnthropicResponse {
  ar_ID : string;
  ar_Type : string;
  ar_Role : string;
  ar_Content : list AnthropicContentBlock;
  ar_Model : string;
  ar_StopReason : option string;
  ar_StopSequence : option string;
  ar_Usage : AnthropicUsage
}.
#[export] Instance ar_struct : Struct AnthropicResponse := fun r => MkAnthropicResponse (ar_ID r)
  (ar_Type r) (ar_Role r) (ar_Content r) (ar_Model r) (ar_StopReason r) (ar_StopSequence r)
  (ar_Usage r).
Definition AnthropicResponse_zero : AnthropicResponse := MkAnthropicResponse EmptyString EmptyString
  EmptyString [] EmptyString None None AnthropicUsage_zero.

Record AnthropicDelta := MkAnthropicDelta {
  ad_Type : string;
  ad_Text : string;
  ad_PartialJSON : string;
  ad_Thinking : string;
  ad_Signature : string;
  ad_StopReason : string;
  ad_StopSequence : option string
}.
#[export] Instance ad_struct : Struct AnthropicDelta := fun r => MkAnthropicDelta (ad_Type r)
  (ad_Text r) (ad_PartialJSON r) (ad_Thinking r) (ad_Signature r) (ad_StopReason r) (ad_StopSequence
  r).
Definition AnthropicDelta_zero : AnthropicDelta := MkAnthropicDelta EmptyString EmptyString
  EmptyString EmptyString EmptyString EmptyString None.

Record AnthropicStreamEvent := MkAnthropicStreamEvent {
  ae_Type : string;
  ae_Message : option AnthropicResponse;
  ae_Index : option Z;
  ae_ContentBlock : option AnthropicContentBlock;
  ae_Delta : option AnthropicDelta;
  ae_Usage : option AnthropicUsage
}.
#[export] Instance ae_struct : Struct AnthropicStreamEvent := fun r => MkAnthropicStreamEvent
  (ae_Type r) (ae_Message r) (ae_Index r) (ae_ContentBlock r) (ae_Delta r) (ae_Usage r).
Definition AnthropicStreamEvent_zero : AnthropicStreamEvent := MkAnthropicStreamEvent EmptyString
  None None None None None.

(** ** OpenAI Responses *)

Record ResponsesContentPart := MkResponsesContentPart {
  rp_PromptCacheBreakpoint : string;
  rp_Type : string;
  rp_Text : string;
  rp_ImageURL : string;
  rp_Filename : string;
  rp_FileData : string;
  rp_FileID : string
}.
#[export] Instance rp_struct : Struct ResponsesContentPart := fun r => MkResponsesContentPart
  (rp_PromptCacheBreakpoint r) (rp_Type r) (rp_Text r) (rp_ImageURL r) (rp_Filename r) (rp_FileData
  r) (rp_FileID r).
Definition ResponsesContentPart_zero : ResponsesContentPart := MkResponsesContentPart EmptyString
  EmptyString EmptyString EmptyString EmptyString EmptyString EmptyString.

Record WebSearchAction := MkWebSearchAction {
  wsa_Type : string;
  wsa_Query : string
}.
#[export] Instance wsa_struct : Struct WebSearchAction := fun r => MkWebSearchAction (wsa_Type r)
  (wsa_Query r).
Definition WebSearchAction_zero : WebSearchAction := MkWebSearchAction EmptyString EmptyString.

Record ResponsesSummary := MkResponsesSummary {
  rs_Type : string;
  rs_Text : string
}.
#[export] Instance rs_struct : Struct ResponsesSummary := fun r => MkResponsesSummary (rs_Type r)
  (rs_Text r).
Definition ResponsesSummary_zero : ResponsesSummary := MkResponsesSummary EmptyString EmptyString.

Record ResponsesOutput := MkResponsesOutput {
  ro_Type : string;
  ro_ID : string;
  ro_Role : string;
  ro_Content : list ResponsesContentPart;
  ro_Status : string;
  ro_EncryptedContent : string;
  ro_Summary : list ResponsesSummary;
  ro_CallID : string;
  ro_Name : string;
  ro_Arguments : string;
  ro_Namespace : string;
  ro_Input : string;
  ro_Action : option WebSearchAction
}.
#[export] Instance ro_struct : Struct ResponsesOutput := fun r => MkResponsesOutput (ro_Type r)
  (ro_ID r) (ro_Role r) (ro_Content r) (ro_Status r) (ro_EncryptedContent r) (ro_Summary r)
  (ro_CallID r) (ro_Name r) (ro_Arguments r) (ro_Namespace r) (ro_Input r) (ro_Action r).
Definition ResponsesOutput_zero : ResponsesOutput := MkResponsesOutput EmptyString EmptyString
  EmptyString [] EmptyString EmptyString [] EmptyString EmptyString EmptyString EmptyString
  EmptyString None.

Record ResponsesInputTokensDetails := MkResponsesInputTokensDetails {
  rid_CachedTokens : Z;
  rid_AudioTokens : Z;
  rid_CacheCreationTokens : Z;
  rid_CacheWriteTokens : Z
}.
#[export] Instance rid_struct : Struct ResponsesInputTokensDetails := fun r =>
  MkResponsesInputTokensDetails (rid_CachedTokens r) (rid_AudioTokens r) (rid_CacheCreationTokens r)
  (rid_CacheWriteTokens r).
Definition ResponsesInputTokensDetails_zero : ResponsesInputTokensDetails :=
  MkResponsesInputTokensDetails 0 0 0 0.

Record ResponsesOutputTokensDetails := MkResponsesOutputTokensDetails {
  rod_ReasoningTokens : Z;
  rod_AudioTokens : Z;
  rod_AcceptedPredictionTokens : Z;
  rod_RejectedPredictionTokens : Z
}.
#[export] Instance rod_struct : Struct ResponsesOutputTokensDetails := fun r =>
  MkResponsesOutputTokensDetails (rod_ReasoningTokens r) (rod_AudioTokens r)
  (rod_AcceptedPredictionTokens r) (rod_RejectedPredictionTokens r).
Definition ResponsesOutputTokensDetails_zero : ResponsesOutputTokensDetails :=
  MkResponsesOutputTokensDetails 0 0 0 0.

Record ResponsesUsage := MkResponsesUsage {
  ru_InputTokens : Z;
  ru_OutputTokens : Z;
  ru_TotalTokens : Z;
  ru_CacheCreationInputTokens : Z;
  ru_InputTokensDetails : option ResponsesInputTokensDetails;
  ru_OutputTokensDetails : option ResponsesOutputTokensDetails
}.
#[export] Instance ru_struct : Struct ResponsesUsage := fun r => MkResponsesUsage (ru_InputTokens r)
  (ru_OutputTokens r) (ru_TotalTokens r) (ru_CacheCreationInputTokens r) (ru_InputTokensDetails r)
  (ru_OutputTokensDetails r).
Definition ResponsesUsage_zero : ResponsesUsage := MkResponsesUsage 0 0 0 0 None None.

Record ResponsesError := MkResponsesError {
  rer_Code : string;
  rer_Message : string
}.
#[export] Instance rer_struct : Struct ResponsesError := fun r => MkResponsesError (rer_Code r)
  (rer_Message r).
Definition ResponsesError_zero : ResponsesError := MkResponsesError EmptyString EmptyString.

Record ResponsesIncompleteDetails := MkResponsesIncompleteDetails {
  rind_Reason : string
}.
#[export] Instance rind_struct : Struct ResponsesIncompleteDetails := fun r =>
  MkResponsesIncompleteDetails (rind_Reason r).
Definition ResponsesIncompleteDetails_zero : ResponsesIncompleteDetails :=
  MkResponsesIncompleteDetails EmptyString.

Record ResponsesResponse := MkResponsesResponse {
  rr_ID : string;
  rr_Object : string;
  rr_CreatedAt : Z;
  rr_Model : string;
  rr_Status : string;
  rr_Output : list ResponsesOutput;
  rr_Usage : option ResponsesUsage;
  rr_ServiceTier : string;
  rr_IncompleteDetails : option ResponsesIncompleteDetails;
  rr_Error : option ResponsesError
}.
#[export] Instance rr_struct : Struct ResponsesResponse := fun r => MkResponsesResponse (rr_ID r)
  (rr_Object r) (rr_CreatedAt r) (rr_Model r) (rr_Status r) (rr_Output r) (rr_Usage r)
  (rr_ServiceTier r) (rr_IncompleteDetails r) (rr_Error r).
Definition ResponsesResponse_zero : ResponsesResponse := MkResponsesResponse EmptyString EmptyString
  0 EmptyString EmptyString [] None EmptyString None None.

Record ResponsesStreamEvent := MkResponsesStreamEvent {
  re_Type : string;
  re_Response : option ResponsesResponse;
  re_Usage : option ResponsesUsage;
  re_Item : option ResponsesOutput;
  re_OutputIndex : Z;
  re_ContentIndex : Z;
  re_Delta : string;
  re_Text : string;
  re_ItemID : string;
  re_CallID : string;
  re_Name : string;
  re_Arguments : string;
  re_Input : string;
  re_SummaryIndex : Z;
  re_Part : option ResponsesContentPart;
  re_Code : string;
  re_Param : string;
  re_SequenceNumber : Z
}.
#[export] Instance re_struct : Struct ResponsesStreamEvent := fun r => MkResponsesStreamEvent
  (re_Type r) (re_Response r) (re_Usage r) (re_Item r) (re_OutputIndex r) (re_ContentIndex r)
  (re_Delta r) (re_Text r) (re_ItemID r) (re_CallID r) (re_Name r) (re_Arguments r) (re_Input r)
  (re_SummaryIndex r) (re_Part r) (re_Code r) (re_Param r) (re_SequenceNumber r).
Definition ResponsesStreamEvent_zero : ResponsesStreamEvent := MkResponsesStreamEvent EmptyString
  None None None 0 0 EmptyString EmptyString EmptyString EmptyString EmptyString EmptyString
  EmptyString 0 None EmptyString EmptyString 0.

(** ** OpenAI Chat Completions *)

Record ChatFunctionCall := MkChatFunctionCall {
  cf_Name : string;
  cf_Arguments : string
}.
#[export] Instance cf_struct : Struct ChatFunctionCall := fun r => MkChatFunctionCall (cf_Name r)
  (cf_Arguments r).
Definition ChatFunctionCall_zero : ChatFunctionCall := MkChatFunctionCall EmptyString EmptyString.

Record ChatToolCall := MkChatToolCall {
  ct_Index : option Z;
  ct_ID : string;
  ct_Type : string;
  ct_Function : ChatFunctionCall
}.
#[export] Instance ct_struct : Struct ChatToolCall := fun r => MkChatToolCall (ct_Index r) (ct_ID r)
  (ct_Type r) (ct_Function r).
Definition ChatToolCall_zero : ChatToolCall := MkChatToolCall None EmptyString EmptyString
  ChatFunctionCall_zero.

Record ChatMessage := MkChatMessage {
  cm_Role : string;
  cm_Content : string;
  cm_ReasoningContent : string;
  cm_Reasoning : string;
  cm_Name : string;
  cm_ToolCalls : list ChatToolCall;
  cm_ToolCallID : string;
  cm_FunctionCall : option ChatFunctionCall
}.
#[export] Instance cm_struct : Struct ChatMessage := fun r => MkChatMessage (cm_Role r) (cm_Content
  r) (cm_ReasoningContent r) (cm_Reasoning r) (cm_Name r) (cm_ToolCalls r) (cm_ToolCallID r)
  (cm_FunctionCall r).
Definition ChatMessage_zero : ChatMessage := MkChatMessage EmptyString EmptyString EmptyString
  EmptyString EmptyString [] EmptyString None.

Record ChatTokenDetails := MkChatTokenDetails {
  ctd_CachedTokens : Z;
  ctd_AudioTokens : Z;
  ctd_CacheCreationTokens : Z;
  ctd_CacheWriteTokens : Z;
  ctd_ReasoningTokens : Z;
  ctd_AcceptedPredictionTokens : Z;
  ctd_RejectedPredictionTokens : Z
}.
#[export] Instance ctd_struct : Struct ChatTokenDetails := fun r => MkChatTokenDetails
  (ctd_CachedTokens r) (ctd_AudioTokens r) (ctd_CacheCreationTokens r) (ctd_CacheWriteTokens r)
  (ctd_ReasoningTokens r) (ctd_AcceptedPredictionTokens r) (ctd_RejectedPredictionTokens r).
Definition ChatTokenDetails_zero : ChatTokenDetails := MkChatTokenDetails 0 0 0 0 0 0 0.

Record ChatUsage := MkChatUsage {
  cu_PromptTokens : Z;
  cu_CompletionTokens : Z;
  cu_TotalTokens : Z;
  cu_PromptTokensDetails : option ChatTokenDetails;
  cu_CompletionTokensDetails : option ChatTokenDetails
}.
#[export] Instance cu_struct : Struct ChatUsage := fun r => MkChatUsage (cu_PromptTokens r)
  (cu_CompletionTokens r) (cu_TotalTokens r) (cu_PromptTokensDetails r) (cu_CompletionTokensDetails
  r).
Definition ChatUsage_zero : ChatUsage := MkChatUsage 0 0 0 None None.

Record ChatChoice := MkChatChoice {
  cc_Index : Z;
  cc_Message : ChatMessage;
  cc_FinishReason : string
}.
#[export] Instance cc_struct : Struct ChatChoice := fun r => MkChatChoice (cc_Index r) (cc_Message
  r) (cc_FinishReason r).
Definition ChatChoice_zero : ChatChoice := MkChatChoice 0 ChatMessage_zero EmptyString.

Record ChatCompletionsResponse := MkChatCompletionsResponse {
  ccr_ID : string;
  ccr_Object : string;
  ccr_Created : Z;
  ccr_Model : string;
  ccr_Choices : list ChatChoice;
  ccr_Usage : option ChatUsage;
  ccr_SystemFingerprint : string;
  ccr_ServiceTier : string
}.
#[export] Instance ccr_struct : Struct ChatCompletionsResponse := fun r => MkChatCompletionsResponse
  (ccr_ID r) (ccr_Object r) (ccr_Created r) (ccr_Model r) (ccr_Choices r) (ccr_Usage r)
  (ccr_SystemFingerprint r) (ccr_ServiceTier r).
Definition ChatCompletionsResponse_zero : ChatCompletionsResponse := MkChatCompletionsResponse
  EmptyString EmptyString 0 EmptyString [] None EmptyString EmptyString.

Record ChatDelta := MkChatDelta {
  cd_Role : string;
  cd_Content : option string;
  cd_ReasoningContent : option string;
  cd_Reasoning : option string;
  cd_ToolCalls : list ChatToolCall
}.
#[export] Instance cd_struct : Struct ChatDelta := fun r => MkChatDelta (cd_Role r) (cd_Content r)
  (cd_ReasoningContent r) (cd_Reasoning r) (cd_ToolCalls r).
Definition ChatDelta_zero : ChatDelta := MkChatDelta EmptyString None None None [].

Record ChatChunkChoice := MkChatChunkChoice {
  ckc_Index : Z;
  ckc_Delta : ChatDelta;
  ckc_FinishReason : option string
}.
#[export] Instance ckc_struct : Struct ChatChunkChoice := fun r => MkChatChunkChoice (ckc_Index r)
  (ckc_Delta r) (ckc_FinishReason r).
Definition ChatChunkChoice_zero : ChatChunkChoice := MkChatChunkChoice 0 ChatDelta_zero None.

Record ChatCompletionsChunk := MkChatCompletionsChunk {
  ck_ID : string;
  ck_Object : string;
  ck_Created : Z;
  ck_Model : string;
  ck_Choices : list ChatChunkChoice;
  ck_Usage : option ChatUsage;
  ck_SystemFingerprint : string;
  ck_ServiceTier : string
}.
#[export] Instance ck_struct : Struct ChatCompletionsChunk := fun r => MkChatCompletionsChunk (ck_ID
  r) (ck_Object r) (ck_Created r) (ck_Model r) (ck_Choices r) (ck_Usage r) (ck_SystemFingerprint r)
  (ck_ServiceTier r).
Definition ChatCompletionsChunk_zero : ChatCompletionsChunk := MkChatCompletionsChunk EmptyString
  EmptyString 0 EmptyString [] None EmptyString EmptyString.

(** ** Requests

    [float64] parameters are copied, never computed with: the type of IEEE
    floats of the Standard Library stands for them. *)

Definition float64 : Type := SpecFloat.spec_float.


Record AnthropicOutputConfig := MkAnthropicOutputConfig {
  aoc_Effort : string
}.
#[export] Instance aoc_struct : Struct AnthropicOutputConfig := fun r => MkAnthropicOutputConfig
  (aoc_Effort r).
Definition AnthropicOutputConfig_zero : AnthropicOutputConfig := MkAnthropicOutputConfig
  EmptyString.

Record AnthropicThinking := MkAnthropicThinking {
  ath_Type : string;
  ath_BudgetTokens : Z
}.
#[export] Instance ath_struct : Struct AnthropicThinking := fun r => MkAnthropicThinking (ath_Type
  r) (ath_BudgetTokens r).
Definition AnthropicThinking_zero : AnthropicThinking := MkAnthropicThinking EmptyString 0.

Record AnthropicMessage := MkAnthropicMessage {
  am_Role : string;
  am_Content : string
}.
#[export] Instance am_struct : Struct AnthropicMessage := fun r => MkAnthropicMessage (am_Role r)
  (am_Content r).
Definition AnthropicMessage_zero : AnthropicMessage := MkAnthropicMessage EmptyString EmptyString.

Record AnthropicTool := MkAnthropicTool {
  atl_Type : string;
  atl_Name : string;
  atl_Description : string;
  atl_InputSchema : string;
  atl_CacheControl : option AnthropicCacheControl
}.
#[export] Instance atl_struct : Struct AnthropicTool := fun r => MkAnthropicTool (atl_Type r)
  (atl_Name r) (atl_Description r) (atl_InputSchema r) (atl_CacheControl r).
Definition AnthropicTool_zero : AnthropicTool := MkAnthropicTool EmptyString EmptyString EmptyString
  EmptyString None.

Record AnthropicRequest := MkAnthropicRequest {
  aq_Model : string;
  aq_MaxTokens : Z;
  aq_System : string;
  aq_Messages : list AnthropicMessage;
  aq_Tools : list AnthropicTool;
  aq_Stream : bool;
  aq_Temperature : option float64;
  aq_TopP : option float64;
  aq_StopSeqs : list string;
  aq_Thinking : option AnthropicThinking;
  aq_ToolChoice : string;
  aq_Metadata : string;
  aq_OutputConfig : option AnthropicOutputConfig
}.
#[export] Instance aq_struct : Struct AnthropicRequest := fun r => MkAnthropicRequest (aq_Model r)
  (aq_MaxTokens r) (aq_System r) (aq_Messages r) (aq_Tools r) (aq_Stream r) (aq_Temperature r)
  (aq_TopP r) (aq_StopSeqs r) (aq_Thinking r) (aq_ToolChoice r) (aq_Metadata r) (aq_OutputConfig r).
Definition AnthropicRequest_zero : AnthropicRequest := MkAnthropicRequest EmptyString 0 EmptyString
  [] [] false None None [] None EmptyString EmptyString None.

Record ResponsesReasoning := MkResponsesReasoning {
  rrs_Effort : string;
  rrs_Summary : string
}.
#[export] Instance rrs_struct : Struct ResponsesReasoning := fun r => MkResponsesReasoning
  (rrs_Effort r) (rrs_Summary r).
Definition ResponsesReasoning_zero : ResponsesReasoning := MkResponsesReasoning EmptyString
  EmptyString.

Record ResponsesText := MkResponsesText {
  rtx_Format : string;
  rtx_Verbosity : string
}.
#[export] Instance rtx_struct : Struct ResponsesText := fun r => MkResponsesText (rtx_Format r)
  (rtx_Verbosity r).
Definition ResponsesText_zero : ResponsesText := MkResponsesText EmptyString EmptyString.

Record ResponsesInputItem := MkResponsesInputItem {
  ri_Type : string;
  ri_Role : string;
  ri_Content : string;
  ri_EncryptedContent : string;
  ri_Summary : list ResponsesSummary;
  ri_Status : string;
  ri_CallID : string;
  ri_Name : string;
  ri_Arguments : string;
  ri_Input : string;
  ri_ID : string;
  ri_Output : string;
  ri_outputRaw : string
}.
#[export] Instance ri_struct : Struct ResponsesInputItem := fun r => MkResponsesInputItem (ri_Type
  r) (ri_Role r) (ri_Content r) (ri_EncryptedContent r) (ri_Summary r) (ri_Status r) (ri_CallID r)
  (ri_Name r) (ri_Arguments r) (ri_Input r) (ri_ID r) (ri_Output r) (ri_outputRaw r).
Definition ResponsesInputItem_zero : ResponsesInputItem := MkResponsesInputItem EmptyString
  EmptyString EmptyString EmptyString [] EmptyString EmptyString EmptyString EmptyString EmptyString
  EmptyString EmptyString EmptyString.

#[warnings="-register-all"]
Inductive ResponsesTool := MkResponsesTool {
  rt_Type : string;
  rt_Name : string;
  rt_Description : string;
  rt_Parameters : string;
  rt_Strict : option bool;
  rt_Tools : list ResponsesTool;
  rt_Children : list ResponsesTool;
  rt_AllowedXHandles : list string;
  rt_ExcludedXHandles : list string;
  rt_FromDate : string;
  rt_ToDate : string;
  rt_EnableImageUnderstanding : option bool;
  rt_EnableVideoUnderstanding : option bool
}.
#[export] Instance rt_struct : Struct ResponsesTool := fun r => MkResponsesTool (rt_Type r) (rt_Name
  r) (rt_Description r) (rt_Parameters r) (rt_Strict r) (rt_Tools r) (rt_Children r)
  (rt_AllowedXHandles r) (rt_ExcludedXHandles r) (rt_FromDate r) (rt_ToDate r)
  (rt_EnableImageUnderstanding r) (rt_EnableVideoUnderstanding r).
Definition ResponsesTool_zero : ResponsesTool := MkResponsesTool EmptyString EmptyString EmptyString
  EmptyString None [] [] [] [] EmptyString EmptyString None None.

Record ResponsesRequest := MkResponsesRequest {
  rq_PromptCacheOptions : string;
  rq_Model : string;
  rq_Instructions : string;
  rq_Input : string;
  rq_MaxOutputTokens : option Z;
  rq_Temperature : option float64;
  rq_TopP : option float64;
  rq_Stream : bool;
  rq_Tools : list ResponsesTool;
  rq_Include : list string;
  rq_Store : option bool;
  rq_ParallelToolCalls : option bool;
  rq_Reasoning : option ResponsesReasoning;
  rq_Text : option ResponsesText;
  rq_ToolChoice : string;
  rq_ServiceTier : string;
  rq_PromptCacheKey : string;
  rq_PreviousResponseID : string
}.
#[export] Instance rq_struct : Struct ResponsesRequest := fun r => MkResponsesRequest
  (rq_PromptCacheOptions r) (rq_Model r) (rq_Instructions r) (rq_Input r) (rq_MaxOutputTokens r)
  (rq_Temperature r) (rq_TopP r) (rq_Stream r) (rq_Tools r) (rq_Include r) (rq_Store r)
  (rq_ParallelToolCalls r) (rq_Reasoning r) (rq_Text r) (rq_ToolChoice r) (rq_ServiceTier r)
  (rq_PromptCacheKey r) (rq_PreviousResponseID r).
Definition ResponsesRequest_zero : ResponsesRequest := MkResponsesRequest EmptyString EmptyString
  EmptyString EmptyString None None None false [] [] None None None None EmptyString EmptyString
  EmptyString EmptyString.

Record ChatStreamOptions := MkChatStreamOptions {
  cso_IncludeUsage : bool
}.
#[export] Instance cso_struct : Struct ChatStreamOptions := fun r => MkChatStreamOptions
  (cso_IncludeUsage r).
Definition ChatStreamOptions_zero : ChatStreamOptions := MkChatStreamOptions false.

Record ChatImageURL := MkChatImageURL {
  ciu_URL : string;
  ciu_Detail : string
}.
#[export] Instance ciu_struct : Struct ChatImageURL := fun r => MkChatImageURL (ciu_URL r)
  (ciu_Detail r).
Definition ChatImageURL_zero : ChatImageURL := MkChatImageURL EmptyString EmptyString.

Record ChatFile := MkChatFile {
  cfl_Filename : string;
  cfl_FileData : string;
  cfl_FileID : string
}.
#[export] Instance cfl_struct : Struct ChatFile := fun r => MkChatFile (cfl_Filename r)
  (cfl_FileData r) (cfl_FileID r).
Definition ChatFile_zero : ChatFile := MkChatFile EmptyString EmptyString EmptyString.

Record ChatContentPart := MkChatContentPart {
  cp_PromptCacheBreakpoint : string;
  cp_Type : string;
  cp_Text : string;
  cp_ImageURL : option ChatImageURL;
  cp_File : option ChatFile
}.
#[export] Instance cp_struct : Struct ChatContentPart := fun r => MkChatContentPart
  (cp_PromptCacheBreakpoint r) (cp_Type r) (cp_Text r) (cp_ImageURL r) (cp_File r).
Definition ChatContentPart_zero : ChatContentPart := MkChatContentPart EmptyString EmptyString
  EmptyString None None.

Record ChatFunction := MkChatFunction {
  cfn_Name : string;
  cfn_Description : string;
  cfn_Parameters : string;
  cfn_Strict : option bool
}.
#[export] Instance cfn_struct : Struct ChatFunction := fun r => MkChatFunction (cfn_Name r)
  (cfn_Description r) (cfn_Parameters r) (cfn_Strict r).
Definition ChatFunction_zero : ChatFunction := MkChatFunction EmptyString EmptyString EmptyString
  None.

Record ChatTool := MkChatTool {
  ctl_Type : string;
  ctl_Function : option ChatFunction;
  ctl_AllowedXHandles : list string;
  ctl_ExcludedXHandles : list string;
  ctl_FromDate : string;
  ctl_ToDate : string;
  ctl_EnableImageUnderstanding : option bool;
  ctl_EnableVideoUnderstanding : option bool
}.
#[export] Instance ctl_struct : Struct ChatTool := fun r => MkChatTool (ctl_Type r) (ctl_Function r)
  (ctl_AllowedXHandles r) (ctl_ExcludedXHandles r) (ctl_FromDate r) (ctl_ToDate r)
  (ctl_EnableImageUnderstanding r) (ctl_EnableVideoUnderstanding r).
Definition ChatTool_zero : ChatTool := MkChatTool EmptyString None [] [] EmptyString EmptyString
  None None.

Record ChatCompletionsRequest := MkChatCompletionsRequest {
  cq_PromptCacheOptions : string;
  cq_Model : string;
  cq_Messages : list ChatMessage;
  cq_Instructions : string;
  cq_MaxTokens : option Z;
  cq_MaxCompletionTokens : option Z;
  cq_Temperature : option float64;
  cq_TopP : option float64;
  cq_Stream : bool;
  cq_StreamOptions : option ChatStreamOptions;
  cq_Tools : list ChatTool;
  cq_ParallelToolCalls : option bool;
  cq_ToolChoice : string;
  cq_ReasoningEffort : string;
  cq_ServiceTier : string;
  cq_Stop : string;
  cq_ResponseFormat : string;
  cq_Functions : list ChatFunction;
  cq_FunctionCall : string
}.
#[export] Instance cq_struct : Struct ChatCompletionsRequest := fun r => MkChatCompletionsRequest
  (cq_PromptCacheOptions r) (cq_Model r) (cq_Messages r) (cq_Instructions r) (cq_MaxTokens r)
  (cq_MaxCompletionTokens r) (cq_Temperature r) (cq_TopP r) (cq_Stream r) (cq_StreamOptions r)
  (cq_Tools r) (cq_ParallelToolCalls r) (cq_ToolChoice r) (cq_ReasoningEffort r) (cq_ServiceTier r)
  (cq_Stop r) (cq_ResponseFormat r) (cq_Functions r) (cq_FunctionCall r).
Definition ChatCompletionsRequest_zero : ChatCompletionsRequest := MkChatCompletionsRequest
  EmptyString EmptyString [] EmptyString None None None None false None [] None EmptyString
  EmptyString EmptyString EmptyString EmptyString [] EmptyString.

#[export] Instance ResponsesContentPart_eq_dec : EqDecision ResponsesContentPart.
Proof. solve_decision. Defined.
#[export] Instance WebSearchAction_eq_dec : EqDecision WebSearchAction.
Proof. solve_decision. Defined.
#[export] Instance ResponsesSummary_eq_dec : EqDecision ResponsesSummary.
Proof. solve_decision. Defined.
#[export] Instance ResponsesOutput_eq_dec : EqDecision ResponsesOutput.
Proof. solve_decision. Defined.

(** The text of a message or a delta: the compatible [reasoning_content]
    member, or the [reasoning] one. *)
Definition ChatMessage_reasoningText (m : ChatMessage) : string :=
  if cm_ReasoningContent m =s "" then cm_Reasoning m else cm_ReasoningContent m.

Definition ChatDelta_reasoningText (d : ChatDelta) : option string :=
  match cd_ReasoningContent d with Some s => Some s | None => cd_Reasoning d end.

Definition AnthropicStopReasonString (p : option string) : string :=
  match p with None => "" | Some s => s end.
