(* ===== verification/ResponsesWire.v ===== *)
(** * ResponsesWire: the items of a Responses request on the wire

    The items and content parts of [input] ([types.go]), written by the
    request converters and decoded by the upstream, and what a decoded input
    says: a conversation.  A converter's theorem is then about the items it
    emits: [hear_speaks] carries it through the JSON text. *)

From S2P Require Import Prelude GoStrings Json JsonCodec JsonCompact JsonMembers ApicompatTypes.

Module ResponsesWire.
Import Json JsonCodec JsonCompact JsonMembers.

(** ** Writing *)

Definition part_json (p : ResponsesContentPart) : json :=
  JObject (omit_raw "prompt_cache_breakpoint" (rp_PromptCacheBreakpoint p) ++ [("type", JString (rp_Type p))] ++
           omit_string "text" (rp_Text p) ++ omit_string "image_url" (rp_ImageURL p) ++
           omit_string "filename" (rp_Filename p) ++ omit_string "file_data" (rp_FileData p) ++
           omit_string "file_id" (rp_FileID p)).

Definition summary_json (s : ResponsesSummary) : json :=
  JObject [("type", JString (rs_Type s)); ("text", JString (rs_Text s))].

Definition item_json (i : ResponsesInputItem) : json :=
  JObject (omit_string "type" (ri_Type i) ++ omit_string "role" (ri_Role i) ++ omit_raw "content" (ri_Content i) ++
           omit_string "encrypted_content" (ri_EncryptedContent i) ++ omit_list "summary" (map summary_json (ri_Summary i)) ++
           omit_string "status" (ri_Status i) ++ omit_string "call_id" (ri_CallID i) ++ omit_string "name" (ri_Name i) ++
           omit_string "arguments" (ri_Arguments i) ++ omit_string "input" (ri_Input i) ++ omit_string "id" (ri_ID i) ++
           omit_string "output" (ri_Output i)).

(** [json.Marshal] of a slice: a nil one is [null]. *)
Definition marshal_slice {A} (f : A -> json) (l : list A) : option string :=
  match l with [] => Some "null" | _ => Marshal (JArray (map f l)) end.

Definition input_text (s : string) : ResponsesContentPart :=
  ResponsesContentPart_zero <| rp_Type := "input_text" |> <| rp_Text := s |>.
Definition output_text (s : string) : ResponsesContentPart :=
  ResponsesContentPart_zero <| rp_Type := "output_text" |> <| rp_Text := s |>.
Definition input_image (uri : string) : ResponsesContentPart :=
  ResponsesContentPart_zero <| rp_Type := "input_image" |> <| rp_ImageURL := uri |>.

Definition message_item (role : string) (content : string) : ResponsesInputItem :=
  ResponsesInputItem_zero <| ri_Type := "message" |> <| ri_Role := role |> <| ri_Content := content |>.

(** The smallest budget of output tokens the upstream accepts. *)
Definition minMaxOutputTokens : Z := 128.

(** ** Steps that may fail *)

Definition or_error {A E} (o : option A) (e : E) : outcome A E :=
  match o with Some a => Ok a | None => Err e end.

Definition bind {A B E} (m : outcome A E) (k : A -> outcome B E) : outcome B E :=
  match m with Ok a => k a | Err e => Err e end.

Notation "'let?' x := m 'in' k" := (bind m (fun x => k)) (at level 10, x name, m at level 100, k at level 200).

(** ** What the upstream reads

    The Responses side decodes [input] with [ResponsesInputItem] and
    [ResponsesContentPart]; an item is heard as one entry of the
    conversation.  The text of a content that is no list is one text part. *)

Definition decode_part : decoder ResponsesContentPart :=
  decode_struct
    [("prompt_cache_breakpoint", field rp_PromptCacheBreakpoint (fun v r => r <| rp_PromptCacheBreakpoint := v |>) decode_raw);
     ("type", field rp_Type (fun v r => r <| rp_Type := v |>) decode_string);
     ("text", field rp_Text (fun v r => r <| rp_Text := v |>) decode_string);
     ("image_url", field rp_ImageURL (fun v r => r <| rp_ImageURL := v |>) decode_string);
     ("filename", field rp_Filename (fun v r => r <| rp_Filename := v |>) decode_string);
     ("file_data", field rp_FileData (fun v r => r <| rp_FileData := v |>) decode_string);
     ("file_id", field rp_FileID (fun v r => r <| rp_FileID := v |>) decode_string)].

Definition decode_summary : decoder ResponsesSummary :=
  decode_struct [("type", field rs_Type (fun v r => r <| rs_Type := v |>) decode_string);
                 ("text", field rs_Text (fun v r => r <| rs_Text := v |>) decode_string)].

(** A field of the embedded alias; [output] is a member of its own, raw. *)
Definition alias_field {B} (get : ResponsesInputItem -> B) (set : B -> ResponsesInputItem -> ResponsesInputItem) (d : decoder B)
    : decoder (ResponsesInputItem * string) :=
  field (fun p => get (fst p)) (fun v p => (set v (fst p), snd p)) d.

Definition wire_fields : fields (ResponsesInputItem * string) :=
  [("type", alias_field ri_Type (fun v r => r <| ri_Type := v |>) decode_string);
   ("role", alias_field ri_Role (fun v r => r <| ri_Role := v |>) decode_string);
   ("content", alias_field ri_Content (fun v r => r <| ri_Content := v |>) decode_raw);
   ("encrypted_content", alias_field ri_EncryptedContent (fun v r => r <| ri_EncryptedContent := v |>) decode_string);
   ("summary", alias_field ri_Summary (fun v r => r <| ri_Summary := v |>) (decode_slice ResponsesSummary_zero decode_summary));
   ("status", alias_field ri_Status (fun v r => r <| ri_Status := v |>) decode_string);
   ("call_id", alias_field ri_CallID (fun v r => r <| ri_CallID := v |>) decode_string);
   ("name", alias_field ri_Name (fun v r => r <| ri_Name := v |>) decode_string);
   ("arguments", alias_field ri_Arguments (fun v r => r <| ri_Arguments := v |>) decode_string);
   ("input", alias_field ri_Input (fun v r => r <| ri_Input := v |>) decode_string);
   ("id", alias_field ri_ID (fun v r => r <| ri_ID := v |>) decode_string);
   ("output", field snd (fun v p => (fst p, v)) decode_raw)].

(** [ResponsesInputItem.UnmarshalJSON]. *)
Definition decode_item : decoder ResponsesInputItem := fun data _ =>
  match unmarshal (decode_struct wire_fields) (ResponsesInputItem_zero, "") data with
  | None => None
  | Some (i, wire_output) =>
      let output := TrimSpace wire_output in
      if (output =s "") || (output =s "null") then Some i
      else match unmarshal_string output with
      | Some s => Some (i <| ri_Output := s |>)
      | None => Some (i <| ri_outputRaw := output |> <| ri_Output := output |>)
      end
  end.

Inductive part :=
| Text (s : string)
| Image (uri : string)
| File (name data id : string)
| Cached (breakpoint : string) (p : part).

Inductive entry :=
| Say (role : string) (parts : list part)
| Thought (signature : string)
| Call (id name arguments : string)
| Answer (id output : string).

Definition hear_part (p : ResponsesContentPart) : option part :=
  q ← (if (rp_Type p =s "input_text") || (rp_Type p =s "output_text") then Some (Text (rp_Text p))
       else if rp_Type p =s "input_image" then Some (Image (rp_ImageURL p))
       else if rp_Type p =s "input_file" then Some (File (rp_Filename p) (rp_FileData p) (rp_FileID p))
       else None);
  Some (if rp_PromptCacheBreakpoint p =s "" then q else Cached (rp_PromptCacheBreakpoint p) q).

Definition hear_content (raw : string) : option (list part) :=
  match unmarshal_string raw with
  | Some s => Some [Text s]
  | None => parts ← unmarshal (decode_slice ResponsesContentPart_zero decode_part) [] raw; mapM hear_part parts
  end.

Definition hear_item (i : ResponsesInputItem) : option entry :=
  if ri_Type i =s "message" then parts ← hear_content (ri_Content i); Some (Say (ri_Role i) parts)
  else if ri_Type i =s "reasoning" then Some (Thought (ri_EncryptedContent i))
  else if ri_Type i =s "function_call" then Some (Call (ri_CallID i) (ri_Name i) (ri_Arguments i))
  else if ri_Type i =s "function_call_output" then Some (Answer (ri_CallID i) (ri_Output i))
  else None.

Definition hear (input : string) : option (list entry) :=
  items ← unmarshal (decode_slice ResponsesInputItem_zero decode_item) [] input; mapM hear_item items.

Definition say (role : string) (parts : list part) : list entry := match parts with [] => [] | _ => [Say role parts] end.

(** JSON strings are UTF-8: the round trip needs no more. *)
Definition utf8 (s : string) : Prop := ValidString s = true.
Fixpoint part_utf8 (p : part) : Prop :=
  match p with
  | Text s | Image s => utf8 s
  | File name data id => utf8 name /\ utf8 data /\ utf8 id
  | Cached _ p => part_utf8 p
  end.
Definition entry_utf8 (e : entry) : Prop :=
  match e with
  | Say role parts => Forall part_utf8 parts
  | Thought signature => utf8 signature
  | Call id name arguments => utf8 id /\ utf8 name /\ utf8 arguments
  | Answer id output => utf8 id /\ utf8 output
  end.

(** ** The wire round trip *)

(** A part can be written when its breakpoint is JSON, nested at most [n]
    deep; the upstream gets the breakpoint in its compact form. *)
Definition part_plain (n : nat) (p : ResponsesContentPart) : Prop :=
  rp_PromptCacheBreakpoint p = "" \/ Valid (rp_PromptCacheBreakpoint p) = true /\ reads n (compact (rp_PromptCacheBreakpoint p)).

Definition part_ok (n : nat) (p : ResponsesContentPart) : Prop :=
  part_plain n p /\ utf8 (rp_Type p) /\ utf8 (rp_Text p) /\ utf8 (rp_ImageURL p) /\
  utf8 (rp_Filename p) /\ utf8 (rp_FileData p) /\ utf8 (rp_FileID p).

Definition received (p : ResponsesContentPart) : ResponsesContentPart :=
  p <| rp_PromptCacheBreakpoint := compact (rp_PromptCacheBreakpoint p) |>.

Lemma members_breakpoint n k b : ValidString k = true -> b = "" \/ Valid b = true /\ reads n (compact b) -> members_ok n (omit_raw k b).
Proof.
  intros Hk Hb. unfold omit_raw. destruct (String.eqb_spec b "") as [|Hne]; [constructor|].
  destruct Hb as [?|[_ Hb]]; [done|]. constructor; [|constructor]. by split.
Qed.

Lemma part_members_ok n p : part_plain n p -> exists l, part_json p = JObject l /\ members_ok n l.
Proof.
  intros Hb. unfold part_json. eexists. split; [reflexivity|].
  unfold members_ok. rewrite !Forall_app. split_and!; try (apply members_omit_string || apply members_string); try done.
  by apply members_breakpoint.
Qed.

(** One member at a time. *)
Ltac set_next := rewrite map_app, set_members_app;
  first [erewrite set_omit_string; [|reflexivity|eassumption|reflexivity]
        |erewrite set_omit_raw; [|reflexivity|eauto|reflexivity]
        |erewrite set_string; [|reflexivity|eassumption]]; cbn [mbind option_bind].

Section at_depth.
Context (n : nat) (Hn : (Z.of_nat n + 2 <= maxNestingDepth)).

Lemma part_reads p : part_plain n p -> reads (S n) (print (part_json p)).
Proof. intros Hp. destruct (part_members_ok n p Hp) as (l & -> & Hl). by apply reads_print_object. Qed.

Lemma part_raw_valid p : part_plain n p -> raw_valid (part_json p) = true.
Proof.
  intros Hp. unfold part_json. cbn [raw_valid]. rewrite !forallb_app. unfold omit_string, omit_raw.
  assert (Hb : forallb (fun kv : string * json => raw_valid kv.2)
    (if rp_PromptCacheBreakpoint p =s "" then [] else [("prompt_cache_breakpoint", JRaw (rp_PromptCacheBreakpoint p))]) = true).
  { destruct (String.eqb_spec (rp_PromptCacheBreakpoint p) ""); [done|]. destruct Hp as [?|[Hv _]]; [done|]. cbn. by rewrite Hv. }
  rewrite Hb. by repeat case_match.
Qed.

Lemma set_breakpoint {A} (fs : fields A) k b get set x : field_for fs k = Some (field get set decode_raw) ->
  set "" x = x -> set_members fs (map printed (omit_raw k b)) x = Some (set (compact b) x).
Proof.
  intros Hf Hx. unfold omit_raw. destruct (String.eqb_spec b "") as [->|Hne]; [by rewrite <- Hx at 1|].
  cbn [map printed fst snd set_members print]. by rewrite Hf.
Qed.

Lemma decode_part_print p : part_ok n p -> decode_part (print (part_json p)) ResponsesContentPart_zero = Some (received p).
Proof.
  intros Hp. pose proof (part_members_ok n p (proj1 Hp)) as (l & E & Hl). destruct Hp as (Hb & Ht & Hx & Hu & Hf & Hd & Hi).
  unfold decode_part. rewrite E. rewrite (decode_struct_print n) by (done || lia). injection E as <-.
  rewrite map_app, set_members_app. erewrite set_breakpoint; [|reflexivity|reflexivity]. cbn [mbind option_bind].
  change ((("type", JString (rp_Type p)) :: ?x)) with ([("type", JString (rp_Type p))] ++ x).
  do 5 set_next.
  erewrite set_omit_string; [|reflexivity|eassumption|reflexivity]. destruct p; cbn in *. done.
Qed.

Lemma marshal_slice_some {A} (f : A -> json) x l : Forall (fun a => raw_valid (f a) = true) (x :: l) ->
  marshal_slice f (x :: l) = Some (print (JArray (map f (x :: l)))).
Proof.
  intros Hl. unfold marshal_slice, Marshal. assert (E : raw_valid (JArray (map f (x :: l))) = true); [|by rewrite E].
  cbn [raw_valid]. induction Hl as [|y l' Hy _ IH]; [done|]. cbn. by rewrite Hy.
Qed.

Lemma marshal_parts l : Forall (part_plain n) l -> l <> [] -> exists t, marshal_slice part_json l = Some t /\ reads (S (S n)) t /\
  (Forall (part_ok n) l -> unmarshal_string t = None /\
     unmarshal (decode_slice ResponsesContentPart_zero decode_part) [] t = Some (map received l)).
Proof.
  intros Hl Hne. exists (print (JArray (map part_json l))).
  assert (Hr : Forall (fun j => reads (S n) (print j)) (map part_json l)).
  { rewrite Forall_map. eapply Forall_impl; [exact Hl|]. apply part_reads. }
  assert (Hr2 : reads (S (S n)) (print (JArray (map part_json l)))) by (apply reads_print_array; done).
  split; [|split; [done|]].
  - destruct l as [|p l]; [done|]. apply marshal_slice_some. eapply Forall_impl; [exact Hl|]. apply part_raw_valid.
  - intros Hok. split.
    + unfold unmarshal_string. rewrite (reads_Valid (S (S n))) by (done || lia). reflexivity.
    + rewrite (unmarshal_reads (S (S n))), (decode_slice_print (S n)) by (done || lia).
      clear -Hok Hn. induction Hok as [|p l Hp _ IH]; [done|]. cbn [map mapM]. rewrite decode_part_print by done. cbn [mbind option_bind].
      by rewrite IH.
Qed.
End at_depth.

(** Items without summary whose content is compact JSON, nested at most [n]
    deep. *)
Definition item_plain (n : nat) (i : ResponsesInputItem) : Prop :=
  ri_Summary i = [] /\ ri_outputRaw i = "" /\ (ri_Content i = "" \/ reads n (ri_Content i)).

Definition item_ok (n : nat) (i : ResponsesInputItem) : Prop :=
  item_plain n i /\
  utf8 (ri_Type i) /\ utf8 (ri_Role i) /\ utf8 (ri_EncryptedContent i) /\ utf8 (ri_Status i) /\ utf8 (ri_CallID i) /\
  utf8 (ri_Name i) /\ utf8 (ri_Arguments i) /\ utf8 (ri_Input i) /\ utf8 (ri_ID i) /\ utf8 (ri_Output i).

Lemma item_members_ok n i : item_plain n i -> exists l, item_json i = JObject l /\ members_ok n l.
Proof.
  intros (Hs & _ & Hc). unfold item_json. eexists. split; [reflexivity|].
  rewrite Hs. unfold members_ok. rewrite !Forall_app.
  split_and!; try (apply members_omit_string || apply members_omit_raw); try done.
Qed.

Lemma set_output s p : utf8 s ->
  set_members wire_fields (map printed (omit_string "output" s)) p = Some (fst p, if s =s "" then snd p else quote s).
Proof. intros _. unfold omit_string. destruct p as [i o]. by destruct (s =s ""). Qed.

Lemma wire_output i o : ri_Output i = "" -> utf8 o ->
  (let output := TrimSpace (if o =s "" then "" else quote o) in
   if (output =s "") || (output =s "null") then Some i
   else match unmarshal_string output with
   | Some s => Some (i <| ri_Output := s |>)
   | None => Some (i <| ri_outputRaw := output |> <| ri_Output := output |>)
   end) = Some (i <| ri_Output := o |>).
Proof.
  intros Hi Ho. cbv zeta. destruct (String.eqb_spec o "") as [->|Hne].
  { cbn. destruct i; cbn in *. by subst. }
  rewrite trim_quote, unmarshal_string_quote by done.
  destruct (quote_scan o "") as (t & E & _). rewrite str_app_nil_r in E. rewrite E. reflexivity.
Qed.

Section items.
Context (n : nat).

Lemma item_reads i : Z.of_nat n < maxNestingDepth -> item_plain n i -> reads (S n) (print (item_json i)).
Proof. intros Hn Hi. destruct (item_members_ok n i Hi) as (l & -> & Hl). by apply reads_print_object. Qed.

Lemma decode_item_print i : Z.of_nat n < maxNestingDepth -> item_ok n i -> decode_item (print (item_json i)) ResponsesInputItem_zero = Some i.
Proof.
  intros Hn Hi. pose proof (item_reads i Hn (proj1 Hi)) as Hr. pose proof (item_members_ok n i (proj1 Hi)) as (l & E & Hl).
  destruct Hi as ((Hs & Hraw & Hc) & H1 & H2 & H3 & H4 & H5 & H6 & H7 & H8 & H9 & H10).
  unfold decode_item. rewrite (unmarshal_reads (S n)) by (done || lia). rewrite E, (decode_struct_print n) by done.
  injection E as <-. rewrite Hs. change (omit_list "summary" (map summary_json [])) with (@nil (string * json)). cbn [app].
  do 10 set_next. rewrite set_output by done. cbn [fst snd].
  etransitivity; [apply wire_output; [reflexivity|done]|]. destruct i; cbn in *. by subst.
Qed.

Lemma item_raw_valid i : Z.of_nat n <= maxNestingDepth -> item_plain n i -> raw_valid (item_json i) = true.
Proof.
  intros Hn (Hs & _ & Hc). unfold item_json. rewrite Hs.
  cbn [raw_valid]. rewrite !forallb_app. unfold omit_string, omit_raw.
  assert (forall b k s, forallb (fun kv => raw_valid kv.2) (if b : bool then [] else [(k : string, JString s)]) = true) as Hstr by by intros [].
  rewrite !Hstr. cbn [andb]. destruct (String.eqb_spec (ri_Content i) "") as [|Hne]; [done|].
  destruct Hc as [?|Hc]; [done|]. cbn. by rewrite (reads_Valid n).
Qed.

Lemma marshal_items items : Z.of_nat n <= maxNestingDepth -> Forall (item_plain n) items -> exists t, marshal_slice item_json items = Some t /\
  (Z.of_nat n + 2 <= maxNestingDepth -> Forall (item_ok n) items ->
   unmarshal (decode_slice ResponsesInputItem_zero decode_item) [] t = Some items).
Proof.
  intros Hn Hl. destruct items as [|i items]; [exists "null"; split; [done | intros _ _; by vm_compute]|].
  set (l := i :: items) in *. exists (print (JArray (map item_json l))). split.
  - apply marshal_slice_some. eapply Forall_impl; [exact Hl|]. intros q. by apply item_raw_valid.
  - intros Hn2 Hok. assert (Hr : Forall (fun j => reads (S n) (print j)) (map item_json l)).
    { rewrite Forall_map. eapply Forall_impl; [exact Hl|]. intros q. apply item_reads. lia. }
    rewrite (unmarshal_reads (S (S n))), (decode_slice_print (S n)) by (done || lia || by apply reads_print_array).
    apply mapM_map_inverse. eapply Forall_impl; [exact Hok|]. intros q. apply decode_item_print. lia.
Qed.

(** ** Items that speak *)

Definition speaks (i : ResponsesInputItem) (e : entry) : Prop := item_ok n i /\ hear_item i = Some e.

Lemma hear_speaks items es t : Z.of_nat n + 2 <= maxNestingDepth -> Forall2 speaks items es -> marshal_slice item_json items = Some t -> hear t = Some es.
Proof.
  intros Hn Hs Ht. assert (Hok : Forall (item_ok n) items) by (clear Ht; induction Hs as [|? ? ? ? [? _]]; by constructor).
  destruct (marshal_items items) as (t' & Ht' & Hu); [lia|eapply Forall_impl; [exact Hok|]; by intros i []|].
  rewrite Ht in Ht'. injection Ht' as <-. unfold hear. rewrite (Hu Hn Hok). cbn [mbind option_bind]. clear -Hs. induction Hs as [|i e items es [_ He] _ IH]; [done|].
  cbn [mapM]. rewrite He. cbn. by rewrite IH.
Qed.

Lemma call_speaks id name arguments : entry_utf8 (Call id name arguments) ->
  speaks (ResponsesInputItem_zero <| ri_Type := "function_call" |> <| ri_CallID := id |> <| ri_Name := name |> <| ri_Arguments := arguments |>)
         (Call id name arguments).
Proof. intros (H1 & H2 & H3). by repeat split; try left. Qed.

Lemma answer_speaks id output : entry_utf8 (Answer id output) ->
  speaks (ResponsesInputItem_zero <| ri_Type := "function_call_output" |> <| ri_CallID := id |> <| ri_Output := output |>) (Answer id output).
Proof. intros (H1 & H2). by repeat split; try left. Qed.

Lemma thought_speaks signature : entry_utf8 (Thought signature) ->
  speaks (ResponsesInputItem_zero <| ri_Type := "reasoning" |> <| ri_EncryptedContent := signature |>) (Thought signature).
Proof. intros H1. by repeat split; try left. Qed.

Lemma string_speaks role s : Z.of_nat n <= maxNestingDepth -> utf8 role -> utf8 s -> speaks (message_item role (quote s)) (Say role [Text s]).
Proof.
  intros Hn Hr Hs. split; [by repeat split; try (right; apply reads_string)|].
  unfold hear_item, message_item, hear_content. cbn -[unmarshal_string quote]. by rewrite unmarshal_string_quote.
Qed.

(** The items of a part of the conversation are heard as its entries. *)
Definition heard_as (items : list ResponsesInputItem) (es : list entry) : Prop := Forall entry_utf8 es -> Forall2 speaks items es.

Lemma heard_app items1 es1 items2 es2 : heard_as items1 es1 -> heard_as items2 es2 -> heard_as (items1 ++ items2) (es1 ++ es2).
Proof. intros H1 H2 Hu. apply Forall_app in Hu as [Hu1 Hu2]. apply Forall2_app; auto. Qed.

Lemma heard_map {A} (f : A -> ResponsesInputItem) (g : A -> entry) l :
  (forall a, entry_utf8 (g a) -> speaks (f a) (g a)) -> heard_as (map f l) (map g l).
Proof.
  intros Hfg Hu. induction l as [|a l IH]; [constructor|]. cbn in *. inversion Hu; subst. constructor; auto.
Qed.

Lemma heard_flat_map {A} (f : A -> list ResponsesInputItem) (g : A -> list entry) l :
  (forall a, heard_as (f a) (g a)) -> heard_as (flat_map f l) (flat_map g l).
Proof. intros Hfg. induction l as [|a l IH]; [by intros _|]. cbn. by apply heard_app. Qed.

Lemma heard_one i e : (entry_utf8 e -> speaks i e) -> heard_as [i] [e].
Proof. intros H Hu. inversion Hu; subst. constructor; [auto|constructor]. Qed.
End items.

(** A content part is heard as [p]. *)
Definition part_speaks (n : nat) (q : ResponsesContentPart) (p : part) : Prop :=
  part_plain n q /\ (part_utf8 p -> part_ok n q /\ hear_part (received q) = Some p).

Lemma text_part_speaks n s : part_speaks n (input_text s) (Text s).
Proof. split; [by left|]. intros Hs. by repeat split; try left. Qed.

Lemma answer_part_speaks n s : part_speaks n (output_text s) (Text s).
Proof. split; [by left|]. intros Hs. by repeat split; try left. Qed.

Lemma image_part_speaks n uri : part_speaks n (input_image uri) (Image uri).
Proof. split; [by left|]. intros Hs. by repeat split; try left. Qed.

Lemma parts_plain n qs ps : Forall2 (part_speaks n) qs ps -> Forall (part_plain n) qs.
Proof. induction 1 as [|q p qs ps [H _] _ IH]; by constructor. Qed.

Lemma message_speaks n role qs ps content : Z.of_nat n + 2 <= maxNestingDepth -> utf8 role -> qs <> [] ->
  Forall2 (part_speaks n) qs ps -> Forall part_utf8 ps -> marshal_slice part_json qs = Some content ->
  speaks (S (S n)) (message_item role content) (Say role ps).
Proof.
  intros Hn Hrole Hne Hq Hp Hm. destruct (marshal_parts n Hn qs (parts_plain n _ _ Hq) Hne) as (t & Ht & Hr & Hu).
  rewrite Hm in Ht. injection Ht as <-.
  assert (Hok : Forall (part_ok n) qs /\ mapM hear_part (map received qs) = Some ps).
  { clear -Hq Hp. induction Hq as [|q p qs ps [_ H] _ IH]; [done|]. inversion Hp; subst.
    destruct (H ltac:(done)) as [Hok Hh]. destruct (IH ltac:(done)) as [Hoks Hhs]. split; [by constructor|].
    cbn [map mapM]. rewrite Hh. cbn [mbind option_bind]. by rewrite Hhs. }
  destruct Hok as [Hok Hh]. destruct (Hu Hok) as [Hs Hd]. split; [by repeat split; try right|].
  unfold hear_item, message_item, hear_content. cbn -[unmarshal unmarshal_string]. rewrite Hs, Hd. cbn [mbind option_bind]. by rewrite Hh.
Qed.

Lemma heard_message n role qs ps content : Z.of_nat n + 2 <= maxNestingDepth -> utf8 role -> qs <> [] ->
  Forall2 (part_speaks n) qs ps -> marshal_slice part_json qs = Some content -> heard_as (S (S n)) [message_item role content] [Say role ps].
Proof. intros Hn Hr Hne Hq Hm. apply heard_one. intros Hp. by eapply message_speaks. Qed.

Lemma parts_marshalled n role qs : Z.of_nat n + 2 <= maxNestingDepth -> Forall (part_plain n) qs -> qs <> [] ->
  exists t, marshal_slice part_json qs = Some t /\ item_plain (S (S n)) (message_item role t).
Proof.
  intros Hn Hp Hne. destruct (marshal_parts n Hn qs Hp Hne) as (t & Ht & Hr & _). exists t. split; [done|].
  by repeat split; right.
Qed.

End ResponsesWire.
