(* ===== verification/ResToAnth.v ===== *)
(** * ResToAnth: Responses answers and streams as Anthropic Messages

    Models [src/backend/internal/pkg/apicompat/responses_to_anthropic.go]: the
    non-streaming conversion [ResponsesToAnthropic] and the stateful stream
    converter [ResponsesEventToAnthropicEvents] with its finalizer.  A handler
    mutates the state it is given and returns the events to send: here it maps
    a state to the events and the next state.  The [strings.Builder] behind
    each entry of [textByPart] is owned by its entry, so the map holds its
    contents.  Token counts are 64-bit; the block index counts the blocks of
    one answer and is not bounded. *)

From S2P Require Import Prelude GoStrings Json ApicompatTypes.

Module ResToAnth.

(** ** Shared helpers *)

(** [fromResponsesCallID] strips the [fc_] prefix of old tool ids. *)
Definition fromResponsesCallID (id : string) : string :=
  let '(after, ok) := CutPrefix id "fc_" in
  if ok && (HasPrefix after "toolu_" || HasPrefix after "call_") then after else id.

Definition anthropicUsageFromResponsesUsage (usage : option ResponsesUsage) : AnthropicUsage :=
  match usage with
  | None => AnthropicUsage_zero
  | Some usage =>
      let cachedTokens := match ru_InputTokensDetails usage with Some d => rid_CachedTokens d | None => 0 end in
      let inputTokens := wrap64 (wrap64 (ru_InputTokens usage - cachedTokens) - ru_CacheCreationInputTokens usage) in
      let inputTokens := if inputTokens <? 0 then 0 else inputTokens in
      AnthropicUsage_zero
        <| au_InputTokens := inputTokens |>
        <| au_OutputTokens := ru_OutputTokens usage |>
        <| au_CacheReadInputTokens := cachedTokens |>
        <| au_CacheCreationInputTokens := ru_CacheCreationInputTokens usage |>
  end.

(** A member that is present and an empty JSON string is dropped from the
    arguments of the [Read] tool.  The members of a decoded object are valid
    JSON, so encoding the map again cannot fail. *)
Definition sanitizeAnthropicToolUseInput (name raw : string) : string :=
  if negb (name =s "Read") || (raw =s "") then raw
  else match Json.unmarshal_object raw with
  | None => raw
  | Some input =>
      match input !! "pages" with
      | Some pages =>
          if pages =s Json.sq "''" then Json.marshal_raw_map (delete "pages" input) else raw
      | None => raw
      end
  end.

(** [json.Marshal(map[string]string{"query": query})] and
    [json.Marshal([]struct{}{})]. *)
Definition query_json (query : string) : string := Json.sq "{'query':" +:+ Json.quote query +:+ "}".
Definition empty_results_json : string := "[]".

(** ** The non-streaming conversion *)

Definition containsAnthropicToolUseBlock (blocks : list AnthropicContentBlock) : bool :=
  existsb (fun b => cb_Type b =s "tool_use") blocks.

Definition responsesStatusToAnthropicStopReason (status : string)
    (details : option ResponsesIncompleteDetails) (blocks : list AnthropicContentBlock) : string :=
  if status =s "incomplete" then
    match details with
    | Some d => if rind_Reason d =s "max_output_tokens" then "max_tokens" else "end_turn"
    | None => "end_turn"
    end
  else if status =s "completed" then
    if containsAnthropicToolUseBlock blocks then "tool_use" else "end_turn"
  else "end_turn".

Definition summary_text (summary : list ResponsesSummary) : string :=
  fold_left (fun acc s => if (rs_Type s =s "summary_text") && negb (rs_Text s =s "") then acc +:+ rs_Text s else acc)
    summary "".

Definition web_search_query (item : ResponsesOutput) : string :=
  match ro_Action item with Some a => wsa_Query a | None => "" end.

Definition server_tool_use_block (item : ResponsesOutput) : AnthropicContentBlock :=
  AnthropicContentBlock_zero
    <| cb_Type := "server_tool_use" |> <| cb_ID := "srvtoolu_" +:+ ro_ID item |>
    <| cb_Name := "web_search" |> <| cb_Input := query_json (web_search_query item) |>.

Definition web_search_result_block (item : ResponsesOutput) : AnthropicContentBlock :=
  AnthropicContentBlock_zero
    <| cb_Type := "web_search_tool_result" |> <| cb_ToolUseID := "srvtoolu_" +:+ ro_ID item |>
    <| cb_Content := empty_results_json |>.

(** The body of the loop over [resp.Output]: the blocks one item appends. *)
Definition item_blocks (item : ResponsesOutput) : list AnthropicContentBlock :=
  if ro_Type item =s "reasoning" then
    let summaryText := summary_text (ro_Summary item) in
    if negb (summaryText =s "") || negb (TrimSpace (ro_EncryptedContent item) =s "")
    then [AnthropicContentBlock_zero <| cb_Type := "thinking" |> <| cb_Thinking := summaryText |>
            <| cb_Signature := ro_EncryptedContent item |>]
    else []
  else if ro_Type item =s "message" then
    flat_map (fun part =>
      if (rp_Type part =s "output_text") && negb (rp_Text part =s "")
      then [AnthropicContentBlock_zero <| cb_Type := "text" |> <| cb_Text := rp_Text part |>]
      else []) (ro_Content item)
  else if ro_Type item =s "function_call" then
    [AnthropicContentBlock_zero <| cb_Type := "tool_use" |> <| cb_ID := fromResponsesCallID (ro_CallID item) |>
       <| cb_Name := ro_Name item |>
       <| cb_Input := sanitizeAnthropicToolUseInput (ro_Name item) (ro_Arguments item) |>]
  else if ro_Type item =s "web_search_call" then
    [server_tool_use_block item; web_search_result_block item]
  else [].

Definition ResponsesToAnthropic (resp : ResponsesResponse) (model : string) : AnthropicResponse :=
  let blocks := flat_map item_blocks (rr_Output resp) in
  let blocks := match blocks with
                | [] => [AnthropicContentBlock_zero <| cb_Type := "text" |> <| cb_Text := "" |>]
                | _ => blocks
                end in
  let out := AnthropicResponse_zero
    <| ar_ID := rr_ID resp |> <| ar_Type := "message" |> <| ar_Role := "assistant" |> <| ar_Model := model |>
    <| ar_Content := blocks |>
    <| ar_StopReason := Some (responsesStatusToAnthropicStopReason (rr_Status resp) (rr_IncompleteDetails resp) blocks) |> in
  match rr_Usage resp with
  | Some _ => out <| ar_Usage := anthropicUsageFromResponsesUsage (rr_Usage resp) |>
  | None => out
  end.

(** ** The stream state *)

Record ResponsesEventToAnthropicState := State {
  MessageStartSent : bool;
  MessageStopSent : bool;
  ContentBlockIndex : Z;
  ContentBlockOpen : bool;
  CurrentBlockType : string;
  CurrentToolName : string;
  CurrentToolArgs : string;
  CurrentToolHadDelta : bool;
  PendingThinkingSignature : string;
  HasToolCall : bool;
  OutputIndexToBlockIdx : gmap Z Z;
  textByPart : gmap (Z * Z) string;
  textDelivered : bool;
  InputTokens : Z;
  OutputTokens : Z;
  CacheReadInputTokens : Z;
  CacheCreationInputTokens : Z;
  ResponseID : string;
  Model : string;
  Created : Z
}.
#[export] Instance state_struct : Struct ResponsesEventToAnthropicState := fun r =>
  State (MessageStartSent r) (MessageStopSent r) (ContentBlockIndex r) (ContentBlockOpen r)
    (CurrentBlockType r) (CurrentToolName r) (CurrentToolArgs r) (CurrentToolHadDelta r)
    (PendingThinkingSignature r) (HasToolCall r) (OutputIndexToBlockIdx r) (textByPart r)
    (textDelivered r) (InputTokens r) (OutputTokens r) (CacheReadInputTokens r)
    (CacheCreationInputTokens r) (ResponseID r) (Model r) (Created r).

(** [time.Now().Unix()] is the argument. *)
Definition NewResponsesEventToAnthropicState (now : Z) : ResponsesEventToAnthropicState :=
  State false false 0 false "" "" "" false "" false ∅ ∅ false 0 0 0 0 "" "" now.

Abbreviation state := ResponsesEventToAnthropicState (only parsing).
Abbreviation reply := (list AnthropicStreamEvent * ResponsesEventToAnthropicState)%type (only parsing).

Definition block_start (idx : Z) (b : AnthropicContentBlock) : AnthropicStreamEvent :=
  AnthropicStreamEvent_zero <| ae_Type := "content_block_start" |> <| ae_Index := Some idx |> <| ae_ContentBlock := Some b |>.
Definition block_delta (idx : Z) (d : AnthropicDelta) : AnthropicStreamEvent :=
  AnthropicStreamEvent_zero <| ae_Type := "content_block_delta" |> <| ae_Index := Some idx |> <| ae_Delta := Some d |>.
Definition block_stop (idx : Z) : AnthropicStreamEvent :=
  AnthropicStreamEvent_zero <| ae_Type := "content_block_stop" |> <| ae_Index := Some idx |>.

(** ** The handlers *)

Definition closeCurrentBlock (st : state) : reply :=
  if negb (ContentBlockOpen st) then ([], st)
  else
    let idx := ContentBlockIndex st in
    let '(events, st) :=
      if CurrentBlockType st =s "thinking" then
        let sig := TrimSpace (PendingThinkingSignature st) in
        (if negb (sig =s "")
         then [block_delta idx (AnthropicDelta_zero <| ad_Type := "signature_delta" |> <| ad_Signature := sig |>)]
         else [], st <| PendingThinkingSignature := "" |>)
      else ([], st) in
    let st := st <| ContentBlockOpen := false |> <| ContentBlockIndex := ContentBlockIndex st + 1 |>
                 <| CurrentToolName := "" |> <| CurrentToolArgs := "" |> <| CurrentToolHadDelta := false |> in
    (events ++ [block_stop idx], st).

Definition resToAnthHandleCreated (evt : ResponsesStreamEvent) (st : state) : reply :=
  let st :=
    match re_Response evt with
    | Some r =>
        let st := st <| ResponseID := rr_ID r |> in
        if Model st =s "" then st <| Model := rr_Model r |> else st
    | None => st
    end in
  if MessageStartSent st then ([], st)
  else
    let st := st <| MessageStartSent := true |> in
    ([AnthropicStreamEvent_zero <| ae_Type := "message_start" |>
        <| ae_Message := Some (AnthropicResponse_zero <| ar_ID := ResponseID st |> <| ar_Type := "message" |>
             <| ar_Role := "assistant" |> <| ar_Content := [] |> <| ar_Model := Model st |> <| ar_StopReason := None |>) |>],
     st).

Definition resToAnthHandleOutputItemAdded (evt : ResponsesStreamEvent) (st : state) : reply :=
  match re_Item evt with
  | None => ([], st)
  | Some item =>
      if (ro_Type item =s "function_call") || (ro_Type item =s "custom_tool_call") then
        let '(events, st) := closeCurrentBlock st in
        let idx := ContentBlockIndex st in
        let st := st <| OutputIndexToBlockIdx := <[re_OutputIndex evt := idx]> (OutputIndexToBlockIdx st) |>
                     <| ContentBlockOpen := true |> <| CurrentBlockType := "tool_use" |>
                     <| CurrentToolName := ro_Name item |> <| CurrentToolArgs := "" |>
                     <| CurrentToolHadDelta := false |> <| HasToolCall := true |> in
        (events ++ [block_start idx (AnthropicContentBlock_zero <| cb_Type := "tool_use" |>
                      <| cb_ID := fromResponsesCallID (ro_CallID item) |> <| cb_Name := ro_Name item |>
                      <| cb_Input := "{}" |>)], st)
      else if ro_Type item =s "reasoning" then
        let '(events, st) := closeCurrentBlock st in
        let idx := ContentBlockIndex st in
        let st := st <| OutputIndexToBlockIdx := <[re_OutputIndex evt := idx]> (OutputIndexToBlockIdx st) |>
                     <| ContentBlockOpen := true |> <| CurrentBlockType := "thinking" |>
                     <| PendingThinkingSignature := TrimSpace (ro_EncryptedContent item) |> in
        (events ++ [block_start idx (AnthropicContentBlock_zero <| cb_Type := "thinking" |> <| cb_Thinking := "" |>)], st)
      else ([], st)
  end.

Definition resToAnthTextPartOf (evt : ResponsesStreamEvent) : Z * Z := (re_OutputIndex evt, re_ContentIndex evt).

Definition text_delta (idx : Z) (text : string) : AnthropicStreamEvent :=
  block_delta idx (AnthropicDelta_zero <| ad_Type := "text_delta" |> <| ad_Text := text |>).

(** The first half of [resToAnthEmitText]: a text block is open afterwards. *)
Definition open_text_block (st : state) : reply :=
  if negb (ContentBlockOpen st) || negb (CurrentBlockType st =s "text") then
    let '(events, st) := closeCurrentBlock st in
    let idx := ContentBlockIndex st in
    let st := st <| ContentBlockOpen := true |> <| CurrentBlockType := "text" |> in
    (events ++ [block_start idx (AnthropicContentBlock_zero <| cb_Type := "text" |> <| cb_Text := "" |>)], st)
  else ([], st).

Definition resToAnthEmitText (text : string) (part : Z * Z) (st : state) : reply :=
  if text =s "" then ([], st)
  else
    let '(events, st) := open_text_block st in
    let delivered := default "" (textByPart st !! part) in
    let st := st <| textByPart := <[part := delivered +:+ text]> (textByPart st) |> <| textDelivered := true |> in
    (events ++ [text_delta (ContentBlockIndex st) text], st).

Definition resToAnthRecoverText (text : string) (part : Z * Z) (st : state) : reply :=
  let known := textByPart st !! part in
  if negb (bool_decide (is_Some known)) && textDelivered st then ([], st)
  else
    let delivered := default "" known in
    if (text =s delivered) || negb (HasPrefix text delivered) then ([], st)
    else resToAnthEmitText (str_drop (String.length delivered) text) part st.

Definition resToAnthHandleTextDelta (evt : ResponsesStreamEvent) (st : state) : reply :=
  resToAnthEmitText (re_Delta evt) (resToAnthTextPartOf evt) st.

Definition resToAnthHandleBlockDone (st : state) : reply :=
  if negb (ContentBlockOpen st) then ([], st) else closeCurrentBlock st.

Definition resToAnthHandleTextDone (evt : ResponsesStreamEvent) (st : state) : reply :=
  if MessageStopSent st then resToAnthHandleBlockDone st
  else
    let '(events, st) := resToAnthRecoverText (re_Text evt) (resToAnthTextPartOf evt) st in
    let '(events', st) := resToAnthHandleBlockDone st in
    (events ++ events', st).

Definition input_json_delta (idx : Z) (json : string) : AnthropicStreamEvent :=
  block_delta idx (AnthropicDelta_zero <| ad_Type := "input_json_delta" |> <| ad_PartialJSON := json |>).

Definition resToAnthHandleFuncArgsDelta (evt : ResponsesStreamEvent) (st : state) : reply :=
  if re_Delta evt =s "" then ([], st)
  else if (CurrentBlockType st =s "tool_use") && (CurrentToolName st =s "Read") then
    let st := st <| CurrentToolArgs := CurrentToolArgs st +:+ re_Delta evt |> in
    if CurrentToolHadDelta st || negb (Json.Valid (CurrentToolArgs st)) then ([], st)
    else match OutputIndexToBlockIdx st !! re_OutputIndex evt with
    | None => ([], st)
    | Some blockIdx =>
        let st := st <| CurrentToolHadDelta := true |> in
        ([input_json_delta blockIdx (sanitizeAnthropicToolUseInput (CurrentToolName st) (CurrentToolArgs st))], st)
    end
  else
    let st := if CurrentBlockType st =s "tool_use" then st <| CurrentToolHadDelta := true |> else st in
    match OutputIndexToBlockIdx st !! re_OutputIndex evt with
    | None => ([], st)
    | Some blockIdx => ([input_json_delta blockIdx (re_Delta evt)], st)
    end.

Definition resToAnthHandleFuncArgsDone (evt : ResponsesStreamEvent) (st : state) : reply :=
  if negb (ContentBlockOpen st) then ([], st)
  else if negb (CurrentBlockType st =s "tool_use") then resToAnthHandleBlockDone st
  else
    let raw := if re_Arguments evt =s "" then CurrentToolArgs st else re_Arguments evt in
    if (raw =s "") || CurrentToolHadDelta st then closeCurrentBlock st
    else
      let sanitized := if CurrentToolName st =s "Read"
                       then sanitizeAnthropicToolUseInput (CurrentToolName st) raw else raw in
      if (CurrentToolName st =s "Read") && (len sanitized =? 0) then closeCurrentBlock st
      else
        let blockIdx := default (ContentBlockIndex st) (OutputIndexToBlockIdx st !! re_OutputIndex evt) in
        if negb (ContentBlockOpen st) || negb (blockIdx =? ContentBlockIndex st) then ([], st)
        else
          let '(events, st) := closeCurrentBlock st in
          ([input_json_delta blockIdx sanitized] ++ events, st).

Definition resToAnthHandleReasoningDelta (evt : ResponsesStreamEvent) (st : state) : reply :=
  if re_Delta evt =s "" then ([], st)
  else match OutputIndexToBlockIdx st !! re_OutputIndex evt with
  | None => ([], st)
  | Some blockIdx =>
      ([block_delta blockIdx (AnthropicDelta_zero <| ad_Type := "thinking_delta" |> <| ad_Thinking := re_Delta evt |>)], st)
  end.

Definition resToAnthHandleWebSearchDone (item : ResponsesOutput) (st : state) : reply :=
  let '(events, st) := closeCurrentBlock st in
  let idx1 := ContentBlockIndex st in
  let events := events ++ [block_start idx1 (server_tool_use_block item); block_stop idx1] in
  let st := st <| ContentBlockIndex := ContentBlockIndex st + 1 |> in
  let idx2 := ContentBlockIndex st in
  let events := events ++ [block_start idx2 (web_search_result_block item); block_stop idx2] in
  (events, st <| ContentBlockIndex := ContentBlockIndex st + 1 |>).

Definition resToAnthHandleOutputItemDone (evt : ResponsesStreamEvent) (st : state) : reply :=
  match re_Item evt with
  | None => ([], st)
  | Some item =>
      if (ro_Type item =s "web_search_call") && (ro_Status item =s "completed")
      then resToAnthHandleWebSearchDone item st
      else
        let st :=
          if ro_Type item =s "reasoning" then
            let sig := TrimSpace (ro_EncryptedContent item) in
            if negb (sig =s "") then st <| PendingThinkingSignature := sig |> else st
          else st in
        if ContentBlockOpen st then closeCurrentBlock st else ([], st)
  end.

(** The output_text parts of a terminal response in order, each with the part
    it is recorded under: its position in [Output] and in the item. *)
Definition terminal_texts (output : list ResponsesOutput) : list ((Z * Z) * string) :=
  flat_map (fun '(outputIndex, item) =>
    if ro_Type item =s "message" then
      flat_map (fun '(contentIndex, content) =>
        if rp_Type content =s "output_text"
        then [((Z.of_nat outputIndex, Z.of_nat contentIndex), rp_Text content)] else [])
        (imap pair (ro_Content item))
    else []) (imap pair output).

Fixpoint emit_texts (texts : list ((Z * Z) * string)) (st : state) : reply :=
  match texts with
  | [] => ([], st)
  | (part, text) :: texts =>
      let '(events, st) := resToAnthEmitText text part st in
      let '(events', st) := emit_texts texts st in
      (events ++ events', st)
  end.

Definition resToAnthRecoverTerminalText (evt : ResponsesStreamEvent) (st : state) : reply :=
  match re_Response evt with
  | None => ([], st)
  | Some r =>
      if textDelivered st then ([], st)
      else
        let '(events, st) := emit_texts (terminal_texts (rr_Output r)) st in
        match events with
        | [] => (events, st)
        | _ => let '(events', st) := closeCurrentBlock st in (events ++ events', st)
        end
  end.

(** The pair of events that ends a message. *)
Definition termination_events (stopReason : string) (st : state) : list AnthropicStreamEvent :=
  [AnthropicStreamEvent_zero <| ae_Type := "message_delta" |>
     <| ae_Delta := Some (AnthropicDelta_zero <| ad_StopReason := stopReason |>) |>
     <| ae_Usage := Some (AnthropicUsage_zero <| au_InputTokens := InputTokens st |>
          <| au_OutputTokens := OutputTokens st |> <| au_CacheReadInputTokens := CacheReadInputTokens st |>
          <| au_CacheCreationInputTokens := CacheCreationInputTokens st |>) |>;
   AnthropicStreamEvent_zero <| ae_Type := "message_stop" |>].

Definition record_usage (usage : option ResponsesUsage) (st : state) : state :=
  match usage with
  | None => st
  | Some _ =>
      let u := anthropicUsageFromResponsesUsage usage in
      st <| InputTokens := au_InputTokens u |> <| OutputTokens := au_OutputTokens u |>
         <| CacheReadInputTokens := au_CacheReadInputTokens u |>
         <| CacheCreationInputTokens := au_CacheCreationInputTokens u |>
  end.

Definition completed_stop_reason (evt : ResponsesStreamEvent) (st : state) : string :=
  match re_Response evt with
  | None => "end_turn"
  | Some r =>
      if rr_Status r =s "incomplete" then
        match rr_IncompleteDetails r with
        | Some d => if rind_Reason d =s "max_output_tokens" then "max_tokens" else "end_turn"
        | None => "end_turn"
        end
      else if rr_Status r =s "completed" then (if HasToolCall st then "tool_use" else "end_turn")
      else "end_turn"
  end.

Definition resToAnthHandleCompleted (evt : ResponsesStreamEvent) (st : state) : reply :=
  if MessageStopSent st then ([], st)
  else
    let '(events1, st) := closeCurrentBlock st in
    let '(events2, st) := resToAnthRecoverTerminalText evt st in
    let st := record_usage (re_Usage evt) st in
    let st := match re_Response evt with Some r => record_usage (rr_Usage r) st | None => st end in
    (events1 ++ events2 ++ termination_events (completed_stop_reason evt st) st,
     st <| MessageStopSent := true |>).

Definition is_terminal (t : string) : bool :=
  (t =s "response.completed") || (t =s "response.done") || (t =s "response.incomplete") || (t =s "response.failed").

Definition ResponsesEventToAnthropicEvents (evt : ResponsesStreamEvent) (st : state) : reply :=
  let t := re_Type evt in
  if t =s "response.created" then resToAnthHandleCreated evt st
  else if t =s "response.output_item.added" then resToAnthHandleOutputItemAdded evt st
  else if t =s "response.output_text.delta" then resToAnthHandleTextDelta evt st
  else if t =s "response.output_text.done" then resToAnthHandleTextDone evt st
  else if (t =s "response.function_call_arguments.delta") || (t =s "response.custom_tool_call_input.delta")
  then resToAnthHandleFuncArgsDelta evt st
  else if t =s "response.function_call_arguments.done" then resToAnthHandleFuncArgsDone evt st
  else if t =s "response.output_item.done" then resToAnthHandleOutputItemDone evt st
  else if (t =s "response.reasoning_summary_text.delta") || (t =s "response.reasoning_text.delta")
  then resToAnthHandleReasoningDelta evt st
  else if t =s "response.reasoning_summary_text.done" then ([], st)
  else if is_terminal t then resToAnthHandleCompleted evt st
  else ([], st).

Definition FinalizeResponsesAnthropicStream (st : state) : reply :=
  if negb (MessageStartSent st) || MessageStopSent st then ([], st)
  else
    let '(events, st) := closeCurrentBlock st in
    let stopReason := if HasToolCall st then "tool_use" else "end_turn" in
    (events ++ termination_events stopReason st, st <| MessageStopSent := true |>).

(** The events sent for a sequence of upstream events. *)
Fixpoint convert (evts : list ResponsesStreamEvent) (st : state) : reply :=
  match evts with
  | [] => ([], st)
  | evt :: evts =>
      let '(events, st) := ResponsesEventToAnthropicEvents evt st in
      let '(events', st) := convert evts st in
      (events ++ events', st)
  end.

(** ** The protocol of the events sent

    What an Anthropic client may assume of a message stream, as a monitor: the
    content blocks are numbered 0, 1, 2, ... and never overlap; a text or
    signature delta belongs to the open block of its type, any other delta to
    a block that was started; [message_start] is sent once; a message ends
    once, with no block open. *)

Record monitor := Monitor {
  m_next : Z;                (* index of the open or next block *)
  m_open : option string;    (* type of the open block *)
  m_started : bool;
  m_stopped : bool
}.

Definition monitor_start : monitor := Monitor 0 None false false.

Definition delta_allowed (m : monitor) (idx : Z) (d : AnthropicDelta) : bool :=
  if ad_Type d =s "text_delta" then (idx =? m_next m) && bool_decide (m_open m = Some "text")
  else if ad_Type d =s "signature_delta" then (idx =? m_next m) && bool_decide (m_open m = Some "thinking")
  else (0 <=? idx) && ((idx <? m_next m) || ((idx =? m_next m) && bool_decide (is_Some (m_open m)))).

Definition monitor_step (m : monitor) (e : AnthropicStreamEvent) : option monitor :=
  let t := ae_Type e in
  if t =s "content_block_start" then
    match ae_Index e, ae_ContentBlock e, m_open m with
    | Some idx, Some b, None => if idx =? m_next m then Some (Monitor idx (Some (cb_Type b)) (m_started m) (m_stopped m)) else None
    | _, _, _ => None
    end
  else if t =s "content_block_stop" then
    match ae_Index e, m_open m with
    | Some idx, Some _ => if idx =? m_next m then Some (Monitor (idx + 1) None (m_started m) (m_stopped m)) else None
    | _, _ => None
    end
  else if t =s "content_block_delta" then
    match ae_Index e, ae_Delta e with
    | Some idx, Some d => if delta_allowed m idx d then Some m else None
    | _, _ => None
    end
  else if t =s "message_start" then
    if m_started m then None else Some (Monitor (m_next m) (m_open m) true (m_stopped m))
  else if t =s "message_delta" then
    match m_open m with None => if m_stopped m then None else Some m | Some _ => None end
  else if t =s "message_stop" then
    match m_open m with
    | None => if m_stopped m then None else Some (Monitor (m_next m) None (m_started m) true)
    | Some _ => None
    end
  else None.

Fixpoint monitor_run (m : monitor) (es : list AnthropicStreamEvent) : option monitor :=
  match es with
  | [] => Some m
  | e :: es => match monitor_step m e with Some m' => monitor_run m' es | None => None end
  end.

Lemma monitor_run_app m es es' :
  monitor_run m (es ++ es') = match monitor_run m es with Some m' => monitor_run m' es' | None => None end.
Proof. revert m. induction es as [|e es IH]; intros m; simpl; [done|]. case_match; auto. Qed.

Lemma monitor_block_start i s p b :
  monitor_step (Monitor i None s p) (block_start i b) = Some (Monitor i (Some (cb_Type b)) s p).
Proof. unfold monitor_step. simpl. by rewrite Z.eqb_refl. Qed.

Lemma monitor_block_stop i t s p :
  monitor_step (Monitor i (Some t) s p) (block_stop i) = Some (Monitor (i + 1) None s p).
Proof. unfold monitor_step. simpl. by rewrite Z.eqb_refl. Qed.

Lemma monitor_block_delta m i d :
  monitor_step m (block_delta i d) = if delta_allowed m i d then Some m else None.
Proof. reflexivity. Qed.

(** The monitor state the converter state stands for. *)
Definition mon_of (st : state) : monitor :=
  Monitor (ContentBlockIndex st) (if ContentBlockOpen st then Some (CurrentBlockType st) else None)
    (MessageStartSent st) (MessageStopSent st).

(** Every recorded block index has been started. *)
Definition started (st : state) (i : Z) : Prop :=
  0 <= i /\ (i < ContentBlockIndex st \/ (i = ContentBlockIndex st /\ ContentBlockOpen st = true)).

Definition inv (st : state) : Prop :=
  0 <= ContentBlockIndex st /\ map_Forall (fun _ i => started st i) (OutputIndexToBlockIdx st).

(** A reply that keeps the protocol. *)
Definition proper (st : state) (r : reply) : Prop :=
  monitor_run (mon_of st) (fst r) = Some (mon_of (snd r)) /\ inv (snd r).

Lemma proper_nil st : inv st -> proper st ([], st).
Proof. done. Qed.

Lemma proper_app st es st' es' st'' :
  proper st (es, st') -> proper st' (es', st'') -> proper st (es ++ es', st'').
Proof. intros [H1 _] [H2 H3]. split; [|done]. simpl in *. by rewrite monitor_run_app, H1. Qed.

(** Only these fields matter to the protocol. *)
Definition proto (st : state) := (mon_of st, OutputIndexToBlockIdx st).

Lemma proper_ext st es st' st'' : proto st' = proto st'' -> proper st (es, st') -> proper st (es, st'').
Proof.
  unfold proto, proper, inv, started, mon_of. simpl. intros Hp [H1 H2].
  injection Hp as Hi Hop Hs Hst Ho. rewrite <- Hi, <- Ho, <- Hs, <- Hst.
  destruct (ContentBlockOpen st'), (ContentBlockOpen st''); simplify_eq; eauto.
  rewrite Hop in H1. eauto.
Qed.

Lemma proper_ext_l st0 st r : proto st0 = proto st -> proper st0 r -> proper st r.
Proof.
  unfold proto, proper. intros Hp [H1 H2]. injection Hp as Hi Hop Hs Hst Ho. split; [|done].
  rewrite <- H1. unfold mon_of. congruence.
Qed.

Lemma inv_ext st st' : proto st = proto st' -> inv st -> inv st'.
Proof. intros Hp Hi. exact (proj2 (proper_ext st [] st st' Hp (proper_nil st Hi))). Qed.

(** *** Closing a block *)

Definition close_events (st : state) : list AnthropicStreamEvent :=
  if ContentBlockOpen st then
    (if (CurrentBlockType st =s "thinking") && negb (TrimSpace (PendingThinkingSignature st) =s "")
     then [block_delta (ContentBlockIndex st) (AnthropicDelta_zero <| ad_Type := "signature_delta" |>
             <| ad_Signature := TrimSpace (PendingThinkingSignature st) |>)] else [])
    ++ [block_stop (ContentBlockIndex st)]
  else [].

Definition closed (st : state) : state := snd (closeCurrentBlock st).

Lemma close_eq st : closeCurrentBlock st = (close_events st, closed st).
Proof.
  unfold closed, closeCurrentBlock, close_events. destruct (ContentBlockOpen st); [|done]. simpl.
  destruct (CurrentBlockType st =s "thinking"); [|done]. by destruct (TrimSpace _ =s "").
Qed.

Lemma closed_open st : ContentBlockOpen (closed st) = false.
Proof. unfold closed, closeCurrentBlock. destruct (ContentBlockOpen st) eqn:E; simpl; [branches | done]. Qed.

Lemma closed_index st : ContentBlockIndex (closed st) = ContentBlockIndex st + Z.b2z (ContentBlockOpen st).
Proof. unfold closed, closeCurrentBlock. destruct (ContentBlockOpen st) eqn:E; simpl; [branches | lia]. Qed.

(** The fields closing a block leaves alone. *)
Lemma closed_frame st :
  OutputIndexToBlockIdx (closed st) = OutputIndexToBlockIdx st /\ textByPart (closed st) = textByPart st /\
  textDelivered (closed st) = textDelivered st /\ MessageStartSent (closed st) = MessageStartSent st /\
  MessageStopSent (closed st) = MessageStopSent st /\ HasToolCall (closed st) = HasToolCall st.
Proof.
  unfold closed, closeCurrentBlock.
  destruct (ContentBlockOpen st), (CurrentBlockType st =s "thinking"); split_and!; reflexivity.
Qed.

Lemma close_proper st : inv st -> proper st (close_events st, closed st).
Proof.
  intros [Hi Hm]. pose proof (closed_open st) as Ho. pose proof (closed_index st) as Hx.
  destruct (closed_frame st) as (F1 & _ & _ & F4 & F5 & _). split; simpl.
  - unfold mon_of. rewrite Ho, Hx, F4, F5. unfold close_events.
    destruct (ContentBlockOpen st); simpl; [|do 2 f_equal; lia].
    case_match eqn:E; simpl; [|by rewrite monitor_block_stop].
    apply andb_true_iff in E as [E _]. apply String.eqb_eq in E. rewrite E, monitor_block_delta.
    unfold delta_allowed. simpl. rewrite Z.eqb_refl. simpl. by rewrite monitor_block_stop.
  - unfold inv. rewrite F1, Hx. split; [destruct (ContentBlockOpen st); simpl; lia|].
    eapply map_Forall_impl; [exact Hm|]. intros k i [? ?]. unfold started. rewrite Hx.
    destruct (ContentBlockOpen st); simpl; intuition lia.
Qed.

(** Starting the next block when none is open. *)
Lemma start_proper st st' b :
  inv st -> ContentBlockOpen st = false ->
  mon_of st' = Monitor (ContentBlockIndex st) (Some (cb_Type b)) (MessageStartSent st) (MessageStopSent st) ->
  map_Forall (fun _ i => started st i \/ i = ContentBlockIndex st) (OutputIndexToBlockIdx st') ->
  proper st ([block_start (ContentBlockIndex st) b], st').
Proof.
  intros [Hi Hm] Ho Hmon Hf. split; simpl.
  - unfold mon_of at 1. by rewrite Ho, monitor_block_start, Hmon.
  - unfold mon_of in Hmon. injection Hmon as Hi' Hop _ _. unfold inv, started in *. rewrite Hi'. split; [done|].
    eapply map_Forall_impl; [exact Hf|]. rewrite Ho. destruct (ContentBlockOpen st'); [|done]. simpl. intuition lia.
Qed.

Lemma resToAnthHandleCreated_proper evt st : inv st -> proper st (resToAnthHandleCreated evt st).
Proof.
  intros H. unfold resToAnthHandleCreated.
  set (st1 := match re_Response evt with Some _ => _ | None => _ end).
  assert (Hp : proto st = proto st1) by (subst st1; branches).
  apply (proper_ext_l st1); [done|]. apply (inv_ext _ _ Hp) in H. clearbody st1.
  case_match eqn:E; [by apply proper_nil|]. split; [|exact H]. unfold mon_of. rewrite E. reflexivity.
Qed.

Lemma added_proper evt st st' b :
  inv st -> ContentBlockOpen st' = true -> ContentBlockIndex st' = ContentBlockIndex (closed st) ->
  CurrentBlockType st' = cb_Type b -> MessageStartSent st' = MessageStartSent st ->
  MessageStopSent st' = MessageStopSent st ->
  OutputIndexToBlockIdx st' = <[re_OutputIndex evt := ContentBlockIndex (closed st)]> (OutputIndexToBlockIdx st) ->
  proper st (close_events st ++ [block_start (ContentBlockIndex (closed st)) b], st').
Proof.
  intros Hi H1 H2 H3 H4 H5 H6. eapply proper_app; [by apply close_proper|].
  pose proof (proj2 (close_proper st Hi)) as Hc. destruct (closed_frame st) as (F1 & _ & _ & F4 & F5 & _).
  apply start_proper; [done | apply closed_open | |].
  - unfold mon_of. rewrite H1, H2, H3, H4, H5, F4, F5. done.
  - rewrite H6. apply map_Forall_insert_2; [by right|]. destruct Hc as [_ Hc]. simpl in Hc. rewrite F1 in Hc.
    eapply map_Forall_impl; [exact Hc|]. eauto.
Qed.

Lemma resToAnthHandleOutputItemAdded_proper evt st : inv st -> proper st (resToAnthHandleOutputItemAdded evt st).
Proof.
  intros Hi. unfold resToAnthHandleOutputItemAdded. rewrite close_eq.
  destruct (closed_frame st) as (F1 & _ & _ & F4 & F5 & _).
  destruct (re_Item evt) as [item|]; [|by apply proper_nil].
  destruct ((ro_Type item =s "function_call") || _).
  { apply (added_proper evt); simpl; congruence. }
  destruct (ro_Type item =s "reasoning"); [|by apply proper_nil].
  apply (added_proper evt); simpl; congruence.
Qed.

Lemma open_text_block_proper st :
  inv st -> proper st (open_text_block st) /\
  ContentBlockOpen (snd (open_text_block st)) = true /\ CurrentBlockType (snd (open_text_block st)) = "text".
Proof.
  intros Hi. unfold open_text_block. rewrite close_eq.
  destruct (negb (ContentBlockOpen st) || negb (CurrentBlockType st =s "text")) eqn:E; split_and!; try done.
  - eapply proper_app; [by apply close_proper|]. pose proof (proj2 (close_proper st Hi)) as Hc.
    apply start_proper; [done | apply closed_open | done |].
    eapply map_Forall_impl; [exact (proj2 Hc)|]. eauto.
  - simpl. destruct (ContentBlockOpen st); [done | discriminate].
  - simpl. apply orb_false_iff in E as [_ E]. apply negb_false_iff in E. by apply String.eqb_eq in E.
Qed.

Lemma resToAnthEmitText_proper text part st : inv st -> proper st (resToAnthEmitText text part st).
Proof.
  intros Hi. unfold resToAnthEmitText. destruct (text =s ""); [by apply proper_nil|].
  destruct (open_text_block_proper st Hi) as (Hp & Ho & Ht). destruct (open_text_block st) as [es st1]. simpl in *.
  eapply proper_app; [exact Hp|]. eapply (proper_ext _ _ st1); [done|]. split; [|exact (proj2 Hp)].
  simpl. unfold text_delta. rewrite monitor_block_delta. unfold mon_of, delta_allowed. rewrite Ho, Ht. simpl.
  by rewrite Z.eqb_refl.
Qed.

Lemma resToAnthRecoverText_proper text part st : inv st -> proper st (resToAnthRecoverText text part st).
Proof.
  intros Hi. unfold resToAnthRecoverText.
  case_match; [by apply proper_nil|]. case_match; [by apply proper_nil | by apply resToAnthEmitText_proper].
Qed.

Lemma resToAnthHandleBlockDone_proper st : inv st -> proper st (resToAnthHandleBlockDone st).
Proof.
  intros Hi. unfold resToAnthHandleBlockDone. rewrite close_eq.
  case_match; [by apply proper_nil | by apply close_proper].
Qed.

Lemma resToAnthHandleTextDone_proper evt st : inv st -> proper st (resToAnthHandleTextDone evt st).
Proof.
  intros Hi. unfold resToAnthHandleTextDone. destruct (MessageStopSent st); [by apply resToAnthHandleBlockDone_proper|].
  pose proof (resToAnthRecoverText_proper (re_Text evt) (resToAnthTextPartOf evt) st Hi) as Hp.
  destruct (resToAnthRecoverText _ _ st) as [es st1].
  pose proof (resToAnthHandleBlockDone_proper st1 (proj2 Hp)) as Hq.
  destruct (resToAnthHandleBlockDone st1). by eapply proper_app.
Qed.

(** A delta for a recorded block. *)
Lemma recorded_delta_proper st k i d :
  inv st -> OutputIndexToBlockIdx st !! k = Some i -> ad_Type d <> "text_delta" -> ad_Type d <> "signature_delta" ->
  proper st ([block_delta i d], st).
Proof.
  intros Hi Hk H1 H2. split; [|done]. simpl. rewrite monitor_block_delta. unfold delta_allowed.
  apply String.eqb_neq in H1, H2. rewrite H1, H2. destruct (proj2 Hi k i Hk) as [H0 Hs]. simpl.
  assert (E : (0 <=? i) && ((i <? ContentBlockIndex st) || ((i =? ContentBlockIndex st)
     && bool_decide (is_Some (if ContentBlockOpen st then Some (CurrentBlockType st) else None)))) = true); [|by rewrite E].
  destruct Hs as [Hs|[-> Ho]]; [lia|]. rewrite Ho, bool_decide_true by eauto. lia.
Qed.

Lemma resToAnthHandleFuncArgsDelta_proper evt st : inv st -> proper st (resToAnthHandleFuncArgsDelta evt st).
Proof.
  intros Hi. unfold resToAnthHandleFuncArgsDelta. case_match; [by apply proper_nil|]. case_match.
  - case_match; [by apply (proper_ext _ _ st)|]. case_match eqn:Ek; [|by apply (proper_ext _ _ st)].
    eapply (proper_ext _ _ st); [done|]. by eapply recorded_delta_proper.
  - set (st1 := if CurrentBlockType st =s "tool_use" then _ else _).
    assert (Hp : proto st = proto st1) by (subst st1; case_match; done).
    apply (proper_ext_l st1); [done|]. apply (inv_ext _ _ Hp) in Hi. clearbody st1.
    case_match eqn:Ek; [by eapply recorded_delta_proper | by apply proper_nil].
Qed.

Lemma resToAnthHandleFuncArgsDone_proper evt st : inv st -> proper st (resToAnthHandleFuncArgsDone evt st).
Proof.
  intros Hi. unfold resToAnthHandleFuncArgsDone. rewrite close_eq.
  destruct (ContentBlockOpen st) eqn:Ho; simpl; [|by apply proper_nil].
  case_match; [by apply resToAnthHandleBlockDone_proper|].
  generalize (if re_Arguments evt =s "" then CurrentToolArgs st else re_Arguments evt) as raw. intros raw.
  case_match; [by apply close_proper|].
  generalize (if CurrentToolName st =s "Read" then sanitizeAnthropicToolUseInput (CurrentToolName st) raw else raw) as san.
  intros san. case_match; [by apply close_proper|]. case_match eqn:Ei; [by apply proper_nil|].
  apply (proper_app _ [_] st); [|by apply close_proper].
  destruct (OutputIndexToBlockIdx st !! re_OutputIndex evt) eqn:Ek; simpl; [by eapply recorded_delta_proper|].
  split; [|done]. simpl. unfold input_json_delta. rewrite monitor_block_delta. unfold delta_allowed. simpl.
  rewrite Ho, bool_decide_true, Z.eqb_refl by eauto. destruct Hi as [Hi _].
  replace (0 <=? ContentBlockIndex st) with true by lia. by destruct (_ <? _).
Qed.

Lemma resToAnthHandleReasoningDelta_proper evt st : inv st -> proper st (resToAnthHandleReasoningDelta evt st).
Proof.
  intros Hi. unfold resToAnthHandleReasoningDelta. case_match; [by apply proper_nil|].
  case_match eqn:Ek; [by eapply recorded_delta_proper | by apply proper_nil].
Qed.

Lemma resToAnthHandleWebSearchDone_proper item st : inv st -> proper st (resToAnthHandleWebSearchDone item st).
Proof.
  intros Hi. unfold resToAnthHandleWebSearchDone. rewrite close_eq. pose proof (close_proper st Hi) as Hp.
  rewrite <- (app_assoc (close_events st)). eapply proper_app; [exact Hp|]. pose proof (proj2 Hp) as Hc. simpl in Hc.
  pose proof (closed_open st) as Ho. set (st1 := closed st) in *. clearbody st1. clear Hp Hi.
  split; simpl.
  - unfold mon_of. rewrite Ho. simpl. rewrite monitor_block_start, monitor_block_stop. simpl.
    by rewrite monitor_block_start, monitor_block_stop.
  - destruct Hc as [H1 H2]. unfold inv, started. simpl. split; [lia|]. eapply map_Forall_impl; [exact H2|].
    intros k i [? ?]. rewrite Ho in *. intuition lia.
Qed.

Lemma resToAnthHandleOutputItemDone_proper evt st : inv st -> proper st (resToAnthHandleOutputItemDone evt st).
Proof.
  intros Hi. unfold resToAnthHandleOutputItemDone. case_match eqn:Ei; [|by apply proper_nil].
  case_match; [by apply resToAnthHandleWebSearchDone_proper|].
  set (st1 := if ro_Type _ =s "reasoning" then _ else _).
  assert (Hp : proto st = proto st1) by (subst st1; repeat case_match; done).
  apply (proper_ext_l st1); [done|]. apply (inv_ext _ _ Hp) in Hi. clearbody st1.
  rewrite close_eq. case_match; [by apply close_proper | by apply proper_nil].
Qed.

Lemma emit_texts_proper texts st : inv st -> proper st (emit_texts texts st).
Proof.
  revert st. induction texts as [|[part text] texts IH]; intros st Hi; simpl; [by apply proper_nil|].
  pose proof (resToAnthEmitText_proper text part st Hi) as Hp. destruct (resToAnthEmitText text part st) as [es st1].
  pose proof (IH st1 (proj2 Hp)) as Hq. destruct (emit_texts texts st1). by eapply proper_app.
Qed.

Lemma resToAnthRecoverTerminalText_proper evt st : inv st -> proper st (resToAnthRecoverTerminalText evt st).
Proof.
  intros Hi. unfold resToAnthRecoverTerminalText. case_match; [|by apply proper_nil].
  case_match; [by apply proper_nil|]. pose proof (emit_texts_proper (terminal_texts (rr_Output r)) st Hi) as Hp.
  destruct (emit_texts _ st) as [es st1]. rewrite close_eq. destruct es; [done|].
  eapply proper_app; [exact Hp | by apply close_proper, (proj2 Hp)].
Qed.

(** The end of a message, with no block open. *)
Lemma termination_proper reason st0 st :
  inv st -> ContentBlockOpen st = false -> MessageStopSent st = false ->
  proper st (termination_events reason st0, st <| MessageStopSent := true |>).
Proof.
  intros Hi Ho Hs. split; [|exact Hi]. unfold mon_of. simpl. rewrite Ho, Hs. reflexivity.
Qed.

(** Recording the usage touches the token counts only. *)
Lemma record_usage_proto u st : proto (record_usage u st) = proto st.
Proof. by destruct u. Qed.

Lemma recovered_open evt st :
  ContentBlockOpen st = false -> ContentBlockOpen (snd (resToAnthRecoverTerminalText evt st)) = false.
Proof.
  intros Ho. unfold resToAnthRecoverTerminalText. case_match; [|done]. case_match; [done|].
  assert (He : fst (emit_texts (terminal_texts (rr_Output r)) st) = [] ->
     snd (emit_texts (terminal_texts (rr_Output r)) st) = st).
  { generalize (terminal_texts (rr_Output r)) as ts. clear. intros ts. revert st.
    induction ts as [|[part text] ts IH]; intros st; simpl; [done|].
    unfold resToAnthEmitText. destruct (text =s ""); simpl.
    - specialize (IH st). by destruct (emit_texts ts st).
    - destruct (open_text_block st) as [es st1]. destruct (emit_texts ts _). simpl. by destruct es. }
  destruct (emit_texts _ st) as [es st1]. rewrite close_eq. destruct es; simpl in *; [by rewrite He|].
  apply closed_open.
Qed.

Lemma recovered_stop evt st :
  MessageStopSent (snd (resToAnthRecoverTerminalText evt st)) = MessageStopSent st.
Proof.
  assert (He : forall text part st, MessageStopSent (snd (resToAnthEmitText text part st)) = MessageStopSent st).
  { clear. intros text part st. unfold resToAnthEmitText, open_text_block. rewrite close_eq.
    pose proof (closed_frame st). branches; intuition. }
  unfold resToAnthRecoverTerminalText. case_match; [|done]. case_match; [done|].
  assert (Hs : MessageStopSent (snd (emit_texts (terminal_texts (rr_Output r)) st)) = MessageStopSent st).
  { generalize (terminal_texts (rr_Output r)) as ts. clear -He. intros ts. revert st.
    induction ts as [|[part text] ts IH]; intros st; simpl; [done|].
    specialize (He text part st). destruct (resToAnthEmitText text part st) as [es st1]. specialize (IH st1).
    destruct (emit_texts ts st1). simpl in *. congruence. }
  destruct (emit_texts _ st) as [es st1]. rewrite close_eq. destruct es; [done|]. simpl in *.
  destruct (closed_frame st1) as (_ & _ & _ & _ & -> & _). done.
Qed.

Lemma resToAnthHandleCompleted_proper evt st : inv st -> proper st (resToAnthHandleCompleted evt st).
Proof.
  intros Hi. unfold resToAnthHandleCompleted. destruct (MessageStopSent st) eqn:Es; [by apply proper_nil|].
  rewrite close_eq. pose proof (close_proper st Hi) as Hp. pose proof (closed_open st) as Ho.
  destruct (closed_frame st) as (_ & _ & _ & _ & Hs & _). rewrite Es in Hs.
  pose proof (resToAnthRecoverTerminalText_proper evt (closed st) (proj2 Hp)) as Hq.
  pose proof (recovered_open evt (closed st) Ho) as Ho2. pose proof (recovered_stop evt (closed st)) as Hs2.
  destruct (resToAnthRecoverTerminalText evt (closed st)) as [es2 st2]. simpl in Ho2, Hs2.
  set (st3 := match re_Response evt with Some _ => _ | None => _ end).
  assert (E : proto st3 = proto st2).
  { subst st3. case_match; by rewrite ?record_usage_proto. }
  clearbody st3. eapply proper_app; [exact Hp|]. eapply proper_app; [exact Hq|].
  apply (proper_ext_l st3); [done|]. pose proof (inv_ext _ _ (eq_sym E) (proj2 Hq)) as Hi3.
  apply termination_proper; [done | |]; injection E; [intros _ _ _ H _ | intros _ H _ _ _].
  - rewrite Ho2 in H. by destruct (ContentBlockOpen st3).
  - congruence.
Qed.

Lemma converter_proper evt st : inv st -> proper st (ResponsesEventToAnthropicEvents evt st).
Proof.
  intros Hi. unfold ResponsesEventToAnthropicEvents.
  repeat (case_match;
    [first [by apply resToAnthHandleCreated_proper | by apply resToAnthHandleOutputItemAdded_proper
           | by apply resToAnthEmitText_proper | by apply resToAnthHandleTextDone_proper
           | by apply resToAnthHandleFuncArgsDelta_proper | by apply resToAnthHandleFuncArgsDone_proper
           | by apply resToAnthHandleOutputItemDone_proper | by apply resToAnthHandleReasoningDelta_proper
           | by apply resToAnthHandleCompleted_proper | by apply proper_nil] |]).
  by apply proper_nil.
Qed.

Lemma convert_proper evts st : inv st -> proper st (convert evts st).
Proof.
  revert st. induction evts as [|evt evts IH]; intros st Hi; simpl; [by apply proper_nil|].
  pose proof (converter_proper evt st Hi) as Hp. destruct (ResponsesEventToAnthropicEvents evt st) as [es st1].
  pose proof (IH st1 (proj2 Hp)) as Hq. destruct (convert evts st1). by eapply proper_app.
Qed.

Lemma finalize_proper st : inv st -> proper st (FinalizeResponsesAnthropicStream st).
Proof.
  intros Hi. unfold FinalizeResponsesAnthropicStream.
  destruct (negb (MessageStartSent st) || MessageStopSent st) eqn:E; [by apply proper_nil|].
  rewrite close_eq. eapply proper_app; [by apply close_proper|].
  apply termination_proper; [exact (proj2 (close_proper st Hi)) | apply closed_open |].
  destruct (closed_frame st) as (_ & _ & _ & _ & -> & _). apply orb_false_iff in E as [_ ->]. done.
Qed.

Lemma new_inv now : inv (NewResponsesEventToAnthropicState now).
Proof. split; [done | apply map_Forall_empty]. Qed.

(** C1: whatever the upstream sends, and in whatever order, the events sent to the
    client keep the block protocol: blocks are numbered consecutively from 0
    and never overlap, text and signature deltas go to the open block of their
    type, every other delta to a block that was started, [message_start] is
    sent at most once, and [message_delta] and [message_stop] are sent at most
    once, with no block open.  The converter's state is exactly the protocol
    state reached. *)
Theorem stream_well_bracketed now evts :
  let r := convert evts (NewResponsesEventToAnthropicState now) in
  monitor_run monitor_start (fst r) = Some (mon_of (snd r)) /\
  monitor_run monitor_start (fst r ++ fst (FinalizeResponsesAnthropicStream (snd r)))
    = Some (mon_of (snd (FinalizeResponsesAnthropicStream (snd r)))).
Proof.
  intros r. destruct (convert_proper evts _ (new_inv now)) as [H Hi]. fold r in H, Hi.
  destruct (finalize_proper _ Hi) as [Hf _]. rewrite monitor_run_app.
  change (mon_of (NewResponsesEventToAnthropicState now)) with monitor_start in H. rewrite H. auto.
Qed.

(** ** What each event delivers *)

(** The assistant text carried by a list of events. *)
Definition text_of (e : AnthropicStreamEvent) : string :=
  match ae_Delta e with
  | Some d => if ad_Type d =s "text_delta" then ad_Text d else ""
  | None => ""
  end.
Definition texts_of (es : list AnthropicStreamEvent) : string := foldr (fun e acc => text_of e +:+ acc) "" es.

Lemma texts_of_app es es' : texts_of (es ++ es') = texts_of es +:+ texts_of es'.
Proof. induction es as [|e es IH]; simpl; [done|]. by rewrite IH, str_app_assoc. Qed.

(** An event inside a message, as opposed to the pair that ends it. *)
Definition body_event (e : AnthropicStreamEvent) : Prop :=
  ae_Type e <> "message_delta" /\ ae_Type e <> "message_stop".

(** The reply carries the text [txt], which is recorded under [part]. *)
Definition delivers (st : state) (r : reply) (part : Z * Z) (txt : string) : Prop :=
  Forall body_event (fst r) /\ texts_of (fst r) = txt /\ MessageStopSent (snd r) = MessageStopSent st /\
  (if txt =s "" then textByPart (snd r) = textByPart st /\ textDelivered (snd r) = textDelivered st
   else textByPart (snd r) = <[part := default "" (textByPart st !! part) +:+ txt]> (textByPart st) /\
        textDelivered (snd r) = true).

Lemma delivers_nil st part : delivers st ([], st) part "".
Proof. repeat split. constructor. Qed.

Lemma delivers_quiet st es st' p q : delivers st (es, st') p "" -> delivers st (es, st') q "".
Proof. done. Qed.

Lemma delivers_then st es st1 es' st2 part txt :
  delivers st (es, st1) part "" -> delivers st1 (es', st2) part txt -> delivers st (es ++ es', st2) part txt.
Proof.
  unfold delivers. simpl. intros (H1 & H2 & H3 & H4 & H5) (G1 & G2 & G3 & G4).
  rewrite texts_of_app, H2, H3 in *. simpl. split_and!; [by apply Forall_app | done | done |].
  rewrite H4, H5 in G4. done.
Qed.

Lemma delivers_after st es st1 es' st2 part txt :
  delivers st (es, st1) part txt -> delivers st1 (es', st2) part "" -> delivers st (es ++ es', st2) part txt.
Proof.
  unfold delivers. simpl. intros (H1 & H2 & H3 & H4) (G1 & G2 & G3 & G4 & G5).
  rewrite texts_of_app, G2, str_app_nil_r. rewrite G3, G4, G5. split_and!; [by apply Forall_app | done | done | done].
Qed.

Lemma close_delivers st part : delivers st (close_events st, closed st) part "".
Proof.
  destruct (closed_frame st) as (_ & F2 & F3 & _ & F5 & _). unfold delivers. simpl. rewrite F2, F3, F5.
  split_and!; [|unfold close_events; branches|done|done|done].
  unfold close_events. branches; repeat constructor; discriminate.
Qed.

Ltac quiet :=
  repeat (rewrite ?close_eq; case_match); rewrite <- ?(app_assoc (close_events _));
  first [apply delivers_nil | apply close_delivers
        | match goal with |- delivers _ (close_events ?s, _) ?p _ => exact (close_delivers s p) end
        | by repeat split; repeat constructor
        | eapply delivers_then; [apply close_delivers | by repeat split; repeat constructor]
        | eapply (delivers_then _ [_]); [by repeat split; repeat constructor | apply close_delivers] ].

Lemma resToAnthEmitText_delivers text part st : delivers st (resToAnthEmitText text part st) part text.
Proof.
  unfold resToAnthEmitText. destruct (text =s "") eqn:E.
  { apply String.eqb_eq in E. subst. apply delivers_nil. }
  assert (H : delivers st (open_text_block st) part "").
  { unfold open_text_block. quiet. }
  destruct (open_text_block st) as [es st1]. eapply delivers_then; [exact H|].
  unfold delivers. rewrite E. simpl. rewrite str_app_nil_r. repeat split. repeat constructor; discriminate.
Qed.

(** The text an [output_text.done] event makes the converter send. *)
Definition recovered (text : string) (part : Z * Z) (st : state) : string :=
  let delivered := default "" (textByPart st !! part) in
  if (bool_decide (is_Some (textByPart st !! part)) || negb (textDelivered st)) && HasPrefix text delivered
  then str_drop (String.length delivered) text else "".

Lemma resToAnthRecoverText_delivers text part st :
  delivers st (resToAnthRecoverText text part st) part (recovered text part st).
Proof.
  unfold resToAnthRecoverText, recovered.
  destruct (bool_decide (is_Some (textByPart st !! part))), (textDelivered st); simpl; try apply delivers_nil;
    (destruct (HasPrefix text _) eqn:E; simpl; rewrite ?orb_true_r, ?orb_false_r; [|apply delivers_nil]);
    (destruct (text =s _) eqn:E'; [|apply resToAnthEmitText_delivers]);
    apply String.eqb_eq in E'; rewrite <- E'; rewrite str_drop_all; apply delivers_nil.
Qed.

(** The text one upstream event delivers, [terminal] events apart. *)
Definition delivered_by (evt : ResponsesStreamEvent) (st : state) : string :=
  if re_Type evt =s "response.output_text.delta" then re_Delta evt
  else if re_Type evt =s "response.output_text.done" then
    if MessageStopSent st then "" else recovered (re_Text evt) (resToAnthTextPartOf evt) st
  else "".

Lemma converter_delivers evt st :
  is_terminal (re_Type evt) = false ->
  delivers st (ResponsesEventToAnthropicEvents evt st) (resToAnthTextPartOf evt) (delivered_by evt st).
Proof.
  intros Ht. unfold ResponsesEventToAnthropicEvents, delivered_by. rewrite Ht.
  assert (B : forall st part, delivers st (resToAnthHandleBlockDone st) part "").
  { intros. unfold resToAnthHandleBlockDone. quiet. }
  destruct (re_Type evt =s "response.output_text.delta") eqn:E1.
  { apply String.eqb_eq in E1. rewrite E1. apply resToAnthEmitText_delivers. }
  destruct (re_Type evt =s "response.output_text.done") eqn:E2.
  { apply String.eqb_eq in E2. rewrite E2. simpl. unfold resToAnthHandleTextDone.
    destruct (MessageStopSent st); [apply B|].
    pose proof (resToAnthRecoverText_delivers (re_Text evt) (resToAnthTextPartOf evt) st) as H.
    destruct (resToAnthRecoverText _ _ st) as [es st1]. specialize (B st1 (resToAnthTextPartOf evt)).
    destruct (resToAnthHandleBlockDone st1). by eapply delivers_after. }
  destruct (_ =s "response.created"); [unfold resToAnthHandleCreated; quiet|].
  destruct (_ =s "response.output_item.added"); [unfold resToAnthHandleOutputItemAdded; quiet|].
  destruct (_ || _); [unfold resToAnthHandleFuncArgsDelta; quiet|].
  destruct (_ =s "response.function_call_arguments.done"); [unfold resToAnthHandleFuncArgsDone, resToAnthHandleBlockDone; quiet|].
  destruct (_ =s "response.output_item.done"); [unfold resToAnthHandleOutputItemDone, resToAnthHandleWebSearchDone; quiet|].
  destruct (_ || _); [unfold resToAnthHandleReasoningDelta; quiet|].
  destruct (_ =s "response.reasoning_summary_text.done"); apply delivers_nil.
Qed.

(** The text sent while the events of one part are handled. *)
Fixpoint text_for (part : Z * Z) (evts : list ResponsesStreamEvent) (st : state) : string :=
  match evts with
  | [] => ""
  | evt :: evts =>
      let r := ResponsesEventToAnthropicEvents evt st in
      (if decide (resToAnthTextPartOf evt = part) then texts_of (fst r) else "") +:+ text_for part evts (snd r)
  end.

Definition streaming (evts : list ResponsesStreamEvent) : Prop :=
  Forall (fun evt => is_terminal (re_Type evt) = false) evts.

(** What is recorded: no empty text, and [textDelivered] says whether there is any. *)
Definition text_inv (st : state) : Prop :=
  map_Forall (fun _ d => d <> "") (textByPart st) /\
  (textDelivered st = false -> textByPart st = ∅).

Lemma str_app_eq_nil (s t : string) : s +:+ t = "" <-> s = "" /\ t = "".
Proof. destruct s; simpl; [|rewrite append_cons; intuition discriminate]. rewrite append_nil. intuition. Qed.

Lemma delivers_recorded st r part txt p :
  delivers st r part txt ->
  default "" (textByPart (snd r) !! p) =
    default "" (textByPart st !! p) +:+ (if decide (part = p) then txt else "").
Proof.
  intros (_ & _ & _ & H). destruct (txt =s "") eqn:E; destruct H as [-> _].
  - apply String.eqb_eq in E as ->. case_match; by rewrite str_app_nil_r.
  - destruct (decide (part = p)) as [->|Hn]; [by rewrite lookup_insert_eq|].
    by rewrite lookup_insert_ne, str_app_nil_r.
Qed.

Lemma delivers_text_inv st r part txt : delivers st r part txt -> text_inv st -> text_inv (snd r).
Proof.
  intros (_ & _ & _ & H) [Hf Hd]. unfold text_inv. destruct (txt =s "") eqn:E; destruct H as [-> ->]; [done|].
  split; [|done]. apply map_Forall_insert_2; [|done]. rewrite str_app_eq_nil. apply String.eqb_neq in E. tauto.
Qed.

Lemma delivers_textDelivered st r part txt :
  delivers st r part txt -> textDelivered (snd r) = textDelivered st || negb (txt =s "").
Proof. intros (_ & _ & _ & H). destruct (txt =s ""); destruct H as [_ ->]; simpl; by rewrite ?orb_false_r, ?orb_true_r. Qed.

(** A stretch of the stream before its terminal event. *)
Lemma convert_delivers evts st :
  streaming evts -> text_inv st ->
  let r := convert evts st in
  Forall body_event (fst r) /\ MessageStopSent (snd r) = MessageStopSent st /\ text_inv (snd r) /\
  textDelivered (snd r) = textDelivered st || negb (texts_of (fst r) =s "") /\
  forall p, default "" (textByPart (snd r) !! p) = default "" (textByPart st !! p) +:+ text_for p evts st.
Proof.
  intros Hs. revert st. induction Hs as [|evt evts Ht Hs IH]; intros st Hi; simpl.
  { split_and!; [constructor | done | done | by rewrite orb_false_r |]. intros p. by rewrite str_app_nil_r. }
  pose proof (converter_delivers evt st Ht) as Hd. destruct (ResponsesEventToAnthropicEvents evt st) as [es st1].
  specialize (IH st1 (delivers_text_inv _ _ _ _ Hd Hi)). destruct (convert evts st1) as [es' st2]. simpl in *.
  destruct IH as (I1 & I2 & I3 & I4 & I5). pose proof (delivers_textDelivered _ _ _ _ Hd) as Hx. simpl in Hx.
  pose proof (fun p => delivers_recorded _ _ _ _ p Hd) as Hr. destruct Hd as (D1 & D2 & D3 & _). simpl in *.
  split_and!; [by apply Forall_app | congruence | done | |].
  - rewrite I4, Hx, texts_of_app, D2. rewrite <- orb_assoc. f_equal.
    destruct (delivered_by evt st =s "") eqn:E; simpl.
    + apply String.eqb_eq in E as ->. by rewrite append_nil.
    + destruct (_ +:+ _ =s "") eqn:E'; [|done]. apply String.eqb_eq, str_app_eq_nil in E' as [E' _].
      apply String.eqb_neq in E. done.
  - intros p. rewrite I5, Hr, D2, str_app_assoc. done.
Qed.

Lemma new_text_inv now : text_inv (NewResponsesEventToAnthropicState now).
Proof. split; [apply map_Forall_empty | done]. Qed.

(** C3: the text of an output part is delivered exactly once.  After any part of the
    stream before its terminal event, let [D] be what was sent for part [p].  A
    done event for [p] with text [T] completes it: when [D] is a prefix of [T]
    and [p] can be identified ([D] is not empty, or no text was sent at all),
    the text sent for [p] is then [T], without loss or repetition; in every
    other case the event sends no text. *)
Theorem text_done_completes now evts done :
  streaming evts -> re_Type done = "response.output_text.done" ->
  let st := NewResponsesEventToAnthropicState now in
  let p := resToAnthTextPartOf done in
  let D := text_for p evts st in
  text_for p (evts ++ [done]) st =
    if HasPrefix (re_Text done) D && (negb (D =s "") || (texts_of (fst (convert evts st)) =s ""))
    then re_Text done else D.
Proof.
  intros Hs Ht st p D.
  destruct (convert_delivers evts st Hs (new_text_inv now)) as (_ & Hstop & [Hne Hemp] & Hdel & Hrec).
  specialize (Hrec p). change (textByPart st) with (∅ : gmap (Z * Z) string) in Hrec.
  rewrite lookup_empty in Hrec. simpl in Hrec. rewrite append_nil in Hrec. fold D in Hrec.
  assert (Happ : forall e1 e2 s, text_for p (e1 ++ e2) s = text_for p e1 s +:+ text_for p e2 (snd (convert e1 s))).
  { clear. intros e1 e2. induction e1 as [|e e1 IH]; intros s; simpl; [by rewrite append_nil|].
    rewrite IH, <- str_app_assoc. destruct (ResponsesEventToAnthropicEvents e s) as [es s1]. simpl.
    by destruct (convert e1 s1). }
  rewrite Happ. fold D. simpl. rewrite decide_True by done. rewrite str_app_nil_r.
  assert (Hn : is_terminal (re_Type done) = false) by by rewrite Ht.
  destruct (converter_delivers done (snd (convert evts st)) Hn) as (_ & -> & _).
  unfold delivered_by. rewrite Ht, Hstop. simpl. unfold recovered. fold p. rewrite Hrec.
  change (textDelivered st) with false in Hdel. simpl in Hdel.
  assert (Hk : bool_decide (is_Some (textByPart (snd (convert evts st)) !! p)) = negb (D =s "")).
  { destruct (textByPart _ !! p) as [d|] eqn:E; simpl in Hrec; rewrite <- Hrec.
    - rewrite bool_decide_true by eauto. apply Hne, String.eqb_neq in E. by rewrite E.
    - by rewrite bool_decide_false by (intros [? ?]; done). }
  rewrite Hk, Hdel, negb_involutive, andb_comm.
  destruct (HasPrefix (re_Text done) D) eqn:E; simpl; [|apply str_app_nil_r].
  case_match; [by apply prefix_drop | apply str_app_nil_r].
Qed.

(** *** The terminal event *)

Lemma emit_texts_delivers texts st :
  Forall body_event (fst (emit_texts texts st)) /\ texts_of (fst (emit_texts texts st)) = String.concat "" (map snd texts).
Proof.
  revert st. induction texts as [|[part text] texts IH]; intros st; simpl; [by split|].
  destruct (resToAnthEmitText_delivers text part st) as (D1 & D2 & _).
  destruct (resToAnthEmitText text part st) as [es st1]. specialize (IH st1). destruct (emit_texts texts st1) as [es' st2].
  simpl in *. destruct IH as [I1 I2]. split; [by apply Forall_app|].
  rewrite texts_of_app, D2, I2. destruct texts; simpl; [by rewrite str_app_nil_r | done].
Qed.

(** C11: a message ends once and completely.  For any stream whose only terminal
    event [t] is the last one, the events sent end with one [message_delta]
    and one [message_stop], neither of which occurs before; no content block
    is left open; and nothing more is sent for a repeated terminal event or by
    the finalizer.  If no text at all was sent before [t], the output_text
    parts of its response are sent, in order; otherwise [t] sends no text. *)
Theorem message_ends_once now pre t :
  streaming pre -> is_terminal (re_Type t) = true ->
  let st := NewResponsesEventToAnthropicState now in
  let sent := fst (convert pre st) in
  let st' := snd (convert (pre ++ [t]) st) in
  (exists last stop usage,
     fst (convert (pre ++ [t]) st) = sent ++ last ++ termination_events stop usage /\
     Forall body_event (sent ++ last) /\
     texts_of last =
       match re_Response t with
       | Some r => if texts_of sent =s "" then String.concat "" (map snd (terminal_texts (rr_Output r))) else ""
       | None => ""
       end) /\
  ContentBlockOpen st' = false /\ MessageStopSent st' = true /\
  (forall t', is_terminal (re_Type t') = true -> ResponsesEventToAnthropicEvents t' st' = ([], st')) /\
  FinalizeResponsesAnthropicStream st' = ([], st').
Proof.
  intros Hs Ht st. pose proof (new_text_inv now : text_inv st) as Hti.
  assert (H0 : MessageStopSent st = false /\ textDelivered st = false) by done. clearbody st.
  destruct H0 as [H01 H02]. intros sent st'.
  assert (Hcomp : forall t' s, is_terminal (re_Type t') = true ->
    ResponsesEventToAnthropicEvents t' s = resToAnthHandleCompleted t' s).
  { clear. intros t' s H. unfold ResponsesEventToAnthropicEvents. rewrite H. unfold is_terminal in H.
    repeat (apply orb_true_iff in H as [H|H]); apply String.eqb_eq in H; by rewrite H. }
  destruct (convert_delivers pre st Hs Hti) as (Hb & Hstop & _ & Hdel & _). rewrite H01, H02 in *.
  assert (Happ : convert (pre ++ [t]) st =
    (sent ++ fst (resToAnthHandleCompleted t (snd (convert pre st))), snd (resToAnthHandleCompleted t (snd (convert pre st))))).
  { subst sent. clear -Hcomp Ht. revert st. induction pre as [|e pre IH]; intros st; simpl.
    - rewrite (Hcomp t st Ht). destruct (resToAnthHandleCompleted t st). simpl. by rewrite app_nil_r.
    - destruct (ResponsesEventToAnthropicEvents e st) as [es st1]. rewrite IH. destruct (convert pre st1). simpl.
      by rewrite <- app_assoc. }
  unfold st'. rewrite Happ. clear Happ st'. fold sent in Hb, Hdel. set (s := snd (convert pre st)) in *. clearbody s.
  simpl in Hstop, Hdel. unfold resToAnthHandleCompleted. rewrite Hstop, close_eq.
  pose proof (closed_open s) as Ho. destruct (close_delivers s (0, 0)) as (C1 & C2 & C3 & _ & C5). simpl in C1, C2, C3, C5.
  pose proof (recovered_open t (closed s) Ho) as Ho2.
  assert (Hrec : Forall body_event (fst (resToAnthRecoverTerminalText t (closed s))) /\
    texts_of (fst (resToAnthRecoverTerminalText t (closed s))) =
       match re_Response t with
       | Some r => if texts_of sent =s "" then String.concat "" (map snd (terminal_texts (rr_Output r))) else ""
       | None => ""
       end).
  { unfold resToAnthRecoverTerminalText. destruct (re_Response t) as [r|]; [|split; [constructor | done]].
    rewrite C5, Hdel. destruct (texts_of sent =s ""); simpl; [|split; [constructor | done]].
    destruct (emit_texts_delivers (terminal_texts (rr_Output r)) (closed s)) as [E1 E2].
    destruct (emit_texts _ (closed s)) as [es s1]. simpl in E1, E2. rewrite close_eq. destruct es as [|e es]; [done|].
    destruct (close_delivers s1 (0, 0)) as (F1 & F2 & _). simpl in F1, F2.
    split; [by apply (Forall_app_2 _ (e :: es))|]. etransitivity; [apply (texts_of_app (e :: es))|].
    by rewrite F2, str_app_nil_r. }
  destruct (resToAnthRecoverTerminalText t (closed s)) as [es2 s2]. simpl in Ho2, Hrec. destruct Hrec as [R1 R2].
  set (s3 := match re_Response t with Some _ => _ | None => _ end).
  assert (E : ContentBlockOpen s3 = false).
  { subst s3. destruct (re_Response t) as [r|]; [destruct (rr_Usage r)|]; by destruct (re_Usage t). }
  clearbody s3. simpl. split_and!; [|done|done| |].
  - exists (close_events s ++ es2), (completed_stop_reason t s3), s3. split_and!.
    + by rewrite <- !app_assoc.
    + rewrite !Forall_app. auto.
    + by rewrite texts_of_app, C2.
  - intros t' Ht'. by rewrite Hcomp.
  - unfold FinalizeResponsesAnthropicStream. simpl. by rewrite orb_true_r.
Qed.

(** ** Tool calls *)

Fixpoint json_of (es : list AnthropicStreamEvent) : string :=
  match es with
  | [] => ""
  | e :: es => match ae_Delta e with Some d => ad_PartialJSON d | None => "" end +:+ json_of es
  end.

Lemma json_of_app es es' : json_of (es ++ es') = json_of es +:+ json_of es'.
Proof. induction es as [|e es IH]; simpl; [done|]. by rewrite IH, str_app_assoc. Qed.

(** The upstream events of one function call. *)
Definition args_delta_event (oi : Z) (d : string) : ResponsesStreamEvent :=
  ResponsesStreamEvent_zero <| re_Type := "response.function_call_arguments.delta" |>
    <| re_OutputIndex := oi |> <| re_Delta := d |>.
Definition args_done_event (oi : Z) (args : string) : ResponsesStreamEvent :=
  ResponsesStreamEvent_zero <| re_Type := "response.function_call_arguments.done" |>
    <| re_OutputIndex := oi |> <| re_Arguments := args |>.
Definition call_added_event (oi : Z) (callID name : string) : ResponsesStreamEvent :=
  ResponsesStreamEvent_zero <| re_Type := "response.output_item.added" |> <| re_OutputIndex := oi |>
    <| re_Item := Some (ResponsesOutput_zero <| ro_Type := "function_call" |> <| ro_CallID := callID |> <| ro_Name := name |>) |>.

(** The arguments the client ends up with: what the deltas carried, or the
    done event when they carried nothing (for [Read], nothing complete), with
    the input of [Read] sanitized. *)
Definition tool_arguments (name : string) (ds : list string) (args : string) : string :=
  let D := String.concat "" ds in
  if name =s "Read"
  then sanitizeAnthropicToolUseInput name (if Json.Valid D then D else if args =s "" then D else args)
  else if D =s "" then args else D.

(** A tool block is open and recorded. *)
Definition in_tool (st : state) (name : string) (oi : Z) (args : string) (had : bool) : Prop :=
  ContentBlockOpen st = true /\ CurrentBlockType st = "tool_use" /\ CurrentToolName st = name /\
  OutputIndexToBlockIdx st !! oi = Some (ContentBlockIndex st) /\ CurrentToolHadDelta st = had /\
  (name = "Read" -> CurrentToolArgs st = args) /\ (name <> "Read" -> CurrentToolArgs st = "").

Definition json_deltas (i : Z) (es : list AnthropicStreamEvent) : Prop :=
  Forall (fun e => exists j, e = input_json_delta i j) es.

Lemma concat_cons (s : string) ds : String.concat "" (s :: ds) = s +:+ String.concat "" ds.
Proof. destruct ds; simpl; [by rewrite str_app_nil_r | done]. Qed.

Lemma args_delta_step oi d st :
  ResponsesEventToAnthropicEvents (args_delta_event oi d) st = resToAnthHandleFuncArgsDelta (args_delta_event oi d) st.
Proof. reflexivity. Qed.

Lemma plain_deltas ds : forall st name oi had,
  name <> "Read" -> in_tool st name oi "" had ->
  let r := convert (map (args_delta_event oi) ds) st in
  json_deltas (ContentBlockIndex st) (fst r) /\ json_of (fst r) = String.concat "" ds /\
  ContentBlockIndex (snd r) = ContentBlockIndex st /\
  in_tool (snd r) name oi "" (had || negb (String.concat "" ds =s "")).
Proof.
  induction ds as [|d ds IH]; intros st name oi had Hn Hin; cbn [map convert]; [simpl; rewrite orb_false_r; repeat split; try apply Hin; constructor|].
  rewrite args_delta_step, concat_cons. unfold resToAnthHandleFuncArgsDelta. simpl re_Delta. simpl re_OutputIndex.
  destruct (d =s "") eqn:Ed; [apply String.eqb_eq in Ed as ->; rewrite append_nil; simpl; specialize (IH st name oi had Hn Hin);
    by destruct (convert _ st)|].
  destruct Hin as (H1 & H2 & H3 & H4 & H5 & H6 & H7). rewrite H2, H3.
  assert (Hr : (name =s "Read") = false) by by apply String.eqb_neq. rewrite Hr. simpl. rewrite H4.
  specialize (IH (st <| CurrentToolHadDelta := true |>) name oi true Hn).
  simpl in IH |- *. destruct (convert _ _) as [es st2]. simpl in IH |- *.
  destruct IH as (I1 & I2 & I3 & I4); [by repeat split|]. split_and!; [|by rewrite I2|done|].
  - constructor; eauto.
  - replace (had || _) with true; [done|]. destruct (d +:+ _ =s "") eqn:E; [|by rewrite orb_true_r].
    apply String.eqb_eq, str_app_eq_nil in E as [-> _]. done.
Qed.

Lemma read_deltas ds : forall st oi acc,
  in_tool st "Read" oi acc false ->
  (forall k, (k < length ds)%nat -> Json.Valid (acc +:+ String.concat "" (take k ds)) = false) ->
  let r := convert (map (args_delta_event oi) ds) st in
  let D := acc +:+ String.concat "" ds in
  fst r = (if Json.Valid D && negb (bool_decide (ds = [])) then [input_json_delta (ContentBlockIndex st) (sanitizeAnthropicToolUseInput "Read" D)] else []) /\
  ContentBlockIndex (snd r) = ContentBlockIndex st /\
  in_tool (snd r) "Read" oi D (Json.Valid D && negb (bool_decide (ds = []))).
Proof.
  induction ds as [|d ds IH]; intros st oi acc Hin Hv; cbn [map convert].
  { simpl. rewrite str_app_nil_r, andb_false_r. done. }
  rewrite args_delta_step, concat_cons, andb_true_r, <- str_app_assoc. unfold resToAnthHandleFuncArgsDelta.
  simpl re_Delta. simpl re_OutputIndex.
  assert (Hv' : forall k, (k < length ds)%nat -> Json.Valid ((acc +:+ d) +:+ String.concat "" (take k ds)) = false).
  { intros k Hk. specialize (Hv (S k)). simpl take in Hv. rewrite concat_cons in Hv. rewrite str_app_assoc. apply Hv. simpl. lia. }
  destruct (d =s "") eqn:Ed.
  { apply String.eqb_eq in Ed as ->. rewrite str_app_nil_r in *. specialize (IH st oi acc Hin Hv'). simpl.
    destruct (convert _ st) as [es st2]. simpl in *.
    assert (E : Json.Valid (acc +:+ String.concat "" ds) && negb (bool_decide (ds = [])) = Json.Valid (acc +:+ String.concat "" ds)).
    { destruct ds; simpl; [|by rewrite andb_true_r]. rewrite str_app_nil_r, andb_false_r.
      specialize (Hv 0%nat). simpl in Hv. rewrite str_app_nil_r in Hv. rewrite Hv; [done | lia]. }
    rewrite <- E. destruct IH as (-> & I2 & I3). rewrite andb_comm, <- ?andb_assoc. 
    by destruct (Json.Valid _), (bool_decide _). }
  destruct Hin as (H1 & H2 & H3 & H4 & H5 & H6 & H7). rewrite H2, H3. simpl. rewrite H5, H6 by done. simpl.
  destruct (decide (ds = [])) as [->|Hne].
  - simpl. rewrite str_app_nil_r. destruct (Json.Valid (acc +:+ d)); simpl.
    + rewrite H4. simpl. rewrite H3. by repeat split.
    + by repeat split.
  - assert (E : Json.Valid (acc +:+ d) = false).
    { specialize (Hv' 0%nat). simpl in Hv'. rewrite str_app_nil_r in Hv'. apply Hv'. destruct ds; [done | simpl; lia]. }
    rewrite E. specialize (IH (st <| CurrentToolArgs := acc +:+ d |>) oi (acc +:+ d)). cbv zeta in IH.
    rewrite bool_decide_false, andb_true_r in IH by done.
    simpl in IH |- *. rewrite H5 in IH. destruct (convert _ _) as [es st2]. simpl in IH |- *.
    apply IH; [by repeat split | exact Hv'].
Qed.

(** The done event closes the block, after the arguments no delta carried. *)
Lemma args_done_step s name oi acc had args :
  in_tool s name oi acc had ->
  let raw := if args =s "" then (if name =s "Read" then acc else "") else args in
  exists deltas,
    fst (ResponsesEventToAnthropicEvents (args_done_event oi args) s) = deltas ++ [block_stop (ContentBlockIndex s)] /\
    json_deltas (ContentBlockIndex s) deltas /\
    json_of deltas = if had then "" else if name =s "Read" then sanitizeAnthropicToolUseInput name raw else raw.
Proof.
  intros (H1 & H2 & H3 & H4 & H5 & H6 & H7) raw.
  change (ResponsesEventToAnthropicEvents _ s) with (resToAnthHandleFuncArgsDone (args_done_event oi args) s).
  unfold resToAnthHandleFuncArgsDone. rewrite close_eq, H1, H2, H3, H5. simpl. rewrite H4. simpl.
  assert (Hc : close_events s = [block_stop (ContentBlockIndex s)]) by (unfold close_events; by rewrite H1, H2).
  assert (Hraw : (if args =s "" then CurrentToolArgs s else args) = raw).
  { subst raw. destruct (args =s ""); [|done]. destruct (String.eqb_spec name "Read"); auto. }
  rewrite Hraw, Hc. clearbody raw. clear Hraw. simpl.
  set (san := if name =s "Read" then _ else raw).
  assert (Hsan : raw = "" -> san = "").
  { intros ->. subst san. unfold sanitizeAnthropicToolUseInput. rewrite orb_true_r. by case_match. }
  destruct had; [rewrite orb_true_r; exists []; split_and!; [done | constructor | done]|]. rewrite orb_false_r.
  destruct (raw =s "") eqn:Er; [apply String.eqb_eq in Er; exists []; split_and!; [done | constructor | symmetry; auto]|].
  destruct ((name =s "Read") && (len san =? 0)) eqn:El.
  - exists []. split_and!; [done | constructor|]. symmetry. apply str_length_zero. unfold len in El. lia.
  - rewrite Z.eqb_refl. exists [input_json_delta (ContentBlockIndex s) san].
    split_and!; [done | constructor; eauto | apply str_app_nil_r].
Qed.

Lemma convert_app e1 e2 s :
  convert (e1 ++ e2) s =
    (fst (convert e1 s) ++ fst (convert e2 (snd (convert e1 s))), snd (convert e2 (snd (convert e1 s)))).
Proof.
  revert s. induction e1 as [|e e1 IH]; intros s; simpl; [by destruct (convert e2 s)|].
  destruct (ResponsesEventToAnthropicEvents e s) as [es s1]. rewrite IH. destruct (convert e1 s1). simpl.
  by rewrite app_assoc.
Qed.

Lemma convert_one e s : convert [e] s = ResponsesEventToAnthropicEvents e s.
Proof. simpl. destruct (ResponsesEventToAnthropicEvents e s). by rewrite app_nil_r. Qed.

Lemma args_deltas_step ds st name oi :
  (name = "Read" -> forall k, (k < length ds)%nat -> Json.Valid (String.concat "" (take k ds)) = false) ->
  in_tool st name oi "" false ->
  let r := convert (map (args_delta_event oi) ds) st in
  let D := String.concat "" ds in
  let had := if name =s "Read" then Json.Valid D else negb (D =s "") in
  json_deltas (ContentBlockIndex st) (fst r) /\ ContentBlockIndex (snd r) = ContentBlockIndex st /\
  in_tool (snd r) name oi (if name =s "Read" then D else "") had /\
  json_of (fst r) = if had then (if name =s "Read" then sanitizeAnthropicToolUseInput name D else D) else "".
Proof.
  intros Hv Hin r D had. destruct (name =s "Read") eqn:En.
  - apply String.eqb_eq in En. subst name. destruct (read_deltas ds st oi "" Hin) as (R1 & R2 & R3); [by apply Hv|].
    rewrite append_nil in *. fold D in R1, R2, R3. fold r in R1, R2, R3. subst had.
    assert (E : Json.Valid D && negb (bool_decide (ds = [])) = Json.Valid D).
    { destruct (bool_decide_reflect (ds = [])) as [->|]; [done | apply andb_true_r]. }
    rewrite E in *. rewrite R1. split_and!; [|done|done|].
    + destruct (Json.Valid D); constructor; eauto.
    + destruct (Json.Valid D); simpl; [apply str_app_nil_r | done].
  - apply String.eqb_neq in En. destruct (plain_deltas ds st name oi false En Hin) as (R1 & R2 & R3 & R4).
    split_and!; [done|done|done|]. subst had. fold r in R2. rewrite R2. fold D.
    destruct (D =s "") eqn:ED; [by apply String.eqb_eq in ED | done].
Qed.

(** C13: a function call reaches the client whole.  From any state, the events of one
    function call (announcement, any argument deltas, the done event) close
    the open block, start a [tool_use] block with the call's id and name, send
    input deltas of that block only, and stop it; the deltas concatenate to
    the call's arguments.  For the [Read] tool the deltas are held back until
    they form a JSON text, which is then sanitized and sent at once. *)
Theorem tool_call_converted st oi callID name ds args :
  (name = "Read" -> forall k, (k < length ds)%nat -> Json.Valid (String.concat "" (take k ds)) = false) ->
  let evts := call_added_event oi callID name :: map (args_delta_event oi) ds ++ [args_done_event oi args] in
  let i := ContentBlockIndex (closed st) in
  exists deltas,
    fst (convert evts st) =
      close_events st ++
      [block_start i (AnthropicContentBlock_zero <| cb_Type := "tool_use" |>
         <| cb_ID := fromResponsesCallID callID |> <| cb_Name := name |> <| cb_Input := "{}" |>)] ++
      deltas ++ [block_stop i] /\
    json_deltas i deltas /\ json_of deltas = tool_arguments name ds args.
Proof.
  intros Hread evts i.
  set (r := ResponsesEventToAnthropicEvents (call_added_event oi callID name) st).
  assert (Hr : fst r = close_events st ++ [block_start i (AnthropicContentBlock_zero <| cb_Type := "tool_use" |>
         <| cb_ID := fromResponsesCallID callID |> <| cb_Name := name |> <| cb_Input := "{}" |>)] /\
       in_tool (snd r) name oi "" false /\ ContentBlockIndex (snd r) = i).
  { subst r. cbn. unfold resToAnthHandleOutputItemAdded. simpl. rewrite close_eq. unfold in_tool. simpl.
    rewrite lookup_insert_eq. by repeat split. }
  destruct Hr as (Hr & Hin & Hi). change evts with ([call_added_event oi callID name] ++ map (args_delta_event oi) ds ++ [args_done_event oi args]).
  rewrite !convert_app, !convert_one. fold r. simpl fst. rewrite Hr.
  destruct (args_deltas_step ds (snd r) name oi Hread Hin) as (D1 & D2 & D3 & D4).
  destruct (args_done_step _ _ _ _ _ args D3) as (deltas & E1 & E2 & E3). rewrite E1, D2, Hi in *.
  exists (fst (convert (map (args_delta_event oi) ds) (snd r)) ++ deltas).
  split_and!; [by rewrite <- !app_assoc | by apply Forall_app_2 |].
  rewrite json_of_app, D4, E3. unfold tool_arguments. destruct (name =s "Read").
  - destruct (Json.Valid (String.concat "" ds)); [apply str_app_nil_r | apply append_nil].
  - destruct (String.concat "" ds =s "") eqn:ED; [|apply str_app_nil_r]. apply String.eqb_eq in ED.
    simpl. rewrite append_nil. destruct (args =s "") eqn:Ea; [by apply String.eqb_eq in Ea | done].
Qed.

(** ** Usage *)

(** token accounting.  When the counts are non-negative and the cache counts fit
    in the input total, the three Anthropic input buckets are disjoint and add
    up to the upstream total; when they do not fit, the uncached bucket is 0;
    no bucket is negative and the subtraction does not wrap. *)
Theorem usage_buckets usage :
  let cached := match ru_InputTokensDetails usage with Some d => rid_CachedTokens d | None => 0 end in
  let created := ru_CacheCreationInputTokens usage in
  let total := ru_InputTokens usage in
  0 <= cached -> 0 <= created -> 0 <= total <= int64_max -> cached + created <= int64_max ->
  let u := anthropicUsageFromResponsesUsage (Some usage) in
  au_OutputTokens u = ru_OutputTokens usage /\ au_CacheReadInputTokens u = cached /\
  au_CacheCreationInputTokens u = created /\ 0 <= au_InputTokens u <= total /\
  au_InputTokens u + au_CacheReadInputTokens u + au_CacheCreationInputTokens u = Z.max total (cached + created).
Proof.
  intros cached created total H1 H2 H3 H4 u. subst u. unfold anthropicUsageFromResponsesUsage. simpl.
  fold cached created total. clearbody cached created total.
  rewrite (wrap64_id (total - cached)), wrap64_id by time_lia.
  destruct (total - cached - created <? 0) eqn:E; lia.
Qed.

(** ** The non-streaming conversion *)

(** The output_text of one item. *)
Definition item_texts (item : ResponsesOutput) : list string :=
  if ro_Type item =s "message" then
    flat_map (fun part => if rp_Type part =s "output_text" then [rp_Text part] else []) (ro_Content item)
  else [].

Lemma snd_flat_map_imap {A B C} (F : nat -> A -> list (B * C)) (G : A -> list C) (h : nat -> nat) l :
  (forall i x, map snd (F i x) = G x) ->
  map snd (flat_map (fun '(i, x) => F i x) (imap (fun i x => (h i, x)) l)) = flat_map G l.
Proof.
  intros HF. revert h. induction l as [|x l IH]; intros h; [done|].
  simpl. rewrite map_app, HF. f_equal. apply (IH (h ∘ S)).
Qed.

Lemma terminal_texts_items output : map snd (terminal_texts output) = flat_map item_texts output.
Proof.
  unfold terminal_texts. apply (snd_flat_map_imap _ _ id). intros i item. unfold item_texts.
  destruct (_ =s _); [|done]. apply (snd_flat_map_imap _ _ id). intros j part. by destruct (_ =s _).
Qed.

Lemma concat_app (l l' : list string) : String.concat "" (l ++ l') = String.concat "" l +:+ String.concat "" l'.
Proof.
  induction l as [|s l IH]; [by rewrite append_nil|]. cbn [app]. by rewrite !concat_cons, IH, str_app_assoc.
Qed.

Lemma item_blocks_text item : String.concat "" (map cb_Text (item_blocks item)) = String.concat "" (item_texts item).
Proof.
  unfold item_blocks, item_texts.
  destruct (ro_Type item =s "reasoning") eqn:E1; [apply String.eqb_eq in E1; rewrite E1; by case_match|].
  destruct (ro_Type item =s "message"); [|by repeat case_match].
  induction (ro_Content item) as [|part l IH]; [done|]. cbn [flat_map].
  rewrite map_app, !concat_app, IH. f_equal. destruct (rp_Type part =s "output_text"); [|done]. simpl.
  destruct (rp_Text part =s "") eqn:E; [|done]. by apply String.eqb_eq in E.
Qed.

Lemma item_blocks_tool item : containsAnthropicToolUseBlock (item_blocks item) = (ro_Type item =s "function_call").
Proof.
  unfold item_blocks.
  destruct (ro_Type item =s "reasoning") eqn:E1; [apply String.eqb_eq in E1; rewrite E1; by case_match|].
  destruct (ro_Type item =s "message") eqn:E2.
  { apply String.eqb_eq in E2. rewrite E2. induction (ro_Content item) as [|part l IH]; [done|].
    cbn [flat_map]. unfold containsAnthropicToolUseBlock in *. rewrite existsb_app, IH. by case_match. }
  destruct (ro_Type item =s "function_call"); [done|]. by case_match.
Qed.

Lemma blocks_tool output :
  containsAnthropicToolUseBlock (flat_map item_blocks output) = existsb (fun item => ro_Type item =s "function_call") output.
Proof.
  induction output as [|item l IH]; [done|]. simpl. rewrite <- IH, <- item_blocks_tool. apply existsb_app.
Qed.

(** the non-streaming conversion loses no visible text and decides the stop
    reason: the text blocks concatenate to the output_text of the message
    items, in order; there is always a block; and the message stops for a tool
    exactly when a completed response called a function. *)
Theorem response_converted resp model :
  let out := ResponsesToAnthropic resp model in
  String.concat "" (map cb_Text (ar_Content out)) = String.concat "" (map snd (terminal_texts (rr_Output resp))) /\
  ar_Content out <> [] /\
  (ar_StopReason out = Some "tool_use" <->
     rr_Status resp = "completed" /\ Exists (fun item => ro_Type item = "function_call") (rr_Output resp)).
Proof.
  intros out.
  set (blocks := match flat_map item_blocks (rr_Output resp) with
                 | [] => [AnthropicContentBlock_zero <| cb_Type := "text" |> <| cb_Text := "" |>] | _ => flat_map item_blocks (rr_Output resp) end).
  assert (Hc : ar_Content out = blocks) by (subst out; unfold ResponsesToAnthropic; by destruct (rr_Usage resp)).
  assert (Hs : ar_StopReason out = Some (responsesStatusToAnthropicStopReason (rr_Status resp) (rr_IncompleteDetails resp) blocks))
    by (subst out; unfold ResponsesToAnthropic; by destruct (rr_Usage resp)).
  assert (Htool : containsAnthropicToolUseBlock blocks = existsb (fun item => ro_Type item =s "function_call") (rr_Output resp)).
  { rewrite <- blocks_tool. subst blocks. by destruct (flat_map _ _). }
  rewrite Hc, Hs. split_and!.
  - rewrite terminal_texts_items. transitivity (String.concat "" (map cb_Text (flat_map item_blocks (rr_Output resp)))).
    { subst blocks. by destruct (flat_map _ _). }
    generalize (rr_Output resp). clear. intros output. induction output as [|item l IH]; [done|]. cbn [flat_map].
    by rewrite map_app, !concat_app, item_blocks_text, IH.
  - subst blocks. by destruct (flat_map _ _).
  - unfold responsesStatusToAnthropicStopReason. rewrite Htool, List.Exists_exists.
    destruct (rr_Status resp =s "incomplete") eqn:E1.
    { apply String.eqb_eq in E1. rewrite E1. split; [repeat case_match; discriminate | intros [H _]; discriminate]. }
    destruct (rr_Status resp =s "completed") eqn:E2.
    + apply String.eqb_eq in E2. destruct (existsb _ _) eqn:E3.
      * apply existsb_exists in E3 as (x & Hx & Ht). apply String.eqb_eq in Ht. split; eauto.
      * split; [discriminate|]. intros [_ (x & Hx & Ht)].
        assert (existsb (fun item => ro_Type item =s "function_call") (rr_Output resp) = true); [|congruence].
        apply existsb_exists. exists x. by rewrite Ht.
    + split; [discriminate|]. intros [H _]. by rewrite H in E2.
Qed.

(** ** Text after the end of a message

    [resToAnthHandleTextDone] refuses a payload that arrives after the message
    ended, because it could only be delivered in a content block after
    [message_stop]; [resToAnthHandleTextDelta] has no such guard. *)

Definition event (t : string) : ResponsesStreamEvent := ResponsesStreamEvent_zero <| re_Type := t |>.

(** late events after the end of a message.  When a message has ended with no block
    open, a done event sends nothing at all, but any non-empty text delta
    still opens a new content block and sends its text, after [message_stop]. *)
Theorem late_text_after_stop st late :
  MessageStopSent st = true -> ContentBlockOpen st = false ->
  (re_Type late = "response.output_text.done" -> ResponsesEventToAnthropicEvents late st = ([], st)) /\
  (re_Type late = "response.output_text.delta" -> re_Delta late <> "" ->
   fst (ResponsesEventToAnthropicEvents late st) =
     [block_start (ContentBlockIndex st) (AnthropicContentBlock_zero <| cb_Type := "text" |>);
      text_delta (ContentBlockIndex st) (re_Delta late)]).
Proof.
  intros Hs Ho. unfold ResponsesEventToAnthropicEvents. split; intros ->; simpl.
  - unfold resToAnthHandleTextDone, resToAnthHandleBlockDone. by rewrite Hs, Ho.
  - intros Hd. apply String.eqb_neq in Hd. unfold resToAnthHandleTextDelta, resToAnthEmitText, open_text_block.
    rewrite Hd, Ho, close_eq. simpl. unfold closed, close_events, closeCurrentBlock. rewrite Ho. reflexivity.
Qed.

(** ** The theorems at concrete inputs *)

Definition text_event (t : string) (part : Z * Z) (s : string) : ResponsesStreamEvent :=
  event t <| re_OutputIndex := fst part |> <| re_ContentIndex := snd part |> <| re_Delta := s |> <| re_Text := s |>.

Lemma text_done_completes_witness :
  let st := NewResponsesEventToAnthropicState 0 in
  text_for (1, 0)
    [text_event "response.output_text.delta" (1, 0) "Hel"; event "response.created";
     text_event "response.output_text.done" (1, 0) "Hello"] st = "Hello".
Proof.
  pose proof (text_done_completes 0
    [text_event "response.output_text.delta" (1, 0) "Hel"; event "response.created"]
    (text_event "response.output_text.done" (1, 0) "Hello")) as H.
  do 2 (specialize (H ltac:(repeat constructor))). exact H.
Defined.

Lemma message_ends_once_witness :
  let pre := [event "response.created"; text_event "response.output_text.delta" (1, 0) "Hi"] in
  ContentBlockOpen (snd (convert (pre ++ [event "response.completed"]) (NewResponsesEventToAnthropicState 0))) = false.
Proof.
  pose proof (message_ends_once 0
    [event "response.created"; text_event "response.output_text.delta" (1, 0) "Hi"] (event "response.completed")) as H.
  do 2 (specialize (H ltac:(repeat constructor))). exact (proj1 (proj2 H)).
Defined.

Lemma tool_call_converted_witness :
  let raw := Json.sq "{'file_path':'a','pages':''}" in
  exists deltas,
    json_of deltas = Json.sq "{'file_path':'a'}" /\
    fst (convert (call_added_event 0 "fc_call_1" "Read" :: map (args_delta_event 0) [raw] ++ [args_done_event 0 raw])
           (NewResponsesEventToAnthropicState 0)) =
      [block_start 0 (AnthropicContentBlock_zero <| cb_Type := "tool_use" |> <| cb_ID := "call_1" |>
         <| cb_Name := "Read" |> <| cb_Input := "{}" |>)] ++ deltas ++ [block_stop 0].
Proof.
  pose proof (tool_call_converted (NewResponsesEventToAnthropicState 0) 0 "fc_call_1" "Read"
    [Json.sq "{'file_path':'a','pages':''}"] (Json.sq "{'file_path':'a','pages':''}")) as H.
  specialize (H ltac:(intros _ k Hk; assert (k = O) as -> by (simpl in Hk; lia); reflexivity)).
  destruct H as (deltas & H1 & _ & H3). exists deltas. split; [|exact H1].
  rewrite H3. vm_compute. reflexivity.
Defined.

Lemma usage_buckets_witness :
  let usage := ResponsesUsage_zero <| ru_InputTokens := 100 |> <| ru_CacheCreationInputTokens := 20 |>
    <| ru_InputTokensDetails := Some (ResponsesInputTokensDetails_zero <| rid_CachedTokens := 30 |>) |> in
  au_InputTokens (anthropicUsageFromResponsesUsage (Some usage)) <= 100.
Proof.
  intros usage. pose proof (usage_buckets usage) as H. cbv zeta in H.
  do 4 (specialize (H ltac:(vm_compute; repeat split; congruence))).
  destruct H as (_ & _ & _ & [_ H] & _). exact H.
Defined.

Lemma late_text_after_stop_witness :
  let st := snd (convert [event "response.created"; event "response.completed"] (NewResponsesEventToAnthropicState 0)) in
  map ae_Type (fst (ResponsesEventToAnthropicEvents (text_event "response.output_text.delta" (0, 0) "late") st)) =
    ["content_block_start"; "content_block_delta"].
Proof.
  intros st. pose proof (late_text_after_stop st (text_event "response.output_text.delta" (0, 0) "late")) as H.
  do 2 (specialize (H ltac:(reflexivity))). rewrite (proj2 H); [reflexivity | reflexivity | discriminate].
Defined.

End ResToAnth.
