(* ===== verification/ResToChat.v ===== *)
(** * ResToChat: Responses answers and streams as Chat Completions

    Models [src/backend/internal/pkg/apicompat/responses_to_chatcompletions.go]:
    the non-streaming conversion, the stateful stream converter with its
    finalizer, and [BufferedResponseAccumulator], which rebuilds the output of
    a non-streaming answer from the events of a stream.  Handlers map a state
    to the chunks to send and the next state.  The random id and the clock are
    arguments.  The two [strings.Builder]s and those of the buffered calls are
    owned by the accumulator and are the strings they hold. *)

From S2P Require Import Prelude GoStrings Json ApicompatTypes.

Module ResToChat.

(** ** Usage *)

Definition promptDetailsFromResponses (src : option ResponsesInputTokensDetails) : option ChatTokenDetails :=
  match src with
  | None => None
  | Some src =>
      if (rid_CachedTokens src =? 0) && (rid_AudioTokens src =? 0) &&
         (rid_CacheCreationTokens src =? 0) && (rid_CacheWriteTokens src =? 0) then None
      else Some (ChatTokenDetails_zero
        <| ctd_CachedTokens := rid_CachedTokens src |> <| ctd_AudioTokens := rid_AudioTokens src |>
        <| ctd_CacheCreationTokens := rid_CacheCreationTokens src |>
        <| ctd_CacheWriteTokens := rid_CacheWriteTokens src |>)
  end.

Definition completionDetailsFromResponses (src : option ResponsesOutputTokensDetails) : option ChatTokenDetails :=
  match src with
  | None => None
  | Some src =>
      if (rod_ReasoningTokens src =? 0) && (rod_AudioTokens src =? 0) &&
         (rod_AcceptedPredictionTokens src =? 0) && (rod_RejectedPredictionTokens src =? 0) then None
      else Some (ChatTokenDetails_zero
        <| ctd_ReasoningTokens := rod_ReasoningTokens src |> <| ctd_AudioTokens := rod_AudioTokens src |>
        <| ctd_AcceptedPredictionTokens := rod_AcceptedPredictionTokens src |>
        <| ctd_RejectedPredictionTokens := rod_RejectedPredictionTokens src |>)
  end.

Definition chatUsageFromResponsesUsage (u : option ResponsesUsage) : option ChatUsage :=
  match u with
  | None => None
  | Some u =>
      let details := promptDetailsFromResponses (ru_InputTokensDetails u) in
      let details :=
        if 0 <? ru_CacheCreationInputTokens u then
          let d := default ChatTokenDetails_zero details in
          Some (if (ctd_CacheWriteTokens d =? 0) && (ctd_CacheCreationTokens d =? 0)
                then d <| ctd_CacheCreationTokens := ru_CacheCreationInputTokens u |> else d)
        else details in
      Some (ChatUsage_zero
        <| cu_PromptTokens := ru_InputTokens u |> <| cu_CompletionTokens := ru_OutputTokens u |>
        <| cu_TotalTokens := wrap64 (ru_InputTokens u + ru_OutputTokens u) |>
        <| cu_PromptTokensDetails := details |>
        <| cu_CompletionTokensDetails := completionDetailsFromResponses (ru_OutputTokensDetails u) |>)
  end.

(** ** The non-streaming conversion *)

Definition responsesStatusToChatFinishReason (status : string) (details : option ResponsesIncompleteDetails)
    (toolCalls : list ChatToolCall) : string :=
  if status =s "incomplete" then
    match details with
    | Some d =>
        if rind_Reason d =s "max_output_tokens" then "length"
        else if rind_Reason d =s "content_filter" then "content_filter" else "stop"
    | None => "stop"
    end
  else if status =s "completed" then
    match toolCalls with [] => "stop" | _ => "tool_calls" end
  else "stop".

(** The three accumulators of the loop over [resp.Output]. *)
Record gathered := Gathered { contentText : string; reasoningText : string; toolCalls : list ChatToolCall }.

Definition gather_item (g : gathered) (item : ResponsesOutput) : gathered :=
  if ro_Type item =s "message" then
    Gathered (fold_left (fun acc part => if (rp_Type part =s "output_text") && negb (rp_Text part =s "")
                                         then acc +:+ rp_Text part else acc) (ro_Content item) (contentText g))
             (reasoningText g) (toolCalls g)
  else if ro_Type item =s "function_call" then
    Gathered (contentText g) (reasoningText g)
      (toolCalls g ++ [ChatToolCall_zero <| ct_ID := ro_CallID item |> <| ct_Type := "function" |>
         <| ct_Function := MkChatFunctionCall (ro_Name item) (ro_Arguments item) |>])
  else if ro_Type item =s "reasoning" then
    Gathered (contentText g)
             (fold_left (fun acc s => if (rs_Type s =s "summary_text") && negb (rs_Text s =s "")
                                      then acc +:+ rs_Text s else acc) (ro_Summary item) (reasoningText g))
             (toolCalls g)
  else g.

Definition ResponsesToChatCompletions (newID : string) (now : Z) (resp : ResponsesResponse) (model : string)
    : ChatCompletionsResponse :=
  let id := if rr_ID resp =s "" then newID else rr_ID resp in
  let g := fold_left gather_item (rr_Output resp) (Gathered "" "" []) in
  let msg := ChatMessage_zero <| cm_Role := "assistant" |> <| cm_ToolCalls := toolCalls g |> in
  let msg := if contentText g =s "" then msg else msg <| cm_Content := Json.quote (contentText g) |> in
  let msg := if reasoningText g =s "" then msg else msg <| cm_ReasoningContent := reasoningText g |> in
  let finishReason := responsesStatusToChatFinishReason (rr_Status resp) (rr_IncompleteDetails resp) (toolCalls g) in
  ChatCompletionsResponse_zero
    <| ccr_ID := id |> <| ccr_Object := "chat.completion" |> <| ccr_Created := now |> <| ccr_Model := model |>
    <| ccr_ServiceTier := rr_ServiceTier resp |>
    <| ccr_Choices := [MkChatChoice 0 msg finishReason] |>
    <| ccr_Usage := chatUsageFromResponsesUsage (rr_Usage resp) |>.

(** ** The stream state *)

Record ResponsesEventToChatState := State {
  ID : string;
  Model : string;
  Created : Z;
  ServiceTier : string;
  SentRole : bool;
  SawToolCall : bool;
  SawText : bool;
  Finalized : bool;
  NextToolCallIndex : Z;
  OutputIndexToToolIndex : gmap Z Z;
  OutputIndexToArguments : gmap Z string;
  IncludeUsage : bool;
  Usage : option ChatUsage
}.
#[export] Instance state_struct : Struct ResponsesEventToChatState := fun r =>
  State (ID r) (Model r) (Created r) (ServiceTier r) (SentRole r) (SawToolCall r) (SawText r) (Finalized r)
    (NextToolCallIndex r) (OutputIndexToToolIndex r) (OutputIndexToArguments r) (IncludeUsage r) (Usage r).

Definition NewResponsesEventToChatState (newID : string) (now : Z) : ResponsesEventToChatState :=
  State newID "" now "" false false false false 0 ∅ ∅ false None.

Abbreviation state := ResponsesEventToChatState (only parsing).
Abbreviation reply := (list ChatCompletionsChunk * ResponsesEventToChatState)%type (only parsing).

Definition chunk_of (st : state) : ChatCompletionsChunk :=
  ChatCompletionsChunk_zero <| ck_ID := ID st |> <| ck_Object := "chat.completion.chunk" |>
    <| ck_Created := Created st |> <| ck_Model := Model st |> <| ck_ServiceTier := ServiceTier st |>.

Definition makeChatDeltaChunk (st : state) (delta : ChatDelta) : ChatCompletionsChunk :=
  chunk_of st <| ck_Choices := [MkChatChunkChoice 0 delta None] |>.

Definition makeChatFinishChunk (st : state) (finishReason : string) : ChatCompletionsChunk :=
  chunk_of st <| ck_Choices := [MkChatChunkChoice 0 (ChatDelta_zero <| cd_Content := Some "" |>) (Some finishReason)] |>.

(** The usage chunk that follows the finish chunk when the client asked for it. *)
Definition usage_chunks (st : state) : list ChatCompletionsChunk :=
  match Usage st with
  | Some _ => if IncludeUsage st then [chunk_of st <| ck_Choices := [] |> <| ck_Usage := Usage st |>] else []
  | None => []
  end.

(** ** The handlers *)

Definition resToChatHandleCreated (evt : ResponsesStreamEvent) (st : state) : reply :=
  let st :=
    match re_Response evt with
    | Some r =>
        let st := if rr_ID r =s "" then st else st <| ID := rr_ID r |> in
        let st := if (Model st =s "") && negb (rr_Model r =s "") then st <| Model := rr_Model r |> else st in
        if rr_ServiceTier r =s "" then st else st <| ServiceTier := rr_ServiceTier r |>
    | None => st
    end in
  if SentRole st then ([], st)
  else
    let st := st <| SentRole := true |> in
    ([makeChatDeltaChunk st (ChatDelta_zero <| cd_Role := "assistant" |>)], st).

Definition resToChatHandleTextDelta (evt : ResponsesStreamEvent) (st : state) : reply :=
  if re_Delta evt =s "" then ([], st)
  else
    let st := st <| SawText := true |> in
    ([makeChatDeltaChunk st (ChatDelta_zero <| cd_Content := Some (re_Delta evt) |>)], st).

Definition tool_call_item (item : ResponsesOutput) : bool :=
  (ro_Type item =s "function_call") || (ro_Type item =s "custom_tool_call").

Definition resToChatHandleOutputItemAdded (evt : ResponsesStreamEvent) (st : state) : reply :=
  match re_Item evt with
  | None => ([], st)
  | Some item =>
      if negb (tool_call_item item) then ([], st)
      else
        let idx := NextToolCallIndex st in
        let st := st <| SawToolCall := true |>
                     <| OutputIndexToToolIndex := <[re_OutputIndex evt := idx]> (OutputIndexToToolIndex st) |>
                     <| NextToolCallIndex := idx + 1 |> in
        ([makeChatDeltaChunk st (ChatDelta_zero <| cd_ToolCalls :=
            [MkChatToolCall (Some idx) (ro_CallID item) "function" (MkChatFunctionCall (ro_Name item) "")] |>)], st)
  end.

Definition arguments_chunk (st : state) (idx : Z) (arguments : string) : ChatCompletionsChunk :=
  makeChatDeltaChunk st (ChatDelta_zero <| cd_ToolCalls :=
    [MkChatToolCall (Some idx) "" "" (MkChatFunctionCall "" arguments)] |>).

Definition resToChatHandleFuncArgsDelta (evt : ResponsesStreamEvent) (st : state) : reply :=
  if re_Delta evt =s "" then ([], st)
  else match OutputIndexToToolIndex st !! re_OutputIndex evt with
  | None => ([], st)
  | Some idx =>
      let current := default "" (OutputIndexToArguments st !! re_OutputIndex evt) in
      let st := st <| OutputIndexToArguments :=
                        <[re_OutputIndex evt := current +:+ re_Delta evt]> (OutputIndexToArguments st) |> in
      ([arguments_chunk st idx (re_Delta evt)], st)
  end.

(** The full arguments a done event carries. *)
Definition completed_arguments (evt : ResponsesStreamEvent) : string :=
  if re_Type evt =s "response.custom_tool_call_input.done" then re_Input evt else re_Arguments evt.

Definition resToChatHandleFuncArgsDone (evt : ResponsesStreamEvent) (st : state) : reply :=
  match OutputIndexToToolIndex st !! re_OutputIndex evt with
  | None => ([], st)
  | Some idx =>
      let completed := completed_arguments evt in
      let current := default "" (OutputIndexToArguments st !! re_OutputIndex evt) in
      if (completed =s "") || negb (HasPrefix completed current) || (completed =s current) then ([], st)
      else
        let remainder := str_drop (String.length current) completed in
        let st := st <| OutputIndexToArguments := <[re_OutputIndex evt := completed]> (OutputIndexToArguments st) |> in
        ([arguments_chunk st idx remainder], st)
  end.

Definition resToChatHandleReasoningDelta (evt : ResponsesStreamEvent) (st : state) : reply :=
  if re_Delta evt =s "" then ([], st)
  else ([makeChatDeltaChunk st (ChatDelta_zero <| cd_ReasoningContent := Some (re_Delta evt) |>)], st).

(** The finish reason of a terminal event. *)
Definition finish_reason (evt : ResponsesStreamEvent) (st : state) : string :=
  match re_Response evt with
  | Some r =>
      if rr_Status r =s "incomplete" then
        match rr_IncompleteDetails r with
        | Some d =>
            if rind_Reason d =s "max_output_tokens" then "length"
            else if rind_Reason d =s "content_filter" then "content_filter" else "stop"
        | None => "stop"
        end
      else if rr_Status r =s "completed" then (if SawToolCall st then "tool_calls" else "stop")
      else "stop"
  | None => if SawToolCall st then "tool_calls" else "stop"
  end.

Definition resToChatHandleCompleted (evt : ResponsesStreamEvent) (st : state) : reply :=
  let st := st <| Finalized := true |> in
  let st := match re_Usage evt with
            | Some u => st <| Usage := chatUsageFromResponsesUsage (Some u) |>
            | None => st end in
  let st := match re_Response evt with
            | Some r =>
                let st := match rr_Usage r with
                          | Some u => st <| Usage := chatUsageFromResponsesUsage (Some u) |>
                          | None => st end in
                if rr_ServiceTier r =s "" then st else st <| ServiceTier := rr_ServiceTier r |>
            | None => st
            end in
  (makeChatFinishChunk st (finish_reason evt st) :: usage_chunks st, st).

Definition chat_terminal (t : string) : bool :=
  (t =s "response.completed") || (t =s "response.done") || (t =s "response.incomplete") || (t =s "response.failed").

Definition args_delta_type (t : string) : bool :=
  (t =s "response.function_call_arguments.delta") || (t =s "response.custom_tool_call_input.delta").
Definition args_done_type (t : string) : bool :=
  (t =s "response.function_call_arguments.done") || (t =s "response.custom_tool_call_input.done").
Definition reasoning_delta_type (t : string) : bool :=
  (t =s "response.reasoning_summary_text.delta") || (t =s "response.reasoning_text.delta").

Definition ResponsesEventToChatChunks (evt : ResponsesStreamEvent) (st : state) : reply :=
  let t := re_Type evt in
  if t =s "response.created" then resToChatHandleCreated evt st
  else if t =s "response.output_text.delta" then resToChatHandleTextDelta evt st
  else if t =s "response.output_item.added" then resToChatHandleOutputItemAdded evt st
  else if args_delta_type t then resToChatHandleFuncArgsDelta evt st
  else if args_done_type t then resToChatHandleFuncArgsDone evt st
  else if reasoning_delta_type t then resToChatHandleReasoningDelta evt st
  else if t =s "response.reasoning_summary_text.done" then ([], st)
  else if chat_terminal t then resToChatHandleCompleted evt st
  else ([], st).

Definition FinalizeResponsesChatStream (st : state) : reply :=
  if Finalized st then ([], st)
  else
    let st := st <| Finalized := true |> in
    (makeChatFinishChunk st (if SawToolCall st then "tool_calls" else "stop") :: usage_chunks st, st).

Fixpoint convert (evts : list ResponsesStreamEvent) (st : state) : reply :=
  match evts with
  | [] => ([], st)
  | evt :: evts =>
      let '(chunks, st) := ResponsesEventToChatChunks evt st in
      let '(chunks', st) := convert evts st in
      (chunks ++ chunks', st)
  end.

(** ** The buffered accumulator *)

Record bufferedFuncCall := FuncCall { fc_OutputIndex : Z; fc_CallID : string; fc_Name : string; fc_Args : string }.
#[export] Instance funccall_struct : Struct bufferedFuncCall := fun r =>
  FuncCall (fc_OutputIndex r) (fc_CallID r) (fc_Name r) (fc_Args r).

Record BufferedResponseAccumulator := Accumulator {
  text : string;
  reasoning : string;
  funcCalls : list bufferedFuncCall;
  outputIndexToFuncIdx : gmap Z nat
}.
#[export] Instance accumulator_struct : Struct BufferedResponseAccumulator := fun r =>
  Accumulator (text r) (reasoning r) (funcCalls r) (outputIndexToFuncIdx r).

Definition NewBufferedResponseAccumulator : BufferedResponseAccumulator := Accumulator "" "" [] ∅.

Definition ProcessEvent (event : ResponsesStreamEvent) (a : BufferedResponseAccumulator) : BufferedResponseAccumulator :=
  let t := re_Type event in
  if t =s "response.output_text.delta" then
    if re_Delta event =s "" then a else a <| text := text a +:+ re_Delta event |>
  else if t =s "response.output_item.added" then
    match re_Item event with
    | Some item =>
        if tool_call_item item then
          let idx := length (funcCalls a) in
          a <| outputIndexToFuncIdx := <[re_OutputIndex event := idx]> (outputIndexToFuncIdx a) |>
            <| funcCalls := funcCalls a ++ [FuncCall (re_OutputIndex event) (ro_CallID item) (ro_Name item) ""] |>
        else a
    | None => a
    end
  else if args_delta_type t then
    if re_Delta event =s "" then a
    else match outputIndexToFuncIdx a !! re_OutputIndex event with
    | Some idx => a <| funcCalls := alter (fun c => c <| fc_Args := fc_Args c +:+ re_Delta event |>) idx (funcCalls a) |>
    | None => a
    end
  else if args_done_type t then
    let completed := completed_arguments event in
    if completed =s "" then a
    else match outputIndexToFuncIdx a !! re_OutputIndex event with
    | Some idx => a <| funcCalls := alter (fun c => c <| fc_Args := completed |>) idx (funcCalls a) |>
    | None => a
    end
  else if reasoning_delta_type t then
    if re_Delta event =s "" then a else a <| reasoning := reasoning a +:+ re_Delta event |>
  else a.

Definition HasContent (a : BufferedResponseAccumulator) : bool :=
  (0 <? len (text a)) || (0 <? Z.of_nat (length (funcCalls a))) || (0 <? len (reasoning a)).

Definition output_text_part (s : string) : ResponsesContentPart :=
  ResponsesContentPart_zero <| rp_Type := "output_text" |> <| rp_Text := s |>.

Definition text_message (s : string) : ResponsesOutput :=
  ResponsesOutput_zero <| ro_Type := "message" |> <| ro_Role := "assistant" |> <| ro_Content := [output_text_part s] |>.

Definition BuildOutput (a : BufferedResponseAccumulator) : list ResponsesOutput :=
  (if 0 <? len (reasoning a)
   then [ResponsesOutput_zero <| ro_Type := "reasoning" |> <| ro_Summary := [MkResponsesSummary "summary_text" (reasoning a)] |>]
   else []) ++
  (if 0 <? len (text a) then [text_message (text a)] else []) ++
  map (fun c => ResponsesOutput_zero <| ro_Type := "function_call" |> <| ro_CallID := fc_CallID c |>
                  <| ro_Name := fc_Name c |> <| ro_Arguments := fc_Args c |>) (funcCalls a).

Definition has_text_part (part : ResponsesContentPart) : bool :=
  (rp_Type part =s "output_text") && negb (TrimSpace (rp_Text part) =s "").

Definition responsesOutputHasText (output : list ResponsesOutput) : bool :=
  existsb (fun item => (ro_Type item =s "message") && existsb has_text_part (ro_Content item)) output.

(** The inner loop of [fillResponsesOutputText]: the first blank output_text
    part gets the text, or a part is appended. *)
Fixpoint fill_parts (parts : list ResponsesContentPart) (s : string) : list ResponsesContentPart :=
  match parts with
  | [] => [output_text_part s]
  | p :: parts =>
      if negb (rp_Type p =s "output_text") then p :: fill_parts parts s
      else if TrimSpace (rp_Text p) =s "" then (p <| rp_Text := s |>) :: parts
      else p :: fill_parts parts s
  end.

Fixpoint fillResponsesOutputText (output : list ResponsesOutput) (s : string) : list ResponsesOutput * bool :=
  match output with
  | [] => ([], false)
  | item :: output =>
      if negb (ro_Type item =s "message") then
        let '(output, ok) := fillResponsesOutputText output s in (item :: output, ok)
      else ((item <| ro_Content := fill_parts (ro_Content item) s |>) :: output, true)
  end.

(** The inner loop over the buffered calls for the output item at [outputIndex]. *)
Fixpoint supplement_arguments (outputIndex : Z) (item : ResponsesOutput) (calls : list bufferedFuncCall) : ResponsesOutput :=
  match calls with
  | [] => item
  | call :: calls =>
      let matchesCallID := negb (ro_CallID item =s "") && (ro_CallID item =s fc_CallID call) in
      if negb matchesCallID && negb (fc_OutputIndex call =? outputIndex)
      then supplement_arguments outputIndex item calls
      else if 0 <? len (fc_Args call) then item <| ro_Arguments := fc_Args call |> else item
  end.

Definition SupplementResponseOutput (a : BufferedResponseAccumulator) (resp : ResponsesResponse) : ResponsesResponse :=
  match rr_Output resp with
  | [] => if HasContent a then resp <| rr_Output := BuildOutput a |> else resp
  | _ =>
      let output := rr_Output resp in
      let output :=
        if (0 <? len (text a)) && negb (responsesOutputHasText output) then
          let '(filled, ok) := fillResponsesOutputText output (text a) in
          if ok then filled else filled ++ [text_message (text a)]
        else output in
      resp <| rr_Output := imap (fun outputIndex item =>
        if negb (ro_Type item =s "function_call") || negb (ro_Arguments item =s "") then item
        else supplement_arguments (Z.of_nat outputIndex) item (funcCalls a)) output |>
  end.

(** ** What a streaming client assembles

    A Chat Completions client concatenates the content and reasoning deltas
    and keeps the tool calls by index: an index extends the list or adds to an
    entry of it. *)

Record client := Client { c_content : string; c_reasoning : string; c_calls : list (string * string * string) }.

Definition client_start : client := Client "" "" [].

Definition client_call (calls : list (string * string * string)) (tc : ChatToolCall) : option (list (string * string * string)) :=
  match ct_Index tc with
  | None => None
  | Some i =>
      let f := ct_Function tc in
      if i =? Z.of_nat (length calls) then Some (calls ++ [(ct_ID tc, cf_Name f, cf_Arguments f)])
      else if (0 <=? i) && (i <? Z.of_nat (length calls)) then
        Some (alter (fun '(id, name, args) =>
          (if ct_ID tc =s "" then id else ct_ID tc, if cf_Name f =s "" then name else cf_Name f, args +:+ cf_Arguments f))
          (Z.to_nat i) calls)
      else None
  end.

Definition client_choice (c : client) (ch : ChatChunkChoice) : option client :=
  let d := ckc_Delta ch in
  calls ← foldl (fun acc tc => calls ← acc; client_call calls tc) (Some (c_calls c)) (cd_ToolCalls d);
  Some (Client (c_content c +:+ default "" (cd_Content d)) (c_reasoning c +:+ default "" (ChatDelta_reasoningText d)) calls).

Definition client_chunk (c : client) (k : ChatCompletionsChunk) : option client :=
  foldl (fun acc ch => c ← acc; client_choice c ch) (Some c) (ck_Choices k).

Fixpoint client_run (c : client) (ks : list ChatCompletionsChunk) : option client :=
  match ks with
  | [] => Some c
  | k :: ks => c' ← client_chunk c k; client_run c' ks
  end.

(** The same answer, as the buffered accumulator holds it. *)
Definition client_of (a : BufferedResponseAccumulator) : client :=
  Client (text a) (reasoning a) (map (fun c => (fc_CallID c, fc_Name c, fc_Args c)) (funcCalls a)).

Fixpoint accumulate (evts : list ResponsesStreamEvent) (a : BufferedResponseAccumulator) : BufferedResponseAccumulator :=
  match evts with [] => a | evt :: evts => accumulate evts (ProcessEvent evt a) end.

(** What a conforming upstream does: every tool call has an output index of
    its own, and the arguments of a done event extend those of its deltas. *)
Definition event_ok (evt : ResponsesStreamEvent) (a : BufferedResponseAccumulator) : bool :=
  if re_Type evt =s "response.output_item.added" then
    match re_Item evt with
    | Some item => negb (tool_call_item item) || bool_decide (outputIndexToFuncIdx a !! re_OutputIndex evt = None)
    | None => true
    end
  else if args_done_type (re_Type evt) then
    match outputIndexToFuncIdx a !! re_OutputIndex evt with
    | Some idx =>
        match funcCalls a !! idx with
        | Some c => (completed_arguments evt =s "") || HasPrefix (completed_arguments evt) (fc_Args c)
        | None => true
        end
    | None => true
    end
  else true.

Fixpoint conforming (evts : list ResponsesStreamEvent) (a : BufferedResponseAccumulator) : bool :=
  match evts with [] => true | evt :: evts => event_ok evt a && conforming evts (ProcessEvent evt a) end.

(** The stream state and the accumulator after the same events. *)
Definition related (st : state) (a : BufferedResponseAccumulator) : Prop :=
  NextToolCallIndex st = Z.of_nat (length (funcCalls a)) /\
  (forall oi, OutputIndexToToolIndex st !! oi = Z.of_nat <$> outputIndexToFuncIdx a !! oi) /\
  (forall oi idx, outputIndexToFuncIdx a !! oi = Some idx ->
     exists c, funcCalls a !! idx = Some c /\ fc_OutputIndex c = oi /\
       fc_Args c = default "" (OutputIndexToArguments st !! oi)) /\
  (forall oi, outputIndexToFuncIdx a !! oi = None -> OutputIndexToArguments st !! oi = None).

Definition in_step (st : state) (a : BufferedResponseAccumulator) (r : reply) (a' : BufferedResponseAccumulator) : Prop :=
  client_run (client_of a) (fst r) = Some (client_of a') /\ related (snd r) a'.

(** Replies without tool calls. *)
Lemma plain_in_step st a r a' :
  related st a ->
  NextToolCallIndex (snd r) = NextToolCallIndex st -> OutputIndexToToolIndex (snd r) = OutputIndexToToolIndex st ->
  OutputIndexToArguments (snd r) = OutputIndexToArguments st ->
  funcCalls a' = funcCalls a -> outputIndexToFuncIdx a' = outputIndexToFuncIdx a ->
  client_run (client_of a) (fst r) = Some (client_of a') ->
  in_step st a r a'.
Proof. unfold in_step, related. intros Hr -> -> -> -> -> Hc. auto. Qed.

Lemma added_in_step evt item st a :
  re_Type evt = "response.output_item.added" -> re_Item evt = Some item -> tool_call_item item = true ->
  outputIndexToFuncIdx a !! re_OutputIndex evt = None -> related st a ->
  in_step st a (resToChatHandleOutputItemAdded evt st) (ProcessEvent evt a).
Proof.
  intros Ht Hi Hc Hf (R1 & R2 & R3 & R4). unfold ProcessEvent, resToChatHandleOutputItemAdded. rewrite Ht, Hi, Hc. simpl.
  split; simpl.
  - unfold client_chunk, client_choice, client_call, client_of. simpl. rewrite length_map, R1, Z.eqb_refl. simpl.
    by rewrite !str_app_nil_r, map_app.
  - split_and!; simpl.
    + rewrite R1, length_app. simpl. lia.
    + intros oi. destruct (decide (oi = re_OutputIndex evt)) as [->|Hn].
      * by rewrite !lookup_insert_eq, R1.
      * by rewrite !lookup_insert_ne.
    + intros oi idx. destruct (decide (oi = re_OutputIndex evt)) as [->|Hn].
      * rewrite lookup_insert_eq. intros [= <-]. eexists. rewrite lookup_app_r, Nat.sub_diag by done.
        split_and!; [done | done |]. by rewrite R4.
      * rewrite lookup_insert_ne by done. intros Hx. destruct (R3 oi idx Hx) as (c & H1 & H2 & H3).
        exists c. by rewrite (lookup_app_l_Some _ _ _ _ H1).
    + intros oi. destruct (decide (oi = re_OutputIndex evt)) as [->|Hn]; [by rewrite lookup_insert_eq|].
      rewrite lookup_insert_ne by done. apply R4.
Qed.

(** A tool call whose arguments grow by [s]. *)
Lemma arguments_in_step st st' a oi idx c s :
  related st a -> outputIndexToFuncIdx a !! oi = Some idx -> funcCalls a !! idx = Some c ->
  NextToolCallIndex st' = NextToolCallIndex st -> OutputIndexToToolIndex st' = OutputIndexToToolIndex st ->
  OutputIndexToArguments st' = <[oi := fc_Args c +:+ s]> (OutputIndexToArguments st) ->
  in_step st a ([arguments_chunk st' (Z.of_nat idx) s], st')
    (a <| funcCalls := alter (fun c => c <| fc_Args := fc_Args c +:+ s |>) idx (funcCalls a) |>).
Proof.
  intros (R1 & R2 & R3 & R4) Ho Hc H1 H2 H3. apply lookup_lt_Some in Hc as Hlt. split; simpl.
  - unfold client_chunk, client_choice, client_call, client_of. simpl. rewrite length_map, Nat2Z.id.
    replace (Z.of_nat idx =? _) with false by lia.
    replace ((0 <=? Z.of_nat idx) && _) with true by lia. simpl. rewrite !str_app_nil_r. do 2 f_equal.
    apply list_eq. intros i. rewrite list_lookup_fmap. destruct (decide (i = idx)) as [->|Hn].
    + rewrite !list_lookup_alter_eq. rewrite list_lookup_fmap, Hc. done.
    + by rewrite !list_lookup_alter_ne, list_lookup_fmap.
  - unfold related. simpl. rewrite length_alter, H1, H2, H3. split_and!; [done | done | |].
    + intros oi' idx' Hx. destruct (R3 oi' idx' Hx) as (c' & E1 & E2 & E3). destruct (decide (idx' = idx)) as [->|Hn].
      * rewrite E1 in Hc. injection Hc as ->. destruct (R3 oi idx Ho) as (c2 & F1 & F2 & F3).
        rewrite E1 in F1. injection F1 as <-. rewrite list_lookup_alter_eq, E1. eexists. split; [done|]. simpl.
        split; [done|]. rewrite <- E2, F2. by rewrite lookup_insert_eq.
      * rewrite list_lookup_alter_ne by done. exists c'. split_and!; [done | done|].
        rewrite lookup_insert_ne; [done|]. intros <-. rewrite Ho in Hx. congruence.
    + intros oi' Hx. rewrite lookup_insert_ne; [auto|]. intros <-. congruence.
Qed.

Lemma alter_args_same (calls : list bufferedFuncCall) idx c s :
  calls !! idx = Some c -> fc_Args c = s -> 
  alter (fun c => FuncCall (fc_OutputIndex c) (fc_CallID c) (fc_Name c) s) idx calls = calls.
Proof.
  intros Hc <-. apply list_eq. intros i. destruct (decide (i = idx)) as [->|Hn].
  - rewrite list_lookup_alter_eq, Hc. by destruct c.
  - by rewrite list_lookup_alter_ne.
Qed.

Lemma alter_args_append (calls : list bufferedFuncCall) idx c s :
  calls !! idx = Some c ->
  alter (fun c => FuncCall (fc_OutputIndex c) (fc_CallID c) (fc_Name c) (fc_Args c +:+ s)) idx calls =
  alter (fun c' => FuncCall (fc_OutputIndex c') (fc_CallID c') (fc_Name c') (fc_Args c +:+ s)) idx calls.
Proof.
  intros Hc. apply list_eq. intros i. destruct (decide (i = idx)) as [->|Hn].
  - by rewrite !list_lookup_alter_eq, Hc.
  - by rewrite !list_lookup_alter_ne.
Qed.

Lemma args_delta_in_step evt st a :
  args_delta_type (re_Type evt) = true -> related st a ->
  in_step st a (resToChatHandleFuncArgsDelta evt st) (ProcessEvent evt a).
Proof.
  intros Ht Hr.
  assert (E : ProcessEvent evt a = if re_Delta evt =s "" then a
     else match outputIndexToFuncIdx a !! re_OutputIndex evt with
     | Some idx => a <| funcCalls := alter (fun c => c <| fc_Args := fc_Args c +:+ re_Delta evt |>) idx (funcCalls a) |>
     | None => a end).
  { unfold ProcessEvent. rewrite Ht. unfold args_delta_type in Ht.
    apply orb_true_iff in Ht as [Ht|Ht]; apply String.eqb_eq in Ht; by rewrite Ht. }
  rewrite E. clear E Ht. unfold resToChatHandleFuncArgsDelta. destruct (re_Delta evt =s ""); [by apply plain_in_step|].
  pose proof Hr as (R1 & R2 & R3 & R4). rewrite R2.
  destruct (outputIndexToFuncIdx a !! re_OutputIndex evt) as [idx|] eqn:Ei; [|by apply plain_in_step].
  destruct (R3 _ _ Ei) as (c & H1 & H2 & H3). simpl.
  eapply (arguments_in_step st _ a (re_OutputIndex evt)); try done. simpl. by rewrite H3.
Qed.

Lemma args_done_in_step evt st a :
  args_done_type (re_Type evt) = true -> event_ok evt a = true -> related st a ->
  in_step st a (resToChatHandleFuncArgsDone evt st) (ProcessEvent evt a).
Proof.
  intros Ht Hok Hr.
  assert (E : ProcessEvent evt a = (if completed_arguments evt =s "" then a
     else match outputIndexToFuncIdx a !! re_OutputIndex evt with
     | Some idx => a <| funcCalls := alter (fun c => c <| fc_Args := completed_arguments evt |>) idx (funcCalls a) |>
     | None => a end) /\ (re_Type evt =s "response.output_item.added") = false).
  { unfold ProcessEvent. rewrite Ht. unfold args_done_type in Ht.
    apply orb_true_iff in Ht as [Ht|Ht]; apply String.eqb_eq in Ht; by rewrite Ht. }
  destruct E as [-> E2]. unfold event_ok in Hok. rewrite E2, Ht in Hok. clear E2 Ht.
  unfold resToChatHandleFuncArgsDone. pose proof Hr as (R1 & R2 & R3 & R4). rewrite R2.
  destruct (outputIndexToFuncIdx a !! re_OutputIndex evt) as [idx|] eqn:Ei; simpl; [|case_match; by apply plain_in_step].
  destruct (R3 _ _ Ei) as (c & H1 & H2 & H3). rewrite H1 in Hok. rewrite <- H3.
  destruct (completed_arguments evt =s "") eqn:Ec; [by apply plain_in_step|]. simpl in Hok |- *. rewrite Hok. simpl.
  destruct (completed_arguments evt =s fc_Args c) eqn:Es.
  { apply String.eqb_eq in Es. rewrite (alter_args_same _ _ c) by done. by apply plain_in_step. }
  apply HasPrefix_spec in Hok as [s Hs]. rewrite Hs, str_drop_app.
  rewrite <- (alter_args_append _ _ c s H1). by eapply (arguments_in_step st _ a (re_OutputIndex evt)).
Qed.

Lemma usage_chunks_run c st : client_run c (usage_chunks st) = Some c.
Proof. unfold usage_chunks. repeat case_match; done. Qed.

Lemma completed_in_step evt st a :
  related st a -> in_step st a (resToChatHandleCompleted evt st) a.
Proof.
  intros Hr. unfold resToChatHandleCompleted. set (st3 := match re_Response evt with Some _ => _ | None => _ end).
  assert (E : NextToolCallIndex st3 = NextToolCallIndex st /\ OutputIndexToToolIndex st3 = OutputIndexToToolIndex st /\
    OutputIndexToArguments st3 = OutputIndexToArguments st).
  { subst st3. repeat case_match; done. }
  clearbody st3. destruct E as (E1 & E2 & E3). apply plain_in_step; try done. simpl.
  rewrite str_app_nil_r. rewrite (str_app_nil_r (reasoning a)). apply usage_chunks_run.
Qed.

Ltac plain := apply plain_in_step; try done; unfold client_of; simpl; rewrite ?str_app_nil_r; done.

Lemma converter_in_step evt st a :
  event_ok evt a = true -> related st a -> in_step st a (ResponsesEventToChatChunks evt st) (ProcessEvent evt a).
Proof.
  intros Hok Hr. unfold ResponsesEventToChatChunks.
  destruct (re_Type evt =s "response.created") eqn:E.
  { apply String.eqb_eq in E. unfold ProcessEvent. rewrite E. simpl. unfold resToChatHandleCreated.
    set (st1 := match re_Response evt with Some _ => _ | None => _ end).
    assert (H : NextToolCallIndex st1 = NextToolCallIndex st /\ OutputIndexToToolIndex st1 = OutputIndexToToolIndex st /\
      OutputIndexToArguments st1 = OutputIndexToArguments st) by (subst st1; repeat case_match; done).
    clearbody st1. destruct H as (H1 & H2 & H3). case_match; plain. }
  destruct (re_Type evt =s "response.output_text.delta") eqn:E1.
  { apply String.eqb_eq in E1. unfold ProcessEvent. rewrite E1. simpl. unfold resToChatHandleTextDelta. case_match; plain. }
  destruct (re_Type evt =s "response.output_item.added") eqn:E2.
  { apply String.eqb_eq in E2. unfold event_ok in Hok. rewrite E2 in Hok. simpl in Hok.
    destruct (re_Item evt) as [item|] eqn:Ei.
    - destruct (tool_call_item item) eqn:Et.
      + eapply added_in_step; try done. by apply bool_decide_eq_true in Hok.
      + unfold ProcessEvent, resToChatHandleOutputItemAdded. rewrite E2, Ei, Et. simpl. by apply plain_in_step.
    - unfold ProcessEvent, resToChatHandleOutputItemAdded. rewrite E2, Ei. simpl. by apply plain_in_step. }
  destruct (args_delta_type (re_Type evt)) eqn:E3; [by apply args_delta_in_step|].
  destruct (args_done_type (re_Type evt)) eqn:E4; [by apply args_done_in_step|].
  unfold ProcessEvent. rewrite E1, E2, E3, E4.
  destruct (reasoning_delta_type (re_Type evt)).
  { unfold resToChatHandleReasoningDelta. case_match; plain. }
  case_match; [by apply plain_in_step|]. case_match; [by apply completed_in_step | by apply plain_in_step].
Qed.

Lemma convert_in_step evts st a :
  conforming evts a = true -> related st a -> in_step st a (convert evts st) (accumulate evts a).
Proof.
  revert st a. induction evts as [|evt evts IH]; intros st a Hc Hr; simpl in *; [by split|].
  apply andb_true_iff in Hc as [Ho Hc]. destruct (converter_in_step evt st a Ho Hr) as [H1 H2].
  destruct (ResponsesEventToChatChunks evt st) as [ks st1]. simpl in H1, H2.
  destruct (IH st1 _ Hc H2) as [I1 I2]. destruct (convert evts st1) as [ks' st2]. split; [|done].
  simpl in *. clear -H1 I1. revert H1. generalize (client_of a) as c. induction ks as [|k ks IH]; intros c; simpl.
  - intros [= ->]. done.
  - intros H. destruct (client_chunk c k) as [c'|]; [|done]. simpl in *. auto.
Qed.

Lemma new_related id now : related (NewResponsesEventToChatState id now) NewBufferedResponseAccumulator.
Proof. unfold related. simpl. split_and!; [done | done | intros oi idx; rewrite lookup_empty; discriminate | done]. Qed.

(** C14: streaming and buffering agree.  For every stream of a conforming upstream, the
    content, the reasoning and the tool calls a client assembles from the
    chunks, by index, are exactly those [BufferedResponseAccumulator] collects
    from the same events; no chunk refers to a tool call the client does not
    know. *)
Theorem stream_matches_buffer id now evts :
  conforming evts NewBufferedResponseAccumulator = true ->
  client_run client_start (fst (convert evts (NewResponsesEventToChatState id now)))
    = Some (client_of (accumulate evts NewBufferedResponseAccumulator)).
Proof. intros Hc. exact (proj1 (convert_in_step evts _ _ Hc (new_related id now))). Qed.

(** ** The end of a stream *)

Definition streaming (evts : list ResponsesStreamEvent) : Prop :=
  Forall (fun evt => chat_terminal (re_Type evt) = false) evts.

(** A chunk that tells the client the answer is over. *)
Definition finishes (k : ChatCompletionsChunk) : bool :=
  existsb (fun ch => match ckc_FinishReason ch with Some _ => true | None => false end) (ck_Choices k).

(** An event that announces a tool call. *)
Definition announces (evt : ResponsesStreamEvent) : bool :=
  (re_Type evt =s "response.output_item.added") &&
  match re_Item evt with Some item => tool_call_item item | None => false end.

Definition no_finish (r : reply) (st : state) (announced : bool) : Prop :=
  existsb finishes (fst r) = false /\ Finalized (snd r) = Finalized st /\
  SawToolCall (snd r) = SawToolCall st || announced.

Lemma converter_no_finish evt st :
  chat_terminal (re_Type evt) = false -> no_finish (ResponsesEventToChatChunks evt st) st (announces evt).
Proof.
  intros Ht. unfold ResponsesEventToChatChunks, announces. rewrite Ht.
  destruct (re_Type evt =s "response.output_item.added") eqn:E.
  { apply String.eqb_eq in E. rewrite E. simpl. unfold resToChatHandleOutputItemAdded.
    destruct (re_Item evt) as [item|]; [destruct (tool_call_item item)|]; simpl;
      (split_and!; [done | done |]); simpl; by rewrite ?orb_true_r, ?orb_false_r. }
  assert (N : forall r, existsb finishes (fst r) = false -> Finalized (snd r) = Finalized st ->
    SawToolCall (snd r) = SawToolCall st -> no_finish r st (false && true)).
  { intros r H1 H2 H3. split_and!; [done | done | by rewrite orb_false_r]. }
  change (no_finish ?r st (false && _)) with (no_finish r st (false && true)).
  unfold resToChatHandleCreated, resToChatHandleTextDelta, resToChatHandleFuncArgsDelta, resToChatHandleFuncArgsDone,
    resToChatHandleReasoningDelta.
  repeat case_match; by apply N.
Qed.

Lemma convert_no_finish evts st :
  streaming evts -> no_finish (convert evts st) st (existsb announces evts).
Proof.
  intros Hs. revert st. induction Hs as [|evt evts Ht _ IH]; intros st; simpl; [split_and!; [done|done|by rewrite orb_false_r]|].
  destruct (converter_no_finish evt st Ht) as (H1 & H2 & H3). destruct (ResponsesEventToChatChunks evt st) as [ks st1].
  destruct (IH st1) as (I1 & I2 & I3). destruct (convert evts st1) as [ks' st2]. simpl in *.
  split_and!; simpl; [rewrite existsb_app; by rewrite H1, I1 | congruence | by rewrite I3, H3, orb_assoc].
Qed.

Lemma usage_chunks_no_finish st : existsb finishes (usage_chunks st) = false.
Proof. unfold usage_chunks. repeat case_match; done. Qed.

Lemma completed_finalized evt st : Finalized (snd (resToChatHandleCompleted evt st)) = true.
Proof.
  unfold resToChatHandleCompleted. cbn [snd]. destruct (re_Response evt) as [r|]; [|by destruct (re_Usage evt)].
  destruct (rr_Usage r), (re_Usage evt), (rr_ServiceTier r =s ""); reflexivity.
Qed.

Lemma finalize_finalized st : Finalized st = true -> FinalizeResponsesChatStream st = ([], st).
Proof. unfold FinalizeResponsesChatStream. by intros ->. Qed.

(** exactly one finish chunk.  Before its terminal event a stream produces no
    chunk with a finish reason.  The terminal event then produces exactly one,
    first, and the finalizer nothing more; if the stream breaks off, the
    finalizer produces it, with reason [tool_calls] exactly when a tool call
    was announced, and a second call produces nothing. *)
Theorem finishes_once id now pre t :
  streaming pre -> chat_terminal (re_Type t) = true ->
  let r := convert pre (NewResponsesEventToChatState id now) in
  let st := snd r in
  let fin := FinalizeResponsesChatStream st in
  let term := ResponsesEventToChatChunks t st in
  existsb finishes (fst r) = false /\
  (exists st1, fst fin = makeChatFinishChunk st1 (if existsb announces pre then "tool_calls" else "stop") :: usage_chunks st1) /\
  existsb finishes (tail (fst fin)) = false /\
  FinalizeResponsesChatStream (snd fin) = ([], snd fin) /\
  (exists st1 reason, fst term = makeChatFinishChunk st1 reason :: usage_chunks st1) /\
  existsb finishes (tail (fst term)) = false /\
  FinalizeResponsesChatStream (snd term) = ([], snd term).
Proof.
  intros Hs Ht r st fin term. destruct (convert_no_finish pre _ Hs : no_finish r _ _) as (H1 & H2 & H3).
  fold st in H2, H3. simpl in H2, H3. clearbody st.
  assert (Hterm : term = resToChatHandleCompleted t st).
  { subst term. unfold ResponsesEventToChatChunks. rewrite Ht. unfold chat_terminal in Ht.
    repeat (apply orb_true_iff in Ht as [Ht|Ht]); apply String.eqb_eq in Ht; by rewrite Ht. }
  rewrite Hterm. subst fin.
  assert (Hfin : FinalizeResponsesChatStream st =
    (makeChatFinishChunk (st <| Finalized := true |>) (if existsb announces pre then "tool_calls" else "stop")
       :: usage_chunks (st <| Finalized := true |>), st <| Finalized := true |>)).
  { unfold FinalizeResponsesChatStream. rewrite H2. simpl. by rewrite H3. }
  rewrite Hfin.
  split_and!; [done | by eexists | apply usage_chunks_no_finish | done | by eexists _, _ | apply usage_chunks_no_finish |].
  apply finalize_finalized, completed_finalized.
Qed.

(** ** The buffered answer *)

Lemma len_pos (s : string) : (0 <? len s) = negb (s =s "").
Proof. unfold len. destruct s; simpl; [done|]. by destruct (Z.ltb_spec 0 (Z.of_nat (S (String.length s)))); [|lia]. Qed.

Definition call_triple (tc : ChatToolCall) : string * string * string :=
  (ct_ID tc, cf_Name (ct_Function tc), cf_Arguments (ct_Function tc)).

Lemma gather_calls calls g :
  fold_left gather_item (map (fun c => ResponsesOutput_zero <| ro_Type := "function_call" |> <| ro_CallID := fc_CallID c |>
    <| ro_Name := fc_Name c |> <| ro_Arguments := fc_Args c |>) calls) g =
  Gathered (contentText g) (reasoningText g)
    (toolCalls g ++ map (fun c => ChatToolCall_zero <| ct_ID := fc_CallID c |> <| ct_Type := "function" |>
       <| ct_Function := MkChatFunctionCall (fc_Name c) (fc_Args c) |>) calls).
Proof.
  revert g. induction calls as [|c calls IH]; intros g; simpl; [rewrite app_nil_r; by destruct g|].
  rewrite IH. simpl. by rewrite <- app_assoc.
Qed.

Lemma gather_built a :
  let g := fold_left gather_item (BuildOutput a) (Gathered "" "" []) in
  contentText g = text a /\ reasoningText g = reasoning a /\
  map call_triple (toolCalls g) = map (fun c => (fc_CallID c, fc_Name c, fc_Args c)) (funcCalls a).
Proof.
  intros g. subst g. unfold BuildOutput. rewrite !fold_left_app, gather_calls, !len_pos.
  destruct (reasoning a =s "") eqn:E1; destruct (text a =s "") eqn:E2; simpl;
    rewrite ?E1, ?E2; simpl; rewrite ?append_nil;
    rewrite ?(proj1 (String.eqb_eq _ _) E1), ?(proj1 (String.eqb_eq _ _) E2); rewrite map_map; done.
Qed.

(** a non-streaming answer rebuilt from a stream equals the streamed one.  When
    the terminal response carries no output, the message built from the
    supplemented response has the content, the reasoning and the tool calls
    a streaming client would have assembled from the same events. *)
Theorem buffered_equals_streamed id now evts resp model :
  conforming evts NewBufferedResponseAccumulator = true ->
  rr_Output resp = [] ->
  let a := accumulate evts NewBufferedResponseAccumulator in
  exists msg reason,
    ccr_Choices (ResponsesToChatCompletions id now (SupplementResponseOutput a resp) model) = [MkChatChoice 0 msg reason] /\
    client_run client_start (fst (convert evts (NewResponsesEventToChatState id now))) =
      Some (Client (text a) (cm_ReasoningContent msg) (map call_triple (cm_ToolCalls msg))) /\
    cm_Content msg = (if text a =s "" then "" else Json.quote (text a)).
Proof.
  intros Hc Ho a. pose proof (proj1 (convert_in_step evts _ _ Hc (new_related id now))) as Hs. fold a in Hs.
  assert (Hout : fold_left gather_item (rr_Output (SupplementResponseOutput a resp)) (Gathered "" "" []) =
                 fold_left gather_item (BuildOutput a) (Gathered "" "" [])).
  { unfold SupplementResponseOutput. rewrite Ho. destruct (HasContent a) eqn:Eh; [done|]. rewrite Ho.
    unfold HasContent in Eh. apply orb_false_iff in Eh as [Eh E3]. apply orb_false_iff in Eh as [E1 E2].
    unfold BuildOutput. rewrite E1, E3. by destruct (funcCalls a). }
  destruct (gather_built a) as (G1 & G2 & G3).
  unfold ResponsesToChatCompletions. simpl. rewrite Hout. set (g := fold_left gather_item (BuildOutput a) _) in *.
  rewrite G1, G2. do 2 eexists. split; [done|]. change (client_of NewBufferedResponseAccumulator) with client_start in Hs.
  rewrite Hs. unfold client_of. rewrite <- G3. split.
  - do 2 f_equal; destruct (text a =s ""), (reasoning a =s "") eqn:E; simpl; try done; by apply String.eqb_eq in E.
  - destruct (text a =s ""), (reasoning a =s ""); done.
Qed.

(** *** Supplementing a terminal response *)

Lemma fill_parts_has_text parts s : TrimSpace s <> "" -> existsb has_text_part (fill_parts parts s) = true.
Proof.
  intros Hs. apply String.eqb_neq in Hs. induction parts as [|p parts IH]; simpl.
  - unfold has_text_part. simpl. by rewrite Hs.
  - destruct (rp_Type p =s "output_text") eqn:E; simpl; [|by rewrite IH, orb_true_r].
    destruct (TrimSpace (rp_Text p) =s ""); simpl; [|by rewrite IH, orb_true_r].
    unfold has_text_part at 1. simpl. by rewrite E, Hs.
Qed.

Lemma fill_output_has_text output s :
  TrimSpace s <> "" -> snd (fillResponsesOutputText output s) = true ->
  responsesOutputHasText (fst (fillResponsesOutputText output s)) = true.
Proof.
  intros Hs. induction output as [|item output IH]; [done|]. simpl. unfold responsesOutputHasText in *.
  destruct (ro_Type item =s "message") eqn:E; simpl.
  - intros _. by rewrite E, fill_parts_has_text.
  - destruct (fillResponsesOutputText output s) as [o ok]. simpl in *. intros Hok. by rewrite IH, orb_true_r.
Qed.

Lemma supplement_arguments_frame i item calls :
  ro_Type (supplement_arguments i item calls) = ro_Type item /\ ro_Content (supplement_arguments i item calls) = ro_Content item.
Proof. induction calls as [|c calls IH]; simpl; [done|]. repeat case_match; done. Qed.

Lemma imap_has_text (f : nat -> ResponsesOutput -> ResponsesOutput) output :
  (forall i item, ro_Type (f i item) = ro_Type item /\ ro_Content (f i item) = ro_Content item) ->
  responsesOutputHasText (imap f output) = responsesOutputHasText output /\
  map ro_Content (imap f output) = map ro_Content output.
Proof.
  revert f. induction output as [|item output IH]; intros f Hf; [done|]. unfold responsesOutputHasText in *. simpl.
  destruct (Hf O item) as [-> ->]. destruct (IH (f ∘ S)) as [I1 I2]; [intros; apply Hf|]. by rewrite I1, I2.
Qed.

(** an answer is never lost to an empty terminal payload.  Once visible text
    has streamed, the supplemented response has visible text; and when the
    terminal response had visible text of its own, the content of every item
    is left as it is. *)
Theorem supplement_keeps_answer a resp :
  TrimSpace (text a) <> "" ->
  let resp' := SupplementResponseOutput a resp in
  responsesOutputHasText (rr_Output resp') = true /\
  (responsesOutputHasText (rr_Output resp) = true -> map ro_Content (rr_Output resp') = map ro_Content (rr_Output resp)).
Proof.
  intros Ht resp'. subst resp'. unfold SupplementResponseOutput.
  assert (Hp : (0 <? len (text a)) = true).
  { rewrite len_pos. destruct (text a =s "") eqn:E; [|done]. apply String.eqb_eq in E. by rewrite E in Ht. }
  assert (Hm : responsesOutputHasText [text_message (text a)] = true).
  { unfold responsesOutputHasText, has_text_part. simpl. apply String.eqb_neq in Ht. by rewrite Ht. }
  assert (Happ : forall o1 o2, responsesOutputHasText (o1 ++ o2) = responsesOutputHasText o1 || responsesOutputHasText o2)
    by (intros; apply existsb_app).
  destruct (rr_Output resp) as [|item output] eqn:Eo.
  { unfold HasContent. rewrite Hp. simpl. split; [|done]. unfold BuildOutput.
    rewrite Hp, !Happ, Hm. by rewrite orb_true_r. }
  rewrite Hp. set (o := item :: output) in *. clearbody o.
  set (o' := if true && negb (responsesOutputHasText o) then _ else o).
  set (f := fun (outputIndex : nat) (item : ResponsesOutput) => _).
  destruct (imap_has_text f o') as [I1 I2].
  { intros i it. subst f. simpl. destruct (_ || _); [done|]. apply supplement_arguments_frame. }
  simpl rr_Output. rewrite I1, I2. subst o'. destruct (responsesOutputHasText o) eqn:Eh; simpl; [done|].
  split; [|done]. pose proof (fill_output_has_text o (text a) Ht) as Hf.
  destruct (fillResponsesOutputText o (text a)) as [filled []]; simpl in Hf; [by apply Hf|].
  by rewrite Happ, Hm, orb_true_r.
Qed.

(** ** The theorems at concrete inputs *)

Definition event (t : string) : ResponsesStreamEvent := ResponsesStreamEvent_zero <| re_Type := t |>.

Definition sample_stream : list ResponsesStreamEvent :=
  [event "response.created";
   event "response.output_text.delta" <| re_Delta := "Hi" |>;
   event "response.output_item.added" <| re_OutputIndex := 1 |>
     <| re_Item := Some (ResponsesOutput_zero <| ro_Type := "function_call" |> <| ro_CallID := "c1" |> <| ro_Name := "f" |>) |>;
   event "response.function_call_arguments.delta" <| re_OutputIndex := 1 |> <| re_Delta := "{}" |>;
   event "response.function_call_arguments.done" <| re_OutputIndex := 1 |> <| re_Arguments := "{} " |>].

Lemma stream_matches_buffer_witness :
  client_run client_start (fst (convert (sample_stream ++ [event "response.completed"]) (NewResponsesEventToChatState "id" 0)))
    = Some (Client "Hi" "" [("c1", "f", "{} ")]).
Proof.
  pose proof (stream_matches_buffer "id" 0 (sample_stream ++ [event "response.completed"])) as H.
  specialize (H ltac:(vm_compute; reflexivity)). exact H.
Defined.

Lemma finishes_once_witness :
  let st := snd (convert sample_stream (NewResponsesEventToChatState "id" 0)) in
  FinalizeResponsesChatStream (snd (FinalizeResponsesChatStream st)) = ([], snd (FinalizeResponsesChatStream st)).
Proof.
  pose proof (finishes_once "id" 0 sample_stream (event "response.completed")) as H.
  do 2 (specialize (H ltac:(repeat constructor))). destruct H as (_ & _ & _ & H & _). exact H.
Defined.

Lemma buffered_equals_streamed_witness :
  exists msg reason,
    ccr_Choices (ResponsesToChatCompletions "id" 0 (SupplementResponseOutput
      (accumulate sample_stream NewBufferedResponseAccumulator) ResponsesResponse_zero) "m") = [MkChatChoice 0 msg reason] /\
    cm_Content msg = Json.sq "'Hi'".
Proof.
  pose proof (buffered_equals_streamed "id" 0 sample_stream ResponsesResponse_zero "m") as H.
  do 2 (specialize (H ltac:(vm_compute; reflexivity))). destruct H as (msg & reason & H1 & _ & H3).
  exists msg, reason. split; [exact H1 | rewrite H3; vm_compute; reflexivity].
Defined.

Lemma supplement_keeps_answer_witness :
  responsesOutputHasText (rr_Output (SupplementResponseOutput
    (accumulate sample_stream NewBufferedResponseAccumulator)
    (ResponsesResponse_zero <| rr_Output := [text_message " "] |>))) = true.
Proof.
  pose proof (supplement_keeps_answer (accumulate sample_stream NewBufferedResponseAccumulator)
    (ResponsesResponse_zero <| rr_Output := [text_message " "] |>)) as H.
  specialize (H ltac:(vm_compute; congruence)). exact (proj1 H).
Defined.

End ResToChat.
