(* ===== verification/ClaudeModels.v ===== *)
(** * ClaudeModels: Claude model ids and their effort levels

    Models [src/backend/internal/pkg/claude/effort_catalog.go]: the
    normalisation of a provider-decorated model id and the table of effort
    levels, with the override map of [constants.go] it reads. *)

From S2P Require Import Prelude GoStrings Json.

Module ClaudeModels.

(** [unicode.IsDigit]: the ranges of category Nd. *)
Definition digit_ranges : list (Z * Z) :=
  map (fun lo => (lo, lo + 9))
    [48; 1632; 1776; 1984; 2406; 2534; 2662; 2790; 2918; 3046; 3174; 3302; 3430; 3558; 3664; 3792; 3872; 4160;
     4240; 6112; 6160; 6470; 6608; 6784; 6800; 6992; 7088; 7232; 7248; 42528; 43216; 43264; 43472; 43504; 43600;
     44016; 65296; 66720; 68912; 68928; 69734; 69872; 69942; 70096; 70384; 70736; 70864; 71248; 71360; 71376;
     71386; 71472; 71904; 72016; 72688; 72784; 73040; 73120; 73184; 73552; 92768; 92864; 93008; 93552; 118000;
     123200; 123632; 124144; 124401; 125264; 130032]
  ++ [(120782, 120831)].
Definition unicode_IsDigit (r : Z) : bool := existsb (fun '(lo, hi) => (lo <=? r) && (r <=? hi)) digit_ranges.

(** [for _, r := range s] with a test: every rune of the string passes. *)
Fixpoint runes_all (fuel : nat) (P : Z -> bool) (l : list ascii) : bool :=
  match fuel, l with
  | _, [] => true
  | O, _ => false
  | S fuel, _ => let '(r, w) := Json.decode_rune l in P r && runes_all fuel P (drop w l)
  end.

Definition TrimSuffix (s suf : string) : string :=
  let n := (String.length s - String.length suf)%nat in
  if (String.length suf <=? String.length s)%nat && (str_drop n s =s suf) then str_take n s else s.

Definition ModelIDReverseOverrides : gmap string string :=
  list_to_map [("claude-sonnet-4-5-20250929", "claude-sonnet-4-5"); ("claude-opus-4-5-20251101", "claude-opus-4-5");
               ("claude-haiku-4-5-20251001", "claude-haiku-4-5")].

(** The date suffix: a dash and eight bytes of digits at the end. *)
Definition strip_date (id : string) : string :=
  if 9 <=? len id then
    let n := (String.length id - 9)%nat in
    match to_bytes (str_drop n id) with
    | c :: r => if is_byte 45 c && runes_all 8 unicode_IsDigit r then str_take n id else id
    | [] => id
    end
  else id.

Definition normalizeEffortModelID (model : string) : string :=
  let id := ToLower (TrimSpace model) in
  let id := TrimPrefix id "models/" in
  let id := match IndexByte id (chr 47) with
            | Some slash => TrimPrefix (TrimSpace (str_drop (S slash) id)) "models/"
            | None => id
            end in
  let id := fold_left TrimPrefix ["us."; "eu."; "apac."; "jp."; "au."; "us-gov."; "global."] id in
  let id := TrimPrefix id "anthropic." in
  let id := TrimSuffix id "-thinking" in
  let id := if id =s "claude-opus-5.5" then "claude-opus-5-5" else id in
  let id := if id =s "claude-sonnet-5.5" then "claude-sonnet-5-5" else id in
  let id := default id (ModelIDReverseOverrides !! id) in
  strip_date id.

Definition IsOpus55 (model : string) : bool := normalizeEffortModelID model =s "claude-opus-5-5".
Definition IsSonnet55 (model : string) : bool := normalizeEffortModelID model =s "claude-sonnet-5-5".

Definition effortLowMediumHigh : list string := ["low"; "medium"; "high"].
Definition effortLowMediumHighMax : list string := ["low"; "medium"; "high"; "max"].
Definition effortLowMediumHighXHighMax : list string := ["low"; "medium"; "high"; "xhigh"; "max"].

Definition effortFamilies : list (string * list string) :=
  [("claude-mythos-preview", effortLowMediumHighMax); ("claude-mythos-5", effortLowMediumHighXHighMax);
   ("claude-fable-5", effortLowMediumHighXHighMax); ("claude-sonnet-4-6", effortLowMediumHighMax);
   ("claude-sonnet-5-5", effortLowMediumHighXHighMax); ("claude-sonnet-5", effortLowMediumHighXHighMax);
   ("claude-opus-4-8", effortLowMediumHighXHighMax); ("claude-opus-4-7", effortLowMediumHighXHighMax);
   ("claude-opus-4-6", effortLowMediumHighMax); ("claude-opus-4-5", effortLowMediumHigh);
   ("claude-opus-5-5", effortLowMediumHighXHighMax); ("claude-opus-5", effortLowMediumHighXHighMax)].

Definition EffortLevelsForModel (model : string) : list string :=
  let id := normalizeEffortModelID model in
  match find (fun '(family, _) => (id =s family) || HasPrefix id (family +:+ "-")) effortFamilies with
  | Some (_, levels) => levels
  | None => []
  end.

(** Decorations do not change the model: provider, region, vendor and local
    decorations, in any letter case, with blanks around or a dated snapshot
    suffix behind. *)
Lemma decorations_ignored :
  Forall (fun fl => Forall (fun model => EffortLevelsForModel model = snd fl)
      (pre ← [""; "models/"; "openrouter/models/"; "US."; "bedrock/apac.anthropic."; " global.Anthropic."];
       suf ← [""; "-thinking"; "-20251101"; " "];
       [pre +:+ fst fl +:+ suf])) effortFamilies /\
  Forall (fun m => IsOpus55 m = true) ["Claude-Opus-5.5"; "us.anthropic.claude-opus-5-5-thinking"; "x/claude-opus-5-5-20260101"] /\
  Forall (fun m => IsSonnet55 m = true) ["claude-sonnet-5.5"; "models/claude-sonnet-5-5"] /\
  Forall (fun m => IsOpus55 m = false) ["claude-opus-5"; "claude-opus-5-5-1"; "claude-opus-4-5-20251101"].
Proof. split_and!; apply (bool_decide_unpack _); vm_compute; exact I. Qed.

End ClaudeModels.
