(* ===== verification/AnthToRes.v ===== *)
(** * AnthToRes: Anthropic answers and streams as Responses

    Models [src/backend/internal/pkg/apicompat/anthropic_to_responses_response.go]:
    the non-streaming conversion and the stateful stream converter with its
    finalizer.  Handlers map a state to the events to send and the next
    state.  [generateItemID] draws a random id: the ids drawn are the section
    variable [itemID], and the state counts how many were drawn.  The
    [strings.Builder] of the current arguments is the string it holds. *)

From S2P Require Import Prelude GoStrings Json ApicompatTypes ClaudeModels ResToAnth.

Module AnthToRes.

(** ** Helpers *)

Definition base64_digit (n : Z) : ascii :=
  if n <? 26 then chr (65 + n) else if n <? 52 then chr (71 + n) else if n <? 62 then chr (n - 4)
  else if n =? 62 then chr 43 else chr 47.

(** [base64.RawStdEncoding.EncodeToString]: no padding. *)
Fixpoint base64_encode (l : list ascii) : list ascii :=
  match l with
  | [] => []
  | [a] => let x := byte_of a * 65536 in [base64_digit (x / 262144); base64_digit ((x / 4096) mod 64)]
  | [a; b] =>
      let x := byte_of a * 65536 + byte_of b * 256 in
      [base64_digit (x / 262144); base64_digit ((x / 4096) mod 64); base64_digit ((x / 64) mod 64)]
  | a :: b :: c :: r =>
      let x := byte_of a * 65536 + byte_of b * 256 + byte_of c in
      base64_digit (x / 262144) :: base64_digit ((x / 4096) mod 64) :: base64_digit ((x / 64) mod 64) ::
      base64_digit (x mod 64) :: base64_encode r
  end.

Definition anthropicThinkingEnvelopePrefix : string := "anthropic-thinking-v1:".

Definition encodeAnthropicThinking (block : AnthropicContentBlock) : string :=
  let member name v := if v =s "" then "" else Json.sq ",'" +:+ name +:+ Json.sq "':" +:+ Json.quote v in
  let payload := Json.sq "{'type':" +:+ Json.quote (cb_Type block) +:+
                 Json.sq ",'thinking':" +:+ Json.quote (cb_Thinking block) +:+
                 member "signature" (cb_Signature block) +:+ member "data" (cb_Data block) +:+ "}" in
  anthropicThinkingEnvelopePrefix +:+ of_bytes (base64_encode (to_bytes payload)).

Definition toResponsesCallID (id : string) : string := id.

(** The free text of a custom tool from the arguments of its function form. *)
Definition extractCustomToolCallInput (arguments : string) : string :=
  let trimmed := TrimSpace arguments in
  if trimmed =s "" then ""
  else match Json.unmarshal_object trimmed with
  | None => trimmed
  | Some obj =>
      match obj !! "input" with
      | Some raw => match Json.unmarshal_string raw with Some s => s | None => trimmed end
      | None => if bool_decide (obj = ∅) then "" else trimmed
      end
  end.

Definition normalizeResponsesFunctionArgs (args : string) : string := if TrimSpace args =s "" then "{}" else args.

Definition seedToolArguments (input : string) : string :=
  let trimmed := TrimSpace input in
  if (trimmed =s "") || (trimmed =s "{}") || (trimmed =s "null") then "" else trimmed.

Definition anthropicStopReasonToResponsesStatus (stopReason : string) : string :=
  if stopReason =s "max_tokens" then "incomplete" else "completed".

Definition anthropicResponsesStreamTerminalState (stopReason : string) : string * option ResponsesIncompleteDetails :=
  if stopReason =s "max_tokens" then ("incomplete", Some (MkResponsesIncompleteDetails "max_output_tokens"))
  else ("completed", None).

Definition output_text_part (s : string) : ResponsesContentPart :=
  ResponsesContentPart_zero <| rp_Type := "output_text" |> <| rp_Text := s |>.

(** The totals of both conversions: Anthropic's input count excludes the
    cached tokens, the Responses one includes them. *)
Definition responses_usage (input output cacheRead cacheCreation : Z) : ResponsesUsage :=
  let totalInputTokens := wrap64 (wrap64 (input + cacheRead) + cacheCreation) in
  ResponsesUsage_zero
    <| ru_InputTokens := totalInputTokens |> <| ru_OutputTokens := output |>
    <| ru_TotalTokens := wrap64 (totalInputTokens + output) |>
    <| ru_CacheCreationInputTokens := cacheCreation |>
    <| ru_InputTokensDetails := if 0 <? cacheRead
         then Some (ResponsesInputTokensDetails_zero <| rid_CachedTokens := cacheRead |>) else None |>.

(** ** The stream state *)

Record AnthropicEventToResponsesState := State {
  ResponseID : string;
  Model : string;
  Created : Z;
  SequenceNumber : Z;
  CreatedSent : bool;
  CompletedSent : bool;
  OutputIndex : Z;
  CurrentItemID : string;
  CurrentItemType : string;
  CustomTools : gmap string bool;
  ContentIndex : Z;
  TextAccum : string;
  CurrentCallID : string;
  CurrentName : string;
  CurrentArgs : string;
  CurrentContent : list ResponsesContentPart;
  CurrentSummary : string;
  CurrentThinking : AnthropicContentBlock;
  PreserveThinkingSignatures : bool;
  PendingToolInput : string;
  Outputs : list ResponsesOutput;
  InputTokens : Z;
  OutputTokens : Z;
  CacheReadInputTokens : Z;
  CacheCreationInputTokens : Z;
  StopReason : string;
  IDsDrawn : nat
}.
#[export] Instance state_struct : Struct AnthropicEventToResponsesState := fun r =>
  State (ResponseID r) (Model r) (Created r) (SequenceNumber r) (CreatedSent r) (CompletedSent r) (OutputIndex r)
    (CurrentItemID r) (CurrentItemType r) (CustomTools r) (ContentIndex r) (TextAccum r) (CurrentCallID r)
    (CurrentName r) (CurrentArgs r) (CurrentContent r) (CurrentSummary r) (CurrentThinking r)
    (PreserveThinkingSignatures r) (PendingToolInput r) (Outputs r) (InputTokens r) (OutputTokens r)
    (CacheReadInputTokens r) (CacheCreationInputTokens r) (StopReason r) (IDsDrawn r).

(** [CustomTools] is set by the caller before the first event. *)
Definition NewAnthropicEventToResponsesState (now : Z) (customTools : gmap string bool) : AnthropicEventToResponsesState :=
  State "" "" now 0 false false 0 "" "" customTools 0 "" "" "" "" [] "" AnthropicContentBlock_zero false "" [] 0 0 0 0 "" 0.

Abbreviation state := AnthropicEventToResponsesState (only parsing).
Abbreviation reply := (list ResponsesStreamEvent * AnthropicEventToResponsesState)%type (only parsing).

Section converter.
Context (itemID : nat -> string).

Definition generateItemID (st : state) : string * state :=
  (itemID (IDsDrawn st), st <| IDsDrawn := S (IDsDrawn st) |>).

Definition makeResponsesEvent (st : state) (eventType : string) (template : ResponsesStreamEvent) : ResponsesStreamEvent * state :=
  (template <| re_Type := eventType |> <| re_SequenceNumber := SequenceNumber st |>,
   st <| SequenceNumber := SequenceNumber st + 1 |>).

Definition makeResponsesCreatedEvent (st : state) : ResponsesStreamEvent * state :=
  (ResponsesStreamEvent_zero <| re_Type := "response.created" |> <| re_SequenceNumber := SequenceNumber st |>
     <| re_Response := Some (ResponsesResponse_zero <| rr_ID := ResponseID st |> <| rr_Object := "response" |>
          <| rr_CreatedAt := Created st |> <| rr_Model := Model st |> <| rr_Status := "in_progress" |>
          <| rr_Output := [] |>) |>,
   st <| SequenceNumber := SequenceNumber st + 1 |>).

Definition makeResponsesCompletedEvent (st : state) (status : string) (incompleteDetails : option ResponsesIncompleteDetails)
    : ResponsesStreamEvent * state :=
  let usage := responses_usage (InputTokens st) (OutputTokens st) (CacheReadInputTokens st) (CacheCreationInputTokens st) in
  let eventType := if status =s "incomplete" then "response.incomplete" else "response.completed" in
  (ResponsesStreamEvent_zero <| re_Type := eventType |> <| re_SequenceNumber := SequenceNumber st |>
     <| re_Response := Some (ResponsesResponse_zero <| rr_ID := ResponseID st |> <| rr_Object := "response" |>
          <| rr_CreatedAt := Created st |> <| rr_Model := Model st |> <| rr_Status := status |>
          <| rr_Output := Outputs st |> <| rr_Usage := Some usage |> <| rr_IncompleteDetails := incompleteDetails |>) |>,
   st <| SequenceNumber := SequenceNumber st + 1 |>).

(** The item an open output becomes when it closes. *)
Definition closed_item (st : state) : ResponsesOutput :=
  let itemType := CurrentItemType st in
  let item := ResponsesOutput_zero <| ro_Type := itemType |> <| ro_ID := CurrentItemID st |> <| ro_Status := "completed" |> in
  if itemType =s "message" then item <| ro_Role := "assistant" |> <| ro_Content := CurrentContent st |>
  else if itemType =s "function_call" then
    item <| ro_CallID := CurrentCallID st |> <| ro_Name := CurrentName st |>
         <| ro_Arguments := normalizeResponsesFunctionArgs (CurrentArgs st) |>
  else if itemType =s "custom_tool_call" then
    item <| ro_CallID := CurrentCallID st |> <| ro_Name := CurrentName st |>
         <| ro_Input := extractCustomToolCallInput (normalizeResponsesFunctionArgs (CurrentArgs st)) |>
  else if itemType =s "reasoning" then
    let summary := CurrentSummary st in
    let thinking := CurrentThinking st in
    let item := if summary =s "" then item else item <| ro_Summary := [MkResponsesSummary "summary_text" summary] |> in
    if PreserveThinkingSignatures st && (negb (cb_Signature thinking =s "") || negb (cb_Data thinking =s ""))
    then item <| ro_EncryptedContent := encodeAnthropicThinking (thinking <| cb_Thinking := summary |>) |>
    else item
  else item.

Definition closeCurrentResponsesItem (st : state) : reply :=
  if CurrentItemType st =s "" then ([], st)
  else
    let item := closed_item st in
    let st := st <| CurrentItemType := "" |> <| CurrentItemID := "" |> <| CurrentCallID := "" |> <| CurrentName := "" |>
                 <| CurrentArgs := "" |> <| CurrentContent := [] |> <| PendingToolInput := "" |>
                 <| CurrentSummary := "" |> <| CurrentThinking := AnthropicContentBlock_zero |>
                 <| TextAccum := "" |> <| OutputIndex := OutputIndex st + 1 |> <| ContentIndex := 0 |> in
    let st := st <| Outputs := Outputs st ++ [item] |> in
    let '(e, st) := makeResponsesEvent st "response.output_item.done"
      (ResponsesStreamEvent_zero <| re_OutputIndex := OutputIndex st - 1 |> <| re_Item := Some item |>) in
    ([e], st).

(** ** The handlers *)

Definition set_positive (v : Z) (old : Z) : Z := if 0 <? v then v else old.

Definition anthToResHandleMessageStart (evt : AnthropicStreamEvent) (st : state) : reply :=
  let st :=
    match ae_Message evt with
    | Some m =>
        let st := st <| ResponseID := ar_ID m |>
          <| PreserveThinkingSignatures := PreserveThinkingSignatures st || ClaudeModels.IsOpus55 (ar_Model m)
               || ClaudeModels.IsSonnet55 (ar_Model m) |> in
        let st := if Model st =s "" then st <| Model := ar_Model m |> else st in
        st <| InputTokens := set_positive (au_InputTokens (ar_Usage m)) (InputTokens st) |>
           <| CacheReadInputTokens := set_positive (au_CacheReadInputTokens (ar_Usage m)) (CacheReadInputTokens st) |>
           <| CacheCreationInputTokens := set_positive (au_CacheCreationInputTokens (ar_Usage m)) (CacheCreationInputTokens st) |>
    | None => st
    end in
  if CreatedSent st then ([], st)
  else
    let '(e, st) := makeResponsesCreatedEvent (st <| CreatedSent := true |>) in
    ([e], st).

Definition item_added (st : state) (item : ResponsesOutput) : ResponsesStreamEvent * state :=
  makeResponsesEvent st "response.output_item.added"
    (ResponsesStreamEvent_zero <| re_OutputIndex := OutputIndex st |> <| re_Item := Some item |>).

(** A message item is open afterwards. *)
Definition open_message_item (st : state) : reply :=
  if CurrentItemType st =s "message" then ([], st)
  else
    let '(events, st) := closeCurrentResponsesItem st in
    let '(id, st) := generateItemID st in
    let st := st <| CurrentItemID := id |> <| CurrentItemType := "message" |> <| ContentIndex := 0 |> in
    let '(e, st) := item_added st (ResponsesOutput_zero <| ro_Type := "message" |> <| ro_ID := CurrentItemID st |>
                      <| ro_Role := "assistant" |> <| ro_Status := "in_progress" |>) in
    (events ++ [e], st).

Definition anthToResHandleContentBlockStart (evt : AnthropicStreamEvent) (st : state) : reply :=
  match ae_ContentBlock evt with
  | None => ([], st)
  | Some block =>
      if (cb_Type block =s "thinking") || (cb_Type block =s "redacted_thinking") then
        let '(events, st) := closeCurrentResponsesItem st in
        let '(id, st) := generateItemID st in
        let st := st <| CurrentItemID := id |> <| CurrentItemType := "reasoning" |> <| CurrentThinking := block |>
                     <| CurrentSummary := cb_Thinking block |> <| ContentIndex := 0 |> in
        let '(e, st) := item_added st (ResponsesOutput_zero <| ro_Type := "reasoning" |> <| ro_ID := CurrentItemID st |>) in
        (events ++ [e], st)
      else if cb_Type block =s "text" then
        let '(events, st) := open_message_item st in
        let '(e, st) := makeResponsesEvent st "response.content_part.added"
          (ResponsesStreamEvent_zero <| re_OutputIndex := OutputIndex st |> <| re_ContentIndex := ContentIndex st |>
             <| re_ItemID := CurrentItemID st |> <| re_Part := Some (output_text_part "") |>) in
        (events ++ [e], st <| TextAccum := "" |>)
      else if cb_Type block =s "tool_use" then
        let '(events, st) := closeCurrentResponsesItem st in
        let '(id, st) := generateItemID st in
        let itemType := if default false (CustomTools st !! cb_Name block) then "custom_tool_call" else "function_call" in
        let st := st <| CurrentItemID := id |> <| CurrentItemType := itemType |>
                     <| CurrentCallID := toResponsesCallID (cb_ID block) |> <| CurrentName := cb_Name block |>
                     <| CurrentArgs := "" |> <| PendingToolInput := seedToolArguments (cb_Input block) |> in
        let '(e, st) := item_added st (ResponsesOutput_zero <| ro_Type := CurrentItemType st |> <| ro_ID := CurrentItemID st |>
                          <| ro_CallID := CurrentCallID st |> <| ro_Name := CurrentName st |> <| ro_Status := "in_progress" |>) in
        (events ++ [e], st)
      else ([], st)
  end.

(** The delta event of the open function call. *)
Definition args_delta (st : state) (s : string) : ResponsesStreamEvent * state :=
  makeResponsesEvent st "response.function_call_arguments.delta"
    (ResponsesStreamEvent_zero <| re_OutputIndex := OutputIndex st |> <| re_Delta := s |>
       <| re_ItemID := CurrentItemID st |> <| re_CallID := CurrentCallID st |> <| re_Name := CurrentName st |>).

Definition anthToResHandleContentBlockDelta (evt : AnthropicStreamEvent) (st : state) : reply :=
  match ae_Delta evt with
  | None => ([], st)
  | Some d =>
      if ad_Type d =s "text_delta" then
        if ad_Text d =s "" then ([], st)
        else
          let st := st <| TextAccum := TextAccum st +:+ ad_Text d |> in
          let '(e, st) := makeResponsesEvent st "response.output_text.delta"
            (ResponsesStreamEvent_zero <| re_OutputIndex := OutputIndex st |> <| re_ContentIndex := ContentIndex st |>
               <| re_Delta := ad_Text d |> <| re_ItemID := CurrentItemID st |>) in
          ([e], st)
      else if ad_Type d =s "thinking_delta" then
        if ad_Thinking d =s "" then ([], st)
        else
          let st := st <| CurrentSummary := CurrentSummary st +:+ ad_Thinking d |> in
          let '(e, st) := makeResponsesEvent st "response.reasoning_summary_text.delta"
            (ResponsesStreamEvent_zero <| re_OutputIndex := OutputIndex st |> <| re_SummaryIndex := 0 |>
               <| re_Delta := ad_Thinking d |> <| re_ItemID := CurrentItemID st |>) in
          ([e], st)
      else if ad_Type d =s "input_json_delta" then
        if ad_PartialJSON d =s "" then ([], st)
        else
          let st := st <| PendingToolInput := "" |> <| CurrentArgs := CurrentArgs st +:+ ad_PartialJSON d |> in
          if CurrentItemType st =s "custom_tool_call" then ([], st)
          else let '(e, st) := args_delta st (ad_PartialJSON d) in ([e], st)
      else if ad_Type d =s "signature_delta" then
        ([], if PreserveThinkingSignatures st
             then st <| CurrentThinking := CurrentThinking st
                        <| cb_Signature := cb_Signature (CurrentThinking st) +:+ ad_Signature d |> |>
             else st)
      else ([], st)
  end.

Definition anthToResHandleContentBlockStop (st : state) : reply :=
  if CurrentItemType st =s "reasoning" then
    let '(e, st) := makeResponsesEvent st "response.reasoning_summary_text.done"
      (ResponsesStreamEvent_zero <| re_OutputIndex := OutputIndex st |> <| re_SummaryIndex := 0 |> <| re_ItemID := CurrentItemID st |>) in
    let '(events, st) := closeCurrentResponsesItem st in
    ([e] ++ events, st)
  else if CurrentItemType st =s "function_call" then
    let '(events, st) :=
      if (CurrentArgs st =s "") && negb (PendingToolInput st =s "") then
        let st := st <| CurrentArgs := CurrentArgs st +:+ PendingToolInput st |> in
        let '(e, st) := args_delta st (PendingToolInput st) in ([e], st)
      else ([], st) in
    let st := st <| PendingToolInput := "" |> in
    let '(e, st) := makeResponsesEvent st "response.function_call_arguments.done"
      (ResponsesStreamEvent_zero <| re_OutputIndex := OutputIndex st |> <| re_ItemID := CurrentItemID st |>
         <| re_CallID := CurrentCallID st |> <| re_Name := CurrentName st |>
         <| re_Arguments := normalizeResponsesFunctionArgs (CurrentArgs st) |>) in
    let '(events', st) := closeCurrentResponsesItem st in
    (events ++ [e] ++ events', st)
  else if CurrentItemType st =s "custom_tool_call" then
    let st := if (CurrentArgs st =s "") && negb (PendingToolInput st =s "")
              then st <| CurrentArgs := CurrentArgs st +:+ PendingToolInput st |> else st in
    let st := st <| PendingToolInput := "" |> in
    let input := extractCustomToolCallInput (normalizeResponsesFunctionArgs (CurrentArgs st)) in
    let '(events, st) :=
      if input =s "" then ([], st)
      else
        let '(e, st) := makeResponsesEvent st "response.custom_tool_call_input.delta"
          (ResponsesStreamEvent_zero <| re_OutputIndex := OutputIndex st |> <| re_ItemID := CurrentItemID st |>
             <| re_Delta := input |>) in
        ([e], st) in
    let '(e, st) := makeResponsesEvent st "response.custom_tool_call_input.done"
      (ResponsesStreamEvent_zero <| re_OutputIndex := OutputIndex st |> <| re_ItemID := CurrentItemID st |>
         <| re_CallID := CurrentCallID st |> <| re_Name := CurrentName st |> <| re_Input := input |>) in
    let '(events', st) := closeCurrentResponsesItem st in
    (events ++ [e] ++ events', st)
  else if CurrentItemType st =s "message" then
    let text := TextAccum st in
    let st := st <| TextAccum := "" |> in
    let contentIndex := ContentIndex st in
    let st := st <| CurrentContent := CurrentContent st ++ [output_text_part text] |>
                 <| ContentIndex := ContentIndex st + 1 |> in
    let '(e1, st) := makeResponsesEvent st "response.output_text.done"
      (ResponsesStreamEvent_zero <| re_OutputIndex := OutputIndex st |> <| re_ContentIndex := contentIndex |>
         <| re_ItemID := CurrentItemID st |> <| re_Text := text |>) in
    let '(e2, st) := makeResponsesEvent st "response.content_part.done"
      (ResponsesStreamEvent_zero <| re_OutputIndex := OutputIndex st |> <| re_ContentIndex := contentIndex |>
         <| re_ItemID := CurrentItemID st |> <| re_Part := Some (output_text_part text) |>) in
    ([e1; e2], st)
  else ([], st).

Definition anthToResHandleMessageDelta (evt : AnthropicStreamEvent) (st : state) : reply :=
  let st :=
    match ae_Usage evt with
    | Some u =>
        st <| OutputTokens := au_OutputTokens u |>
           <| InputTokens := set_positive (au_InputTokens u) (InputTokens st) |>
           <| CacheReadInputTokens := set_positive (au_CacheReadInputTokens u) (CacheReadInputTokens st) |>
           <| CacheCreationInputTokens := set_positive (au_CacheCreationInputTokens u) (CacheCreationInputTokens st) |>
    | None => st
    end in
  let st :=
    match ae_Delta evt with
    | Some d => if ad_StopReason d =s "" then st else st <| StopReason := ad_StopReason d |>
    | None => st
    end in
  ([], st).

(** Close the open item and send the terminal event. *)
Definition terminate (st : state) : reply :=
  let '(events, st) := closeCurrentResponsesItem st in
  let '(status, incompleteDetails) := anthropicResponsesStreamTerminalState (StopReason st) in
  let '(e, st) := makeResponsesCompletedEvent st status incompleteDetails in
  (events ++ [e], st <| CompletedSent := true |>).

Definition anthToResHandleMessageStop (st : state) : reply :=
  if CompletedSent st then ([], st) else terminate st.

Definition AnthropicEventToResponsesEvents (evt : AnthropicStreamEvent) (st : state) : reply :=
  let t := ae_Type evt in
  if t =s "message_start" then anthToResHandleMessageStart evt st
  else if t =s "content_block_start" then anthToResHandleContentBlockStart evt st
  else if t =s "content_block_delta" then anthToResHandleContentBlockDelta evt st
  else if t =s "content_block_stop" then anthToResHandleContentBlockStop st
  else if t =s "message_delta" then anthToResHandleMessageDelta evt st
  else if t =s "message_stop" then anthToResHandleMessageStop st
  else ([], st).

Definition FinalizeAnthropicResponsesStream (st : state) : reply :=
  if negb (CreatedSent st) || CompletedSent st then ([], st) else terminate st.

Fixpoint convert (evts : list AnthropicStreamEvent) (st : state) : reply :=
  match evts with
  | [] => ([], st)
  | evt :: evts =>
      let '(events, st) := AnthropicEventToResponsesEvents evt st in
      let '(events', st) := convert evts st in
      (events ++ events', st)
  end.

(** ** The non-streaming conversion *)

(** The loop over [resp.Content]: the output items, the text parts gathered
    for the final message item, and the number of ids drawn. *)
Definition block_outputs (perBlock : bool) (customTools : gmap string bool)
    (acc : list ResponsesOutput * list ResponsesContentPart * nat) (block : AnthropicContentBlock)
    : list ResponsesOutput * list ResponsesContentPart * nat :=
  let '(outputs, msgParts, n) := acc in
  let t := cb_Type block in
  if (t =s "thinking") || (t =s "redacted_thinking") then
    let summary := if cb_Thinking block =s "" then [] else [MkResponsesSummary "summary_text" (cb_Thinking block)] in
    let item := ResponsesOutput_zero <| ro_Type := "reasoning" |> <| ro_ID := itemID n |> <| ro_Summary := summary |> in
    if perBlock && (negb (cb_Signature block =s "") || negb (cb_Data block =s ""))
    then (outputs ++ [item <| ro_EncryptedContent := encodeAnthropicThinking block |>], msgParts, S n)
    else if cb_Thinking block =s "" then acc else (outputs ++ [item], msgParts, S n)
  else if t =s "text" then
    if perBlock && negb (cb_Text block =s "") then
      (outputs ++ [ResponsesOutput_zero <| ro_Type := "message" |> <| ro_ID := itemID n |> <| ro_Role := "assistant" |>
         <| ro_Status := "completed" |> <| ro_Content := [output_text_part (cb_Text block)] |>], msgParts, S n)
    else if cb_Text block =s "" then acc
    else (outputs, msgParts ++ [output_text_part (cb_Text block)], n)
  else if t =s "tool_use" then
    let args := if 0 <? len (cb_Input block) then cb_Input block else "{}" in
    let callID := toResponsesCallID (cb_ID block) in
    let item := ResponsesOutput_zero <| ro_ID := itemID n |> <| ro_CallID := callID |> <| ro_Name := cb_Name block |>
                  <| ro_Status := "completed" |> in
    if default false (customTools !! cb_Name block)
    then (outputs ++ [item <| ro_Type := "custom_tool_call" |> <| ro_Input := extractCustomToolCallInput args |>], msgParts, S n)
    else (outputs ++ [item <| ro_Type := "function_call" |> <| ro_Arguments := args |>], msgParts, S n)
  else acc.

Definition message_output (id : string) (parts : list ResponsesContentPart) : ResponsesOutput :=
  ResponsesOutput_zero <| ro_Type := "message" |> <| ro_ID := id |> <| ro_Role := "assistant" |>
    <| ro_Content := parts |> <| ro_Status := "completed" |>.

Definition AnthropicToResponsesResponseWithCustomTools (newID : string) (now : Z) (resp : AnthropicResponse)
    (customTools : gmap string bool) : ResponsesResponse :=
  let id := if ar_ID resp =s "" then newID else ar_ID resp in
  let perBlock := ClaudeModels.IsOpus55 (ar_Model resp) || ClaudeModels.IsSonnet55 (ar_Model resp) in
  let '(outputs, msgParts, n) := fold_left (block_outputs perBlock customTools) (ar_Content resp) ([], [], O) in
  let '(outputs, n) := match msgParts with [] => (outputs, n) | _ => (outputs ++ [message_output (itemID n) msgParts], S n) end in
  let outputs := match outputs with [] => [message_output (itemID n) [output_text_part ""]] | _ => outputs end in
  let status := anthropicStopReasonToResponsesStatus (AnthropicStopReasonString (ar_StopReason resp)) in
  let u := ar_Usage resp in
  ResponsesResponse_zero <| rr_ID := id |> <| rr_Object := "response" |> <| rr_CreatedAt := now |> <| rr_Model := ar_Model resp |>
    <| rr_Output := outputs |> <| rr_Status := status |>
    <| rr_IncompleteDetails := if status =s "incomplete" then Some (MkResponsesIncompleteDetails "max_output_tokens") else None |>
    <| rr_Usage := Some (responses_usage (au_InputTokens u) (au_OutputTokens u) (au_CacheReadInputTokens u) (au_CacheCreationInputTokens u)) |>.

Definition AnthropicToResponsesResponse (newID : string) (now : Z) (resp : AnthropicResponse) : ResponsesResponse :=
  AnthropicToResponsesResponseWithCustomTools newID now resp ∅.

(** ** Conforming Anthropic streams

    Blocks do not overlap, a delta has the type of the open block, and blocks
    are of the four types the converter translates, starting empty.  The state
    is the type of the open block and whether the message ended. *)

Definition reasoning_type (t : string) : bool := (t =s "thinking") || (t =s "redacted_thinking").

Definition delta_fits (block : string) (d : AnthropicDelta) : bool :=
  if ad_Type d =s "text_delta" then block =s "text"
  else if (ad_Type d =s "thinking_delta") || (ad_Type d =s "signature_delta") then reasoning_type block
  else if ad_Type d =s "input_json_delta" then block =s "tool_use"
  else false.

Definition up_step (u : option string * bool) (e : AnthropicStreamEvent) : option (option string * bool) :=
  let '(open, ended) := u in
  let t := ae_Type e in
  if ended then None
  else if t =s "content_block_start" then
    match ae_ContentBlock e, open with
    | Some b, None =>
        if (reasoning_type (cb_Type b) && (cb_Thinking b =s "")) || (cb_Type b =s "text") || (cb_Type b =s "tool_use")
        then Some (Some (cb_Type b), false) else None
    | _, _ => None
    end
  else if t =s "content_block_delta" then
    match ae_Delta e, open with
    | Some d, Some block => if delta_fits block d then Some (open, false) else None
    | _, _ => None
    end
  else if t =s "content_block_stop" then match open with Some _ => Some (None, false) | None => None end
  else if t =s "message_stop" then match open with None => Some (None, true) | Some _ => None end
  else Some (open, false).

Fixpoint up_run (u : option string * bool) (es : list AnthropicStreamEvent) : option (option string * bool) :=
  match es with [] => Some u | e :: es => u' ← up_step u e; up_run u' es end.

(** ** An accumulating Responses client

    What the SDK's stream helper does, with the consistency checks strict
    clients make: sequence numbers count the events; items open one at a time
    at consecutive indices; parts are added before their deltas; a done event
    repeats exactly what was accumulated, except that the one of a reasoning
    summary may come without its text; a closed item carries what was
    accumulated, the reasoning summary included; the terminal event repeats all
    the items. *)

Record open_item := Open { o_type : string; o_id : string; o_parts : list string; o_part : bool; o_text : string }.

Record sdk := Sdk { k_seq : Z; k_done : list ResponsesOutput; k_open : option open_item; k_final : bool }.

Definition sdk_start : sdk := Sdk 0 [] None false.

Fixpoint append_last (l : list string) (s : string) : list string :=
  match l with
  | [] => []
  | [x] => [x +:+ s]
  | x :: l => x :: append_last l s
  end.

Definition summary_of (item : ResponsesOutput) : string := String.concat "" (map rs_Text (ro_Summary item)).

(** A closed item carries what was accumulated for it. *)
Definition item_matches (o : open_item) (item : ResponsesOutput) : bool :=
  (ro_Type item =s o_type o) && (ro_ID item =s o_id o) && negb (o_part o) &&
  (if o_type o =s "message" then bool_decide (map rp_Text (ro_Content item) = o_parts o)
   else if o_type o =s "function_call" then ro_Arguments item =s normalizeResponsesFunctionArgs (o_text o)
   else if o_type o =s "custom_tool_call" then ro_Input item =s o_text o
   else summary_of item =s o_text o).

Definition sdk_open_step (k : sdk) (o : open_item) (e : ResponsesStreamEvent) : option sdk :=
  let t := re_Type e in
  let next o' := Some (Sdk (k_seq k + 1) (k_done k) o' (k_final k)) in
  if negb (re_OutputIndex e =? Z.of_nat (length (k_done k))) then None
  else if t =s "response.output_item.done" then
    match re_Item e with
    | Some item => if item_matches o item then Some (Sdk (k_seq k + 1) (k_done k ++ [item]) None (k_final k)) else None
    | None => None
    end
  else if negb (re_ItemID e =s o_id o) then None
  else if t =s "response.content_part.added" then
    if (o_type o =s "message") && negb (o_part o) && (re_ContentIndex e =? Z.of_nat (length (o_parts o)))
    then next (Some (Open (o_type o) (o_id o) (o_parts o ++ [""]) true (o_text o))) else None
  else if t =s "response.output_text.delta" then
    if o_part o && (re_ContentIndex e =? Z.of_nat (length (o_parts o)) - 1)
    then next (Some (Open (o_type o) (o_id o) (append_last (o_parts o) (re_Delta e)) true (o_text o))) else None
  else if t =s "response.output_text.done" then
    if o_part o && (re_ContentIndex e =? Z.of_nat (length (o_parts o)) - 1) &&
       bool_decide (last (o_parts o) = Some (re_Text e)) then next (Some o) else None
  else if t =s "response.content_part.done" then
    if o_part o && (re_ContentIndex e =? Z.of_nat (length (o_parts o)) - 1) &&
       bool_decide (last (o_parts o) = rp_Text <$> re_Part e)
    then next (Some (Open (o_type o) (o_id o) (o_parts o) false (o_text o))) else None
  else if t =s "response.reasoning_summary_text.delta" then
    if o_type o =s "reasoning" then next (Some (Open (o_type o) (o_id o) (o_parts o) (o_part o) (o_text o +:+ re_Delta e))) else None
  else if t =s "response.reasoning_summary_text.done" then
    if (o_type o =s "reasoning") && ((re_Text e =s "") || (re_Text e =s o_text o)) then next (Some o) else None
  else if t =s "response.function_call_arguments.delta" then
    if o_type o =s "function_call" then next (Some (Open (o_type o) (o_id o) (o_parts o) (o_part o) (o_text o +:+ re_Delta e))) else None
  else if t =s "response.function_call_arguments.done" then
    if (o_type o =s "function_call") && (re_Arguments e =s normalizeResponsesFunctionArgs (o_text o)) then next (Some o) else None
  else if t =s "response.custom_tool_call_input.delta" then
    if o_type o =s "custom_tool_call" then next (Some (Open (o_type o) (o_id o) (o_parts o) (o_part o) (o_text o +:+ re_Delta e))) else None
  else if t =s "response.custom_tool_call_input.done" then
    if (o_type o =s "custom_tool_call") && (re_Input e =s o_text o) then next (Some o) else None
  else None.

Definition sdk_step (k : sdk) (e : ResponsesStreamEvent) : option sdk :=
  let t := re_Type e in
  if negb (re_SequenceNumber e =? k_seq k) || k_final k then None
  else if t =s "response.created" then Some (Sdk (k_seq k + 1) (k_done k) (k_open k) false)
  else match k_open k with
  | Some o => sdk_open_step k o e
  | None =>
      if t =s "response.output_item.added" then
        match re_Item e with
        | Some item =>
            if re_OutputIndex e =? Z.of_nat (length (k_done k))
            then Some (Sdk (k_seq k + 1) (k_done k) (Some (Open (ro_Type item) (ro_ID item) [] false "")) false) else None
        | None => None
        end
      else if (t =s "response.completed") || (t =s "response.incomplete") then
        match re_Response e with
        | Some r => if bool_decide (rr_Output r = k_done k)
                    then Some (Sdk (k_seq k + 1) (rr_Output r) None true) else None
        | None => None
        end
      else None
  end.

Fixpoint sdk_run (k : sdk) (es : list ResponsesStreamEvent) : option sdk :=
  match es with [] => Some k | e :: es => k' ← sdk_step k e; sdk_run k' es end.

Lemma sdk_run_app k es es' : sdk_run k (es ++ es') = (k' ← sdk_run k es; sdk_run k' es').
Proof. revert k. induction es as [|e es IH]; intros k; simpl; [done|]. destruct (sdk_step k e); simpl; auto. Qed.

(** ** The client of a conforming stream *)

Definition item_text (st : state) : string :=
  if CurrentItemType st =s "reasoning" then CurrentSummary st
  else if CurrentItemType st =s "function_call" then CurrentArgs st else "".

(** The client state the converter state stands for, given the type of the
    upstream block that is open. *)
Definition open_of (block : option string) (st : state) : open_item :=
  let in_text := bool_decide (block = Some "text") in
  Open (CurrentItemType st) (CurrentItemID st)
    (map rp_Text (CurrentContent st) ++ (if in_text then [TextAccum st] else [])) in_text (item_text st).

Definition sdk_of (block : option string) (st : state) : sdk :=
  Sdk (SequenceNumber st) (Outputs st)
    (if CurrentItemType st =s "" then None else Some (open_of block st)) (CompletedSent st).

Definition shape (block : option string) (st : state) : Prop :=
  OutputIndex st = Z.of_nat (length (Outputs st)) /\
  match block with
  | Some b =>
      if b =s "text" then CurrentItemType st = "message" /\ ContentIndex st = Z.of_nat (length (CurrentContent st))
      else CurrentContent st = [] /\ TextAccum st = "" /\
           if reasoning_type b then CurrentItemType st = "reasoning"
           else b = "tool_use" /\ (CurrentItemType st = "function_call" \/ CurrentItemType st = "custom_tool_call")
  | None =>
      TextAccum st = "" /\
      (CurrentItemType st = "" /\ CurrentContent st = [] \/
       CurrentItemType st = "message" /\ ContentIndex st = Z.of_nat (length (CurrentContent st)))
  end.

(** A reply the client accepts. *)
Definition accepted (k : sdk) (r : reply) (block : option string) : Prop :=
  sdk_run k (fst r) = Some (sdk_of block (snd r)) /\ shape block (snd r).

Lemma accepted_app k es st' es' st'' b b' :
  accepted k (es, st') b -> accepted (sdk_of b st') (es', st'') b' -> accepted k (es ++ es', st'') b'.
Proof. intros [H1 _] [H2 H3]. split; [|done]. simpl in *. by rewrite sdk_run_app, H1. Qed.

Lemma accepted_nil b st : shape b st -> accepted (sdk_of b st) ([], st) b.
Proof. done. Qed.

(** Closing the open item [o], when the closed item repeats it. *)
Lemma close_accepted o st :
  CurrentItemType st <> "" -> CompletedSent st = false -> OutputIndex st = Z.of_nat (length (Outputs st)) ->
  item_matches o (closed_item st) = true ->
  accepted (Sdk (SequenceNumber st) (Outputs st) (Some o) false) (closeCurrentResponsesItem st) None /\
  CurrentItemType (snd (closeCurrentResponsesItem st)) = "" /\
  CompletedSent (snd (closeCurrentResponsesItem st)) = false.
Proof.
  intros Ht Hc Ho Hm. apply String.eqb_neq in Ht. unfold closeCurrentResponsesItem. rewrite Ht.
  generalize dependent (closed_item st). intros item Hm. split_and!; [|done|done]. split; simpl.
  - unfold sdk_step. simpl. rewrite Z.eqb_refl. simpl. unfold sdk_open_step. simpl.
    replace (OutputIndex st + 1 - 1 =? _) with true by lia. simpl. rewrite Hm. unfold sdk_of. simpl. by rewrite Hc.
  - unfold shape. simpl. rewrite length_app. simpl. split_and!; [lia | done | by left].
Qed.

(** Between blocks: nothing or a message is open. *)
Lemma close_between st :
  shape None st -> CompletedSent st = false ->
  accepted (sdk_of None st) (closeCurrentResponsesItem st) None /\
  CurrentItemType (snd (closeCurrentResponsesItem st)) = "" /\
  CompletedSent (snd (closeCurrentResponsesItem st)) = false.
Proof.
  intros Hs Hc. pose proof Hs as (Ho & Ht & [[Hi Hn]|[Hi Hn]]).
  - unfold closeCurrentResponsesItem. rewrite Hi. simpl. done.
  - unfold sdk_of. rewrite Hi, Hc. simpl. apply close_accepted; try done; [congruence|].
    unfold item_matches, open_of, closed_item. rewrite Hi. simpl. rewrite !String.eqb_refl. simpl.
    rewrite app_nil_r. by rewrite bool_decide_true.
Qed.

Lemma added_step seq outs e item :
  re_Type e = "response.output_item.added" -> re_SequenceNumber e = seq -> re_Item e = Some item ->
  re_OutputIndex e = Z.of_nat (length outs) ->
  sdk_run (Sdk seq outs None false) [e] = Some (Sdk (seq + 1) outs (Some (Open (ro_Type item) (ro_ID item) [] false "")) false).
Proof. intros Ht <- Hi Ho. simpl. unfold sdk_step. rewrite Ht, Hi, Ho. simpl. by rewrite !Z.eqb_refl. Qed.

(** An event for the open item. *)
Lemma open_step seq outs o e :
  re_SequenceNumber e = seq -> re_Type e <> "response.created" ->
  sdk_step (Sdk seq outs (Some o) false) e = sdk_open_step (Sdk seq outs (Some o) false) o e.
Proof. intros <- Ht. unfold sdk_step. simpl. rewrite Z.eqb_refl. apply String.eqb_neq in Ht. by rewrite Ht. Qed.

Lemma sdk_of_closed b st :
  CurrentItemType st = "" -> CompletedSent st = false -> sdk_of b st = Sdk (SequenceNumber st) (Outputs st) None false.
Proof. unfold sdk_of. by intros -> ->. Qed.

Lemma part_added_step seq outs o e :
  re_Type e = "response.content_part.added" -> re_SequenceNumber e = seq -> re_OutputIndex e = Z.of_nat (length outs) ->
  re_ItemID e = o_id o -> re_ContentIndex e = Z.of_nat (length (o_parts o)) -> o_type o = "message" -> o_part o = false ->
  sdk_run (Sdk seq outs (Some o) false) [e] =
    Some (Sdk (seq + 1) outs (Some (Open "message" (o_id o) (o_parts o ++ [""]) true (o_text o))) false).
Proof.
  intros Ht Hs Ho Hid Hc Hm Hp. cbn [sdk_run]. rewrite open_step by (done || by rewrite Ht). unfold sdk_open_step.
  rewrite Ht, Ho, Hid, Hc, Hm, Hp. simpl. by rewrite !Z.eqb_refl, String.eqb_refl.
Qed.

Lemma open_message_accepted st :
  shape None st -> CompletedSent st = false ->
  accepted (sdk_of None st) (open_message_item st) None /\
  CurrentItemType (snd (open_message_item st)) = "message" /\ CompletedSent (snd (open_message_item st)) = false.
Proof.
  intros Hs Hc. unfold open_message_item. destruct (CurrentItemType st =s "message") eqn:Em.
  { apply String.eqb_eq in Em. by split_and!. }
  destruct (close_between st Hs Hc) as (Ha & Hct & Hcc). destruct (closeCurrentResponsesItem st) as [es st1].
  simpl in Hct, Hcc. destruct Ha as [Hr Hs1]. simpl in Hr, Hs1. pose proof Hs1 as (Ho & Htx & [[_ Hcn]|[Hx _]]); [|congruence].
  split_and!; [|done|done]. split.
  - simpl. rewrite sdk_run_app, Hr, sdk_of_closed by done. cbn [mbind option_bind].
    erewrite added_step by done.
    unfold sdk_of, open_of, item_text. simpl. by rewrite Hcn, Hcc.
  - unfold shape. simpl. rewrite Hcn. split_and!; [done | done | by right].
Qed.

Lemma start_accepted evt st b :
  up_step (None, false) evt = Some (Some b, false) -> ae_Type evt = "content_block_start" ->
  shape None st -> CompletedSent st = false ->
  accepted (sdk_of None st) (anthToResHandleContentBlockStart evt st) (Some b) /\
  CompletedSent (snd (anthToResHandleContentBlockStart evt st)) = false.
Proof.
  intros Hu Ht Hs Hc. unfold up_step in Hu. rewrite Ht in Hu. simpl in Hu. unfold anthToResHandleContentBlockStart.
  destruct (ae_ContentBlock evt) as [block|]; [|done].
  destruct (_ || _ || _) eqn:Eb in Hu; [|done]. injection Hu as <-.
  destruct (close_between st Hs Hc) as (Ha & Hct & Hcc). fold (reasoning_type (cb_Type block)).
  destruct (reasoning_type (cb_Type block)) eqn:Er.
  { destruct (closeCurrentResponsesItem st) as [es st1]. simpl in Hct, Hcc. destruct Ha as [Hr Hs1]. simpl in Hr, Hs1.
    pose proof Hs1 as (Ho & Htx & [[_ Hcn]|[Hx _]]); [|congruence].
    assert (Hn : (cb_Type block =s "text") = false /\ (cb_Type block =s "tool_use") = false).
    { unfold reasoning_type in Er. apply orb_true_iff in Er as [Er|Er]; apply String.eqb_eq in Er; by rewrite Er. }
    destruct Hn as [Hn1 Hn2]. rewrite Hn1, Hn2, !orb_false_r in Eb. simpl in Eb. apply String.eqb_eq in Eb.
    split; [|done]. split.
    - simpl. rewrite sdk_run_app, Hr, sdk_of_closed by done. cbn [mbind option_bind].
      erewrite added_step by done.
      unfold sdk_of, open_of, item_text. simpl. rewrite Hcn, Hcc, Eb. apply String.eqb_neq in Hn1.
      by rewrite bool_decide_false by congruence.
    - unfold shape. simpl. rewrite Hn1, Er, Hcn. by split_and!. }
  destruct (cb_Type block =s "text") eqn:Etx.
  { apply String.eqb_eq in Etx. destruct (open_message_accepted st Hs Hc) as ([Hr Hs1] & Hm & Hcm).
    destruct (open_message_item st) as [es st1]. simpl in Hr, Hs1, Hm, Hcm. split; [|done].
    destruct Hs1 as (Ho & Htx & [[Hx _]|[_ Hci]]); [congruence|]. split.
    - simpl. rewrite sdk_run_app, Hr. unfold sdk_of at 1. rewrite Hm, Hcm. cbn [mbind option_bind String.eqb].
      erewrite part_added_step by (done || (simpl; by rewrite app_nil_r, length_map)).
      unfold sdk_of, open_of, item_text. simpl. rewrite ?Hm, ?Hcm, Etx, app_nil_r. simpl. by rewrite ?bool_decide_true.
    - unfold shape. simpl. rewrite Etx. simpl. done. }
  destruct (cb_Type block =s "tool_use") eqn:Eto; [|done]. apply String.eqb_eq in Eto.
  destruct (closeCurrentResponsesItem st) as [es st1]. simpl in Hct, Hcc. destruct Ha as [Hr Hs1]. simpl in Hr, Hs1.
  pose proof Hs1 as (Ho & Htx & [[_ Hcn]|[Hx _]]); [|congruence]. split; [|done].
  unfold generateItemID. cbv beta iota zeta. simpl CustomTools.
  set (ty := if default false (CustomTools st1 !! cb_Name block) then "custom_tool_call" else "function_call").
  assert (Hty : ty = "function_call" \/ ty = "custom_tool_call") by (subst ty; case_match; auto). clearbody ty. split.
  - simpl. rewrite sdk_run_app, Hr, sdk_of_closed by done. cbn [mbind option_bind].
    erewrite added_step by done.
    unfold sdk_of, open_of, item_text. simpl. rewrite Hcn, Hcc, Eto. destruct Hty as [-> | ->]; done.
  - unfold shape. simpl. rewrite Hcn, Eto. simpl. by split_and!.
Qed.

(** *** Deltas *)

Lemma append_last_app l x s : append_last (l ++ [x]) s = l ++ [x +:+ s].
Proof. induction l as [|y l IH]; simpl; [done|]. rewrite IH. by destruct (l ++ [x]) eqn:E; [destruct l|]. Qed.

Lemma delta_accepted evt d b st :
  ae_Delta evt = Some d -> delta_fits b d = true -> shape (Some b) st -> CompletedSent st = false ->
  accepted (sdk_of (Some b) st) (anthToResHandleContentBlockDelta evt st) (Some b) /\
  CompletedSent (snd (anthToResHandleContentBlockDelta evt st)) = false.
Proof.
  intros Hd Hf Hs Hc. unfold anthToResHandleContentBlockDelta. rewrite Hd. unfold delta_fits in Hf.
  destruct Hs as [Ho Hs].
  destruct (ad_Type d =s "text_delta") eqn:E1.
  { rewrite Hf in Hs. apply String.eqb_eq in Hf. subst b. destruct Hs as [Ht Hci].
    destruct (ad_Text d =s ""); [by split_and!|]. split; [|done]. split; [|by split].
    simpl. unfold sdk_of at 1. rewrite Ht, Hc. simpl. rewrite open_step by done. unfold sdk_open_step. simpl.
    rewrite Ho, Z.eqb_refl, String.eqb_refl, length_app, length_map. simpl.
    rewrite (proj2 (Z.eqb_eq (ContentIndex st) _)) by lia. simpl. rewrite append_last_app. unfold sdk_of, open_of, item_text.
    simpl. by rewrite ?Ht, ?Hc. }
  destruct (ad_Type d =s "thinking_delta") eqn:E2.
  { simpl in Hf. unfold reasoning_type in Hf. assert (Hb : (b =s "text") = false).
    { apply orb_true_iff in Hf as [Hf|Hf]; apply String.eqb_eq in Hf; by rewrite Hf. }
    rewrite Hb in Hs. unfold reasoning_type in Hs. rewrite Hf in Hs. destruct Hs as (Hcn & Htx & Ht).
    destruct (ad_Thinking d =s ""); [split; [|done]; apply accepted_nil; unfold shape; rewrite Hb; unfold reasoning_type; by rewrite Hf|].
    apply String.eqb_neq in Hb as Hb'.
    split; [|done]. split; [|unfold shape; rewrite Hb; unfold reasoning_type; by rewrite Hf].
    simpl. unfold sdk_of at 1. rewrite Ht, Hc. simpl. rewrite open_step by done. unfold sdk_open_step. simpl.
    rewrite Ho, Z.eqb_refl, String.eqb_refl, Ht. simpl. unfold sdk_of, open_of, item_text.
    simpl. rewrite ?Ht, ?Hc, ?bool_decide_false by congruence. done. }
  destruct (ad_Type d =s "input_json_delta") eqn:E3.
  { apply String.eqb_eq in E3. rewrite E3 in Hf. simpl in Hf. apply String.eqb_eq in Hf. subst b. simpl in Hs.
    destruct Hs as (Hcn & Htx & _ & Ht). destruct (ad_PartialJSON d =s ""); [by split_and!|].
    destruct Ht as [Ht|Ht]; simpl CurrentItemType; rewrite Ht; simpl; (split; [|done]); (split; [|by unfold shape; simpl; split_and!; eauto]); simpl.
    - unfold sdk_of at 1. rewrite Ht, Hc. simpl. rewrite open_step by done. unfold sdk_open_step. simpl.
      rewrite Ho, Z.eqb_refl, String.eqb_refl, Ht. simpl. unfold sdk_of, open_of, item_text. simpl. by rewrite ?Ht, ?Hc.
    - unfold sdk_of, open_of, item_text. simpl. by rewrite ?Ht, ?Hc. }
  destruct (ad_Type d =s "signature_delta"); [|done].
  set (st' := if PreserveThinkingSignatures st then _ else st).
  assert (E : sdk_of (Some b) st = sdk_of (Some b) st' /\ shape (Some b) st' /\ CompletedSent st' = false).
  { subst st'. destruct (PreserveThinkingSignatures st); (split; [done|]; split; [exact (conj Ho Hs) | exact Hc]). }
  destruct E as (-> & E2' & E3'). by split_and!.
Qed.

(** *** The end of a block *)

Lemma text_stop_accepted st :
  shape (Some "text") st -> CompletedSent st = false ->
  accepted (sdk_of (Some "text") st) (anthToResHandleContentBlockStop st) None /\
  CompletedSent (snd (anthToResHandleContentBlockStop st)) = false.
Proof.
  intros (Ho & Ht & Hci) Hc. unfold anthToResHandleContentBlockStop. rewrite Ht. simpl. split; [|done].
  assert (Hp : map rp_Text (CurrentContent st ++ [output_text_part (TextAccum st)]) = map rp_Text (CurrentContent st) ++ [TextAccum st])
    by by rewrite map_app.
  split.
  - simpl. unfold sdk_of at 1. rewrite Ht, Hc. simpl.
    rewrite open_step by done. unfold sdk_open_step at 1. simpl.
    rewrite ?Ho, Z.eqb_refl, String.eqb_refl, length_app, length_map, last_snoc. simpl.
    rewrite (proj2 (Z.eqb_eq (ContentIndex st) _)) by lia. rewrite bool_decide_true by done. simpl.
    rewrite open_step by done. unfold sdk_open_step. simpl.
    rewrite ?Ho, Z.eqb_refl, String.eqb_refl, length_app, length_map, last_snoc. simpl.
    rewrite (proj2 (Z.eqb_eq (ContentIndex st) _)) by lia. rewrite bool_decide_true by done. simpl.
    unfold sdk_of, open_of, item_text. simpl. by rewrite ?Ht, ?Hc, Hp, app_nil_r.
  - unfold shape. simpl. rewrite length_app. simpl. split_and!; [done | done | right; split; [done | lia]].
Qed.

Lemma closed_summary st :
  CurrentItemType st = "reasoning" -> summary_of (closed_item st) = CurrentSummary st.
Proof.
  intros Ht. unfold closed_item. rewrite Ht. simpl.
  destruct (CurrentSummary st =s "") eqn:E; [apply String.eqb_eq in E; rewrite E|]; by destruct (_ && _).
Qed.

Lemma closed_id_type st : ro_Type (closed_item st) = CurrentItemType st /\ ro_ID (closed_item st) = CurrentItemID st.
Proof. unfold closed_item. repeat case_match; done. Qed.

(** An event accepted for the open item, then the item is closed. *)
Lemma event_then_close o o' e st :
  re_SequenceNumber e = SequenceNumber st - 1 -> re_Type e <> "response.created" ->
  sdk_open_step (Sdk (SequenceNumber st - 1) (Outputs st) (Some o) false) o e =
    Some (Sdk (SequenceNumber st) (Outputs st) (Some o') false) ->
  CurrentItemType st <> "" -> CompletedSent st = false -> OutputIndex st = Z.of_nat (length (Outputs st)) ->
  item_matches o' (closed_item st) = true ->
  accepted (Sdk (SequenceNumber st - 1) (Outputs st) (Some o) false)
    ([e] ++ fst (closeCurrentResponsesItem st), snd (closeCurrentResponsesItem st)) None /\
  CompletedSent (snd (closeCurrentResponsesItem st)) = false.
Proof.
  intros H1 H2 H3 H4 H5 H6 H7. destruct (close_accepted o' st H4 H5 H6 H7) as ([Ha Hs] & _ & Hc). split; [|done].
  split; [|done]. simpl. rewrite open_step, H3 by done. done.
Qed.

(** Decide the tests between string literals. *)
Ltac eval_eqb :=
  repeat match goal with
  | |- context [String.eqb (String ?c ?s) (String ?d ?t)] =>
      let v := eval vm_compute in (String.eqb (String c s) (String d t)) in
      change (String.eqb (String c s) (String d t)) with v
  end; cbv iota.

(** The last event of a block and the closing of its item, from the state
    [st1] before it: [st2] is [st1] with the next sequence number. *)
Lemma last_event_accepted b e o' st1 :
  re_SequenceNumber e = SequenceNumber st1 -> re_Type e <> "response.created" ->
  CurrentItemType st1 <> "" -> CompletedSent st1 = false -> OutputIndex st1 = Z.of_nat (length (Outputs st1)) ->
  sdk_open_step (sdk_of b st1) (open_of b st1) e =
    Some (Sdk (SequenceNumber st1 + 1) (Outputs st1) (Some o') false) ->
  item_matches o' (closed_item st1) = true ->
  let st2 := st1 <| SequenceNumber := SequenceNumber st1 + 1 |> in
  accepted (sdk_of b st1) ([e] ++ fst (closeCurrentResponsesItem st2), snd (closeCurrentResponsesItem st2)) None /\
  CompletedSent (snd (closeCurrentResponsesItem st2)) = false.
Proof.
  intros H1 H2 H4 H5 H6 H3 H7 st2. destruct (close_accepted o' st2 H4 H5 H6 H7) as ([Ha Hs] & _ & Hc). split; [|done].
  split; [|done]. simpl fst. cbn [app sdk_run]. unfold sdk_of in *. apply String.eqb_neq in H4 as Ht. rewrite Ht, H5 in *.
  rewrite open_step by done. rewrite H3. exact Ha.
Qed.

Lemma reasoning_stop_accepted b st :
  reasoning_type b = true -> b <> "text" -> shape (Some b) st -> CompletedSent st = false ->
  accepted (sdk_of (Some b) st) (anthToResHandleContentBlockStop st) None /\
  CompletedSent (snd (anthToResHandleContentBlockStop st)) = false.
Proof.
  intros Hb Hn (Ho & Hs) Hc. apply String.eqb_neq in Hn as Hn'. rewrite Hn', Hb in Hs. destruct Hs as (Hcn & Htx & Ht).
  unfold anthToResHandleContentBlockStop. rewrite Ht. eval_eqb. unfold makeResponsesEvent. cbv beta iota zeta.
  set (e := ResponsesStreamEvent_zero <| re_OutputIndex := _ |> <| re_SummaryIndex := _ |> <| re_ItemID := _ |> <| re_Type := _ |> <| re_SequenceNumber := _ |>).
  destruct (last_event_accepted (Some b) e (open_of (Some b) st) st) as [Ha Hc']; try done; [by rewrite Ht| | |].
  - unfold sdk_open_step. simpl. by rewrite Ho, Z.eqb_refl, String.eqb_refl, Ht, Hc.
  - unfold item_matches. destruct (closed_id_type st) as [-> ->]. simpl. rewrite !String.eqb_refl, bool_decide_false by congruence. simpl.
    rewrite Ht. simpl. rewrite closed_summary by done. unfold item_text. rewrite Ht. apply String.eqb_refl.
  - destruct (closeCurrentResponsesItem _). by split.
Qed.

Lemma call_stop_accepted st :
  CurrentItemType st = "function_call" -> shape (Some "tool_use") st -> CompletedSent st = false ->
  accepted (sdk_of (Some "tool_use") st) (anthToResHandleContentBlockStop st) None /\
  CompletedSent (snd (anthToResHandleContentBlockStop st)) = false.
Proof.
  intros Ht (Ho & Hcn & Htx & _) Hc. unfold anthToResHandleContentBlockStop. rewrite Ht. eval_eqb.
  set (r := if (CurrentArgs st =s "") && negb (PendingToolInput st =s "") then _ else ([], st)).
  assert (Hr : sdk_run (sdk_of (Some "tool_use") st) (fst r) = Some (sdk_of (Some "tool_use") (snd r)) /\
    CurrentItemType (snd r) = "function_call" /\ OutputIndex (snd r) = Z.of_nat (length (Outputs (snd r))) /\
    CurrentContent (snd r) = [] /\ TextAccum (snd r) = "" /\ CompletedSent (snd r) = false).
  { subst r. destruct (_ && _) eqn:E; [|done]. apply andb_true_iff in E as [E _]. apply String.eqb_eq in E.
    split_and!; try done. simpl. unfold sdk_of at 1. rewrite Ht, Hc. simpl. rewrite open_step by done.
    unfold sdk_open_step. simpl. rewrite Ho, Z.eqb_refl, String.eqb_refl, Ht. simpl.
    unfold sdk_of, open_of, item_text. simpl. by rewrite ?Ht, ?Hc, ?E. }
  destruct r as [es st0]. simpl in Hr. destruct Hr as (Hr & Ht0 & Ho0 & Hcn0 & Htx0 & Hc0). unfold makeResponsesEvent.
  cbv beta iota zeta.
  set (st1 := st0 <| PendingToolInput := "" |>). change (sdk_of (Some "tool_use") st0) with (sdk_of (Some "tool_use") st1) in Hr.
  set (e := ResponsesStreamEvent_zero <| re_OutputIndex := _ |> <| re_ItemID := _ |> <| re_CallID := _ |> <| re_Name := _ |> <| re_Arguments := _ |> <| re_Type := _ |> <| re_SequenceNumber := _ |>).
  destruct (last_event_accepted (Some "tool_use") e (open_of (Some "tool_use") st1) st1) as [Ha Hc']; try done; [simpl; by rewrite Ht0| | |].
  - unfold sdk_open_step. simpl. rewrite Ho0, Z.eqb_refl, String.eqb_refl, Ht0, Hc0. simpl.
    unfold item_text. simpl. rewrite Ht0. simpl. by rewrite String.eqb_refl.
  - unfold item_matches. destruct (closed_id_type st1) as [-> ->]. simpl. rewrite !String.eqb_refl. simpl.
    unfold item_text, closed_item. simpl. rewrite Ht0. simpl. apply String.eqb_refl.
  - destruct (closeCurrentResponsesItem _) as [es' st2]. split; [|done]. eapply accepted_app; [split; [exact Hr|] | exact Ha].
    unfold shape. simpl. rewrite Ht0. split_and!; auto.
Qed.

Lemma custom_stop_accepted st :
  CurrentItemType st = "custom_tool_call" -> shape (Some "tool_use") st -> CompletedSent st = false ->
  accepted (sdk_of (Some "tool_use") st) (anthToResHandleContentBlockStop st) None /\
  CompletedSent (snd (anthToResHandleContentBlockStop st)) = false.
Proof.
  intros Ht (Ho & Hcn & Htx & _) Hc. unfold anthToResHandleContentBlockStop. rewrite Ht. eval_eqb.
  set (st0 := if (CurrentArgs st =s "") && negb (PendingToolInput st =s "") then _ else st).
  assert (H0 : sdk_of (Some "tool_use") st = sdk_of (Some "tool_use") st0 /\ CurrentItemType st0 = "custom_tool_call" /\
    OutputIndex st0 = Z.of_nat (length (Outputs st0)) /\ CurrentContent st0 = [] /\ CompletedSent st0 = false).
  { subst st0. destruct (_ && _); [|done]. split_and!; try done. unfold sdk_of, open_of, item_text. simpl. by rewrite Ht. }
  clearbody st0. destruct H0 as (-> & Ht0 & Ho0 & Hcn0 & Hc0). clear Ho Hcn Htx Hc Ht.
  change (CurrentArgs (st0 <| PendingToolInput := "" |>)) with (CurrentArgs st0).
  change (sdk_of (Some "tool_use") st0) with (sdk_of (Some "tool_use") (st0 <| PendingToolInput := "" |>)).
  set (input := extractCustomToolCallInput (normalizeResponsesFunctionArgs (CurrentArgs st0))).
  set (st1 := st0 <| PendingToolInput := "" |>).
  set (o1 := Open "custom_tool_call" (CurrentItemID st0) [] false input).
  assert (Hm : forall st, CurrentItemType st = "custom_tool_call" -> CurrentItemID st = CurrentItemID st0 ->
    CurrentArgs st = CurrentArgs st0 -> item_matches o1 (closed_item st) = true).
  { intros s H1 H2 H3. unfold item_matches. destruct (closed_id_type s) as [-> ->]. unfold closed_item.
    rewrite H1, H2, H3. simpl. rewrite !String.eqb_refl. by unfold input. }
  assert (Hk : sdk_of (Some "tool_use") st1 = Sdk (SequenceNumber st0) (Outputs st0) (Some (Open "custom_tool_call" (CurrentItemID st0) [] false "")) false).
  { unfold sdk_of, open_of, item_text. simpl. by rewrite Ht0, Hcn0, Hc0. }
  rewrite Hk. unfold makeResponsesEvent. cbv beta iota zeta.
  destruct (input =s "") eqn:Ei; cbv beta iota zeta.
  - apply String.eqb_eq in Ei.
    destruct (close_accepted o1 (st1 <| SequenceNumber := SequenceNumber st1 + 1 |>)) as ([Ha Hs] & _ & Hc');
      [simpl; by rewrite Ht0 | done | done | by apply Hm |].
    destruct (closeCurrentResponsesItem _) as [es st2]. split; [|done]. split; [|done].
    cbn [fst app sdk_run]. rewrite open_step by done. unfold sdk_open_step. simpl.
    rewrite Ho0, Z.eqb_refl, String.eqb_refl, Ei. unfold o1 in Ha. rewrite Ei in Ha. exact Ha.
  - destruct (close_accepted o1 (st1 <| SequenceNumber := SequenceNumber st1 + 1 |> <| SequenceNumber := SequenceNumber st1 + 1 + 1 |>))
      as ([Ha Hs] & _ & Hc'); [simpl; by rewrite Ht0 | done | done | by apply Hm |].
    simpl in Ha, Hs, Hc' |- *. destruct (closeCurrentResponsesItem _) as [es st2]. split; [|done]. split; [|done].
    cbn [fst app sdk_run]. rewrite open_step by done. unfold sdk_open_step at 1. simpl.
    rewrite Ho0, Z.eqb_refl, String.eqb_refl. simpl.
    rewrite open_step by done. unfold sdk_open_step. simpl. rewrite ?Ho0, Z.eqb_refl, String.eqb_refl. simpl.
    rewrite append_nil, String.eqb_refl. exact Ha.
Qed.

Lemma stop_accepted b st :
  shape (Some b) st -> CompletedSent st = false ->
  accepted (sdk_of (Some b) st) (anthToResHandleContentBlockStop st) None /\
  CompletedSent (snd (anthToResHandleContentBlockStop st)) = false.
Proof.
  intros Hs Hc. pose proof Hs as [Ho Hb]. destruct (b =s "text") eqn:E.
  { apply String.eqb_eq in E. subst. by apply text_stop_accepted. }
  apply String.eqb_neq in E. destruct Hb as (_ & _ & Hb). destruct (reasoning_type b) eqn:Er.
  { by apply reasoning_stop_accepted. }
  destruct Hb as [-> [Ht|Ht]]; [by apply call_stop_accepted | by apply custom_stop_accepted].
Qed.

(** *** The end of the message *)

Lemma terminate_accepted st :
  shape None st -> CompletedSent st = false ->
  accepted (sdk_of None st) (terminate st) None /\ CompletedSent (snd (terminate st)) = true /\
  CurrentItemType (snd (terminate st)) = "".
Proof.
  intros Hs Hc. destruct (close_between st Hs Hc) as ([Ha Hs1] & Ht1 & Hc1). unfold terminate.
  destruct (closeCurrentResponsesItem st) as [es st1]. simpl in Ha, Hs1, Ht1, Hc1.
  destruct (anthropicResponsesStreamTerminalState (StopReason st1)) as [status details]. simpl. split_and!; [|done|done].
  split; [|exact Hs1]. simpl. rewrite sdk_run_app, Ha, sdk_of_closed by done. simpl. unfold sdk_step. simpl.
  rewrite Z.eqb_refl. simpl. unfold sdk_of. simpl. rewrite Ht1.
  destruct (status =s "incomplete"); simpl; by rewrite bool_decide_true.
Qed.

(** [ended] records that the message stopped. *)
Definition good (u : option string * bool) (st : state) : Prop :=
  shape (fst u) st /\ CompletedSent st = snd u /\ (snd u = true -> CurrentItemType st = "").

Lemma converter_accepted evt u u' st :
  up_step u evt = Some u' -> good u st ->
  accepted (sdk_of (fst u) st) (AnthropicEventToResponsesEvents evt st) (fst u') /\
  good u' (snd (AnthropicEventToResponsesEvents evt st)).
Proof.
  destruct u as [open ended]. intros Hu (Hs & Hc & Hty). simpl in Hs, Hc, Hty. unfold up_step in Hu.
  destruct ended; [done|]. unfold AnthropicEventToResponsesEvents.
  assert (G : forall (r : reply) b, accepted (sdk_of open st) r b /\ CompletedSent (snd r) = false ->
    accepted (sdk_of open st) r b /\ good (b, false) (snd r)).
  { intros r b [H1 H2]. split; [done|]. split_and!; [exact (proj2 H1) | done | done]. }
  destruct (ae_Type evt =s "content_block_start") eqn:E1.
  { apply String.eqb_eq in E1. rewrite E1. simpl.
    destruct (ae_ContentBlock evt) as [b|] eqn:Eb; [|done]. destruct open; [done|]. destruct (_ || _ || _) eqn:Ec in Hu; [|done].
    injection Hu as <-. apply G. apply start_accepted; try done. unfold up_step. rewrite E1, Eb. simpl. by rewrite Ec. }
  destruct (ae_Type evt =s "content_block_delta") eqn:E2.
  { apply String.eqb_eq in E2. rewrite E2. simpl. destruct (ae_Delta evt) as [d|] eqn:Ed; [|done]. destruct open as [b|]; [|done].
    destruct (delta_fits b d) eqn:Ef; [|done]. injection Hu as <-. apply G. by eapply delta_accepted. }
  destruct (ae_Type evt =s "content_block_stop") eqn:E3.
  { apply String.eqb_eq in E3. rewrite E3. simpl. destruct open as [b|]; [|done]. injection Hu as <-. apply G. by apply stop_accepted. }
  destruct (ae_Type evt =s "message_stop") eqn:E4.
  { apply String.eqb_eq in E4. rewrite E4. simpl. destruct open as [b|]; [done|]. injection Hu as <-.
    unfold anthToResHandleMessageStop. rewrite Hc. destruct (terminate_accepted st Hs Hc) as (H1 & H2 & H3).
    split; [exact H1|]. split_and!; [exact (proj2 H1) | exact H2 | by intros _]. }
  injection Hu as <-. destruct (ae_Type evt =s "message_start") eqn:E5.
  { apply G. unfold anthToResHandleMessageStart. set (st1 := match ae_Message evt with Some _ => _ | None => st end).
    assert (E : sdk_of open st = sdk_of open st1 /\ shape open st1 /\ CompletedSent st1 = false).
    { subst st1. destruct (ae_Message evt) as [m|]; [|done]. destruct (Model _ =s ""); done. }
    destruct E as (-> & Hs1 & Hc1). clearbody st1. destruct (CreatedSent st1); [by split_and!|]. split; [|done].
    split; [|exact Hs1]. simpl. unfold sdk_of at 1. rewrite Hc1. unfold sdk_step. simpl. rewrite Z.eqb_refl. simpl.
    unfold sdk_of, open_of, item_text. simpl. by rewrite ?Hc1. }
  destruct (ae_Type evt =s "message_delta"); [|by split_and!].
  unfold anthToResHandleMessageDelta. destruct (ae_Usage evt) as [u|], (ae_Delta evt) as [d|]; simpl;
    try destruct (ad_StopReason d =s ""); by split_and!.
Qed.

Lemma convert_accepted evts u u' st :
  up_run u evts = Some u' -> good u st ->
  accepted (sdk_of (fst u) st) (convert evts st) (fst u') /\ good u' (snd (convert evts st)).
Proof.
  revert u st. induction evts as [|evt evts IH]; intros u st Hu Hg; simpl in *.
  { injection Hu as <-. split; [apply accepted_nil, Hg | exact Hg]. }
  destruct (up_step u evt) as [u1|] eqn:E; [|done]. simpl in Hu.
  destruct (converter_accepted evt u u1 st E Hg) as [Ha Hg1]. destruct (AnthropicEventToResponsesEvents evt st) as [es st1].
  simpl in Hg1. destruct (IH u1 st1 Hu Hg1) as [Hb Hg2]. destruct (convert evts st1) as [es' st2]. split; [|done].
  by eapply accepted_app.
Qed.

Lemma new_good now customTools : good (None, false) (NewAnthropicEventToResponsesState now customTools).
Proof. unfold good, shape. simpl. split_and!; auto. Qed.

(** C15: an accumulating client accepts every conversion.  For every conforming
    Anthropic stream, at every point of it, the Responses events sent so far
    are accepted by a strict accumulating client: their sequence numbers count
    up from 0, items and parts are announced before their deltas at consecutive
    indices, every done event of a text, of arguments and of a custom input
    repeats exactly what the deltas accumulated, and every closed item, also a
    reasoning item, carries it.  (The done event of a reasoning summary carries
    no text.)  When no block is open, the finalizer's events are accepted too,
    and the terminal event repeats all the items. *)
Theorem sdk_client_accepts now customTools evts u :
  up_run (None, false) evts = Some u ->
  let r := convert evts (NewAnthropicEventToResponsesState now customTools) in
  (exists k, sdk_run sdk_start (fst r) = Some k /\ k_done k = Outputs (snd r) /\ k_final k = snd u) /\
  (fst u = None -> CreatedSent (snd r) = true ->
   exists k, sdk_run sdk_start (fst r ++ fst (FinalizeAnthropicResponsesStream (snd r))) = Some k /\
     k_open k = None /\ k_final k = true).
Proof.
  intros Hu r. destruct (convert_accepted evts _ u _ Hu (new_good now customTools)) as [[Ha Hs] (_ & Hc & Hty)].
  fold r in Ha, Hs, Hc, Hty. change (sdk_of (fst (None, false)) (NewAnthropicEventToResponsesState now customTools)) with sdk_start in Ha.
  split; [by eexists|]. intros Ho Hcr. rewrite Ho in Ha, Hs. rewrite sdk_run_app, Ha. cbn [mbind option_bind].
  unfold FinalizeAnthropicResponsesStream. rewrite Hcr. simpl negb.
  destruct (CompletedSent (snd r)) eqn:E; simpl.
  - eexists. split; [done|]. unfold sdk_of. simpl. rewrite Hty by done. done.
  - destruct (terminate_accepted (snd r) Hs E) as ([Hb _] & H2 & H3). rewrite Hb. eexists. split; [done|].
    unfold sdk_of. simpl. by rewrite H3, H2.
Qed.

(** *** The text of the answer *)

Definition item_output_text (item : ResponsesOutput) : string :=
  if ro_Type item =s "message" then String.concat "" (map rp_Text (ro_Content item)) else "".

Definition outputs_text (items : list ResponsesOutput) : string := String.concat "" (map item_output_text items).

(** The text of an upstream event. *)
Definition upstream_text (e : AnthropicStreamEvent) : string :=
  match ae_Delta e with
  | Some d => if (ae_Type e =s "content_block_delta") && (ad_Type d =s "text_delta") then ad_Text d else ""
  | None => ""
  end.

Definition total_text (st : state) : string :=
  outputs_text (Outputs st) +:+ (String.concat "" (map rp_Text (CurrentContent st)) +:+ TextAccum st).

Lemma concat_snoc (l : list string) s : String.concat "" (l ++ [s]) = String.concat "" l +:+ s.
Proof.
  assert (C : forall x l, String.concat "" (x :: l) = x +:+ String.concat "" l)
    by (intros x []; simpl; [by rewrite str_app_nil_r | done]).
  induction l as [|x l IH]; [by rewrite append_nil|]. cbn [app]. by rewrite !C, IH, str_app_assoc.
Qed.

Lemma closed_text st :
  item_output_text (closed_item st) =
    if CurrentItemType st =s "message" then String.concat "" (map rp_Text (CurrentContent st)) else "".
Proof.
  unfold item_output_text. destruct (closed_id_type st) as [-> _]. destruct (CurrentItemType st =s "message") eqn:E; [|done].
  unfold closed_item. by rewrite E.
Qed.

Lemma close_text st :
  TextAccum st = "" -> CurrentItemType st = "message" \/ CurrentContent st = [] ->
  total_text (snd (closeCurrentResponsesItem st)) = total_text st.
Proof.
  intros Ht Hm. unfold closeCurrentResponsesItem. destruct (CurrentItemType st =s "") eqn:E; [done|].
  unfold total_text. simpl. rewrite Ht. unfold outputs_text.
  rewrite map_app. cbn [map]. rewrite concat_snoc, closed_text, !str_app_nil_r.
  destruct (CurrentItemType st =s "message") eqn:Em; [done|]. destruct Hm as [Hm|Hm]; [by rewrite Hm in Em|].
  by rewrite Hm.
Qed.

Lemma between_close_text st : shape None st -> total_text (snd (closeCurrentResponsesItem st)) = total_text st.
Proof. intros (_ & Ht & [[_ H]|[H _]]); apply close_text; auto. Qed.

Lemma terminate_text st : shape None st -> total_text (snd (terminate st)) = total_text st.
Proof.
  intros Hs. rewrite <- (between_close_text st Hs). unfold terminate.
  destruct (closeCurrentResponsesItem st) as [es st1]. by destruct (anthropicResponsesStreamTerminalState _).
Qed.

Lemma start_text evt st b :
  up_step (None, false) evt = Some (Some b, false) -> ae_Type evt = "content_block_start" -> shape None st ->
  total_text (snd (anthToResHandleContentBlockStart evt st)) = total_text st.
Proof.
  intros Hu Ht Hs. unfold anthToResHandleContentBlockStart. destruct (ae_ContentBlock evt) as [block|]; [|done].
  pose proof (between_close_text st Hs) as Hc. unfold open_message_item.
  destruct ((cb_Type block =s "thinking") || _); [destruct (closeCurrentResponsesItem st); exact Hc|].
  destruct (cb_Type block =s "text").
  - destruct (CurrentItemType st =s "message").
    + unfold total_text. simpl. by rewrite (proj1 (proj2 Hs)).
    + assert (Ha : TextAccum (snd (closeCurrentResponsesItem st)) = "").
      { unfold closeCurrentResponsesItem. destruct (_ =s ""); [apply Hs | done]. }
      destruct (closeCurrentResponsesItem st) as [es st1]. simpl in *. rewrite <- Hc. unfold total_text. simpl. by rewrite Ha.
  - destruct (cb_Type block =s "tool_use"); [|done]. destruct (closeCurrentResponsesItem st); exact Hc.
Qed.

Lemma delta_text evt b st :
  ae_Type evt = "content_block_delta" ->
  match ae_Delta evt with Some d => delta_fits b d = true | None => True end ->
  total_text (snd (anthToResHandleContentBlockDelta evt st)) = total_text st +:+ upstream_text evt.
Proof.
  intros Ht Hf. unfold anthToResHandleContentBlockDelta, upstream_text. rewrite Ht. simpl.
  destruct (ae_Delta evt) as [d|]; [|by rewrite str_app_nil_r].
  destruct (ad_Type d =s "text_delta").
  - destruct (ad_Text d =s "") eqn:E; [apply String.eqb_eq in E; by rewrite E, str_app_nil_r|].
    unfold total_text. simpl. by rewrite !str_app_assoc.
  - rewrite str_app_nil_r. repeat case_match; done.
Qed.

Lemma stop_text b st : shape (Some b) st -> total_text (snd (anthToResHandleContentBlockStop st)) = total_text st.
Proof.
  intros (_ & Hs). destruct (b =s "text") eqn:Eb.
  { destruct Hs as [Ht _]. unfold anthToResHandleContentBlockStop. rewrite Ht. eval_eqb. unfold total_text. simpl.
    rewrite map_app. cbn [map]. rewrite concat_snoc. simpl. by rewrite str_app_nil_r. }
  destruct Hs as (Hcn & Htx & Ht).
  assert (Hc : forall st', total_text st' = total_text st -> CurrentContent st' = [] -> TextAccum st' = "" ->
     total_text (snd (closeCurrentResponsesItem st')) = total_text st).
  { intros st' H1 H2 H3. rewrite <- H1. apply close_text; auto. }
  assert (Hty : CurrentItemType st = "reasoning" \/ CurrentItemType st = "function_call" \/ CurrentItemType st = "custom_tool_call").
  { destruct (reasoning_type b); [auto | destruct Ht as [_ [?|?]]; auto]. }
  unfold anthToResHandleContentBlockStop, makeResponsesEvent. destruct Hty as [-> |[-> | ->]]; eval_eqb; cbv beta iota zeta.
  - specialize (Hc (st <| SequenceNumber := SequenceNumber st + 1 |>)). destruct (closeCurrentResponsesItem _). by apply Hc.
  - destruct (_ && _); unfold args_delta, makeResponsesEvent; cbv beta iota zeta;
      match goal with |- context [closeCurrentResponsesItem ?s] => specialize (Hc s) end;
      destruct (closeCurrentResponsesItem _); by apply Hc.
  - destruct (_ && _); cbv beta iota zeta; destruct (extractCustomToolCallInput _ =s ""); cbv beta iota zeta;
      match goal with |- context [closeCurrentResponsesItem ?s] => specialize (Hc s) end;
      destruct (closeCurrentResponsesItem _); by apply Hc.
Qed.

Lemma converter_text evt u u' st :
  up_step u evt = Some u' -> good u st ->
  total_text (snd (AnthropicEventToResponsesEvents evt st)) = total_text st +:+ upstream_text evt.
Proof.
  destruct u as [open ended]. intros Hu (Hs & Hc & _). simpl in Hs, Hc. unfold up_step in Hu. destruct ended; [done|].
  assert (N : ae_Type evt <> "content_block_delta" -> upstream_text evt = "").
  { intros Hn. unfold upstream_text. apply String.eqb_neq in Hn. rewrite Hn. by destruct (ae_Delta evt). }
  unfold AnthropicEventToResponsesEvents.
  destruct (ae_Type evt =s "content_block_start") eqn:E1.
  { apply String.eqb_eq in E1. rewrite N by congruence. rewrite E1, str_app_nil_r. simpl.
    destruct (ae_ContentBlock evt) as [b|] eqn:Eb; [|done]. destruct open; [done|]. destruct (_ || _ || _) eqn:Ec in Hu; [|done].
    eapply (start_text _ _ (cb_Type b)); try done. unfold up_step. rewrite E1, Eb. simpl. by rewrite Ec. }
  destruct (ae_Type evt =s "content_block_delta") eqn:E2.
  { apply String.eqb_eq in E2. rewrite E2. simpl. destruct (ae_Delta evt) as [d|] eqn:Ed; [|done]. destruct open as [b|]; [|done].
    destruct (delta_fits b d) eqn:Ef; [|done]. apply (delta_text evt b); [done | by rewrite Ed]. }
  apply String.eqb_neq in E2. rewrite N, str_app_nil_r by done.
  destruct (ae_Type evt =s "content_block_stop") eqn:E3.
  { apply String.eqb_eq in E3. rewrite E3. simpl. destruct open as [b|]; [|done]. by eapply stop_text. }
  destruct (ae_Type evt =s "message_stop") eqn:E4.
  { apply String.eqb_eq in E4. rewrite E4. simpl. destruct open as [b|]; [done|].
    unfold anthToResHandleMessageStop. rewrite Hc. by apply terminate_text. }
  destruct (ae_Type evt =s "message_start").
  { unfold anthToResHandleMessageStart. set (st1 := match ae_Message evt with Some _ => _ | None => st end).
    assert (E : total_text st1 = total_text st) by (subst st1; destruct (ae_Message evt) as [m|]; [by destruct (Model _ =s "")|done]).
    clearbody st1. by destruct (CreatedSent st1). }
  destruct (ae_Type evt =s "message_delta"); [|done].
  unfold anthToResHandleMessageDelta. destruct (ae_Usage evt) as [u|], (ae_Delta evt) as [d|]; simpl;
    try destruct (ad_StopReason d =s ""); done.
Qed.

Lemma convert_text evts u u' st :
  up_run u evts = Some u' -> good u st ->
  total_text (snd (convert evts st)) = total_text st +:+ String.concat "" (map upstream_text evts).
Proof.
  revert u u' st. induction evts as [|evt evts IH]; intros u u' st Hu Hg; simpl in Hu; [by rewrite str_app_nil_r|].
  destruct (up_step u evt) as [u1|] eqn:E; [|done]. pose proof (converter_text evt u u1 st E Hg) as Ht.
  destruct (converter_accepted evt u u1 st E Hg) as [_ Hg1]. cbn [convert map].
  destruct (AnthropicEventToResponsesEvents evt st) as [es st1]. specialize (IH u1 u' st1 Hu Hg1).
  destruct (convert evts st1) as [es' st2]. simpl in *. rewrite IH, Ht, str_app_assoc. f_equal.
  destruct (map upstream_text evts); simpl; [by rewrite str_app_nil_r | done].
Qed.

(** The text deltas of the block that is open at the end of a stream. *)
Definition step_text (t : string) (e : AnthropicStreamEvent) : string :=
  if (ae_Type e =s "content_block_start") || (ae_Type e =s "content_block_stop") then "" else t +:+ upstream_text e.

Definition unfinished_text (evts : list AnthropicStreamEvent) : string := fold_left step_text evts "".

Lemma start_accum evt st : shape None st -> TextAccum (snd (anthToResHandleContentBlockStart evt st)) = "".
Proof.
  intros (_ & Ht & _). assert (Hc : TextAccum (snd (closeCurrentResponsesItem st)) = "")
    by (unfold closeCurrentResponsesItem; by destruct (CurrentItemType st =s "")).
  unfold anthToResHandleContentBlockStart, open_message_item. destruct (ae_ContentBlock evt) as [b|]; [|done].
  destruct ((cb_Type b =s "thinking") || _); [by destruct (closeCurrentResponsesItem st)|].
  destruct (cb_Type b =s "text").
  - destruct (CurrentItemType st =s "message"); [done|]. by destruct (closeCurrentResponsesItem st).
  - destruct (cb_Type b =s "tool_use"); [|done]. by destruct (closeCurrentResponsesItem st).
Qed.

Lemma between_accum u st : good (None, u) st -> TextAccum st = "".
Proof. by intros ((_ & Ht & _) & _). Qed.

Lemma delta_accum evt st :
  TextAccum (snd (anthToResHandleContentBlockDelta evt st)) =
    TextAccum st +:+ match ae_Delta evt with Some d => if ad_Type d =s "text_delta" then ad_Text d else "" | None => "" end.
Proof.
  unfold anthToResHandleContentBlockDelta. destruct (ae_Delta evt) as [d|]; [|by rewrite str_app_nil_r].
  destruct (ad_Type d =s "text_delta").
  - destruct (String.eqb_spec (ad_Text d) "") as [->|]; [by rewrite str_app_nil_r|done].
  - rewrite str_app_nil_r. unfold args_delta, makeResponsesEvent.
    repeat match goal with |- context [if ?b then _ else _] => destruct b end; done.
Qed.

Lemma quiet_accum evt st : TextAccum (snd (anthToResHandleMessageStart evt st)) = TextAccum st /\ TextAccum (snd (anthToResHandleMessageDelta evt st)) = TextAccum st.
Proof.
  split.
  - unfold anthToResHandleMessageStart. set (st1 := match ae_Message evt with Some _ => _ | None => st end).
    assert (E : TextAccum st1 = TextAccum st) by (subst st1; destruct (ae_Message evt) as [m|]; [by destruct (Model _ =s "")|done]).
    clearbody st1. by destruct (CreatedSent st1).
  - unfold anthToResHandleMessageDelta. destruct (ae_Usage evt) as [u|], (ae_Delta evt) as [d|]; simpl; try destruct (ad_StopReason d =s ""); done.
Qed.

Lemma converter_accum evt u u' st :
  up_step u evt = Some u' -> good u st -> TextAccum (snd (AnthropicEventToResponsesEvents evt st)) = step_text (TextAccum st) evt.
Proof.
  intros Hu Hg. destruct (converter_accepted evt u u' st Hu Hg) as [_ Hg']. revert Hg'.
  destruct u as [open ended]. unfold up_step in Hu. destruct ended; [done|]. unfold step_text.
  assert (N : ae_Type evt <> "content_block_delta" -> upstream_text evt = "").
  { intros Hn. unfold upstream_text. apply String.eqb_neq in Hn. rewrite Hn. by destruct (ae_Delta evt). }
  unfold AnthropicEventToResponsesEvents.
  destruct (String.eqb_spec (ae_Type evt) "content_block_start") as [E1|_].
  { rewrite E1. simpl. intros _. destruct (ae_ContentBlock evt); [|done]. destruct open; [done|]. apply start_accum, Hg. }
  destruct (String.eqb_spec (ae_Type evt) "content_block_delta") as [E2|E2].
  { rewrite E2. simpl. intros _. rewrite delta_accum. unfold upstream_text. by rewrite E2. }
  rewrite (N E2), str_app_nil_r.
  destruct (String.eqb_spec (ae_Type evt) "content_block_stop") as [E3|_].
  { rewrite E3. simpl. destruct open; [|done]. injection Hu as <-. apply between_accum. }
  destruct (String.eqb_spec (ae_Type evt) "message_stop") as [E4|_].
  { rewrite E4. simpl. destruct open; [done|]. injection Hu as <-. intros Hg'. by rewrite (between_accum _ _ Hg), (between_accum _ _ Hg'). }
  intros _. destruct (quiet_accum evt st). destruct (ae_Type evt =s "message_start"); [done|]. by destruct (ae_Type evt =s "message_delta").
Qed.

Lemma convert_accum evts u u' st :
  up_run u evts = Some u' -> good u st -> TextAccum (snd (convert evts st)) = fold_left step_text evts (TextAccum st).
Proof.
  revert u u' st. induction evts as [|evt evts IH]; intros u u' st Hu Hg; [done|]. simpl in Hu.
  destruct (up_step u evt) as [u1|] eqn:E; [|done]. pose proof (converter_accum evt u u1 st E Hg) as Ht.
  destruct (converter_accepted evt u u1 st E Hg) as [_ Hg1]. cbn [convert fold_left].
  destruct (AnthropicEventToResponsesEvents evt st) as [es st1]. specialize (IH u1 u' st1 Hu Hg1).
  destruct (convert evts st1) as [es' st2]. simpl in *. by rewrite IH, Ht.
Qed.

(** The open item is closed with the parts that were finished. *)
Lemma close_outputs st :
  CurrentItemType st = "message" \/ CurrentContent st = [] ->
  outputs_text (Outputs (snd (closeCurrentResponsesItem st))) +:+ TextAccum st = total_text st.
Proof.
  intros Hm. unfold closeCurrentResponsesItem, total_text. destruct (CurrentItemType st =s "") eqn:E.
  - destruct Hm as [Hm|Hm]; [by rewrite Hm in E|]. by rewrite Hm.
  - simpl. unfold outputs_text. rewrite map_app. cbn [map]. rewrite concat_snoc, closed_text, !str_app_assoc.
    destruct (CurrentItemType st =s "message") eqn:Em; [done|]. destruct Hm as [Hm|Hm]; [by rewrite Hm in Em|]. by rewrite Hm.
Qed.

Lemma shape_closable b st : shape b st -> CurrentItemType st = "message" \/ CurrentContent st = [].
Proof.
  intros (_ & Hs). destruct b as [b|]; [|destruct Hs as (_ & [[_ ?]|[? _]]); auto].
  destruct (b =s "text"); [left; apply Hs|right; apply Hs].
Qed.

Lemma terminate_outputs st :
  CompletedSent (snd (terminate st)) = true /\ Outputs (snd (terminate st)) = Outputs (snd (closeCurrentResponsesItem st)).
Proof. unfold terminate. destruct (closeCurrentResponsesItem st). by destruct (anthropicResponsesStreamTerminalState _). Qed.

Lemma finalized b e st : good (b, e) st -> CreatedSent st = true \/ e = true ->
  CompletedSent (snd (FinalizeAnthropicResponsesStream st)) = true /\
  outputs_text (Outputs (snd (FinalizeAnthropicResponsesStream st))) +:+ TextAccum st = total_text st.
Proof.
  intros (Hs & Hc & Hty) Hcr. simpl in Hs, Hc, Hty. unfold FinalizeAnthropicResponsesStream. rewrite Hc. destruct e.
  - rewrite orb_true_r. split; [done|]. specialize (Hty eq_refl). unfold total_text.
    destruct (shape_closable _ _ Hs) as [Hm|Hm]; [by rewrite Hty in Hm|]. by rewrite Hm.
  - destruct Hcr as [Hcr|?]; [|done]. rewrite Hcr. simpl negb. cbv iota beta. destruct (terminate_outputs st) as [H1 H2].
    change (false || false) with false. cbv iota. split; [done|]. rewrite H2. by eapply close_outputs, shape_closable.
Qed.

(** C16: the text of the answer.  For every conforming stream, complete or broken
    off anywhere after it began, the finalizer leaves a terminal event behind,
    and the texts of the message items in its response are the text deltas of
    the upstream, in order, less those of a text block that was still open: they
    were streamed, but are in no item.  When no block is open none is missing,
    and an accumulating client ends with the items of the response. *)
Theorem answer_preserved now customTools evts u :
  up_run (None, false) evts = Some u ->
  let r := convert evts (NewAnthropicEventToResponsesState now customTools) in
  let fin := FinalizeAnthropicResponsesStream (snd r) in
  CreatedSent (snd r) = true \/ snd u = true ->
  CompletedSent (snd fin) = true /\
  outputs_text (Outputs (snd fin)) +:+ unfinished_text evts = String.concat "" (map upstream_text evts) /\
  (fst u = None -> unfinished_text evts = "" /\
     exists k, sdk_run sdk_start (fst r ++ fst fin) = Some k /\ k_final k = true /\ k_done k = Outputs (snd fin)).
Proof.
  intros Hu r fin Hcr. pose proof (new_good now customTools) as Hg.
  destruct (convert_accepted evts _ u _ Hu Hg) as [[Ha _] Hg']. pose proof (convert_text evts _ u _ Hu Hg) as Htot.
  pose proof (convert_accum evts _ u _ Hu Hg) as Hacc. fold r in Ha, Hg', Htot, Hacc.
  change (total_text (NewAnthropicEventToResponsesState now customTools)) with "" in Htot. rewrite append_nil in Htot.
  change (fold_left step_text evts _) with (unfinished_text evts) in Hacc.
  change (sdk_of (fst (None, false)) (NewAnthropicEventToResponsesState now customTools)) with sdk_start in Ha.
  destruct u as [b e]. destruct (finalized b e (snd r) Hg' Hcr) as [H1 H2]. fold fin in H1, H2. rewrite Hacc, Htot in H2.
  split; [done|]. split; [done|]. simpl. intros ->. rewrite <- Hacc. split; [by apply between_accum in Hg'|].
  rewrite sdk_run_app, Ha. cbn [mbind option_bind fst]. destruct Hg' as (Hs & Hc & Hty). simpl in Hs, Hc, Hty.
  unfold fin, FinalizeAnthropicResponsesStream. rewrite Hc. destruct e.
  - rewrite orb_true_r. simpl. eexists. split; [done|]. unfold sdk_of. simpl. by rewrite Hc.
  - destruct Hcr as [Hcr|?]; [|done]. rewrite Hcr. simpl. destruct (terminate_accepted (snd r) Hs Hc) as ([Hb _] & H3 & H4).
    rewrite Hb. eexists. split; [done|]. split; [exact H3|done].
Qed.

(** ** Foreign blocks *)

(** a block the converter does not translate corrupts an open message.  Between
    blocks, with a message item open, the start of such a block (a server
    tool call, say) sends nothing, but its end closes a content part that was
    never added: an accumulating client rejects the events. *)
Theorem untranslated_block_rejected st start stop block :
  shape None st -> CompletedSent st = false -> CurrentItemType st = "message" ->
  ae_Type start = "content_block_start" -> ae_ContentBlock start = Some block ->
  cb_Type block ∉ ["thinking"; "redacted_thinking"; "text"; "tool_use"] ->
  ae_Type stop = "content_block_stop" ->
  AnthropicEventToResponsesEvents start st = ([], st) /\
  map re_Type (fst (AnthropicEventToResponsesEvents stop st)) = ["response.output_text.done"; "response.content_part.done"] /\
  sdk_run (sdk_of None st) (fst (AnthropicEventToResponsesEvents stop st)) = None.
Proof.
  intros (Ho & _ & _) Hc Ht E1 E2 Hb E3. unfold AnthropicEventToResponsesEvents. rewrite E1, E3. eval_eqb.
  assert (H : (cb_Type block =s "thinking") = false /\ (cb_Type block =s "redacted_thinking") = false /\
    (cb_Type block =s "text") = false /\ (cb_Type block =s "tool_use") = false).
  { split_and!; apply String.eqb_neq; intros E; apply Hb; rewrite E; set_solver. }
  destruct H as (H1 & H2 & H3 & H4). unfold anthToResHandleContentBlockStart, anthToResHandleContentBlockStop.
  rewrite E2, H1, H2, H3, H4, Ht. eval_eqb. unfold makeResponsesEvent. cbv beta iota zeta. split_and!; [done | done |].
  unfold sdk_of. rewrite Ht, Hc. change ("message" =s "") with false. cbv iota. cbn [fst sdk_run]. rewrite open_step by done. unfold sdk_open_step. simpl.
  by rewrite Ho, Z.eqb_refl, String.eqb_refl.
Qed.

(** ** The non-streaming conversion *)

Definition block_text (b : AnthropicContentBlock) : string := if cb_Type b =s "text" then cb_Text b else "".

Lemma outputs_text_snoc l item : outputs_text (l ++ [item]) = outputs_text l +:+ item_output_text item.
Proof. unfold outputs_text. rewrite map_app. cbn [map]. apply concat_snoc. Qed.

(** The text gathered so far, were the message item appended now. *)
Definition acc_text (acc : list ResponsesOutput * list ResponsesContentPart * nat) : string :=
  let '(outputs, parts, _) := acc in outputs_text outputs +:+ String.concat "" (map rp_Text parts).

Lemma block_outputs_text_whole customTools acc block :
  snd (fst acc) = [] -> 
  let acc' := block_outputs true customTools acc block in
  acc_text acc' = acc_text acc +:+ block_text block /\ snd (fst acc') = [].
Proof.
  destruct acc as [[outputs parts] n]. simpl snd. simpl fst. intros ->. unfold acc_text, block_text, block_outputs. cbv beta iota zeta.
  destruct ((cb_Type block =s "thinking") || (cb_Type block =s "redacted_thinking")) eqn:E.
  { assert (Hn : (cb_Type block =s "text") = false) by (apply orb_true_iff in E as [E|E]; apply String.eqb_eq in E; by rewrite E).
    rewrite Hn. destruct (negb (cb_Signature block =s "") || negb (cb_Data block =s "")), (cb_Thinking block =s ""); simpl; rewrite ?outputs_text_snoc; simpl; rewrite ?str_app_nil_r; done. }
  destruct (cb_Type block =s "text").
  { destruct (cb_Text block =s "") eqn:Et; simpl.
    - apply String.eqb_eq in Et. by rewrite Et, !str_app_nil_r.
    - rewrite outputs_text_snoc. simpl. by rewrite !str_app_nil_r. }
  destruct (cb_Type block =s "tool_use"); [|by rewrite !str_app_nil_r].
  destruct (default false _); simpl; rewrite outputs_text_snoc; simpl; by rewrite !str_app_nil_r.
Qed.

Lemma block_outputs_text_parts customTools acc block :
  outputs_text (fst (fst acc)) = "" ->
  let acc' := block_outputs false customTools acc block in
  acc_text acc' = acc_text acc +:+ block_text block /\ outputs_text (fst (fst acc')) = "".
Proof.
  destruct acc as [[outputs parts] n]. simpl snd. simpl fst. intros Ho. unfold acc_text, block_text, block_outputs. cbv beta iota zeta.
  destruct ((cb_Type block =s "thinking") || (cb_Type block =s "redacted_thinking")) eqn:E.
  { assert (Hn : (cb_Type block =s "text") = false) by (apply orb_true_iff in E as [E|E]; apply String.eqb_eq in E; by rewrite E).
    rewrite Hn. destruct (cb_Thinking block =s ""); simpl; rewrite ?outputs_text_snoc, ?Ho; simpl; rewrite ?str_app_nil_r; done. }
  destruct (cb_Type block =s "text").
  { destruct (cb_Text block =s "") eqn:Et; simpl.
    - apply String.eqb_eq in Et. by rewrite Et, !str_app_nil_r.
    - rewrite map_app. cbn [map]. by rewrite concat_snoc, Ho. }
  destruct (cb_Type block =s "tool_use"); [|by rewrite !str_app_nil_r].
  destruct (default false _); simpl; rewrite outputs_text_snoc, Ho; simpl; by rewrite !str_app_nil_r.
Qed.

(** the non-streaming conversion keeps the answer: the text of the message items
    is the text of the upstream blocks in order, whichever way the model's
    blocks are grouped, and the output is never empty. *)
Theorem response_text_preserved newID now resp customTools :
  let out := AnthropicToResponsesResponseWithCustomTools newID now resp customTools in
  outputs_text (rr_Output out) = String.concat "" (map block_text (ar_Content resp)) /\ rr_Output out <> [].
Proof.
  intros out. subst out. unfold AnthropicToResponsesResponseWithCustomTools.
  set (per := _ || _). set (acc := fold_left (block_outputs per customTools) (ar_Content resp) ([], [], O)).
  assert (H : acc_text acc = String.concat "" (map block_text (ar_Content resp))).
  { assert (C : forall x l, String.concat "" (x :: l) = x +:+ String.concat "" l)
      by (intros x []; simpl; [by rewrite str_app_nil_r | done]).
    assert (G : forall blocks a, (if per then snd (fst a) = [] else outputs_text (fst (fst a)) = "") ->
      acc_text (fold_left (block_outputs per customTools) blocks a) = acc_text a +:+ String.concat "" (map block_text blocks)).
    { induction blocks as [|b blocks IH]; intros a Ha; [by rewrite str_app_nil_r|]. cbn [fold_left map]. rewrite C.
      destruct per; [destruct (block_outputs_text_whole customTools a b Ha) as [E1 E2]
                    | destruct (block_outputs_text_parts customTools a b Ha) as [E1 E2]];
        by rewrite IH, E1, str_app_assoc. }
    subst acc. rewrite G by (by destruct per). by rewrite append_nil. }
  clearbody acc. destruct acc as [[outputs parts] n]. simpl in H. rewrite <- H.
  destruct parts as [|p parts].
  - destruct outputs as [|o outputs]; simpl; [done|]. split; [by rewrite str_app_nil_r | done].
  - destruct (outputs ++ [message_output (itemID n) (p :: parts)]) as [|o outputs'] eqn:E; [by destruct outputs|].
    simpl. split; [|done]. rewrite <- E, outputs_text_snoc. done.
Qed.

End converter.

(** ** Usage *)

(** usage survives the round trip.  Non-negative Anthropic counts whose input
    buckets do not overflow come back unchanged from the Responses usage made
    of them, whose totals are the sums. *)
Theorem usage_roundtrip input output cacheRead cacheCreation :
  0 <= input -> 0 <= output -> 0 <= cacheRead -> 0 <= cacheCreation ->
  input + cacheRead + cacheCreation + output <= int64_max ->
  let u := responses_usage input output cacheRead cacheCreation in
  ru_InputTokens u = input + cacheRead + cacheCreation /\
  ru_TotalTokens u = input + cacheRead + cacheCreation + output /\
  ResToAnth.anthropicUsageFromResponsesUsage (Some u) =
    AnthropicUsage_zero <| au_InputTokens := input |> <| au_OutputTokens := output |>
      <| au_CacheReadInputTokens := cacheRead |> <| au_CacheCreationInputTokens := cacheCreation |>.
Proof.
  intros H1 H2 H3 H4 H5 u. subst u. unfold responses_usage. simpl.
  assert (W : forall z, 0 <= z <= int64_max -> wrap64 z = z) by (intros; apply wrap64_id; time_lia).
  rewrite (W (input + cacheRead)), (W (input + cacheRead + cacheCreation)), W by lia. split_and!; [done | done |].
  unfold ResToAnth.anthropicUsageFromResponsesUsage. simpl.
  set (cached := match (if 0 <? cacheRead then _ else None) with Some d => rid_CachedTokens d | None => 0 end).
  assert (E : cached = cacheRead) by (subst cached; destruct (0 <? cacheRead) eqn:E; simpl; lia). rewrite E.
  rewrite (W (input + cacheRead + cacheCreation - cacheRead)), W by lia.
  destruct (_ <? 0) eqn:En; [lia|]. f_equal. lia.
Qed.

(** ** The theorems at concrete inputs *)

Definition upstream (t : string) : AnthropicStreamEvent := AnthropicStreamEvent_zero <| ae_Type := t |>.
Definition block_event (ty : string) : AnthropicStreamEvent :=
  upstream "content_block_start" <| ae_ContentBlock := Some (AnthropicContentBlock_zero <| cb_Type := ty |> <| cb_Name := "f" |>) |>.
Definition text_event (s : string) : AnthropicStreamEvent :=
  upstream "content_block_delta" <| ae_Delta := Some (AnthropicDelta_zero <| ad_Type := "text_delta" |> <| ad_Text := s |>) |>.
Definition json_event (s : string) : AnthropicStreamEvent :=
  upstream "content_block_delta" <| ae_Delta := Some (AnthropicDelta_zero <| ad_Type := "input_json_delta" |> <| ad_PartialJSON := s |>) |>.
Definition ids (n : nat) : string := pretty (N.of_nat n).

Definition sample_stream : list AnthropicStreamEvent :=
  [upstream "message_start"; block_event "thinking"; upstream "content_block_stop";
   block_event "text"; text_event "Hel"; text_event "lo"; upstream "content_block_stop";
   block_event "tool_use"; json_event "{}"; upstream "content_block_stop"; upstream "message_delta"; upstream "message_stop"].

Lemma sdk_client_accepts_witness :
  exists k, sdk_run sdk_start (fst (convert ids sample_stream (NewAnthropicEventToResponsesState 0 ∅))) = Some k /\ k_final k = true.
Proof.
  pose proof (sdk_client_accepts ids 0 ∅ sample_stream (None, true)) as H.
  specialize (H ltac:(vm_compute; reflexivity)). destruct H as [(k & H1 & _ & H3) _]. exists k. split; [exact H1 | exact H3].
Defined.

Definition broken_stream : list AnthropicStreamEvent :=
  [upstream "message_start"; block_event "text"; text_event "Hel"; upstream "content_block_stop"; block_event "text"; text_event "lo"].

Lemma answer_preserved_witness :
  outputs_text (Outputs (snd (FinalizeAnthropicResponsesStream (snd (convert ids sample_stream (NewAnthropicEventToResponsesState 0 ∅)))))) = "Hello" /\
  outputs_text (Outputs (snd (FinalizeAnthropicResponsesStream (snd (convert ids broken_stream (NewAnthropicEventToResponsesState 0 ∅)))))) +:+ "lo"
    = "Hello".
Proof.
  pose proof (answer_preserved ids 0 ∅ sample_stream (None, true)) as H1.
  pose proof (answer_preserved ids 0 ∅ broken_stream (Some "text", false)) as H2.
  specialize (H1 ltac:(vm_compute; reflexivity) ltac:(right; reflexivity)).
  specialize (H2 ltac:(vm_compute; reflexivity) ltac:(left; vm_compute; reflexivity)).
  split; [|exact (proj1 (proj2 H2))]. destruct H1 as (_ & H1 & Hu). destruct (Hu eq_refl) as [E _].
  rewrite E, str_app_nil_r in H1. exact H1.
Defined.

Lemma untranslated_block_rejected_witness :
  let st := snd (convert ids [upstream "message_start"; block_event "text"; text_event "Hi"; upstream "content_block_stop"]
    (NewAnthropicEventToResponsesState 0 ∅)) in
  sdk_run (sdk_of None st) (fst (AnthropicEventToResponsesEvents ids (upstream "content_block_stop") st)) = None.
Proof.
  intros st. pose proof (untranslated_block_rejected ids st (block_event "server_tool_use") (upstream "content_block_stop")
    (AnthropicContentBlock_zero <| cb_Type := "server_tool_use" |> <| cb_Name := "f" |>)) as H.
  specialize (H ltac:(split; [reflexivity | split; [reflexivity | right; split; reflexivity]])).
  do 4 (specialize (H ltac:(reflexivity))).
  specialize (H ltac:(apply (bool_decide_unpack _); vm_compute; exact I)).
  specialize (H ltac:(reflexivity)). exact (proj2 (proj2 H)).
Defined.

Lemma usage_roundtrip_witness : ru_TotalTokens (responses_usage 10 5 20 7) = 42.
Proof.
  pose proof (usage_roundtrip 10 5 20 7) as H. do 5 (specialize (H ltac:(vm_compute; congruence))). exact (proj1 (proj2 H)).
Defined.

End AnthToRes.
