(* ===== verification/AnthRequest.v ===== *)
(** * AnthRequest: Anthropic requests to Responses requests

    Models [src/backend/internal/pkg/apicompat/anthropic_to_responses.go]: the
    conversion of a [POST /v1/messages] body into a [POST /v1/responses] body.
    Raw members are decoded with the struct tags of [types.go]; the input items
    are written as the JSON text that goes upstream ([ResponsesWire]).

    The theorems are about what the upstream reads: the conversation of the
    request, with its texts, images, tool calls and tool results, decoded from
    the bytes of [input]. *)

From S2P Require Import Prelude GoStrings Json JsonCodec JsonCompact ApicompatTypes ResponsesWire OpenAIModels AnthToRes.

Module AnthRequest.
Import Json JsonCodec JsonCompact ResponsesWire OpenAIModels.

(** ** Wire form of the structs *)

Definition decode_cache_control : decoder AnthropicCacheControl :=
  decode_struct [("type", field acc_Type (fun v r => r <| acc_Type := v |>) decode_string);
                 ("ttl", field acc_TTL (fun v r => r <| acc_TTL := v |>) decode_string)].

Definition decode_image_source : decoder AnthropicImageSource :=
  decode_struct [("type", field ais_Type (fun v r => r <| ais_Type := v |>) decode_string);
                 ("media_type", field ais_MediaType (fun v r => r <| ais_MediaType := v |>) decode_string);
                 ("data", field ais_Data (fun v r => r <| ais_Data := v |>) decode_string)].

Definition decode_block : decoder AnthropicContentBlock :=
  decode_struct
    [("type", field cb_Type (fun v r => r <| cb_Type := v |>) decode_string);
     ("cache_control", field cb_CacheControl (fun v r => r <| cb_CacheControl := v |>)
        (decode_pointer AnthropicCacheControl_zero decode_cache_control));
     ("text", field cb_Text (fun v r => r <| cb_Text := v |>) decode_string);
     ("thinking", field cb_Thinking (fun v r => r <| cb_Thinking := v |>) decode_string);
     ("signature", field cb_Signature (fun v r => r <| cb_Signature := v |>) decode_string);
     ("data", field cb_Data (fun v r => r <| cb_Data := v |>) decode_string);
     ("source", field cb_Source (fun v r => r <| cb_Source := v |>)
        (decode_pointer AnthropicImageSource_zero decode_image_source));
     ("id", field cb_ID (fun v r => r <| cb_ID := v |>) decode_string);
     ("name", field cb_Name (fun v r => r <| cb_Name := v |>) decode_string);
     ("input", field cb_Input (fun v r => r <| cb_Input := v |>) decode_raw);
     ("tool_use_id", field cb_ToolUseID (fun v r => r <| cb_ToolUseID := v |>) decode_string);
     ("content", field cb_Content (fun v r => r <| cb_Content := v |>) decode_raw);
     ("is_error", field cb_IsError (fun v r => r <| cb_IsError := v |>) decode_bool)].

(** [var blocks []AnthropicContentBlock; json.Unmarshal(raw, &blocks)]. *)
Definition unmarshal_blocks (raw : string) : option (list AnthropicContentBlock) :=
  unmarshal (decode_slice AnthropicContentBlock_zero decode_block) [] raw.

(** ** The conversion *)

Inductive conversion_error :=
| ErrReasoningEffort (effort : string)  (* gpt-6.1-sol does not support it *)
| ErrUnmarshal                          (* [json.Unmarshal] of a raw member *)
| ErrMarshal                            (* [json.Marshal] *)
| ErrToolChoice.                        (* convert tool_choice *)

Abbreviation result A := (outcome A conversion_error).

Definition isAnthropicBillingHeaderText (text : string) : bool := HasPrefix text "x-anthropic-billing-header: ".

Definition parseAnthropicSystemContentParts (raw : string) : result (list ResponsesContentPart) :=
  match unmarshal_string raw with
  | Some s => if isAnthropicBillingHeaderText s || (s =s "") then Ok [] else Ok [input_text s]
  | None =>
      let? blocks := or_error (unmarshal_blocks raw) ErrUnmarshal in
      Ok (flat_map (fun b =>
        if (cb_Type b =s "text") && negb (cb_Text b =s "") && negb (isAnthropicBillingHeaderText (cb_Text b))
        then [input_text (cb_Text b)] else []) blocks)
  end.

Definition anthropicImageToDataURI (src : option AnthropicImageSource) : string :=
  match src with
  | None => ""
  | Some src =>
      if ais_Data src =s "" then ""
      else
        let mediaType := if ais_MediaType src =s "" then "image/png" else ais_MediaType src in
        "data:" +:+ (mediaType +:+ (";base64," +:+ ais_Data src))
  end.

Definition image_parts (b : AnthropicContentBlock) : list ResponsesContentPart :=
  let uri := anthropicImageToDataURI (cb_Source b) in
  if uri =s "" then [] else [input_image uri].

Definition convertToolResultOutput (b : AnthropicContentBlock) : string * list ResponsesContentPart :=
  if cb_Content b =s "" then ("(empty)", [])
  else
    match unmarshal_string (cb_Content b) with
    | Some s => (if s =s "" then "(empty)" else s, [])
    | None =>
        match unmarshal_blocks (cb_Content b) with
        | None => ("(empty)", [])
        | Some inner =>
            let textParts := flat_map (fun ib => if (cb_Type ib =s "text") && negb (cb_Text ib =s "") then [cb_Text ib] else []) inner in
            let imageParts := flat_map (fun ib => if cb_Type ib =s "image" then image_parts ib else []) inner in
            let text := String.concat (String (chr 10) (String (chr 10) "")) textParts in
            (if text =s "" then "(empty)" else text, imageParts)
        end
    end.

Definition extractAnthropicTextFromBlocks (blocks : list AnthropicContentBlock) : string :=
  String.concat (String (chr 10) (String (chr 10) ""))
    (flat_map (fun b => if (cb_Type b =s "text") && negb (cb_Text b =s "") then [cb_Text b] else []) blocks).

Definition anthropicUserToResponses (raw : string) : result (list ResponsesInputItem) :=
  match unmarshal_string raw with
  | Some s =>
      let? partsJSON := or_error (marshal_slice part_json [input_text s]) ErrMarshal in
      Ok [message_item "user" partsJSON]
  | None =>
      let? blocks := or_error (unmarshal_blocks raw) ErrUnmarshal in
      let tool_results := List.filter (fun b => cb_Type b =s "tool_result") blocks in
      let out := map (fun b =>
        ResponsesInputItem_zero <| ri_Type := "function_call_output" |> <| ri_CallID := AnthToRes.toResponsesCallID (cb_ToolUseID b) |>
                                <| ri_Output := fst (convertToolResultOutput b) |>) tool_results in
      let toolResultImageParts := flat_map (fun b => snd (convertToolResultOutput b)) tool_results in
      let parts := flat_map (fun b =>
        if cb_Type b =s "text" then (if negb (cb_Text b =s "") then [input_text (cb_Text b)] else [])
        else if cb_Type b =s "image" then image_parts b else []) blocks ++ toolResultImageParts in
      match parts with
      | [] => Ok out
      | _ =>
          let? content := or_error (marshal_slice part_json parts) ErrMarshal in
          Ok (out ++ [message_item "user" content])
      end
  end.

Definition anthropicAssistantToResponses (raw : string) : result (list ResponsesInputItem) :=
  match unmarshal_string raw with
  | Some s =>
      let? partsJSON := or_error (marshal_slice part_json [output_text s]) ErrMarshal in
      Ok [message_item "assistant" partsJSON]
  | None =>
      let? blocks := or_error (unmarshal_blocks raw) ErrUnmarshal in
      let reasoning := flat_map (fun b =>
        if cb_Type b =s "thinking" then
          let sig := TrimSpace (cb_Signature b) in
          if (sig =s "") || HasPrefix sig "gAAAA" then []
          else [ResponsesInputItem_zero <| ri_Type := "reasoning" |> <| ri_EncryptedContent := sig |>]
        else []) blocks in
      let text := extractAnthropicTextFromBlocks blocks in
      let? message :=
        (if text =s "" then Ok []
         else let? partsJSON := or_error (marshal_slice part_json [output_text text]) ErrMarshal in
              Ok [message_item "assistant" partsJSON]) in
      let calls := map (fun b =>
        let args := if cb_Input b =s "" then "{}" else cb_Input b in
        ResponsesInputItem_zero <| ri_Type := "function_call" |> <| ri_CallID := AnthToRes.toResponsesCallID (cb_ID b) |>
                                <| ri_Name := cb_Name b |> <| ri_Arguments := args |>)
        (List.filter (fun b => cb_Type b =s "tool_use") blocks) in
      Ok (reasoning ++ message ++ calls)
  end.

Definition anthropicMsgToResponsesItems (m : AnthropicMessage) : result (list ResponsesInputItem) :=
  if am_Role m =s "user" then anthropicUserToResponses (am_Content m)
  else if am_Role m =s "assistant" then anthropicAssistantToResponses (am_Content m)
  else anthropicUserToResponses (am_Content m).

Fixpoint convert_messages (msgs : list AnthropicMessage) (out : list ResponsesInputItem) : result (list ResponsesInputItem) :=
  match msgs with
  | [] => Ok out
  | m :: msgs =>
      let? items := anthropicMsgToResponsesItems m in
      convert_messages msgs (out ++ items)
  end.

Definition convertAnthropicToResponsesInput (system : string) (msgs : list AnthropicMessage) : result (list ResponsesInputItem) :=
  let? out :=
    (if system =s "" then Ok []
     else
       let? sysParts := parseAnthropicSystemContentParts system in
       match sysParts with
       | [] => Ok []
       | _ => Ok [message_item "developer" (default "" (marshal_slice part_json sysParts))]
       end) in
  convert_messages msgs out.

Definition mapAnthropicEffortToResponses (effort : string) : string := if effort =s "max" then "xhigh" else effort.

Definition anthropicReasoningEffort (req : AnthropicRequest) : string :=
  if match aq_Thinking req with Some t => ath_Type t =s "disabled" | None => false end then "none"
  else
    let effort := match aq_OutputConfig req with
                  | Some c => if aoc_Effort c =s "" then "medium" else aoc_Effort c
                  | None => "medium"
                  end in
    mapAnthropicEffortToResponses effort.

(** [json.Marshal] of the [map[string]any] for a named tool. *)
Definition named_tool_choice (name : string) : json := JObject [("name", JString name); ("type", JString "function")].

Definition decode_tool_choice : decoder (string * string) :=
  decode_struct [("type", field fst (fun v p => (v, snd p)) decode_string); ("name", field snd (fun v p => (fst p, v)) decode_string)].

Definition convertAnthropicToolChoiceToResponses (raw : string) : result string :=
  let? tc := or_error (unmarshal decode_tool_choice ("", "") raw) ErrToolChoice in
  let '(typ, name) := tc in
  if typ =s "auto" then Ok (quote "auto")
  else if typ =s "any" then Ok (quote "required")
  else if typ =s "none" then Ok (quote "none")
  else if typ =s "tool" then or_error (Marshal (named_tool_choice name)) ErrToolChoice
  else Ok raw.

Definition normalizeToolParameters (schema : string) : string :=
  if (schema =s "") || (schema =s "null") then sq "{'type':'object','properties':{}}"
  else
    match unmarshal_object schema with
    | None => schema
    | Some m =>
        if negb (default "" (m !! "type") =s sq "'object'") then schema
        else match m !! "properties" with
        | Some _ => schema
        | None => marshal_raw_map (<["properties" := "{}"]> m)
        end
    end.

Definition convertAnthropicToolsToResponses (tools : list AnthropicTool) : list ResponsesTool :=
  map (fun t =>
    if HasPrefix (atl_Type t) "web_search" then ResponsesTool_zero <| rt_Type := "web_search" |>
    else ResponsesTool_zero <| rt_Type := "function" |> <| rt_Name := atl_Name t |> <| rt_Description := atl_Description t |>
           <| rt_Parameters := normalizeToolParameters (atl_InputSchema t) |> <| rt_Strict := Some false |>) tools.

(** The statements of [AnthropicToResponses] that fill the request, in order. *)

Definition with_sampling (req : AnthropicRequest) (out : ResponsesRequest) : ResponsesRequest :=
  if isReasoningModel (aq_Model req) then out
  else out <| rq_Temperature := aq_Temperature req |> <| rq_TopP := aq_TopP req |>.

Definition with_defaults (out : ResponsesRequest) : ResponsesRequest :=
  out <| rq_Store := Some false |> <| rq_ParallelToolCalls := Some true |>
      <| rq_Text := Some (ResponsesText_zero <| rtx_Verbosity := "medium" |>) |>.

Definition with_max_tokens (req : AnthropicRequest) (out : ResponsesRequest) : ResponsesRequest :=
  if 0 <? aq_MaxTokens req then
    let v := aq_MaxTokens req in
    let v := if v <? minMaxOutputTokens then minMaxOutputTokens else v in
    out <| rq_MaxOutputTokens := Some v |>
  else out.

Definition with_tools (req : AnthropicRequest) (out : ResponsesRequest) : ResponsesRequest :=
  match aq_Tools req with [] => out | tools => out <| rq_Tools := convertAnthropicToolsToResponses tools |> end.

Definition with_reasoning (req : AnthropicRequest) (out : ResponsesRequest) : ResponsesRequest :=
  let effort := anthropicReasoningEffort req in
  let effort := if IsGPT61SolModelSpelling (aq_Model req) &&
                   match aq_OutputConfig req with Some c => aoc_Effort c =s "max" | None => false end && negb (effort =s "none")
                then "max" else effort in
  let reasoning := ResponsesReasoning_zero <| rrs_Effort := effort |> in
  let reasoning := if negb (effort =s "none") then reasoning <| rrs_Summary := "auto" |> else reasoning in
  out <| rq_Reasoning := Some reasoning |>.

Definition AnthropicToResponses (req : AnthropicRequest) : result ResponsesRequest :=
  match ValidateGPT61SolReasoningEffort (aq_Model req) (anthropicReasoningEffort req) with
  | Some effort => Err (ErrReasoningEffort effort)
  | None =>
      let? input := convertAnthropicToResponsesInput (aq_System req) (aq_Messages req) in
      let? inputJSON := or_error (marshal_slice item_json input) ErrMarshal in
      let out := ResponsesRequest_zero <| rq_Model := aq_Model req |> <| rq_Input := inputJSON |> <| rq_Stream := aq_Stream req |>
                   <| rq_Include := ["reasoning.encrypted_content"] |> in
      let out := with_sampling req out in
      let out := with_defaults out in
      let out := with_max_tokens req out in
      let out := with_tools req out in
      let out := with_reasoning req out in
      if aq_ToolChoice req =s "" then Ok out
      else
        let? tc := convertAnthropicToolChoiceToResponses (aq_ToolChoice req) in
        Ok (out <| rq_ToolChoice := tc |>)
  end.

(** ** The conversation of an Anthropic request

    Read from the content blocks alone, without the functions of the
    conversion.  The Responses form keeps no order between the kinds of blocks
    of one message: an assistant message is its reasoning, then its texts as one
    text, then its calls; a user message is its tool results, then its texts and
    images as one message, the images of tool results last. *)

Definition is_type (t : string) (b : AnthropicContentBlock) : bool := cb_Type b =s t.

(** Non-empty texts, as paragraphs. *)
Definition texts_of (blocks : list AnthropicContentBlock) : list string :=
  List.filter (fun t => negb (t =s "")) (map cb_Text (List.filter (is_type "text") blocks)).
Definition paragraph : string := String (chr 10) (String (chr 10) "").
Definition paragraphs (texts : list string) : string := String.concat paragraph texts.

(** Images with data; PNG unless the source says otherwise. *)
Definition image_of (b : AnthropicContentBlock) : list string :=
  match cb_Source b with
  | Some src =>
      if ais_Data src =s "" then []
      else ["data:" +:+ ((if ais_MediaType src =s "" then "image/png" else ais_MediaType src) +:+ (";base64," +:+ ais_Data src))]
  | None => []
  end.
Definition images_of (blocks : list AnthropicContentBlock) : list string := flat_map image_of (List.filter (is_type "image") blocks).

(** A system prompt is a text or blocks; billing headers are no part of it. *)
Definition system_texts (raw : string) : option (list string) :=
  texts ← match unmarshal_string raw with Some s => Some (List.filter (fun t => negb (t =s "")) [s]) | None => texts_of <$> unmarshal_blocks raw end;
  Some (List.filter (fun t => negb (HasPrefix t "x-anthropic-billing-header: ")) texts).

Definition system_entries (raw : string) : option (list entry) :=
  if raw =s "" then Some [] else texts ← system_texts raw; Some (say "developer" (map Text texts)).

(** A tool result is a text, or blocks with all their texts and images; what
    cannot be read counts as empty. *)
Definition result_content (b : AnthropicContentBlock) : list string * list string :=
  match unmarshal_string (cb_Content b) with
  | Some s => ([s], [])
  | None => let blocks := default [] (unmarshal_blocks (cb_Content b)) in (texts_of blocks, images_of blocks)
  end.
Definition result_text (b : AnthropicContentBlock) : string :=
  let text := paragraphs (fst (result_content b)) in if text =s "" then "(empty)" else text.
Definition result_images (b : AnthropicContentBlock) : list string := snd (result_content b).

Definition block_parts (b : AnthropicContentBlock) : list part := map Text (texts_of [b]) ++ map Image (images_of [b]).

Definition user_entries (blocks : list AnthropicContentBlock) : list entry :=
  let results := List.filter (is_type "tool_result") blocks in
  map (fun b => Answer (cb_ToolUseID b) (result_text b)) results ++
  say "user" (flat_map block_parts blocks ++ map Image (flat_map result_images results)).

Definition thoughts (b : AnthropicContentBlock) : list entry :=
  let sig := TrimSpace (cb_Signature b) in
  if is_type "thinking" b && negb ((sig =s "") || HasPrefix sig "gAAAA") then [Thought sig] else [].

Definition assistant_entries (blocks : list AnthropicContentBlock) : list entry :=
  let text := paragraphs (texts_of blocks) in
  flat_map thoughts blocks ++ (if text =s "" then [] else [Say "assistant" [Text text]]) ++
  map (fun b => Call (cb_ID b) (cb_Name b) (if cb_Input b =s "" then "{}" else cb_Input b)) (List.filter (is_type "tool_use") blocks).

Definition message_entries (m : AnthropicMessage) : option (list entry) :=
  let assistant := am_Role m =s "assistant" in
  match unmarshal_string (am_Content m) with
  | Some s => Some [Say (if assistant then "assistant" else "user") [Text s]]
  | None => blocks ← unmarshal_blocks (am_Content m); Some (if assistant then assistant_entries blocks else user_entries blocks)
  end.

Fixpoint messages_entries (msgs : list AnthropicMessage) : option (list entry) :=
  match msgs with
  | [] => Some []
  | m :: msgs => es ← message_entries m; es' ← messages_entries msgs; Some (es ++ es')
  end.

Definition conversation (req : AnthropicRequest) : option (list entry) :=
  es ← system_entries (aq_System req); es' ← messages_entries (aq_Messages req); Some (es ++ es').

(** A request with a system prompt, a tool call and a tool result with an
    image. *)
Definition demo_request : AnthropicRequest :=
  let user := MkAnthropicMessage "user" (sq "[{'type':'text','text':'hi <b>'},{'type':'tool_result','tool_use_id':'t1','content':[{'type':'text','text':'a'},{'type':'text','text':'b'},{'type':'image','source':{'type':'base64','media_type':'','data':'QQ=='}}]}]") in
  let assistant := MkAnthropicMessage "assistant" (sq "[{'type':'tool_use','id':'t1','name':'Read','input':{'x': 1}},{'Type':'text','text':'ok'}]") in
  AnthropicRequest_zero <| aq_Model := "gpt-5" |> <| aq_MaxTokens := 100 |> <| aq_System := sq "'be\nbrief'" |>
    <| aq_Messages := [assistant; user] |> <| aq_Thinking := Some (MkAnthropicThinking "disabled" 0) |>.

Example conversation_ex1 : conversation demo_request =
  Some [Say "developer" [Text ("be" +:+ String (chr 10) "brief")]; Say "assistant" [Text "ok"]; Call "t1" "Read" (sq "{'x': 1}");
        Answer "t1" ("a" +:+ (paragraph +:+ "b")); Say "user" [Text "hi <b>"; Image "data:image/png;base64,QQ=="]].
Proof. vm_compute. reflexivity. Qed.

Lemma map_flat_map {A B C} (f : B -> C) (g : A -> list B) l : map f (flat_map g l) = flat_map (fun x => map f (g x)) l.
Proof. induction l as [|x l IH]; [done|]. cbn. by rewrite map_app, IH. Qed.

Definition block_text (b : AnthropicContentBlock) : list string :=
  if (cb_Type b =s "text") && negb (cb_Text b =s "") then [cb_Text b] else [].

Lemma texts_flat blocks : texts_of blocks = flat_map block_text blocks.
Proof.
  unfold texts_of, block_text, is_type. induction blocks as [|b blocks IH]; [done|]. cbn [flat_map List.filter].
  destruct (cb_Type b =s "text"); [|exact IH]. cbn [map List.filter andb]. destruct (negb (cb_Text b =s "")); cbn [app]; by rewrite IH.
Qed.

Lemma images_flat blocks : images_of blocks = flat_map (fun b => if cb_Type b =s "image" then image_of b else []) blocks.
Proof.
  unfold images_of, is_type. induction blocks as [|b blocks IH]; [done|]. cbn [flat_map List.filter].
  destruct (cb_Type b =s "image"); cbn [flat_map app]; by rewrite IH.
Qed.

Lemma block_text_map {B} (f : string -> B) b :
  map f (block_text b) = if cb_Type b =s "text" then (if negb (cb_Text b =s "") then [f (cb_Text b)] else []) else [].
Proof. unfold block_text. by destruct (cb_Type b =s "text"), (cb_Text b =s ""). Qed.

Lemma image_parts_map b : image_parts b = map input_image (image_of b).
Proof.
  unfold image_parts, image_of, anthropicImageToDataURI. destruct (cb_Source b) as [src|]; [|done].
  by destruct (ais_Data src =s "").
Qed.

Lemma block_parts_map b :
  block_parts b = map Text (block_text b) ++ map Image (if cb_Type b =s "image" then image_of b else []).
Proof. unfold block_parts. rewrite texts_flat, images_flat. cbn [flat_map]. by rewrite !app_nil_r. Qed.

Lemma result_text_spec b : fst (convertToolResultOutput b) = result_text b.
Proof.
  unfold convertToolResultOutput, result_text, result_content, paragraphs.
  destruct (String.eqb_spec (cb_Content b) "") as [->|_]; [by vm_compute|].
  destruct (unmarshal_string (cb_Content b)) as [s|]; [done|]. destruct (unmarshal_blocks (cb_Content b)) as [inner|]; [|done].
  cbn [fst default]. by rewrite texts_flat.
Qed.

Lemma result_images_map b : snd (convertToolResultOutput b) = map input_image (result_images b).
Proof.
  unfold convertToolResultOutput, result_images, result_content.
  destruct (String.eqb_spec (cb_Content b) "") as [->|_]; [by vm_compute|].
  destruct (unmarshal_string (cb_Content b)); [done|]. destruct (unmarshal_blocks (cb_Content b)) as [inner|]; [|done].
  cbn [snd default]. rewrite images_flat, map_flat_map. apply flat_map_ext. intros ib. destruct (cb_Type ib =s "image"); [apply image_parts_map|done].
Qed.

Lemma Forall2_flat_map {A B C} (R : B -> C -> Prop) (f : A -> list B) (g : A -> list C) l :
  (forall a, Forall2 R (f a) (g a)) -> Forall2 R (flat_map f l) (flat_map g l).
Proof. intros H. induction l as [|a l IH]; [constructor|]. cbn. by apply Forall2_app. Qed.

Lemma texts_speak l : Forall2 (part_speaks 0) (map input_text l) (map Text l).
Proof. induction l as [|s l IH]; constructor; [apply text_part_speaks|exact IH]. Qed.

Lemma images_speak l : Forall2 (part_speaks 0) (map input_image l) (map Image l).
Proof. induction l as [|s l IH]; constructor; [apply image_part_speaks|exact IH]. Qed.

(** The parts of a user message, as the code collects them. *)
Lemma user_parts blocks : Forall2 (part_speaks 0)
  (flat_map (fun b => if cb_Type b =s "text" then (if negb (cb_Text b =s "") then [input_text (cb_Text b)] else [])
                      else if cb_Type b =s "image" then image_parts b else []) blocks ++
   flat_map (fun b => snd (convertToolResultOutput b)) (List.filter (fun b => cb_Type b =s "tool_result") blocks))
  (flat_map block_parts blocks ++ map Image (flat_map result_images (List.filter (is_type "tool_result") blocks))).
Proof.
  apply Forall2_app.
  - apply Forall2_flat_map. intros b. rewrite block_parts_map, <- (app_nil_l (if _ =s "text" then _ else _)).
    replace ([] ++ _) with (map input_text (block_text b) ++ map input_image (if cb_Type b =s "image" then image_of b else []));
      [apply Forall2_app; [apply texts_speak|apply images_speak]|].
    rewrite block_text_map, image_parts_map. destruct (String.eqb_spec (cb_Type b) "text") as [->|]; [by rewrite app_nil_r|].
    by destruct (cb_Type b =s "image").
  - unfold is_type. rewrite map_flat_map. apply Forall2_flat_map. intros b. rewrite result_images_map. apply images_speak.
Qed.

Definition tool_answers (results : list AnthropicContentBlock) : list ResponsesInputItem :=
  map (fun b => ResponsesInputItem_zero <| ri_Type := "function_call_output" |> <| ri_CallID := AnthToRes.toResponsesCallID (cb_ToolUseID b) |>
                                        <| ri_Output := fst (convertToolResultOutput b) |>) results.

(** The two cases of the end of [anthropicUserToResponses]. *)
Lemma user_message out qs ps : Forall2 (part_speaks 0) qs ps -> exists items,
  match qs with
  | [] => Ok out
  | _ => let? content := or_error (marshal_slice part_json qs) ErrMarshal in Ok (out ++ [message_item "user" content])
  end = Ok items /\
  (forall es, heard_as 2 out es -> heard_as 2 items (es ++ say "user" ps)) /\ (Forall (item_plain 2) out -> Forall (item_plain 2) items).
Proof.
  intros Hq. destruct Hq as [|q p qs ps H1 Hq].
  - exists out. cbn [say]. split; [done|]. split; [|done]. intros es. by rewrite app_nil_r.
  - assert (Hall : Forall2 (part_speaks 0) (q :: qs) (p :: ps)) by by constructor.
    destruct (parts_marshalled 0 "user" (q :: qs)) as (t & Ht & Hi); [done|exact (parts_plain 0 _ _ Hall)|done|].
    rewrite Ht. eexists. split; [reflexivity|]. split.
    + intros es Ho. apply heard_app; [done|]. apply (heard_message 0 "user" (q :: qs) (p :: ps)); done.
    + intros Ho. apply Forall_app. split; [done|]. by constructor.
Qed.

Lemma user_heard m items : anthropicUserToResponses m = Ok items ->
  exists es, match unmarshal_string m with
             | Some s => Some [Say "user" [Text s]]
             | None => user_entries <$> unmarshal_blocks m
             end = Some es /\ heard_as 2 items es.
Proof.
  unfold anthropicUserToResponses. destruct (unmarshal_string m) as [s|].
  - destruct (marshal_slice part_json [input_text s]) as [t|] eqn:Ht; [|done]. cbn. intros [= <-].
    eexists. split; [reflexivity|]. by apply (heard_message 0 "user" [input_text s] [Text s]); [| | |apply (texts_speak [s])|].
  - destruct (unmarshal_blocks m) as [blocks|]; [|done]. cbn [or_error bind fmap option_fmap option_map]. cbv zeta.
    unfold user_entries. cbv zeta. set (results := List.filter (is_type "tool_result") blocks).
    destruct (user_message (tool_answers results) _ _ (user_parts blocks)) as (its & E & Hh & _). intros H.
    pose proof (eq_trans (eq_sym E) H) as Hits. injection Hits as ->.
    eexists. split; [reflexivity|]. apply Hh. apply heard_map. intros b. rewrite <- result_text_spec. apply answer_speaks.
Qed.

Lemma assistant_heard m items : anthropicAssistantToResponses m = Ok items ->
  exists es, match unmarshal_string m with
             | Some s => Some [Say "assistant" [Text s]]
             | None => assistant_entries <$> unmarshal_blocks m
             end = Some es /\ heard_as 2 items es.
Proof.
  unfold anthropicAssistantToResponses. destruct (unmarshal_string m) as [s|].
  - destruct (marshal_slice part_json [output_text s]) as [t|] eqn:Ht; [|done]. cbn. intros [= <-].
    eexists. split; [reflexivity|]. by apply (heard_message 0 "assistant" [output_text s] [Text s]); [| | |constructor; [apply answer_part_speaks|constructor]|].
  - destruct (unmarshal_blocks m) as [blocks|]; [|done]. cbn [or_error bind fmap option_fmap option_map]. cbv zeta.
    change (extractAnthropicTextFromBlocks blocks) with (paragraphs (flat_map block_text blocks)). rewrite <- texts_flat.
    set (text := paragraphs (texts_of blocks)).
    set (message := if text =s "" then Ok [] else _).
    destruct message as [msg|] eqn:Em; [|done]. cbn [bind]. intros [= <-]. eexists. split; [reflexivity|].
    unfold assistant_entries. fold text. apply heard_app; [|apply heard_app].
    + apply heard_flat_map. intros b. unfold thoughts, is_type. destruct (cb_Type b =s "thinking"); [|by intros _].
      cbn [andb]. destruct (_ || _); [by intros _|]. intros Hu. inversion Hu; subst. constructor; [by apply thought_speaks | constructor].
    + unfold message in Em. destruct (text =s ""); [injection Em as <-; by intros _|].
      destruct (marshal_slice part_json [output_text text]) as [t|] eqn:Ht; [|done]. injection Em as <-.
      by apply (heard_message 0 "assistant" [output_text text] [Text text]); [| | |constructor; [apply answer_part_speaks|constructor]|].
    + apply heard_map. intros b. apply call_speaks.
Qed.

Lemma message_heard m items : anthropicMsgToResponsesItems m = Ok items ->
  exists es, message_entries m = Some es /\ heard_as 2 items es.
Proof.
  unfold anthropicMsgToResponsesItems, message_entries. cbv zeta.
  destruct (String.eqb_spec (am_Role m) "user") as [->|Hu].
  - intros H. apply user_heard in H as (es & He & Hh). exists es. split; [|done]. change ("user" =s "assistant") with false.
    rewrite <- He. by destruct (unmarshal_string (am_Content m)).
  - destruct (am_Role m =s "assistant"); intros H; [apply assistant_heard in H|apply user_heard in H];
      destruct H as (es & He & Hh); exists es; (split; [|done]); rewrite <- He; by destruct (unmarshal_string (am_Content m)).
Qed.

Lemma messages_heard msgs : forall out items, convert_messages msgs out = Ok items ->
  exists items' es, items = out ++ items' /\ messages_entries msgs = Some es /\ heard_as 2 items' es.
Proof.
  induction msgs as [|m msgs IH]; intros out items; cbn [convert_messages messages_entries].
  - intros [= <-]. exists [], []. split; [by rewrite app_nil_r|]. split; [done|by intros _].
  - destruct (anthropicMsgToResponsesItems m) as [i|] eqn:Em; [|done]. cbn [bind]. intros H.
    apply message_heard in Em as (e1 & -> & H1). apply IH in H as (i2 & e2 & -> & -> & H2).
    exists (i ++ i2), (e1 ++ e2). split; [by rewrite app_assoc|]. split; [done|]. by apply heard_app.
Qed.

Lemma system_parts raw parts : parseAnthropicSystemContentParts raw = Ok parts -> raw <> "" ->
  exists texts, parts = map input_text texts /\ system_entries raw = Some (say "developer" (map Text texts)).
Proof.
  unfold parseAnthropicSystemContentParts, system_entries, system_texts. intros H Hne. destruct (String.eqb_spec raw ""); [done|].
  destruct (unmarshal_string raw) as [s|].
  - cbn [mbind option_bind List.filter]. exists (if isAnthropicBillingHeaderText s || (s =s "") then [] else [s]).
    unfold isAnthropicBillingHeaderText in *. destruct (s =s ""); cbn [negb orb List.filter] in *; [rewrite orb_true_r in *|rewrite orb_false_r in *];
      [by injection H as <-|]. by destruct (HasPrefix s _); injection H as <-.
  - destruct (unmarshal_blocks raw) as [blocks|]; [|done]. cbn in H. injection H as <-.
    exists (List.filter (fun t => negb (isAnthropicBillingHeaderText t)) (flat_map block_text blocks)).
    cbn [fmap option_fmap option_map mbind option_bind]. rewrite texts_flat. split; [|done].
    clear. induction blocks as [|b blocks IH]; [done|]. cbn [flat_map]. rewrite IH, List.filter_app, map_app. f_equal.
    unfold block_text. destruct (_ && negb (cb_Text b =s "")); [|done]. cbn. by destruct (isAnthropicBillingHeaderText (cb_Text b)).
Qed.

Lemma input_heard system msgs items : convertAnthropicToResponsesInput system msgs = Ok items ->
  exists es es', system_entries system = Some es /\ messages_entries msgs = Some es' /\ heard_as 2 items (es ++ es').
Proof.
  unfold convertAnthropicToResponsesInput. set (sys := if system =s "" then Ok [] else _).
  destruct sys as [out|] eqn:Es; [|done]. cbn [bind]. intros H. apply messages_heard in H as (items' & es' & -> & Hm & Hh').
  assert (Hsys : exists es, system_entries system = Some es /\ heard_as 2 out es).
  { unfold sys in Es. destruct (String.eqb_spec system "") as [->|Hne]; [injection Es as <-; exists []; split; [done|by intros _]|].
    destruct (parseAnthropicSystemContentParts system) as [parts|] eqn:Ep; [|done]. cbn [bind] in Es.
    destruct (system_parts _ _ Ep Hne) as (texts & -> & Hs). exists (say "developer" (map Text texts)). split; [done|].
    destruct texts as [|s texts]; [injection Es as <-; by intros _|].
    destruct (parts_marshalled 0 "developer" (map input_text (s :: texts))) as (t & Ht & _);
      [done|exact (parts_plain 0 _ _ (texts_speak (s :: texts)))|done|].
    cbn [map] in Es, Ht. rewrite Ht in Es. injection Es as <-.
    apply (heard_message 0 "developer" (input_text s :: map input_text texts)); [done|done|done|exact (texts_speak (s :: texts))|exact Ht]. }
  destruct Hsys as (es & He & Hh). exists es, es'. split; [done|]. split; [done|]. by apply heard_app.
Qed.

(** What a successful conversion went through: everything but the tool choice
    is settled before the tool choice is converted. *)
Definition settled (req : AnthropicRequest) (input : string) : ResponsesRequest :=
  with_reasoning req (with_tools req (with_max_tokens req (with_defaults (with_sampling req
    (ResponsesRequest_zero <| rq_Model := aq_Model req |> <| rq_Input := input |> <| rq_Stream := aq_Stream req |>
                           <| rq_Include := ["reasoning.encrypted_content"] |>))))).

Lemma settled_fields req input : let out := settled req input in
  rq_Input out = input /\ rq_Model out = aq_Model req /\ rq_Stream out = aq_Stream req /\
  rq_Temperature out = (if isReasoningModel (aq_Model req) then None else aq_Temperature req) /\
  rq_TopP out = (if isReasoningModel (aq_Model req) then None else aq_TopP req) /\
  rq_MaxOutputTokens out = (if 0 <? aq_MaxTokens req then Some (Z.max minMaxOutputTokens (aq_MaxTokens req)) else None) /\
  rq_Tools out = convertAnthropicToolsToResponses (aq_Tools req) /\ rq_ToolChoice out = "".
Proof.
  unfold settled, with_sampling, with_max_tokens, with_tools, with_defaults.
  assert (Hm : (if aq_MaxTokens req <? minMaxOutputTokens then minMaxOutputTokens else aq_MaxTokens req) = Z.max minMaxOutputTokens (aq_MaxTokens req))
    by (destruct (Z.ltb_spec (aq_MaxTokens req) minMaxOutputTokens); lia).
  rewrite Hm. generalize (Z.max minMaxOutputTokens (aq_MaxTokens req)). intros v.
  destruct (isReasoningModel (aq_Model req)), (0 <? aq_MaxTokens req), (aq_Tools req); repeat split.
Qed.

Lemma AnthropicToResponses_inv req out : AnthropicToResponses req = Ok out ->
  ValidateGPT61SolReasoningEffort (aq_Model req) (anthropicReasoningEffort req) = None /\
  exists items input, convertAnthropicToResponsesInput (aq_System req) (aq_Messages req) = Ok items /\
    marshal_slice item_json items = Some input /\
    exists tc, out = settled req input <| rq_ToolChoice := tc |> /\
      (if aq_ToolChoice req =s "" then tc = "" else convertAnthropicToolChoiceToResponses (aq_ToolChoice req) = Ok tc).
Proof.
  unfold AnthropicToResponses. destruct (ValidateGPT61SolReasoningEffort _ _); [done|].
  destruct (convertAnthropicToResponsesInput _ _) as [items|]; [|done]. cbn [bind].
  destruct (marshal_slice item_json items) as [t|] eqn:Ht; [|done]. cbn [bind or_error].
  change (with_reasoning _ _) with (settled req t). intros H. split; [done|]. exists items, t. split; [done|]. split; [done|].
  pose proof (settled_fields req t) as (_ & _ & _ & _ & _ & _ & _ & Htc). revert H Htc. generalize (settled req t). intros o H Htc.
  destruct (aq_ToolChoice req =s "").
  - exists "". split; [|done]. injection H as <-. rewrite <- Htc. by destruct o.
  - destruct (convertAnthropicToolChoiceToResponses _) as [tc|]; [|done]. exists tc. split; [|done].
    by apply (f_equal (fun r : result _ => match r with Ok x => x | Err _ => out end)) in H.
Qed.

Lemma AnthropicToResponses_input req out : AnthropicToResponses req = Ok out ->
  exists items, convertAnthropicToResponsesInput (aq_System req) (aq_Messages req) = Ok items /\
    marshal_slice item_json items = Some (rq_Input out).
Proof.
  intros H. apply AnthropicToResponses_inv in H as (_ & items & t & Hi & Ht & tc & -> & _). exists items. split; [done|].
  pose proof (settled_fields req t) as [E _]. revert E. generalize (settled req t). intros o E. rewrite Ht. f_equal. symmetry. exact E.
Qed.

(** ** The conversation reaches the upstream *)

(** C5: The upstream decodes from the bytes of the converted request the
    conversation of the Anthropic request, message by message: the system prompt
    without billing headers as a developer message; of an assistant message the
    replayed reasoning, all its texts as paragraphs of one text, and the tool
    calls with their ids, names and argument bytes; of a user message each tool
    result with the id it answers and all its texts as paragraphs, then the
    texts and images in their order, then the images of the tool results.  (When
    the texts of the conversation are UTF-8.) *)
Theorem upstream_reads_conversation req out :
  AnthropicToResponses req = Ok out ->
  exists es, conversation req = Some es /\ (Forall entry_utf8 es -> hear (rq_Input out) = Some es).
Proof.
  intros H. apply AnthropicToResponses_input in H as (items & Hi & Ht).
  apply input_heard in Hi as (es & es' & He & He' & Hh). exists (es ++ es'). unfold conversation. rewrite He, He'.
  split; [done|]. intros Hu. eapply (hear_speaks 2); [done|by apply Hh | exact Ht].
Qed.

(** ** When a request is refused *)

(** The forms a system prompt or a message content may have. *)
Definition readable (raw : string) : bool :=
  match unmarshal_string raw, unmarshal_blocks raw with None, None => false | _, _ => true end.

Definition tool_choice_readable (raw : string) : bool :=
  match unmarshal decode_tool_choice ("", "") raw with Some _ => true | None => false end.

Definition converts (r : result (list ResponsesInputItem)) (b : bool) : Prop :=
  if b then exists items, r = Ok items /\ Forall (item_plain 2) items else r = Err ErrUnmarshal.

Lemma answers_plain results : Forall (item_plain 2) (tool_answers results).
Proof. unfold tool_answers. rewrite Forall_map. apply Forall_true. intros b. by repeat split; left. Qed.

Lemma text_converts role q : part_plain 0 q -> exists t, or_error (marshal_slice part_json [q]) ErrMarshal = Ok t /\
  Forall (item_plain 2) [message_item role t].
Proof.
  intros Hq. destruct (parts_marshalled 0 role [q]) as (t & -> & Hi); [done|by constructor|done|]. exists t. split; [done|]. by constructor.
Qed.

Lemma user_converts raw : converts (anthropicUserToResponses raw) (readable raw).
Proof.
  unfold anthropicUserToResponses, readable. destruct (unmarshal_string raw) as [s|].
  - destruct (text_converts "user" (input_text s)) as (t & -> & Hi); [by left|]. eexists. by split.
  - destruct (unmarshal_blocks raw) as [blocks|]; [|done]. cbn [or_error bind]. cbv zeta.
    destruct (user_message (tool_answers (List.filter (is_type "tool_result") blocks)) _ _ (user_parts blocks)) as (its & E & _ & Hp).
    exists its. split; [exact E|]. apply Hp, answers_plain.
Qed.

Lemma assistant_converts raw : converts (anthropicAssistantToResponses raw) (readable raw).
Proof.
  unfold anthropicAssistantToResponses, readable. destruct (unmarshal_string raw) as [s|].
  - destruct (text_converts "assistant" (output_text s)) as (t & -> & Hi); [by left|]. eexists. by split.
  - destruct (unmarshal_blocks raw) as [blocks|]; [|done]. cbn [or_error bind]. cbv zeta.
    set (text := extractAnthropicTextFromBlocks blocks).
    assert (Hm : exists msg, (if text =s "" then Ok [] else let? t := or_error (marshal_slice part_json [output_text text]) ErrMarshal in
      Ok [message_item "assistant" t]) = Ok msg /\ Forall (item_plain 2) msg).
    { destruct (text =s ""); [by eexists|]. destruct (text_converts "assistant" (output_text text)) as (t & -> & Hi); [by left|]. eexists. by split. }
    destruct Hm as (msg & -> & Hmsg). eexists. split; [reflexivity|]. rewrite !Forall_app. split_and!; [|done|].
    + apply Forall_forall. intros i Hi. apply list_elem_of_In, in_flat_map in Hi as (b & _ & Hi).
      destruct (_ =s _); [|done]. destruct (_ || _); [done|]. destruct Hi as [<-|[]]. by repeat split; left.
    + rewrite Forall_map. apply Forall_true. intros b. by repeat split; left.
Qed.

Lemma messages_convert msgs : forall out, Forall (item_plain 2) out ->
  converts (convert_messages msgs out) (forallb (fun m => readable (am_Content m)) msgs).
Proof.
  induction msgs as [|m msgs IH]; intros out Ho; [by eexists|]. cbn [convert_messages forallb].
  assert (Hm : converts (anthropicMsgToResponsesItems m) (readable (am_Content m))).
  { unfold anthropicMsgToResponsesItems. destruct (_ =s _); [apply user_converts|].
    destruct (_ =s _); [apply assistant_converts | apply user_converts]. }
  unfold converts in Hm. destruct (readable (am_Content m)); [|by rewrite Hm].
  destruct Hm as (items & -> & Hi). apply IH. by apply Forall_app.
Qed.

Lemma input_converts system msgs : converts (convertAnthropicToResponsesInput system msgs)
  (((system =s "") || readable system) && forallb (fun m => readable (am_Content m)) msgs).
Proof.
  unfold convertAnthropicToResponsesInput. destruct (String.eqb_spec system "") as [|Hne]; [by apply messages_convert|].
  destruct (parseAnthropicSystemContentParts system) as [parts|e] eqn:Ep.
  - assert (Hr : readable system = true).
    { unfold readable. unfold parseAnthropicSystemContentParts in Ep. destruct (unmarshal_string system); [done|].
      by destruct (unmarshal_blocks system). }
    rewrite Hr. cbn [orb andb]. destruct (system_parts _ _ Ep Hne) as (texts & -> & _).
    destruct texts as [|s texts]; [by apply messages_convert|].
    destruct (parts_marshalled 0 "developer" (map input_text (s :: texts))) as (t & Ht & Hi);
      [done|exact (parts_plain 0 _ _ (texts_speak (s :: texts)))|done|].
    cbn [map bind] in Ht |- *. rewrite Ht. cbn [default bind]. apply messages_convert. by constructor.
  - assert (Hr : readable system = false /\ e = ErrUnmarshal).
    { unfold readable. unfold parseAnthropicSystemContentParts in Ep. destruct (unmarshal_string system) as [s|]; [by destruct (_ || _)|].
      destruct (unmarshal_blocks system); [done|]. by injection Ep as <-. }
    destruct Hr as [-> ->]. reflexivity.
Qed.

Definition readable_request (req : AnthropicRequest) : bool :=
  ((aq_System req =s "") || readable (aq_System req)) && forallb (fun m => readable (am_Content m)) (aq_Messages req).

Lemma tool_choice_converts raw :
  if tool_choice_readable raw then exists tc, convertAnthropicToolChoiceToResponses raw = Ok tc
  else convertAnthropicToolChoiceToResponses raw = Err ErrToolChoice.
Proof.
  unfold tool_choice_readable, convertAnthropicToolChoiceToResponses.
  destruct (unmarshal decode_tool_choice ("", "") raw) as [[typ name]|]; [|done]. cbn [or_error bind].
  repeat (destruct (typ =s _); [by eexists|]). by eexists.
Qed.

(** C30: A request is refused in exactly three cases, each with its own error:
    disabled reasoning on gpt-6.1-sol, a system prompt or message content that
    is neither a string nor a list of content blocks, and a tool choice that
    is not an object.  Every other request is converted; writing the converted
    input never fails. *)
Theorem request_refused req :
  match AnthropicToResponses req with
  | Ok _ => readable_request req = true /\ (aq_ToolChoice req = "" \/ tool_choice_readable (aq_ToolChoice req) = true) /\
            (IsGPT61SolModelSpelling (aq_Model req) = true -> ~ disabled_effort (anthropicReasoningEffort req))
  | Err (ErrReasoningEffort e) =>
      IsGPT61SolModelSpelling (aq_Model req) = true /\ e = anthropicReasoningEffort req /\ disabled_effort e
  | Err ErrUnmarshal => readable_request req = false
  | Err ErrToolChoice => readable_request req = true /\ aq_ToolChoice req <> "" /\ tool_choice_readable (aq_ToolChoice req) = false
  | Err ErrMarshal => False
  end.
Proof.
  unfold AnthropicToResponses. pose proof (ValidateGPT61SolReasoningEffort_spec (aq_Model req) (anthropicReasoningEffort req)) as Hv.
  destruct (ValidateGPT61SolReasoningEffort _ _) as [e|]; [destruct Hv as (H1 & -> & H2); auto|].
  pose proof (input_converts (aq_System req) (aq_Messages req)) as Hi. unfold converts in Hi. fold (readable_request req) in Hi.
  destruct (readable_request req); [|by rewrite Hi]. destruct Hi as (items & -> & Hp). cbn [bind].
  destruct (marshal_items 2 items ltac:(done) Hp) as (t & -> & _). cbn [or_error bind]. change (with_reasoning _ _) with (settled req t).
  generalize (settled req t). intros o. destruct (String.eqb_spec (aq_ToolChoice req) "") as [->|Hne]; [by auto|].
  pose proof (tool_choice_converts (aq_ToolChoice req)) as Ht. destruct (tool_choice_readable (aq_ToolChoice req)).
  - destruct Ht as (tc & ->). cbn [bind]. auto.
  - rewrite Ht. cbn [bind]. auto.
Qed.

(** ** The parameters of a converted request *)

(** The parameters of a converted request: the sampling parameters are
    dropped for every GPT generation from 5 on and kept below, the output
    budget is raised to the minimum the upstream accepts and never lowered, a
    disabled thinking block switches reasoning off whatever effort is
    configured, a summary is asked for exactly when reasoning is on, and
    gpt-6.1-sol is never sent an effort it does not support. *)
Theorem request_parameters req out n suffix :
  AnthropicToResponses req = Ok out ->
  aq_Model req = "gpt-" +:+ (Itoa n +:+ suffix) -> 0 <= n <= int64_max ->
  match suffix with String c _ => is_digit c | EmptyString => false end = false ->
  ToLower (TrimSpace (aq_Model req)) = aq_Model req ->
  exists r, rq_Reasoning out = Some r /\ rq_Model out = aq_Model req /\ rq_Stream out = aq_Stream req /\
  (5 <= n -> rq_Temperature out = None /\ rq_TopP out = None) /\
  (n < 5 -> IsGPT6SolOrLunaModelSpelling (aq_Model req) = false ->
     rq_Temperature out = aq_Temperature req /\ rq_TopP out = aq_TopP req) /\
  (0 < aq_MaxTokens req -> rq_MaxOutputTokens out = Some (Z.max 128 (aq_MaxTokens req))) /\
  (aq_MaxTokens req <= 0 -> rq_MaxOutputTokens out = None) /\
  ((exists t, aq_Thinking req = Some t /\ ath_Type t = "disabled") -> rrs_Effort r = "none") /\
  (rrs_Summary r = if rrs_Effort r =s "none" then "" else "auto") /\
  (IsGPT61SolModelSpelling (aq_Model req) = true -> ~ disabled_effort (rrs_Effort r)).
Proof.
  intros H Hm Hn Hs Hlow. apply AnthropicToResponses_inv in H as (Hv & items & t & _ & _ & tc & -> & _).
  pose proof (settled_fields req t) as (_ & H1 & H2 & H3 & H4 & H5 & _).
  assert (Hr : isReasoningModel (aq_Model req) = (5 <=? n) || IsGPT6SolOrLunaModelSpelling (aq_Model req)).
  { unfold isReasoningModel. rewrite Hm in Hlow |- *. by rewrite openAIModelGeneration_spec. }
  rewrite Hr in H3, H4.
  assert (HR : rq_Reasoning (settled req t) = rq_Reasoning (with_reasoning req ResponsesRequest_zero)) by reflexivity.
  revert H1 H2 H3 H4 H5 HR. generalize (settled req t). intros o H1 H2 H3 H4 H5 HR.
  pose proof (ValidateGPT61SolReasoningEffort_spec (aq_Model req) (anthropicReasoningEffort req)) as Hval. rewrite Hv in Hval.
  unfold with_reasoning in HR. cbv zeta in HR. cbn [rq_Reasoning] in HR.
  set (e := if _ && negb (anthropicReasoningEffort req =s "none") then "max" else anthropicReasoningEffort req) in HR.
  exists (if negb (e =s "none") then ResponsesReasoning_zero <| rrs_Effort := e |> <| rrs_Summary := "auto" |>
          else ResponsesReasoning_zero <| rrs_Effort := e |>).
  assert (He : forall b : bool, rrs_Effort (if b then ResponsesReasoning_zero <| rrs_Effort := e |> <| rrs_Summary := "auto" |>
          else ResponsesReasoning_zero <| rrs_Effort := e |>) = e) by by intros [].
  rewrite He. split; [exact HR|]. split; [exact H1|]. split; [exact H2|].
  split; [intros ?; rewrite (proj2 (Z.leb_le _ _)) in H3, H4 by done; by split|].
  split; [intros ? Hsol; rewrite (proj2 (Z.leb_gt _ _)), Hsol in H3, H4 by done; by split|].
  split; [intros ?; etransitivity; [exact H5|]; by rewrite (proj2 (Z.ltb_lt _ _))|].
  split; [intros ?; etransitivity; [exact H5|]; by rewrite (proj2 (Z.ltb_ge _ _))|].
  split; [|split].
  - intros (th & Eth & Hd). unfold e. unfold anthropicReasoningEffort. rewrite Eth, Hd. cbn. by rewrite andb_false_r.
  - clearbody e. by destruct (e =s "none").
  - intros Hsol Hdis. unfold e in Hdis. destruct (_ && negb _); [|by apply Hval].
    destruct Hdis as [Hd|Hd]; vm_compute in Hd; discriminate.
Qed.

Lemma upstream_reads_conversation_witness :
  exists out es, AnthropicToResponses demo_request = Ok out /\ conversation demo_request = Some es /\ length es = 5%nat /\
    hear (rq_Input out) = Some es.
Proof.
  destruct (AnthropicToResponses demo_request) as [out|e] eqn:E; [|vm_compute in E; discriminate].
  destruct (upstream_reads_conversation demo_request out E) as (es & He & Hh). exists out, es.
  split; [reflexivity|]. split; [exact He|]. pose proof conversation_ex1 as Hc. rewrite He in Hc. injection Hc as ->.
  split; [reflexivity|]. apply Hh. repeat constructor; vm_compute; reflexivity.
Defined.

Lemma request_parameters_witness :
  exists out r, AnthropicToResponses demo_request = Ok out /\ rq_Reasoning out = Some r /\ rrs_Effort r = "none" /\
    rq_MaxOutputTokens out = Some 128 /\ rq_Temperature out = None.
Proof.
  destruct (AnthropicToResponses demo_request) as [out|e] eqn:E; [|vm_compute in E; discriminate].
  destruct (request_parameters demo_request out 5 "" E) as (r & Hr & _ & _ & Ht & _ & Hm & _ & Hd & _);
    [vm_compute; reflexivity|unfold int64_max; lia|reflexivity|vm_compute; reflexivity|].
  exists out, r. split; [reflexivity|]. split; [exact Hr|]. split; [|split].
  - apply Hd. eexists. split; reflexivity.
  - apply Hm. reflexivity.
  - apply Ht. done.
Defined.

(** ** Tool schemas *)

Definition object_type : string := sq "'object'".

(** The schema of an object with properties is a fixed point. *)
Lemma normalize_complete out m : unmarshal_object out = Some m -> m !! "type" = Some object_type -> is_Some (m !! "properties") ->
  normalizeToolParameters out = out.
Proof.
  intros Hm Ht [ps Hp]. unfold normalizeToolParameters. destruct (String.eqb_spec out "") as [->|_]; [by vm_compute in Hm|].
  destruct (String.eqb_spec out "null") as [->|_].
  { change (unmarshal_object "null") with (Some (∅ : gmap string string)) in Hm. injection Hm as <-. by rewrite lookup_empty in Ht. }
  cbn [orb]. rewrite Hm, Ht, Hp. cbn [from_option id]. change (sq "'object'") with object_type. by rewrite String.eqb_refl.
Qed.

Lemma add_properties schema m : unmarshal_object schema = Some m ->
  unmarshal_object (marshal_raw_map (<["properties" := "{}"]> m)) = Some (<["properties" := "{}"]> (compact <$> m)).
Proof.
  intros Hm. rewrite <- (fmap_insert compact m "properties" "{}" : _ = <["properties" := "{}"]> _).
  apply (unmarshal_marshal_raw_map (room 1)); [by vm_compute|]. intros k v. destruct (decide (k = "properties")) as [->|Hne].
  - rewrite lookup_insert_eq. intros [= <-]. split; [by vm_compute|]. rewrite (room_step 1) by done. apply (reads_object _ []). constructor.
  - rewrite lookup_insert_ne by done. by apply (unmarshal_object_members schema).
Qed.

(** C40: A tool schema goes upstream as an object schema with properties: an
    absent one becomes the empty object schema, an object schema without
    properties gets an empty set of them and keeps every other member up to
    white space and escaping, and every other schema goes out byte for byte.
    Normalising a schema again changes nothing. *)
Theorem tool_schema_normalized schema :
  let out := normalizeToolParameters schema in
  (schema = "" \/ schema = "null" -> unmarshal_object out = Some {[ "type" := object_type; "properties" := "{}" ]}) /\
  (forall m, unmarshal_object schema = Some m -> m !! "type" = Some object_type -> m !! "properties" = None ->
     unmarshal_object out = Some (<["properties" := "{}"]> (compact <$> m))) /\
  (forall m, unmarshal_object schema = Some m -> m !! "type" = Some object_type -> is_Some (m !! "properties") -> out = schema) /\
  (schema <> "" -> schema <> "null" -> (forall m, unmarshal_object schema = Some m -> m !! "type" <> Some object_type) -> out = schema) /\
  normalizeToolParameters out = out.
Proof.
  cbv zeta. set (out := normalizeToolParameters schema).
  assert (Hcases : (schema = "" \/ schema = "null") /\ out = sq "{'type':'object','properties':{}}" \/
    schema <> "" /\ schema <> "null" /\
      ((exists m, unmarshal_object schema = Some m /\ m !! "type" = Some object_type /\
          (m !! "properties" = None /\ out = marshal_raw_map (<["properties" := "{}"]> m) \/ is_Some (m !! "properties") /\ out = schema)) \/
       (forall m, unmarshal_object schema = Some m -> m !! "type" <> Some object_type) /\ out = schema)).
  { unfold out, normalizeToolParameters. destruct (String.eqb_spec schema "") as [->|H1]; [by left; split; [left|]|].
    destruct (String.eqb_spec schema "null") as [->|H2]; [by left; split; [right|]|]. cbn [orb]. right. split; [done|]. split; [done|].
    destruct (unmarshal_object schema) as [m|]; [|by right]. change (sq "'object'") with object_type.
    destruct (m !! "type") as [t|] eqn:Et; cbn [from_option id].
    - destruct (String.eqb_spec t object_type) as [->|Hne]; cbn [negb].
      + left. exists m. split; [done|]. split; [done|]. destruct (m !! "properties") eqn:Ep; [right; by split|left; by split].
      + right. split; [|done]. intros m' [= <-]. rewrite Et. congruence.
    - right. split; [|done]. intros m' [= <-]. rewrite Et. discriminate. }
  clearbody out. destruct Hcases as [[Hs ->]|(H1 & H2 & [(m & Hm & Ht & Hp)|[Hno ->]])].
  - assert (Hno : forall m, unmarshal_object schema = Some m -> m !! "type" = Some object_type -> False).
    { intros m Hm Ht. destruct Hs as [-> | ->]; [by vm_compute in Hm|].
      change (unmarshal_object "null") with (Some (∅ : gmap string string)) in Hm. injection Hm as <-. by rewrite lookup_empty in Ht. }
    split; [intros _; vm_compute; reflexivity|]. split; [intros m Hm Ht; by destruct (Hno m)|].
    split; [intros m Hm Ht; by destruct (Hno m)|]. split; [by destruct Hs as [-> | ->]|]. vm_compute. reflexivity.
  - assert (Hsame : forall m', unmarshal_object schema = Some m' -> m' = m) by congruence.
    destruct Hp as [[Hp ->]|[Hp ->]].
    + pose proof (add_properties _ _ Hm) as Ha. split; [by intros [? | ?]|]. split; [by intros m' ->%Hsame|].
      split; [intros m' ->%Hsame _ [? ?]; congruence|]. split; [intros _ _ Hno; by destruct (Hno m)|].
      apply (normalize_complete _ _ Ha); [|rewrite lookup_insert_eq; by eexists].
      rewrite lookup_insert_ne by done. rewrite lookup_fmap, Ht. vm_compute. reflexivity.
    + split; [by intros [? | ?]|]. split; [intros m' ->%Hsame _ He; rewrite He in Hp; by destruct Hp|].
      split; [done|]. split; [done|]. by eapply normalize_complete.
  - split; [by intros [? | ?]|]. split; [intros m Hm Ht; by destruct (Hno m)|]. split; [done|]. split; [done|].
    unfold normalizeToolParameters.
    rewrite (proj2 (String.eqb_neq _ _) H1), (proj2 (String.eqb_neq _ _) H2). cbn [orb].
    destruct (unmarshal_object schema) as [m|]; [|done]. change (sq "'object'") with object_type.
    destruct (m !! "type") as [t|] eqn:Et; cbn [from_option id]; [|done].
    destruct (String.eqb_spec t object_type) as [->|Hne]; [by destruct (Hno m)|done].
Qed.

End AnthRequest.
