(* ===== verification/ResponseFormat.v ===== *)
(** * ResponseFormat: structured output formats of Chat and Responses

    Models [src/backend/internal/pkg/apicompat/response_format.go]: a Chat
    format wraps a JSON schema in a [json_schema] member, a Responses format
    has the members of the schema next to its type. *)

From S2P Require Import Prelude GoStrings Json JsonCodec JsonCompact JsonMembers.

Module ResponseFormat.
Import Json JsonCodec JsonCompact JsonMembers.

(** The empty string is Go's nil raw message. *)
Definition normalizedRawJSON (raw : string) : string :=
  let raw := TrimSpace raw in if (raw =s "") || (raw =s "null") then "" else raw.

Definition rawString (raw : string) : string :=
  let raw := TrimSpace raw in
  if (raw =s "") || (raw =s "null") then "" else default "" (unmarshal_string raw).

Definition rawJSONString (value : string) : string := quote value.

(** [obj[key]] of a map of raw messages. *)
Definition raw_member (obj : gmap string string) (key : string) : string := default "" (obj !! key).

Definition chatResponseFormatToResponsesTextFormat (raw : string) : string :=
  let raw := normalizedRawJSON raw in
  if raw =s "" then ""
  else
    match unmarshal_object raw with
    | None => raw
    | Some obj =>
        if negb (rawString (raw_member obj "type") =s "json_schema") then raw
        else
          let schemaRaw := normalizedRawJSON (raw_member obj "json_schema") in
          if schemaRaw =s "" then raw
          else
            match unmarshal_object schemaRaw with
            | None => raw
            | Some schema => marshal_raw_map (<["type" := rawJSONString "json_schema"]> schema)
            end
    end.

Definition responsesTextFormatToChatResponseFormat (raw : string) : string :=
  let raw := normalizedRawJSON raw in
  if raw =s "" then ""
  else
    match unmarshal_object raw with
    | None => raw
    | Some obj =>
        if negb (rawString (raw_member obj "type") =s "json_schema") then raw
        else if bool_decide (is_Some (obj !! "json_schema")) then raw
        else
          let schema := delete "type" obj in
          if bool_decide (schema = ∅) then raw
          else marshal_raw_map {[ "type" := rawJSONString "json_schema"; "json_schema" := marshal_raw_map schema ]}
    end.

Example format_ex1 : chatResponseFormatToResponsesTextFormat (sq " {'type':'json_schema','json_schema':{'name':'n','schema':{'a': 1}}}")
  = sq "{'name':'n','schema':{'a':1},'type':'json_schema'}".
Proof. vm_compute. reflexivity. Qed.

(** ** Through both conversions *)

Lemma normalized_object s : normalizedRawJSON ("{" +:+ (s +:+ "}")) = "{" +:+ (s +:+ "}").
Proof.
  assert (Ht : TrimSpace ("{" +:+ (s +:+ "}")) = "{" +:+ (s +:+ "}")).
  { unfold TrimSpace. rewrite <- (of_to_bytes ("{" +:+ (s +:+ "}"))) at 2. f_equal. rewrite !to_bytes_app.
    change (to_bytes "{") with ["{"%char]. change (to_bytes "}") with ["}"%char]. cbn [app].
    rewrite trim_left_keeps by (vm_compute; split; discriminate). cbn [rev]. rewrite rev_app_distr. cbn [rev app].
    rewrite trim_left_rev_keeps by (vm_compute; split; discriminate). change ("}"%char :: ?x) with (["}"%char] ++ x).
    by rewrite !rev_app_distr, rev_involutive. }
  unfold normalizedRawJSON. rewrite Ht. done.
Qed.

Lemma normalized_map m : normalizedRawJSON (marshal_raw_map m) = marshal_raw_map m.
Proof. unfold marshal_raw_map. apply normalized_object. Qed.

Lemma rawString_quote s : ValidString s = true -> rawString (quote s) = s.
Proof.
  intros Hs. unfold rawString. rewrite trim_quote. destruct (String.eqb_spec (quote s) "") as [E|_].
  { destruct (quote_scan s "") as (o & Eo & _). by rewrite str_app_nil_r, E in Eo. }
  destruct (String.eqb_spec (quote s) "null") as [E|_]; [|by rewrite unmarshal_string_quote].
  destruct (quote_scan s "") as (o & Eo & _). by rewrite str_app_nil_r, E in Eo.
Qed.

Section schema.
Context (raw : string) (obj m : gmap string string).
Context (Hobj : unmarshal_object (normalizedRawJSON raw) = Some obj) (Htype : rawString (raw_member obj "type") = "json_schema").
Context (Hm : unmarshal_object (normalizedRawJSON (raw_member obj "json_schema")) = Some m).
Context (Hfit : fits 1 (normalizedRawJSON (raw_member obj "json_schema"))).

Lemma schema_values k v : m !! k = Some v -> ValidString k = true /\ reads (room 2) (compact v).
Proof.
  intros Hk. destruct (unmarshal_object_values 1 _ _ _ _ Hm Hfit ltac:(done) Hk) as [H1 H2]. split; [done|]. by apply value_compact.
Qed.

Lemma to_responses : chatResponseFormatToResponsesTextFormat raw = marshal_raw_map (<["type" := quote "json_schema"]> m).
Proof.
  unfold chatResponseFormatToResponsesTextFormat.
  destruct (String.eqb_spec (normalizedRawJSON raw) "") as [E|_]; [by rewrite E in Hobj|]. rewrite Hobj, Htype. cbn [String.eqb negb].
  change ("json_schema" =s "json_schema") with true. cbn [negb].
  destruct (String.eqb_spec (normalizedRawJSON (raw_member obj "json_schema")) "") as [E|_]; [by rewrite E in Hm|]. by rewrite Hm.
Qed.

Lemma responses_format : unmarshal_object (chatResponseFormatToResponsesTextFormat raw) = Some (<["type" := quote "json_schema"]> (compact <$> m)).
Proof.
  rewrite to_responses. replace (quote "json_schema") with (compact (quote "json_schema")) at 2 by by vm_compute.
  rewrite <- fmap_insert. apply (unmarshal_marshal_raw_map (room 2)); [by vm_compute|]. intros k v.
  destruct (decide (k = "type")) as [->|Hne].
  - rewrite lookup_insert_eq. intros [= <-]. split; [by vm_compute|].
    replace (compact (quote "json_schema")) with (quote "json_schema") by by vm_compute. apply reads_string.
  - rewrite lookup_insert_ne by done. apply schema_values.
Qed.

Lemma back_to_chat : m !! "json_schema" = None -> delete "type" m <> ∅ ->
  responsesTextFormatToChatResponseFormat (chatResponseFormatToResponsesTextFormat raw) =
  marshal_raw_map {[ "type" := quote "json_schema"; "json_schema" := marshal_raw_map (compact <$> delete "type" m) ]}.
Proof.
  intros Hno Hne. pose proof responses_format as Hr. rewrite to_responses in Hr |- *. unfold responsesTextFormatToChatResponseFormat.
  rewrite normalized_map. destruct (String.eqb_spec (marshal_raw_map (<["type":=quote "json_schema"]> m)) "") as [E|_]; [by rewrite E in Hr|].
  rewrite Hr. unfold raw_member. rewrite lookup_insert_eq. cbn [default from_option id]. rewrite rawString_quote by done.
  change ("json_schema" =s "json_schema") with true. cbn [negb].
  rewrite lookup_insert_ne, lookup_fmap, Hno by done. cbn [fmap option_fmap option_map].
  rewrite (bool_decide_eq_false_2 (is_Some None)) by by intros [? ?].
  rewrite delete_insert_eq, <- fmap_delete. rewrite bool_decide_eq_false_2; [done|].
  intros He. by apply fmap_empty_inv in He.
Qed.
End schema.

(** A structured output format survives the way to Responses and back: the
    upstream reads a format of type [json_schema] with every member of the
    schema (its values in compact form), and converting that back gives a Chat
    format of type [json_schema] whose schema has those members again.  A
    member [type] of the wrapped schema gives way to the type of the format. *)
Theorem response_format_roundtrip raw obj m :
  unmarshal_object (normalizedRawJSON raw) = Some obj -> rawString (raw_member obj "type") = "json_schema" ->
  unmarshal_object (normalizedRawJSON (raw_member obj "json_schema")) = Some m ->
  fits 1 (normalizedRawJSON (raw_member obj "json_schema")) -> m !! "json_schema" = None -> delete "type" m <> ∅ ->
  let upstream := chatResponseFormatToResponsesTextFormat raw in
  unmarshal_object upstream = Some (<["type" := quote "json_schema"]> (compact <$> m)) /\
  exists back js, unmarshal_object (responsesTextFormatToChatResponseFormat upstream) = Some back /\
    rawString (raw_member back "type") = "json_schema" /\ back !! "json_schema" = Some js /\
    unmarshal_object js = Some (compact <$> delete "type" m).
Proof.
  intros Hobj Htype Hm Hfit Hno Hne. cbv zeta. split; [by eapply responses_format|].
  rewrite (back_to_chat raw obj m) by done. set (s := compact <$> delete "type" m).
  assert (Hs : forall k v, s !! k = Some v -> ValidString k = true /\ reads (room 2) (compact v) /\ compact v = v).
  { intros k v. unfold s. rewrite lookup_fmap. destruct (delete "type" m !! k) as [w|] eqn:Ek; [|done]. intros [= <-].
    apply lookup_delete_Some in Ek as [_ Ek]. destruct (schema_values obj m Hm Hfit k w Ek) as [H1 H2].
    rewrite (compact_reads _ _ H2). by split_and!. }
  assert (Hc : compact <$> s = s).
  { apply map_eq. intros k. rewrite lookup_fmap. destruct (s !! k) as [v|] eqn:Ek; [|done]. cbn. f_equal. by apply (Hs k). }
  assert (Hok : forall k v, s !! k = Some v -> ValidString k = true /\ reads (room 2) (compact v)) by (intros k v Hk; by destruct (Hs k v Hk) as (? & ? & _)).
  assert (Hjs : reads (room 1) (marshal_raw_map s)) by (rewrite (room_step 1) by done; by apply reads_raw_map).
  eexists _, (marshal_raw_map s). split; [|split; [|split; [|by rewrite (unmarshal_marshal_raw_map (room 2)), Hc]]].
  - apply (unmarshal_marshal_raw_map (room 1)); [by vm_compute|]. intros k v.
    destruct (decide (k = "type")) as [->|Hk]; [rewrite lookup_insert_eq|rewrite lookup_insert_ne by done].
    + intros [= <-]. split; [by vm_compute|]. replace (compact (quote "json_schema")) with (quote "json_schema") by by vm_compute. apply reads_string.
    + intros [<- <-]%lookup_singleton_Some. split; [by vm_compute|]. by rewrite (compact_reads _ _ Hjs).
  - unfold raw_member. rewrite lookup_fmap, lookup_insert_eq. by vm_compute.
  - rewrite lookup_fmap, lookup_insert_ne, lookup_singleton_eq by done. cbn. by rewrite (compact_reads _ _ Hjs).
Qed.

Lemma response_format_roundtrip_witness :
  let raw := sq "{'type':'json_schema','json_schema':{'name':'n','schema':{'a': 1}}}" in
  exists back js, unmarshal_object (responsesTextFormatToChatResponseFormat (chatResponseFormatToResponsesTextFormat raw)) = Some back /\
    back !! "json_schema" = Some js /\ js = sq "{'name':'n','schema':{'a':1}}".
Proof.
  intros raw. destruct (response_format_roundtrip raw
    {[ "type" := quote "json_schema"; "json_schema" := sq "{'name':'n','schema':{'a': 1}}" ]}
    {[ "name" := quote "n"; "schema" := sq "{'a': 1}" ]}) as (_ & back & js & Hb & _ & Hj & _).
  - vm_compute. reflexivity.
  - vm_compute. reflexivity.
  - vm_compute. reflexivity.
  - intros _. eexists. vm_compute. reflexivity.
  - vm_compute. reflexivity.
  - vm_compute. discriminate.
  - exists back, js. split; [exact Hb|]. split; [exact Hj|]. vm_compute in Hb. injection Hb as <-. vm_compute in Hj. injection Hj as <-. vm_compute. reflexivity.
Defined.

End ResponseFormat.
