(* ===== verification/ChatRequest.v ===== *)
(** * ChatRequest: Chat Completions requests to Responses requests

    Models [src/backend/internal/pkg/apicompat/chatcompletions_to_responses.go]:
    the conversion of a [POST /v1/chat/completions] body into a
    [POST /v1/responses] body, down to the JSON text of the input items.

    The theorems are about what the upstream reads, as in [AnthRequest]. *)

From S2P Require Import Prelude GoStrings Json JsonCodec JsonCompact JsonMembers JsonAny ApicompatTypes ResponsesWire ResponseFormat OpenAIModels.

Module ChatRequest.
Import Json JsonCodec JsonCompact JsonMembers JsonAny ResponsesWire ResponseFormat OpenAIModels.

(** ** Wire form of the structs *)

Definition decode_image_url : decoder ChatImageURL :=
  decode_struct [("url", field ciu_URL (fun v r => r <| ciu_URL := v |>) decode_string);
                 ("detail", field ciu_Detail (fun v r => r <| ciu_Detail := v |>) decode_string)].

Definition decode_file : decoder ChatFile :=
  decode_struct [("filename", field cfl_Filename (fun v r => r <| cfl_Filename := v |>) decode_string);
                 ("file_data", field cfl_FileData (fun v r => r <| cfl_FileData := v |>) decode_string);
                 ("file_id", field cfl_FileID (fun v r => r <| cfl_FileID := v |>) decode_string)].

Definition chat_part_fields : fields ChatContentPart :=
  [("prompt_cache_breakpoint", field cp_PromptCacheBreakpoint (fun v r => r <| cp_PromptCacheBreakpoint := v |>) decode_raw);
   ("type", field cp_Type (fun v r => r <| cp_Type := v |>) decode_string);
   ("text", field cp_Text (fun v r => r <| cp_Text := v |>) decode_string);
   ("image_url", field cp_ImageURL (fun v r => r <| cp_ImageURL := v |>) (decode_pointer ChatImageURL_zero decode_image_url));
   ("file", field cp_File (fun v r => r <| cp_File := v |>) (decode_pointer ChatFile_zero decode_file))].

Definition decode_chat_part : decoder ChatContentPart := decode_struct chat_part_fields.

(** [var parts []ChatContentPart; json.Unmarshal(raw, &parts)]. *)
Definition unmarshal_chat_parts (raw : string) : option (list ChatContentPart) :=
  unmarshal (decode_slice ChatContentPart_zero decode_chat_part) [] raw.

(** ** The conversion *)

Inductive chat_error :=
| ErrChatEffort (effort : string)  (* gpt-6.1-sol does not support it *)
| ErrContent                       (* parse content as string or parts array *)
| ErrUserContent                   (* the same, parse user content *)
| ErrChatMarshal                   (* [json.Marshal] *)
| ErrFunctionCall.                 (* convert function_call *)

Abbreviation chat_result A := (outcome A chat_error).

(** Exactly one of the two fields is set. *)
Inductive chatMessageContent := ContentText (Text : string) | ContentParts (Parts : list ChatContentPart).

Definition parseChatMessageContent (raw : string) : chat_result chatMessageContent :=
  if raw =s "" then Ok (ContentText "")
  else
    match unmarshal_string raw with
    | Some s => Ok (ContentText s)
    | None =>
        match unmarshal_chat_parts raw with
        | Some parts => Ok (ContentParts parts)
        | None => Err ErrContent
        end
    end.

Definition isEmptyBase64DataURI (raw : string) : bool :=
  if negb (HasPrefix raw "data:") then false
  else
    let rest := TrimPrefix raw "data:" in
    match IndexByte rest ";"%char with
    | None => false
    | Some semicolonIdx =>
        let rest := str_drop (S semicolonIdx) rest in
        if negb (HasPrefix rest "base64,") then false
        else TrimSpace (TrimPrefix rest "base64,") =s ""
    end.

Definition convertChatContentPartsToResponses (parts : list ChatContentPart) : list ResponsesContentPart :=
  flat_map (fun p =>
    let responsePart := ResponsesContentPart_zero <| rp_PromptCacheBreakpoint := cp_PromptCacheBreakpoint p |> in
    if cp_Type p =s "text" then
      if negb (cp_Text p =s "") || negb (cp_PromptCacheBreakpoint p =s "")
      then [responsePart <| rp_Type := "input_text" |> <| rp_Text := cp_Text p |>] else []
    else if cp_Type p =s "image_url" then
      match cp_ImageURL p with
      | Some i => if negb (ciu_URL i =s "") && negb (isEmptyBase64DataURI (ciu_URL i))
                  then [responsePart <| rp_Type := "input_image" |> <| rp_ImageURL := ciu_URL i |>] else []
      | None => []
      end
    else if cp_Type p =s "file" then
      match cp_File p with
      | Some f => if negb (cfl_FileData f =s "") || negb (cfl_FileID f =s "")
                  then [responsePart <| rp_Type := "input_file" |> <| rp_Filename := cfl_Filename f |>
                                     <| rp_FileData := cfl_FileData f |> <| rp_FileID := cfl_FileID f |>] else []
      | None => []
      end
    else []) parts.

Definition marshalChatInputContent (content : chatMessageContent) : chat_result string :=
  match content with
  | ContentText s => Ok (quote s)
  | ContentParts ps =>
      match convertChatContentPartsToResponses ps with
      | [] => Ok (quote "")
      | parts => or_error (marshal_slice part_json parts) ErrChatMarshal
      end
  end.

Definition flattenChatContentParts (parts : list ChatContentPart) : string :=
  String.concat "" (flat_map (fun p => if (cp_Type p =s "text") && negb (cp_Text p =s "") then [cp_Text p] else []) parts).

Definition parseChatContent (raw : string) : chat_result string :=
  let? parsed := parseChatMessageContent raw in
  match parsed with
  | ContentText s => Ok s
  | ContentParts parts => Ok (flattenChatContentParts parts)
  end.

Definition chatSystemToResponses (m : ChatMessage) : chat_result (list ResponsesInputItem) :=
  let? parsed := parseChatMessageContent (cm_Content m) in
  let? content := marshalChatInputContent parsed in
  Ok [message_item "system" content].

Definition chatUserToResponses (m : ChatMessage) : chat_result (list ResponsesInputItem) :=
  match parseChatMessageContent (cm_Content m) with
  | Err _ => Err ErrUserContent
  | Ok parsed =>
      let? content := marshalChatInputContent parsed in
      Ok [message_item "user" content]
  end.

Definition thinking_tag (s : string) : string := "<thinking>" +:+ (s +:+ "</thinking>").

(** One pass of the loop: what is written for a typed part. *)
Definition assistant_part (p : gmap string string) : string :=
  let typ := any_string p "type" in
  let text := any_string p "text" in
  let thinking := any_string p "thinking" in
  if (typ =s "thinking") || (typ =s "reasoning") then
    if negb (thinking =s "") then thinking_tag thinking
    else if negb (text =s "") then thinking_tag text else ""
  else if negb (text =s "") then text else "".

(** The error result of the Go function is always nil. *)
Definition parseAssistantContent (raw : string) : string :=
  if raw =s "" then ""
  else
    match unmarshal_string raw with
    | Some s => s
    | None =>
        match unmarshal_maps raw with
        | None => ""
        | Some parts => fold_left (fun b p => b +:+ assistant_part p) parts ""
        end
    end.

(** The text of the message that [chatAssistantToResponses] emits. *)
Definition assistant_content (m : ChatMessage) : string :=
  let content := if negb (cm_ReasoningContent m =s "") then thinking_tag (cm_ReasoningContent m) else "" in
  if negb (cm_Content m =s "") then
    let s := parseAssistantContent (cm_Content m) in
    if negb (s =s "") then
      let content := if negb (content =s "") then content +:+ String (chr 10) "" else content in
      content +:+ s
    else content
  else content.

Definition chatAssistantToResponses (m : ChatMessage) : chat_result (list ResponsesInputItem) :=
  let content := assistant_content m in
  let? items :=
    (if negb (content =s "") then
       let? partsJSON := or_error (marshal_slice part_json [output_text content]) ErrChatMarshal in
       Ok [message_item "assistant" partsJSON]
     else Ok []) in
  Ok (items ++ map (fun tc =>
    let args := cf_Arguments (ct_Function tc) in
    let args := if args =s "" then "{}" else args in
    ResponsesInputItem_zero <| ri_Type := "function_call" |> <| ri_CallID := ct_ID tc |>
      <| ri_Name := cf_Name (ct_Function tc) |> <| ri_Arguments := args |>) (cm_ToolCalls m)).

Definition chatToolToResponses (m : ChatMessage) : chat_result (list ResponsesInputItem) :=
  let? output := parseChatContent (cm_Content m) in
  let output := if output =s "" then "(empty)" else output in
  Ok [ResponsesInputItem_zero <| ri_Type := "function_call_output" |> <| ri_CallID := cm_ToolCallID m |> <| ri_Output := output |>].

Definition chatFunctionToResponses (m : ChatMessage) : chat_result (list ResponsesInputItem) :=
  let? output := parseChatContent (cm_Content m) in
  let output := if output =s "" then "(empty)" else output in
  Ok [ResponsesInputItem_zero <| ri_Type := "function_call_output" |> <| ri_CallID := cm_Name m |> <| ri_Output := output |>].

Definition chatMessageToResponsesItems (m : ChatMessage) : chat_result (list ResponsesInputItem) :=
  if cm_Role m =s "system" then chatSystemToResponses m
  else if cm_Role m =s "user" then chatUserToResponses m
  else if cm_Role m =s "assistant" then chatAssistantToResponses m
  else if cm_Role m =s "tool" then chatToolToResponses m
  else if cm_Role m =s "function" then chatFunctionToResponses m
  else chatUserToResponses m.

Fixpoint convert_messages (msgs : list ChatMessage) (out : list ResponsesInputItem) : chat_result (list ResponsesInputItem) :=
  match msgs with
  | [] => Ok out
  | m :: msgs =>
      let? items := chatMessageToResponsesItems m in
      convert_messages msgs (out ++ items)
  end.

Definition convertChatMessagesToResponsesInput (msgs : list ChatMessage) : chat_result (list ResponsesInputItem) :=
  convert_messages msgs [].

Definition defaultStrictFalse (src : option bool) : option bool :=
  match src with None => Some false | Some _ => src end.

Definition function_tool (f : ChatFunction) : ResponsesTool :=
  ResponsesTool_zero <| rt_Type := "function" |> <| rt_Name := cfn_Name f |> <| rt_Description := cfn_Description f |>
    <| rt_Parameters := cfn_Parameters f |> <| rt_Strict := defaultStrictFalse (cfn_Strict f) |>.

Definition convertChatToolsToResponses (tools : list ChatTool) (functions : list ChatFunction) : list ResponsesTool :=
  flat_map (fun t =>
    let toolType := ToLower (TrimSpace (ctl_Type t)) in
    if toolType =s "x_search" then
      [ResponsesTool_zero <| rt_Type := "x_search" |> <| rt_AllowedXHandles := ctl_AllowedXHandles t |>
         <| rt_ExcludedXHandles := ctl_ExcludedXHandles t |> <| rt_FromDate := ctl_FromDate t |> <| rt_ToDate := ctl_ToDate t |>
         <| rt_EnableImageUnderstanding := ctl_EnableImageUnderstanding t |>
         <| rt_EnableVideoUnderstanding := ctl_EnableVideoUnderstanding t |>]
    else if (toolType =s "web_search") || (toolType =s "code_execution") then [ResponsesTool_zero <| rt_Type := toolType |>]
    else
      match ctl_Function t with
      | Some f => if ctl_Type t =s "function" then [function_tool f] else []
      | None => []
      end) tools ++
  map function_tool functions.

(** [json.Marshal] of the [map[string]any] for a named function. *)
Definition named_function (name : string) : json := JObject [("name", JString name); ("type", JString "function")].

Definition decode_function_name : decoder string := decode_struct [("name", field (fun s => s) (fun v _ => v) decode_string)].

Definition convertChatFunctionCallToToolChoice (raw : string) : chat_result string :=
  match unmarshal_string raw with
  | Some s => Ok (quote s)
  | None =>
      let? name := or_error (unmarshal decode_function_name "" raw) ErrFunctionCall in
      or_error (Marshal (named_function name)) ErrFunctionCall
  end.

(** The statements of [ChatCompletionsToResponses] that fill the request, in
    order. *)

Definition chat_sampling (req : ChatCompletionsRequest) (out : ResponsesRequest) : ResponsesRequest :=
  if negb (isReasoningModel (cq_Model req)) || (IsGPT6SolOrLunaModelSpelling (cq_Model req) && (cq_ReasoningEffort req =s "none"))
  then out <| rq_Temperature := cq_Temperature req |> <| rq_TopP := cq_TopP req |> else out.

Definition chat_max_tokens (req : ChatCompletionsRequest) (out : ResponsesRequest) : ResponsesRequest :=
  let maxTokens := 0 in
  let maxTokens := match cq_MaxTokens req with Some n => n | None => maxTokens end in
  let maxTokens := match cq_MaxCompletionTokens req with Some n => n | None => maxTokens end in
  if 0 <? maxTokens then
    let v := maxTokens in
    let v := if v <? minMaxOutputTokens then minMaxOutputTokens else v in
    out <| rq_MaxOutputTokens := Some v |>
  else out.

Definition chat_reasoning (req : ChatCompletionsRequest) (out : ResponsesRequest) : ResponsesRequest :=
  if negb (cq_ReasoningEffort req =s "")
  then out <| rq_Reasoning := Some (ResponsesReasoning_zero <| rrs_Effort := cq_ReasoningEffort req |> <| rrs_Summary := "auto" |>) |>
  else out.

Definition chat_format (req : ChatCompletionsRequest) (out : ResponsesRequest) : ResponsesRequest :=
  let format := chatResponseFormatToResponsesTextFormat (cq_ResponseFormat req) in
  if format =s "" then out
  else out <| rq_Text := Some (default ResponsesText_zero (rq_Text out) <| rtx_Format := format |>) |>.

Definition chat_tools (req : ChatCompletionsRequest) (out : ResponsesRequest) : ResponsesRequest :=
  match cq_Tools req, cq_Functions req with
  | [], [] => out
  | tools, functions => out <| rq_Tools := convertChatToolsToResponses tools functions |>
  end.

Definition ChatCompletionsToResponses (req : ChatCompletionsRequest) : chat_result ResponsesRequest :=
  match ValidateGPT61SolReasoningEffort (cq_Model req) (cq_ReasoningEffort req) with
  | Some effort => Err (ErrChatEffort effort)
  | None =>
      let? input := convertChatMessagesToResponsesInput (cq_Messages req) in
      let? inputJSON := or_error (marshal_slice item_json input) ErrChatMarshal in
      let out := ResponsesRequest_zero <| rq_Model := cq_Model req |> <| rq_Instructions := cq_Instructions req |>
                   <| rq_Input := inputJSON |> <| rq_Stream := true |> <| rq_Include := ["reasoning.encrypted_content"] |>
                   <| rq_ServiceTier := cq_ServiceTier req |> <| rq_PromptCacheOptions := cq_PromptCacheOptions req |>
                   <| rq_ParallelToolCalls := cq_ParallelToolCalls req |> in
      let out := chat_sampling req out in
      let out := out <| rq_Store := Some false |> in
      let out := chat_max_tokens req out in
      let out := chat_reasoning req out in
      let out := chat_format req out in
      let out := chat_tools req out in
      if negb (cq_ToolChoice req =s "") then Ok (out <| rq_ToolChoice := cq_ToolChoice req |>)
      else if negb (cq_FunctionCall req =s "") then
        let? tc := convertChatFunctionCallToToolChoice (cq_FunctionCall req) in
        Ok (out <| rq_ToolChoice := tc |>)
      else Ok out
  end.

(** ** The conversation of a Chat request *)

Definition cached (p : ChatContentPart) (q : part) : part :=
  if cp_PromptCacheBreakpoint p =s "" then q else Cached (compact (cp_PromptCacheBreakpoint p)) q.

(** A part counts unless it is empty. *)
Definition chat_part (p : ChatContentPart) : list part :=
  map (cached p)
    (if cp_Type p =s "text" then
       if (cp_Text p =s "") && (cp_PromptCacheBreakpoint p =s "") then [] else [Text (cp_Text p)]
     else if cp_Type p =s "image_url" then
       match cp_ImageURL p with
       | Some i => if (ciu_URL i =s "") || isEmptyBase64DataURI (ciu_URL i) then [] else [Image (ciu_URL i)]
       | None => []
       end
     else if cp_Type p =s "file" then
       match cp_File p with
       | Some f => if (cfl_FileData f =s "") && (cfl_FileID f =s "") then [] else [File (cfl_Filename f) (cfl_FileData f) (cfl_FileID f)]
       | None => []
       end
     else []).

(** A content: absent, a string or a list of parts; one without usable parts
    is an empty text. *)
Definition content_parts (raw : string) : option (list part) :=
  if raw =s "" then Some [Text ""]
  else match unmarshal_string raw with
  | Some s => Some [Text s]
  | None => parts ← unmarshal_chat_parts raw; Some (match flat_map chat_part parts with [] => [Text ""] | ps => ps end)
  end.

(** The texts of a content, for a tool result. *)
Definition content_text (raw : string) : option string :=
  if raw =s "" then Some ""
  else match unmarshal_string raw with
  | Some s => Some s
  | None => parts ← unmarshal_chat_parts raw;
            Some (String.concat "" (map cp_Text (List.filter (fun p => cp_Type p =s "text") parts)))
  end.

Definition newline : string := String (chr 10) "".

Definition nonempty (s : string) : list string := if s =s "" then [] else [s].

(** What the assistant said: its reasoning in tags, then its text. *)
Definition assistant_text (m : ChatMessage) : string :=
  String.concat newline (map thinking_tag (nonempty (cm_ReasoningContent m)) ++ nonempty (parseAssistantContent (cm_Content m))).

Definition tool_call (tc : ChatToolCall) : entry :=
  let f := ct_Function tc in
  Call (ct_ID tc) (cf_Name f) (if cf_Arguments f =s "" then "{}" else cf_Arguments f).

Definition message_entries (m : ChatMessage) : option (list entry) :=
  let role := cm_Role m in
  if role =s "assistant" then Some (map (fun s => Say "assistant" [Text s]) (nonempty (assistant_text m)) ++ map tool_call (cm_ToolCalls m))
  else if (role =s "tool") || (role =s "function") then
    text ← content_text (cm_Content m);
    Some [Answer (if role =s "tool" then cm_ToolCallID m else cm_Name m) (if text =s "" then "(empty)" else text)]
  else
    parts ← content_parts (cm_Content m);
    Some [Say (if role =s "system" then "system" else "user") parts].

Definition conversation (req : ChatCompletionsRequest) : option (list entry) :=
  es ← mapM message_entries (cq_Messages req); Some (concat es).

Definition demo_chat : ChatCompletionsRequest :=
  let system := ChatMessage_zero <| cm_Role := "system" |> <| cm_Content := sq "'be brief'" |> in
  let user := ChatMessage_zero <| cm_Role := "user" |> <| cm_Content := sq "[{'type':'text','text':'look','prompt_cache_breakpoint':{'a': 1}},{'type':'image_url','image_url':{'url':'http://x'}},{'type':'text','text':''}]" |> in
  let assistant := ChatMessage_zero <| cm_Role := "assistant" |> <| cm_ReasoningContent := "hm" |>
    <| cm_Content := sq "[{'type':'reasoning','text':'so'},{'type':'text','text':'ok'}]" |>
    <| cm_ToolCalls := [MkChatToolCall None "c1" "function" (MkChatFunctionCall "f" "")] |> in
  let tool := ChatMessage_zero <| cm_Role := "tool" |> <| cm_ToolCallID := "c1" |> <| cm_Content := sq "'42'" |> in
  ChatCompletionsRequest_zero <| cq_Model := "gpt-4.1" |> <| cq_Messages := [system; user; assistant; tool] |> <| cq_MaxTokens := Some 5 |>.

Example conversation_ex2 : conversation demo_chat =
  Some [Say "system" [Text "be brief"];
        Say "user" [Cached (sq "{'a':1}") (Text "look"); Image "http://x"];
        Say "assistant" [Text ("<thinking>hm</thinking>" +:+ (newline +:+ "<thinking>so</thinking>ok"))];
        Call "c1" "f" "{}"; Answer "c1" "42"].
Proof. vm_compute. reflexivity. Qed.

(** ** Content parts *)

(** The breakpoints of decoded parts are values two brackets below the
    content. *)
Lemma parts_breakpoints d raw parts : unmarshal_chat_parts raw = Some parts -> fits d raw -> 0 <= d <= maxNestingDepth ->
  Forall (fun p => cp_PromptCacheBreakpoint p = "" \/ value_text (d + 2) (cp_PromptCacheBreakpoint p)) parts.
Proof.
  unfold unmarshal_chat_parts. intros H Hf Hd. apply unmarshal_text in H as (Hvalid & v & Hdec & Hv).
  specialize (Hv _ d Hd (Hf Hvalid)). eapply decode_slice_each; [exact Hv|exact Hdec|].
  intros e x He Hx. replace (d + 2) with (d + 1 + 1) by lia.
  refine (decode_struct_keeps (d + 1) (fun p => cp_PromptCacheBreakpoint p = "" \/ value_text (d + 1 + 1) (cp_PromptCacheBreakpoint p))
    chat_part_fields e ChatContentPart_zero x He Hx _ (or_introl eq_refl)).
  unfold chat_part_fields. rewrite !Forall_cons. split_and!; try (apply keeps_other; intros b y; by destruct y); [|constructor].
  apply keeps_raw. intros w y Hw _. right. by destruct y.
Qed.

(** The room for a breakpoint inside a content [d] brackets deep. *)
Definition breakpoint_room (d : Z) : nat := room (d + 2).

Lemma breakpoint_plain d b : b = "" \/ value_text (d + 2) b -> b = "" \/ Valid b = true /\ reads (breakpoint_room d) (compact b).
Proof. intros [H|H]; [by left|]. right. split; [by eapply value_Valid|by apply value_compact]. Qed.

(** A part that is sent is heard with its breakpoint. *)
Lemma cached_speaks n p q s : cp_PromptCacheBreakpoint p = "" \/ Valid (cp_PromptCacheBreakpoint p) = true /\ reads n (compact (cp_PromptCacheBreakpoint p)) ->
  rp_PromptCacheBreakpoint q = cp_PromptCacheBreakpoint p ->
  part_speaks n (q <| rp_PromptCacheBreakpoint := "" |>) s -> part_speaks n q (cached p s).
Proof.
  intros Hp Hq [_ H]. split; [unfold part_plain; by rewrite Hq|]. intros Hs.
  destruct H as [Hok Hh]; [unfold cached in Hs; by destruct (_ =s _)|].
  split; [by split; [unfold part_plain; rewrite Hq|exact (proj2 Hok)]|].
  unfold hear_part, cached, received in *. cbn in Hh |- *. rewrite Hq.
  destruct (if _ || _ then _ else _) as [x|]; [|done]. cbn in Hh |- *. injection Hh as ->.
  destruct (String.eqb_spec (cp_PromptCacheBreakpoint p) "") as [->|Hne]; [done|].
  destruct Hp as [?|[_ Hr]]; [done|]. destruct (reads_head _ _ Hr) as (c & r & -> & _). done.
Qed.

Lemma file_part_speaks n name data id :
  part_speaks n (ResponsesContentPart_zero <| rp_Type := "input_file" |> <| rp_Filename := name |> <| rp_FileData := data |> <| rp_FileID := id |>) (File name data id).
Proof. split; [by left|]. intros (H1 & H2 & H3). by repeat split; try left. Qed.

Lemma parts_said n parts :
  Forall (fun p => cp_PromptCacheBreakpoint p = "" \/ Valid (cp_PromptCacheBreakpoint p) = true /\ reads n (compact (cp_PromptCacheBreakpoint p))) parts ->
  Forall2 (part_speaks n) (convertChatContentPartsToResponses parts) (flat_map chat_part parts).
Proof.
  intros Hp. induction Hp as [|p parts Hp _ IH]; [constructor|]. cbn [convertChatContentPartsToResponses flat_map].
  apply Forall2_app; [|exact IH]. unfold chat_part. clear IH.
  destruct (cp_Type p =s "text").
  - rewrite <- negb_andb. destruct (_ && _); cbn [negb]; constructor; [|constructor].
    by apply cached_speaks; [| |apply text_part_speaks].
  - destruct (cp_Type p =s "image_url").
    + destruct (cp_ImageURL p) as [i|]; [|constructor]. rewrite <- negb_orb. destruct (_ || _); cbn [negb]; constructor; [|constructor].
      by apply cached_speaks; [| |apply image_part_speaks].
    + destruct (cp_Type p =s "file"); [|constructor]. destruct (cp_File p) as [f|]; [|constructor].
      rewrite <- negb_andb. destruct (_ && _); cbn [negb]; constructor; [|constructor].
      by apply cached_speaks; [| |apply file_part_speaks].
Qed.

(** ** Messages *)

(** A content can be read when it is absent, a string or a list of parts; an
    assistant's is never refused. *)
Definition readable (raw : string) : bool :=
  (raw =s "") || match unmarshal_string raw, unmarshal_chat_parts raw with None, None => false | _, _ => true end.

Definition message_readable (m : ChatMessage) : bool := (cm_Role m =s "assistant") || readable (cm_Content m).

Lemma concat_empty_cons x l : String.concat "" (x :: l) = x +:+ String.concat "" l.
Proof. destruct l as [|y l]; [by rewrite concat_one, str_app_nil_r|]. by rewrite concat_cons2, append_nil. Qed.

Lemma flatten_texts parts :
  flattenChatContentParts parts = String.concat "" (map cp_Text (List.filter (fun p => cp_Type p =s "text") parts)).
Proof.
  unfold flattenChatContentParts. induction parts as [|p parts IH]; [done|]. cbn [flat_map List.filter].
  destruct (cp_Type p =s "text"); [|exact IH]. cbn [map]. rewrite concat_empty_cons, <- IH.
  destruct (String.eqb_spec (cp_Text p) "") as [->|]; [done|]. by cbn [andb negb app]; rewrite concat_empty_cons.
Qed.

Lemma parseChatContent_text raw :
  parseChatContent raw = match content_text raw with Some s => Ok s | None => Err ErrContent end.
Proof.
  unfold parseChatContent, parseChatMessageContent, content_text. destruct (raw =s ""); [done|].
  destruct (unmarshal_string raw); [done|]. destruct (unmarshal_chat_parts raw) as [parts|]; [|done].
  cbn [bind mbind option_bind]. by rewrite flatten_texts.
Qed.

Lemma content_readable raw : match content_text raw with Some _ => readable raw = true | None => readable raw = false end.
Proof.
  unfold content_text, readable. destruct (raw =s ""); [done|]. destruct (unmarshal_string raw); [done|].
  by destruct (unmarshal_chat_parts raw).
Qed.

Section messages.
Context (d : Z) (Hd : 0 <= d <= 9998).

(** Items of messages nest no deeper than the content did. *)
Definition item_room : nat := S (S (breakpoint_room d)).

Lemma breakpoint_room_bound : Z.of_nat (breakpoint_room d) + 2 <= maxNestingDepth.
Proof. unfold breakpoint_room, room, maxNestingDepth. lia. Qed.

Lemma item_room_bound : Z.of_nat item_room <= maxNestingDepth.
Proof. unfold item_room. pose proof breakpoint_room_bound. lia. Qed.

Definition converted (r : chat_result (list ResponsesInputItem)) (es : list entry) : Prop :=
  exists items, r = Ok items /\ Forall (item_plain item_room) items /\ heard_as item_room items es.

Lemma string_item role s : utf8 role ->
  Forall (item_plain item_room) [message_item role (quote s)] /\ heard_as item_room [message_item role (quote s)] [Say role [Text s]].
Proof.
  intros Hr. split; [constructor; [|constructor]; by repeat split; right; apply reads_string|].
  apply heard_one. intros Hs. inversion Hs; subst. by apply string_speaks; [apply item_room_bound|..].
Qed.

Lemma parts_item role qs ps : utf8 role -> qs <> [] -> Forall2 (part_speaks (breakpoint_room d)) qs ps ->
  exists t, marshal_slice part_json qs = Some t /\ Forall (item_plain item_room) [message_item role t] /\
    heard_as item_room [message_item role t] [Say role ps].
Proof.
  intros Hr Hne Hq. destruct (parts_marshalled (breakpoint_room d) role qs breakpoint_room_bound (parts_plain _ _ _ Hq) Hne) as (t & Ht & Hi).
  exists t. split; [done|]. split; [by constructor|]. by apply (heard_message (breakpoint_room d) role qs ps t breakpoint_room_bound).
Qed.

(** What a parsed content says. *)
Definition said (content : chatMessageContent) (ps : list part) : Prop :=
  match content with
  | ContentText s => ps = [Text s]
  | ContentParts parts => exists ps', ps = match ps' with [] => [Text ""] | _ => ps' end /\
      Forall2 (part_speaks (breakpoint_room d)) (convertChatContentPartsToResponses parts) ps'
  end.

Lemma marshal_said role content ps : utf8 role -> said content ps -> exists c, marshalChatInputContent content = Ok c /\
  Forall (item_plain item_room) [message_item role c] /\ heard_as item_room [message_item role c] [Say role ps].
Proof.
  intros Hr Hs. destruct content as [s|parts]; cbn [said marshalChatInputContent] in *.
  - subst ps. eexists. split; [reflexivity|]. by apply string_item.
  - destruct Hs as (ps' & -> & Hq). destruct Hq as [|q p qs ps Hqp Hq]; [eexists; split; [reflexivity|]; by apply string_item|].
    destruct (parts_item role (q :: qs) (p :: ps)) as (t & -> & Hi); [done|done|by constructor|]. by exists t.
Qed.

Lemma content_said role raw : utf8 role -> fits d raw ->
  match content_parts raw with
  | Some ps => exists c parsed, parseChatMessageContent raw = Ok parsed /\ marshalChatInputContent parsed = Ok c /\
      Forall (item_plain item_room) [message_item role c] /\ heard_as item_room [message_item role c] [Say role ps]
  | None => parseChatMessageContent raw = Err ErrContent
  end.
Proof.
  intros Hr Hf. unfold content_parts, parseChatMessageContent. destruct (raw =s "").
  { eexists _, _. split; [done|]. split; [reflexivity|]. by apply string_item. }
  destruct (unmarshal_string raw) as [s|]; [eexists _, _; split; [done|]; split; [reflexivity|]; by apply string_item|].
  destruct (unmarshal_chat_parts raw) as [parts|] eqn:Ep; [|done]. cbn [mbind option_bind].
  assert (Hq : Forall2 (part_speaks (breakpoint_room d)) (convertChatContentPartsToResponses parts) (flat_map chat_part parts)).
  { apply parts_said. eapply Forall_impl; [eapply parts_breakpoints; [exact Ep|exact Hf|unfold maxNestingDepth; lia]|].
    intros p. apply breakpoint_plain. }
  destruct (marshal_said role (ContentParts parts) (match flat_map chat_part parts with [] => [Text ""] | ps => ps end)) as (c & Hc & Hi).
  { done. }
  { exists (flat_map chat_part parts). split; [by destruct (flat_map chat_part parts)|exact Hq]. }
  exists c, (ContentParts parts). by split_and!; [| |apply Hi|apply Hi].
Qed.

Lemma message_unreadable m : message_readable m = false -> message_entries m = None.
Proof.
  unfold message_readable, message_entries. cbv zeta. destruct (cm_Role m =s "assistant"); [done|]. cbn [orb]. intros Hr.
  pose proof (content_readable (cm_Content m)) as Ht. destruct (content_text (cm_Content m)); [congruence|].
  destruct (_ || _); [done|]. unfold content_parts, readable in *. destruct (_ =s ""); [done|].
  destruct (unmarshal_string _); [done|]. by destruct (unmarshal_chat_parts _).
Qed.

(** The text of an assistant message, as the code puts it together. *)
Lemma assistant_content_text m : assistant_content m = assistant_text m.
Proof.
  unfold assistant_content, assistant_text, nonempty. cbv zeta.
  assert (Hc : (if negb (cm_Content m =s "") then parseAssistantContent (cm_Content m) else "") = parseAssistantContent (cm_Content m)).
  { destruct (String.eqb_spec (cm_Content m) "") as [->|]; [reflexivity|done]. }
  rewrite <- Hc. destruct (negb (cm_Content m =s "")); [|by destruct (cm_ReasoningContent m =s "")].
  set (s := parseAssistantContent (cm_Content m)). clearbody s. clear.
  destruct (cm_ReasoningContent m =s ""), (String.eqb_spec s "") as [->|]; cbn [negb map app]; try done.
  rewrite concat_cons2, concat_one. unfold newline. by rewrite <- str_app_assoc.
Qed.

Lemma assistant_said m : converted (chatAssistantToResponses m)
  (map (fun s => Say "assistant" [Text s]) (nonempty (assistant_text m)) ++ map tool_call (cm_ToolCalls m)).
Proof.
  unfold chatAssistantToResponses. rewrite <- (assistant_content_text m). generalize (assistant_content m). intros content. cbv zeta.
  set (calls := map _ (cm_ToolCalls m)).
  assert (Hcalls : Forall (item_plain item_room) calls /\ heard_as item_room calls (map tool_call (cm_ToolCalls m))).
  { split; [unfold calls; rewrite Forall_map; apply Forall_true; intros tc; by repeat split; left|].
    apply heard_map. intros tc. apply call_speaks. }
  assert (Hmsg : converted (if negb (content =s "") then
      let? partsJSON := or_error (marshal_slice part_json [output_text content]) ErrChatMarshal in Ok [message_item "assistant" partsJSON]
    else Ok []) (map (fun s => Say "assistant" [Text s]) (nonempty content))).
  { unfold nonempty. destruct (content =s ""); [by exists []; split_and!; [| |intros _]|].
    destruct (parts_item "assistant" [output_text content] [Text content]) as (t & Ht & Hi); [done|done| |].
    { constructor; [apply answer_part_speaks|constructor]. }
    cbn [negb map]. rewrite Ht. by exists [message_item "assistant" t]. }
  destruct Hmsg as (items & -> & Hp & Hh), Hcalls as [Hcp Hch]. cbn [bind]. exists (items ++ calls). split; [done|].
  split; [by apply Forall_app|by apply heard_app].
Qed.

Lemma answer_said id raw :
  let r : chat_result (list ResponsesInputItem) :=
    bind (parseChatContent raw) (fun output => Ok [ResponsesInputItem_zero <| ri_Type := "function_call_output" |> <| ri_CallID := id |>
                                                     <| ri_Output := if output =s "" then "(empty)" else output |>]) in
  match content_text raw with
  | Some text => converted r [Answer id (if text =s "" then "(empty)" else text)]
  | None => r = Err ErrContent
  end.
Proof.
  rewrite parseChatContent_text. destruct (content_text raw) as [text|]; [|done].
  eexists. split; [reflexivity|]. split; [constructor; [|constructor]; by repeat split; left|]. apply heard_one, answer_speaks.
Qed.

Definition content_error (m : ChatMessage) : chat_error :=
  if (cm_Role m =s "system") || (cm_Role m =s "tool") || (cm_Role m =s "function") then ErrContent else ErrUserContent.

Lemma message_said m : fits d (cm_Content m) ->
  match message_entries m with
  | Some es => message_readable m = true /\ converted (chatMessageToResponsesItems m) es
  | None => message_readable m = false /\ chatMessageToResponsesItems m = Err (content_error m)
  end.
Proof.
  intros Hf. assert (Hr : is_Some (message_entries m) -> message_readable m = true).
  { intros [es He]. destruct (message_readable m) eqn:E; [done|]. by rewrite message_unreadable in He. }
  assert (Hn : message_entries m = None -> message_readable m = false).
  { unfold message_entries, message_readable. cbv zeta. destruct (cm_Role m =s "assistant"); [done|]. cbn [orb].
    unfold content_parts, content_text, readable. destruct (cm_Content m =s ""), (unmarshal_string (cm_Content m)), (unmarshal_chat_parts (cm_Content m)), (_ || _); done. }
  assert (Hgoal : match message_entries m with
    | Some es => converted (chatMessageToResponsesItems m) es
    | None => chatMessageToResponsesItems m = Err (content_error m)
    end).
  { clear Hr Hn. unfold message_entries, chatMessageToResponsesItems, content_error. cbv zeta.
    pose proof (content_said "system" (cm_Content m) ltac:(done) Hf) as Hsys.
    pose proof (content_said "user" (cm_Content m) ltac:(done) Hf) as Huser.
    unfold chatSystemToResponses, chatUserToResponses, chatToolToResponses, chatFunctionToResponses.
    destruct (String.eqb_spec (cm_Role m) "system") as [E|_].
    { rewrite ?E. cbn -[content_parts]. destruct (content_parts (cm_Content m)); [|by rewrite Hsys].
      destruct Hsys as (c & parsed & -> & Hm & Hi). cbn [mbind option_bind bind]. rewrite Hm. by eexists. }
    destruct (String.eqb_spec (cm_Role m) "user") as [E|_].
    { rewrite ?E. cbn -[content_parts]. destruct (content_parts (cm_Content m)); [|by rewrite Huser].
      destruct Huser as (c & parsed & -> & Hm & Hi). cbn [mbind option_bind bind]. rewrite Hm. by eexists. }
    destruct (String.eqb_spec (cm_Role m) "assistant") as [E|_]; [apply assistant_said|].
    destruct (String.eqb_spec (cm_Role m) "tool") as [E|_].
    { rewrite ?E. pose proof (answer_said (cm_ToolCallID m) (cm_Content m)) as Ha. cbv zeta in Ha. by destruct (content_text (cm_Content m)). }
    destruct (String.eqb_spec (cm_Role m) "function") as [E|_].
    { rewrite ?E. pose proof (answer_said (cm_Name m) (cm_Content m)) as Ha. cbv zeta in Ha. by destruct (content_text (cm_Content m)). }
    cbn [orb]. destruct (content_parts (cm_Content m)); [|by rewrite Huser].
    destruct Huser as (c & parsed & -> & Hm & Hi). cbn [mbind option_bind bind]. rewrite Hm. by eexists. }
  destruct (message_entries m); split; auto.
Qed.

Lemma messages_said msgs : Forall (fun m => fits d (cm_Content m)) msgs -> forall out,
  Forall (item_plain item_room) out ->
  match mapM message_entries msgs with
  | Some ess => forallb message_readable msgs = true /\ forall es0, heard_as item_room out es0 ->
      exists items, convert_messages msgs out = Ok items /\ Forall (item_plain item_room) items /\ heard_as item_room items (es0 ++ concat ess)
  | None => exists m, List.find (fun m => negb (message_readable m)) msgs = Some m /\ convert_messages msgs out = Err (content_error m)
  end.
Proof.
  induction 1 as [|m msgs Hm _ IH]; intros out Ho; cbn [mapM forallb List.find convert_messages].
  { split; [done|]. intros es0 Hh. exists out. by rewrite app_nil_r. }
  pose proof (message_said m Hm) as Hs. destruct (message_entries m) as [es|].
  - destruct Hs as [-> (items & -> & Hp & Hh)]. cbn [negb bind mbind option_bind].
    specialize (IH (out ++ items) ltac:(by apply Forall_app)). destruct (mapM message_entries msgs) as [ess|]; [|exact IH].
    destruct IH as [Hr IH]. cbn. split; [exact Hr|]. intros es0 Hh0. rewrite app_assoc. apply IH. by apply heard_app.
  - destruct Hs as [-> ->]. cbn. by exists m.
Qed.
End messages.

Lemma input_said d msgs : 0 <= d <= 9998 -> Forall (fun m => fits d (cm_Content m)) msgs ->
  match mapM message_entries msgs with
  | Some ess => forallb message_readable msgs = true /\ converted d (convertChatMessagesToResponsesInput msgs) (concat ess)
  | None => exists m, List.find (fun m => negb (message_readable m)) msgs = Some m /\ convertChatMessagesToResponsesInput msgs = Err (content_error m)
  end.
Proof.
  intros Hd Hf. pose proof (messages_said d Hd msgs Hf [] ltac:(done)) as H. unfold convertChatMessagesToResponsesInput.
  destruct (mapM message_entries msgs); [|exact H]. destruct H as [Hr H]. split; [exact Hr|]. apply (H []). by intros _.
Qed.

(** ** The request *)

(** Everything but the tool choice. *)
Definition settled (req : ChatCompletionsRequest) (input : string) : ResponsesRequest :=
  let out := ResponsesRequest_zero <| rq_Model := cq_Model req |> <| rq_Instructions := cq_Instructions req |>
               <| rq_Input := input |> <| rq_Stream := true |> <| rq_Include := ["reasoning.encrypted_content"] |>
               <| rq_ServiceTier := cq_ServiceTier req |> <| rq_PromptCacheOptions := cq_PromptCacheOptions req |>
               <| rq_ParallelToolCalls := cq_ParallelToolCalls req |> in
  chat_tools req (chat_format req (chat_reasoning req (chat_max_tokens req (chat_sampling req out <| rq_Store := Some false |>)))).

Definition max_tokens (req : ChatCompletionsRequest) : Z :=
  match cq_MaxCompletionTokens req with Some n => n | None => default 0 (cq_MaxTokens req) end.

Definition keeps_sampling (req : ChatCompletionsRequest) : bool :=
  negb (isReasoningModel (cq_Model req)) || (IsGPT6SolOrLunaModelSpelling (cq_Model req) && (cq_ReasoningEffort req =s "none")).

Lemma chat_settled_fields req input : let out := settled req input in
  rq_Input out = input /\ rq_Model out = cq_Model req /\ rq_Instructions out = cq_Instructions req /\
  rq_Stream out = true /\ rq_Store out = Some false /\ rq_Include out = ["reasoning.encrypted_content"] /\
  rq_Temperature out = (if keeps_sampling req then cq_Temperature req else None) /\
  rq_TopP out = (if keeps_sampling req then cq_TopP req else None) /\
  rq_MaxOutputTokens out = (if 0 <? max_tokens req then Some (Z.max minMaxOutputTokens (max_tokens req)) else None) /\
  rq_Reasoning out = (if cq_ReasoningEffort req =s "" then None
                      else Some (ResponsesReasoning_zero <| rrs_Effort := cq_ReasoningEffort req |> <| rrs_Summary := "auto" |>)) /\
  rq_Tools out = convertChatToolsToResponses (cq_Tools req) (cq_Functions req) /\ rq_ToolChoice out = "".
Proof.
  unfold settled, chat_sampling, chat_max_tokens, chat_reasoning, chat_format, chat_tools. fold (keeps_sampling req). cbv zeta.
  change (match cq_MaxTokens req with Some n => n | None => 0 end) with (default 0 (cq_MaxTokens req)). fold (max_tokens req).
  assert (Hm : (if max_tokens req <? minMaxOutputTokens then minMaxOutputTokens else max_tokens req) = Z.max minMaxOutputTokens (max_tokens req))
    by (destruct (Z.ltb_spec (max_tokens req) minMaxOutputTokens); lia).
  rewrite Hm. generalize (Z.max minMaxOutputTokens (max_tokens req)). intros v.
  destruct (chatResponseFormatToResponsesTextFormat _ =s "");
    destruct (keeps_sampling req), (0 <? max_tokens req), (cq_ReasoningEffort req =s ""), (cq_Tools req), (cq_Functions req); repeat split.
Qed.

(** The tool choice of the converted request. *)
Definition tool_choice (req : ChatCompletionsRequest) : chat_result string :=
  if negb (cq_ToolChoice req =s "") then Ok (cq_ToolChoice req)
  else if negb (cq_FunctionCall req =s "") then convertChatFunctionCallToToolChoice (cq_FunctionCall req) else Ok "".

Lemma ChatCompletionsToResponses_unfold req : ChatCompletionsToResponses req =
  match ValidateGPT61SolReasoningEffort (cq_Model req) (cq_ReasoningEffort req) with
  | Some effort => Err (ErrChatEffort effort)
  | None =>
      let? input := convertChatMessagesToResponsesInput (cq_Messages req) in
      let? inputJSON := or_error (marshal_slice item_json input) ErrChatMarshal in
      let? tc := tool_choice req in
      Ok (settled req inputJSON <| rq_ToolChoice := tc |>)
  end.
Proof.
  unfold ChatCompletionsToResponses, tool_choice. destruct (ValidateGPT61SolReasoningEffort _ _); [done|].
  destruct (convertChatMessagesToResponsesInput _) as [items|]; [|done]. cbn [bind].
  destruct (marshal_slice item_json items) as [t|]; [|done]. cbn [bind or_error]. cbv zeta.
  change (chat_tools req _) with (settled req t). pose proof (chat_settled_fields req t) as (_ & _ & _ & _ & _ & _ & _ & _ & _ & _ & _ & Htc).
  revert Htc. generalize (settled req t). intros o Htc.
  destruct (negb (cq_ToolChoice req =s "")); [done|]. destruct (negb (cq_FunctionCall req =s "")); [done|].
  cbn [bind]. rewrite <- Htc. by destruct o.
Qed.

(** C10: The upstream decodes from the converted Chat request exactly its
    conversation: system and user messages with their texts, images, files and
    cache breakpoints, what the assistant said with its reasoning in tags, the
    tool calls with ids, names and arguments, and the tool results with the
    ids they answer, in order.  A content is three brackets deep in the body it
    was decoded from, and nested no deeper than what is left. *)
Theorem upstream_reads_chat req out :
  ChatCompletionsToResponses req = Ok out -> Forall (fun m => fits 3 (cm_Content m)) (cq_Messages req) ->
  exists es, conversation req = Some es /\ (Forall entry_utf8 es -> hear (rq_Input out) = Some es).
Proof.
  rewrite ChatCompletionsToResponses_unfold. destruct (ValidateGPT61SolReasoningEffort _ _); [done|]. intros H Hf.
  pose proof (input_said 3 _ ltac:(lia) Hf) as Hi. unfold conversation. destruct (mapM message_entries (cq_Messages req)) as [ess|].
  - destruct Hi as (_ & items & E & Hp & Hh). rewrite E in H. cbn [bind] in H. exists (concat ess). split; [done|]. intros Hu.
    destruct (marshal_slice item_json items) as [t|] eqn:Ht; [|done]. cbn [bind or_error] in H.
    destruct (tool_choice req) as [tc|]; [|done]. cbn [bind] in H. pose proof (chat_settled_fields req t) as [Hin _]. revert H Hin.
    generalize (settled req t). intros o H Hin.
    assert (Ho : rq_Input out = t) by (rewrite <- Hin; by apply (f_equal (fun r : chat_result _ => match r with Ok x => rq_Input x | Err _ => "" end)) in H).
    rewrite Ho. eapply (hear_speaks (item_room 3)); [by vm_compute|by apply Hh|exact Ht].
  - destruct Hi as (m & _ & E). by rewrite E in H.
Qed.

(** ** When a Chat request is refused *)

(** A legacy [function_call] is a string or an object. *)
Definition function_call_readable (raw : string) : bool :=
  match unmarshal_string raw, unmarshal decode_function_name "" raw with None, None => false | _, _ => true end.

Lemma tool_choice_spec req :
  if (cq_ToolChoice req =s "") && negb (cq_FunctionCall req =s "") && negb (function_call_readable (cq_FunctionCall req))
  then tool_choice req = Err ErrFunctionCall else exists tc, tool_choice req = Ok tc.
Proof.
  unfold tool_choice, convertChatFunctionCallToToolChoice, function_call_readable.
  destruct (cq_ToolChoice req =s ""); [|by eexists]. destruct (cq_FunctionCall req =s ""); [by eexists|]. cbn [negb andb].
  destruct (unmarshal_string (cq_FunctionCall req)); [by eexists|].
  destruct (unmarshal decode_function_name "" (cq_FunctionCall req)); [by eexists|done].
Qed.

(** A Chat request is refused in exactly four cases, each with its own
    error: an effort that gpt-6.1-sol does not support, a message (not an
    assistant's) whose content is neither a string nor a list of parts, where
    the first such message decides between the two wordings of the error, and
    a legacy function call that is neither a string nor an object and is not
    overridden by a tool choice.  Writing the converted input never fails,
    however deep the raw members of the request are. *)
Theorem chat_request_refused req :
  match ChatCompletionsToResponses req with
  | Ok _ => forallb message_readable (cq_Messages req) = true /\
            (cq_ToolChoice req <> "" \/ cq_FunctionCall req = "" \/ function_call_readable (cq_FunctionCall req) = true) /\
            (IsGPT61SolModelSpelling (cq_Model req) = true -> ~ disabled_effort (cq_ReasoningEffort req))
  | Err (ErrChatEffort e) => IsGPT61SolModelSpelling (cq_Model req) = true /\ e = cq_ReasoningEffort req /\ disabled_effort e
  | Err ErrFunctionCall => forallb message_readable (cq_Messages req) = true /\ cq_ToolChoice req = "" /\
            cq_FunctionCall req <> "" /\ function_call_readable (cq_FunctionCall req) = false
  | Err ErrChatMarshal => False
  | Err e => exists m, List.find (fun m => negb (message_readable m)) (cq_Messages req) = Some m /\ e = content_error m
  end.
Proof.
  rewrite ChatCompletionsToResponses_unfold. pose proof (ValidateGPT61SolReasoningEffort_spec (cq_Model req) (cq_ReasoningEffort req)) as Hv.
  destruct (ValidateGPT61SolReasoningEffort _ _) as [e|]; [destruct Hv as (H1 & -> & H2); auto|].
  pose proof (input_said 0 (cq_Messages req) ltac:(lia)) as Hi.
  specialize (Hi ltac:(apply Forall_true; intros m; apply fits_surface)). destruct (mapM message_entries (cq_Messages req)) as [ess|].
  - destruct Hi as (Hr & items & -> & Hp & _). cbn [bind].
    destruct (marshal_items (item_room 0) items (item_room_bound 0 ltac:(lia)) Hp) as (t & -> & _). cbn [or_error bind].
    generalize (settled req t). intros o. pose proof (tool_choice_spec req) as Ht.
    destruct (String.eqb_spec (cq_ToolChoice req) ""), (String.eqb_spec (cq_FunctionCall req) ""),
      (function_call_readable (cq_FunctionCall req)) eqn:Ef; cbn [negb andb] in Ht; first [rewrite Ht|destruct Ht as [tc ->]]; cbn [bind]; auto.
  - destruct Hi as (m & Hm & ->). cbn [bind]. unfold content_error. destruct (_ || _) eqn:E; exists m; (split; [done|]); unfold content_error; by rewrite E.
Qed.

(** ** Parameters, tools and tool choice *)

(** The function tools of a request, the legacy ones last. *)
Definition functions (req : ChatCompletionsRequest) : list ChatFunction :=
  flat_map (fun t => if ctl_Type t =s "function" then match ctl_Function t with Some f => [f] | None => [] end else []) (cq_Tools req) ++
  cq_Functions req.

(** The tool choice the upstream reads: a mode, or the name of a function. *)
Inductive choice := Mode (s : string) | Named (name : string).

Definition decode_choice : decoder (string * string) :=
  decode_struct [("type", field fst (fun v p => (v, snd p)) decode_string); ("name", field snd (fun v p => (fst p, v)) decode_string)].

Definition hear_choice (raw : string) : option choice :=
  match unmarshal_string raw with
  | Some s => Some (Mode s)
  | None => p ← unmarshal decode_choice ("", "") raw; if fst p =s "function" then Some (Named (snd p)) else None
  end.

Lemma named_function_heard name : utf8 name -> exists t, Marshal (named_function name) = Some t /\ hear_choice t = Some (Named name).
Proof.
  intros Hn. exists (print (named_function name)). split; [done|]. unfold hear_choice.
  assert (Hm : members_ok 0 [("name", JString name); ("type", JString "function")]).
  { constructor; [|constructor; [|constructor]]; (split; [done|apply reads_print_string]). }
  assert (Hr : reads 1 (print (named_function name))) by by apply reads_print_object.
  assert (Hs : unmarshal_string (print (named_function name)) = None).
  { unfold unmarshal_string. rewrite (reads_Valid 1) by (done || lia). reflexivity. }
  rewrite Hs, (unmarshal_reads 1) by (done || lia). unfold decode_choice, named_function. rewrite (decode_struct_print 0) by done.
  change [("name", JString name); ("type", JString "function")] with ([("name", JString name)] ++ [("type", JString "function")]).
  rewrite map_app, set_members_app. erewrite set_string; [|reflexivity|done]. cbn [mbind option_bind].
  erewrite set_string; [|reflexivity|done]. done.
Qed.

Lemma function_tools req :
  List.filter (fun t => rt_Type t =s "function") (convertChatToolsToResponses (cq_Tools req) (cq_Functions req)) = map function_tool (functions req).
Proof.
  unfold convertChatToolsToResponses, functions. rewrite List.filter_app, map_app. f_equal.
  - induction (cq_Tools req) as [|t l IH]; [done|]. cbn [flat_map]. rewrite List.filter_app, map_app, IH. f_equal. clear IH.
    destruct (String.eqb_spec (ctl_Type t) "function") as [->|Hne]; [by destruct (ctl_Function t)|].
    destruct (ToLower (TrimSpace (ctl_Type t)) =s "x_search"); [done|].
    destruct (String.eqb_spec (ToLower (TrimSpace (ctl_Type t))) "web_search") as [->|_]; [done|].
    destruct (String.eqb_spec (ToLower (TrimSpace (ctl_Type t))) "code_execution") as [->|_]; [done|]. by destruct (ctl_Function t).
  - induction (cq_Functions req) as [|f l IH]; [done|]. cbn. by rewrite IH.
Qed.

(** The parameters of a converted Chat request: the newer output budget
    wins over the older one and is raised to the minimum the upstream accepts;
    the sampling parameters are kept exactly for the models below generation 5
    and for the gpt-6 families without reasoning; reasoning is asked for with a
    summary exactly when an effort is given; every function tool
    keeps its name, description and schema, is non-strict unless it says
    otherwise, and the upstream reads the legacy function call as the same
    choice. *)
Theorem chat_request_parameters req out n suffix :
  ChatCompletionsToResponses req = Ok out ->
  cq_Model req = "gpt-" +:+ (Itoa n +:+ suffix) -> 0 <= n <= int64_max ->
  match suffix with String c _ => is_digit c | EmptyString => false end = false ->
  ToLower (TrimSpace (cq_Model req)) = cq_Model req ->
  (forall m, max_tokens req = m -> rq_MaxOutputTokens out = (if 0 <? m then Some (Z.max 128 m) else None)) /\
  (5 <= n -> IsGPT6SolOrLunaModelSpelling (cq_Model req) = false \/ cq_ReasoningEffort req <> "none" ->
     rq_Temperature out = None /\ rq_TopP out = None) /\
  (n < 5 /\ IsGPT6SolOrLunaModelSpelling (cq_Model req) = false \/ IsGPT6SolOrLunaModelSpelling (cq_Model req) = true /\ cq_ReasoningEffort req = "none" ->
     rq_Temperature out = cq_Temperature req /\ rq_TopP out = cq_TopP req) /\
  (rrs_Effort <$> rq_Reasoning out) = (if cq_ReasoningEffort req =s "" then None else Some (cq_ReasoningEffort req)) /\
  List.filter (fun t => rt_Type t =s "function") (rq_Tools out) = map function_tool (functions req) /\
  (cq_ToolChoice req <> "" -> rq_ToolChoice out = cq_ToolChoice req) /\
  (forall name, cq_ToolChoice req = "" -> cq_FunctionCall req <> "" -> unmarshal_string (cq_FunctionCall req) = None ->
     unmarshal decode_function_name "" (cq_FunctionCall req) = Some name -> utf8 name -> hear_choice (rq_ToolChoice out) = Some (Named name)) /\
  (forall s, cq_ToolChoice req = "" -> cq_FunctionCall req <> "" -> unmarshal_string (cq_FunctionCall req) = Some s -> utf8 s ->
     hear_choice (rq_ToolChoice out) = Some (Mode s)).
Proof.
  intros H Hm Hn Hs Hlow. rewrite ChatCompletionsToResponses_unfold in H. destruct (ValidateGPT61SolReasoningEffort _ _); [done|].
  destruct (convertChatMessagesToResponsesInput _) as [items|]; [|done]. cbn [bind] in H.
  destruct (or_error _ _) as [t|]; [|done]. cbn [bind] in H. destruct (tool_choice req) as [tc|] eqn:Et; [|done]. cbn [bind] in H.
  pose proof (chat_settled_fields req t) as (_ & _ & _ & _ & _ & _ & H1 & H2 & H3 & H4 & H5 & _).
  revert H H1 H2 H3 H4 H5. generalize (settled req t). intros o H H1 H2 H3 H4 H5.
  assert (Hout : out = o <| rq_ToolChoice := tc |>) by (by apply (f_equal (fun r : chat_result _ => match r with Ok x => x | Err _ => out end)) in H).
  assert (Hr : keeps_sampling req = negb ((5 <=? n) || IsGPT6SolOrLunaModelSpelling (cq_Model req)) ||
    (IsGPT6SolOrLunaModelSpelling (cq_Model req) && (cq_ReasoningEffort req =s "none"))).
  { unfold keeps_sampling, isReasoningModel. rewrite Hm in Hlow |- *. by rewrite openAIModelGeneration_spec. }
  rewrite Hr in H1, H2. rewrite Hout. clear Hout H Hm Hr. unfold tool_choice, convertChatFunctionCallToToolChoice in Et.
  change (rq_MaxOutputTokens (o <| rq_ToolChoice := tc |>)) with (rq_MaxOutputTokens o).
  change (rq_Temperature (o <| rq_ToolChoice := tc |>)) with (rq_Temperature o).
  change (rq_TopP (o <| rq_ToolChoice := tc |>)) with (rq_TopP o).
  change (rq_Reasoning (o <| rq_ToolChoice := tc |>)) with (rq_Reasoning o).
  change (rq_Tools (o <| rq_ToolChoice := tc |>)) with (rq_Tools o).
  change (rq_ToolChoice (o <| rq_ToolChoice := tc |>)) with tc.
  split; [by intros m <-|]. split; [|split; [|split; [|split; [|split; [|split]]]]].
  - intros H6 [Hf|He]; [rewrite Hf in H1, H2|rewrite (proj2 (String.eqb_neq _ _) He) in H1, H2];
      rewrite (proj2 (Z.leb_le _ _) H6), ?andb_false_r in H1, H2; by split.
  - intros [[H6 Hf]|[Hf He]]; [rewrite Hf, (proj2 (Z.leb_gt _ _) H6) in H1, H2|rewrite Hf, He, orb_true_r in H1, H2]; by split.
  - rewrite H4. by destruct (cq_ReasoningEffort req =s "").
  - rewrite H5. apply function_tools.
  - intros Hne. rewrite (proj2 (String.eqb_neq _ _) Hne) in Et. by injection Et.
  - intros name He Hne Hus Hname Hu. rewrite He, (proj2 (String.eqb_neq _ _) Hne), Hus, Hname in Et. cbn [negb] in Et.
    destruct (named_function_heard name Hu) as (tx & Htx & Hh). cbn [String.eqb negb bind or_error] in Et. rewrite Htx in Et. by injection Et as <-.
  - intros s He Hne Hus Hu. rewrite He, (proj2 (String.eqb_neq _ _) Hne), Hus in Et. cbn [negb] in Et. injection Et as <-.
    unfold hear_choice. by rewrite unmarshal_string_quote.
Qed.

(** ** Witnesses *)

Lemma upstream_reads_chat_witness :
  exists out es, ChatCompletionsToResponses demo_chat = Ok out /\ conversation demo_chat = Some es /\ length es = 5%nat /\
    hear (rq_Input out) = Some es.
Proof.
  destruct (ChatCompletionsToResponses demo_chat) as [out|e] eqn:E; [|vm_compute in E; discriminate].
  destruct (upstream_reads_chat demo_chat out E) as (es & He & Hh).
  { repeat constructor; intros _; (eexists; vm_compute; reflexivity). }
  exists out, es. split; [reflexivity|]. split; [exact He|]. pose proof conversation_ex2 as Hc. rewrite He in Hc. injection Hc as ->.
  split; [reflexivity|]. apply Hh. repeat constructor; vm_compute; reflexivity.
Defined.

Lemma chat_request_parameters_witness :
  exists out, ChatCompletionsToResponses demo_chat = Ok out /\ rq_MaxOutputTokens out = Some 128 /\ List.filter (fun t => rt_Type t =s "function") (rq_Tools out) = [] /\
    rq_Temperature out = cq_Temperature demo_chat.
Proof.
  destruct (ChatCompletionsToResponses demo_chat) as [out|e] eqn:E; [|vm_compute in E; discriminate].
  destruct (chat_request_parameters demo_chat out 4 ".1" E) as (Hm & _ & Ht & _ & Htl & _);
    [vm_compute; reflexivity|unfold int64_max; lia|reflexivity|vm_compute; reflexivity|].
  exists out. split; [reflexivity|]. split; [apply (Hm 5); reflexivity|]. split; [exact Htl|].
  apply Ht. left. split; [lia|vm_compute; reflexivity].
Defined.

End ChatRequest.
