(* ===== verification/Idempotency.v ===== *)
(** * Idempotency: at-most-once execution of keyed requests

    Models [src/backend/internal/service/idempotency.go], the coordinator that
    executes a request once per idempotency key, with the atomic operations
    of [src/backend/internal/repository/idempotency_repo.go] on the shared
    table.  [Execute] is a program of atomic calls (a repository operation, a
    clock reading, the execution itself), so the calls of concurrent requests
    interleave; a repository call may fail before or after its effect.

    Abstracted as section variables, about which nothing is assumed unless a
    theorem says so: SHA-256, [encoding/json] on values of type [any], the log
    redaction applied to a stored response, and the reason of an executor's
    error.  Metrics and audit logs are left out.  Cancellation and timeouts of
    a context show as failing calls. *)

From S2P Require Import Prelude GoStrings Json.

Module Idempotency.

Definition IdempotencyStatusProcessing : string := "processing".
Definition IdempotencyStatusSucceeded : string := "succeeded".
Definition IdempotencyStatusFailedRetryable : string := "failed_retryable".

(** ** Errors *)

(** The code and reason of an [infraerrors.ApplicationError] identify it. *)
Record ApplicationError := AppErr { Code : Z; ErrReason : string; Metadata : gmap string string }.

Definition BadRequest (reason : string) : ApplicationError := AppErr 400 reason ∅.
Definition Conflict (reason : string) : ApplicationError := AppErr 409 reason ∅.
Definition ServiceUnavailable (reason : string) : ApplicationError := AppErr 503 reason ∅.
Definition InternalServer (reason : string) : ApplicationError := AppErr 500 reason ∅.

Definition ErrIdempotencyKeyRequired := BadRequest "IDEMPOTENCY_KEY_REQUIRED".
Definition ErrIdempotencyKeyInvalid := BadRequest "IDEMPOTENCY_KEY_INVALID".
Definition ErrIdempotencyKeyConflict := Conflict "IDEMPOTENCY_KEY_CONFLICT".
Definition ErrIdempotencyInProgress := Conflict "IDEMPOTENCY_IN_PROGRESS".
Definition ErrIdempotencyRetryBackoff := Conflict "IDEMPOTENCY_RETRY_BACKOFF".
Definition ErrIdempotencyStoreUnavail := ServiceUnavailable "IDEMPOTENCY_STORE_UNAVAILABLE".
Definition ErrIdempotencyInvalidPayload := BadRequest "IDEMPOTENCY_PAYLOAD_INVALID".

(** [WithMetadata] replaces the metadata of a copy. *)
Definition WithMetadata (e : ApplicationError) (md : gmap string string) : ApplicationError :=
  AppErr (Code e) (ErrReason e) md.

(** [time.Duration.Seconds], truncated to [int]: exact for the durations
    below 2^23 seconds (97 days), where the float64 rounding cannot reach the
    next second. *)
Definition whole_seconds (d : Duration) : Z := Z.quot d Second.

Definition conflictWithRetryAfter (base : ApplicationError) (lockedUntil : option Time) (now : Time) : ApplicationError :=
  match lockedUntil with
  | None => base
  | Some lockedUntil =>
      let sec := whole_seconds (time_Sub lockedUntil now) in
      let sec := if sec <=? 0 then 1 else sec in
      WithMetadata base {[ "retry_after" := Itoa sec ]}
  end.

Definition RetryAfterSecondsFromError (err : ApplicationError) : Z :=
  let v := TrimSpace (default "" (Metadata err !! "retry_after")) in
  if v =s "" then 0
  else match Atoi v with
  | Some seconds => if seconds <=? 0 then 0 else seconds
  | None => 0
  end.

(** ** Keys *)

(** [for _, r := range key]: the runes of the key are all printable ASCII. *)
Fixpoint key_runes_ok (fuel : nat) (l : list ascii) : bool :=
  match fuel, l with
  | _, [] => true
  | O, _ => false
  | S fuel, _ =>
      let '(r, w) := Json.decode_rune l in
      negb ((r <? 33) || (126 <? r)) && key_runes_ok fuel (drop w l)
  end.

Definition NormalizeIdempotencyKey (raw : string) : outcome string ApplicationError :=
  let key := TrimSpace raw in
  if key =s "" then Ok ""
  else if 128 <? len key then Err ErrIdempotencyKeyInvalid
  else if key_runes_ok (String.length key) (to_bytes key) then Ok key
  else Err ErrIdempotencyKeyInvalid.

(** ** Stored responses *)

(** The loop of [truncateUTF8]: shorten until the prefix is valid UTF-8. *)
Fixpoint shrink_to_valid (n : nat) (s : string) : nat :=
  match n with
  | O => O
  | S m => if Json.ValidString (str_take n s) then n else shrink_to_valid m s
  end.

Definition truncateUTF8 (s : string) (maxBytes : Z) : string :=
  if (maxBytes <=? 0) || (len s <=? maxBytes) then s
  else str_take (shrink_to_valid (Z.to_nat maxBytes) s) s.

(** ** Records and the table *)

Record IdempotencyRecord := Rec {
  ID : Z;
  Scope : string;
  IdempotencyKeyHash : string;
  RequestFingerprint : string;
  Status : string;
  ResponseStatus : option Z;
  ResponseBody : option string;
  ErrorReason : option string;
  LockedUntil : option Time;
  ExpiresAt : Time
}.
#[export] Instance rec_struct : Struct IdempotencyRecord := fun r =>
  Rec (ID r) (Scope r) (IdempotencyKeyHash r) (RequestFingerprint r) (Status r) (ResponseStatus r) (ResponseBody r)
    (ErrorReason r) (LockedUntil r) (ExpiresAt r).

(** The table: one row per (scope, key hash), its unique index, and the id
    sequence.  [created_at] and [updated_at] are not read by the coordinator. *)
Record db := Db { rows : gmap (string * string) IdempotencyRecord; next_id : Z }.

(** [UPDATE ... WHERE id = $1 AND cond]: the new table and whether a row was
    affected. *)
Definition update_where (id : Z) (cond : IdempotencyRecord -> bool) (f : IdempotencyRecord -> IdempotencyRecord) (d : db)
    : bool * db :=
  let hit r := (ID r =? id) && cond r in
  (negb (bool_decide (filter (fun kr => hit (snd kr) = true) (rows d) = ∅)),
   Db ((fun r => if hit r then f r else r) <$> rows d) (next_id d)).

(** [INSERT ... ON CONFLICT DO NOTHING RETURNING id]: the new id, or nothing. *)
Definition repo_CreateProcessing (r : IdempotencyRecord) (d : db) : option Z * db :=
  match rows d !! (Scope r, IdempotencyKeyHash r) with
  | Some _ => (None, d)
  | None => (Some (next_id d),
             Db (<[(Scope r, IdempotencyKeyHash r) := r <| ID := next_id d |>]> (rows d)) (next_id d + 1))
  end.

Definition repo_GetByScopeAndKeyHash (scope keyHash : string) (d : db) : option IdempotencyRecord :=
  rows d !! (scope, keyHash).

Definition repo_TryReclaim (id : Z) (fromStatus : string) (now newLockedUntil newExpiresAt : Time) (d : db) : bool * db :=
  update_where id
    (fun r => (Status r =s fromStatus) && match LockedUntil r with None => true | Some l => l <=? now end)
    (fun r => r <| Status := IdempotencyStatusProcessing |> <| LockedUntil := Some newLockedUntil |>
                <| ErrorReason := None |> <| ExpiresAt := newExpiresAt |>) d.

Definition repo_ExtendProcessingLock (id : Z) (requestFingerprint : string) (newLockedUntil newExpiresAt : Time) (d : db)
    : bool * db :=
  update_where id
    (fun r => (Status r =s IdempotencyStatusProcessing) && (RequestFingerprint r =s requestFingerprint))
    (fun r => r <| LockedUntil := Some newLockedUntil |> <| ExpiresAt := newExpiresAt |>) d.

Definition repo_MarkSucceeded (id responseStatus : Z) (responseBody : string) (expiresAt : Time) (d : db) : db :=
  snd (update_where id (fun _ => true)
    (fun r => r <| Status := IdempotencyStatusSucceeded |> <| ResponseStatus := Some responseStatus |>
                <| ResponseBody := Some responseBody |> <| ErrorReason := None |> <| LockedUntil := None |>
                <| ExpiresAt := expiresAt |>) d).

Definition repo_MarkFailedRetryable (id : Z) (errorReason : string) (lockedUntil expiresAt : Time) (d : db) : db :=
  snd (update_where id (fun _ => true)
    (fun r => r <| Status := IdempotencyStatusFailedRetryable |> <| ErrorReason := Some errorReason |>
                <| LockedUntil := Some lockedUntil |> <| ExpiresAt := expiresAt |>) d).

(** ** Configuration and options *)

Record IdempotencyConfig := Config {
  DefaultTTL : Duration;
  SystemOperationTTL : Duration;
  ProcessingTimeout : Duration;
  FailedRetryBackoff : Duration;
  MaxStoredResponseLen : Z;
  ObserveOnly : bool
}.

Definition DefaultIdempotencyConfig : IdempotencyConfig :=
  Config (24 * Hour) (1 * Hour) (30 * Second) (5 * Second) (64 * 1024) true.

Section coordinator.
Context {Payload Data Failure : Type}.
Context (sha256_hex : string -> string).
Context (marshal_payload : Payload -> option string).
Context (marshal_data : Data -> option string) (unmarshal_data : string -> option Data) (empty_object : Data).
Context (RedactText : string -> string).
Context (Reason : Failure -> string).

Record IdempotencyExecuteOptions := Options {
  opt_Scope : string;
  opt_ActorScope : string;
  opt_Method : string;
  opt_Route : string;
  opt_IdempotencyKey : string;
  opt_Payload : Payload;
  opt_TTL : Duration;
  opt_RequireKey : bool;
  opt_ExecutionTimeout : Duration
}.

Record IdempotencyCoordinator := Coordinator { has_repo : bool; cfg : IdempotencyConfig }.

Definition HashIdempotencyKey (key : string) : string := sha256_hex key.

Definition newline : string := of_bytes [chr 10].

Definition BuildIdempotencyFingerprint (method route actorScope : string) (payload : Payload)
    : outcome string ApplicationError :=
  let method := if method =s "" then "POST" else method in
  let route := if route =s "" then "/" else route in
  let actorScope := if actorScope =s "" then "anonymous" else actorScope in
  match marshal_payload payload with
  | None => Err ErrIdempotencyInvalidPayload
  | Some raw => Ok (sha256_hex (ToUpper method +:+ newline +:+ route +:+ newline +:+ actorScope +:+ newline +:+ raw))
  end.

Definition marshalStoredResponse (c : IdempotencyConfig) (data : Data) : option string :=
  match marshal_data data with
  | None => None
  | Some raw =>
      let redacted := RedactText raw in
      Some (if (0 <? MaxStoredResponseLen c) && (MaxStoredResponseLen c <? len redacted)
            then truncateUTF8 redacted (MaxStoredResponseLen c) +:+ "...(truncated)" else redacted)
  end.

Definition decodeStoredResponse (stored : option string) : option Data :=
  match stored with
  | None => Some empty_object
  | Some s => if TrimSpace s =s "" then Some empty_object else unmarshal_data s
  end.

(** ** Programs of atomic calls *)

(** A failing repository call answers [Err tt]. *)
Inductive call : Type -> Type :=
| Now : call Time
| CreateProcessing (r : IdempotencyRecord) : call (outcome (option Z) unit)
| GetByScopeAndKeyHash (scope keyHash : string) : call (outcome (option IdempotencyRecord) unit)
| TryReclaim (id : Z) (fromStatus : string) (now newLockedUntil newExpiresAt : Time) : call (outcome bool unit)
| StartRenewal (id : Z) (fingerprint : string) (ttl : Duration) : call unit
| RunExecute : call (outcome Data Failure)
| MarkSucceeded (id responseStatus : Z) (responseBody : string) (expiresAt : Time) : call (outcome unit unit)
| MarkFailedRetryable (id : Z) (errorReason : string) (lockedUntil expiresAt : Time) : call (outcome unit unit).

Inductive failure := AppFailure (e : ApplicationError) | ExecFailure (e : Failure).

Record IdempotencyExecuteResult := Result { res_Data : Data; res_Replayed : bool }.

Inductive prog : Type :=
| Ret (r : outcome IdempotencyExecuteResult failure)
| Do {A} (c : call A) (k : A -> prog).

Definition reject (e : ApplicationError) : prog := Ret (Err (AppFailure e)).
Definition unavailable : prog := reject ErrIdempotencyStoreUnavail.

(** The time left to the result: [expiresAt] is renewed after a bounded execution. *)
Definition result_expiry (opts : IdempotencyExecuteOptions) (ttl : Duration) (expiresAt : Time) (k : Time -> prog) : prog :=
  if 0 <? opt_ExecutionTimeout opts then Do Now (fun now => k (time_Add now ttl)) else k expiresAt.

(** From the claim of the record to the end of [Execute]. *)
Definition execute_claimed (c : IdempotencyCoordinator) (opts : IdempotencyExecuteOptions) (id : Z) (fingerprint : string)
    (ttl : Duration) (expiresAt : Time) : prog :=
  if id =? 0 then unavailable
  else
    let body :=
      Do RunExecute (fun result =>
      result_expiry opts ttl expiresAt (fun expiresAt =>
      match result with
      | Err execErr =>
          Do Now (fun now =>
          let backoffUntil := time_Add now (FailedRetryBackoff (cfg c)) in
          let reason := if Reason execErr =s "" then "EXECUTION_FAILED" else Reason execErr in
          Do (MarkFailedRetryable id reason backoffUntil expiresAt) (fun _ => Ret (Err (ExecFailure execErr))))
      | Ok data =>
          match marshalStoredResponse (cfg c) data with
          | None => unavailable
          | Some storedBody =>
              Do (MarkSucceeded id 200 storedBody expiresAt) (fun marked =>
              match marked with
              | Err _ => unavailable
              | Ok _ => Ret (Ok (Result data false))
              end)
          end
      end)) in
    if 0 <? opt_ExecutionTimeout opts then Do (StartRenewal id fingerprint ttl) (fun _ => body) else body.

(** An existing, unexpired record with the request's fingerprint. *)
Definition answer_existing (c : IdempotencyCoordinator) (opts : IdempotencyExecuteOptions) (existing : IdempotencyRecord)
    (now lockedUntil expiresAt : Time) (claimed : Z -> prog) : prog :=
  if Status existing =s IdempotencyStatusSucceeded then
    match decodeStoredResponse (ResponseBody existing) with
    | None => unavailable
    | Some data => Ret (Ok (Result data true))
    end
  else if Status existing =s IdempotencyStatusProcessing then
    reject (conflictWithRetryAfter ErrIdempotencyInProgress (LockedUntil existing) now)
  else if Status existing =s IdempotencyStatusFailedRetryable then
    if match LockedUntil existing with Some l => After l now | None => false end then
      reject (conflictWithRetryAfter ErrIdempotencyRetryBackoff (LockedUntil existing) now)
    else
      Do (TryReclaim (ID existing) IdempotencyStatusFailedRetryable now lockedUntil expiresAt) (fun taken =>
      match taken with
      | Err _ => unavailable
      | Ok false => reject (conflictWithRetryAfter ErrIdempotencyInProgress (LockedUntil existing) now)
      | Ok true => claimed (ID existing)
      end)
  else reject ErrIdempotencyKeyConflict.

Definition effective_ttl (c : IdempotencyCoordinator) (opts : IdempotencyExecuteOptions) : Duration :=
  if opt_TTL opts <=? 0 then DefaultTTL (cfg c) else opt_TTL opts.

(** [Execute] with a normalized, non-empty key. *)
Definition execute_keyed (c : IdempotencyCoordinator) (opts : IdempotencyExecuteOptions) (key fingerprint : string) : prog :=
  let ttl := effective_ttl c opts in
  Do Now (fun now =>
  let expiresAt := time_Add now ttl in
  let lockedUntil := time_Add now (ProcessingTimeout (cfg c)) in
  let keyHash := HashIdempotencyKey key in
  let record := Rec 0 (opt_Scope opts) keyHash fingerprint IdempotencyStatusProcessing None None None (Some lockedUntil) expiresAt in
  let claimed id := execute_claimed c opts id fingerprint ttl expiresAt in
  Do (CreateProcessing record) (fun owner =>
  match owner with
  | Err _ => unavailable
  | Ok (Some id) => claimed id
  | Ok None =>
      Do (GetByScopeAndKeyHash (opt_Scope opts) keyHash) (fun found =>
      match found with
      | Err _ => unavailable
      | Ok None => unavailable
      | Ok (Some existing) =>
          if negb (RequestFingerprint existing =s fingerprint) then reject ErrIdempotencyKeyConflict
          else if negb (After (ExpiresAt existing) now) then
            Do (TryReclaim (ID existing) (Status existing) now lockedUntil expiresAt) (fun taken =>
            match taken with
            | Err _ => unavailable
            | Ok true => claimed (ID existing)
            | Ok false =>
                Do (GetByScopeAndKeyHash (opt_Scope opts) keyHash) (fun latest =>
                match latest with
                | Err _ => unavailable
                | Ok None => unavailable
                | Ok (Some latest) =>
                    if negb (RequestFingerprint latest =s fingerprint) then reject ErrIdempotencyKeyConflict
                    else answer_existing c opts latest now lockedUntil expiresAt claimed
                end)
            end)
          else answer_existing c opts existing now lockedUntil expiresAt claimed
      end)
  end)).

Definition Execute (c : IdempotencyCoordinator) (opts : IdempotencyExecuteOptions) (has_execute : bool) : prog :=
  if negb has_execute then reject (InternalServer "IDEMPOTENCY_EXECUTOR_NIL")
  else match NormalizeIdempotencyKey (opt_IdempotencyKey opts) with
  | Err e => reject e
  | Ok key =>
      if key =s "" then
        if opt_RequireKey opts && negb (ObserveOnly (cfg c)) then reject ErrIdempotencyKeyRequired
        else Do RunExecute (fun result =>
          match result with
          | Err e => Ret (Err (ExecFailure e))
          | Ok data => Ret (Ok (Result data false))
          end)
      else if negb (has_repo c) then unavailable
      else if opt_Scope opts =s "" then reject (BadRequest "IDEMPOTENCY_SCOPE_REQUIRED")
      else match BuildIdempotencyFingerprint (opt_Method opts) (opt_Route opts) (opt_ActorScope opts) (opt_Payload opts) with
      | Err e => reject e
      | Ok fingerprint => execute_keyed c opts key fingerprint
      end
  end.

(** One tick of the goroutine [renewProcessingLease] starts. *)
Definition renewal_tick (c : IdempotencyCoordinator) (id : Z) (fingerprint : string) (ttl : Duration) (now : Time) (d : db)
    : bool * db :=
  let lease := if ProcessingTimeout (cfg c) <=? 0 then ProcessingTimeout DefaultIdempotencyConfig else ProcessingTimeout (cfg c) in
  repo_ExtendProcessingLock id fingerprint (time_Add now lease) (time_Add now ttl) d.

(** ** Interleaved execution

    Any number of requests of one coordinator run concurrently against one
    table.  The clock readings lie in a window [t0, t1) no longer than the
    TTL of any request, so no record made in the window expires in it. *)

Context (c : IdempotencyCoordinator) (t0 t1 : Time).

(** What a call may answer, and the table after it. *)
Definition call_sem {A} (cl : call A) (d : db) (r : A) (d' : db) : Prop :=
  match cl in call A return A -> Prop with
  | Now => fun r => t0 <= r < t1 /\ d' = d
  | CreateProcessing rec => fun r =>
      let '(o, d1) := repo_CreateProcessing rec d in r = Ok o /\ d' = d1 \/ r = Err tt /\ (d' = d \/ d' = d1)
  | GetByScopeAndKeyHash s h => fun r => (r = Ok (repo_GetByScopeAndKeyHash s h d) \/ r = Err tt) /\ d' = d
  | TryReclaim id from now l e => fun r =>
      let '(b, d1) := repo_TryReclaim id from now l e d in r = Ok b /\ d' = d1 \/ r = Err tt /\ (d' = d \/ d' = d1)
  | StartRenewal _ _ _ => fun r => d' = d
  | RunExecute => fun r => d' = d
  | MarkSucceeded id s b e => fun r =>
      let d1 := repo_MarkSucceeded id s b e d in r = Ok tt /\ d' = d1 \/ r = Err tt /\ (d' = d \/ d' = d1)
  | MarkFailedRetryable id b l e => fun r =>
      let d1 := repo_MarkFailedRetryable id b l e d in r = Ok tt /\ d' = d1 \/ r = Err tt /\ (d' = d \/ d' = d1)
  end r.

Definition call_log {A} (cl : call A) (r : A) : list (outcome Data Failure) :=
  match cl in call A return A -> list (outcome Data Failure) with RunExecute => fun r => [r] | _ => fun _ => [] end r.

Definition call_renewal {A} (cl : call A) : list (Z * string * Duration) :=
  match cl with StartRenewal id fp ttl => [(id, fp, ttl)] | _ => [] end.

Definition call_executes {A} (cl : call A) : bool := match cl with RunExecute => true | _ => false end.

(** The key under which a request is deduplicated, if any. *)
Definition key_of (opts : IdempotencyExecuteOptions) : option (string * string) :=
  match NormalizeIdempotencyKey (opt_IdempotencyKey opts) with
  | Ok key => if key =s "" then None else Some (opt_Scope opts, HashIdempotencyKey key)
  | Err _ => None
  end.

Record system := System {
  table : db;
  procs : gmap nat (IdempotencyExecuteOptions * prog);
  renewals : list (Z * string * Duration);
  executed : list (option (string * string) * outcome Data Failure)   (* what the executor returned, in order *)
}.

Definition system_start : system := System (Db ∅ 1) ∅ [] [].

Inductive step : system -> system -> Prop :=
| step_request s pid opts :
    procs s !! pid = None -> t1 <= t0 + effective_ttl c opts ->
    step s (System (table s) (<[pid := (opts, Execute c opts true)]> (procs s)) (renewals s) (executed s))
| step_call s pid opts A (cl : call A) k r d' :
    procs s !! pid = Some (opts, Do cl k) -> call_sem cl (table s) r d' ->
    step s (System d' (<[pid := (opts, k r)]> (procs s)) (renewals s ++ call_renewal cl)
              (executed s ++ map (pair (key_of opts)) (call_log cl r)))
| step_renewal s id fp ttl now :
    (id, fp, ttl) ∈ renewals s -> t0 <= now < t1 ->
    step s (System (snd (renewal_tick c id fp ttl now (table s))) (procs s) (renewals s) (executed s)).

Definition reachable (s : system) : Prop := rtc step system_start s.

Definition successes (κ : string * string) (log : list (option (string * string) * outcome Data Failure)) : list Data :=
  omap (fun e => if bool_decide (fst e = Some κ) then match snd e with Ok d => Some d | Err _ => None end else None) log.

(** *** What [Execute] does, as a protocol *)

Inductive phase :=
| Unkeyed
| Before (seen : option IdempotencyRecord)   (* no claim; the record last read *)
| Claimed (id : Z)
| Won (id : Z) (d : Data)
| Lost (id : Z)
| Finished (d : option Data).

Definition next {A} (ph : phase) (cl : call A) (r : A) : phase :=
  match cl in call A return A -> phase with
  | CreateProcessing _ => fun r => match r with Ok (Some id) => Claimed id | _ => ph end
  | GetByScopeAndKeyHash _ _ => fun r => match r with Ok o => Before o | Err _ => ph end
  | TryReclaim id _ _ _ _ => fun r => match r with Ok true => Claimed id | _ => ph end
  | RunExecute => fun r => match ph with
                           | Claimed id => match r with Ok d => Won id d | Err _ => Lost id end
                           | _ => ph end
  | MarkSucceeded _ _ _ _ => fun _ => match ph with Won _ d => Finished (Some d) | _ => ph end
  | MarkFailedRetryable _ _ _ _ => fun _ => Finished None
  | _ => fun _ => ph
  end r.

Definition allowed {A} (κ : string * string) (ph : phase) (cl : call A) : Prop :=
  match cl with
  | Now => True
  | CreateProcessing r =>
      ph = Before None /\ (Scope r, IdempotencyKeyHash r) = κ /\ Status r = IdempotencyStatusProcessing /\ t1 <= ExpiresAt r
  | GetByScopeAndKeyHash s h => (s, h) = κ /\ exists seen, ph = Before seen
  | TryReclaim id from _ _ e =>
      exists rec, ph = Before (Some rec) /\ id = ID rec /\ from = IdempotencyStatusFailedRetryable /\ t1 <= e
  | StartRenewal _ _ ttl => t1 <= t0 + ttl
  | RunExecute => ph = Unkeyed \/ exists id, ph = Claimed id
  | MarkSucceeded id _ body e => exists d, ph = Won id d /\ marshalStoredResponse (cfg c) d = Some body /\ t1 <= e
  | MarkFailedRetryable id _ _ e => ph = Lost id /\ t1 <= e
  end.

(** What the window and the table guarantee about an answer. *)
Definition reply_ok {A} (cl : call A) (r : A) : Prop :=
  match cl in call A return A -> Prop with
  | Now => fun r => t0 <= r < t1
  | GetByScopeAndKeyHash _ _ => fun r => match r with Ok (Some rec) => t1 <= ExpiresAt rec | _ => True end
  | _ => fun _ => True
  end r.

Definition ret_ok (ph : phase) (r : outcome IdempotencyExecuteResult failure) : Prop :=
  match r with
  | Ok (Result d true) =>
      exists rec, ph = Before (Some rec) /\ Status rec = IdempotencyStatusSucceeded /\ decodeStoredResponse (ResponseBody rec) = Some d
  | Ok (Result d false) => ph = Unkeyed \/ ph = Finished (Some d)
  | Err _ => True
  end.

Fixpoint follows (κ : string * string) (ph : phase) (p : prog) : Prop :=
  match p with
  | Ret r => ret_ok ph r
  | Do cl k => allowed κ ph cl /\ forall r, reply_ok cl r -> follows κ (next ph cl r) (k r)
  end.

Lemma execute_claimed_follows opts κ id fp ttl e :
  t1 <= e -> t1 <= t0 + ttl -> follows κ (Claimed id) (execute_claimed c opts id fp ttl e).
Proof.
  intros He Ht. unfold execute_claimed. destruct (id =? 0); [done|].
  assert (H : follows κ (Claimed id) (Do RunExecute (fun result => result_expiry opts ttl e (fun expiresAt =>
    match result with
    | Err execErr =>
        Do Now (fun now => Do (MarkFailedRetryable id (if Reason execErr =s "" then "EXECUTION_FAILED" else Reason execErr)
          (time_Add now (FailedRetryBackoff (cfg c))) expiresAt) (fun _ => Ret (Err (ExecFailure execErr))))
    | Ok data =>
        match marshalStoredResponse (cfg c) data with
        | None => unavailable
        | Some storedBody => Do (MarkSucceeded id 200 storedBody expiresAt) (fun marked =>
            match marked with Err _ => unavailable | Ok _ => Ret (Ok (Result data false)) end)
        end
    end)))).
  { assert (K : forall ph (f : Time -> prog), (forall e', t1 <= e' -> follows κ ph (f e')) -> follows κ ph (result_expiry opts ttl e f)).
    { intros ph f Hf. unfold result_expiry. destruct (_ <? _); [|auto]. simpl. split; [done|]. intros now Hn. apply Hf. time_lia. }
    simpl. split; [eauto|]. intros [d|x] _; apply K; intros e' He'.
    - destruct (marshalStoredResponse (cfg c) d) eqn:Em; [|done]. simpl. split; [by exists d|]. intros [[]|[]] _; simpl; auto.
    - simpl. split; [done|]. intros now _. by split. }
  destruct (_ <? _); [|exact H]. split; [exact Ht|]. intros r _. exact H.
Qed.

Lemma answer_existing_follows opts κ rec now l e claimed :
  t1 <= e -> (forall id, follows κ (Claimed id) (claimed id)) ->
  follows κ (Before (Some rec)) (answer_existing c opts rec now l e claimed).
Proof.
  intros He Hc. unfold answer_existing. destruct (Status rec =s IdempotencyStatusSucceeded) eqn:E1.
  { apply String.eqb_eq in E1. destruct (decodeStoredResponse _) eqn:Ed; [|done]. simpl. eauto. }
  destruct (Status rec =s IdempotencyStatusProcessing); [done|].
  destruct (Status rec =s IdempotencyStatusFailedRetryable) eqn:E3; [|done].
  destruct (match LockedUntil rec with Some _ => _ | None => false end); [done|].
  simpl. split; [by exists rec|]. intros [[]|[]] _; simpl; auto; done.
Qed.

Lemma Execute_follows opts :
  t1 <= t0 + effective_ttl c opts ->
  follows (default ("", "") (key_of opts)) (match key_of opts with Some _ => Before None | None => Unkeyed end)
    (Execute c opts true).
Proof.
  intros Ht. unfold Execute, key_of. simpl. destruct (NormalizeIdempotencyKey _) as [key|e]; [|done].
  destruct (key =s ""); simpl.
  { destruct (_ && _); [done|]. simpl. split; [auto|]. intros [d|x] _; simpl; auto. }
  destruct (negb (has_repo c)); [done|]. destruct (opt_Scope opts =s ""); [done|].
  destruct (BuildIdempotencyFingerprint _ _ _ _) as [fp|e]; [|done]. unfold execute_keyed. simpl.
  split; [done|]. intros now Hn. set (κ := (opt_Scope opts, HashIdempotencyKey key)).
  assert (He : t1 <= time_Add now (effective_ttl c opts)) by time_lia.
  assert (Hc : forall id, follows κ (Claimed id) (execute_claimed c opts id fp (effective_ttl c opts) (time_Add now (effective_ttl c opts))))
    by (intros; by apply execute_claimed_follows).
  split; [done|]. intros [[id|]|[]] _; [apply Hc | | done].
  simpl. split; [eauto|]. intros [[rec|]|[]] Hr; [|done|done]. simpl in Hr.
  destruct (negb (RequestFingerprint rec =s fp)); [done|].
  replace (After (ExpiresAt rec) now) with true by (symmetry; time_lia). simpl.
  by apply answer_existing_follows.
Qed.

(** *** The abstract life of a key *)

Inductive kstate :=
| KFree                      (* no row *)
| KHeld (pid : nat)          (* claimed, not yet executed successfully *)
| KWon (pid : nat) (d : Data)  (* executed, result not yet stored *)
| KStuck (s : list Data)     (* processing, and nobody works on it any more *)
| KFailed                    (* failed, may be claimed again *)
| KDone (d : Data).          (* result stored *)

Definition row_fits (κ : string * string) (kst : kstate) (row : option IdempotencyRecord) (next : Z) : Prop :=
  match row with
  | None => kst = KFree
  | Some r =>
      (Scope r, IdempotencyKeyHash r) = κ /\ ID r < next /\ t1 <= ExpiresAt r /\
      match kst with
      | KFree => False
      | KHeld _ | KWon _ _ | KStuck _ => Status r = IdempotencyStatusProcessing
      | KFailed => Status r = IdempotencyStatusFailedRetryable
      | KDone d => Status r = IdempotencyStatusSucceeded /\ ResponseBody r = marshalStoredResponse (cfg c) d
      end
  end.

Definition kst_successes (kst : kstate) : list Data :=
  match kst with KFree | KHeld _ | KFailed => [] | KWon _ d | KDone d => [d] | KStuck s => s end.

Definition phase_fits (kst : kstate) (row : option IdempotencyRecord) (pid : nat) (ph : phase) : Prop :=
  let id_is id := exists r, row = Some r /\ ID r = id in
  match ph with
  | Unkeyed => False
  | Before None => True
  | Before (Some rec) =>
      id_is (ID rec) /\
      (Status rec = IdempotencyStatusSucceeded -> exists d, kst = KDone d /\ ResponseBody rec = marshalStoredResponse (cfg c) d)
  | Claimed id | Lost id => kst = KHeld pid /\ id_is id
  | Won id d => kst = KWon pid d /\ id_is id
  | Finished None => True
  | Finished (Some d) => kst_successes kst = [d] /\ kst <> KWon pid d
  end.

Definition key_fits (κ : string * string) (s : system) (ph : gmap nat phase) (kst : kstate) : Prop :=
  row_fits κ kst (rows (table s) !! κ) (next_id (table s)) /\
  successes κ (executed s) = kst_successes kst /\ (length (kst_successes kst) <= 1)%nat /\
  forall pid opts p φ, procs s !! pid = Some (opts, p) -> ph !! pid = Some φ -> key_of opts = Some κ ->
    phase_fits kst (rows (table s) !! κ) pid φ.

(** Ids identify rows, every process follows its protocol, every key is in
    one of the abstract states. *)
Definition invariant (s : system) : Prop :=
  (forall κ1 κ2 r1 r2, rows (table s) !! κ1 = Some r1 -> rows (table s) !! κ2 = Some r2 -> ID r1 = ID r2 -> κ1 = κ2) /\
  Forall (fun '(_, _, ttl) => t1 <= t0 + ttl) (renewals s) /\
  exists ph : gmap nat phase,
    (forall pid, procs s !! pid = None -> ph !! pid = None) /\
    (forall pid opts p, procs s !! pid = Some (opts, p) ->
       exists φ, ph !! pid = Some φ /\ follows (default ("", "") (key_of opts)) φ p /\ (key_of opts = None -> φ = Unkeyed)) /\
    forall κ, exists kst, key_fits κ s ph kst.

(** *** Updates by id touch one row *)

Definition ids_unique (d : db) : Prop :=
  forall κ1 κ2 r1 r2, rows d !! κ1 = Some r1 -> rows d !! κ2 = Some r2 -> ID r1 = ID r2 -> κ1 = κ2.

Lemma update_where_rows id cond f d κ :
  rows (snd (update_where id cond f d)) !! κ = (fun r => if (ID r =? id) && cond r then f r else r) <$> rows d !! κ.
Proof. unfold update_where. simpl. apply lookup_fmap. Qed.

Lemma update_where_hit id cond f d κ r :
  ids_unique d -> rows d !! κ = Some r -> ID r = id ->
  fst (update_where id cond f d) = cond r.
Proof.
  intros Hu Hr Hid. unfold update_where. simpl. destruct (cond r) eqn:E.
  - rewrite bool_decide_false; [done|]. intros He.
    assert (filter (fun kr => (ID (snd kr) =? id) && cond (snd kr) = true) (rows d) !! κ = Some r) as Hl.
    { apply map_lookup_filter_Some. split; [done|]. simpl. rewrite Hid, Z.eqb_refl, E. done. }
    rewrite He in Hl. done.
  - rewrite bool_decide_true; [done|]. apply map_empty_filter_2. intros κ' r' Hr' H. simpl in H.
    apply andb_true_iff in H as [H1 H2]. apply Z.eqb_eq in H1.
    assert (κ' = κ) as -> by (eapply Hu; eauto; congruence). rewrite Hr in Hr'. congruence.
Qed.

Lemma update_where_other id cond f d κ κ' r :
  ids_unique d -> rows d !! κ = Some r -> ID r = id -> κ' <> κ ->
  rows (snd (update_where id cond f d)) !! κ' = rows d !! κ'.
Proof.
  intros Hu Hr Hid Hn. rewrite update_where_rows. destruct (rows d !! κ') as [r'|] eqn:E; [|done]. simpl.
  destruct (ID r' =? id) eqn:Ei; [|done]. exfalso. apply Hn. eapply Hu; eauto. lia.
Qed.

Lemma update_where_unique id cond f d :
  (forall r, ID (f r) = ID r) -> ids_unique d -> ids_unique (snd (update_where id cond f d)).
Proof.
  intros Hf Hu κ1 κ2 r1 r2. rewrite !update_where_rows.
  destruct (rows d !! κ1) as [s1|] eqn:E1; [|done]. destruct (rows d !! κ2) as [s2|] eqn:E2; [|done]. simpl.
  intros [= <-] [= <-] H. eapply Hu; eauto. revert H. repeat case_match; by rewrite ?Hf.
Qed.

Lemma update_where_next id cond f d : next_id (snd (update_where id cond f d)) = next_id d.
Proof. done. Qed.


(** *** One call of one process, seen from its key *)

Definition row_id (row : option IdempotencyRecord) (id : Z) : Prop := exists r, row = Some r /\ ID r = id.

Definition new_successes (log : list (outcome Data Failure)) : list Data :=
  omap (fun r => match r with Ok d => Some d | Err _ => None end) log.

Record transition (κ : string * string) (pid : nat) (kst : kstate) (d : db) (kst' : kstate) (d' : db) (φ' : phase)
    (new : list Data) : Prop := {
  tr_row : row_fits κ kst' (rows d' !! κ) (next_id d');
  tr_successes : kst_successes kst' = kst_successes kst ++ new;
  tr_once : (length (kst_successes kst') <= 1)%nat;
  tr_phase : phase_fits kst' (rows d' !! κ) pid φ';
  tr_others : forall pid' ψ, pid' <> pid -> phase_fits kst (rows d !! κ) pid' ψ -> phase_fits kst' (rows d' !! κ) pid' ψ
}.

Lemma transition_same κ pid kst d d' φ' :
  rows d' !! κ = rows d !! κ -> next_id d' = next_id d ->
  row_fits κ kst (rows d !! κ) (next_id d) -> (length (kst_successes kst) <= 1)%nat ->
  phase_fits kst (rows d !! κ) pid φ' -> transition κ pid kst d kst d' φ' [].
Proof. intros E1 E2 H1 H2 H3. split; rewrite ?E1, ?E2; auto. by rewrite app_nil_r. Qed.

Lemma phase_fits_others kst row pid kst' row' pid' ψ :
  (forall id, row_id row id -> row_id row' id) ->
  (forall d, kst = KDone d -> kst' = KDone d) ->
  (forall p, p <> pid -> kst = KHeld p -> kst' = KHeld p) ->
  (forall p d, p <> pid -> kst = KWon p d -> kst' = KWon p d) ->
  (forall p d, p <> pid -> kst' = KWon p d -> kst = KWon p d) ->
  (forall d, kst_successes kst = [d] -> kst_successes kst' = [d]) ->
  pid' <> pid -> phase_fits kst row pid' ψ -> phase_fits kst' row' pid' ψ.
Proof.
  intros Hid Hd Hh Hw Hw' Hs Hn. unfold row_id in *. destruct ψ as [|[rec|]|id|id d|id|[d|]]; simpl; auto.
  - intros [H1 H2]. split; [auto|]. intros E. destruct (H2 E) as (d & -> & ?). exists d. auto.
  - intros [H1 H2]. auto.
  - intros [H1 H2]. auto.
  - intros [H1 H2]. auto.
  - intros [H1 H2]. split; [auto|]. intros H. apply Hw' in H; auto.
Qed.

Lemma create_transition κ pid kst d rec φ :
  (Scope rec, IdempotencyKeyHash rec) = κ -> Status rec = IdempotencyStatusProcessing -> t1 <= ExpiresAt rec ->
  row_fits κ kst (rows d !! κ) (next_id d) -> rows d !! κ = None -> forall kst', kst' = KHeld pid \/ kst' = KStuck [] ->
  φ = Before None \/ φ = Claimed (next_id d) /\ kst' = KHeld pid ->
  transition κ pid kst d kst' (snd (repo_CreateProcessing rec d)) φ [].
Proof.
  intros Hκ Hs He Hrow Hnone kst' Hk' Hφ. rewrite Hnone in Hrow. simpl in Hrow. subst kst.
  unfold repo_CreateProcessing. rewrite Hκ, Hnone. simpl. split.
  - simpl. rewrite lookup_insert_eq. simpl. split_and!; [done | lia | done |]. by destruct Hk' as [->| ->].
  - by destruct Hk' as [->| ->].
  - destruct Hk' as [->| ->]; simpl; lia.
  - destruct Hφ as [->|[-> ->]]; simpl; [done|]. rewrite lookup_insert_eq. split; [done|]. eexists. by split.
  - intros pid' ψ Hn. rewrite Hnone. apply phase_fits_others with (pid := pid); try done; simpl.
    + intros id (r & Hr & _). done.
    + intros p x Hp H. destruct Hk' as [->| ->]; done.
Qed.

Lemma mark_transition κ pid kst d φ' r id f kst' new :
  ids_unique d -> rows d !! κ = Some r -> ID r = id ->
  ID (f r) = ID r -> row_fits κ kst' (Some (f r)) (next_id d) ->
  kst_successes kst' = kst_successes kst ++ new -> (length (kst_successes kst') <= 1)%nat ->
  phase_fits kst' (Some (f r)) pid φ' ->
  (forall d, kst <> KDone d) ->
  (forall p, p <> pid -> kst <> KHeld p) -> (forall p d, p <> pid -> kst <> KWon p d /\ kst' <> KWon p d) ->
  (forall cond, cond r = true -> transition κ pid kst d kst' (snd (update_where id cond f d)) φ' new).
Proof.
  intros Hu Hr Hid Hf Hrow Hs Hl Hφ Hd Hh Hw cond Hc.
  assert (E : rows (snd (update_where id cond f d)) !! κ = Some (f r)).
  { rewrite update_where_rows, Hr. simpl. by rewrite Hid, Z.eqb_refl, Hc. }
  split; rewrite ?E, ?update_where_next; auto.
  intros pid' ψ Hn. rewrite Hr. apply phase_fits_others with (pid := pid); try done.
  - intros i (r' & [= <-] & Hi). exists (f r). split; congruence.
  - intros x H. by apply Hd in H.
  - intros p Hp H. by apply Hh in H.
  - intros p x Hp H. by apply (Hw p x Hp) in H.
  - intros p x Hp H. by apply (Hw p x Hp) in H.
  - intros x Hx. rewrite Hs, Hx in *. simpl in Hl. destruct new; [done|]. simpl in Hl. lia.
Qed.


(** *** The transitions of a call that its process makes by the protocol *)

Section of_call.
Context (κ : string * string) (pid : nat) (kst : kstate) (d : db) (φ : phase).
Hypothesis (Hu : ids_unique d) (Hrow : row_fits κ kst (rows d !! κ) (next_id d)).
Hypothesis (Hl : (length (kst_successes kst) <= 1)%nat) (Hφ : phase_fits kst (rows d !! κ) pid φ).

Lemma create_call rec r d' :
  let cl := CreateProcessing rec in
  allowed κ φ cl -> call_sem cl d r d' -> exists kst', transition κ pid kst d kst' d' (next φ cl r) (new_successes (call_log cl r)).
Proof.
  intros cl Ha Hsem. unfold cl in *. clear cl.
  destruct Ha as (-> & Hκ & Hs & He).
  destruct (rows d !! κ) as [r0|] eqn:Er.
  + assert (E : repo_CreateProcessing rec d = (None, d)) by (unfold repo_CreateProcessing; by rewrite Hκ, Er).
    simpl in Hsem. rewrite E in Hsem. exists kst.
    assert (d' = d) as -> by (destruct Hsem as [[_ ->]|[_ [->| ->]]]; done).
    assert (next (Before None) (CreateProcessing rec) r = Before None) as -> by (destruct Hsem as [[-> _]|[-> _]]; done).
    apply transition_same; try done; rewrite ?Er; done.
  + assert (E : fst (repo_CreateProcessing rec d) = Some (next_id d)) by (unfold repo_CreateProcessing; by rewrite Hκ, Er).
    simpl in Hsem. destruct (repo_CreateProcessing rec d) as [o d1] eqn:Ed. simpl in E. subst o.
    replace d1 with (snd (repo_CreateProcessing rec d)) in Hsem by (by rewrite Ed).
    destruct Hsem as [[-> ->]|[-> [->| ->]]].
    * exists (KHeld pid). eapply create_transition; eauto. by rewrite Er.
    * exists kst. simpl. apply transition_same; try done; rewrite ?Er; done.
    * exists (KStuck []). eapply create_transition; eauto. by rewrite Er.
Qed.

Lemma get_call s h r d' :
  let cl := GetByScopeAndKeyHash s h in
  allowed κ φ cl -> call_sem cl d r d' -> exists kst', transition κ pid kst d kst' d' (next φ cl r) (new_successes (call_log cl r)).
Proof.
  intros cl Ha Hsem. unfold cl in *. clear cl.
  destruct Ha as (Hκ & seen & ->). simpl in Hsem. destruct Hsem as [Hr ->]. exists kst.
  apply transition_same; auto. destruct Hr as [->| ->]; [|done]. unfold repo_GetByScopeAndKeyHash. rewrite Hκ. simpl.
  destruct (rows d !! κ) as [r0|] eqn:Er; [|done]. split; [by exists r0|].
  intros Hst. simpl in Hrow. destruct Hrow as (_ & _ & _ & Hk).
  destruct kst; try done; rewrite ?Hst in Hk; try done. exists d0. by destruct Hk.
Qed.

Lemma reclaim_call id from now l e r d' :
  let cl := TryReclaim id from now l e in
  allowed κ φ cl -> call_sem cl d r d' -> exists kst', transition κ pid kst d kst' d' (next φ cl r) (new_successes (call_log cl r)).
Proof.
  intros cl Ha Hsem. unfold cl in *. clear cl.
  destruct Ha as (rec & -> & -> & -> & He). destruct Hφ as [(r0 & Er & Hid) Hdone]. rewrite Er in Hrow. simpl in Hrow.
  destruct Hrow as (Hk & Hn & Hx & Hst).
  unfold call_sem, repo_TryReclaim in Hsem.
  match type of Hsem with context [update_where _ ?cond0 ?f0 _] => set (cond := cond0) in Hsem; set (f := f0) in Hsem end.
  assert (Hb := update_where_hit (ID rec) cond f d κ r0 Hu Er Hid).
  destruct (update_where (ID rec) cond f d) as [b d1] eqn:Ed. simpl in Hb. subst b.
  assert (E1 : d1 = snd (update_where (ID rec) cond f d)) by (by rewrite Ed).
  assert (Hsame : forall d2, rows d2 !! κ = rows d !! κ -> next_id d2 = next_id d ->
    transition κ pid kst d kst d2 (Before (Some rec)) []).
  { intros d2 ? ?. apply transition_same; try done; rewrite ?Er; simpl; auto. split; [by exists r0|auto]. }
  destruct (cond r0) eqn:Ec.
  + assert (kst = KFailed) as ->.
    { unfold cond in Ec. apply andb_true_iff in Ec as [Ec _]. apply String.eqb_eq in Ec.
      destruct kst; try done; rewrite ?Ec in Hst; try done. by destruct Hst. }
    assert (Hm : forall kst' φ', kst' = KHeld pid \/ kst' = KStuck [] -> φ' = Before (Some rec) \/ φ' = Claimed (ID rec) /\ kst' = KHeld pid ->
      transition κ pid KFailed d kst' d1 φ' []).
    { intros kst' φ' Hk' Hφ'. rewrite E1. eapply mark_transition; eauto; try done.
      - simpl. split_and!; auto. by destruct Hk' as [->| ->].
      - by destruct Hk' as [->| ->].
      - destruct Hk' as [->| ->]; simpl; lia.
      - destruct Hφ' as [->|[-> ->]]; simpl.
        + split; [by exists (f r0)|]. intros H. destruct (Hdone H) as (x & ? & _). done.
        + split; [done|]. by exists (f r0).
      - intros p x Hp. split; [done|]. by destruct Hk' as [->| ->]. }
    destruct Hsem as [[-> ->]|[-> [->| ->]]].
    * exists (KHeld pid). apply Hm; simpl; auto.
    * exists KFailed. by apply Hsame.
    * exists (KStuck []). apply Hm; simpl; auto.
  + assert (rows d1 !! κ = rows d !! κ) as Erow.
    { rewrite E1, update_where_rows, Er. simpl. by rewrite Ec, andb_false_r. }
    assert (next_id d1 = next_id d) as En by (by rewrite E1).
    exists kst. destruct Hsem as [[-> ->]|[-> [->| ->]]]; simpl; by apply Hsame.
Qed.

Lemma execute_call  r d' :
  let cl := RunExecute in
  allowed κ φ cl -> call_sem cl d r d' -> exists kst', transition κ pid kst d kst' d' (next φ cl r) (new_successes (call_log cl r)).
Proof.
  intros cl Ha Hsem. unfold cl in *. clear cl.
  destruct Hsem. destruct Ha as [->|(id & ->)]; [done|]. destruct Hφ as [-> (r0 & Er & Hid)].
  destruct r as [x|x]; simpl.
  + exists (KWon pid x). rewrite Er in Hrow. destruct Hrow as (?&?&?&?). split; rewrite ?Er; simpl; auto.
    * split; [done|]. by exists r0.
    * intros pid' ψ Hn. apply phase_fits_others with (pid := pid); auto; try done; intros p y Hp; congruence.
  + exists (KHeld pid). apply transition_same; auto. rewrite Er. split; [done|]. by exists r0.
Qed.

Lemma succeed_call id st body e r d' :
  let cl := MarkSucceeded id st body e in
  allowed κ φ cl -> call_sem cl d r d' -> exists kst', transition κ pid kst d kst' d' (next φ cl r) (new_successes (call_log cl r)).
Proof.
  intros cl Ha Hsem. unfold cl in *. clear cl.
  destruct Ha as (x & -> & Hm & He). destruct Hφ as [-> (r0 & Er & Hid)]. rewrite Er in Hrow.
  destruct Hrow as (?&?&?&?). unfold call_sem, repo_MarkSucceeded in Hsem.
  match type of Hsem with context [update_where _ ?cond0 ?f0 _] => set (f := f0) in Hsem; set (cond := cond0) in Hsem end.
  assert (Hd : transition κ pid (KWon pid x) d (KDone x) (snd (update_where id cond f d)) (Finished (Some x)) []).
  { eapply mark_transition; eauto; try done; simpl; rewrite ?Hm; auto; try by split_and!. intros p y Hp. split; congruence. }
  assert (Hs : transition κ pid (KWon pid x) d (KStuck [x]) d (Finished (Some x)) []).
  { split; rewrite ?Er; simpl; auto; try by split_and!.
    intros pid' ψ Hn. apply phase_fits_others with (pid := pid); auto; try done; intros p y Hp; congruence. }
  destruct Hsem as [[-> ->]|[-> [->| ->]]]; eauto.
Qed.

Lemma fail_call id reason l e r d' :
  let cl := MarkFailedRetryable id reason l e in
  allowed κ φ cl -> call_sem cl d r d' -> exists kst', transition κ pid kst d kst' d' (next φ cl r) (new_successes (call_log cl r)).
Proof.
  intros cl Ha Hsem. unfold cl in *. clear cl.
  destruct Ha as (-> & He). destruct Hφ as [-> (r0 & Er & Hid)]. rewrite Er in Hrow.
  destruct Hrow as (?&?&?&?). unfold call_sem, repo_MarkFailedRetryable in Hsem.
  match type of Hsem with context [update_where _ ?cond0 ?f0 _] => set (f := f0) in Hsem; set (cond := cond0) in Hsem end.
  assert (Hd : transition κ pid (KHeld pid) d KFailed (snd (update_where id cond f d)) (Finished None) []).
  { eapply mark_transition; eauto; try done; simpl; auto; try by split_and!. all: congruence. }
  assert (Hs : transition κ pid (KHeld pid) d (KStuck []) d (Finished None) []).
  { split; rewrite ?Er; simpl; auto; try by split_and!.
    intros pid' ψ Hn. apply phase_fits_others with (pid := pid); auto; try done; intros p y Hp; congruence. }
  destruct Hsem as [[-> ->]|[-> [->| ->]]]; eauto.
Qed.

Lemma call_transition {A} (cl : call A) r d' :
  allowed κ φ cl -> call_sem cl d r d' ->
  exists kst', transition κ pid kst d kst' d' (next φ cl r) (new_successes (call_log cl r)).
Proof.
  intros Ha Hsem. destruct cl;
    [ | by eapply create_call | by eapply get_call | by eapply reclaim_call | | by eapply execute_call | by eapply succeed_call
    | by eapply fail_call].
  - destruct Hsem as [_ ->]. exists kst. by apply transition_same.
  - destruct Hsem. exists kst. by apply transition_same.
Qed.
End of_call.

(** Away from its key a call changes nothing. *)
Definition ids_below (d : db) : Prop := forall κ r, rows d !! κ = Some r -> ID r < next_id d.

Record framed (κ : string * string) (d d' : db) : Prop := {
  fr_unique : ids_unique d';
  fr_next : next_id d <= next_id d';
  fr_rows : forall κ', κ' <> κ -> rows d' !! κ' = rows d !! κ'
}.

Lemma framed_same κ d : ids_unique d -> framed κ d d.
Proof. by split. Qed.

Lemma framed_update κ d r id cond f :
  ids_unique d -> rows d !! κ = Some r -> ID r = id -> (forall r, ID (f r) = ID r) ->
  framed κ d (snd (update_where id cond f d)).
Proof.
  intros Hu Hr Hid Hf. split; [by apply update_where_unique | done |].
  intros κ' Hn. by eapply update_where_other.
Qed.

Lemma call_framed {A} κ pid kst d φ (cl : call A) r d' :
  ids_unique d -> ids_below d -> phase_fits kst (rows d !! κ) pid φ -> allowed κ φ cl -> call_sem cl d r d' ->
  framed κ d d'.
Proof.
  intros Hu Hb Hφ Ha Hsem. assert (Hs := framed_same κ d Hu).
  destruct cl as [|rec|s h|id from now l e|id fp ttl| |id st body e|id reason l e].
  - by destruct Hsem as [_ ->].
  - destruct Ha as (-> & Hκ & _). unfold call_sem, repo_CreateProcessing in Hsem. rewrite Hκ in Hsem.
    destruct (rows d !! κ) as [r0|] eqn:Er; [by destruct Hsem as [[_ ->]|[_ [->| ->]]]|].
    assert (Hi : framed κ d (Db (<[κ := rec <| ID := next_id d |>]> (rows d)) (next_id d + 1))).
    { split; simpl; [|lia|intros; by rewrite lookup_insert_ne].
      intros κ1 κ2 r1 r2. simpl. rewrite !lookup_insert. repeat case_decide; subst.
      - done.
      - intros [= <-] H2 E. apply Hb in H2. simpl in E. lia.
      - intros H1 [= <-] E. apply Hb in H1. simpl in E. lia.
      - apply Hu. }
    by destruct Hsem as [[_ ->]|[_ [->| ->]]].
  - by destruct Hsem as [_ ->].
  - destruct Ha as (rec & -> & -> & _). destruct Hφ as [(r0 & Er & Hid) _]. unfold call_sem, repo_TryReclaim in Hsem.
    match type of Hsem with context [update_where ?i ?cond0 ?f0 _] =>
      assert (Hi := framed_update κ d r0 i cond0 f0 Hu Er Hid ltac:(done)); destruct (update_where i cond0 f0 d) as [b d1] end.
    by destruct Hsem as [[_ ->]|[_ [->| ->]]].
  - by destruct Hsem.
  - by destruct Hsem.
  - destruct Ha as (x & -> & _). destruct Hφ as [_ (r0 & Er & Hid)]. unfold call_sem, repo_MarkSucceeded in Hsem.
    match type of Hsem with context [update_where ?i ?cond0 ?f0 _] =>
      assert (Hi := framed_update κ d r0 i cond0 f0 Hu Er Hid ltac:(done)) end.
    by destruct Hsem as [[_ ->]|[_ [->| ->]]].
  - destruct Ha as (-> & _). destruct Hφ as [_ (r0 & Er & Hid)]. unfold call_sem, repo_MarkFailedRetryable in Hsem.
    match type of Hsem with context [update_where ?i ?cond0 ?f0 _] =>
      assert (Hi := framed_update κ d r0 i cond0 f0 Hu Er Hid ltac:(done)) end.
    by destruct Hsem as [[_ ->]|[_ [->| ->]]].
Qed.

(** An unkeyed request never touches the table. *)
Lemma unkeyed_call {A} κ (cl : call A) d r d' :
  allowed κ Unkeyed cl -> call_sem cl d r d' -> d' = d /\ next Unkeyed cl r = Unkeyed /\ reply_ok cl r.
Proof.
  intros Ha Hs. destruct cl; simpl in Ha, Hs; repeat match goal with H : _ /\ _ |- _ => destruct H | H : exists _, _ |- _ => destruct H end;
    by subst.
Qed.

Lemma call_reply_ok {A} κ kst (cl : call A) d r d' φ :
  row_fits κ kst (rows d !! κ) (next_id d) -> allowed κ φ cl -> call_sem cl d r d' -> reply_ok cl r.
Proof.
  intros Hrow Ha Hs. destruct cl as [|rec|s h|id from now l e|id fp ttl| |id st body e|id reason l e]; try exact I.
  - by destruct Hs.
  - destruct Ha as [Hκ _], Hs as [[->| ->] _]; [|done]. unfold repo_GetByScopeAndKeyHash. rewrite Hκ. simpl.
    destruct (rows d !! κ) as [r0|]; [|done]. by destruct Hrow as (_&_&?&_).
Qed.

Lemma call_renewals_fit {A} κ φ (cl : call A) :
  allowed κ φ cl -> Forall (fun '(_, _, ttl) => t1 <= t0 + ttl) (call_renewal cl).
Proof. intros Ha. destruct cl; simpl in *; repeat constructor. done. Qed.

Lemma successes_app κ l1 l2 : successes κ (l1 ++ l2) = successes κ l1 ++ successes κ l2.
Proof. apply omap_app. Qed.

Lemma successes_own κ l : successes κ (map (pair (Some κ)) l) = new_successes l.
Proof. unfold successes, new_successes. induction l as [|r l IH]; [done|]. simpl. rewrite bool_decide_true by done. destruct r; [f_equal|]; exact IH. Qed.

Lemma successes_other κ o l : o <> Some κ -> successes κ (map (pair o) l) = [].
Proof. intros H. unfold successes. induction l as [|r l IH]; [done|]. simpl. rewrite bool_decide_false by done. exact IH. Qed.

Lemma row_fits_next κ kst row n m : n <= m -> row_fits κ kst row n -> row_fits κ kst row m.
Proof. destruct row; simpl; [|done]. intros ? (?&?&?&?). split_and!; auto; lia. Qed.

Lemma invariant_below s : invariant s -> ids_below (table s).
Proof.
  intros (_ & _ & ph & _ & _ & Hk) κ r Hr. destruct (Hk κ) as (kst & Hrow & _). rewrite Hr in Hrow. by destruct Hrow as (_ & ? & _).
Qed.

Lemma invariant_start : invariant system_start.
Proof.
  split; [done|]. split; [constructor|]. exists ∅. split; [done|]. split; [done|].
  intros κ. exists KFree. split; [done|]. split; [done|]. split; [simpl; lia|]. done.
Qed.

Lemma invariant_request s pid opts :
  invariant s -> procs s !! pid = None -> t1 <= t0 + effective_ttl c opts ->
  invariant (System (table s) (<[pid := (opts, Execute c opts true)]> (procs s)) (renewals s) (executed s)).
Proof.
  intros (Hu & Hr & ph & Hn & Hp & Hk) Hpid Ht. split; [done|]. split; [done|].
  set (φ0 := match key_of opts with Some _ => Before None | None => Unkeyed end).
  exists (<[pid := φ0]> ph). simpl. split_and!.
  - intros q. rewrite !lookup_insert. case_decide; [done|]. apply Hn.
  - intros q o p. rewrite !lookup_insert. case_decide; [|apply Hp]. intros [= <- <-]. exists φ0.
    split_and!; [done | by apply Execute_follows |]. unfold φ0. intros ->. done.
  - intros κ. destruct (Hk κ) as (kst & H1 & H2 & H3 & H4). exists kst. split_and!; [done..|]. simpl.
    intros q o p φ. rewrite !lookup_insert. case_decide; [|apply H4]. intros [= <- <-] [= <-] Hκ. unfold φ0. by rewrite Hκ.
Qed.

Lemma invariant_renewal s id fp ttl now :
  invariant s -> (id, fp, ttl) ∈ renewals s -> t0 <= now < t1 ->
  invariant (System (snd (renewal_tick c id fp ttl now (table s))) (procs s) (renewals s) (executed s)).
Proof.
  intros (Hu & Hr & ph & Hn & Hp & Hk) Hin Hnow.
  assert (Ht : t1 <= time_Add now ttl).
  { rewrite Forall_forall in Hr. apply Hr in Hin. simpl in Hin. time_lia. }
  unfold renewal_tick, repo_ExtendProcessingLock. set (l := time_Add now (if _ <=? 0 then _ else _)).
  generalize dependent (time_Add now ttl). intros e Ht. clearbody l. simpl.
  split; [by apply update_where_unique|]. split; [done|]. exists ph. split_and!; [done..|].
  intros κ. destruct (Hk κ) as (kst & H1 & H2 & H3 & H4). exists kst. unfold key_fits. simpl.
  setoid_rewrite lookup_fmap. destruct (rows (table s) !! κ) as [r|] eqn:Er; [|by split_and!].
  destruct H1 as (K1 & K2 & K3 & K4). simpl.
  set (b := (ID r =? id) && _). set (r' := if b then _ else r).
  assert (Hr' : (Scope r', IdempotencyKeyHash r') = κ /\ ID r' = ID r /\ t1 <= ExpiresAt r' /\ Status r' = Status r /\
    ResponseBody r' = ResponseBody r) by (unfold r'; by destruct b).
  clearbody r' b. destruct Hr' as (K1' & Hid & K3' & Hs & Hb). split_and!; rewrite ?Hid, ?Hs, ?Hb; try done.
  intros q o p φ Hq Hφ Hκ. assert (H := H4 q o p φ Hq Hφ Hκ). clear -H Hid Hb.
  apply phase_fits_others with kst (Some r) (S q); auto.
  intros i (x & [= <-] & ?). exists r'. split; congruence.
Qed.

Lemma invariant_call {A} s pid opts (cl : call A) k r d' :
  invariant s -> procs s !! pid = Some (opts, Do cl k) -> call_sem cl (table s) r d' ->
  invariant (System d' (<[pid := (opts, k r)]> (procs s)) (renewals s ++ call_renewal cl)
              (executed s ++ map (pair (key_of opts)) (call_log cl r))).
Proof.
  intros Hinv Hpid Hsem. assert (Hbelow := invariant_below s Hinv). destruct Hinv as (Hu & Hr & ph & Hn & Hp & Hk).
  destruct (Hp pid opts _ Hpid) as (φ & Hφ & [Ha Hf] & Hunk).
  remember (default ("", "") (key_of opts)) as κ eqn:Hκ0.
  assert (Hren : Forall (fun '(_, _, ttl) => t1 <= t0 + ttl) (renewals s ++ call_renewal cl))
    by (apply Forall_app; split; [done | by eapply call_renewals_fit]).
  assert (Hprocs : reply_ok cl r -> (key_of opts = None -> next φ cl r = Unkeyed) ->
    let ph' := <[pid := next φ cl r]> ph in
    (forall q, <[pid := (opts, k r)]> (procs s) !! q = None -> ph' !! q = None) /\
    (forall q o p, <[pid := (opts, k r)]> (procs s) !! q = Some (o, p) ->
       exists φ, ph' !! q = Some φ /\ follows (default ("", "") (key_of o)) φ p /\ (key_of o = None -> φ = Unkeyed))).
  { intros Hok Hn'. simpl. split; intros q; rewrite !lookup_insert; case_decide; try done; [apply Hn| |apply Hp].
    intros o p [= <- <-]. eexists. rewrite <- Hκ0. split_and!; [done | by apply Hf | done]. }
  destruct (key_of opts) as [κ'|] eqn:Eκ; simpl in Hκ0.
  - subst κ'. destruct (Hk κ) as (kst & H1 & H2 & H3 & H4).
    assert (Hfit := H4 pid opts _ φ Hpid Hφ Eκ).
    assert (Hfr := call_framed κ pid kst (table s) φ cl r d' Hu Hbelow Hfit Ha Hsem).
    destruct (call_transition κ pid kst (table s) φ Hu H1 H3 Hfit cl r d' Ha Hsem) as (kst' & Htr).
    destruct (Hprocs ltac:(by eapply call_reply_ok) ltac:(done)) as [Hn' Hp'].
    split; [apply Hfr|]. split; [done|]. eexists. split_and!; [exact Hn' | exact Hp' |].
    intros κ1. destruct (decide (κ1 = κ)) as [->|Hne].
    + exists kst'. split_and!; simpl; [by eapply tr_row | | by eapply tr_once |].
      * rewrite successes_app, successes_own, H2. symmetry. by eapply tr_successes.
      * intros q o p ψ. rewrite !lookup_insert. case_decide as Eq; [intros [= <- <-] [= <-] _; subst q; exact (tr_phase _ _ _ _ _ _ _ _ Htr)|].
        intros Hq Hψ Ho. eapply tr_others; [exact Htr | done |]. by eapply H4.
    + destruct (Hk κ1) as (kst1 & K1 & K2 & K3 & K4). exists kst1. unfold key_fits. simpl. rewrite (fr_rows _ _ _ Hfr κ1 Hne).
      split_and!; [eapply row_fits_next; [apply Hfr | done] | | done |].
      * rewrite successes_app, successes_other by congruence. by rewrite app_nil_r.
      * intros q o p ψ. rewrite !lookup_insert. case_decide as Eq; [|by apply K4]. intros [= <- <-] _ Ho. congruence.
  - rewrite (Hunk eq_refl) in *. destruct (unkeyed_call κ cl _ r d' Ha Hsem) as (-> & Hnext & Hok). rewrite Hnext in *.
    destruct (Hprocs Hok ltac:(done)) as [Hn' Hp'].
    split; [done|]. split; [done|]. eexists. split_and!; [exact Hn' | exact Hp' |].
    intros κ1. destruct (Hk κ1) as (kst1 & K1 & K2 & K3 & K4). exists kst1. unfold key_fits. simpl.
    split_and!; [done | | done |].
    + rewrite successes_app, successes_other by done. by rewrite app_nil_r.
    + intros q o p ψ. rewrite !lookup_insert. case_decide as Eq; [|by apply K4]. intros [= <- <-] _ Ho. congruence.
Qed.

Lemma invariant_reachable s : reachable s -> invariant s.
Proof.
  intros H. refine (rtc_ind_r invariant system_start invariant_start _ s H).
  intros s1 s2 _ Hstep IH. destruct Hstep; [by apply invariant_request | by apply invariant_call | by apply invariant_renewal].
Qed.

(** *** Schedules: an executable scheduler of the steps *)

Inductive event :=
| Arrives (pid : nat) (opts : IdempotencyExecuteOptions)
| Proceeds (pid : nat) (now : Time) (result : outcome Data Failure) (failing : option bool)   (* [Some applied]: the call fails *)
| Ticks (id : Z) (fp : string) (ttl : Duration) (now : Time).

Definition may_fail {A} (failing : option bool) (a : A) (d d1 : db) : outcome A unit * db :=
  match failing with
  | None => (Ok a, d1)
  | Some applied => (Err tt, if applied then d1 else d)
  end.

Definition answer {A} (cl : call A) (now : Time) (result : outcome Data Failure) (failing : option bool) (d : db) : A * db :=
  match cl in call A return A * db with
  | Now => (now, d)
  | CreateProcessing r => let '(o, d1) := repo_CreateProcessing r d in may_fail failing o d d1
  | GetByScopeAndKeyHash s h => may_fail failing (repo_GetByScopeAndKeyHash s h d) d d
  | TryReclaim id from now l e => let '(b, d1) := repo_TryReclaim id from now l e d in may_fail failing b d d1
  | StartRenewal _ _ _ => (tt, d)
  | RunExecute => (result, d)
  | MarkSucceeded id s b e => may_fail failing tt d (repo_MarkSucceeded id s b e d)
  | MarkFailedRetryable id b l e => may_fail failing tt d (repo_MarkFailedRetryable id b l e d)
  end.

Definition happen (s : system) (e : event) : option system :=
  match e with
  | Arrives pid opts =>
      if bool_decide (procs s !! pid = None) && (t1 <=? t0 + effective_ttl c opts)
      then Some (System (table s) (<[pid := (opts, Execute c opts true)]> (procs s)) (renewals s) (executed s))
      else None
  | Proceeds pid now result failing =>
      match procs s !! pid with
      | Some (opts, Do cl k) =>
          if (t0 <=? now) && (now <? t1) then
            let '(r, d') := answer cl now result failing (table s) in
            Some (System d' (<[pid := (opts, k r)]> (procs s)) (renewals s ++ call_renewal cl)
                    (executed s ++ map (pair (key_of opts)) (call_log cl r)))
          else None
      | _ => None
      end
  | Ticks id fp ttl now =>
      if bool_decide ((id, fp, ttl) ∈ renewals s) && (t0 <=? now) && (now <? t1)
      then Some (System (snd (renewal_tick c id fp ttl now (table s))) (procs s) (renewals s) (executed s))
      else None
  end.

Fixpoint play (s : system) (schedule : list event) : option system :=
  match schedule with
  | [] => Some s
  | e :: schedule => match happen s e with Some s' => play s' schedule | None => None end
  end.

Lemma answer_sem {A} (cl : call A) now result failing d :
  t0 <= now < t1 -> call_sem cl d (fst (answer cl now result failing d)) (snd (answer cl now result failing d)).
Proof.
  intros Hn. destruct cl; unfold answer, call_sem, may_fail; try done;
    try destruct (repo_CreateProcessing _ _); try destruct (repo_TryReclaim _ _ _ _ _ _);
    destruct failing as [[]|]; simpl; auto.
Qed.

Lemma happen_step s e s' : happen s e = Some s' -> step s s'.
Proof.
  destruct e as [pid opts|pid now result failing|id fp ttl now]; simpl.
  - case_bool_decide; [|done]. destruct (_ <=? _) eqn:E; [|done]. intros [= <-]. apply step_request; [done|lia].
  - destruct (procs s !! pid) as [[opts [r|A cl k]]|] eqn:Ep; try done. destruct (_ && _) eqn:En; [|done].
    assert (Hs := answer_sem cl now result failing (table s) ltac:(lia)). destruct (answer _ _ _ _ _) as [r d'].
    intros [= <-]. by eapply step_call.
  - case_bool_decide; [|done]. destruct (_ && _) eqn:En; [|done]. intros [= <-]. apply step_renewal; [done|]. simpl in En. lia.
Qed.

Lemma play_reachable schedule s s' : reachable s -> play s schedule = Some s' -> reachable s'.
Proof.
  revert s. induction schedule as [|e l IH]; intros s H; simpl; [by intros [= <-]|].
  destruct (happen s e) as [s1|] eqn:E; [|done]. apply IH. eapply rtc_r; [exact H|]. by eapply happen_step.
Qed.

(** *** At most once *)

Lemma reachable_key s : reachable s -> exists ph : gmap nat phase,
  (forall pid opts p κ, procs s !! pid = Some (opts, p) -> key_of opts = Some κ ->
    exists φ kst, ph !! pid = Some φ /\ follows κ φ p /\ key_fits κ s ph kst /\ phase_fits kst (rows (table s) !! κ) pid φ) /\
  forall κ, exists kst, key_fits κ s ph kst.
Proof.
  intros H. apply invariant_reachable in H as (_ & _ & ph & _ & Hp & Hk). exists ph. split; [|done].
  intros pid opts p κ Hpid Hκ. destruct (Hp pid opts p Hpid) as (φ & Hφ & Hf & _). rewrite Hκ in Hf.
  destruct (Hk κ) as (kst & HK). assert (HK' := HK). destruct HK' as (_ & _ & _ & H4). exists φ, kst. split_and!; eauto.
Qed.

(** C4: [Execute] runs the executor successfully at most once per idempotency
    key.  In every state the concurrent requests of the window can reach -
    any number of them, their atomic calls interleaved in any order, any
    repository call failing before or after taking effect - the successful
    executions of one key number at most one, at most one process of the key
    is about to execute, and none is once an execution has succeeded. *)
Theorem executes_at_most_once s κ :
  reachable s ->
  (length (successes κ (executed s)) <= 1)%nat /\
  (forall pid opts k, procs s !! pid = Some (opts, Do RunExecute k) -> key_of opts = Some κ ->
     successes κ (executed s) = [] /\
     forall pid' opts' k', procs s !! pid' = Some (opts', Do RunExecute k') -> key_of opts' = Some κ -> pid' = pid).
Proof.
  intros H. destruct (reachable_key s H) as (ph & Hp & Hk). split.
  - destruct (Hk κ) as (kst & _ & -> & ? & _). done.
  - assert (Hrun : forall pid opts k, procs s !! pid = Some (opts, Do RunExecute k) -> key_of opts = Some κ ->
      key_fits κ s ph (KHeld pid)).
    { intros pid opts k Hpid Hκ. destruct (Hp _ _ _ _ Hpid Hκ) as (φ & kst & _ & [Ha _] & HK & Hfit).
      destruct Ha as [->|[id ->]]; [done|]. by destruct Hfit as [-> _]. }
    intros pid opts k Hpid Hκ. assert (HK := Hrun _ _ _ Hpid Hκ). split; [apply HK|].
    intros pid' opts' k' Hpid' Hκ'. destruct (Hp _ _ _ _ Hpid' Hκ') as (φ & kst & Hφ & [Ha _] & _).
    destruct HK as (_ & _ & _ & H4). assert (Hfit := H4 _ _ _ _ Hpid' Hφ Hκ').
    destruct Ha as [->|[id ->]]; [done|]. destruct Hfit as [[= <-] _]. done.
Qed.

(** C25: every successful answer to a keyed request comes from the one
    successful execution of its key: the executing request answers its own
    data, and a replay answers what decoding the stored (redacted, possibly
    truncated) form of that data gives. *)
Theorem answers_come_from_the_execution s pid opts κ d replayed :
  reachable s -> procs s !! pid = Some (opts, Ret (Ok (Result d replayed))) -> key_of opts = Some κ ->
  exists d0, successes κ (executed s) = [d0] /\
    if replayed then decodeStoredResponse (marshalStoredResponse (cfg c) d0) = Some d else d = d0.
Proof.
  intros H Hpid Hκ. destruct (reachable_key s H) as (ph & Hp & _).
  destruct (Hp _ _ _ _ Hpid Hκ) as (φ & kst & _ & Hf & (_ & Hs & _) & Hfit). destruct replayed; simpl in Hf.
  - destruct Hf as (rec & -> & Hst & Hd). destruct Hfit as [_ Hdone]. destruct (Hdone Hst) as (d0 & -> & Hb).
    exists d0. rewrite <- Hb. by split.
  - destruct Hf as [->| ->]; [done|]. destruct Hfit as [Hw _]. exists d. by rewrite Hs.
Qed.


(** *** Every request answers *)

(** At most [n] calls to an answer, at most [x] of them the execution. *)
Fixpoint answers_within (n x : nat) (p : prog) {struct p} : Prop :=
  match p with
  | Ret _ => True
  | Do cl k =>
      match n with
      | O => False
      | S n =>
          match call_executes cl, x with
          | false, _ => forall r, answers_within n x (k r)
          | true, S x => forall r, answers_within n x (k r)
          | true, O => False
          end
      end
  end.


Lemma answers_more n m x y p : (n <= m)%nat -> (x <= y)%nat -> answers_within n x p -> answers_within m y p.
Proof.
  revert n m x y. induction p as [r|A cl k IH]; intros n m x y Hn Hx; simpl; [done|].
  destruct n as [|n]; [done|]. destruct m as [|m]; [lia|]. destruct (call_executes cl).
  - destruct x as [|x]; [done|]. destruct y as [|y]; [lia|]. intros H r. eapply IH; [| |apply H]; lia.
  - intros H r. eapply IH; [| |apply H]; lia.
Qed.

Lemma execute_claimed_answers opts id fp ttl e : answers_within 5 1 (execute_claimed c opts id fp ttl e).
Proof.
  unfold execute_claimed, result_expiry. destruct (id =? 0); [done|].
  destruct (0 <? opt_ExecutionTimeout opts); simpl; intros; repeat case_match; simpl; try done; intros; repeat case_match; done.
Qed.

Lemma answer_existing_answers opts rec now l e claimed :
  (forall id, answers_within 5 1 (claimed id)) -> answers_within 6 1 (answer_existing c opts rec now l e claimed).
Proof.
  intros Hc. unfold answer_existing. destruct (Status rec =s _); [by destruct (decodeStoredResponse _)|].
  destruct (Status rec =s _); [done|]. destruct (Status rec =s _); [|done].
  destruct (match LockedUntil rec with Some _ => _ | None => _ end); [done|].
  simpl. intros [[]|]; [apply Hc | done | done].
Qed.

(** [Execute] answers after at most eleven calls - clock readings,
    repository calls, the execution - whatever these answer, and runs the
    executor at most once. *)
Theorem Execute_terminates opts has_execute : answers_within 11 1 (Execute c opts has_execute).
Proof.
  unfold Execute. destruct has_execute; [|done]. simpl negb. cbv iota.
  destruct (NormalizeIdempotencyKey _) as [key|]; [|done].
  destruct (key =s ""); [destruct (_ && _); [done|]; simpl; by intros []|].
  destruct (negb (has_repo c)); [done|]. destruct (opt_Scope opts =s ""); [done|].
  destruct (BuildIdempotencyFingerprint _ _ _ _) as [fp|]; [|done]. unfold execute_keyed. cbv zeta. simpl.
  intros now. assert (Hc := fun id => execute_claimed_answers opts id fp (effective_ttl c opts) (time_Add now (effective_ttl c opts))).
  assert (He := fun rec => answer_existing_answers opts rec now (time_Add now (ProcessingTimeout (cfg c)))
    (time_Add now (effective_ttl c opts)) _ Hc).
  intros [[id|]|]; [by eapply answers_more; [| |apply Hc]; lia | | done].
  intros [[rec|]|]; try done. destruct (negb (_ =s fp)); [done|].
  destruct (negb (After _ now)); [|by eapply answers_more; [| |apply He]; lia].
  intros [[]|[]]; [by eapply answers_more; [| |apply Hc]; lia | | done].
  intros [[latest|]|]; try done. destruct (negb (_ =s fp)); [done|]. by eapply answers_more; [| |apply He]; lia.
Qed.

(** *** One request alone *)

(** Everything a run of a program can do when no other request interferes. *)
Fixpoint evaluates (p : prog) (d : db) (r : outcome IdempotencyExecuteResult failure) (d' : db)
    (log : list (outcome Data Failure)) : Prop :=
  match p with
  | Ret r0 => r = r0 /\ d' = d /\ log = []
  | Do cl k => exists a d1 log', call_sem cl d a d1 /\ evaluates (k a) d1 r d' log' /\ log = call_log cl a ++ log'
  end.

(** The run at a frozen clock in which every call succeeds. *)
Fixpoint run_alone (now : Time) (result : outcome Data Failure) (p : prog) (d : db)
    : outcome IdempotencyExecuteResult failure * db * list (outcome Data Failure) :=
  match p with
  | Ret r => (r, d, [])
  | Do cl k =>
      let '(a, d1) := answer cl now result None d in
      let '(r, d2, log) := run_alone now result (k a) d1 in
      (r, d2, call_log cl a ++ log)
  end.

Lemma run_evaluates now result p d r d' log :
  t0 <= now < t1 -> run_alone now result p d = (r, d', log) -> evaluates p d r d' log.
Proof.
  intros Hn. revert d r d' log. induction p as [r0|A cl k IH]; intros d r d' log; simpl; [by intros [= <- <- <-]|].
  assert (Hs := answer_sem cl now result None d Hn). destruct (answer cl now result None d) as [a d1]. simpl in Hs.
  destruct (run_alone now result (k a) d1) as [[r1 d2] log1] eqn:E. intros [= <- <- <-]. exists a, d1, log1. split_and!; auto.
Qed.

(** A request that passes the checks of [Execute]. *)
Record accepted (opts : IdempotencyExecuteOptions) (κ : string * string) (fp : string) : Prop := {
  acc_repo : has_repo c = true;
  acc_key : key_of opts = Some κ;
  acc_scope : opt_Scope opts <> "";
  acc_fingerprint : BuildIdempotencyFingerprint (opt_Method opts) (opt_Route opts) (opt_ActorScope opts) (opt_Payload opts) = Ok fp
}.

Lemma Execute_accepted opts κ fp :
  accepted opts κ fp -> exists key, Execute c opts true = execute_keyed c opts key fp /\ κ = (opt_Scope opts, HashIdempotencyKey key).
Proof.
  intros [Hr Hk Hs Hf]. unfold key_of in Hk. unfold Execute. destruct (NormalizeIdempotencyKey _) as [key|]; [|done].
  destruct (key =s ""); [done|]. injection Hk as <-. exists key. rewrite Hr, Hf. simpl.
  apply String.eqb_neq in Hs. by rewrite Hs.
Qed.

(** a key is bound to the request that first used it: while its record
    exists, a request with the same key and scope but another method, route,
    actor or payload is rejected - as a conflict, or as unavailable when the
    repository fails - without executing and without touching the table. *)
Theorem other_request_rejected opts κ fp d rec r d' log :
  accepted opts κ fp -> rows d !! κ = Some rec -> RequestFingerprint rec <> fp ->
  evaluates (Execute c opts true) d r d' log ->
  (r = Err (AppFailure ErrIdempotencyKeyConflict) \/ r = Err (AppFailure ErrIdempotencyStoreUnavail)) /\ d' = d /\ log = [].
Proof.
  intros Ha Hrec Hfp H. destruct (Execute_accepted _ _ _ Ha) as (key & E & Hκ). rewrite E in H. clear E.
  unfold execute_keyed in H. cbv zeta in H. simpl evaluates in H.
  destruct H as (now & d1 & log1 & [_ ->] & H & ->). destruct H as (a & d1 & log2 & Hc & H & ->).
  unfold call_sem, repo_CreateProcessing in Hc. simpl in Hc. rewrite <- Hκ, Hrec in Hc.
  assert (d1 = d) as -> by (destruct Hc as [[_ ->]|[_ [->| ->]]]; done).
  assert (a = Ok None \/ a = Err tt) as [->| ->] by (destruct Hc as [[-> _]|[-> _]]; auto);
    [|destruct H as (-> & -> & ->); auto].
  destruct H as (g & d1 & log3 & [Hg ->] & H & ->). unfold repo_GetByScopeAndKeyHash in Hg. rewrite <- Hκ, Hrec in Hg.
  destruct Hg as [->| ->]; [|destruct H as (-> & -> & ->); auto].
  apply String.eqb_neq in Hfp. rewrite Hfp in H. destruct H as (-> & -> & ->). auto.
Qed.


(** *** The life of a key, one request after another *)

Lemma update_where_row id cond f d κ r :
  rows d !! κ = Some r -> ID r = id -> cond r = true ->
  rows (snd (update_where id cond f d)) !! κ = Some (f r) /\ fst (update_where id cond f d) = true.
Proof.
  intros Hr Hid Hc. split; [rewrite update_where_rows, Hr; simpl; by rewrite Hid, Z.eqb_refl, Hc|].
  unfold update_where. simpl. rewrite bool_decide_false; [done|]. intros He.
  assert (Hf := map_empty_filter_1 _ _ He). apply (Hf κ r Hr). simpl. by rewrite Hid, Z.eqb_refl, Hc.
Qed.

Lemma run_Do {A} now result (cl : call A) k d :
  run_alone now result (Do cl k) d =
  (let '(a, d1) := answer cl now result None d in
   let '(r, d2, log) := run_alone now result (k a) d1 in (r, d2, call_log cl a ++ log)).
Proof. done. Qed.

(** What is left of a claimed request at a frozen clock. *)
Lemma run_claimed opts id fp now result d κ rec :
  id <> 0 -> rows d !! κ = Some rec -> ID rec = id ->
  let ttl := effective_ttl c opts in
  let run := run_alone now result (execute_claimed c opts id fp ttl (time_Add now ttl)) d in
  match result with
  | Ok data => forall body, marshalStoredResponse (cfg c) data = Some body -> exists d1 rec1,
      run = (Ok (Result data false), d1, [result]) /\ rows d1 !! κ = Some rec1 /\ Status rec1 = IdempotencyStatusSucceeded /\
      ResponseBody rec1 = Some body /\ ExpiresAt rec1 = time_Add now ttl /\ RequestFingerprint rec1 = RequestFingerprint rec
  | Err x => exists d1 rec1,
      run = (Err (ExecFailure x), d1, [result]) /\ rows d1 !! κ = Some rec1 /\ Status rec1 = IdempotencyStatusFailedRetryable /\
      LockedUntil rec1 = Some (time_Add now (FailedRetryBackoff (cfg c))) /\ ExpiresAt rec1 = time_Add now ttl /\
      RequestFingerprint rec1 = RequestFingerprint rec /\ ID rec1 = id
  end.
Proof.
  intros Hid Hrec Hrid ttl run.
  assert (E : run = run_alone now result (Do RunExecute (fun result =>
      match result with
      | Err execErr => Do Now (fun now => Do (MarkFailedRetryable id
          (if Reason execErr =s "" then "EXECUTION_FAILED" else Reason execErr)
          (time_Add now (FailedRetryBackoff (cfg c))) (time_Add now ttl)) (fun _ => Ret (Err (ExecFailure execErr))))
      | Ok data =>
          match marshalStoredResponse (cfg c) data with
          | None => unavailable
          | Some storedBody => Do (MarkSucceeded id 200 storedBody (time_Add now ttl)) (fun marked =>
              match marked with Err _ => unavailable | Ok _ => Ret (Ok (Result data false)) end)
          end
      end)) d).
  { unfold run, execute_claimed, result_expiry. apply Z.eqb_neq in Hid. rewrite Hid.
    destruct (0 <? opt_ExecutionTimeout opts), result as [a|x]; simpl; try done; by destruct (marshalStoredResponse (cfg c) a). }
  rewrite E. destruct result as [data|x].
  - intros body Hb. simpl. rewrite Hb. simpl. eexists _, _. split; [done|].
    split; [apply (update_where_row id (fun _ => true) _ d κ rec Hrec Hrid eq_refl)|]. done.
  - simpl. eexists _, _. split; [done|].
    split; [apply (update_where_row id (fun _ => true) _ d κ rec Hrec Hrid eq_refl)|]. done.
Qed.

(** A request on a fresh key claims it. *)
Lemma run_fresh opts κ fp now result d :
  accepted opts κ fp -> rows d !! κ = None -> exists d0 rec,
  rows d0 !! κ = Some rec /\ ID rec = next_id d /\ RequestFingerprint rec = fp /\
  run_alone now result (Execute c opts true) d =
  run_alone now result (execute_claimed c opts (next_id d) fp (effective_ttl c opts) (time_Add now (effective_ttl c opts))) d0.
Proof.
  intros Ha Hnone. destruct (Execute_accepted _ _ _ Ha) as (key & -> & Hκ).
  unfold execute_keyed. cbv zeta. rewrite run_Do. simpl answer. cbv iota beta. rewrite run_Do.
  unfold answer, repo_CreateProcessing. simpl. rewrite <- Hκ, Hnone. simpl.
  match goal with |- context [Db (<[κ := ?r]> ?m) ?n] => exists (Db (<[κ := r]> m) n), r end. simpl.
  rewrite lookup_insert_eq. split; [done|]. split; [done|]. split; [done|]. by destruct (run_alone _ _ _ _) as [[? ?] ?].
Qed.

(** A request on a known, unexpired key with the key's fingerprint answers
    what [answer_existing] says. *)
Lemma run_known opts κ fp now result d rec :
  accepted opts κ fp -> rows d !! κ = Some rec -> RequestFingerprint rec = fp -> now < ExpiresAt rec ->
  run_alone now result (Execute c opts true) d =
  run_alone now result (answer_existing c opts rec now (time_Add now (ProcessingTimeout (cfg c)))
    (time_Add now (effective_ttl c opts))
    (fun id => execute_claimed c opts id fp (effective_ttl c opts) (time_Add now (effective_ttl c opts)))) d.
Proof.
  intros Ha Hrec Hfp He. destruct (Execute_accepted _ _ _ Ha) as (key & -> & Hκ).
  unfold execute_keyed. cbv zeta. rewrite run_Do. simpl answer. cbv iota beta. rewrite run_Do.
  unfold answer at 1, repo_CreateProcessing. simpl. rewrite <- Hκ, Hrec. simpl.
  unfold repo_GetByScopeAndKeyHash. rewrite <- Hκ, Hrec, Hfp, String.eqb_refl. unfold After. apply Z.ltb_lt in He. rewrite He. simpl.
  by destruct (run_alone _ _ _ _) as [[? ?] ?].
Qed.

(** execute once, then replay.  On a fresh key the executor runs and its
    data is answered; from then until the record expires, every request with
    the same key and content is answered from the stored response, without
    executing and without changing the table.  (When the stored form does not
    decode - a truncated body - the replay is refused as unavailable.) *)
Theorem executed_key_replays opts κ fp now data body d :
  accepted opts κ fp -> rows d !! κ = None -> 0 < next_id d -> marshalStoredResponse (cfg c) data = Some body ->
  exists d1, run_alone now (Ok data) (Execute c opts true) d = (Ok (Result data false), d1, [Ok data]) /\
  forall opts2 now2 result, accepted opts2 κ fp -> now2 < time_Add now (effective_ttl c opts) ->
    run_alone now2 result (Execute c opts2 true) d1 =
    (match decodeStoredResponse (Some body) with
     | Some stored => Ok (Result stored true)
     | None => Err (AppFailure ErrIdempotencyStoreUnavail)
     end, d1, []).
Proof.
  intros Ha Hnone Hid Hb. destruct (run_fresh opts κ fp now (Ok data) d Ha Hnone) as (d0 & rec & Hrec & Hrid & Hfp & ->).
  destruct (run_claimed opts (next_id d) fp now (Ok data) d0 κ rec ltac:(lia) Hrec Hrid body Hb)
    as (d1 & rec1 & -> & Hrec1 & Hst & Hbody & He & Hfp1).
  exists d1. split; [done|]. intros opts2 now2 result Ha2 Hnow.
  rewrite (run_known opts2 κ fp now2 result d1 rec1 Ha2 Hrec1) by (congruence || by rewrite He).
  unfold answer_existing. rewrite Hst, Hbody. simpl String.eqb. cbv iota. by destruct (decodeStoredResponse (Some body)).
Qed.

Lemma retry_after_conflict e lockedUntil now :
  RetryAfterSecondsFromError (conflictWithRetryAfter e (Some lockedUntil) now) =
  Z.max 1 (whole_seconds (time_Sub lockedUntil now)).
Proof.
  unfold RetryAfterSecondsFromError, conflictWithRetryAfter. simpl Metadata.
  set (sec := if _ <=? 0 then _ else _).
  assert (Hs : sec = Z.max 1 (whole_seconds (time_Sub lockedUntil now))) by (unfold sec; destruct (_ <=? 0) eqn:E; lia).
  assert (Hb : 1 <= sec <= int64_max).
  { rewrite Hs. assert (H : time_Sub lockedUntil now <= int64_max) by (unfold time_Sub, int64_max, int64_min; lia).
    apply (Z.quot_le_mono _ _ Second ltac:(done)) in H. fold (whole_seconds (time_Sub lockedUntil now)) in H.
    change (int64_max ÷ Second) with 9223372036 in H. unfold int64_max. lia. }
  rewrite lookup_singleton_eq. simpl default. rewrite TrimSpace_Itoa, Atoi_Itoa by lia.
  assert (Hn := Itoa_nonempty sec ltac:(lia)). apply String.eqb_neq in Hn. rewrite Hn.
  replace (sec <=? 0) with false by lia. exact Hs.
Qed.

(** C31: a failed execution may be retried, after the backoff.  The executor's
    error is answered and recorded; before the backoff has passed the same
    request is refused with 409, a Retry-After of the remaining seconds (at
    least one) and nothing executed or changed; afterwards it executes. *)
Theorem failed_execution_retried opts κ fp now x d :
  accepted opts κ fp -> rows d !! κ = None -> 0 < next_id d ->
  let retry_at := time_Add now (FailedRetryBackoff (cfg c)) in
  let expires := time_Add now (effective_ttl c opts) in
  exists d1, run_alone now (Err x) (Execute c opts true) d = (Err (ExecFailure x), d1, [Err x]) /\
  (forall now2 result, now2 < retry_at -> now2 < expires -> exists e,
     run_alone now2 result (Execute c opts true) d1 = (Err (AppFailure e), d1, []) /\ Code e = 409 /\
     ErrReason e = "IDEMPOTENCY_RETRY_BACKOFF" /\ RetryAfterSecondsFromError e = Z.max 1 (whole_seconds (time_Sub retry_at now2))) /\
  (forall now2 data body, retry_at <= now2 -> now2 < expires -> marshalStoredResponse (cfg c) data = Some body ->
     exists d2, run_alone now2 (Ok data) (Execute c opts true) d1 = (Ok (Result data false), d2, [Ok data])).
Proof.
  intros Ha Hnone Hid retry_at expires.
  destruct (run_fresh opts κ fp now (Err x) d Ha Hnone) as (d0 & rec & Hrec & Hrid & Hfp & ->).
  destruct (run_claimed opts (next_id d) fp now (Err x) d0 κ rec ltac:(lia) Hrec Hrid)
    as (d1 & rec1 & -> & Hrec1 & Hst & Hlock & He & Hfp1 & Hid1).
  fold retry_at in Hlock. fold expires in He. exists d1. split; [done|]. split.
  - intros now2 result Hb Hx. rewrite (run_known opts κ fp now2 result d1 rec1 Ha Hrec1) by (congruence || lia).
    unfold answer_existing. rewrite Hst, Hlock. simpl. unfold After. apply Z.ltb_lt in Hb. rewrite Hb.
    eexists. split_and!; [done..|]. apply retry_after_conflict.
  - intros now2 data body Hb Hx Hm. rewrite (run_known opts κ fp now2 (Ok data) d1 rec1 Ha Hrec1) by (congruence || lia).
    unfold answer_existing. rewrite Hst, Hlock. simpl String.eqb. cbv iota.
    replace (After retry_at now2) with false by (unfold After; lia). cbv iota. rewrite run_Do. unfold answer, repo_TryReclaim.
    set (cond := fun r => (Status r =s IdempotencyStatusFailedRetryable) && _).
    match goal with |- context [update_where _ cond ?g _] => set (f := g) end.
    assert (Hc : cond rec1 = true) by (unfold cond; rewrite Hst, Hlock; simpl; lia).
    destruct (update_where_row (ID rec1) cond f d1 κ rec1 Hrec1 eq_refl Hc) as [Hrow Htaken].
    destruct (update_where (ID rec1) cond f d1) as [b d2]. simpl in Hrow, Htaken. subst b. simpl may_fail. cbv iota beta.
    destruct (run_claimed opts (ID rec1) fp now2 (Ok data) d2 κ (f rec1) ltac:(lia) Hrow eq_refl body Hm) as (d3 & _ & -> & _).
    by exists d3.
Qed.


Lemma play_default schedule s : reachable s -> reachable (default s (play s schedule)).
Proof. intros H. destruct (play s schedule) as [s'|] eqn:E; [by eapply play_reachable|done]. Qed.

End coordinator.

(** ** Keys and stored bodies *)

Definition printable (s : string) : Prop := Forall (fun c => 33 <= byte_of c <= 126) (to_bytes s).

Lemma key_runes_ok_printable n l : (length l <= n)%nat -> key_runes_ok n l = true <-> Forall (fun c => 33 <= byte_of c <= 126) l.
Proof.
  revert l. induction n as [|n IH]; intros l Hl; [destruct l; simpl in *; [done|lia]|].
  destruct l as [|a t]; [done|]. simpl in Hl.
  change (key_runes_ok (S n) (a :: t)) with
    (let '(r, w) := Json.decode_rune (a :: t) in negb ((r <? 33) || (126 <? r)) && key_runes_ok n (drop w (a :: t))).
  destruct (Json.decode_rune (a :: t)) as [r w] eqn:Ed. split.
  - intros H. apply andb_true_iff in H as [Hr Ht].
    destruct (Json.decode_rune_ascii _ _ _ Ed ltac:(done) ltac:(lia)) as (a' & t' & [= <- <-] & -> & ->).
    constructor; [lia|]. apply IH; [lia|]. exact Ht.
  - intros H. inversion H as [|? ? Ha Ht]; subst. unfold Json.decode_rune in Ed.
    replace (byte_of a <? 128) with true in Ed by lia. injection Ed as <- <-.
    apply andb_true_iff. split; [lia|]. simpl. rewrite drop_0. apply IH; [lia|done].
Qed.

(** [NormalizeIdempotencyKey] accepts exactly the keys that are, trimmed,
    of at most 128 bytes of printable ASCII without blanks; what it returns
    it returns again unchanged. *)
Theorem NormalizeIdempotencyKey_spec raw :
  match NormalizeIdempotencyKey raw with
  | Ok key => key = TrimSpace raw /\ len key <= 128 /\ printable key /\ NormalizeIdempotencyKey key = Ok key
  | Err e => e = ErrIdempotencyKeyInvalid /\ ~ (len (TrimSpace raw) <= 128 /\ printable (TrimSpace raw))
  end.
Proof.
  unfold NormalizeIdempotencyKey. destruct (TrimSpace raw =s "") eqn:E0.
  { apply String.eqb_eq in E0. rewrite E0. split_and!; [done | by vm_compute | constructor | done]. }
  assert (Hk := key_runes_ok_printable (String.length (TrimSpace raw)) (to_bytes (TrimSpace raw))).
  rewrite Json.length_to_bytes in Hk. specialize (Hk ltac:(lia)).
  destruct (128 <? len (TrimSpace raw)) eqn:El; [split; [done|]; intros [? _]; lia|].
  destruct (key_runes_ok _ _) eqn:Er.
  - assert (Hp : printable (TrimSpace raw)) by (by apply Hk). split_and!; [done | lia | done |].
    rewrite (TrimSpace_printable _ Hp), E0, El, Er. done.
  - split; [done|]. intros [_ Hp]. apply Hk in Hp. congruence.
Qed.

Lemma shrink_to_valid_spec n s :
  let k := shrink_to_valid n s in
  (k <= n)%nat /\ Json.ValidString (str_take k s) = true /\
  forall m, (k < m <= n)%nat -> Json.ValidString (str_take m s) = false.
Proof.
  induction n as [|n IH]; cbv zeta in *; [simpl; split_and!; [lia | done | intros; lia]|].
  change (shrink_to_valid (S n) s) with (if Json.ValidString (str_take (S n) s) then S n else shrink_to_valid n s).
  destruct (Json.ValidString (str_take (S n) s)) eqn:E; [split_and!; [lia | exact E | intros; lia]|].
  destruct IH as (H1 & H2 & H3). split_and!; [lia | done |]. intros m Hm.
  destruct (decide (m = S n)) as [->|]; [done|]. apply H3. lia.
Qed.

Lemma str_take_length n s : (n <= String.length s)%nat -> String.length (str_take n s) = n.
Proof. revert s. induction n as [|n IH]; intros [|c s] H; simpl in *; try lia. rewrite IH; lia. Qed.

(** a response body cut to [maxBytes] is a prefix of it of at most
    [maxBytes] bytes, valid UTF-8, and no longer prefix within the limit is;
    cutting a valid text loses at most three bytes of the limit. *)
Theorem truncateUTF8_spec s maxBytes :
  0 < maxBytes < len s ->
  exists n, truncateUTF8 s maxBytes = str_take n s /\ len (truncateUTF8 s maxBytes) = Z.of_nat n /\ Z.of_nat n <= maxBytes /\
    Json.ValidString (truncateUTF8 s maxBytes) = true /\
    (forall m, Z.of_nat n < Z.of_nat m <= maxBytes -> Json.ValidString (str_take m s) = false) /\
    (Json.ValidString s = true -> maxBytes - 3 <= Z.of_nat n).
Proof.
  intros Hm. unfold truncateUTF8. replace ((maxBytes <=? 0) || (len s <=? maxBytes)) with false by lia.
  destruct (shrink_to_valid_spec (Z.to_nat maxBytes) s) as (H1 & H2 & H3). unfold len in *.
  set (n := shrink_to_valid _ _) in *. exists n. split; [done|]. rewrite str_take_length by lia.
  split; [done|]. split; [lia|]. split; [done|]. split; [intros; apply H3; lia|].
  intros Hv. destruct (Json.valid_prefix_near (String.length s) (to_bytes s) (Z.to_nat maxBytes) Hv) as (p & Hp & Hvp).
  { rewrite Json.length_to_bytes. lia. }
  apply Json.ValidString_take in Hvp. destruct (decide (p <= n)%nat); [lia|]. rewrite H3 in Hvp by lia. done.
Qed.

Lemma truncateUTF8_spec_witness : exists n, truncateUTF8 (of_bytes [chr 97; chr 232; chr 180; chr 166; chr 98]) 3 = str_take n
  (of_bytes [chr 97; chr 232; chr 180; chr 166; chr 98]).
Proof.
  pose proof (truncateUTF8_spec (of_bytes [chr 97; chr 232; chr 180; chr 166; chr 98]) 3) as H.
  specialize (H ltac:(vm_compute; done)). destruct H as (n & H & _). exists n. exact H.
Defined.

(** ** A concrete run *)

Definition demo_coordinator : IdempotencyCoordinator := Coordinator true DefaultIdempotencyConfig.
Definition demo_options (payload : string) : IdempotencyExecuteOptions :=
  Options "orders" "admin:1" "post" "/api/orders" " key-1 " payload 0 true 0.

Definition demo_hash (s : string) : string := "h:" +:+ s.
Definition demo_marshal (s : string) : option string := Some s.
Definition demo_plain (s : string) : string := s.

Definition demo_play (schedule : list event) : system :=
  default system_start (play demo_hash demo_marshal demo_marshal demo_marshal "" demo_plain demo_plain demo_coordinator 0 (Second * 60) system_start schedule).

Definition demo_key : string * string := ("orders", "h:key-1").

Definition demo_go (pid : nat) (now : Time) : event (Payload := string) (Data := string) (Failure := string) := Proceeds pid now (Ok "done") None.

(** Two requests race for a key; the loser is told to wait; a third replays. *)
Definition demo_race : list (event (Payload := string)) :=
  [Arrives 0 (demo_options "p"); Arrives 1 (demo_options "p"); demo_go 0 1; demo_go 1 2; demo_go 0 3; demo_go 1 4; demo_go 1 5;
   demo_go 0 6].
Definition demo_replay : list (event (Payload := string)) :=
  demo_race ++ [demo_go 0 7; Arrives 2 (demo_options "p"); demo_go 2 8; demo_go 2 9; demo_go 2 10].



Lemma demo_reachable schedule :
  reachable demo_hash demo_marshal demo_marshal demo_marshal "" demo_plain demo_plain demo_coordinator 0 (Second * 60)
    (demo_play schedule).
Proof. apply play_default, rtc_refl. Qed.

Lemma executes_at_most_once_witness :
  (length (successes demo_key (executed (demo_play demo_race))) <= 1)%nat /\ successes demo_key (executed (demo_play demo_race)) = ["done"].
Proof.
  split; [|vm_compute; reflexivity].
  apply (executes_at_most_once demo_hash demo_marshal demo_marshal demo_marshal "" demo_plain demo_plain demo_coordinator 0 (Second * 60)
    (demo_play demo_race) demo_key (demo_reachable demo_race)).
Defined.

Lemma answers_come_from_the_execution_witness : exists d0, successes demo_key (executed (demo_play demo_replay)) = [d0] /\
  decodeStoredResponse demo_marshal "" (marshalStoredResponse demo_marshal demo_plain DefaultIdempotencyConfig d0) = Some "done".
Proof.
  refine (answers_come_from_the_execution demo_hash demo_marshal demo_marshal demo_marshal "" demo_plain demo_plain demo_coordinator
    0 (Second * 60) (demo_play demo_replay) 2 (demo_options "p") demo_key "done" true (demo_reachable demo_replay) _ _);
    vm_compute; reflexivity.
Defined.

Definition demo_fp : string := "h:" +:+ "POST" +:+ newline +:+ "/api/orders" +:+ newline +:+ "admin:1" +:+ newline +:+ "p".

Definition demo_row : IdempotencyRecord :=
  Rec 1 "orders" "h:key-1" demo_fp IdempotencyStatusProcessing None None None (Some 100) 1000.


Definition demo_db : db := Db {[ demo_key := demo_row ]} 2.

Lemma demo_accepted payload :
  accepted demo_hash demo_marshal demo_coordinator (demo_options payload) demo_key
    ("h:" +:+ "POST" +:+ newline +:+ "/api/orders" +:+ newline +:+ "admin:1" +:+ newline +:+ payload).
Proof. split; try reflexivity. done. Qed.

Lemma executed_key_replays_witness : exists d1,
  run_alone (Failure := string) 10 (Ok "done")
    (Execute demo_hash demo_marshal demo_marshal demo_marshal "" demo_plain demo_plain demo_coordinator (demo_options "p") true) (Db ∅ 1) =
    (Ok (Result "done" false), d1, [Ok "done"]).
Proof.
  pose proof (executed_key_replays demo_hash demo_marshal demo_marshal demo_marshal "" demo_plain (fun x : string => x) demo_coordinator
    (demo_options "p") demo_key _ 10 "done" "done" (Db ∅ 1) (demo_accepted "p")) as H.
  do 3 (specialize (H ltac:(vm_compute; reflexivity))). destruct H as (d1 & H & _). exists d1. exact H.
Defined.

Lemma failed_execution_retried_witness : exists d1,
  run_alone (Failure := string) 10 (Err "down")
    (Execute demo_hash demo_marshal demo_marshal demo_marshal "" demo_plain demo_plain demo_coordinator (demo_options "p") true) (Db ∅ 1) =
    (Err (ExecFailure "down"), d1, [Err "down"]).
Proof.
  pose proof (failed_execution_retried demo_hash demo_marshal demo_marshal demo_marshal "" demo_plain demo_plain demo_coordinator
    (demo_options "p") demo_key _ 10 "down" (Db ∅ 1) (demo_accepted "p")) as H.
  do 2 (specialize (H ltac:(vm_compute; reflexivity))). destruct H as (d1 & H & _). exists d1. exact H.
Defined.

Lemma other_request_rejected_witness : exists r d' log,
  evaluates 0 100
    (Execute demo_hash demo_marshal demo_marshal demo_marshal "" demo_plain demo_plain demo_coordinator (demo_options "q") true)
    demo_db r d' log /\ (d' = demo_db /\ log = []).
Proof.
  destruct (run_alone 10 (Ok "done")
    (Execute demo_hash demo_marshal demo_marshal demo_marshal "" demo_plain demo_plain demo_coordinator (demo_options "q") true)
    demo_db) as [[r d'] log] eqn:E.
  assert (H := run_evaluates 0 100 10 _ _ _ _ _ _ ltac:(lia) E). exists r, d', log. split; [exact H|].
  eapply (other_request_rejected demo_hash demo_marshal demo_marshal demo_marshal "" demo_plain demo_plain demo_coordinator 0 100
    (demo_options "q") demo_key _ demo_db demo_row r d' log (demo_accepted "q") eq_refl); [by vm_compute | exact H].
Defined.

End Idempotency.
