(* ===== verification/Failover.v ===== *)
(** * Failover: the retry decisions of one gateway request

    Models [src/backend/internal/handler/failover_loop.go], the state a
    request carries through its account-failover loop, and one round of the
    loop of [src/backend/internal/handler/gateway_handler.go] around it.

    A context enters as two bits: whether it is cancelled on entry, and
    whether it is cancelled during the wait.  The clock reading is an
    argument.  A handler answers its action, the effects it had (waits, the
    call that takes an account out of scheduling) and the new state.  The
    counters are bounded by the theorems below far from the [int] limits, so
    they are plain integers.  Logging is left out. *)

From S2P Require Import Prelude GoStrings.

Module Failover.

Inductive NextAccountAction := NextAccountLegacyRetry | NextAccountRetry | NextAccountStop.
#[export] Instance next_action_eq_dec : EqDecision NextAccountAction.
Proof. solve_decision. Defined.

(** The fields of [service.UpstreamFailoverError] the decisions read. *)
Record UpstreamFailoverError := FailoverErr {
  StatusCode : Z;
  err_ForceCacheBilling : bool;
  RetryableOnSameAccount : bool;
  SameAccountRetryDelay : Duration;
  SameAccountRetryDeadline : Time;
  SameAccountRetryMax : Z;
  RequestScopedTransient : bool;
  NextAction : NextAccountAction
}.

Definition ShouldRetryNextAccount (e : option UpstreamFailoverError) : bool :=
  match e with Some e => negb (bool_decide (NextAction e = NextAccountStop)) | None => false end.

Inductive FailoverAction := FailoverContinue | FailoverExhausted | FailoverCanceled.

Definition sameAccountRetryDelay : Duration := 500 * Millisecond.
Definition maxRequestScopedRetryDelay : Duration := 8 * Second.
Definition singleAccountBackoffDelay : Duration := 2 * Second.
Definition maxProfitVetoAttempts : Z := 10.
Definition PlatformAntigravity : string := "antigravity".
Definition StatusServiceUnavailable : Z := 503.

(** The [n] doublings of the backoff loop, with its early return. *)
Fixpoint double_delay (n : nat) (delay : Duration) : Duration :=
  match n with
  | O => delay
  | S n => if maxRequestScopedRetryDelay / 2 <=? delay then maxRequestScopedRetryDelay else double_delay n (delay * 2)
  end.

Definition sameAccountRetryDelayFor (failoverErr : option UpstreamFailoverError) (retryCount : Z) : Duration :=
  match failoverErr with
  | None => sameAccountRetryDelay
  | Some e =>
      if 0 <? SameAccountRetryDelay e then SameAccountRetryDelay e
      else if negb (RequestScopedTransient e) || (retryCount <=? 1) then sameAccountRetryDelay
      else double_delay (Z.to_nat (retryCount - 1)) sameAccountRetryDelay
  end.

Definition sameAccountRetryDeadlineAllows (failoverErr : option UpstreamFailoverError) (now : Time) : bool :=
  match failoverErr with
  | None => true
  | Some e => IsZero (SameAccountRetryDeadline e) || Before now (SameAccountRetryDeadline e)
  end.

Definition sameAccountRetryAllowed (failoverErr : option UpstreamFailoverError) (retryCount retryLimit : Z) (now : Time) : bool :=
  match failoverErr with
  | None => false
  | Some e =>
      if negb (RetryableOnSameAccount e) then false
      else if negb (sameAccountRetryDeadlineAllows failoverErr now) then false
      else if 0 <? SameAccountRetryMax e then
        if retryLimit <=? 0 then false
        else
          let retryLimit := if SameAccountRetryMax e <? retryLimit then SameAccountRetryMax e else retryLimit in
          retryCount <? retryLimit
      else if negb (IsZero (SameAccountRetryDeadline e)) then true
      else (0 <? retryLimit) && (retryCount <? retryLimit)
  end.

(** [account.GetPoolModeRetryCount()] is the argument; [None] is a nil account. *)
Definition effectiveSameAccountRetryLimit (failoverErr : option UpstreamFailoverError) (poolModeRetryCount : option Z) : Z :=
  match poolModeRetryCount with
  | None => 0
  | Some limit =>
      match failoverErr with
      | Some e => if (0 <? limit) && (0 <? SameAccountRetryMax e) && (SameAccountRetryMax e <? limit)
                  then SameAccountRetryMax e else limit
      | None => limit
      end
  end.

Record FailoverState := FState {
  SwitchCount : Z;
  MaxSwitches : Z;
  FailedAccountIDs : gset Z;
  SameAccountRetryCount : gmap Z Z;
  LastFailoverErr : option UpstreamFailoverError;
  ForceCacheBilling : bool;
  hasBoundSession : bool;
  profitVetoedAccountIDs : gset Z;
  profitVetoCount : Z
}.
#[export] Instance failover_struct : Struct FailoverState := fun s =>
  FState (SwitchCount s) (MaxSwitches s) (FailedAccountIDs s) (SameAccountRetryCount s) (LastFailoverErr s)
    (ForceCacheBilling s) (hasBoundSession s) (profitVetoedAccountIDs s) (profitVetoCount s).

Definition NewFailoverState (maxSwitches : Z) (hasBoundSession : bool) : FailoverState :=
  FState 0 maxSwitches ∅ ∅ None false hasBoundSession ∅ 0.

Definition RecordProfitVeto (accountID : Z) (s : FailoverState) : FailoverAction * FailoverState :=
  let s := s <| FailedAccountIDs := FailedAccountIDs s ∪ {[ accountID ]} |>
             <| profitVetoedAccountIDs := profitVetoedAccountIDs s ∪ {[ accountID ]} |>
             <| profitVetoCount := profitVetoCount s + 1 |> in
  (if maxProfitVetoAttempts <=? profitVetoCount s then FailoverExhausted else FailoverContinue, s).

Definition allExclusionsAreProfitVetoed (s : FailoverState) : bool :=
  if bool_decide (profitVetoedAccountIDs s = ∅) || bool_decide (FailedAccountIDs s = ∅) then false
  else bool_decide (FailedAccountIDs s ⊆ profitVetoedAccountIDs s).

Definition needForceCacheBilling (hasBoundSession : bool) (failoverErr : option UpstreamFailoverError) (sameAccountRetry : bool) : bool :=
  (hasBoundSession && negb sameAccountRetry) || match failoverErr with Some e => err_ForceCacheBilling e | None => false end.

Inductive effect :=
| Sleep (d : Duration)
| TempUnscheduleRetryableError (accountID : Z) (e : UpstreamFailoverError).

(** [sleepWithContext]: no wait, hence no cancellation, for [d <= 0]. *)
Definition sleepWithContext (d : Duration) (interrupted : bool) : bool * list effect :=
  if d <=? 0 then (true, []) else (negb interrupted, [Sleep d]).

Definition retries_of (s : FailoverState) (accountID : Z) : Z := default 0 (SameAccountRetryCount s !! accountID).

Definition HandleFailoverError (canceled : bool) (accountID : Z) (platform : string) (retryLimit : Z)
    (failoverErr : option UpstreamFailoverError) (now : Time) (interrupted : bool) (s : FailoverState)
    : FailoverAction * list effect * FailoverState :=
  if canceled then (FailoverCanceled, [], s)
  else
    let s := s <| LastFailoverErr := failoverErr |> in
    match failoverErr with
    | None => (FailoverExhausted, [], s)
    | Some e =>
        if negb (ShouldRetryNextAccount failoverErr) then (FailoverExhausted, [], s)
        else
          let retryCount := retries_of s accountID in
          let sameAccountRetry := sameAccountRetryAllowed failoverErr retryCount retryLimit now in
          let s := if needForceCacheBilling (hasBoundSession s) failoverErr sameAccountRetry
                   then s <| ForceCacheBilling := true |> else s in
          if sameAccountRetry then
            let s := s <| SameAccountRetryCount := <[accountID := retryCount + 1]> (SameAccountRetryCount s) |> in
            let '(ok, slept) := sleepWithContext (sameAccountRetryDelayFor failoverErr (retries_of s accountID)) interrupted in
            (if ok then FailoverContinue else FailoverCanceled, slept, s)
          else
            let unscheduled := if RetryableOnSameAccount e then [TempUnscheduleRetryableError accountID e] else [] in
            let s := s <| FailedAccountIDs := FailedAccountIDs s ∪ {[ accountID ]} |> in
            if MaxSwitches s <=? SwitchCount s then (FailoverExhausted, unscheduled, s)
            else
              let s := s <| SwitchCount := SwitchCount s + 1 |> in
              if platform =s PlatformAntigravity then
                let '(ok, slept) := sleepWithContext ((SwitchCount s - 1) * Second) interrupted in
                (if ok then FailoverContinue else FailoverCanceled, unscheduled ++ slept, s)
              else (FailoverContinue, unscheduled, s)
    end.

Definition HandleSelectionExhausted (canceled interrupted : bool) (s : FailoverState) : FailoverAction * list effect * FailoverState :=
  if canceled then (FailoverCanceled, [], s)
  else
    let unavailable := match LastFailoverErr s with Some e => StatusCode e =? StatusServiceUnavailable | None => false end in
    if unavailable && (SwitchCount s <=? MaxSwitches s) then
      if allExclusionsAreProfitVetoed s then (FailoverExhausted, [], s)
      else
        let '(ok, slept) := sleepWithContext singleAccountBackoffDelay interrupted in
        if ok then (FailoverContinue, slept, s <| FailedAccountIDs := profitVetoedAccountIDs s |>)
        else (FailoverCanceled, slept, s)
    else (FailoverExhausted, [], s).

(** ** The loop around the state

    What one round of the request's loop meets: no selectable account, an
    account the profit check turns down, a failed upstream attempt that may
    fail over, or anything else, which ends the loop (an answer, an error
    that is not a failover error, output already written). *)

Inductive round :=
| NoAccount (canceled interrupted : bool)
| ProfitVetoed (accountID : Z)
| AttemptFailed (canceled : bool) (accountID : Z) (platform : string) (retryLimit : Z) (failoverErr : option UpstreamFailoverError)
    (now : Time) (interrupted : bool)
| Ends.

(** [Some s]: the loop continues with [s]. *)
Definition continues (r : FailoverAction * FailoverState) : option FailoverState :=
  match r with (FailoverContinue, s) => Some s | _ => None end.

Definition play_round (r : round) (s : FailoverState) : option FailoverState :=
  match r with
  | NoAccount canceled interrupted =>
      if bool_decide (FailedAccountIDs s = ∅) then None
      else let '(a, _, s) := HandleSelectionExhausted canceled interrupted s in continues (a, s)
  | ProfitVetoed id => continues (RecordProfitVeto id s)
  | AttemptFailed canceled id platform limit e now interrupted =>
      let '(a, _, s) := HandleFailoverError canceled id platform limit e now interrupted s in continues (a, s)
  | Ends => None
  end.

Fixpoint play_rounds (rs : list round) (s : FailoverState) : option FailoverState :=
  match rs with
  | [] => Some s
  | r :: rs => match play_round r s with Some s => play_rounds rs s | None => None end
  end.

(** ** Delays *)

Lemma double_delay_spec n d :
  0 < d <= maxRequestScopedRetryDelay -> double_delay n d = Z.min maxRequestScopedRetryDelay (d * 2 ^ Z.of_nat n).
Proof.
  revert d. induction n as [|n IH]; intros d Hd; simpl double_delay; [rewrite Z.mul_1_r; lia|].
  rewrite Nat2Z.inj_succ, Z.pow_succ_r by lia. assert (0 < 2 ^ Z.of_nat n) by lia.
  change (maxRequestScopedRetryDelay / 2) with (4 * Second). unfold maxRequestScopedRetryDelay in *.
  destruct (4 * Second <=? d) eqn:E; [unfold Second in *; nia|].
  rewrite IH by (unfold Second in *; lia). f_equal. ring.
Qed.

(** the wait before retrying on the same account is the upstream's own
    delay if it gave one, otherwise half a second, doubled with each retry of
    a request-scoped failure up to eight seconds; it is always positive. *)
Theorem retry_delay_spec failoverErr retryCount :
  let delay := sameAccountRetryDelayFor failoverErr retryCount in
  0 < delay /\
  match failoverErr with
  | None => delay = 500 * Millisecond
  | Some e =>
      (0 < SameAccountRetryDelay e -> delay = SameAccountRetryDelay e) /\
      (SameAccountRetryDelay e <= 0 -> delay <= 8 * Second /\
        delay = if RequestScopedTransient e
                then Z.min (8 * Second) (500 * Millisecond * 2 ^ (Z.max 1 retryCount - 1)) else 500 * Millisecond)
  end.
Proof.
  cbv zeta. unfold sameAccountRetryDelayFor. destruct failoverErr as [e|]; [|split; [by vm_compute | done]].
  destruct (0 <? SameAccountRetryDelay e) eqn:Ed; [split_and!; [lia | lia | lia]|].
  destruct (RequestScopedTransient e); simpl negb; simpl orb; [|split; [by vm_compute|]; split; [lia|]; intros _; by vm_compute].
  destruct (retryCount <=? 1) eqn:Ec.
  { replace (Z.max 1 retryCount - 1) with 0 by lia. split; [by vm_compute|]. split; [lia|]. intros _. by vm_compute. }
  rewrite double_delay_spec by (by vm_compute). replace (Z.max 1 retryCount) with retryCount by lia.
  rewrite Z2Nat.id by lia. assert (0 < 2 ^ (retryCount - 1)) by lia.
  unfold maxRequestScopedRetryDelay, sameAccountRetryDelay, Second, Millisecond.
  split; [nia|]. split; [lia|]. intros _. split; [lia|done].
Qed.

(** ** Termination of the loop *)

Definition total (l : list Z) (f : Z -> Z) : Z := foldr (fun a acc => f a + acc) 0 l.

Lemma total_ext l f g : (forall a, a ∈ l -> f a = g a) -> total l f = total l g.
Proof.
  induction l as [|a l IH]; intros H; simpl; [done|]. rewrite (H a) by (by left). f_equal. apply IH. intros b Hb. apply H. by right.
Qed.

Lemma total_bump l f g a :
  NoDup l -> a ∈ l -> g a = f a + 1 -> (forall b, b <> a -> g b = f b) -> total l g = total l f + 1.
Proof.
  intros Hnd Ha Hg Ho. induction Hnd as [|b l Hb Hnd IH]; [by inversion Ha|]. simpl.
  apply elem_of_cons in Ha as [->|Ha].
  - rewrite (total_ext l g f); [lia|]. intros c Hc. apply Ho. by intros ->.
  - rewrite IH by done. rewrite (Ho b) by (by intros ->). lia.
Qed.

Lemma total_mono l f g : (forall a, a ∈ l -> f a <= g a) -> total l f <= total l g.
Proof.
  induction l as [|a l IH]; intros H; [done|]. simpl. pose proof (H a ltac:(left)).
  assert (total l f <= total l g) by (apply IH; intros; apply H; by right). lia.
Qed.

(** *** The clock *)

(** How long a round waits. *)
Definition waited (fx : list effect) : Duration := foldr (fun e t => match e with Sleep d => d + t | _ => t end) 0 fx.

Definition round_wait (r : round) (s : FailoverState) : Duration :=
  match r with
  | NoAccount canceled interrupted => waited (HandleSelectionExhausted canceled interrupted s).1.2
  | AttemptFailed canceled id platform limit e now interrupted => waited (HandleFailoverError canceled id platform limit e now interrupted s).1.2
  | _ => 0
  end.

Definition round_now (t : Time) (r : round) : Time := match r with AttemptFailed _ _ _ _ _ now _ => now | _ => t end.

(** The readings from [t] on: the clock does not go back, and a wait takes its
    time. *)
Fixpoint clocked (t : Time) (rs : list round) (s : FailoverState) : Prop :=
  match rs with
  | [] => True
  | r :: rs =>
      t <= round_now t r /\
      match play_round r s with Some s' => clocked (round_now t r + round_wait r s) rs s' | None => True end
  end.

Lemma waited_nonneg fx : (forall d, Sleep d ∈ fx -> 0 < d) -> 0 <= waited fx.
Proof.
  induction fx as [|[d|a e] fx IH]; intros H; cbn [waited foldr]; [lia| |]; fold (waited fx).
  - pose proof (H d ltac:(left)). assert (0 <= waited fx) by (apply IH; intros; apply H; by right). lia.
  - apply IH. intros. apply H. by right.
Qed.

Lemma sleeps_positive d interrupted x : Sleep x ∈ snd (sleepWithContext d interrupted) -> 0 < x.
Proof. unfold sleepWithContext. destruct (Z.leb_spec d 0); cbn; [by intros ?%elem_of_nil|]. by intros [= <-]%list_elem_of_singleton. Qed.

Lemma round_wait_nonneg r s : 0 <= round_wait r s.
Proof.
  destruct r as [c i|id|c id platform limit e now i|]; cbn [round_wait]; try lia; apply waited_nonneg; intros x.
  - unfold HandleSelectionExhausted. destruct c; [by intros ?%elem_of_nil|]. destruct (_ && _); [|by intros ?%elem_of_nil].
    destruct (allExclusionsAreProfitVetoed s); [by intros ?%elem_of_nil|].
    pose proof (sleeps_positive singleAccountBackoffDelay i x) as H. by destruct (sleepWithContext _ i) as [[] ?].
  - unfold HandleFailoverError. destruct c; [by intros ?%elem_of_nil|]. destruct e as [e|]; [|by intros ?%elem_of_nil].
    destruct (negb _); [by intros ?%elem_of_nil|]. cbv zeta. set (retry := sameAccountRetryAllowed _ _ _ _). set (s1 := if needForceCacheBilling _ _ retry then _ else _).
    clearbody s1. destruct retry.
    + match goal with |- context [sleepWithContext ?d i] => pose proof (sleeps_positive d i x) as H; by destruct (sleepWithContext d i) as [[] ?] end.
    + assert (U : Sleep x ∉ (if RetryableOnSameAccount e then [TempUnscheduleRetryableError id e] else [])).
      { destruct (RetryableOnSameAccount e); set_solver. }
      destruct (_ <=? _); [done|]. destruct (platform =s _); [|done].
      match goal with |- context [sleepWithContext ?d i] => pose proof (sleeps_positive d i x) as H; destruct (sleepWithContext d i) as [[] ?] end;
        cbn [fst snd] in *; rewrite elem_of_app; by intros [?|?]; auto.
Qed.

(** *** The budget *)

Section budget.
Variables (pool : gset Z) (limit max : Z) (D : Z -> Time) (step t0 : Z).
Hypothesis Hstep : 0 < step <= sameAccountRetryDelay.

(** An error that may be retried until its deadline, however often. *)
Definition windowed (e : UpstreamFailoverError) : bool := negb (IsZero (SameAccountRetryDeadline e)) && (SameAccountRetryMax e <=? 0).

(** The account of a failure is of the pool and its retry limit at most [limit].
    The deadlines of an account [id] are at most [D id]; a wait that the error
    asks for lasts [step] at least, or until the account's last deadline. *)
Definition budgeted (r : round) : Prop :=
  match r with
  | AttemptFailed _ id _ retryLimit (Some e) now _ =>
      id ∈ pool /\ retryLimit <= limit /\
      (windowed e = true -> SameAccountRetryDeadline e <= D id /\
         (0 < SameAccountRetryDelay e -> step <= SameAccountRetryDelay e \/ D id <= now + SameAccountRetryDelay e))
  | _ => True
  end.

(** One retry for each [step] that starts before the last deadline of [a]. *)
Definition windows (a : Z) : Z := Z.max 0 ((D a - t0 + step - 1) / step).

Lemma windows_room a w : 0 <= w -> t0 + w * step < D a -> w + 1 <= windows a.
Proof.
  intros Hw H. unfold windows. assert (w + 1 <= (D a - t0 + step - 1) / step); [|lia]. apply Z.div_le_lower_bound; nia.
Qed.

Lemma retry_within_limit e count l now :
  sameAccountRetryAllowed (Some e) count l now = true -> windowed e = false -> count < l.
Proof.
  unfold sameAccountRetryAllowed, windowed. intros H Hz. destruct (negb (RetryableOnSameAccount e)); [done|]. destruct (negb _); [done|].
  destruct (0 <? SameAccountRetryMax e) eqn:E.
  - destruct (l <=? 0) eqn:El; [done|]. destruct (SameAccountRetryMax e <? l) eqn:Em; lia.
  - apply andb_false_iff in Hz as [Hz|Hz]; [|lia]. apply negb_false_iff in Hz. rewrite Hz in H. simpl in H. lia.
Qed.

Lemma retry_before_deadline e count l now :
  sameAccountRetryAllowed (Some e) count l now = true -> windowed e = true -> now < SameAccountRetryDeadline e.
Proof.
  unfold sameAccountRetryAllowed, windowed, sameAccountRetryDeadlineAllows. intros H [Hz _]%andb_true_iff. apply negb_true_iff in Hz.
  rewrite Hz in H. destruct (negb (RetryableOnSameAccount e)); [done|]. cbn [orb] in H.
  destruct (Before now (SameAccountRetryDeadline e)) eqn:E; [|done]. unfold Before in E. lia.
Qed.

(** The accounts excluded for another reason than the profit check. *)
Definition other_exclusions (s : FailoverState) : Z :=
  if bool_decide (FailedAccountIDs s ⊆ profitVetoedAccountIDs s) then 0 else 1.

(** [k] rounds have continued until [t], [b] of them by clearing the exclusions;
    [w] has the retries within the windows of the accounts. *)
Record spent (w : Z -> Z) (k b : Z) (t : Time) (s : FailoverState) : Prop := {
  sp_max : MaxSwitches s = max;
  sp_rounds : k = total (elements pool) (retries_of s) + SwitchCount s + profitVetoCount s + b;
  sp_retries : forall a, retries_of s a <= limit + w a;
  sp_switches : SwitchCount s <= max;
  sp_vetoes : profitVetoCount s < maxProfitVetoAttempts;
  sp_backoffs : b + other_exclusions s <= SwitchCount s;
  sp_excluded : profitVetoedAccountIDs s ⊆ FailedAccountIDs s;
  sp_windows : forall a, 0 <= w a <= windows a;
  sp_clock : forall a, t0 + w a * step <= t \/ D a <= t
}.

Lemma spent_later w k b t t' s : t <= t' -> spent w k b t s -> spent w k b t' s.
Proof. intros Ht [H1 H2 H3 H4 H5 H6 H7 H8 H9]. split; try done. intros a. destruct (H9 a); [left|right]; lia. Qed.

Lemma spent_veto w k b t id s s' :
  spent w k b t s -> RecordProfitVeto id s = (FailoverContinue, s') -> spent w (k + 1) b t s'.
Proof.
  intros [H1 H2 H3 H4 H5 H6 H7 H8 H9] H. unfold RecordProfitVeto in H. simpl in H.
  destruct (maxProfitVetoAttempts <=? profitVetoCount s + 1) eqn:Ev; [done|]. injection H as <-.
  split; simpl; auto; [rewrite (total_ext _ _ (retries_of s)) by done; lia | lia | | set_solver].
  unfold other_exclusions in *. simpl. do 2 case_bool_decide; try lia. exfalso. set_solver.
Qed.

(** What a failure that continues did. *)
Lemma failure_cases canceled id platform retryLimit e now interrupted s s' fx :
  HandleFailoverError canceled id platform retryLimit e now interrupted s = (FailoverContinue, fx, s') ->
  exists err, e = Some err /\ MaxSwitches s' = MaxSwitches s /\ profitVetoedAccountIDs s' = profitVetoedAccountIDs s /\
    profitVetoCount s' = profitVetoCount s /\
    ((sameAccountRetryAllowed e (retries_of s id) retryLimit now = true /\ waited fx = sameAccountRetryDelayFor e (retries_of s id + 1) /\
      SwitchCount s' = SwitchCount s /\ FailedAccountIDs s' = FailedAccountIDs s /\
      SameAccountRetryCount s' = <[id := retries_of s id + 1]> (SameAccountRetryCount s)) \/
     (SwitchCount s < MaxSwitches s /\ SwitchCount s' = SwitchCount s + 1 /\ FailedAccountIDs s' = FailedAccountIDs s ∪ {[id]} /\
      SameAccountRetryCount s' = SameAccountRetryCount s)).
Proof.
  intros H. unfold HandleFailoverError in H. destruct canceled; [done|]. destruct e as [e|]; [|done]. exists e. split; [done|].
  destruct (negb _); [done|]. cbv zeta in H.
  change (retries_of (s <| LastFailoverErr := Some e |>) id) with (retries_of s id) in H.
  set (retry := sameAccountRetryAllowed (Some e) (retries_of s id) retryLimit now) in *.
  set (s1 := if needForceCacheBilling _ _ retry then _ else _) in H.
  assert (Hs1 : SwitchCount s1 = SwitchCount s /\ MaxSwitches s1 = MaxSwitches s /\ FailedAccountIDs s1 = FailedAccountIDs s /\
    SameAccountRetryCount s1 = SameAccountRetryCount s /\ profitVetoedAccountIDs s1 = profitVetoedAccountIDs s /\
    profitVetoCount s1 = profitVetoCount s) by (unfold s1; by destruct (needForceCacheBilling _ _ _)).
  clearbody s1. destruct Hs1 as (E1 & E2 & E3 & E4 & E5 & E6). destruct retry.
  - assert (Hr : retries_of (s1 <| SameAccountRetryCount := <[id := retries_of s id + 1]> (SameAccountRetryCount s1) |>) id = retries_of s id + 1)
      by (unfold retries_of at 1; simpl; by rewrite lookup_insert_eq).
    rewrite Hr in H. pose proof (proj1 (retry_delay_spec (Some e) (retries_of s id + 1))) as Hd. unfold sleepWithContext in H.
    destruct (Z.leb_spec (sameAccountRetryDelayFor (Some e) (retries_of s id + 1)) 0); [lia|]. destruct interrupted; [done|]. cbn [negb] in H.
    injection H as <- <-. cbn [waited foldr]. simpl. rewrite Z.add_0_r, E1, E2, E3, E4, E5, E6. split_and!; auto. left. by split_and!.
  - destruct (MaxSwitches _ <=? SwitchCount _) eqn:Em; [done|]. simpl in Em.
    assert (Hs' : s' = s1 <| FailedAccountIDs := FailedAccountIDs s1 ∪ {[id]} |> <| SwitchCount := SwitchCount s1 + 1 |>).
    { destruct (platform =s PlatformAntigravity); [|by injection H as _ <-].
      destruct (sleepWithContext _ _) as [[] slept]; [|done]. by injection H as _ <-. }
    subst s'. simpl. rewrite E1, E2, E3, E4, E5, E6. split_and!; auto. right. split_and!; try done. lia.
Qed.

(** A retry on the same account, within its limit or its window. *)
Lemma spent_retry w w' k b t t' id s s' :
  spent w k b t s -> id ∈ pool -> t <= t' -> MaxSwitches s' = MaxSwitches s -> profitVetoedAccountIDs s' = profitVetoedAccountIDs s ->
  profitVetoCount s' = profitVetoCount s -> SwitchCount s' = SwitchCount s -> FailedAccountIDs s' = FailedAccountIDs s ->
  SameAccountRetryCount s' = <[id := retries_of s id + 1]> (SameAccountRetryCount s) ->
  retries_of s id + 1 <= limit + w' id -> 0 <= w' id <= windows id -> (t0 + w' id * step <= t' \/ D id <= t') ->
  (forall a, a <> id -> w' a = w a) -> spent w' (k + 1) b t' s'.
Proof.
  intros [H1 H2 H3 H4 H5 H6 H7 H8 H9] Hid Ht E2 E5 E6 E1 E3 E4 Hr Hw Hclk Ho.
  assert (Hs : forall a, retries_of s' a = if bool_decide (id = a) then retries_of s id + 1 else retries_of s a).
  { intros a. unfold retries_of. rewrite E4, lookup_insert. by do 2 case_decide || case_bool_decide. }
  assert (Htot : total (elements pool) (retries_of s') = total (elements pool) (retries_of s) + 1).
  { apply total_bump with id; [apply NoDup_elements | by apply elem_of_elements | |].
    - rewrite Hs. by rewrite bool_decide_true.
    - intros a Ha. rewrite Hs. by rewrite bool_decide_false by congruence. }
  split.
  - congruence.
  - rewrite Htot, E1, E6. lia.
  - intros a. rewrite Hs. case_bool_decide; [by subst|]. rewrite Ho by congruence. apply H3.
  - by rewrite E1.
  - by rewrite E6.
  - unfold other_exclusions in *. by rewrite E1, E3, E5.
  - by rewrite E3, E5.
  - intros a. destruct (decide (a = id)) as [->|Hne]; [done|]. rewrite Ho by done. apply H8.
  - intros a. destruct (decide (a = id)) as [->|Hne]; [done|]. rewrite Ho by done. destruct (H9 a); [left|right]; lia.
Qed.

Lemma delay_at_least e count : SameAccountRetryDelay e <= 0 -> step <= sameAccountRetryDelayFor (Some e) count.
Proof.
  intros Hd. unfold sameAccountRetryDelayFor. destruct (Z.ltb_spec 0 (SameAccountRetryDelay e)); [lia|].
  destruct (_ || _); [lia|]. rewrite double_delay_spec by (by vm_compute). assert (0 < 2 ^ Z.of_nat (Z.to_nat (count - 1))) by lia.
  unfold maxRequestScopedRetryDelay, sameAccountRetryDelay, Second, Millisecond in *. nia.
Qed.

Lemma spent_failure w k b t canceled id platform retryLimit e now interrupted s s' fx :
  spent w k b t s -> budgeted (AttemptFailed canceled id platform retryLimit e now interrupted) -> t <= now ->
  HandleFailoverError canceled id platform retryLimit e now interrupted s = (FailoverContinue, fx, s') -> 0 <= waited fx ->
  exists w', spent w' (k + 1) b (now + waited fx) s'.
Proof.
  intros Hs Hb Hnow H Hfx. apply failure_cases in H as (err & -> & E2 & E5 & E6 & Hcase). destruct Hb as (Hid & Hl & Hwin). pose proof Hs as [H1 H2 H3 H4 H5 H6 H7 H8 H9].
  destruct Hcase as [(Ha & Hwait & E1 & E3 & E4)|(Hlt & E1 & E3 & E4)].
  - destruct (windowed err) eqn:Hwd.
    + destruct (Hwin eq_refl) as [Hdead Hdelay]. pose proof (retry_before_deadline _ _ _ _ Ha Hwd) as Hbefore.
      assert (Hroom : t0 + w id * step < D id) by (destruct (H9 id); lia). specialize (H8 id) as Hw8.
      exists (fun a => if bool_decide (a = id) then w a + 1 else w a).
      apply (spent_retry w _ k b t _ id s s'); try done; [lia|rewrite bool_decide_true by done..|].
      * specialize (H3 id). lia.
      * pose proof (windows_room id (w id) ltac:(lia) Hroom). lia.
      * assert (Hd : step <= waited fx \/ D id <= now + waited fx).
        { rewrite Hwait. destruct (Z.leb_spec (SameAccountRetryDelay err) 0) as [Hle|Hgt]; [left; by apply delay_at_least|].
          unfold sameAccountRetryDelayFor. rewrite (proj2 (Z.ltb_lt _ _)) by done. by apply Hdelay. }
        destruct Hd as [Hd|Hd]; [|by right]. destruct (H9 id); [left|right]; lia.
      * intros a Hne. by rewrite bool_decide_false.
    + pose proof (retry_within_limit _ _ _ _ Ha Hwd) as Hlt. exists w.
      apply (spent_retry w w k b t _ id s s'); try done; [lia| |].
      * specialize (H8 id). lia.
      * destruct (H9 id); [left|right]; lia.
  - exists w. apply (spent_later _ _ _ t); [lia|]. split; try done.
    + congruence.
    + rewrite (total_ext _ _ (retries_of s)) by (intros; unfold retries_of; by rewrite E4). rewrite E1, E6. lia.
    + intros a. unfold retries_of. rewrite E4. apply H3.
    + lia.
    + by rewrite E6.
    + unfold other_exclusions in *. rewrite E1, E3, E5. do 2 case_bool_decide; lia.
    + rewrite E3, E5. set_solver.
Qed.

Lemma spent_backoff w k b t canceled interrupted s s' fx :
  spent w k b t s -> FailedAccountIDs s <> ∅ ->
  HandleSelectionExhausted canceled interrupted s = (FailoverContinue, fx, s') -> spent w (k + 1) (b + 1) t s'.
Proof.
  intros [H1 H2 H3 H4 H5 H6 H7 H8 H9] Hne H. unfold HandleSelectionExhausted in H. destruct canceled; [done|].
  destruct (_ && _); [|done]. unfold allExclusionsAreProfitVetoed in H. rewrite (bool_decide_false _ Hne), orb_false_r in H.
  assert (Hex : other_exclusions s = 1 /\ s' = s <| FailedAccountIDs := profitVetoedAccountIDs s |>).
  { unfold other_exclusions. destruct (bool_decide (profitVetoedAccountIDs s = ∅)) eqn:Ev.
    - apply bool_decide_eq_true in Ev. rewrite bool_decide_false by set_solver. split; [done|].
      destruct (sleepWithContext _ _) as [[] ?]; [|done]. by injection H as <- <-.
    - destruct (bool_decide (FailedAccountIDs s ⊆ profitVetoedAccountIDs s)); [done|]. split; [done|].
      destruct (sleepWithContext _ _) as [[] ?]; [|done]. by injection H as <- <-. }
  destruct Hex as [Hex ->]. split; simpl; auto; [|].
  - rewrite (total_ext _ _ (retries_of s)) by done. lia.
  - unfold other_exclusions at 1. simpl. rewrite bool_decide_true by done. lia.
Qed.

Lemma spent_round w k b t r s s' :
  spent w k b t s -> budgeted r -> t <= round_now t r -> play_round r s = Some s' ->
  exists w' b', spent w' (k + 1) b' (round_now t r + round_wait r s) s'.
Proof.
  intros Hs Hb Ht H. pose proof (round_wait_nonneg r s) as Hw.
  destruct r as [canceled interrupted|id|canceled id platform retryLimit e now interrupted|]; unfold play_round in H; cbn [round_now round_wait] in *; [..|done].
  - case_bool_decide as Hne; [done|]. destruct (HandleSelectionExhausted _ _ _) as [[a fx] s1] eqn:E.
    destruct a; try done. simpl in H. injection H as ->. exists w, (b + 1). apply (spent_later _ _ _ t); [cbn in *; lia|]. by eapply spent_backoff.
  - destruct (RecordProfitVeto id s) as [a s1] eqn:E. destruct a; try done. simpl in H. injection H as ->. exists w, b. rewrite Z.add_0_r. by eapply spent_veto.
  - destruct (HandleFailoverError _ _ _ _ _ _ _ _) as [[a fx] s1] eqn:E. destruct a; try done. simpl in H. injection H as ->.
    destruct (spent_failure w k b t _ _ _ _ _ _ _ _ _ _ Hs Hb Ht E Hw) as [w' Hs']. by exists w', b.
Qed.

Lemma spent_rounds rs w k b t s s' :
  spent w k b t s -> Forall budgeted rs -> clocked t rs s -> play_rounds rs s = Some s' ->
  exists w' b' t', spent w' (k + Z.of_nat (length rs)) b' t' s'.
Proof.
  intros Hs Hb. revert w k b t s Hs. induction Hb as [|r rs Hr Hb IH]; intros w k b t s Hs Hc H; simpl in H.
  - injection H as ->. exists w, b, t. by rewrite Z.add_0_r.
  - destruct Hc as [Ht Hc]. destruct (play_round r s) as [s1|] eqn:E; [|done].
    destruct (spent_round _ _ _ _ _ _ _ Hs Hr Ht E) as (w1 & b1 & Hs1).
    destruct (IH _ _ _ _ _ Hs1 Hc H) as (w' & b' & t' & Hs'). exists w', b', t'. rewrite length_cons, Nat2Z.inj_succ.
    by replace (k + Z.succ (Z.of_nat (length rs))) with (k + 1 + Z.of_nat (length rs)) by lia.
Qed.

Lemma spent_start bound : 0 <= limit -> 0 <= max -> spent (fun _ => 0) 0 0 t0 (NewFailoverState max bound).
Proof.
  intros Hl Hm. assert (Hr : forall a, retries_of (NewFailoverState max bound) a = 0) by done.
  split; simpl; auto; try done.
  - assert (Ht : total (elements pool) (retries_of (NewFailoverState max bound)) = 0); [|lia].
    induction (elements pool) as [|a l IH]; [done|]. simpl. by rewrite Hr, IH.
  - intros a. rewrite Hr. lia.
  - intros a. unfold windows. lia.
  - intros a. left. lia.
Qed.
End budget.

(** C23: the failover loop ends.  Whatever accounts of the pool are selected,
    whatever the upstreams answer and however often no account is left, the
    request continues for at most
    [(retry limit + windows of the account), over the pool, + 2 * MaxSwitches + 9]
    rounds: retries are bounded per account by its retry limit and, for errors
    that are retried until a deadline (OAuth 429), by one for each [step] that
    starts before the account's last deadline, which every wait takes; switches
    by [MaxSwitches], profit vetoes by nine, and the exclusions are cleared at
    most once per switch. *)
Theorem loop_terminates pool limit maxSwitches bound D step t0 rs s :
  0 <= limit -> 0 <= maxSwitches -> 0 < step <= sameAccountRetryDelay ->
  Forall (budgeted pool limit D step) rs -> clocked t0 rs (NewFailoverState maxSwitches bound) ->
  play_rounds rs (NewFailoverState maxSwitches bound) = Some s ->
  Z.of_nat (length rs) <= total (elements pool) (fun a => limit + windows D step t0 a) + 2 * maxSwitches + 9.
Proof.
  intros Hl Hm Hstep Hb Hc H.
  destruct (spent_rounds pool limit maxSwitches D step t0 Hstep _ _ _ _ _ _ _ (spent_start pool limit maxSwitches D step t0 bound Hl Hm) Hb Hc H)
    as (w & b & t & [H1 H2 H3 H4 H5 H6 H7 H8 _]).
  assert (Ht : total (elements pool) (retries_of s) <= total (elements pool) (fun a => limit + windows D step t0 a)).
  { apply total_mono. intros a _. specialize (H3 a). specialize (H8 a). lia. }
  assert (0 <= other_exclusions s) by (unfold other_exclusions; case_bool_decide; lia).
  unfold maxProfitVetoAttempts in H5. lia.
Qed.

(** ** Exclusions *)

Lemma play_round_keeps_veto r s s' :
  play_round r s = Some s' -> profitVetoedAccountIDs s ⊆ FailedAccountIDs s ->
  profitVetoedAccountIDs s' ⊆ FailedAccountIDs s' /\ profitVetoedAccountIDs s ⊆ profitVetoedAccountIDs s'.
Proof.
  intros H Hv. destruct r as [canceled interrupted|id|canceled id platform retryLimit e now interrupted|]; simpl in H; [..|done].
  - case_bool_decide as Hne; [done|]. unfold HandleSelectionExhausted in H. destruct canceled; [done|].
    destruct (_ && _); [|done]. destruct (allExclusionsAreProfitVetoed s); [done|].
    destruct (sleepWithContext _ _) as [[] ?]; [|done]. injection H as <-. done.
  - unfold RecordProfitVeto in H. simpl in H. destruct (_ <=? _); [done|]. injection H as <-. simpl. set_solver.
  - unfold HandleFailoverError in H. destruct canceled; [done|]. destruct e as [e|]; [|done]. destruct (negb _); [done|]. cbv zeta in H.
    set (retry := sameAccountRetryAllowed _ _ _ _) in H. set (s1 := if needForceCacheBilling _ _ retry then _ else _) in H.
    assert (Hs1 : FailedAccountIDs s1 = FailedAccountIDs s /\ profitVetoedAccountIDs s1 = profitVetoedAccountIDs s)
      by (unfold s1; by destruct (needForceCacheBilling _ _ _)).
    clearbody s1. destruct Hs1 as [E1 E2]. destruct retry.
    + destruct (sleepWithContext _ _) as [[] ?]; [|done]. injection H as <-. simpl. by rewrite E1, E2.
    + destruct (_ <=? _); [done|]. destruct (platform =s _).
      * destruct (sleepWithContext _ _) as [[] ?]; [|done]. injection H as <-. simpl. rewrite E1, E2. set_solver.
      * injection H as <-. simpl. rewrite E1, E2. set_solver.
Qed.

(** an account the profit check has turned down stays excluded for the rest
    of the request, also when the exclusions are cleared for a retry. *)
Theorem vetoed_stays_excluded rs1 rs2 id maxSwitches bound s1 s2 :
  play_rounds rs1 (NewFailoverState maxSwitches bound) = Some s1 -> play_rounds (ProfitVetoed id :: rs2) s1 = Some s2 ->
  id ∈ FailedAccountIDs s2.
Proof.
  assert (Hk : forall rs s s', play_rounds rs s = Some s' -> profitVetoedAccountIDs s ⊆ FailedAccountIDs s ->
    profitVetoedAccountIDs s' ⊆ FailedAccountIDs s' /\ profitVetoedAccountIDs s ⊆ profitVetoedAccountIDs s').
  { induction rs as [|r rs IH]; intros s s' H Hv; simpl in H; [by injection H as <-|].
    destruct (play_round r s) as [s0|] eqn:E; [|done]. destruct (play_round_keeps_veto _ _ _ E Hv) as [Hv' Hsub].
    destruct (IH _ _ H Hv') as [Hv'' Hsub']. split; [done | by transitivity (profitVetoedAccountIDs s0)]. }
  intros H1 H2. apply Hk in H1 as [Hv _]; [|done]. simpl in H2.
  destruct (maxProfitVetoAttempts <=? profitVetoCount s1 + 1) eqn:Ev; [done|]. simpl in H2.
  apply Hk in H2 as [Hv2 Hsub]; simpl in *; set_solver.
Qed.

(** ** Examples *)

Definition demo_error : UpstreamFailoverError := FailoverErr 503 false true 0 0 0 true NextAccountLegacyRetry.

(** One retry, a switch, a veto, no account left, and the cleared list. *)
Definition demo_rounds : list round :=
  [AttemptFailed false 1 "gemini" 1 (Some demo_error) 5 false; AttemptFailed false 1 "gemini" 1 (Some demo_error) 6 false;
   ProfitVetoed 2; NoAccount false false].

(** Two retries within a window of three seconds, then a switch, a veto, no
    account left, and the cleared list. *)
Definition window_error : UpstreamFailoverError := FailoverErr 429 false true Second (3 * Second) 0 false NextAccountLegacyRetry.
Definition window_rounds : list round :=
  [AttemptFailed false 1 "openai" 1 (Some window_error) 5 false; AttemptFailed false 1 "openai" 1 (Some window_error) (2 * Second) false;
   AttemptFailed false 1 "openai" 1 (Some demo_error) (4 * Second) false; ProfitVetoed 2; NoAccount false false].

Lemma loop_terminates_witness :
  5 <= total (elements ({[ 1; 2 ]} : gset Z)) (fun a => 1 + windows (fun _ => 3 * Second) (500 * Millisecond) 5 a) + 2 * 3 + 9.
Proof.
  destruct (play_rounds window_rounds (NewFailoverState 3 true)) as [s|] eqn:E; [|by vm_compute in E].
  apply (loop_terminates {[ 1; 2 ]} 1 3 true (fun _ => 3 * Second) (500 * Millisecond) 5 window_rounds s); [done | done | done | | | exact E].
  - repeat constructor; simpl; try done; try set_solver. all: by left.
  - vm_compute. repeat split; discriminate.
Defined.

Lemma vetoed_stays_excluded_witness : exists s, play_rounds demo_rounds (NewFailoverState 3 true) = Some s /\ 2 ∈ FailedAccountIDs s.
Proof.
  destruct (play_rounds (take 2 demo_rounds) (NewFailoverState 3 true)) as [s1|] eqn:E1; [|by vm_compute in E1].
  destruct (play_rounds demo_rounds (NewFailoverState 3 true)) as [s2|] eqn:E2; [|by vm_compute in E2].
  exists s2. split; [done|]. apply (vetoed_stays_excluded (take 2 demo_rounds) [NoAccount false false] 2 3 true s1 s2 E1).
  rewrite <- E2. revert E1. vm_compute. intros [= <-]. reflexivity.
Defined.

End Failover.
