(* ===== verification/ImageLimiter.v ===== *)
(** * ImageLimiter: the in-process limit on concurrent image requests

    Models [src/backend/internal/handler/image_concurrency_limiter.go].  A
    goroutine is a program counter in a transition system; one step is one
    critical section of the mutex, one wake-up, or one timeout, so any number
    of requests interleave.  Channels are numbered: the limiter keeps the
    number of the current [notify] channel, and closing a channel puts its
    number in a set.

    The closures [releaseFunc] and [waiterReleaseFunc] run at most once
    ([sync.Once]): a goroutine leaves [Holding] and [Leaving] once. *)

From S2P Require Import Prelude GoStrings.

Module ImageLimiter.

Record imageConcurrencyLimiter := Limiter {
  notify : option nat;
  limit : Z;
  active : Z;
  waiting : Z;
  enabled : bool;
  next_channel : nat;      (* the channels made so far *)
  closed : gset nat        (* those closed *)
}.
#[export] Instance limiter_struct : Struct imageConcurrencyLimiter := fun l =>
  Limiter (notify l) (limit l) (active l) (waiting l) (enabled l) (next_channel l) (closed l).

Definition sharedImageConcurrencyLimiter : imageConcurrencyLimiter := Limiter None 0 0 0 false 0 ∅.

(** The arguments of [Acquire]. *)
Record request := Request { r_enabled : bool; r_limit : Z; r_wait : bool; r_timeout : Duration; r_maxWaiting : Z }.

(** [acquireImageConcurrencySlot]: the arguments from the configuration. *)
Definition acquireImageConcurrencySlot (cfg_enabled : bool) (maxConcurrent : Z) (overflowMode : string)
    (waitTimeoutSeconds maxWaitingRequests : Z) : request :=
  Request cfg_enabled maxConcurrent (TrimSpace overflowMode =s "wait") (waitTimeoutSeconds * Second) maxWaitingRequests.

(** The part of [acquire] before its loop: [Some] answers at once. *)
Definition acquire_gate (r : request) : option bool :=
  if negb (r_enabled r) || (r_limit r <=? 0) then Some true
  else if r_wait r && (r_timeout r <=? 0) then Some false
  else None.

Definition bounded_waiting (r : request) : Z := Z.max 0 (r_maxWaiting r).

Inductive try_result := Acquired | Rejected | MustWait (ch : nat).

Definition make_channel (l : imageConcurrencyLimiter) : imageConcurrencyLimiter :=
  l <| notify := Some (next_channel l) |> <| next_channel := S (next_channel l) |>.

Definition tryAcquireLocked (r : request) (l : imageConcurrencyLimiter) : try_result * imageConcurrencyLimiter :=
  let l := match notify l with None => make_channel l | Some _ => l end in
  let l := l <| enabled := r_enabled r |> <| limit := r_limit r |> in
  if active l <? limit l then (Acquired, l <| active := active l + 1 |>)
  else if negb (r_wait r) then (Rejected, l)
  else if (0 <? bounded_waiting r) && (bounded_waiting r <=? waiting l) then (Rejected, l)
  else (MustWait (default 0%nat (notify l)), l <| waiting := waiting l + 1 |>).

Definition release (l : imageConcurrencyLimiter) : imageConcurrencyLimiter :=
  let l := if 0 <? active l then l <| active := active l - 1 |> else l in
  match notify l with
  | Some ch => make_channel (l <| closed := closed l ∪ {[ ch ]} |>)
  | None => l
  end.

Definition waiterRelease (l : imageConcurrencyLimiter) : imageConcurrencyLimiter :=
  if 0 <? waiting l then l <| waiting := waiting l - 1 |> else l.

(** ** Goroutines *)

Inductive pc :=
| Trying                 (* about to enter [tryAcquireLocked] *)
| Waiting (ch : nat)     (* in [waitForSlot] *)
| Leaving (woken : bool) (* [waitForSlot] has returned, [waitRelease] is next *)
| Holding                (* has a slot, [release] not called *)
| Done (acquired : bool).

Record system := System { lim : imageConcurrencyLimiter; procs : gmap nat (request * pc) }.

Definition set_pc (pid : nat) (r : request) (p : pc) (l : imageConcurrencyLimiter) (s : system) : system :=
  System l (<[pid := (r, p)]> (procs s)).

Definition after_try (t : try_result) : pc :=
  match t with Acquired => Holding | Rejected => Done false | MustWait ch => Waiting ch end.

Inductive step : system -> system -> Prop :=
| step_call s pid r :
    procs s !! pid = None ->
    step s (set_pc pid r (match acquire_gate r with Some a => Done a | None => Trying end) (lim s) s)
| step_try s pid r t l' :
    procs s !! pid = Some (r, Trying) -> tryAcquireLocked r (lim s) = (t, l') -> step s (set_pc pid r (after_try t) l' s)
| step_notified s pid r ch :
    procs s !! pid = Some (r, Waiting ch) -> ch ∈ closed (lim s) -> step s (set_pc pid r (Leaving true) (lim s) s)
| step_timeout s pid r ch :
    procs s !! pid = Some (r, Waiting ch) -> step s (set_pc pid r (Leaving false) (lim s) s)
| step_leave s pid r woken :
    procs s !! pid = Some (r, Leaving woken) ->
    step s (set_pc pid r (if woken then Trying else Done false) (waiterRelease (lim s)) s)
| step_release s pid r :
    procs s !! pid = Some (r, Holding) -> step s (set_pc pid r (Done true) (release (lim s)) s).

Definition system_start : system := System sharedImageConcurrencyLimiter ∅.
Definition reachable (s : system) : Prop := rtc step system_start s.

Definition holds (x : request * pc) : bool := match snd x with Holding => true | _ => false end.
Definition queued (x : request * pc) : bool := match snd x with Waiting _ | Leaving _ => true | _ => false end.

Definition holders (s : system) : Z := count_if holds (procs s).
Definition waiters (s : system) : Z := count_if queued (procs s).

(** Every request so far satisfies [P]. *)
Definition requests (P : request -> Prop) (s : system) : Prop := forall pid r p, procs s !! pid = Some (r, p) -> P r.

(** ** Invariants *)

Lemma requests_back P s s' : step s s' -> requests P s' -> requests P s.
Proof.
  intros Hs H pid r p Hp. destruct Hs as [s q r0 Hq|s q r0 t l' Hq Ht|s q r0 ch Hq Hc|s q r0 ch Hq|s q r0 w Hq|s q r0 Hq];
    unfold set_pc in H; simpl in H; (destruct (decide (q = pid)) as [->|Hn]; [|eapply (H pid r p); simpl; by rewrite lookup_insert_ne]);
    rewrite Hp in Hq; try done; simplify_eq; eapply (H pid); simpl; by rewrite lookup_insert_eq.
Qed.

(** The counters count. *)
Definition counted (s : system) : Prop := active (lim s) = holders s /\ waiting (lim s) = waiters s.

Lemma tryAcquireLocked_cases r l t l' :
  tryAcquireLocked r l = (t, l') ->
  limit l' = r_limit r /\ closed l' = closed l /\ (next_channel l <= next_channel l')%nat /\
  (notify l' = notify l \/ notify l = None /\ notify l' = Some (next_channel l) /\ next_channel l' = S (next_channel l)) /\ is_Some (notify l') /\
  match t with
  | Acquired => active l < r_limit r /\ active l' = active l + 1 /\ waiting l' = waiting l
  | Rejected => active l' = active l /\ waiting l' = waiting l
  | MustWait ch => r_limit r <= active l /\ active l' = active l /\ waiting l' = waiting l + 1 /\ r_wait r = true /\
      (0 < r_maxWaiting r -> waiting l < r_maxWaiting r) /\ notify l' = Some ch
  end.
Proof.
  unfold tryAcquireLocked. set (l1 := match notify l with None => make_channel l | Some _ => l end).
  assert (H1 : active l1 = active l /\ waiting l1 = waiting l /\ closed l1 = closed l /\ (next_channel l <= next_channel l1)%nat /\
    (notify l1 = notify l \/ notify l = None /\ notify l1 = Some (next_channel l) /\ next_channel l1 = S (next_channel l)) /\ is_Some (notify l1)).
  { unfold l1, make_channel. destruct (notify l) eqn:E; simpl; rewrite ?E; split_and!; auto; lia || eauto. }
  clearbody l1. destruct H1 as (E1 & E2 & E3 & E4 & E5 & E6). cbv zeta. simpl.
  destruct (active l1 <? r_limit r) eqn:Ea; [intros [= <- <-]; simpl; split_and!; auto; lia|].
  destruct (r_wait r) eqn:Ew; simpl; [|intros [= <- <-]; simpl; split_and!; auto].
  destruct (_ && _) eqn:Em; intros [= <- <-]; simpl; split_and!; auto; try lia.
  - unfold bounded_waiting in Em. lia.
  - destruct E6 as [ch ->]. done.
Qed.

Ltac limiter_steps Hs :=
  destruct Hs as [s pid r Hp|s pid r t l' Hp Ht|s pid r ch Hp Hcl|s pid r ch Hp|s pid r w Hp|s pid r Hp].

Lemma counted_step s s' : step s s' -> counted s -> counted s'.
Proof.
  intros Hs [Ha Hw]. assert (H0 := count_if_nonneg holds (procs s)). assert (H1 := count_if_nonneg queued (procs s)).
  unfold counted, holders, waiters in *. limiter_steps Hs; simpl; rewrite ?(count_if_insert_new _ _ _ _ Hp), ?(count_if_insert _ _ _ _ _ Hp); simpl.
  - destruct (acquire_gate r); simpl; lia.
  - apply tryAcquireLocked_cases in Ht as (_ & _ & _ & _ & _ & Ht). destruct t; simpl; lia.
  - lia.
  - lia.
  - assert (Hq := count_if_insert queued _ _ (r, Done false) _ Hp). simpl in Hq.
    assert (H2 := count_if_nonneg queued (<[pid := (r, Done false)]> (procs s))).
    unfold waiterRelease. replace (0 <? waiting (lim s)) with true by lia. destruct w; simpl; lia.
  - assert (Hq := count_if_insert holds _ _ (r, Done false) _ Hp). simpl in Hq.
    assert (H2 := count_if_nonneg holds (<[pid := (r, Done false)]> (procs s))).
    unfold release. replace (0 <? active (lim s)) with true by lia. simpl. destruct (notify (lim s)); simpl; lia.
Qed.

(** The channels of the waiting requests. *)
Definition channels (N : Z) (s : system) : Prop :=
  (forall ch, notify (lim s) = Some ch -> (ch < next_channel (lim s))%nat /\ ch ∉ closed (lim s)) /\
  (notify (lim s) = None -> active (lim s) = 0 /\ waiting (lim s) = 0) /\
  (forall ch, ch ∈ closed (lim s) -> (ch < next_channel (lim s))%nat) /\
  (active (lim s) <= N) /\
  forall pid r ch, procs s !! pid = Some (r, Waiting ch) ->
    ch ∈ closed (lim s) \/ (notify (lim s) = Some ch /\ active (lim s) = N).

Lemma release_cases l :
  (active (release l) = if 0 <? active l then active l - 1 else active l) /\ waiting (release l) = waiting l /\
  match notify l with
  | Some ch => notify (release l) = Some (next_channel l) /\ next_channel (release l) = S (next_channel l) /\
      closed (release l) = closed l ∪ {[ ch ]}
  | None => notify (release l) = None /\ closed (release l) = closed l /\ next_channel (release l) = next_channel l
  end.
Proof. unfold release. destruct (0 <? active l); simpl; destruct (notify l) eqn:E; simpl; rewrite ?E; by split_and!. Qed.

(** A request waiting on a channel stays put while others move. *)
Lemma waiting_lookup (m : gmap nat (request * pc)) pid q r r' p ch :
  <[pid := (r, p)]> m !! q = Some (r', Waiting ch) -> p <> Waiting ch -> m !! q = Some (r', Waiting ch).
Proof. rewrite lookup_insert. case_decide; [|done]. intros [= -> ->]. done. Qed.

Lemma channels_step N s s' :
  step s s' -> requests (fun r => r_limit r = N) s -> counted s -> 0 < N -> channels N s -> channels N s'.
Proof.
  intros Hs Hr Hc HN (H1 & H2 & H3 & H4 & H5).
  assert (Hkeep : forall q r p, p = Holding \/ p = Trying \/ (exists w, p = Leaving w) \/ (exists a, p = Done a) ->
    forall r' pid ch, <[q := (r, p)]> (procs s) !! pid = Some (r', Waiting ch) ->
    ch ∈ closed (lim s) \/ (notify (lim s) = Some ch /\ active (lim s) = N)).
  { intros q r p Hp r' pid ch Hl. apply waiting_lookup in Hl; [by eapply H5|]. intros ->. by destruct Hp as [Hp|[Hp|[[? Hp]|[? Hp]]]]. }
  unfold channels. limiter_steps Hs; simpl.
  - split_and!; [done..|]. intros pid' r' ch Hl. eapply Hkeep; [|exact Hl]. destruct (acquire_gate r); eauto.
  - assert (HrN : r_limit r = N) by (by eapply Hr). apply tryAcquireLocked_cases in Ht as (_ & Ec & En & Enot & Hsome & Ht).
    assert (K1 : forall ch, notify l' = Some ch -> (ch < next_channel l')%nat /\ ch ∉ closed l').
    { intros ch Hch. rewrite Ec. destruct Enot as [E|(E & E' & E'')].
      - rewrite E in Hch. destruct (H1 ch Hch). split; [lia|done].
      - rewrite E' in Hch. injection Hch as <-. split; [lia|]. intros Hin. apply H3 in Hin. lia. }
    split; [exact K1|]. split; [intros E; rewrite E in Hsome; by destruct Hsome|].
    split; [intros ch Hch; rewrite Ec in Hch; apply H3 in Hch; lia|]. split; [destruct t; lia|].
    intros pid' r' ch Hl. rewrite Ec. destruct t as [| |c]; simpl in Hl.
    + destruct (Hkeep pid r Holding ltac:(eauto) _ _ _ Hl) as [|[E ?]]; [by left|]. lia.
    + destruct (Hkeep pid r (Done false) ltac:(eauto) _ _ _ Hl) as [|[E ?]]; [by left|]. right.
      destruct Enot as [->|[E' _]]; [|congruence]. split; [done|lia].
    + rewrite lookup_insert in Hl. case_decide.
      * injection Hl as <- <-. right. split; [apply Ht|]. lia.
      * destruct (H5 _ _ _ Hl) as [|[E ?]]; [by left|]. right. destruct Enot as [->|[E' _]]; [|congruence]. split; [done|lia].
  - split_and!; [done..|]. intros pid' r' ch' Hl. eapply Hkeep; [|exact Hl]. eauto.
  - split_and!; [done..|]. intros pid' r' ch' Hl. eapply Hkeep; [|exact Hl]. eauto.
  - assert (E : forall l, notify (waiterRelease l) = notify l /\ closed (waiterRelease l) = closed l /\
      next_channel (waiterRelease l) = next_channel l /\ active (waiterRelease l) = active l).
    { intros l. unfold waiterRelease. by destruct (0 <? waiting l). }
    destruct (E (lim s)) as (-> & -> & -> & ->).
    split; [exact H1|]. split; [|split; [exact H3|split; [exact H4|]]].
    + intros Hn. destruct (H2 Hn) as [? Hz]. split; [done|]. unfold waiterRelease. by rewrite Hz.
    + intros pid' r' ch' Hl. eapply Hkeep; [|exact Hl]. destruct w; eauto.
  - destruct (release_cases (lim s)) as (Ea & Ew & En). destruct Hc as [Hc _].
    assert (Hpos : 0 < active (lim s)).
    { rewrite Hc. unfold holders. assert (Hq := count_if_insert holds _ _ (r, Done false) _ Hp). simpl in Hq.
      assert (Hnn := count_if_nonneg holds (<[pid := (r, Done false)]> (procs s))). lia. }
    destruct (notify (lim s)) as [ch0|] eqn:E0; [|destruct (H2 eq_refl); lia]. destruct En as (En1 & En2 & En3).
    rewrite Ea, Ew, En1, En2, En3. replace (0 <? active (lim s)) with true by lia.
    split; [|split; [done|split; [|split; [lia|]]]].
    + intros ch [= <-]. split; [lia|]. rewrite elem_of_union, elem_of_singleton. intros [Hin|Hin]; [apply H3 in Hin; lia|].
      destruct (H1 ch0 eq_refl). lia.
    + intros ch. rewrite elem_of_union, elem_of_singleton. intros [Hin| ->]; [apply H3 in Hin; lia|]. destruct (H1 ch0 eq_refl). lia.
    + intros pid' r' ch Hl. left. rewrite elem_of_union, elem_of_singleton.
      destruct (Hkeep pid r (Done true) ltac:(eauto) _ _ _ Hl) as [|[[= <-] _]]; auto.
Qed.

(** Invariants of the systems whose requests all satisfy [P]. *)
Lemma reachable_invariant (P : request -> Prop) (I : system -> Prop) s :
  I system_start -> (forall s s', step s s' -> requests P s' -> I s -> I s') -> reachable s -> requests P s -> I s.
Proof.
  intros H0 Hstep H. refine (rtc_ind_r (fun s => requests P s -> I s) system_start (fun _ => H0) _ s H).
  intros s1 s2 _ Hs IH Hr. eapply Hstep; [exact Hs | done |]. apply IH. by eapply requests_back.
Qed.

Lemma reachable_counted s : reachable s -> counted s.
Proof.
  intros H. refine (reachable_invariant (fun _ => True) counted s _ _ H _); [done | | by unfold requests].
  intros s1 s2 Hs _. by apply counted_step.
Qed.

(** C35: the limit holds.  In every interleaving of requests - acquiring,
    waiting, being woken, timing out, releasing - the limiter's [active] and
    [waiting] counters are the numbers of slot holders and of queued requests;
    when no request asks for more than [N] slots, and every waiting one caps
    the queue at [M], at most [N] requests hold a slot and at most [M] wait. *)
Theorem limit_holds N M s :
  0 <= N -> 0 <= M -> reachable s ->
  requests (fun r => r_limit r <= N /\ (r_wait r = true -> 0 < r_maxWaiting r <= M)) s ->
  active (lim s) = holders s /\ holders s <= N /\ waiting (lim s) = waiters s /\ waiters s <= M.
Proof.
  intros HN HM Hreach Hr. destruct (reachable_counted s Hreach) as [Ha Hw]. rewrite <- Ha, <- Hw.
  enough (H : active (lim s) <= N /\ waiting (lim s) <= M) by (destruct H; by split_and!).
  revert Hreach Hr. apply (reachable_invariant _ (fun s => active (lim s) <= N /\ waiting (lim s) <= M)); [done|].
  clear s Ha Hw. intros s s' Hs Hr [H1 H2].
  limiter_steps Hs; simpl; auto.
  - assert (Hr0 : r_limit r <= N /\ (r_wait r = true -> 0 < r_maxWaiting r <= M)).
    { eapply (Hr pid r). unfold set_pc. simpl. by rewrite lookup_insert_eq. }
    apply tryAcquireLocked_cases in Ht as (_ & _ & _ & _ & _ & Ht). destruct Hr0 as [HrN HrM]. destruct t; try lia.
    destruct Ht as (_ & -> & -> & Hwait & Hcap & _). apply HrM in Hwait. split; [done|]. lia.
  - unfold waiterRelease. destruct (0 <? waiting (lim s)); simpl; lia.
  - destruct (release_cases (lim s)) as (-> & -> & _). destruct (0 <? active (lim s)); lia.
Qed.

(** C36: no wake-up is lost.  When all requests use one limit [N], a request
    sleeping on a channel that has not been closed means that all [N] slots
    are taken, so some request holds one, and the release of any holder
    closes that channel: nobody sleeps while a slot is free. *)
Theorem no_lost_wakeup N s pid r ch :
  0 < N -> reachable s -> requests (fun r => r_limit r = N) s ->
  procs s !! pid = Some (r, Waiting ch) -> ch ∉ closed (lim s) ->
  holders s = N /\ (exists pid' r', procs s !! pid' = Some (r', Holding)) /\ ch ∈ closed (release (lim s)).
Proof.
  intros HN Hreach Hr Hp Hch.
  assert (HI : counted s /\ channels N s).
  { revert Hreach Hr. apply (reachable_invariant _ (fun s => counted s /\ channels N s)).
    - split; [done|]. unfold channels. simpl. split_and!; try done; lia || set_solver.
    - intros s1 s2 Hs Hr [Hc Hch']. split; [by eapply counted_step|].
      eapply channels_step; eauto. by eapply requests_back. }
  destruct HI as [[Ha _] (H1 & H2 & H3 & H4 & H5)]. destruct (H5 _ _ _ Hp) as [|[Hn Hact]]; [done|].
  rewrite Ha in Hact. split; [done|]. split.
  - destruct (count_if_positive holds (procs s)) as (q & [r' p] & Hq & Hh); [unfold holders in *; lia|].
    exists q, r'. rewrite Hq. by destruct p.
  - destruct (release_cases (lim s)) as (_ & _ & Hrel). rewrite Hn in Hrel. destruct Hrel as (_ & _ & ->). set_solver.
Qed.

(** ** A run: two requests, one slot *)

Definition demo_request : request := acquireImageConcurrencySlot true 1 " wait " 30 4.

Definition demo_l1 : imageConcurrencyLimiter := snd (tryAcquireLocked demo_request sharedImageConcurrencyLimiter).
Definition demo_l2 : imageConcurrencyLimiter := snd (tryAcquireLocked demo_request demo_l1).
Definition demo_system : system :=
  System demo_l2 (<[1%nat := (demo_request, Waiting 0)]> (<[1%nat := (demo_request, Trying)]>
    (<[0%nat := (demo_request, Holding)]> (<[0%nat := (demo_request, Trying)]> ∅)))).

Lemma two_requests_reachable : reachable demo_system.
Proof.
  eapply rtc_l; [apply (step_call system_start 0%nat demo_request); done|].
  eapply rtc_l; [by apply (step_try _ 0%nat demo_request Acquired demo_l1)|].
  eapply rtc_l; [by apply (step_call _ 1%nat demo_request)|].
  eapply rtc_l; [by apply (step_try _ 1%nat demo_request (MustWait 0) demo_l2)|]. apply rtc_refl.
Qed.

Lemma two_requests_alike : requests (fun r => r = demo_request) demo_system.
Proof.
  intros pid r p H. simpl in H. rewrite !lookup_insert in H. repeat case_decide; try done; by injection H as <- _.
Qed.

Lemma limit_holds_witness : holders demo_system <= 1 /\ waiters demo_system <= 4.
Proof.
  destruct (limit_holds 1 4 demo_system ltac:(lia) ltac:(lia) two_requests_reachable) as (_ & H1 & _ & H2); [|done].
  intros pid r p H. apply two_requests_alike in H as ->. simpl. lia.
Defined.

Lemma no_lost_wakeup_witness : holders demo_system = 1 /\ 0%nat ∈ closed (release (lim demo_system)).
Proof.
  destruct (no_lost_wakeup 1 demo_system 1 demo_request 0 ltac:(lia) two_requests_reachable) as (H1 & _ & H2);
    [intros pid r p H; by apply two_requests_alike in H as -> | done | by vm_compute | done].
Defined.

End ImageLimiter.
