(* ===== verification/InvalidAuth.v ===== *)
(** * InvalidAuth: the limiter of clients with invalid API keys

    Models [src/backend/internal/service/invalid_auth_abuse_limiter.go]: 16
    shards of entries by client key, a shared overflow entry for the keys
    that no longer fit, and the counters.  Each critical section (of a shard,
    of the overflow entry) and each claim of the cleanup turn is one function
    on the limiter's state; [check] and [record] compose them, and the
    invariant is proved for every order of these sections, so for all
    interleavings of callers.  The clock is an argument.  The [uint64]
    statistics counters wrap around; [tracked] is bounded by the capacity. *)

From S2P Require Import Prelude GoStrings.

Module InvalidAuth.

Definition invalidAuthAbuseShardCount : Z := 16.

Record invalidAuthAbuseEntry := Entry { failures : Z; windowStart : Time; blockedUntil : Time }.
#[export] Instance entry_struct : Struct invalidAuthAbuseEntry := fun e => Entry (failures e) (windowStart e) (blockedUntil e).

(** The overflow entry has the fields of an entry. *)
Definition invalidAuthOverflow : Type := invalidAuthAbuseEntry.

Record invalidAuthAbuseLimiter := Limiter {
  threshold : Z;
  window : Duration;
  block : Duration;
  capacity : Z;
  shards : list (gmap string invalidAuthAbuseEntry);
  overflow : invalidAuthOverflow;
  tracked : Z;
  recorded : Z;
  blocked : Z;
  rejected : Z;
  expired : Z;
  overflowed : Z;
  globalBlocked : Z;
  cleanupNext : Z;
  cleanupCursor : Z
}.
#[export] Instance limiter_struct : Struct invalidAuthAbuseLimiter := fun l =>
  Limiter (threshold l) (window l) (block l) (capacity l) (shards l) (overflow l) (tracked l) (recorded l) (blocked l) (rejected l)
    (expired l) (overflowed l) (globalBlocked l) (cleanupNext l) (cleanupCursor l).

(** The fields of the configuration. *)
Record InvalidAbuseConfig := AbuseConfig { Enabled : bool; Threshold : Z; WindowSeconds : Z; BlockSeconds : Z; Capacity : Z }.

Definition newInvalidAuthAbuseLimiter (cfg : option InvalidAbuseConfig) : option invalidAuthAbuseLimiter :=
  match cfg with
  | None => None
  | Some c =>
      if negb (Enabled c) then None
      else if (Threshold c <=? 0) || (WindowSeconds c <=? 0) || (BlockSeconds c <=? 0) || (Capacity c <=? 0) then None
      else Some (Limiter (Threshold c) (WindowSeconds c * Second) (BlockSeconds c * Second) (Capacity c)
        (replicate (Z.to_nat invalidAuthAbuseShardCount) ∅) (Entry 0 time_zero time_zero) 0 0 0 0 0 0 0 0 0)
  end.

(** The FNV-1a hash of the key picks its shard. *)
Fixpoint fnv (hash : Z) (l : list ascii) : Z :=
  match l with
  | [] => hash
  | c :: l => fnv (uint32 (Z.lxor hash (byte_of c) * 16777619)) l
  end.

Definition shard (clientKey : string) : nat := Z.to_nat (fnv 2166136261 (to_bytes clientKey) mod invalidAuthAbuseShardCount).

Definition entryExpired (l : invalidAuthAbuseLimiter) (entry : invalidAuthAbuseEntry) (now : Time) : bool :=
  negb (After (blockedUntil entry) now) && negb (After (windowStart entry) now) &&
  negb (Before now (time_Add (windowStart entry) (window l))).

Definition shard_entries (l : invalidAuthAbuseLimiter) (i : nat) : gmap string invalidAuthAbuseEntry := default ∅ (shards l !! i).

Definition set_entries (i : nat) (es : gmap string invalidAuthAbuseEntry) (l : invalidAuthAbuseLimiter) : invalidAuthAbuseLimiter :=
  l <| shards := <[i := es]> (shards l) |>.

(** ** Cleanup *)

(** The compare-and-swap that gives one caller the cleanup turn. *)
Definition claim_cleanup (now : Time) (l : invalidAuthAbuseLimiter) : option nat * invalidAuthAbuseLimiter :=
  if tracked l <? capacity l then (None, l)
  else if UnixNano now <? cleanupNext l then (None, l)
  else
    let index := cleanupCursor l in
    (Some (Z.to_nat (index mod invalidAuthAbuseShardCount)),
     l <| cleanupNext := UnixNano (time_Add now (100 * Millisecond)) |> <| cleanupCursor := uint32 (cleanupCursor l + 1) |>).

(** The sweep of one shard. *)
Definition sweep (i : nat) (now : Time) (l : invalidAuthAbuseLimiter) : invalidAuthAbuseLimiter :=
  let kept := filter (fun ke => entryExpired l (snd ke) now = false) (shard_entries l i) in
  let gone := map_len (shard_entries l i) - map_len kept in
  set_entries i kept l <| tracked := tracked l - gone |> <| expired := uint64 (expired l + gone) |>.

Definition maybeCleanupAtCapacity (now : Time) (l : invalidAuthAbuseLimiter) : invalidAuthAbuseLimiter :=
  match claim_cleanup now l with
  | (Some i, l) => sweep i now l
  | (None, l) => l
  end.

(** ** The critical section of a shard *)

(** Looking a key up drops its entry if that has expired. *)
Definition drop_expired (clientKey : string) (now : Time) (l : invalidAuthAbuseLimiter)
    : option invalidAuthAbuseEntry * invalidAuthAbuseLimiter :=
  match shard_entries l (shard clientKey) !! clientKey with
  | Some entry =>
      if entryExpired l entry now
      then (None, set_entries (shard clientKey) (delete clientKey (shard_entries l (shard clientKey))) l
                    <| tracked := tracked l - 1 |> <| expired := uint64 (expired l + 1) |>)
      else (Some entry, l)
  | None => (None, l)
  end.

Definition check_shard (clientKey : string) (now : Time) (l : invalidAuthAbuseLimiter)
    : option invalidAuthAbuseEntry * invalidAuthAbuseLimiter := drop_expired clientKey now l.

Definition checkOverflow (now : Time) (l : invalidAuthAbuseLimiter) : Duration * bool :=
  if After (blockedUntil (overflow l)) now then (time_Sub (blockedUntil (overflow l)) now, true) else (0, false).

Definition check (clientKey : string) (now : Time) (l : invalidAuthAbuseLimiter) : (Duration * bool) * invalidAuthAbuseLimiter :=
  if clientKey =s "" then ((0, false), l)
  else
    let l := maybeCleanupAtCapacity now l in
    let '(entry, l) := check_shard clientKey now l in
    match entry with
    | Some e =>
        if After (blockedUntil e) now
        then ((time_Sub (blockedUntil e) now, true), l <| rejected := uint64 (rejected l + 1) |>)
        else ((0, false), l)
    | None =>
        if capacity l <=? tracked l then
          let '(retry, b) := checkOverflow now l in
          if b then ((retry, true), l <| rejected := uint64 (rejected l + 1) |> <| globalBlocked := uint64 (globalBlocked l + 1) |>)
          else ((0, false), l)
        else ((0, false), l)
    end.

(** A failure on an entry: the new entry, and whether it was blocked by it. *)
Definition record_entry (l : invalidAuthAbuseLimiter) (now : Time) (reset : bool) (entry : invalidAuthAbuseEntry)
    : invalidAuthAbuseEntry * bool :=
  let entry := if reset then entry <| windowStart := now |> <| failures := 0 |> else entry in
  let entry := entry <| failures := failures entry + 1 |> in
  if threshold l <=? failures entry then
    (Entry 0 (time_Add now (block l)) (time_Add now (block l)), true)
  else (entry, false).

Definition reserveEntry (l : invalidAuthAbuseLimiter) : bool * invalidAuthAbuseLimiter :=
  if capacity l <=? tracked l then (false, l) else (true, l <| tracked := tracked l + 1 |>).

Definition count_block (tripped : bool) (l : invalidAuthAbuseLimiter) : invalidAuthAbuseLimiter :=
  if tripped then l <| blocked := uint64 (blocked l + 1) |> else l.

(** [false]: the key had no entry and there was no room for one. *)
Definition record_shard (clientKey : string) (now : Time) (l : invalidAuthAbuseLimiter) : bool * invalidAuthAbuseLimiter :=
  let '(entry, l) := drop_expired clientKey now l in
  let '(room, l) := match entry with Some _ => (true, l) | None => reserveEntry l end in
  if negb room then (false, l)
  else
    let entry := default (Entry 0 now time_zero) entry in
    let i := shard clientKey in
    let es := shard_entries l i in
    if After (blockedUntil entry) now then (true, set_entries i (<[clientKey := entry]> es) l)
    else
      let reset := After (windowStart entry) now || negb (Before now (time_Add (windowStart entry) (window l))) in
      let '(entry, tripped) := record_entry l now reset entry in
      (true, count_block tripped (set_entries i (<[clientKey := entry]> es) l)).

Definition recordOverflow (now : Time) (l : invalidAuthAbuseLimiter) : invalidAuthAbuseLimiter :=
  let l := l <| overflowed := uint64 (overflowed l + 1) |> in
  if After (blockedUntil (overflow l)) now then l
  else
    let reset := IsZero (windowStart (overflow l)) || negb (Before now (time_Add (windowStart (overflow l)) (window l))) in
    let '(entry, tripped) := record_entry l now reset (overflow l) in
    count_block tripped (l <| overflow := entry |>).

Definition record (clientKey : string) (now : Time) (l : invalidAuthAbuseLimiter) : invalidAuthAbuseLimiter :=
  if clientKey =s "" then l
  else
    let l := l <| recorded := uint64 (recorded l + 1) |> in
    let l := maybeCleanupAtCapacity now l in
    let '(fits, l) := record_shard clientKey now l in
    if fits then l else recordOverflow now l.

Record InvalidAuthAbuseHealth := Health {
  h_Enabled : bool; h_Tracked : Z; h_Capacity : Z; h_Recorded : Z; h_Blocks : Z; h_Rejected : Z; h_Expired : Z;
  h_Overflowed : Z; h_GlobalBlocked : Z
}.

Definition health (l : invalidAuthAbuseLimiter) : InvalidAuthAbuseHealth :=
  Health true (tracked l) (capacity l) (recorded l) (blocked l) (rejected l) (expired l) (overflowed l) (globalBlocked l).

(** The methods of the service: a nil limiter never blocks. *)
Definition CheckInvalidAuthAbuse (clientKey : string) (now : Time) (l : option invalidAuthAbuseLimiter)
    : (Duration * bool) * option invalidAuthAbuseLimiter :=
  match l with None => ((0, false), None) | Some l => let '(r, l) := check clientKey now l in (r, Some l) end.

Definition RecordInvalidAuthFailure (clientKey : string) (now : Time) (l : option invalidAuthAbuseLimiter)
    : option invalidAuthAbuseLimiter := record clientKey now <$> l.

(** ** The critical sections in any order *)

Inductive section :=
| ClaimCleanup (now : Time)
| Sweep (i : nat) (now : Time)
| CheckShard (clientKey : string) (now : Time)
| RecordShard (clientKey : string) (now : Time)
| RecordOverflow (now : Time).

Definition exec (c : section) (l : invalidAuthAbuseLimiter) : invalidAuthAbuseLimiter :=
  match c with
  | ClaimCleanup now => snd (claim_cleanup now l)
  | Sweep i now => sweep i now l
  | CheckShard k now => snd (check_shard k now l)
  | RecordShard k now => snd (record_shard k now l)
  | RecordOverflow now => recordOverflow now l
  end.

Definition entries_total (ms : list (gmap string invalidAuthAbuseEntry)) : Z := foldr (fun m acc => map_len m + acc) 0 ms.

Lemma entries_total_insert i m ms :
  (i < length ms)%nat -> entries_total (<[i := m]> ms) = entries_total ms - map_len (default ∅ (ms !! i)) + map_len m.
Proof.
  revert i. induction ms as [|m0 ms IH]; intros [|i] Hi; simpl in *; [lia..|]. rewrite IH by lia. lia.
Qed.

(** [tracked] counts the entries, within the capacity, each in its shard. *)
Record good (l : invalidAuthAbuseLimiter) : Prop := {
  g_shards : length (shards l) = Z.to_nat invalidAuthAbuseShardCount;
  g_tracked : tracked l = entries_total (shards l);
  g_capacity : tracked l <= capacity l;
  g_place : forall i k, is_Some (shard_entries l i !! k) -> i = shard k
}.

Lemma shard_lt k : (shard k < Z.to_nat invalidAuthAbuseShardCount)%nat.
Proof. unfold shard, invalidAuthAbuseShardCount. assert (H := Z.mod_pos_bound (fnv 2166136261 (to_bytes k)) 16). lia. Qed.

Lemma shard_entries_set i j es l :
  (i < length (shards l))%nat -> shard_entries (set_entries i es l) j = if decide (i = j) then es else shard_entries l j.
Proof. intros Hi. unfold shard_entries, set_entries. simpl. rewrite list_lookup_insert. repeat case_decide; naive_solver lia. Qed.

(** Replacing one shard's entries by [es] and adjusting [tracked] accordingly. *)
Lemma good_set l l' i es :
  good l -> (i < length (shards l))%nat -> shards l' = <[i := es]> (shards l) -> capacity l' = capacity l ->
  tracked l' = tracked l - map_len (shard_entries l i) + map_len es -> tracked l' <= capacity l ->
  (forall k, is_Some (es !! k) -> i = shard k) -> good l'.
Proof.
  intros [H1 H2 H3 H4] Hi Es Ec Et Hc Hk. split; rewrite ?Es, ?Ec, ?Et; [by rewrite length_insert | | lia |].
  - rewrite entries_total_insert by done. unfold shard_entries. lia.
  - intros j k. unfold shard_entries. rewrite Es, list_lookup_insert. case_decide as E; [destruct E as [<- ?]; apply Hk|]. apply H4.
Qed.

Lemma good_same l l' :
  good l -> shards l' = shards l -> capacity l' = capacity l -> tracked l' = tracked l -> good l'.
Proof. intros [H1 H2 H3 H4] Es Ec Et. split; unfold shard_entries; rewrite ?Es, ?Ec, ?Et; auto. Qed.

Lemma good_drop_expired k now l : good l -> good (snd (drop_expired k now l)).
Proof.
  intros Hg. unfold drop_expired. destruct (shard_entries l (shard k) !! k) as [e|] eqn:Ee; [|done].
  destruct (entryExpired l e now); [|done].
  assert (Hlen := map_len_delete k (shard_entries l (shard k)) (ex_intro _ e Ee)).
  eapply (good_set l _ (shard k)); [done | rewrite (g_shards l Hg); apply shard_lt | done | done | | |]; simpl.
  - rewrite Hlen. lia.
  - assert (H := g_capacity l Hg). lia.
  - intros k' [x Hx]. apply lookup_delete_Some in Hx as [_ Hx]. apply (g_place l Hg). eauto.
Qed.

Lemma good_sweep i now l : good l -> good (sweep i now l).
Proof.
  intros Hg. unfold sweep. set (P := fun ke : string * invalidAuthAbuseEntry => entryExpired l ke.2 now = false).
  assert (Hle := map_len_filter_le P (shard_entries l i)).
  destruct (decide (i < length (shards l))%nat) as [Hi|Hi].
  - eapply (good_set l _ i); [done | done | done | done | simpl; lia | simpl |].
    + assert (H := g_capacity l Hg). lia.
    + intros k Hk. apply (g_place l Hg). by apply (filter_keys P).
  - assert (E : shard_entries l i = ∅) by (unfold shard_entries; rewrite lookup_ge_None_2 by lia; done).
    rewrite E in *. apply (good_same l); [done | simpl; apply list_insert_ge; lia | done |].
    simpl. rewrite map_filter_empty. unfold map_len. rewrite map_size_empty. lia.
Qed.

Lemma good_store k e l :
  good l -> is_Some (shard_entries l (shard k) !! k) -> good (set_entries (shard k) (<[k := e]> (shard_entries l (shard k))) l).
Proof.
  intros Hg Hk. eapply (good_set l _ (shard k)); [done | rewrite (g_shards l Hg); apply shard_lt | done | done | | |]; simpl.
  - rewrite map_len_insert_present by done. lia.
  - apply (g_capacity l Hg).
  - intros k' [x Hx]. apply lookup_insert_Some in Hx as [[<- _]|[_ Hx]]; [done|]. apply (g_place l Hg). eauto.
Qed.

Lemma good_reserved k e l l' :
  good l -> shard_entries l (shard k) !! k = None -> reserveEntry l = (true, l') ->
  good (set_entries (shard k) (<[k := e]> (shard_entries l' (shard k))) l').
Proof.
  unfold reserveEntry. intros Hg Hk H. destruct (capacity l <=? tracked l) eqn:E; [done|]. injection H as <-.
  apply (good_set l _ (shard k) (<[k := e]> (shard_entries l (shard k)))); [done | rewrite (g_shards l Hg); apply shard_lt | done | done | | |]; simpl.
  - rewrite map_len_insert_absent by done. lia.
  - lia.
  - intros k' [x Hx]. apply lookup_insert_Some in Hx as [[<- _]|[_ Hx]]; [done|]. apply (g_place l Hg). eauto.
Qed.

Lemma good_count b l : good l -> good (count_block b l).
Proof. intros Hg. destruct b; [by apply (good_same l)|done]. Qed.

(** What [drop_expired] finds. *)
Lemma drop_expired_entry k now l : good l ->
  shard_entries (snd (drop_expired k now l)) (shard k) !! k = fst (drop_expired k now l).
Proof.
  intros Hg. unfold drop_expired. destruct (shard_entries l (shard k) !! k) as [e|] eqn:Ee; [|done].
  destruct (entryExpired l e now); [|done]. unfold shard_entries, set_entries. simpl. rewrite list_lookup_insert.
  rewrite decide_True by (split; [done | rewrite (g_shards l Hg); apply shard_lt]). apply lookup_delete_eq.
Qed.

Lemma good_record_shard k now l : good l -> good (snd (record_shard k now l)).
Proof.
  intros Hg. unfold record_shard. assert (Hd := good_drop_expired k now l Hg). assert (He := drop_expired_entry k now l Hg).
  destruct (drop_expired k now l) as [entry l1]. simpl in Hd, He. destruct entry as [e|].
  - simpl. destruct (After (blockedUntil e) now); [apply good_store; eauto|].
    destruct (record_entry _ _ _ _) as [e' tripped]. apply good_count, good_store; eauto.
  - destruct (reserveEntry l1) as [room l2] eqn:Er. destruct room; simpl.
    + destruct (After time_zero now); [by apply (good_reserved _ _ l1)|].
      destruct (record_entry _ _ _ _) as [e' tripped]. simpl. apply good_count. by apply (good_reserved _ _ l1).
    + unfold reserveEntry in Er. destruct (capacity l1 <=? tracked l1); [by injection Er as <-|done].
Qed.

Lemma good_exec c l : good l -> good (exec c l).
Proof.
  intros Hg. destruct c as [now|i now|k now|k now|now]; simpl.
  - unfold claim_cleanup. destruct (tracked l <? capacity l); [done|]. destruct (UnixNano now <? cleanupNext l); [done|]. by apply (good_same l).
  - by apply good_sweep.
  - by apply good_drop_expired.
  - by apply good_record_shard.
  - unfold recordOverflow. destruct (After _ now); [by apply (good_same l)|]. destruct (record_entry _ _ _ _) as [e tripped].
    apply good_count. by apply (good_same l).
Qed.

Lemma good_new cfg l : newInvalidAuthAbuseLimiter cfg = Some l -> good l.
Proof.
  unfold newInvalidAuthAbuseLimiter. destruct cfg as [c|]; [|done]. destruct (negb (Enabled c)); [done|].
  destruct (_ || _) eqn:E; [done|]. intros [= <-]. split; cbn [shards tracked capacity]; [done | done | lia |].
  intros i k [x Hx]. unfold shard_entries in Hx. cbn [shards] in Hx.
  do 16 (destruct i as [|i]; [done|]). done.
Qed.

(** the limiter's memory is bounded.  In every order of the critical
    sections of concurrent callers - at any clock readings - the number of
    entries over all shards is exactly [tracked] and never exceeds the
    configured capacity, and every key sits in the shard of its hash. *)
Theorem memory_bounded cfg l0 cs :
  newInvalidAuthAbuseLimiter cfg = Some l0 ->
  let l := run exec cs l0 in
  tracked l = entries_total (shards l) /\ entries_total (shards l) <= capacity l /\
  forall i k, is_Some (shard_entries l i !! k) -> i = shard k.
Proof.
  intros H l. assert (Hg : good l) by (apply (run_invariant exec good); [intros c l1; apply good_exec | by eapply good_new]).
  destruct Hg as [_ H2 H3 H4]. split_and!; [done | lia | done].
Qed.

(** ** One client *)

Inductive op := Check (clientKey : string) (now : Time) | Record (clientKey : string) (now : Time).

Definition do_op (o : op) (l : invalidAuthAbuseLimiter) : invalidAuthAbuseLimiter :=
  match o with Check k now => snd (check k now l) | Record k now => record k now l end.

Definition op_time (o : op) : Time := match o with Check _ now | Record _ now => now end.

(** The failures of [k] among the calls. *)
Definition records (k : string) (ops : list op) : Z :=
  foldr (fun o acc => match o with Record k' _ => if k' =s k then 1 + acc else acc | Check _ _ => acc end) 0 ops.

Definition entry_of (k : string) (l : invalidAuthAbuseLimiter) : option invalidAuthAbuseEntry := shard_entries l (shard k) !! k.

(** What no call changes. *)
Definition settings (l : invalidAuthAbuseLimiter) : Z * Duration * Duration * Z := (threshold l, window l, block l, capacity l).

(** Steps that may touch the entries of other keys only. *)
Definition frames (k : string) (l l' : invalidAuthAbuseLimiter) : Prop :=
  good l' /\ settings l' = settings l /\ entry_of k l' = entry_of k l.

Lemma frames_same k l l' :
  good l -> shards l' = shards l -> tracked l' = tracked l -> settings l' = settings l -> frames k l l'.
Proof.
  intros Hg Es Et Ec. split_and!; [|done|by unfold entry_of, shard_entries; rewrite Es].
  eapply good_same; [exact Hg | done | | done]. unfold settings in Ec. congruence.
Qed.

Lemma frames_trans k l1 l2 l3 : frames k l1 l2 -> frames k l2 l3 -> frames k l1 l3.
Proof. intros (H1 & H2 & H3) (H4 & H5 & H6). split_and!; [done | by rewrite H5 | by rewrite H6]. Qed.

Lemma entry_of_set k i es l :
  good l -> entry_of k (set_entries i es l) = if decide (i = shard k) then es !! k else entry_of k l.
Proof.
  intros Hg. unfold entry_of, shard_entries, set_entries. simpl. rewrite list_lookup_insert.
  assert (H := shard_lt k). rewrite <- (g_shards l Hg) in H. repeat case_decide; try done; naive_solver lia.
Qed.

Lemma expired_settings l l' e now : settings l' = settings l -> entryExpired l' e now = entryExpired l e now.
Proof. unfold settings, entryExpired. by intros [= _ -> _ _]. Qed.

Lemma cleanup_frames k now l :
  good l -> match entry_of k l with Some e => entryExpired l e now = false | None => True end ->
  frames k l (maybeCleanupAtCapacity now l).
Proof.
  intros Hg He. unfold maybeCleanupAtCapacity, claim_cleanup. destruct (tracked l <? capacity l); [by apply frames_same|].
  destruct (UnixNano now <? cleanupNext l); [by apply frames_same|].
  set (l1 := l <| cleanupNext := _ |> <| cleanupCursor := _ |>). set (i := Z.to_nat _).
  assert (H1 : frames k l l1) by (by apply frames_same). assert (H1' := H1). destruct H1' as (Hg1 & Hs1 & He1).
  apply (frames_trans k l l1); [done|]. split_and!; [by apply good_sweep | done |]. unfold sweep.
  change (entry_of k (set_entries i (filter (fun ke => entryExpired l1 ke.2 now = false) (shard_entries l1 i)) l1) = entry_of k l1).
  rewrite entry_of_set by done. case_decide as Ei; [|done]. rewrite Ei. fold (entry_of k l1).
  change (shard_entries l1 (shard k) !! k) with (entry_of k l1). rewrite He1.
  destruct (entry_of k l) as [e|] eqn:Ee.
  - apply map_lookup_filter_Some. split; [by rewrite <- He1 in Ee|]. simpl. by rewrite (expired_settings _ _ _ _ Hs1).
  - apply map_lookup_filter_None_2. left. by rewrite <- He1 in Ee.
Qed.

Lemma drop_expired_frames k k' now l :
  good l -> (k' <> k \/ match entry_of k l with Some e => entryExpired l e now = false | None => True end) ->
  frames k l (snd (drop_expired k' now l)).
Proof.
  intros Hg Hk. unfold drop_expired. destruct (shard_entries l (shard k') !! k') as [e|] eqn:Ee; [|by apply frames_same].
  destruct (entryExpired l e now) eqn:Ex; [|by apply frames_same].
  assert (Hgd := good_drop_expired k' now l Hg). unfold drop_expired in Hgd. rewrite Ee, Ex in Hgd.
  split_and!; [exact Hgd | done |]. simpl in *.
  change (entry_of k (set_entries (shard k') (delete k' (shard_entries l (shard k'))) l) = entry_of k l).
  rewrite entry_of_set by done. case_decide as Es; [|done]. destruct (decide (k' = k)) as [->|Hn].
  - destruct Hk as [|Hk]; [done|]. unfold entry_of in Hk. rewrite Ee in Hk. congruence.
  - rewrite lookup_delete_ne by done. unfold entry_of. by rewrite Es.
Qed.

Lemma check_frames k k' now l :
  good l -> match entry_of k l with Some e => entryExpired l e now = false | None => True end ->
  frames k l (snd (check k' now l)).
Proof.
  intros Hg He. unfold check. destruct (k' =s ""); [by apply frames_same|].
  assert (H1 := cleanup_frames k now l Hg He). set (l1 := maybeCleanupAtCapacity now l) in *. clearbody l1.
  assert (H1' := H1). destruct H1' as (Hg1 & Hs1 & He1).
  assert (H2 : frames k l1 (snd (check_shard k' now l1))).
  { apply drop_expired_frames; [done|]. right. rewrite He1. destruct (entry_of k l); [|done]. by rewrite (expired_settings _ _ _ _ Hs1). }
  unfold check_shard in *. destruct (drop_expired k' now l1) as [entry l2]. simpl in H2.
  apply (frames_trans k l l1); [done|]. apply (frames_trans k l1 l2); [done|].
  destruct H2 as (Hg2 & _ & _). destruct entry as [e|].
  - destruct (After _ now); by apply frames_same.
  - destruct (capacity l2 <=? tracked l2); [|by apply frames_same].
    destruct (checkOverflow now l2) as [retry []]; by apply frames_same.
Qed.

(** The bookkeeping of [record] around the critical section of the shard. *)
Lemma record_unfold k now l :
  k <> "" -> exists l1, l1 = maybeCleanupAtCapacity now (l <| recorded := uint64 (recorded l + 1) |>) /\
  record k now l = (if fst (record_shard k now l1) then snd (record_shard k now l1) else recordOverflow now (snd (record_shard k now l1))).
Proof.
  intros Hk. eexists. split; [done|]. unfold record. apply String.eqb_neq in Hk. rewrite Hk. cbv zeta.
  by destruct (record_shard k now _) as [[] ?].
Qed.

Lemma overflow_frames k now l : good l -> frames k l (recordOverflow now l).
Proof.
  intros Hg. unfold recordOverflow. destruct (After _ now); [by apply frames_same|].
  destruct (record_entry _ _ _ _) as [e tripped]. destruct tripped; by apply frames_same.
Qed.

Lemma store_frames k k' e l :
  good l -> k' <> k -> good (set_entries (shard k') (<[k' := e]> (shard_entries l (shard k'))) l) ->
  frames k l (set_entries (shard k') (<[k' := e]> (shard_entries l (shard k'))) l).
Proof.
  intros Hg Hn Hg'. split_and!; [done | done |]. rewrite entry_of_set by done. case_decide as Es; [|done].
  rewrite lookup_insert_ne by done. unfold entry_of. by rewrite Es.
Qed.

Lemma record_shard_other k k' now l :
  good l -> k' <> k -> frames k l (snd (record_shard k' now l)).
Proof.
  intros Hg Hn. assert (Hgood := good_record_shard k' now l Hg). revert Hgood. unfold record_shard.
  assert (H1 := drop_expired_frames k k' now l Hg (or_introl Hn)).
  destruct (drop_expired k' now l) as [entry l1]. simpl in H1. assert (Hg1 := proj1 H1).
  set (lr := match entry with Some _ => (true, l1) | None => reserveEntry l1 end).
  assert (Hsame : shards (snd lr) = shards l1 /\ settings (snd lr) = settings l1 /\ (fst lr = false -> snd lr = l1)).
  { unfold lr, reserveEntry. destruct entry; [done|]. by destruct (capacity l1 <=? tracked l1). }
  destruct lr as [room l2]. destruct Hsame as (Es & Ec & Er). simpl in Es, Ec, Er.
  destruct room; simpl; [|by rewrite Er].
  assert (Hset : forall e tripped l3, l3 = count_block tripped (set_entries (shard k') (<[k' := e]> (shard_entries l2 (shard k'))) l2) ->
    good l3 -> frames k l l3).
  { intros e tripped l3 -> Hg3. apply (frames_trans k l l1); [done|].
    assert (He : entry_of k (set_entries (shard k') (<[k' := e]> (shard_entries l2 (shard k'))) l2) = entry_of k l1).
    { unfold entry_of, shard_entries, set_entries. simpl. rewrite Es, list_lookup_insert. case_decide as Ed; [|done].
      destruct Ed as [Ed _]. simpl. rewrite lookup_insert_ne by done. by rewrite Ed. }
    split_and!; [done | destruct tripped; exact Ec | destruct tripped; exact He]. }
  destruct (After _ now); [intros Hg3; by eapply (Hset _ false)|].
  destruct (record_entry _ _ _ _) as [e tripped]. intros Hg3. by eapply Hset.
Qed.

Lemma op_cases k o : match o with Record k' _ => k' <> k | Check _ _ => True end \/ exists now, o = Record k now.
Proof. destruct o as [k' now|k' now]; [by left|]. destruct (decide (k' = k)) as [->|]; eauto. Qed.

(** A call that is not a failure of [k] leaves a live entry of [k] alone. *)
Lemma op_frames k o l e :
  good l -> entry_of k l = Some e -> entryExpired l e (op_time o) = false ->
  match o with Record k' _ => k' <> k | Check _ _ => True end -> frames k l (do_op o l).
Proof.
  intros Hg He Hx Hk. destruct o as [k' now|k' now]; simpl in *; [apply check_frames; by rewrite ?He|].
  destruct (decide (k' = "")) as [->|Hne]; [by apply frames_same|].
  destruct (record_unfold k' now l Hne) as (l1 & El1 & ->).
  set (l0 := l <| recorded := uint64 (recorded l + 1) |>) in *.
  assert (H0 : frames k l l0) by (by apply frames_same). assert (H1 : frames k l0 l1).
  { rewrite El1. apply cleanup_frames; [apply H0|]. destruct H0 as (_ & Hs0 & ->). rewrite He. by rewrite (expired_settings _ _ _ _ Hs0). }
  apply (frames_trans k l l0); [done|]. apply (frames_trans k l0 l1); [done|]. destruct H1 as (Hg1 & _).
  assert (H2 := record_shard_other k k' now l1 Hg1 Hk). destruct (record_shard k' now l1) as [[] l2]; simpl in *; [done|].
  apply (frames_trans k l1 l2); [done|]. apply overflow_frames, H2.
Qed.

(** A failure of [k] on its live entry. *)
Lemma record_live k now l e :
  good l -> k <> "" -> entry_of k l = Some e -> entryExpired l e now = false ->
  good (record k now l) /\ settings (record k now l) = settings l /\
  entry_of k (record k now l) = Some (
    if After (blockedUntil e) now then e
    else fst (record_entry l now (After (windowStart e) now || negb (Before now (time_Add (windowStart e) (window l)))) e)).
Proof.
  intros Hg Hne He Hx. destruct (record_unfold k now l Hne) as (l1 & El1 & ->).
  set (l0 := l <| recorded := uint64 (recorded l + 1) |>) in *.
  assert (H0 : frames k l l0) by (by apply frames_same). assert (H1 : frames k l0 l1).
  { rewrite El1. apply cleanup_frames; [apply H0|]. destruct H0 as (_ & Hs0 & ->). rewrite He. by rewrite (expired_settings _ _ _ _ Hs0). }
  assert (H01 := frames_trans k l l0 l1 H0 H1). destruct H01 as (Hg1 & Hs1 & He1). rewrite He in He1.
  assert (Hx1 : entryExpired l1 e now = false) by (by rewrite (expired_settings _ _ _ _ Hs1)).
  assert (Hset : threshold l1 = threshold l /\ window l1 = window l /\ block l1 = block l) by (unfold settings in Hs1; by injection Hs1 as -> -> -> _).
  destruct Hset as (Et & Ew & Eb). assert (Hgood := good_record_shard k now l1 Hg1). revert Hgood. unfold record_shard.
  assert (Ed : drop_expired k now l1 = (Some e, l1)) by (unfold drop_expired; unfold entry_of in He1; by rewrite He1, Hx1).
  rewrite Ed. simpl. destruct (After (blockedUntil e) now).
  - simpl. intros Hg2. split_and!; [done | exact Hs1 |]. rewrite entry_of_set by done. rewrite decide_True by done. apply lookup_insert_eq.
  - rewrite Ew. assert (Er : forall b, record_entry l1 now b e = record_entry l now b e) by (intros b; unfold record_entry; by rewrite Et, Eb).
    rewrite Er. destruct (record_entry l now _ e) as [e' tripped] eqn:Ee. simpl. intros Hg2. split_and!; [done | by destruct tripped |].
    transitivity (entry_of k (set_entries (shard k) (<[k := e']> (shard_entries l1 (shard k))) l1)); [by destruct tripped|].
    rewrite entry_of_set by done. rewrite decide_True by done. apply lookup_insert_eq.
Qed.

Lemma check_live k now l e :
  good l -> k <> "" -> entry_of k l = Some e -> entryExpired l e now = false ->
  fst (check k now l) = if After (blockedUntil e) now then (time_Sub (blockedUntil e) now, true) else (0, false).
Proof.
  intros Hg Hne He Hx. unfold check. apply String.eqb_neq in Hne. rewrite Hne.
  assert (H1 := cleanup_frames k now l Hg ltac:(by rewrite He)). destruct H1 as (Hg1 & Hs1 & He1).
  set (l1 := maybeCleanupAtCapacity now l) in *. rewrite He in He1.
  unfold check_shard, drop_expired. unfold entry_of in He1. rewrite He1. rewrite (expired_settings _ _ _ _ Hs1), Hx.
  by destruct (After (blockedUntil e) now).
Qed.

(** The first failure of a key with room for its entry. *)
Lemma record_first k now l :
  good l -> k <> "" -> entry_of k l = None -> tracked l < capacity l -> 0 <= now -> 0 < window l -> 1 < threshold l ->
  good (record k now l) /\ settings (record k now l) = settings l /\ entry_of k (record k now l) = Some (Entry 1 now time_zero).
Proof.
  intros Hg Hne He Hroom Hnow Hw Ht. destruct (record_unfold k now l Hne) as (l1 & El1 & ->).
  set (l0 := l <| recorded := uint64 (recorded l + 1) |>) in *.
  assert (H0 : frames k l l0) by (by apply frames_same).
  assert (l1 = l0) as -> by (rewrite El1; unfold maybeCleanupAtCapacity, claim_cleanup; simpl; by replace (tracked l <? capacity l) with true by lia).
  destruct H0 as (Hg0 & Hs0 & He0). rewrite He in He0. assert (Hgood := good_record_shard k now l0 Hg0). revert Hgood.
  assert (Er : record_shard k now l0 = (true, set_entries (shard k) (<[k := Entry 1 now time_zero]> (shard_entries l0 (shard k)))
    (l0 <| tracked := tracked l0 + 1 |>))).
  { unfold record_shard, drop_expired. unfold entry_of in He0. rewrite He0. unfold reserveEntry.
    change (capacity l0) with (capacity l). change (tracked l0) with (tracked l). replace (capacity l <=? tracked l) with false by lia.
    simpl. replace (After time_zero now) with false by time_lia. replace (After now now) with false by time_lia.
    replace (Before now (time_Add now (window l))) with true by time_lia. simpl. unfold record_entry. simpl.
    by replace (threshold l <=? 0 + 1) with false by lia. }
  rewrite Er. simpl. intros Hg2. split_and!; [done | done |].
  transitivity (entry_of k (set_entries (shard k) (<[k := Entry 1 now time_zero]> (shard_entries l0 (shard k))) l0)); [done|].
  rewrite entry_of_set by done. rewrite decide_True by done. apply lookup_insert_eq.
Qed.

(** [n] failures since [t1], below the threshold. *)
Definition counting (k : string) (t1 : Time) (n : Z) (l0 l : invalidAuthAbuseLimiter) : Prop :=
  good l /\ settings l = settings l0 /\ entry_of k l = Some (Entry n t1 time_zero).

Lemma counting_live l0 l t1 n now :
  settings l = settings l0 -> t1 <= now < time_Add t1 (window l0) -> entryExpired l (Entry n t1 time_zero) now = false.
Proof. intros Hs Hn. rewrite (expired_settings _ _ _ _ Hs). unfold entryExpired. simpl. time_lia. Qed.

Lemma counting_ops k t1 l0 ops l n :
  k <> "" -> 0 <= t1 -> counting k t1 n l0 l -> Forall (fun o => t1 <= op_time o < time_Add t1 (window l0)) ops ->
  0 <= n -> n + records k ops < threshold l0 -> counting k t1 (n + records k ops) l0 (run do_op ops l).
Proof.
  intros Hne Ht1 Hc Ht. revert n l Hc. induction Ht as [|o ops Ho Ht IH]; intros n l Hc Hn Hlt.
  { simpl in *. by rewrite Z.add_0_r. }
  destruct Hc as (Hg & Hs & He). change (run do_op (o :: ops) l) with (run do_op ops (do_op o l)).
  assert (Hx := counting_live l0 l t1 n (op_time o) Hs Ho).
  assert (Hpos : 0 <= records k ops) by (clear; induction ops as [|[] ? ?]; simpl; [lia..|]; case_match; lia).
  destruct (op_cases k o) as [Hother|[now ->]].
  - assert (Hf : frames k l (do_op o l)) by (by eapply op_frames). destruct Hf as (Hg' & Hs' & He').
    assert (Er : records k (o :: ops) = records k ops).
    { destruct o as [|k' now]; [done|]. simpl. apply String.eqb_neq in Hother. by rewrite Hother. }
    rewrite Er in *. apply IH; [|lia..]. split_and!; [done | congruence | congruence].
  - simpl in Ho, Hx, Hlt |- *. rewrite String.eqb_refl in *. destruct (record_live k now l _ Hg Hne He Hx) as (Hg' & Hs' & He').
    replace (n + (1 + records k ops)) with (n + 1 + records k ops) by lia.
    apply IH; [|lia..]. split_and!; [done | congruence |]. rewrite He'. cbn [blockedUntil windowStart].
    assert (Hset : threshold l = threshold l0 /\ window l = window l0) by (unfold settings in Hs; by injection Hs as -> -> _ _).
    destruct Hset as [Et Ew]. rewrite Ew. replace (After time_zero now) with false by time_lia.
    replace (After t1 now) with false by time_lia. replace (Before now (time_Add t1 (window l0))) with true by time_lia.
    simpl. unfold record_entry. simpl. rewrite Et. by replace (threshold l0 <=? n + 1) with false by lia.
Qed.

(** A blocked key stays blocked, whatever is called before the block ends. *)
Lemma blocked_ops k B ops l :
  k <> "" -> good l -> entry_of k l = Some (Entry 0 B B) -> Forall (fun o => op_time o < B) ops ->
  frames k l (run do_op ops l).
Proof.
  intros Hne Hg He Ht. revert l Hg He. induction Ht as [|o ops Ho Ht IH]; intros l Hg He; [by apply frames_same|].
  change (run do_op (o :: ops) l) with (run do_op ops (do_op o l)).
  assert (Hx : entryExpired l (Entry 0 B B) (op_time o) = false) by (unfold entryExpired; simpl; time_lia).
  assert (Hf : frames k l (do_op o l)).
  { destruct (op_cases k o) as [Hother|[now ->]]; [by eapply op_frames|].
    simpl in Ho, Hx. destruct (record_live k now l _ Hg Hne He Hx) as (Hg' & Hs' & He'). split_and!; [done | done |].
    simpl do_op. rewrite He', He. simpl. by replace (After B now) with true by time_lia. }
  assert (Hf' := Hf). destruct Hf as (Hg' & Hs' & He'). apply (frames_trans k l (do_op o l)); [done|]. apply IH; congruence.
Qed.

(** C37: a client with an entry of its own is blocked by its [threshold]-th
    failure in a window, not before, and for exactly the block time.  The
    conditions: the threshold is more than one, and when the client's first
    failure arrives it has no entry yet and the limiter has room for one
    ([tracked] below [capacity]); at capacity its failures would count in the
    overflow entry that all clients without room share.  Then, whatever other
    clients do in between, however the cleanup runs and even if the limiter
    fills up: after fewer failures [check] lets the client through; after the
    [threshold]-th it answers the time left until the block ends, and once that
    has passed lets it through again. *)
Theorem blocked_at_threshold l k t1 ops t ops2 T :
  good l -> 0 < window l -> 1 < threshold l -> k <> "" -> 0 <= t1 -> entry_of k l = None -> tracked l < capacity l ->
  Forall (fun o => t1 <= op_time o < time_Add t1 (window l)) ops -> t1 <= t < time_Add t1 (window l) ->
  let l1 := run do_op ops (record k t1 l) in
  (1 + records k ops < threshold l -> fst (check k t l1) = (0, false)) /\
  (1 + records k ops = threshold l - 1 ->
   let until := time_Add t (block l) in
   Forall (fun o => op_time o < until) ops2 ->
   let l2 := run do_op ops2 (record k t l1) in
   (T < until -> fst (check k T l2) = (time_Sub until T, true)) /\
   (until <= T < time_Add until (window l) -> fst (check k T l2) = (0, false))).
Proof.
  intros Hg Hw Ht Hne Ht1 He Hroom Hops Htime l1.
  destruct (record_first k t1 l Hg Hne He Hroom Ht1 Hw Ht) as (Hg0 & Hs0 & He0).
  assert (Hc : 1 + records k ops < threshold l -> counting k t1 (1 + records k ops) l l1)
    by (intros Hlt; apply counting_ops; auto; [by split_and! | lia]).
  split.
  - intros Hlt. destruct (Hc Hlt) as (Hg1 & Hs1 & He1).
    rewrite (check_live k t l1 _ Hg1 Hne He1 (counting_live l l1 t1 _ t Hs1 Htime)). simpl. by replace (After time_zero t) with false by time_lia.
  - intros Hn until Hops2 l2. destruct (Hc ltac:(lia)) as (Hg1 & Hs1 & He1).
    destruct (record_live k t l1 _ Hg1 Hne He1 (counting_live l l1 t1 _ t Hs1 Htime)) as (Hg2 & Hs2 & He2).
    assert (Hset : threshold l1 = threshold l /\ window l1 = window l /\ block l1 = block l) by (unfold settings in Hs1; by injection Hs1 as -> -> -> _).
    destruct Hset as (Et & Ew & Eb). cbn [blockedUntil windowStart] in He2. rewrite Ew in He2.
    replace (After time_zero t) with false in He2 by time_lia. replace (After t1 t) with false in He2 by time_lia.
    replace (Before t (time_Add t1 (window l))) with true in He2 by time_lia. unfold record_entry in He2. simpl in He2.
    rewrite Et, Eb in He2. replace (threshold l <=? 1 + records k ops + 1) with true in He2 by lia. simpl in He2. fold until in He2.
    destruct (blocked_ops k until ops2 _ Hne Hg2 He2 Hops2) as (Hg3 & Hs3 & He3). fold l2 in Hg3, Hs3, He3. rewrite He2 in He3.
    assert (Hw3 : window l2 = window l) by (unfold settings in *; congruence).
    split; intros HT.
    + assert (Hx : entryExpired l2 (Entry 0 until until) T = false) by (unfold entryExpired; simpl; time_lia).
      rewrite (check_live k T l2 _ Hg3 Hne He3 Hx). simpl. by replace (After until T) with true by time_lia.
    + assert (Hx : entryExpired l2 (Entry 0 until until) T = false) by (unfold entryExpired; simpl; rewrite Hw3; time_lia).
      rewrite (check_live k T l2 _ Hg3 Hne He3 Hx). simpl. by replace (After until T) with false by time_lia.
Qed.

(** ** A run *)

Definition demo_cfg : InvalidAbuseConfig := AbuseConfig true 3 60 300 2.

Definition demo_limiter : invalidAuthAbuseLimiter :=
  Limiter 3 (60 * Second) (300 * Second) 2 (replicate 16 ∅) (Entry 0 time_zero time_zero) 0 0 0 0 0 0 0 0 0.

Lemma memory_bounded_witness : tracked (run exec [RecordShard "a" 5; RecordShard "b" 6; RecordShard "c" 7] demo_limiter) <= 2.
Proof.
  destruct (memory_bounded (Some demo_cfg) demo_limiter [RecordShard "a" 5; RecordShard "b" 6; RecordShard "c" 7] eq_refl) as (H1 & H2 & _).
  rewrite H1. exact H2.
Defined.

Lemma blocked_at_threshold_witness :
  fst (check "a" (10 * Second) (run do_op [Record "b" (4 * Second)] (record "a" (3 * Second)
    (run do_op [Check "b" (2 * Second); Record "a" (2 * Second)] (record "a" Second demo_limiter))))) = (293 * Second, true).
Proof.
  destruct (blocked_at_threshold demo_limiter "a" Second [Check "b" (2 * Second); Record "a" (2 * Second)] (3 * Second)
    [Record "b" (4 * Second)] (10 * Second) (good_new (Some demo_cfg) demo_limiter eq_refl)) as [_ H];
    [done | done | done | done | done | done | by repeat constructor | done |].
  destruct (H eq_refl ltac:(by repeat constructor)) as [H1 _]. exact (H1 eq_refl).
Defined.

End InvalidAuth.
