(* ===== verification/InflightReservation.v ===== *)
(** * InflightReservation: the reference count of a balance reservation

    Models the handle [InflightReservation] of
    [src/backend/internal/service/billing_inflight_reservation.go]: the
    handler and every billing task hold a reference, and the reserved amount
    is given back when the last one is returned.  A goroutine is a program
    counter; one step is one atomic operation on [refs], one run of a
    [sync.Once] body, or one renewal, so all interleavings are covered.

    The amounts, the estimate and the decision of the cache to admit a
    reservation are not modelled, nor is [Release] called directly by the
    wrapper [ReserveInflightBalance], whose handles are never acquired. *)

From S2P Require Import Prelude.

Module InflightReservation.

Inductive pc :=
| HandlerRunning        (* before [HandlerDone] *)
| HandlerStopping       (* in [stopOnce], renewal stopped, [decRef] next *)
| AcquireLoad           (* [Acquire], before [refs.Load] *)
| AcquireCas (cur : Z)  (* before [CompareAndSwap(cur, cur+1)] *)
| TaskHolds             (* [Acquire] returned; [done] not called *)
| TaskStopping          (* in [once], [decRef] next *)
| Releasing             (* [decRef] saw zero: [Release] next *)
| Returned.

Record reservation := Reservation {
  refs : Z;
  released : Z;     (* the calls of [ReleaseInflightBalance] *)
  renewing : bool   (* the renewal goroutine runs *)
}.
#[export] Instance reservation_struct : Struct reservation := fun r => Reservation (refs r) (released r) (renewing r).

(** [decRef], up to the call of [Release]. *)
Definition decRef (r : reservation) : bool * reservation :=
  let r := r <| refs := refs r - 1 |> in (refs r <=? 0, r).

(** The body of [releaseOnce]; [released] also says whether it has run. *)
Definition releaseOnce (r : reservation) : reservation :=
  if released r =? 0 then r <| refs := 0 |> <| released := 1 |> else r.

Definition stopRenewal (r : reservation) : reservation := r <| renewing := false |>.

(** One iteration of [Acquire]'s loop after the load: give up at zero. *)
Definition acquire_load (r : reservation) : pc := if refs r <=? 0 then Returned else AcquireCas (refs r).

Definition acquire_cas (cur : Z) (r : reservation) : pc * reservation :=
  if refs r =? cur then (TaskHolds, r <| refs := cur + 1 |>) else (AcquireLoad, r).

Record system := System { res : reservation; procs : gmap nat pc; renewals : nat }.

(** [reserveInflight]: one reference, renewal started, the handler running. *)
Definition system_start (renew : bool) : system := System (Reservation 1 0 renew) {[ 0%nat := HandlerRunning ]} 0.

Definition after_dec (zero : bool) : pc := if zero then Releasing else Returned.

Inductive step : system -> system -> Prop :=
| step_acquire s pid :
    procs s !! pid = None -> step s (System (res s) (<[pid := AcquireLoad]> (procs s)) (renewals s))
| step_load s pid :
    procs s !! pid = Some AcquireLoad -> step s (System (res s) (<[pid := acquire_load (res s)]> (procs s)) (renewals s))
| step_cas s pid cur p r :
    procs s !! pid = Some (AcquireCas cur) -> acquire_cas cur (res s) = (p, r) -> step s (System r (<[pid := p]> (procs s)) (renewals s))
| step_task_done s pid :
    procs s !! pid = Some TaskHolds -> step s (System (res s) (<[pid := TaskStopping]> (procs s)) (renewals s))
| step_handler_done s pid :
    procs s !! pid = Some HandlerRunning -> step s (System (stopRenewal (res s)) (<[pid := HandlerStopping]> (procs s)) (renewals s))
| step_dec s pid p zero r :
    procs s !! pid = Some p -> p = TaskStopping \/ p = HandlerStopping -> decRef (res s) = (zero, r) ->
    step s (System r (<[pid := after_dec zero]> (procs s)) (renewals s))
| step_release s pid :
    procs s !! pid = Some Releasing -> step s (System (releaseOnce (stopRenewal (res s))) (<[pid := Returned]> (procs s)) (renewals s))
| step_renew s :
    renewing (res s) = true -> step s (System (res s) (procs s) (S (renewals s)))
| step_renewal_ends s :   (* the reservation is gone from the cache *)
    step s (System (stopRenewal (res s)) (procs s) (renewals s)).

Definition reachable (renew : bool) (s : system) : Prop := rtc step (system_start renew) s.

(** Whose reference is not returned yet. *)
Definition holds (p : pc) : bool :=
  match p with HandlerRunning | HandlerStopping | TaskHolds | TaskStopping => true | _ => false end.
Definition is_releasing (p : pc) : bool := match p with Releasing => true | _ => false end.
Definition is_running (p : pc) : bool := match p with HandlerRunning => true | _ => false end.

Definition holders (s : system) : Z := count_if holds (procs s).
Definition releasing (s : system) : Z := count_if is_releasing (procs s).

Record counted (s : system) : Prop := {
  c_refs : refs (res s) = holders s;
  c_once : if 0 <? holders s then releasing s = 0 /\ released (res s) = 0 else releasing s + released (res s) = 1;
  c_released : 0 <= released (res s);
  c_renew : renewing (res s) = true -> 0 < count_if is_running (procs s);
  c_cas : forall pid cur, procs s !! pid = Some (AcquireCas cur) -> 0 < cur
}.

Lemma running_holds (m : gmap nat pc) : count_if is_running m <= count_if holds m.
Proof.
  induction m as [|k x m Hk IH] using map_ind; [by rewrite !count_if_empty|]. rewrite !count_if_insert_new by done.
  destruct x; simpl; lia.
Qed.

Ltac counts Hp :=
  rewrite ?(count_if_insert_new _ _ _ _ Hp), ?(count_if_insert _ _ _ _ _ Hp) in *; simpl in *.

Lemma cas_kept (m : gmap nat pc) pid p :
  (forall q cur, m !! q = Some (AcquireCas cur) -> 0 < cur) -> (forall cur, p = AcquireCas cur -> 0 < cur) ->
  forall q cur, <[pid := p]> m !! q = Some (AcquireCas cur) -> 0 < cur.
Proof. intros Hm Hp q cur. rewrite lookup_insert. case_decide; [|apply Hm]. intros [= E]. by apply Hp. Qed.

Lemma references_step s s' : step s s' -> counted s -> counted s'.
Proof.
  intros Hs [H1 H2 H0 H3 H4]. assert (N1 := count_if_nonneg holds (procs s)). assert (N2 := count_if_nonneg is_releasing (procs s)).
  assert (N3 := count_if_nonneg is_running (procs s)). unfold holders, releasing in *.
  destruct Hs as [s pid Hp|s pid Hp|s pid cur p r Hp Hc|s pid Hp|s pid Hp|s pid p zero r Hp Hd Hz|s pid Hp|s Hr|s].
  - split; unfold holders, releasing; simpl; rewrite ?(count_if_insert_new _ _ _ _ Hp); simpl; auto. by apply cas_kept.
  - assert (Hq : holds (acquire_load (res s)) = false /\ is_releasing (acquire_load (res s)) = false /\ is_running (acquire_load (res s)) = false)
      by (unfold acquire_load; by destruct (refs (res s) <=? 0)).
    destruct Hq as (Q1 & Q2 & Q3). split; unfold holders, releasing; simpl; rewrite ?(count_if_insert _ _ _ _ _ Hp), ?Q1, ?Q2, ?Q3; simpl; auto.
    apply cas_kept; [done|]. unfold acquire_load. destruct (refs (res s) <=? 0) eqn:E; [done|]. intros cur [= <-]. lia.
  - unfold acquire_cas in Hc. assert (Hcur := H4 _ _ Hp). destruct (refs (res s) =? cur) eqn:E; injection Hc as <- <-;
      split; unfold holders, releasing; simpl; rewrite ?(count_if_insert _ _ _ _ _ Hp); simpl; auto; try (by apply cas_kept).
    + lia.
    + destruct (0 <? count_if holds (procs s)) eqn:Eh; [|lia]. by replace (0 <? 1 - 0 + count_if holds (procs s)) with true by lia.
  - split; unfold holders, releasing; simpl; rewrite ?(count_if_insert _ _ _ _ _ Hp); simpl; auto. by apply cas_kept.
  - split; unfold holders, releasing; simpl; rewrite ?(count_if_insert _ _ _ _ _ Hp); simpl; auto; [done|]. by apply cas_kept.
  - injection Hz as <- <-. assert (Hh : holds p = true) by (by destruct Hd as [->| ->]).
    assert (Hr : is_running p = false) by (by destruct Hd as [->| ->]). assert (Hrel : is_releasing p = false) by (by destruct Hd as [->| ->]).
    assert (Hpos := count_if_insert holds _ _ Returned _ Hp). rewrite Hh in Hpos. simpl in Hpos.
    assert (Hnn := count_if_nonneg holds (<[pid := Returned]> (procs s))).
    replace (0 <? count_if holds (procs s)) with true in H2 by lia. destruct H2 as [E1 E2].
    destruct (refs (res s) - 1 <=? 0) eqn:Ez;
      (split; unfold holders, releasing; simpl; rewrite ?Ez; simpl; rewrite ?(count_if_insert _ _ _ _ _ Hp), ?Hh, ?Hr, ?Hrel; simpl;
       [lia | | lia | intros Hrn; apply H3 in Hrn; lia | by apply cas_kept]).
    + replace (0 <? _) with false by lia. lia.
    + replace (0 <? _) with true by lia. lia.
  - assert (Hpos := count_if_insert is_releasing _ _ Returned _ Hp). simpl in Hpos.
    assert (Hnn := count_if_nonneg is_releasing (<[pid := Returned]> (procs s))).
    destruct (0 <? count_if holds (procs s)) eqn:Eh; [lia|].
    assert (E0 : released (res s) = 0) by lia.
    split; unfold holders, releasing, releaseOnce; simpl; rewrite ?E0; simpl; rewrite ?(count_if_insert _ _ _ _ _ Hp); simpl; auto;
      [lia | replace (0 <? _) with false by lia; lia | lia | done | by apply cas_kept].
  - by split.
  - split; simpl; auto. done.
Qed.

Lemma references_counted renew s : reachable renew s -> counted s.
Proof.
  intros H. refine (rtc_ind_r counted (system_start renew) _ _ s H); [|intros s1 s2 _ Hs; by apply references_step].
  split; unfold holders, releasing; simpl; try done.
  intros pid cur Hl. rewrite lookup_singleton in Hl. case_decide; done.
Qed.

(** C38: a reservation is given back exactly once, and not too early.  In every
    interleaving of the handler, of any number of billing tasks that acquire
    and return the handle, and of renewals: the cache releases the amount at
    most once; while the handler runs or a task holds a reference it is not
    released and [refs] counts those holders; once the last reference is
    returned it is released, or the goroutine that returned it is about to
    release it; and a released reservation is no longer renewed. *)
Theorem released_exactly_once renew s :
  reachable renew s ->
  released (res s) <= 1 /\ refs (res s) = holders s /\
  (0 < holders s -> released (res s) = 0 /\ releasing s = 0) /\
  (holders s = 0 -> releasing s + released (res s) = 1) /\
  (released (res s) = 1 -> renewing (res s) = false).
Proof.
  intros H. destruct (references_counted renew s H) as [H1 H2 H0 H3 _].
  assert (N1 := count_if_nonneg is_releasing (procs s)). assert (N2 := count_if_nonneg holds (procs s)).
  unfold holders, releasing in *. destruct (0 <? count_if holds (procs s)) eqn:E; split_and!; try lia.
  intros Hr. destruct (renewing (res s)); [|done]. specialize (H3 eq_refl). assert (H4 := running_holds (procs s)). lia.
Qed.

(** a returned reservation cannot be revived: once no reference is held, an
    [Acquire] - even one that had read the counter before - never succeeds. *)
Theorem no_acquire_after_release renew s pid :
  reachable renew s -> holders s = 0 ->
  (procs s !! pid = Some AcquireLoad -> acquire_load (res s) = Returned) /\
  (forall cur, procs s !! pid = Some (AcquireCas cur) -> acquire_cas cur (res s) = (AcquireLoad, res s)).
Proof.
  intros H Hh. destruct (references_counted renew s H) as [H1 _ _ _ H4]. split.
  - intros _. unfold acquire_load. by rewrite H1, Hh.
  - intros cur Hp. assert (Hcur := H4 _ _ Hp). unfold acquire_cas. by replace (refs (res s) =? cur) with false by lia.
Qed.

(** ** A run: the handler returns while a task that read the counter has not
    yet incremented it *)

Definition late_task : system :=
  System (Reservation 0 0 false)
    (<[0%nat := Releasing]> (<[0%nat := HandlerStopping]> (<[1%nat := AcquireCas 1]> (<[1%nat := AcquireLoad]> {[ 0%nat := HandlerRunning ]})))) 0.

Lemma late_task_reachable : reachable true late_task.
Proof.
  eapply rtc_l; [by apply (step_acquire _ 1)|]. eapply rtc_l; [by apply (step_load _ 1)|].
  eapply rtc_l; [by apply (step_handler_done _ 0)|].
  eapply rtc_l; [eapply (step_dec _ 0 HandlerStopping true); [done | by right | done]|]. apply rtc_refl.
Qed.

Lemma released_exactly_once_witness : releasing late_task + released (res late_task) = 1.
Proof. apply (released_exactly_once true late_task late_task_reachable). reflexivity. Defined.

Lemma no_acquire_after_release_witness : acquire_cas 1 (res late_task) = (AcquireLoad, res late_task).
Proof.
  destruct (no_acquire_after_release true late_task 1 late_task_reachable ltac:(reflexivity)) as [_ H]. by apply H.
Defined.

End InflightReservation.
