(* ===== verification/Redis.v ===== *)
(** * Redis: the commands the caches rely on

    Redis itself is a service outside the repository, so the caches are
    modelled over an interface: [Redis] names the commands that their scripts
    and pipelines use, and [RedisLaws] states the documented effect of each
    one on sorted sets, integer strings, key expiry and time.  The laws are
    the hypotheses of the theorems about the caches; [Reference] at the end of
    the file is an executable store that satisfies them, on which the
    witnesses run.

    The keys an application uses for sorted sets are told by [zk]; the laws of
    a command hold for keys of its own type, so that nothing is claimed about
    Redis' answers to a command on a key of another type.  Scripts run
    atomically and read one time, seconds are [TIME]'s first component, and
    expiry is exact to the millisecond, all as documented. *)

From S2P Require Import Prelude GoStrings.

Class Redis (S : Type) := {
  (** Observations: a sorted set's members with their scores (none for an
      absent key), an integer string, the expiry of a key in milliseconds, and
      the server's clock in milliseconds. *)
  zset : S -> string -> gmap string Z;
  GET : S -> string -> option Z;
  deadline : S -> string -> option Z;
  clock : S -> Z;
  (** Commands. *)
  ZADD : string -> Z -> string -> S -> S;
  ZREM : string -> string -> S -> S;
  ZREMRANGEBYSCORE : string -> Z -> S -> S;
  EXPIRE : string -> Z -> S -> S;
  INCR : string -> S -> S;
  DECR : string -> S -> S;
  SET : string -> Z -> S -> S;
  DEL : string -> S -> S;
  (** One round of [SCAN] for the keys with a prefix: keys and next cursor. *)
  SCAN : S -> string -> Z -> list string * Z;
  (** The passage of time, in milliseconds. *)
  elapse : Z -> S -> S
}.

Section derived.
Context {S : Type} `{Redis S}.

Definition TIME (s : S) : Z := clock s / 1000.
Definition ZCARD (k : string) (s : S) : Z := map_len (zset s k).
Definition ZSCORE (k m : string) (s : S) : option Z := zset s k !! m.
(** Members in the order of their scores, equal scores in the order of bytes. *)
Definition score_order (a b : string * Z) : bool := (a.2 <? b.2) || ((a.2 =? b.2) && String.leb a.1 b.1).
Definition by_score (z : gmap string Z) : list string := (merge_sort score_order (map_to_list z)).*1.
Definition ZRANGE (k : string) (s : S) : list string := by_score (zset s k).
(** The first [count] members with a score of at most [max]. *)
Definition ZRANGEBYSCORE (k : string) (max : Z) (count : nat) (s : S) : list string :=
  take count (by_score (filter (fun e => e.2 <= max) (zset s k))).

(** Redis drops a key when its sorted set becomes empty, and its expiry with it. *)
Definition kept (z : gmap string Z) (d : option Z) : option Z := if decide (z = ∅) then None else d.
End derived.

(** Members that survive [ZREMRANGEBYSCORE key -inf max]. *)
Definition above (max : Z) (z : gmap string Z) : gmap string Z := filter (fun e => max < e.2) z.

Class RedisLaws (S : Type) `{Redis S} (zk : string -> bool) := {
  clock_nonneg s : 0 <= clock s;
  zset_ZADD k sc m s k' : zk k = true -> zset (ZADD k sc m s) k' = if decide (k' = k) then <[m := sc]> (zset s k) else zset s k';
  zset_ZREM k m s k' : zk k = true -> zset (ZREM k m s) k' = if decide (k' = k) then delete m (zset s k) else zset s k';
  zset_ZREMRANGE k max s k' :
    zk k = true -> zset (ZREMRANGEBYSCORE k max s) k' = if decide (k' = k) then above max (zset s k) else zset s k';
  zset_EXPIRE k ttl s k' : 0 < ttl -> zset (EXPIRE k ttl s) k' = zset s k';
  zset_INCR k s k' : zk k = false -> zset (INCR k s) k' = zset s k';
  zset_DECR k s k' : zk k = false -> zset (DECR k s) k' = zset s k';
  zset_SET k v s k' : zk k = false -> zset (SET k v s) k' = zset s k';
  zset_DEL k s k' : zset (DEL k s) k' = if decide (k' = k) then ∅ else zset s k';
  zset_elapse dt s k : 0 <= dt -> zk k = true ->
    zset (elapse dt s) k = match deadline s k with
                           | Some d => if d <=? clock s + dt then ∅ else zset s k
                           | None => zset s k
                           end;
  deadline_ZADD k sc m s k' : zk k = true ->
    deadline (ZADD k sc m s) k' = if decide (k' = k) then kept (zset s k) (deadline s k) else deadline s k';
  deadline_ZREM k m s k' : zk k = true ->
    deadline (ZREM k m s) k' = if decide (k' = k) then kept (delete m (zset s k)) (deadline s k) else deadline s k';
  deadline_ZREMRANGE k max s k' : zk k = true ->
    deadline (ZREMRANGEBYSCORE k max s) k' = if decide (k' = k) then kept (above max (zset s k)) (deadline s k) else deadline s k';
  deadline_EXPIRE k ttl s k' : 0 < ttl -> zk k' = true ->
    deadline (EXPIRE k ttl s) k' = if decide (k' = k) then kept (zset s k) (Some (clock s + ttl * 1000)) else deadline s k';
  deadline_INCR k s k' : zk k = false -> zk k' = true -> deadline (INCR k s) k' = deadline s k';
  deadline_DECR k s k' : zk k = false -> zk k' = true -> deadline (DECR k s) k' = deadline s k';
  deadline_SET k v s k' : zk k = false -> zk k' = true -> deadline (SET k v s) k' = deadline s k';
  deadline_DEL k s k' : deadline (DEL k s) k' = if decide (k' = k) then None else deadline s k';
  deadline_elapse dt s k : 0 <= dt -> zk k = true ->
    deadline (elapse dt s) k = match deadline s k with
                               | Some d => if d <=? clock s + dt then None else Some d
                               | None => None
                               end;
  GET_INCR k s k' : zk k = false -> GET (INCR k s) k' = if decide (k' = k) then Some (default 0 (GET s k) + 1) else GET s k';
  GET_DECR k s k' : zk k = false -> GET (DECR k s) k' = if decide (k' = k) then Some (default 0 (GET s k) - 1) else GET s k';
  GET_SET k v s k' : zk k = false -> GET (SET k v s) k' = if decide (k' = k) then Some v else GET s k';
  GET_DEL k s k' : GET (DEL k s) k' = if decide (k' = k) then None else GET s k';
  GET_ZADD k sc m s k' : zk k = true -> GET (ZADD k sc m s) k' = GET s k';
  GET_ZREM k m s k' : zk k = true -> GET (ZREM k m s) k' = GET s k';
  GET_ZREMRANGE k max s k' : zk k = true -> GET (ZREMRANGEBYSCORE k max s) k' = GET s k';
  GET_EXPIRE k ttl s k' : 0 < ttl -> GET (EXPIRE k ttl s) k' = GET s k';
  (** A string key is unchanged or has expired. *)
  GET_elapse dt s k : 0 <= dt -> GET (elapse dt s) k = GET s k \/ GET (elapse dt s) k = None;
  SCAN_prefix s p c k : k ∈ (SCAN s p c).1 -> HasPrefix k p = true;
  clock_ZADD k sc m s : clock (ZADD k sc m s) = clock s;
  clock_ZREM k m s : clock (ZREM k m s) = clock s;
  clock_ZREMRANGE k max s : clock (ZREMRANGEBYSCORE k max s) = clock s;
  clock_EXPIRE k ttl s : clock (EXPIRE k ttl s) = clock s;
  clock_INCR k s : clock (INCR k s) = clock s;
  clock_DECR k s : clock (DECR k s) = clock s;
  clock_SET k v s : clock (SET k v s) = clock s;
  clock_DEL k s : clock (DEL k s) = clock s;
  clock_elapse dt s : 0 <= dt -> clock (elapse dt s) = clock s + dt
}.

(** ** An executable store with these laws *)

Module Reference.

(** The sorted sets, the integer strings and the expiries, by key; the expiry
    of an empty sorted set is without effect. *)
Record store := Store {
  st_clock : N;
  st_zsets : gmap string (gmap string Z);
  st_ints : gmap string Z;
  st_expiry : gmap string Z
}.

Definition empty_store : store := Store 0 ∅ ∅ ∅.

Definition st_zset (s : store) (k : string) : gmap string Z := default ∅ (st_zsets s !! k).

Definition with_zset (k : string) (z : gmap string Z) (s : store) : store :=
  Store (st_clock s) (<[k := z]> (st_zsets s)) (st_ints s)
    (if decide (st_zset s k = ∅) then delete k (st_expiry s) else st_expiry s).

Definition with_int (k : string) (v : Z) (s : store) : store :=
  Store (st_clock s) (st_zsets s) (<[k := v]> (st_ints s))
    (match st_ints s !! k with None => delete k (st_expiry s) | Some _ => st_expiry s end).

(** The keys whose time has not come at [t]. *)
Definition alive {A} (t : Z) (expiry : gmap string Z) (m : gmap string A) : gmap string A :=
  filter (fun e => match expiry !! e.1 with Some d => t <? d | None => true end = true) m.

#[export] Instance store_redis : Redis store := {|
  zset := st_zset;
  GET s k := st_ints s !! k;
  deadline s k := kept (st_zset s k) (st_expiry s !! k);
  clock s := Z.of_N (st_clock s);
  ZADD k sc m s := with_zset k (<[m := sc]> (st_zset s k)) s;
  ZREM k m s := with_zset k (delete m (st_zset s k)) s;
  ZREMRANGEBYSCORE k max s := with_zset k (above max (st_zset s k)) s;
  EXPIRE k ttl s := Store (st_clock s) (st_zsets s) (st_ints s) (<[k := Z.of_N (st_clock s) + ttl * 1000]> (st_expiry s));
  INCR k s := with_int k (default 0 (st_ints s !! k) + 1) s;
  DECR k s := with_int k (default 0 (st_ints s !! k) - 1) s;
  SET k v s := Store (st_clock s) (st_zsets s) (<[k := v]> (st_ints s)) (delete k (st_expiry s));
  DEL k s := Store (st_clock s) (delete k (st_zsets s)) (delete k (st_ints s)) (delete k (st_expiry s));
  SCAN s p _ := (filter (fun k => HasPrefix k p = true) (elements (dom (st_zsets s) ∪ dom (st_ints s))), 0);
  elapse dt s :=
    let t := Z.of_N (st_clock s) + dt in
    Store (Z.to_N t) (alive t (st_expiry s) (st_zsets s)) (alive t (st_expiry s) (st_ints s)) (alive t (st_expiry s) (st_expiry s))
|}.

Lemma st_zset_with k z s k' : st_zset (with_zset k z s) k' = if decide (k' = k) then z else st_zset s k'.
Proof. unfold st_zset, with_zset. simpl. case_decide; subst; [by rewrite lookup_insert_eq | by rewrite lookup_insert_ne]. Qed.

Lemma alive_lookup {A} t e (m : gmap string A) k :
  alive t e m !! k = match e !! k with Some d => if d <=? t then None else m !! k | None => m !! k end.
Proof.
  unfold alive. rewrite map_lookup_filter. destruct (m !! k) eqn:Em; simpl; [|by repeat case_match].
  destruct (e !! k) as [d|] eqn:E; simpl; rewrite ?E; [|done].
  destruct (Z.leb_spec d t); case_guard; try done; lia.
Qed.

Ltac solve_law :=
  unfold st_zset, with_int in *; simpl in *;
  try match goal with |- context [decide (?k' = ?k)] => destruct (decide (k' = k)) as [->|] end;
  rewrite ?alive_lookup; unfold kept;
  repeat first
    [ rewrite lookup_insert_eq | rewrite lookup_insert_ne by congruence
    | rewrite lookup_delete_eq | rewrite lookup_delete_ne by congruence
    | case_decide | progress simpl ];
  try congruence; repeat (case_match; simplify_eq/=; try congruence).

#[export] Instance store_laws zk : RedisLaws store zk.
Proof.
  split; intros; simpl; rewrite ?st_zset_with; try done; try lia.
  3: { assert (<[m:=sc]> (st_zset s k) <> ∅) by apply insert_non_empty. solve_law. }
  all: try solve [solve_law].
  1, 2: assert (k' <> k) by congruence; f_equal; destruct (st_ints s !! k); [done | by rewrite lookup_delete_ne by congruence].
  - rewrite alive_lookup. repeat case_match; auto.
  - match goal with H : _ ∈ _ |- _ => by apply list_elem_of_filter in H as [? _] end.
Qed.

End Reference.
