(* ===== verification/ConcurrencyCache.v ===== *)
(** * ConcurrencyCache: concurrency slots and wait counters in Redis

    Models [src/backend/internal/repository/concurrency_cache.go].  The Lua
    scripts are translated line by line into functions on the Redis store of
    [Redis]; a method of the cache is a program whose steps are the atomic
    requests it sends (a script, a command, one command of a pipeline), with
    what it does for every reply, errors included.  A pipeline is not atomic:
    other clients' requests may come between its commands.

    The system that runs such programs in every interleaving, and what it
    guarantees, is in [ConcurrencySlots]; the theorem at the end of this file
    is about the script that decides who gets a slot. *)

From S2P Require Import Prelude GoStrings Redis.

Module ConcurrencyCache.

(** ** Keys *)

Definition accountSlotKeyPrefix : string := "concurrency:account:".
Definition userSlotKeyPrefix : string := "concurrency:user:".
Definition apiKeySlotKeyPrefix : string := "concurrency:api_key:".
Definition liveAccountSlotKeyPrefix : string := "concurrency:live:account:".
Definition liveUserSlotKeyPrefix : string := "concurrency:live:user:".
Definition liveAPIKeySlotKeyPrefix : string := "concurrency:live:api_key:".
Definition openAIWSIngressLeaseKeyPrefix : string := "concurrency:openai_ws_ingress:api_key:".
Definition openAIWSIngressLeaseTTLSeconds : Z := 60.
Definition liveLeaseTTLSeconds : Z := 60.
Definition waitQueueKeyPrefix : string := "concurrency:wait:".
Definition accountWaitKeyPrefix : string := "wait:account:".
Definition defaultSlotTTLMinutes : Z := 15.
Definition accountActiveIndexKey : string := "concurrency:account:active_index".
Definition userActiveIndexKey : string := "concurrency:user:active_index".
Definition activeIndexCleanupBatchSize : nat := 1000.
Definition activeIndexPipelineChunkSize : nat := 500.
Definition legacyWaitSweepMarkerKey : string := "concurrency:startup:legacy_wait_sweep:v1".

Definition accountSlotKey (id : Z) : string := accountSlotKeyPrefix +:+ Itoa id.
Definition userSlotKey (id : Z) : string := userSlotKeyPrefix +:+ Itoa id.
Definition apiKeySlotKey (id : Z) : string := apiKeySlotKeyPrefix +:+ Itoa id.
Definition liveAccountSlotKey (id : Z) : string := liveAccountSlotKeyPrefix +:+ Itoa id.
Definition liveUserSlotKey (id : Z) : string := liveUserSlotKeyPrefix +:+ Itoa id.
Definition liveAPIKeySlotKey (id : Z) : string := liveAPIKeySlotKeyPrefix +:+ Itoa id.
Definition openAIWSIngressLeaseKey (id : Z) : string := openAIWSIngressLeaseKeyPrefix +:+ Itoa id.
Definition waitQueueKey (id : Z) : string := waitQueueKeyPrefix +:+ Itoa id.
Definition accountWaitKey (id : Z) : string := accountWaitKeyPrefix +:+ Itoa id.

(** The keys of integer strings; all other keys are sorted sets. *)
Definition int_key (k : string) : bool :=
  HasPrefix k waitQueueKeyPrefix || HasPrefix k accountWaitKeyPrefix || (k =s legacyWaitSweepMarkerKey).
Definition zset_key (k : string) : bool := negb (int_key k).

Section scripts.
Context {St : Type} `{Redis St}.
Implicit Types s : St.

(** ** The scripts

    A script answers its return value and the new store.  Lua's [TIME] does
    not advance within a script. *)

Definition acquireScript (key liveKey : string) (maxConcurrency ttl : Z) (requestID : string) (s : St) : (Z * Z) * St :=
  let now := TIME s in
  let expireBefore := now - ttl in
  let s := ZREMRANGEBYSCORE key expireBefore s in
  let s := ZREMRANGEBYSCORE liveKey (now - 60) s in
  match ZSCORE key requestID s with
  | Some _ => ((1, now), EXPIRE key ttl (ZADD key now requestID s))
  | None =>
      let count := ZCARD key s + ZCARD liveKey s in
      if count <? maxConcurrency then ((1, now), EXPIRE key ttl (ZADD key now requestID s))
      else ((0, now), s)
  end.

Definition getCountScript (key liveKey : string) (ttl : Z) (s : St) : Z * St :=
  let now := TIME s in
  let expireBefore := now - ttl in
  let s := ZREMRANGEBYSCORE key expireBefore s in
  let s := ZREMRANGEBYSCORE liveKey (now - 60) s in
  (ZCARD key s + ZCARD liveKey s, s).

Definition acquireLiveLeaseScript (accountRegular accountLive userRegular userLive apiLive : string)
    (accountMax userMax ttl : Z) (leaseID : string) (replacing : Z) (s : St) : Z * St :=
  let now := TIME s in
  let liveExpireBefore := now - ttl in
  let s := ZREMRANGEBYSCORE accountLive liveExpireBefore s in
  let s := ZREMRANGEBYSCORE userLive liveExpireBefore s in
  let s := ZREMRANGEBYSCORE apiLive liveExpireBefore s in
  match ZSCORE accountLive leaseID s with
  | Some _ => (1, s)
  | None =>
      let accountCount := ZCARD accountRegular s + ZCARD accountLive s in
      let userCount := ZCARD userRegular s + ZCARD userLive s in
      let allowance := if replacing =? 1 then 1 else 0 in
      if (0 <? accountMax) && (accountMax + allowance <=? accountCount) then (0, s)
      else if (0 <? userMax) && (userMax + allowance <=? userCount) then (0, s)
      else
        let s := ZADD accountLive now leaseID s in
        let s := ZADD userLive now leaseID s in
        let s := ZADD apiLive now leaseID s in
        let s := EXPIRE accountLive ttl s in
        let s := EXPIRE userLive ttl s in
        let s := EXPIRE apiLive ttl s in
        (1, s)
  end.

(** The first loop of [refreshLiveLeaseScript]: trims the keys in order and
    stops at the first one without the lease. *)
Fixpoint refreshLive_owned (keys : list string) (leaseID : string) (expireBefore : Z) (s : St) : bool * St :=
  match keys with
  | [] => (true, s)
  | key :: keys =>
      let s := ZREMRANGEBYSCORE key expireBefore s in
      match ZSCORE key leaseID s with
      | None => (false, s)
      | Some _ => refreshLive_owned keys leaseID expireBefore s
      end
  end.

Definition refreshLiveLeaseScript (keys : list string) (ttl : Z) (leaseID : string) (s : St) : Z * St :=
  let now := TIME s in
  let expireBefore := now - ttl in
  let '(owned, s) := refreshLive_owned keys leaseID expireBefore s in
  if owned then (1, fold_left (fun s key => EXPIRE key ttl (ZADD key now leaseID s)) keys s) else (0, s).

Definition trackSlotScript (key : string) (ttl : Z) (requestID : string) (s : St) : Z * St :=
  let now := TIME s in
  let expireBefore := now - ttl in
  let s := ZREMRANGEBYSCORE key expireBefore s in
  (1, EXPIRE key ttl (ZADD key now requestID s)).

Definition acquireOpenAIWSIngressLeaseScript (key : string) (maxConnections ttl : Z) (leaseID : string) (s : St) : Z * St :=
  let now := TIME s in
  let expireBefore := now - ttl in
  let s := ZREMRANGEBYSCORE key expireBefore s in
  match ZSCORE key leaseID s with
  | Some _ => (1, EXPIRE key ttl (ZADD key now leaseID s))
  | None =>
      if ZCARD key s <? maxConnections then (1, EXPIRE key ttl (ZADD key now leaseID s))
      else (0, s)
  end.

Definition refreshOpenAIWSIngressLeaseScript (key : string) (ttl : Z) (leaseID : string) (s : St) : Z * St :=
  let now := TIME s in
  let expireBefore := now - ttl in
  let s := ZREMRANGEBYSCORE key expireBefore s in
  match ZSCORE key leaseID s with
  | None => (0, s)
  | Some _ => (1, EXPIRE key ttl (ZADD key now leaseID s))
  end.

Definition incrementWaitScript (key : string) (maxWait ttl : Z) (s : St) : (Z * Z) * St :=
  let current := match GET s key with None => 0 | Some v => v end in
  let now := TIME s in
  if maxWait <=? current then ((0, now), s)
  else ((1, now), EXPIRE key ttl (INCR key s)).

Definition incrementAccountWaitScript (key : string) (maxWait ttl : Z) (s : St) : (Z * Z) * St :=
  let current := match GET s key with None => 0 | Some v => v end in
  let now := TIME s in
  if maxWait <=? current then ((0, now), s)
  else ((1, now), EXPIRE key ttl (INCR key s)).

Definition decrementWaitScript (key : string) (s : St) : Z * St :=
  match GET s key with
  | Some v => if 0 <? v then (1, DECR key s) else (1, s)
  | None => (1, s)
  end.

Definition cleanupExpiredSlotsScript (key : string) (ttl : Z) (s : St) : Z * St :=
  let now := TIME s in
  let expireBefore := now - ttl in
  let s := ZREMRANGEBYSCORE key expireBefore s in
  if ZCARD key s =? 0 then (1, DEL key s) else (1, EXPIRE key ttl s).

(** The loop over the members; [ZREM] answers how many it removed. *)
Definition startup_remove (key activePrefix : string) (st : Z * St) (member : string) : Z * St :=
  let '(removed, s) := st in
  if HasPrefix member activePrefix then (removed, s)
  else (removed + (match ZSCORE key member s with Some _ => 1 | None => 0 end), ZREM key member s).

Definition startupCleanupSlotScript (key activePrefix : string) (slotTTL : Z) (s : St) : (Z * Z) * St :=
  let members := ZRANGE key s in
  let '(removed, s) := fold_left (startup_remove key activePrefix) members (0, s) in
  let remaining := ZCARD key s in
  if remaining =? 0 then ((removed, remaining), DEL key s) else ((removed, remaining), EXPIRE key slotTTL s).

(** ** Requests to the server *)

(** [redis.Nil] is the client's error for a missing string. *)
Inductive rerror := Nil | Failed (msg : string).

Inductive call : Type -> Type :=
| RunAcquire (key liveKey : string) (maxConcurrency ttl : Z) (requestID : string) : call (Z * Z)
| RunGetCount (key liveKey : string) (ttl : Z) : call Z
| RunAcquireLive (accountRegular accountLive userRegular userLive apiLive : string) (accountMax userMax ttl : Z)
    (leaseID : string) (replacing : Z) : call Z
| RunRefreshLive (keys : list string) (ttl : Z) (leaseID : string) : call Z
| RunTrack (key : string) (ttl : Z) (requestID : string) : call Z
| RunAcquireIngress (key : string) (maxConnections ttl : Z) (leaseID : string) : call Z
| RunRefreshIngress (key : string) (ttl : Z) (leaseID : string) : call Z
| RunIncrementWait (key : string) (maxWait ttl : Z) : call (Z * Z)
| RunIncrementAccountWait (key : string) (maxWait ttl : Z) : call (Z * Z)
| RunDecrementWait (key : string) : call Z
| RunCleanupExpired (key : string) (ttl : Z) : call Z
| RunStartupCleanup (key activePrefix : string) (slotTTL : Z) : call (Z * Z)
| CmdTime : call Z
| CmdZAdd (key : string) (members : list (Z * string)) : call unit
| CmdZRem (key : string) (members : list string) : call unit
| CmdTxZRem (removals : list (string * string)) : call unit
| CmdZRemRangeByScore (key : string) (cutoff : Z) : call Z
| CmdZCard (key : string) : call Z
| CmdGet (key : string) : call Z
| CmdDel (keys : list string) : call unit
| CmdExists (key : string) : call Z
| CmdSet (key : string) (v : Z) : call unit
| CmdScan (prefix : string) (cursor : Z) : call (list string * Z)
| CmdZRangeByScore (key : string) (max : Z) (count : nat) : call (list string)
| CmdZRange (key : string) : call (list string).

Definition ok {A} (r : A * St) : outcome A rerror * St := let '(a, s) := r in (Ok a, s).

Definition execute {R} (c : call R) (s : St) : outcome R rerror * St :=
  match c with
  | RunAcquire k l m t r => ok (acquireScript k l m t r s)
  | RunGetCount k l t => ok (getCountScript k l t s)
  | RunAcquireLive ar al ur ul kl am um t i r => ok (acquireLiveLeaseScript ar al ur ul kl am um t i r s)
  | RunRefreshLive ks t i => ok (refreshLiveLeaseScript ks t i s)
  | RunTrack k t r => ok (trackSlotScript k t r s)
  | RunAcquireIngress k m t i => ok (acquireOpenAIWSIngressLeaseScript k m t i s)
  | RunRefreshIngress k t i => ok (refreshOpenAIWSIngressLeaseScript k t i s)
  | RunIncrementWait k m t => ok (incrementWaitScript k m t s)
  | RunIncrementAccountWait k m t => ok (incrementAccountWaitScript k m t s)
  | RunDecrementWait k => ok (decrementWaitScript k s)
  | RunCleanupExpired k t => ok (cleanupExpiredSlotsScript k t s)
  | RunStartupCleanup k p t => ok (startupCleanupSlotScript k p t s)
  | CmdTime => (Ok (TIME s), s)
  | CmdZAdd k ms => (Ok tt, fold_left (fun s e => ZADD k e.1 e.2 s) ms s)
  | CmdZRem k ms => (Ok tt, fold_left (fun s m => ZREM k m s) ms s)
  | CmdTxZRem rs => (Ok tt, fold_left (fun s e => ZREM e.1 e.2 s) rs s)
  | CmdZRemRangeByScore k cutoff => let s' := ZREMRANGEBYSCORE k cutoff s in (Ok (ZCARD k s - ZCARD k s'), s')
  | CmdZCard k => (Ok (ZCARD k s), s)
  | CmdGet k => (match GET s k with Some v => Ok v | None => Err Nil end, s)
  | CmdDel ks => (Ok tt, fold_left (fun s k => DEL k s) ks s)
  | CmdExists k => (Ok (match GET s k with Some _ => 1 | None => 0 end), s)
  | CmdSet k v => (Ok tt, SET k v s)
  | CmdScan p cursor => (Ok (SCAN s p cursor), s)
  | CmdZRangeByScore k max count => (Ok (ZRANGEBYSCORE k max count s), s)
  | CmdZRange k => (Ok (ZRANGE k s), s)
  end.
End scripts.

(** A program sends requests one after the other and ends with a result. *)
Inductive prog (A : Type) : Type :=
| Ret (a : A)
| Do {R} (c : call R) (k : outcome R rerror -> prog A).
Arguments Ret {A} a.
Arguments Do {A R} c k.

Fixpoint bind {A B} (p : prog A) (f : A -> prog B) : prog B :=
  match p with
  | Ret a => f a
  | Do c k => Do c (fun r => bind (k r) f)
  end.

Notation "'let*' x := p 'in' q" := (bind p (fun x => q)) (at level 10, x name, p at level 100, q at level 200) : go_scope.

Definition send {R} (c : call R) : prog (outcome R rerror) := Do c (fun r => Ret r).

(** A Go function that returns [(T, error)] gives up at an error. *)
Definition try {A B} (p : prog (outcome A rerror)) (f : A -> prog (outcome B rerror)) : prog (outcome B rerror) :=
  bind p (fun r => match r with Ok a => f a | Err e => Ret (Err e) end).

Notation "'try*' x := p 'in' q" := (try p (fun x => q)) (at level 10, x name, p at level 100, q at level 200) : go_scope.

(** ** The cache *)

Record concurrencyCache := Cache { slotTTLSeconds : Z; waitQueueTTLSeconds : Z }.

Definition NewConcurrencyCache (slotTTLMinutes waitQueueTTLSeconds : Z) : concurrencyCache :=
  let slotTTLMinutes := if slotTTLMinutes <=? 0 then defaultSlotTTLMinutes else slotTTLMinutes in
  let waitQueueTTLSeconds := if waitQueueTTLSeconds <=? 0 then wrap64 (slotTTLMinutes * 60) else waitQueueTTLSeconds in
  Cache (wrap64 (slotTTLMinutes * 60)) waitQueueTTLSeconds.

(** Commands of one pipeline, sent in order; other requests may come between
    them.  [Exec] answers the first error. *)
Fixpoint pipeline (cmds : list (call Z)) : prog (list (outcome Z rerror)) :=
  match cmds with
  | [] => Ret []
  | c :: cmds => let* r := send c in let* rs := pipeline cmds in Ret (r :: rs)
  end.

Fixpoint exec_error (rs : list (outcome Z rerror)) : option rerror :=
  match rs with
  | [] => None
  | Ok _ :: rs => exec_error rs
  | Err e :: _ => Some e
  end.

(** [_, err := pipe.Exec(ctx); err != nil && !errors.Is(err, redis.Nil)]. *)
Definition exec_failed (rs : list (outcome Z rerror)) : option rerror :=
  match exec_error rs with Some Nil | None => None | Some e => Some e end.

(** [cmd.Val()] and [cmd.Int()] of the command at a position. *)
Definition int_at (rs : list (outcome Z rerror)) (i : nat) : option Z :=
  match nth_error rs i with Some (Ok v) => Some v | _ => None end.
Definition val_at (rs : list (outcome Z rerror)) (i : nat) : Z := default 0 (int_at rs i).

Record activeIndexLoad := Load { id : Z; member : string; slotCount : Z; waitCount : Z }.

Record slotIndexSpec := Spec { indexKey : string; slotKey : Z -> string; waitKey : Z -> string }.
Definition accountSlotIndex : slotIndexSpec := Spec accountActiveIndexKey accountSlotKey accountWaitKey.
Definition userSlotIndex : slotIndexSpec := Spec userActiveIndexKey userSlotKey waitQueueKey.

Section methods.
Variable c : concurrencyCache.

(** *** The active index *)

(** Best effort: an error is only logged. *)
Definition touchActiveIndexAt (indexKey : string) (id expireAt : Z) : prog unit :=
  if (id <=? 0) || (expireAt <=? 0) then Ret tt
  else let* _ := send (CmdZAdd indexKey [(expireAt, Itoa id)]) in Ret tt.

Definition activeIndexTTL (slotCount waitCount : Z) : Z :=
  let ttlSeconds := if 0 <? slotCount then slotTTLSeconds c else 0 in
  if (0 <? waitCount) && (ttlSeconds <? waitQueueTTLSeconds c) then waitQueueTTLSeconds c else ttlSeconds.

(** The wait counter of a reply: only a positive integer counts. *)
Definition wait_of (v : option Z) : Z := match v with Some v => if 0 <? v then v else 0 | None => 0 end.

Definition readActiveLoadForKey (id : Z) (slotKey waitKey : string) (now : Z) : prog (outcome activeIndexLoad rerror) :=
  let cutoffTime := now - slotTTLSeconds c in
  let* rs := pipeline [CmdZRemRangeByScore slotKey cutoffTime; CmdZCard slotKey; CmdGet waitKey] in
  match exec_failed rs with
  | Some e => Ret (Err e)
  | None => Ret (Ok (Load id (Itoa id) (val_at rs 1) (wait_of (int_at rs 2))))
  end.

Definition refreshActiveIndex (indexKey : string) (id : Z) (slotKey waitKey : string) : prog unit :=
  if id <=? 0 then Ret tt
  else
    let* r := send CmdTime in
    match r with
    | Err _ => Ret tt
    | Ok now =>
        let* r := readActiveLoadForKey id slotKey waitKey now in
        match r with
        | Err _ => Ret tt
        | Ok load =>
            if (slotCount load =? 0) && (waitCount load <=? 0) then
              let* _ := send (CmdZRem indexKey [Itoa id]) in Ret tt
            else
              let ttlSeconds := activeIndexTTL (slotCount load) (waitCount load) in
              if ttlSeconds <=? 0 then Ret tt else touchActiveIndexAt indexKey id (now + ttlSeconds)
        end
    end.

Definition refreshAccountActiveIndex (accountID : Z) : prog unit :=
  refreshActiveIndex accountActiveIndexKey accountID (accountSlotKey accountID) (accountWaitKey accountID).
Definition refreshUserActiveIndex (userID : Z) : prog unit :=
  refreshActiveIndex userActiveIndexKey userID (userSlotKey userID) (waitQueueKey userID).

Definition removeActiveIndexMembers (indexKey : string) (members : list string) : prog unit :=
  match members with
  | [] => Ret tt
  | _ => let* _ := send (CmdZRem indexKey members) in Ret tt
  end.

(** *** Slots *)

Definition AcquireAccountSlot (accountID maxConcurrency : Z) (requestID : string) : prog (outcome bool rerror) :=
  let key := accountSlotKey accountID in
  try* r := send (RunAcquire key (liveAccountSlotKey accountID) maxConcurrency (slotTTLSeconds c) requestID) in
  let '(result, now) := r in
  let* _ := (if result =? 1 then touchActiveIndexAt accountActiveIndexKey accountID (now + slotTTLSeconds c) else Ret tt) in
  Ret (Ok (result =? 1)).

Definition ReleaseAccountSlot (accountID : Z) (requestID : string) : prog (outcome unit rerror) :=
  let key := accountSlotKey accountID in
  try* _ := send (CmdZRem key [requestID]) in
  let* _ := refreshAccountActiveIndex accountID in Ret (Ok tt).

Definition GetAccountConcurrency (accountID : Z) : prog (outcome Z rerror) :=
  send (RunGetCount (accountSlotKey accountID) (liveAccountSlotKey accountID) (slotTTLSeconds c)).

Definition AcquireUserSlot (userID maxConcurrency : Z) (requestID : string) : prog (outcome bool rerror) :=
  let key := userSlotKey userID in
  try* r := send (RunAcquire key (liveUserSlotKey userID) maxConcurrency (slotTTLSeconds c) requestID) in
  let '(result, now) := r in
  let* _ := (if result =? 1 then touchActiveIndexAt userActiveIndexKey userID (now + slotTTLSeconds c) else Ret tt) in
  Ret (Ok (result =? 1)).

Definition ReleaseUserSlot (userID : Z) (requestID : string) : prog (outcome unit rerror) :=
  let key := userSlotKey userID in
  try* _ := send (CmdZRem key [requestID]) in
  let* _ := refreshUserActiveIndex userID in Ret (Ok tt).

Definition GetUserConcurrency (userID : Z) : prog (outcome Z rerror) :=
  send (RunGetCount (userSlotKey userID) (liveUserSlotKey userID) (slotTTLSeconds c)).

Definition TrackAPIKeySlot (apiKeyID : Z) (requestID : string) : prog (outcome unit rerror) :=
  let key := apiKeySlotKey apiKeyID in
  try* _ := send (RunTrack key (slotTTLSeconds c) requestID) in Ret (Ok tt).

Definition ReleaseAPIKeySlot (apiKeyID : Z) (requestID : string) : prog (outcome unit rerror) :=
  send (CmdZRem (apiKeySlotKey apiKeyID) [requestID]).

(** *** Leases *)

Definition AcquireOpenAIWSIngressLease (apiKeyID maxConnections : Z) (leaseID : string) : prog (outcome bool rerror) :=
  if (apiKeyID <=? 0) || (maxConnections <=? 0) || (leaseID =s "") then Ret (Ok false)
  else
    try* result := send (RunAcquireIngress (openAIWSIngressLeaseKey apiKeyID) maxConnections openAIWSIngressLeaseTTLSeconds leaseID) in
    Ret (Ok (result =? 1)).

Definition RefreshOpenAIWSIngressLease (apiKeyID : Z) (leaseID : string) : prog (outcome bool rerror) :=
  if (apiKeyID <=? 0) || (leaseID =s "") then Ret (Ok false)
  else
    try* result := send (RunRefreshIngress (openAIWSIngressLeaseKey apiKeyID) openAIWSIngressLeaseTTLSeconds leaseID) in
    Ret (Ok (result =? 1)).

Definition ReleaseOpenAIWSIngressLease (apiKeyID : Z) (leaseID : string) : prog (outcome unit rerror) :=
  if (apiKeyID <=? 0) || (leaseID =s "") then Ret (Ok tt)
  else send (CmdZRem (openAIWSIngressLeaseKey apiKeyID) [leaseID]).

Definition AcquireLiveLease (accountID accountMax userID userMax apiKeyID : Z) (leaseID : string) (replacingRegularSlots : bool)
    : prog (outcome bool rerror) :=
  if (accountID <=? 0) || (userID <=? 0) || (apiKeyID <=? 0) || (leaseID =s "") then Ret (Ok false)
  else
    let replacing := if replacingRegularSlots then 1 else 0 in
    try* result := send (RunAcquireLive (accountSlotKey accountID) (liveAccountSlotKey accountID) (userSlotKey userID)
      (liveUserSlotKey userID) (liveAPIKeySlotKey apiKeyID) accountMax userMax liveLeaseTTLSeconds leaseID replacing) in
    Ret (Ok (result =? 1)).

Definition RefreshLiveLease (accountID userID apiKeyID : Z) (leaseID : string) : prog (outcome bool rerror) :=
  if leaseID =s "" then Ret (Ok false)
  else
    try* result := send (RunRefreshLive [liveAccountSlotKey accountID; liveUserSlotKey userID; liveAPIKeySlotKey apiKeyID]
      liveLeaseTTLSeconds leaseID) in
    Ret (Ok (result =? 1)).

Definition ReleaseLiveLease (accountID userID apiKeyID : Z) (leaseID : string) : prog (outcome unit rerror) :=
  if leaseID =s "" then Ret (Ok tt)
  else send (CmdTxZRem [(liveAccountSlotKey accountID, leaseID); (liveUserSlotKey userID, leaseID); (liveAPIKeySlotKey apiKeyID, leaseID)]).

(** *** Wait counters *)

Definition IncrementWaitCount (userID maxWait : Z) : prog (outcome bool rerror) :=
  let key := waitQueueKey userID in
  try* r := send (RunIncrementWait key maxWait (waitQueueTTLSeconds c)) in
  let '(result, now) := r in
  let* _ := (if result =? 1 then touchActiveIndexAt userActiveIndexKey userID (now + waitQueueTTLSeconds c) else Ret tt) in
  Ret (Ok (result =? 1)).

Definition DecrementWaitCount (userID : Z) : prog (outcome unit rerror) :=
  let key := waitQueueKey userID in
  try* _ := send (RunDecrementWait key) in
  let* _ := refreshUserActiveIndex userID in Ret (Ok tt).

Definition IncrementAccountWaitCount (accountID maxWait : Z) : prog (outcome bool rerror) :=
  let key := accountWaitKey accountID in
  try* r := send (RunIncrementAccountWait key maxWait (waitQueueTTLSeconds c)) in
  let '(result, now) := r in
  let* _ := (if result =? 1 then touchActiveIndexAt accountActiveIndexKey accountID (now + waitQueueTTLSeconds c) else Ret tt) in
  Ret (Ok (result =? 1)).

Definition DecrementAccountWaitCount (accountID : Z) : prog (outcome unit rerror) :=
  let key := accountWaitKey accountID in
  try* _ := send (RunDecrementWait key) in
  let* _ := refreshAccountActiveIndex accountID in Ret (Ok tt).

Definition GetAccountWaitingCount (accountID : Z) : prog (outcome Z rerror) :=
  let* r := send (CmdGet (accountWaitKey accountID)) in
  match r with
  | Err Nil => Ret (Ok 0)
  | r => Ret r
  end.

(** *** Batch queries

    One pipeline of a fixed number of commands per id. *)

Fixpoint batch_rows (width : nat) (n : nat) (rs : list (outcome Z rerror)) : list (list (outcome Z rerror)) :=
  match n with
  | O => []
  | S n => take width rs :: batch_rows width n (drop width rs)
  end.

Definition count_cmds (slotKey liveKey : Z -> string) (now id : Z) : list (call Z) :=
  [CmdZRemRangeByScore (slotKey id) (now - slotTTLSeconds c); CmdZRemRangeByScore (liveKey id) (now - liveLeaseTTLSeconds);
   CmdZCard (slotKey id); CmdZCard (liveKey id)].

Definition concurrency_batch (slotKey liveKey : Z -> string) (ids : list Z) : prog (outcome (gmap Z Z) rerror) :=
  match ids with
  | [] => Ret (Ok ∅)
  | _ =>
      try* now := send CmdTime in
      let* rs := pipeline (flat_map (count_cmds slotKey liveKey now) ids) in
      match exec_failed rs with
      | Some e => Ret (Err e)
      | None => Ret (Ok (fold_left (fun m e => <[e.1 := val_at e.2 2 + val_at e.2 3]> m) (zip ids (batch_rows 4 (length ids) rs)) ∅))
      end
  end.

Definition GetAccountConcurrencyBatch (accountIDs : list Z) : prog (outcome (gmap Z Z) rerror) :=
  concurrency_batch accountSlotKey liveAccountSlotKey accountIDs.
Definition GetAPIKeyConcurrencyBatch (apiKeyIDs : list Z) : prog (outcome (gmap Z Z) rerror) :=
  concurrency_batch apiKeySlotKey liveAPIKeySlotKey apiKeyIDs.

(** [AccountWithConcurrency], [UserWithConcurrency] and their load. *)
Record WithConcurrency := MkWithConcurrency { ID : Z; MaxConcurrency : Z }.
Record LoadInfo := MkLoadInfo { li_ID : Z; CurrentConcurrency : Z; WaitingCount : Z; LoadRate : Z }.

Definition load_cmds (slotKey liveKey waitKey : Z -> string) (now : Z) (acc : WithConcurrency) : list (call Z) :=
  count_cmds slotKey liveKey now (ID acc) ++ [CmdGet (waitKey (ID acc))].

Definition load_info (acc : WithConcurrency) (rs : list (outcome Z rerror)) : LoadInfo :=
  let currentConcurrency := wrap64 (val_at rs 2 + val_at rs 3) in
  let waitingCount := match int_at rs 4 with Some v => v | None => 0 end in
  let loadRate :=
    if 0 <? MaxConcurrency acc then Z.quot (wrap64 (wrap64 (currentConcurrency + waitingCount) * 100)) (MaxConcurrency acc) else 0 in
  MkLoadInfo (ID acc) currentConcurrency waitingCount loadRate.

Definition load_batch (slotKey liveKey waitKey : Z -> string) (accounts : list WithConcurrency) : prog (outcome (gmap Z LoadInfo) rerror) :=
  match accounts with
  | [] => Ret (Ok ∅)
  | _ =>
      try* now := send CmdTime in
      let* rs := pipeline (flat_map (load_cmds slotKey liveKey waitKey now) accounts) in
      match exec_failed rs with
      | Some e => Ret (Err e)
      | None =>
          Ret (Ok (fold_left (fun m e => <[ID e.1 := load_info e.1 e.2]> m) (zip accounts (batch_rows 5 (length accounts) rs)) ∅))
      end
  end.

Definition GetAccountsLoadBatch (accounts : list WithConcurrency) : prog (outcome (gmap Z LoadInfo) rerror) :=
  load_batch accountSlotKey liveAccountSlotKey accountWaitKey accounts.
Definition GetUsersLoadBatch (users : list WithConcurrency) : prog (outcome (gmap Z LoadInfo) rerror) :=
  load_batch userSlotKey liveUserSlotKey waitQueueKey users.

(** *** Cleanup *)

Definition CleanupExpiredAccountSlots (accountID : Z) : prog (outcome unit rerror) :=
  let key := accountSlotKey accountID in
  try* _ := send (RunCleanupExpired key (slotTTLSeconds c)) in
  let* _ := refreshAccountActiveIndex accountID in Ret (Ok tt).

(** [strconv.ParseInt(member, 10, 64)] of a positive id. *)
Definition member_id (m : string) : option Z :=
  match Atoi m with Some id => if id <=? 0 then None else Some id | None => None end.

Fixpoint chunks {A} (n fuel : nat) (l : list A) : list (list A) :=
  match fuel, l with
  | O, _ | _, [] => []
  | S fuel, _ => take n l :: chunks n fuel (drop n l)
  end.

Definition index_cmds (spec : slotIndexSpec) (now : Z) (e : Z * string) : list (call Z) :=
  [CmdZRemRangeByScore (slotKey spec e.1) (now - slotTTLSeconds c); CmdZCard (slotKey spec e.1); CmdGet (waitKey spec e.1)].

Definition index_load (e : Z * string) (rs : list (outcome Z rerror)) : activeIndexLoad :=
  Load e.1 e.2 (val_at rs 1) (wait_of (int_at rs 2)).

Fixpoint read_chunks (spec : slotIndexSpec) (now : Z) (cs : list (list (Z * string))) (loads : list activeIndexLoad)
    : prog (outcome (list activeIndexLoad) rerror) :=
  match cs with
  | [] => Ret (Ok loads)
  | chunk :: cs =>
      let* rs := pipeline (flat_map (index_cmds spec now) chunk) in
      match exec_failed rs with
      | Some e => Ret (Err e)
      | None => read_chunks spec now cs (loads ++ zip_with index_load chunk (batch_rows 3 (length chunk) rs))
      end
  end.

Definition readIndexLoads (spec : slotIndexSpec) (members : list string) (now : Z)
    : prog (outcome (list activeIndexLoad * list string) rerror) :=
  let staleMembers := filter (fun m => member_id m = None) members in
  let candidates := omap (fun m => match member_id m with Some id => Some (id, m) | None => None end) members in
  try* loads := read_chunks spec now (chunks activeIndexPipelineChunkSize (length candidates) candidates) [] in
  Ret (Ok (loads, staleMembers)).

Definition no_load (load : activeIndexLoad) : bool := (slotCount load =? 0) && (waitCount load <=? 0).

Definition write_index (indexKey : string) (refreshed : list (Z * string)) (staleMembers : list string) : prog unit :=
  let* _ := (match refreshed with [] => Ret (Ok tt) | _ => send (CmdZAdd indexKey refreshed) end) in
  removeActiveIndexMembers indexKey staleMembers.

Definition reconcileExpiredIndexCandidates (spec : slotIndexSpec) : prog (outcome unit rerror) :=
  try* now := send CmdTime in
  try* members := send (CmdZRangeByScore (indexKey spec) now activeIndexCleanupBatchSize) in
  try* r := readIndexLoads spec members now in
  let '(loads, staleMembers) := r in
  let staleMembers := staleMembers ++ map member (filter (fun l => no_load l = true) loads) in
  let refreshed := map (fun l => (now + activeIndexTTL (slotCount l) (waitCount l), member l)) (filter (fun l => no_load l = false) loads) in
  let* _ := write_index (indexKey spec) refreshed staleMembers in Ret (Ok tt).

Definition CleanupExpiredAccountSlotKeys : prog (outcome unit rerror) :=
  try* _ := reconcileExpiredIndexCandidates accountSlotIndex in
  reconcileExpiredIndexCandidates userSlotIndex.

(** One pattern of the sweep; [rounds] bounds the rounds of [SCAN], which the
    server ends with cursor 0. *)
Fixpoint sweep_pattern (rounds : nat) (prefix : string) (cursor : Z) : prog (outcome unit rerror) :=
  match rounds with
  | O => Ret (Ok tt)
  | S rounds =>
      try* r := send (CmdScan prefix cursor) in
      let '(keys, next) := r in
      try* _ := (match keys with [] => Ret (Ok tt) | _ => send (CmdDel keys) end) in
      if next =? 0 then Ret (Ok tt) else sweep_pattern rounds prefix next
  end.

Definition sweepLegacyWaitKeysOnce (rounds : nat) : prog (outcome unit rerror) :=
  try* exists_ := send (CmdExists legacyWaitSweepMarkerKey) in
  if 0 <? exists_ then Ret (Ok tt)
  else
    try* _ := sweep_pattern rounds accountWaitKeyPrefix 0 in
    try* _ := sweep_pattern rounds waitQueueKeyPrefix 0 in
    send (CmdSet legacyWaitSweepMarkerKey 1).

Definition allIndexMembers (indexKey : string) : prog (outcome (list string) rerror) := send (CmdZRange indexKey).

Fixpoint cleanup_members (spec : slotIndexSpec) (activeRequestPrefix : string) (now : Z) (members : list string)
    (refreshed : list (Z * string)) (staleMembers : list string) : prog (outcome (list (Z * string) * list string) rerror) :=
  match members with
  | [] => Ret (Ok (refreshed, staleMembers))
  | m :: members =>
      match member_id m with
      | None => cleanup_members spec activeRequestPrefix now members refreshed (staleMembers ++ [m])
      | Some id =>
          try* r := send (RunStartupCleanup (slotKey spec id) activeRequestPrefix (slotTTLSeconds c)) in
          try* _ := send (CmdDel [waitKey spec id]) in
          if 0 <? r.2 then
            cleanup_members spec activeRequestPrefix now members (refreshed ++ [(now + slotTTLSeconds c, m)]) staleMembers
          else cleanup_members spec activeRequestPrefix now members refreshed (staleMembers ++ [m])
      end
  end.

Definition cleanupStaleProcessSlotsForIndex (spec : slotIndexSpec) (members : list string) (activeRequestPrefix : string) (now : Z)
    : prog (outcome unit rerror) :=
  try* r := cleanup_members spec activeRequestPrefix now members [] [] in
  let* _ := write_index (indexKey spec) r.1 r.2 in Ret (Ok tt).

Definition CleanupStaleProcessSlots (rounds : nat) (activeRequestPrefix : string) : prog (outcome unit rerror) :=
  if activeRequestPrefix =s "" then Ret (Ok tt)
  else
    try* _ := sweepLegacyWaitKeysOnce rounds in
    try* now := send CmdTime in
    try* accountMembers := allIndexMembers accountActiveIndexKey in
    try* _ := cleanupStaleProcessSlotsForIndex accountSlotIndex accountMembers activeRequestPrefix now in
    try* userMembers := allIndexMembers userActiveIndexKey in
    cleanupStaleProcessSlotsForIndex userSlotIndex userMembers activeRequestPrefix now.
End methods.

(** ** Who gets a slot *)

Section decision.
Context {St : Type} `{RedisLaws St zset_key}.
Implicit Types s : St.

(** C27: A request is admitted exactly when it already holds a slot or the slots
    that are alive (regular ones younger than their TTL, live leases younger
    than a minute) are fewer than the limit: a slot whose owner has crashed
    stops counting after its TTL, a full set is never overbooked, and a
    refused request leaves no trace.  An admitted request holds its slot from
    the server's current second. *)
Theorem acquire_decision key live max ttl req s
  (Hkey : zset_key key = true) (Hlive : zset_key live = true) (Hne : key <> live) (Httl : 0 < ttl) :
  let active := above (TIME s - ttl) (zset s key) in
  let leases := above (TIME s - 60) (zset s live) in
  let '((result, now), s') := acquireScript key live max ttl req s in
  now = TIME s /\
  (result = 1 <-> is_Some (active !! req) \/ map_len active + map_len leases < max) /\
  (result = 0 \/ result = 1) /\
  zset s' key = (if result =? 1 then <[req := TIME s]> active else active) /\
  zset s' live = leases /\
  (forall k, k <> key -> k <> live -> zset s' k = zset s k).
Proof.
  intros active leases. unfold acquireScript. cbv zeta.
  set (s2 := ZREMRANGEBYSCORE live (TIME s - 60) (ZREMRANGEBYSCORE key (TIME s - ttl) s)).
  assert (Hk : zset s2 key = active).
  { unfold s2. rewrite !zset_ZREMRANGE by done. rewrite (decide_False (P := key = live)), decide_True by done. done. }
  assert (Hl : zset s2 live = leases).
  { unfold s2. rewrite !zset_ZREMRANGE by done. rewrite decide_True by done. rewrite decide_False by congruence. done. }
  assert (Ho : forall k, k <> key -> k <> live -> zset s2 k = zset s k).
  { intros k H1 H2. unfold s2. rewrite !zset_ZREMRANGE by done. by rewrite !decide_False. }
  assert (Hadd : forall k, zset (EXPIRE key ttl (ZADD key (TIME s) req s2)) k = if decide (k = key) then <[req := TIME s]> active else zset s2 k).
  { intros k. rewrite zset_EXPIRE, zset_ZADD by done. by rewrite Hk. }
  clearbody s2. unfold ZSCORE, ZCARD. rewrite Hk, Hl.
  assert (Hgot : (active !! req = None -> map_len active + map_len leases < max) ->
    TIME s = TIME s /\ (1 = 1 <-> is_Some (active !! req) \/ map_len active + map_len leases < max) /\ (1 = 0 \/ 1 = 1) /\
    zset (EXPIRE key ttl (ZADD key (TIME s) req s2)) key = <[req := TIME s]> active /\
    zset (EXPIRE key ttl (ZADD key (TIME s) req s2)) live = leases /\
    (forall k, k <> key -> k <> live -> zset (EXPIRE key ttl (ZADD key (TIME s) req s2)) k = zset s k)).
  { intros Hm. split; [done|]. split; [split; [intros _|done]; destruct (active !! req); eauto|]. split; [auto|].
    split; [rewrite Hadd; by rewrite decide_True|]. split; [rewrite Hadd; by rewrite decide_False|].
    intros k H1 H2. rewrite Hadd, decide_False by done. by apply Ho. }
  destruct (active !! req) eqn:E; [by apply Hgot|].
  destruct (Z.ltb_spec (map_len active + map_len leases) max); [by apply Hgot|].
  split; [done|]. split; [split; [done|intros [[? ?]|?]; [done|lia]]|]. auto.
Qed.
End decision.

Import Reference.

Lemma acquire_decision_witness :
  let s := elapse 1000000 (ZADD (accountSlotKey 7) 990 "ra-2" (ZADD (accountSlotKey 7) 50 "ra-1" empty_store)) in
  (fst (acquireScript (accountSlotKey 7) (liveAccountSlotKey 7) 1 900 "ra-3" s) = (0, 1000)) /\
  (fst (acquireScript (accountSlotKey 7) (liveAccountSlotKey 7) 2 900 "ra-3" s)).1 = 1.
Proof.
  intros s. split; [vm_compute; reflexivity|].
  pose proof (acquire_decision (accountSlotKey 7) (liveAccountSlotKey 7) 2 900 "ra-3" s eq_refl eq_refl
    ltac:(vm_compute; discriminate) eq_refl) as HA.
  destruct (acquireScript (accountSlotKey 7) (liveAccountSlotKey 7) 2 900 "ra-3" s) as [[result now] s'].
  destruct HA as (_ & HA & _). cbn [fst]. apply HA. right. vm_compute. reflexivity.
Defined.

End ConcurrencyCache.
