(* ===== verification/ConcurrencySlots.v ===== *)
(** * ConcurrencySlots: what the concurrency cache guarantees

    The system of any number of programs of [ConcurrencyCache] on one Redis,
    and its theorems.  One account or user is watched: its regular slots, its
    live leases, and the requests that were told they hold a slot. *)

From S2P Require Import Prelude GoStrings Redis ConcurrencyCache.

Module ConcurrencySlots.
Import ConcurrencyCache.

(** ** The keys of one account or user *)

Fixpoint conflict (p q : string) : bool :=
  match p, q with
  | String a p, String b q => if Ascii.eqb a b then conflict p q else true
  | _, _ => false
  end.

Lemma conflict_ne p q x y : conflict p q = true -> p +:+ x <> q +:+ y.
Proof.
  revert q. induction p as [|a p IH]; intros [|b q]; try done. cbn [conflict]. rewrite !append_cons.
  destruct (Ascii.eqb_spec a b) as [->|Hne]; [|congruence]. intros Hc [= Heq]. by eapply IH.
Qed.

Lemma conflict_no_prefix p q x : conflict p q = true -> HasPrefix (p +:+ x) q = false.
Proof.
  intros Hc. destruct (HasPrefix (p +:+ x) q) eqn:E; [|done]. apply HasPrefix_spec in E as [t Ht].
  exfalso. by eapply conflict_ne.
Qed.

Lemma zset_key_family p x :
  conflict p waitQueueKeyPrefix && conflict p accountWaitKeyPrefix && conflict p legacyWaitSweepMarkerKey = true ->
  zset_key (p +:+ x) = true.
Proof.
  rewrite !andb_true_iff. intros [[H1 H2] H3]. unfold zset_key, int_key. rewrite !conflict_no_prefix by done.
  destruct (String.eqb_spec (p +:+ x) legacyWaitSweepMarkerKey) as [E|]; [|done].
  rewrite <- (str_app_nil_r legacyWaitSweepMarkerKey) in E. exfalso. by eapply conflict_ne.
Qed.

Lemma int_key_family p x : p = waitQueueKeyPrefix \/ p = accountWaitKeyPrefix -> zset_key (p +:+ x) = false.
Proof.
  intros [-> | ->]; unfold zset_key, int_key, HasPrefix; rewrite prefix_app; by rewrite ?orb_true_r.
Qed.

Lemma Itoa_first z : exists a t, Itoa z = String a t /\ (a = "-"%char \/ is_digit a = true).
Proof.
  destruct (Z.leb_spec 0 z) as [Hz|Hz].
  - pose proof (Itoa_digits z Hz) as Hd. pose proof (Itoa_nonempty z Hz) as Hn. destruct (Itoa z) as [|a t]; [done|].
    inversion Hd; subst. eauto.
  - destruct z as [|p|p]; try lia. eexists _, _. split; [reflexivity|by left].
Qed.

Lemma not_active_index z : Itoa z <> "active_index".
Proof. destruct (Itoa_first z) as (a & t & -> & [-> | Ha]); [done|]. intros [= -> ->]. done. Qed.

Variant kind := AccountKind | UserKind.
Definition regular_key (k : kind) : Z -> string := match k with AccountKind => accountSlotKey | UserKind => userSlotKey end.
Definition live_key (k : kind) : Z -> string := match k with AccountKind => liveAccountSlotKey | UserKind => liveUserSlotKey end.

Definition wait_key (k : kind) : Z -> string := match k with AccountKind => accountWaitKey | UserKind => waitQueueKey end.

Lemma regular_zset k i : zset_key (regular_key k i) = true.
Proof. destruct k; by apply zset_key_family. Qed.
Lemma live_zset k i : zset_key (live_key k i) = true.
Proof. destruct k; by apply zset_key_family. Qed.
Lemma regular_ne_live k i k' j : regular_key k i <> live_key k' j.
Proof. destruct k, k'; by apply conflict_ne. Qed.

Lemma str_app_inv (p x y : string) : p +:+ x = p +:+ y -> x = y.
Proof. induction p as [|a p IH]; [done|]. rewrite !append_cons. intros [= E]. by apply IH. Qed.

Lemma Itoa_inj i j : Itoa i = Itoa j -> i = j.
Proof. apply (inj pretty). Qed.

Lemma regular_inj k i k' j : regular_key k i = regular_key k' j -> k = k' /\ i = j.
Proof.
  destruct k, k'; cbn; intros E.
  all: try (exfalso; by eapply conflict_ne in E).
  all: apply str_app_inv, Itoa_inj in E; done.
Qed.

Lemma live_inj k i k' j : live_key k i = live_key k' j -> k = k' /\ i = j.
Proof.
  destruct k, k'; cbn; intros E.
  all: try (exfalso; by eapply conflict_ne in E).
  all: apply str_app_inv, Itoa_inj in E; done.
Qed.

Lemma wait_zset_key k i : zset_key (wait_key k i) = false.
Proof. destruct k; apply int_key_family; auto. Qed.

Lemma wait_inj k i k' j : wait_key k i = wait_key k' j -> k = k' /\ i = j.
Proof.
  destruct k, k'; cbn; intros E.
  all: try (exfalso; by eapply conflict_ne in E).
  all: apply str_app_inv, Itoa_inj in E; done.
Qed.

Lemma wait_not_marker k i : legacyWaitSweepMarkerKey <> wait_key k i.
Proof. rewrite <- (str_app_nil_r legacyWaitSweepMarkerKey). destruct k; by apply conflict_ne. Qed.

(** Keys outside both families. *)
Definition foreign (key : string) : Prop :=
  zset_key key = true /\ forall k i, key <> regular_key k i /\ key <> live_key k i.

Lemma foreign_index k : foreign (match k with AccountKind => accountActiveIndexKey | UserKind => userActiveIndexKey end).
Proof.
  split; [by destruct k|]. intros k' i.
  assert (Ha : accountActiveIndexKey = accountSlotKeyPrefix +:+ "active_index") by done.
  assert (Hu : userActiveIndexKey = userSlotKeyPrefix +:+ "active_index") by done.
  destruct k; rewrite ?Ha, ?Hu; destruct k'; split;
    try (by apply conflict_ne); intros E; apply str_app_inv in E; by apply (not_active_index i).
Qed.

Lemma foreign_family p x :
  conflict p waitQueueKeyPrefix && conflict p accountWaitKeyPrefix && conflict p legacyWaitSweepMarkerKey &&
  conflict p accountSlotKeyPrefix && conflict p userSlotKeyPrefix && conflict p liveAccountSlotKeyPrefix &&
  conflict p liveUserSlotKeyPrefix = true -> foreign (p +:+ x).
Proof.
  rewrite !andb_true_iff. intros [[[[[[H1 H2] H3] H4] H5] H6] H7]. split.
  - apply zset_key_family. by rewrite H1, H2, H3.
  - intros [] i; split; by apply conflict_ne.
Qed.

(** ** Sorted sets under the commands *)

Section zsets.
Context {St : Type} `{RedisLaws St zset_key}.
Implicit Types s : St.

Lemma above_lookup max z m : above max z !! m = match z !! m with Some sc => if max <? sc then Some sc else None | None => None end.
Proof.
  unfold above. rewrite map_lookup_filter. destruct (z !! m) as [sc|]; simpl; [|done].
  destruct (Z.ltb_spec max sc); case_guard; try done; lia.
Qed.

Lemma above_len max z : map_len (above max z) <= map_len z.
Proof. apply map_len_filter_le. Qed.

Lemma TIME_mono s dt : 0 <= dt -> TIME s <= TIME (elapse dt s).
Proof. intros. unfold TIME. rewrite (clock_elapse (zk := zset_key)) by done. apply Z.div_le_mono; lia. Qed.

(** ** The watched sets *)

(** A limit of [M] slots of [T] seconds on the regular set [kr] and the live
    set [kl], and of [W] waiting requests counted by [kw]; with [b], leases that replace regular slots may exceed the
    limit by one while the slots they replace are still held. *)
Section watch.
Variables (kr kl kw : string) (T M W : Z) (b : bool).
Hypothesis Hkr : zset_key kr = true.
Hypothesis Hkl : zset_key kl = true.
Hypothesis Hkk : kr <> kl.
Hypothesis HT : 0 < T.
Hypothesis Hkw : zset_key kw = false.

Definition young (s : St) (t : Z) : bool := TIME s <? t + T.

(** The invariant: [h] has the requests that hold a slot, with the second in
    which they got it or refreshed it. *)
Record good (s : St) (h : gmap string Z) : Prop := {
  g_count : map_len (zset s kr) + map_len (zset s kl) <= M + Z.b2z b;
  g_past : forall m sc, zset s kr !! m = Some sc -> sc <= TIME s;
  g_deadline : forall d m sc, deadline s kr = Some d -> zset s kr !! m = Some sc -> (sc + T) * 1000 <= d;
  g_held : forall req t, h !! req = Some t -> young s t = true -> exists sc, zset s kr !! req = Some sc /\ t <= sc
}.

Lemma good_weaken s h h' : good s h -> h' ⊆ h -> good s h'.
Proof.
  intros [H1 H2 H3 H4] Hs. split; [done..|]. intros req t Ht. apply H4. by eapply lookup_weaken.
Qed.

(** A change that leaves the regular set alone and does not enlarge the live one. *)
Lemma good_quiet s s' h :
  good s h -> zset s' kr = zset s kr -> deadline s' kr = deadline s kr -> clock s' = clock s ->
  map_len (zset s' kl) <= map_len (zset s kl) -> good s' h.
Proof.
  intros [H1 H2 H3 H4] Hz Hd Hc Hl. unfold young, TIME in *.
  split; unfold young, TIME; rewrite ?Hz, ?Hd, ?Hc; [lia | done..].
Qed.

Lemma good_trim_regular s h cutoff : cutoff <= TIME s - T -> good s h -> good (ZREMRANGEBYSCORE kr cutoff s) h.
Proof.
  intros Hc [H1 H2 H3 H4]. unfold young, TIME in *.
  assert (Hz : zset (ZREMRANGEBYSCORE kr cutoff s) kr = above cutoff (zset s kr)) by (rewrite zset_ZREMRANGE by done; by rewrite decide_True).
  assert (Hl : zset (ZREMRANGEBYSCORE kr cutoff s) kl = zset s kl) by (rewrite zset_ZREMRANGE by done; by rewrite decide_False).
  assert (Ha : forall m sc, above cutoff (zset s kr) !! m = Some sc -> zset s kr !! m = Some sc).
  { intros m sc. rewrite above_lookup. repeat case_match; congruence. }
  split; unfold young, TIME; rewrite ?Hz, ?Hl, ?clock_ZREMRANGE.
  - pose proof (above_len cutoff (zset s kr)). lia.
  - eauto.
  - intros d m sc Hd Hm. rewrite deadline_ZREMRANGE, decide_True in Hd by done. unfold kept in Hd. case_decide; [done|]. eauto.
  - intros req t Hh Ht. destruct (H4 req t Hh Ht) as (sc & Hsc & Hle). exists sc. split; [|done].
    rewrite above_lookup, Hsc. replace (cutoff <? sc) with true by lia. done.
Qed.

Lemma good_trim_other s h k cutoff : zset_key k = true -> k <> kr -> good s h -> good (ZREMRANGEBYSCORE k cutoff s) h.
Proof.
  intros Hk Hne Hg. apply (good_quiet s); try done.
  - rewrite zset_ZREMRANGE by done. by rewrite decide_False.
  - rewrite deadline_ZREMRANGE by done. by rewrite decide_False.
  - by rewrite clock_ZREMRANGE.
  - rewrite zset_ZREMRANGE by done. case_decide; [subst; apply above_len | done].
Qed.

Lemma good_trim s h k cutoff : zset_key k = true -> (k = kr -> cutoff <= TIME s - T) -> good s h -> good (ZREMRANGEBYSCORE k cutoff s) h.
Proof. intros Hk Hc. destruct (decide (k = kr)) as [->|]; [by apply good_trim_regular; auto | by apply good_trim_other]. Qed.

(** Deleting elsewhere, or from the live set. *)
Lemma good_zrem_other s h k m : zset_key k = true -> k <> kr -> good s h -> good (ZREM k m s) h.
Proof.
  intros Hk Hne Hg. apply (good_quiet s); try done.
  - rewrite zset_ZREM by done. by rewrite decide_False.
  - rewrite deadline_ZREM by done. by rewrite decide_False.
  - by rewrite clock_ZREM.
  - rewrite zset_ZREM by done. case_decide; [subst; apply map_len_delete_le | done].
Qed.

Lemma good_zrem_regular s h m : good s h -> good (ZREM kr m s) (delete m h).
Proof.
  intros [H1 H2 H3 H4]. unfold young, TIME in *.
  assert (Hz : zset (ZREM kr m s) kr = delete m (zset s kr)) by (rewrite zset_ZREM by done; by rewrite decide_True).
  assert (Hl : zset (ZREM kr m s) kl = zset s kl) by (rewrite zset_ZREM by done; by rewrite decide_False).
  split; unfold young, TIME; rewrite ?Hz, ?Hl, ?clock_ZREM.
  - pose proof (map_len_delete_le m (zset s kr)). lia.
  - intros m' sc Hm. apply lookup_delete_Some in Hm as [_ Hm]. eauto.
  - intros d m' sc Hd Hm. apply lookup_delete_Some in Hm as [_ Hm].
    rewrite deadline_ZREM, decide_True in Hd by done. unfold kept in Hd. case_decide; [done|]. eauto.
  - intros req t Hh Ht. apply lookup_delete_Some in Hh as [Hne Hh]. destruct (H4 req t Hh Ht) as (sc & Hsc & Hle).
    exists sc. by rewrite lookup_delete_ne.
Qed.

(** Adding to a set that is not watched. *)
Lemma good_zadd_other s h k sc m : zset_key k = true -> k <> kr -> k <> kl -> good s h -> good (ZADD k sc m s) h.
Proof.
  intros Hk Hr Hl Hg. apply (good_quiet s); try done.
  - rewrite zset_ZADD by done. by rewrite decide_False.
  - rewrite deadline_ZADD by done. by rewrite decide_False.
  - by rewrite clock_ZADD.
  - rewrite zset_ZADD by done. by rewrite decide_False.
Qed.

(** Adding a lease that is there, or that there is room for. *)
Lemma good_zadd_live s h sc m :
  is_Some (zset s kl !! m) \/ map_len (zset s kr) + map_len (zset s kl) < M + Z.b2z b -> good s h -> good (ZADD kl sc m s) h.
Proof.
  intros Hroom [H1 H2 H3 H4]. unfold young, TIME in *.
  assert (Hz : zset (ZADD kl sc m s) kr = zset s kr) by (rewrite zset_ZADD by done; by rewrite decide_False).
  assert (Hl : zset (ZADD kl sc m s) kl = <[m := sc]> (zset s kl)) by (rewrite zset_ZADD by done; by rewrite decide_True).
  split; unfold young, TIME; rewrite ?Hz, ?Hl, ?clock_ZADD; [ | done | | done].
  - destruct Hroom as [Hin|Hroom]; [by rewrite map_len_insert_present | pose proof (map_len_insert_le m sc (zset s kl)); lia].
  - rewrite deadline_ZADD by done. by rewrite decide_False.
Qed.

Lemma good_expire_other s h k ttl : 0 < ttl -> k <> kr -> good s h -> good (EXPIRE k ttl s) h.
Proof.
  intros Ht Hne Hg. apply (good_quiet s); try done; rewrite ?clock_EXPIRE, ?zset_EXPIRE by done; try done.
  rewrite deadline_EXPIRE by done. by rewrite decide_False.
Qed.

Lemma good_expire_regular s h : good s h -> good (EXPIRE kr T s) h.
Proof.
  intros [H1 H2 H3 H4]. unfold young, TIME in *. split; unfold young, TIME; rewrite ?clock_EXPIRE, ?zset_EXPIRE by done; try done.
  intros d m sc Hd Hm. rewrite deadline_EXPIRE, decide_True in Hd by done. unfold kept in Hd. case_decide; [done|]. simplify_eq.
  specialize (H2 m sc Hm). pose proof (Z.mul_div_le (clock s) 1000 ltac:(lia)). lia.
Qed.

(** Taking or refreshing a regular slot. *)
Lemma good_take s h req :
  is_Some (zset s kr !! req) \/ map_len (zset s kr) + map_len (zset s kl) < M + Z.b2z b -> good s h ->
  good (EXPIRE kr T (ZADD kr (TIME s) req s)) (<[req := TIME s]> h).
Proof.
  intros Hroom [H1 H2 H3 H4].
  assert (Hz : zset (ZADD kr (TIME s) req s) kr = <[req := TIME s]> (zset s kr)) by (rewrite zset_ZADD by done; by rewrite decide_True).
  assert (Hl : zset (ZADD kr (TIME s) req s) kl = zset s kl) by (rewrite zset_ZADD by done; by rewrite decide_False).
  assert (Hp : forall m sc, <[req := TIME s]> (zset s kr) !! m = Some sc -> sc <= TIME s).
  { intros m sc Hm. apply lookup_insert_Some in Hm as [[_ <-]|[_ Hm]]; [lia | eauto]. }
  split; unfold young; change (@TIME St _) with (fun s : St => clock s / 1000) in *; cbv beta in *;
    rewrite ?clock_EXPIRE, ?zset_EXPIRE, ?Hz, ?Hl, ?clock_ZADD by done; try done.
  - destruct Hroom as [Hin|Hroom]; [rewrite map_len_insert_present by done; lia|].
    pose proof (map_len_insert_le req (clock s / 1000) (zset s kr)). lia.
  - intros d m sc Hd Hm. rewrite deadline_EXPIRE, decide_True in Hd by done. unfold kept in Hd. case_decide; [done|].
    rewrite clock_ZADD in Hd. simplify_eq. specialize (Hp m sc Hm). pose proof (Z.mul_div_le (clock s) 1000 ltac:(lia)). lia.
  - intros req' t Hh Ht. destruct (decide (req' = req)) as [->|].
    + rewrite lookup_insert_eq in *. simplify_eq. eexists. by split.
    + rewrite lookup_insert_ne in * by done. by apply H4.
Qed.

Lemma good_del_other s h k : k <> kr -> good s h -> good (DEL k s) h.
Proof.
  intros Hne Hg. apply (good_quiet s); try done; rewrite ?clock_DEL, ?zset_DEL, ?deadline_DEL; rewrite ?decide_False by done; try done.
  case_decide; [rewrite map_len_empty; apply map_len_nonneg | done].
Qed.

Lemma good_del_empty s h : zset s kr = ∅ -> good s h -> good (DEL kr s) h.
Proof.
  intros He [H1 H2 H3 H4]. unfold young, TIME in *.
  assert (Hz : zset (DEL kr s) kr = zset s kr) by (rewrite zset_DEL, decide_True by done; done).
  split; unfold young, TIME; rewrite ?Hz, ?clock_DEL; try done.
  - rewrite zset_DEL, decide_False by done. done.
  - rewrite deadline_DEL, decide_True by done. done.
Qed.

Lemma good_elapse s h dt : 0 <= dt -> good s h -> good (elapse dt s) h.
Proof.
  intros Hdt [H1 H2 H3 H4]. pose proof (TIME_mono s dt Hdt) as HTm.
  assert (Hl : map_len (zset (elapse dt s) kl) <= map_len (zset s kl)).
  { rewrite zset_elapse by done. repeat case_match; try done; rewrite map_len_empty; apply map_len_nonneg. }
  assert (Hr : zset (elapse dt s) kr = zset s kr \/ zset (elapse dt s) kr = ∅ /\ exists d, deadline s kr = Some d /\ d <= clock s + dt).
  { rewrite zset_elapse by done. destruct (deadline s kr) as [d|]; [|auto]. destruct (Z.leb_spec d (clock s + dt)); eauto. }
  split.
  - destruct Hr as [-> | [-> _]]; rewrite ?map_len_empty; pose proof (map_len_nonneg (zset s kr)); lia.
  - intros m sc Hm. destruct Hr as [Hr | [Hr _]]; rewrite Hr in Hm; [specialize (H2 _ _ Hm); lia | done].
  - intros d m sc Hd Hm. destruct Hr as [Hr | [Hr _]]; rewrite Hr in Hm; [|done].
    rewrite deadline_elapse in Hd by done. destruct (deadline s kr) as [d'|] eqn:E; [|done]. case_match; simplify_eq. eauto.
  - unfold young in *. intros req t Hh Ht. destruct (H4 req t Hh ltac:(lia)) as (sc & Hsc & Hle).
    destruct Hr as [-> | (-> & d & Hd & Hle')]; [by exists sc|]. exfalso. specialize (H3 d req sc Hd Hsc).
    unfold TIME in Ht. rewrite (clock_elapse (zk := zset_key)) in Ht by done.
    assert (sc + T <= (clock s + dt) / 1000) by (apply Z.div_le_lower_bound; lia). lia.
Qed.

(** ** The requests keep the invariant *)

(** The watched requests that a request of any client admits or releases. *)
Definition note {R} (c : call R) : outcome R rerror -> gmap string Z -> gmap string Z :=
  match c with
  | RunAcquire key _ _ _ req => fun r h =>
      match r with
      | Ok (result, now) => if bool_decide (key = kr) && (result =? 1) then <[req := now]> h else h
      | Err _ => h
      end
  | CmdZRem key ms => fun _ h => if bool_decide (key = kr) then fold_left (fun h m => delete m h) ms h else h
  | RunStartupCleanup key prefix _ => fun _ h =>
      if bool_decide (key = kr) then filter (fun e => HasPrefix e.1 prefix = true) h else h
  | _ => fun _ h => h
  end.

(** A limit that an acquisition of the watched live set must respect. *)
Definition live_limit (regular live : string) (max replacing : Z) : Prop :=
  live = kl -> regular = kr /\ 0 < max <= M /\ (replacing = 1 -> b = true).

(** What clients send: the scripts with the keys of one entity and the TTL of
    the cache, cutoffs of pipelines computed from a time that was read before
    ([t] is a time the server had), other commands on other keys. *)
Definition call_ok (t : Z) {R} (c : call R) : Prop :=
  match c with
  | RunAcquire key live max ttl _ =>
      zset_key key = true /\ zset_key live = true /\ live <> kr /\ key <> kl /\ 0 < ttl /\ (key = kr -> live = kl /\ max <= M /\ ttl = T)
  | RunGetCount key live ttl =>
      zset_key key = true /\ zset_key live = true /\ live <> kr /\ (key = kr -> ttl = T)
  | RunAcquireLive ar al ur ul ak am um ttl _ replacing =>
      zset_key al = true /\ zset_key ul = true /\ zset_key ak = true /\ al <> kr /\ ul <> kr /\ ak <> kr /\ ak <> kl /\ al <> ul /\
      0 < ttl /\ live_limit ar al am replacing /\ live_limit ur ul um replacing
  | RunRefreshLive keys ttl _ => 0 < ttl /\ Forall (fun k => zset_key k = true /\ k <> kr) keys
  | RunTrack key ttl _ | RunAcquireIngress key _ ttl _ | RunRefreshIngress key ttl _ =>
      0 < ttl /\ zset_key key = true /\ key <> kr /\ key <> kl
  | RunIncrementWait key max ttl | RunIncrementAccountWait key max ttl =>
      0 < ttl /\ zset_key key = false /\ (key = kw -> max <= W)
  | RunDecrementWait key => zset_key key = false
  | RunCleanupExpired key ttl | RunStartupCleanup key _ ttl =>
      0 < ttl /\ zset_key key = true /\ key <> kl /\ (key = kr -> ttl = T)
  | CmdZAdd key _ => zset_key key = true /\ key <> kr /\ key <> kl
  | CmdZRem key _ => zset_key key = true
  | CmdTxZRem removals => Forall (fun e => zset_key e.1 = true /\ e.1 <> kr) removals
  | CmdZRemRangeByScore key cutoff => zset_key key = true /\ (key = kr -> cutoff <= t - T)
  | CmdDel keys => Forall (fun k => k <> kr) keys
  | CmdSet key _ => zset_key key = false /\ key <> kw
  | _ => True
  end.

Lemma good_acquire s h key live max ttl req :
  zset_key key = true -> zset_key live = true -> live <> kr -> key <> kl -> 0 < ttl ->
  (key = kr -> live = kl /\ max <= M /\ ttl = T) -> good s h ->
  let '(r, s') := acquireScript key live max ttl req s in good s' (note (RunAcquire key live max ttl req) (Ok r) h).
Proof.
  intros Hk Hl Hlr Hkl' Ht Hlim Hg. unfold acquireScript, note. cbv zeta.
  assert (Hg2 : good (ZREMRANGEBYSCORE live (TIME s - 60) (ZREMRANGEBYSCORE key (TIME s - ttl) s)) h).
  { apply good_trim; [done..|]. apply good_trim; [done| |done]. intros ->. destruct Hlim as (_ & _ & ->); [done|]. lia. }
  assert (HTm : TIME (ZREMRANGEBYSCORE live (TIME s - 60) (ZREMRANGEBYSCORE key (TIME s - ttl) s)) = TIME s)
    by (unfold TIME; by rewrite !clock_ZREMRANGE).
  revert Hg2 HTm. generalize (ZREMRANGEBYSCORE live (TIME s - 60) (ZREMRANGEBYSCORE key (TIME s - ttl) s)).
  intros s2 Hg2 HTm. rewrite <- HTm. unfold ZSCORE, ZCARD.
  destruct (decide (key = kr)) as [->|Hne].
  - destruct Hlim as (-> & Hmax & ->); [done|]. rewrite bool_decide_true by done.
    destruct (zset s2 kr !! req) as [sc|] eqn:E; [apply good_take; eauto|].
    destruct (Z.ltb_spec (map_len (zset s2 kr) + map_len (zset s2 kl)) max); [|done].
    apply good_take; [|done]. right. destruct b; cbn [Z.b2z]; lia.
  - rewrite bool_decide_false by done. cbn [andb].
    assert (Ha : good (EXPIRE key ttl (ZADD key (TIME s2) req s2)) h)
      by (apply good_expire_other; [done..|]; by apply good_zadd_other).
    destruct (zset s2 key !! req); [exact Ha|]. destruct (_ <? max); [exact Ha | exact Hg2].
Qed.

Lemma good_get_count s h key live ttl :
  zset_key key = true -> zset_key live = true -> live <> kr -> (key = kr -> ttl = T) -> good s h ->
  good (getCountScript key live ttl s).2 h.
Proof.
  intros Hk Hl Hlr Hlim Hg. unfold getCountScript. cbn [snd]. apply good_trim; [done..|].
  apply good_trim; [done| |done]. intros ->. rewrite Hlim by done. lia.
Qed.

Definition room (s : St) : Prop := map_len (zset s kr) + map_len (zset s kl) < M + Z.b2z b.

Lemma good_zadd_lease s h k sc m :
  zset_key k = true -> k <> kr -> (k = kl -> is_Some (zset s kl !! m) \/ room s) -> good s h -> good (ZADD k sc m s) h.
Proof.
  intros Hk Hr Hl Hg. destruct (decide (k = kl)) as [->|]; [apply good_zadd_live; [by apply Hl | done] | by apply good_zadd_other].
Qed.

Lemma room_zadd s k sc m : zset_key k = true -> k <> kr -> k <> kl -> room s -> room (ZADD k sc m s).
Proof. intros. unfold room. rewrite !zset_ZADD, !decide_False by done. done. Qed.

(** An admitted lease finds room under the watched limit. *)
Lemma live_limit_room s regular live max replacing :
  live_limit regular live max replacing ->
  (0 <? max) && (max + (if replacing =? 1 then 1 else 0) <=? ZCARD regular s + ZCARD live s) = false ->
  live = kl -> room s.
Proof.
  intros Hlim Hguard ->. destruct (Hlim eq_refl) as (-> & Hmax & Hb). unfold room, ZCARD in *.
  destruct (Z.eqb_spec replacing 1); [rewrite (Hb e) in *|]; destruct b; cbn [Z.b2z]; lia.
Qed.

Lemma good_acquire_live s h ar al ur ul ak am um ttl lease replacing :
  call_ok 0 (RunAcquireLive ar al ur ul ak am um ttl lease replacing) -> good s h ->
  good (acquireLiveLeaseScript ar al ur ul ak am um ttl lease replacing s).2 h.
Proof.
  intros (Hal & Hul & Hak & Nal & Nul & Nak & Nak' & Nau & Ht & La & Lu) Hg. unfold acquireLiveLeaseScript. cbv zeta.
  set (s3 := ZREMRANGEBYSCORE ak _ _). assert (Hg3 : good s3 h) by (repeat (apply good_trim_other; [done..|]); done).
  clearbody s3. destruct (ZSCORE al lease s3); [done|].
  destruct ((0 <? am) && _) eqn:Ea; [done|]. destruct ((0 <? um) && _) eqn:Eu; [done|]. cbn [snd].
  pose proof (live_limit_room _ _ _ _ _ La Ea) as Ra. pose proof (live_limit_room _ _ _ _ _ Lu Eu) as Ru.
  repeat (apply good_expire_other; [done..|]).
  apply good_zadd_other; [done..|]. apply good_zadd_lease; [done..| |].
  - intros Hk. right. apply room_zadd; [done|done|congruence|auto].
  - apply good_zadd_lease; [done|done|auto|done].
Qed.

Lemma refreshLive_owned_good keys lease cutoff : forall s h,
  Forall (fun k => zset_key k = true /\ k <> kr) keys -> good s h ->
  good (refreshLive_owned keys lease cutoff s).2 h.
Proof.
  induction keys as [|k keys IH]; intros s h Hk Hg; [done|]. inversion Hk as [|? ? [Hz Hne] Hks]; subst. cbn.
  assert (Hg1 : good (ZREMRANGEBYSCORE k cutoff s) h) by (by apply good_trim_other).
  destruct (ZSCORE k lease _); [by apply IH | done].
Qed.

(** Trimming below [cutoff] keeps what a trim with the same cutoff kept. *)
Lemma refreshLive_keeps keys lease cutoff k0 : forall s,
  Forall (fun k => zset_key k = true /\ k <> kr) keys ->
  (exists sc, zset s k0 !! lease = Some sc /\ cutoff < sc) ->
  exists sc, zset (refreshLive_owned keys lease cutoff s).2 k0 !! lease = Some sc /\ cutoff < sc.
Proof.
  induction keys as [|k keys IH]; intros s Hk Hin; [done|]. inversion Hk as [|? ? [Hz Hne] Hks]; subst. cbn.
  assert (Hin1 : exists sc, zset (ZREMRANGEBYSCORE k cutoff s) k0 !! lease = Some sc /\ cutoff < sc).
  { destruct Hin as (sc & Hsc & Hlt). exists sc. split; [|done]. rewrite zset_ZREMRANGE by done. case_decide; [subst|done].
    rewrite above_lookup, Hsc. by replace (cutoff <? sc) with true by lia. }
  destruct (ZSCORE k lease _); [by apply IH | done].
Qed.

Lemma refreshLive_owned_all keys lease cutoff k0 : forall s,
  Forall (fun k => zset_key k = true /\ k <> kr) keys -> (refreshLive_owned keys lease cutoff s).1 = true -> k0 ∈ keys ->
  is_Some (zset (refreshLive_owned keys lease cutoff s).2 k0 !! lease).
Proof.
  induction keys as [|k keys IH]; intros s Hk Ho Hin; [by apply not_elem_of_nil in Hin|].
  inversion Hk as [|? ? [Hz Hne] Hks]; subst. cbn in *. unfold ZSCORE in *.
  destruct (zset (ZREMRANGEBYSCORE k cutoff s) k !! lease) as [sc|] eqn:E; [|done].
  apply elem_of_cons in Hin as [->|Hin]; [|by apply IH].
  destruct (refreshLive_keeps keys lease cutoff k (ZREMRANGEBYSCORE k cutoff s) Hks) as (sc' & Hsc & _); [|eauto].
  exists sc. split; [done|]. rewrite zset_ZREMRANGE, decide_True, above_lookup in E by done. repeat case_match; simplify_eq; lia.
Qed.

Lemma refresh_all_good keys ttl lease now : forall s h,
  0 < ttl -> Forall (fun k => zset_key k = true /\ k <> kr) keys -> (kl ∈ keys -> is_Some (zset s kl !! lease)) -> good s h ->
  good (fold_left (fun s key => EXPIRE key ttl (ZADD key now lease s)) keys s) h.
Proof.
  induction keys as [|k keys IH]; intros s h Ht Hk Hin Hg; [done|]. inversion Hk as [|? ? [Hz Hne] Hks]; subst. cbn.
  apply IH; [done|done| |].
  - intros Hl. rewrite zset_EXPIRE, zset_ZADD by done. case_decide; [subst; rewrite lookup_insert_eq; eauto|]. apply Hin. by right.
  - apply good_expire_other; [done..|]. apply good_zadd_lease; [done|done| |done]. intros ->. left. apply Hin. by left.
Qed.

Lemma good_refresh_live s h keys ttl lease :
  0 < ttl -> Forall (fun k => zset_key k = true /\ k <> kr) keys -> good s h ->
  good (refreshLiveLeaseScript keys ttl lease s).2 h.
Proof.
  intros Ht Hk Hg. unfold refreshLiveLeaseScript. cbv zeta.
  pose proof (refreshLive_owned_good keys lease (TIME s - ttl) s h Hk Hg) as Hg1.
  pose proof (refreshLive_owned_all keys lease (TIME s - ttl) kl s Hk) as Hin.
  destruct (refreshLive_owned keys lease (TIME s - ttl) s) as [[] s1]; [|done]. cbn [fst snd] in *.
  apply refresh_all_good; auto.
Qed.

(** Scripts on keys that are not watched. *)
Lemma good_track s h key ttl req :
  0 < ttl -> zset_key key = true -> key <> kr -> key <> kl -> good s h -> good (trackSlotScript key ttl req s).2 h.
Proof.
  intros. cbn. apply good_expire_other; [done..|]. apply good_zadd_other; [done..|]. by apply good_trim_other.
Qed.

Lemma good_acquire_ingress s h key m ttl lease :
  0 < ttl -> zset_key key = true -> key <> kr -> key <> kl -> good s h ->
  good (acquireOpenAIWSIngressLeaseScript key m ttl lease s).2 h.
Proof.
  intros. unfold acquireOpenAIWSIngressLeaseScript. cbv zeta.
  assert (Hg : good (ZREMRANGEBYSCORE key (TIME s - ttl) s) h) by (by apply good_trim_other).
  repeat case_match; try done; (apply good_expire_other; [done..|]; by apply good_zadd_other).
Qed.

Lemma good_refresh_ingress s h key ttl lease :
  0 < ttl -> zset_key key = true -> key <> kr -> key <> kl -> good s h ->
  good (refreshOpenAIWSIngressLeaseScript key ttl lease s).2 h.
Proof.
  intros. unfold refreshOpenAIWSIngressLeaseScript. cbv zeta.
  assert (Hg : good (ZREMRANGEBYSCORE key (TIME s - ttl) s) h) by (by apply good_trim_other).
  repeat case_match; try done; (apply good_expire_other; [done..|]; by apply good_zadd_other).
Qed.

Lemma int_key_not_watched k : zset_key k = false -> k <> kr /\ k <> kl.
Proof. intros. split; intros ->; congruence. Qed.

Lemma good_int_change s s' h k : zset_key k = false ->
  (forall k', zset s' k' = zset s k') -> (forall k', zset_key k' = true -> deadline s' k' = deadline s k') -> clock s' = clock s ->
  good s h -> good s' h.
Proof. intros Hk Hz Hd Hc Hg. apply (good_quiet s); auto. by rewrite Hz. Qed.

Lemma good_expire_int s h k ttl : 0 < ttl -> zset_key k = false -> good s h -> good (EXPIRE k ttl s) h.
Proof. intros ? Hk. apply good_expire_other; [done|]. by apply int_key_not_watched. Qed.

Lemma good_increment s h key m ttl : 0 < ttl -> zset_key key = false -> good s h -> good (incrementWaitScript key m ttl s).2 h.
Proof.
  intros Ht Hk Hg. unfold incrementWaitScript. cbv zeta. destruct (m <=? _); [done|]. cbn [snd].
  apply good_expire_int; [done..|]. apply (good_int_change s _ _ key); [done| | | |done]; intros; [by apply zset_INCR | by apply deadline_INCR | by rewrite clock_INCR].
Qed.

Lemma good_decrement s h key : zset_key key = false -> good s h -> good (decrementWaitScript key s).2 h.
Proof.
  intros Hk Hg. unfold decrementWaitScript. destruct (GET s key) as [v|]; [|done]. destruct (0 <? v); [|done]. cbn [snd].
  apply (good_int_change s _ _ key); [done| | | |done]; intros; [by apply zset_DECR | by apply deadline_DECR | by rewrite clock_DECR].
Qed.

Lemma good_expire s h k ttl : 0 < ttl -> (k = kr -> ttl = T) -> good s h -> good (EXPIRE k ttl s) h.
Proof.
  intros Ht Hk Hg. destruct (decide (k = kr)) as [->|]; [rewrite Hk by done; by apply good_expire_regular | by apply good_expire_other].
Qed.

Lemma map_len_zero (z : gmap string Z) : map_len z = 0 -> z = ∅.
Proof. intros Hz. apply map_size_empty_inv. unfold map_len in Hz. lia. Qed.

(** The end of the cleanup scripts: drop an empty set, else renew its expiry. *)
Lemma good_drop_or_expire s h k ttl : 0 < ttl -> (k = kr -> ttl = T) -> good s h ->
  good (if ZCARD k s =? 0 then DEL k s else EXPIRE k ttl s) h.
Proof.
  intros Ht Hk Hg. unfold ZCARD. destruct (Z.eqb_spec (map_len (zset s k)) 0) as [E|]; [|by apply good_expire].
  destruct (decide (k = kr)) as [->|]; [apply good_del_empty; [by apply map_len_zero | done] | by apply good_del_other].
Qed.

Lemma good_cleanup_expired s h key ttl :
  0 < ttl -> zset_key key = true -> (key = kr -> ttl = T) -> good s h -> good (cleanupExpiredSlotsScript key ttl s).2 h.
Proof.
  intros Ht Hk Hlim Hg. unfold cleanupExpiredSlotsScript. cbv zeta.
  assert (Hg1 : good (ZREMRANGEBYSCORE key (TIME s - ttl) s) h).
  { apply good_trim; [done| |done]. intros E. rewrite Hlim by done. lia. }
  pose proof (good_drop_or_expire _ h key ttl Ht Hlim Hg1) as Hd. destruct (_ =? 0); exact Hd.
Qed.

Lemma good_zrem s h k m : zset_key k = true -> good s h -> good (ZREM k m s) (if bool_decide (k = kr) then delete m h else h).
Proof. intros Hk Hg. case_bool_decide; [subst; by apply good_zrem_regular | by apply good_zrem_other]. Qed.

Lemma delete_filter_not (P : string * Z -> Prop) `{!forall x, Decision (P x)} m (h : gmap string Z) :
  (forall z, ~ P (m, z)) -> filter P (delete m h) = filter P h.
Proof. intros HP. rewrite map_filter_delete. apply delete_id, map_lookup_filter_None. right. intros z _. apply HP. Qed.

(** Removing members without the prefix from the watched set; [h] may lose the same. *)
Lemma good_startup_loop key prefix members : forall removed s h,
  zset_key key = true -> good s h ->
  good (fold_left (startup_remove key prefix) members (removed, s)).2
    (if bool_decide (key = kr) then filter (fun e => HasPrefix e.1 prefix = true) h else h).
Proof.
  induction members as [|m members IH]; intros removed s h Hk Hg; cbn.
  - case_bool_decide; [|done]. eapply good_weaken; [done|apply map_filter_subseteq].
  - destruct (HasPrefix m prefix) eqn:E; [by apply IH|].
    specialize (IH (removed + match ZSCORE key m s with Some _ => 1 | None => 0 end) (ZREM key m s)
      (if bool_decide (key = kr) then delete m h else h) Hk (good_zrem s h key m Hk Hg)).
    case_bool_decide; [|exact IH]. rewrite delete_filter_not in IH; [exact IH|]. intros z Hz. change (HasPrefix m prefix = true) in Hz. congruence.
Qed.

Lemma good_startup s h key prefix ttl :
  0 < ttl -> zset_key key = true -> (key = kr -> ttl = T) -> good s h ->
  good (startupCleanupSlotScript key prefix ttl s).2 (if bool_decide (key = kr) then filter (fun e => HasPrefix e.1 prefix = true) h else h).
Proof.
  intros Ht Hk Hlim Hg. unfold startupCleanupSlotScript. cbv zeta.
  pose proof (good_startup_loop key prefix (ZRANGE key s) 0 s h Hk Hg) as Hg1.
  destruct (fold_left _ _ _) as [removed s1]. cbn [snd] in Hg1.
  pose proof (good_drop_or_expire _ _ key ttl Ht Hlim Hg1) as Hd. destruct (_ =? 0); exact Hd.
Qed.

Lemma good_zadds s h key ms : zset_key key = true -> key <> kr -> key <> kl -> good s h ->
  good (fold_left (fun s e => ZADD key e.1 e.2 s) ms s) h.
Proof. intros Hk Hr Hl. revert s. induction ms as [|e ms IH]; intros s Hg; [done|]. cbn. by apply IH, good_zadd_other. Qed.

Lemma good_zrems key ms : forall s h, zset_key key = true -> good s h ->
  good (fold_left (fun s m => ZREM key m s) ms s) (if bool_decide (key = kr) then fold_left (fun h m => delete m h) ms h else h).
Proof.
  induction ms as [|m ms IH]; intros s h Hk Hg; cbn; [by case_bool_decide|].
  pose proof (good_zrem s h key m Hk Hg) as Hg1. specialize (IH _ _ Hk Hg1). by case_bool_decide.
Qed.

Lemma good_tx_zrems rs : forall s h, Forall (fun e => zset_key e.1 = true /\ e.1 <> kr) rs -> good s h ->
  good (fold_left (fun s e => ZREM e.1 e.2 s) rs s) h.
Proof.
  induction rs as [|e rs IH]; intros s h Hf Hg; [done|]. inversion Hf as [|? ? [Hz Hne] Hfs]; subst. cbn.
  apply IH; [done|]. by apply good_zrem_other.
Qed.

Lemma good_dels ks : forall s h, Forall (fun k => k <> kr) ks -> good s h -> good (fold_left (fun s k => DEL k s) ks s) h.
Proof. induction ks as [|k ks IH]; intros s h Hf Hg; [done|]. inversion Hf; subst. cbn. apply IH; [done|]. by apply good_del_other. Qed.

(** Every request a client may send keeps the invariant. *)
Lemma good_execute {R} (c : call R) t s h :
  t <= TIME s -> call_ok t c -> good s h ->
  let '(r, s') := execute c s in good s' (note c r h).
Proof.
  intros Ht Hok Hg. destruct c; cbn [execute note call_ok] in *; try done.
  - destruct Hok as (? & ? & ? & ? & ? & ?). pose proof (good_acquire s h key liveKey maxConcurrency ttl requestID) as Ha.
    destruct (acquireScript _ _ _ _ _ s). by apply Ha.
  - destruct Hok as (? & ? & ? & ?). pose proof (good_get_count s h key liveKey ttl) as Ha.
    destruct (getCountScript _ _ _ s). by apply Ha.
  - pose proof (good_acquire_live s h _ _ _ _ _ _ _ _ leaseID _ Hok Hg) as Ha.
    destruct (acquireLiveLeaseScript _ _ _ _ _ _ _ _ _ _ s). exact Ha.
  - destruct Hok as [? ?]. pose proof (good_refresh_live s h keys ttl leaseID) as Ha.
    destruct (refreshLiveLeaseScript _ _ _ s). by apply Ha.
  - destruct Hok as (? & ? & ? & ?). by apply good_track.
  - destruct Hok as (? & ? & ? & ?). pose proof (good_acquire_ingress s h key maxConnections ttl leaseID) as Ha.
    destruct (acquireOpenAIWSIngressLeaseScript _ _ _ _ s). by apply Ha.
  - destruct Hok as (? & ? & ? & ?). pose proof (good_refresh_ingress s h key ttl leaseID) as Ha.
    destruct (refreshOpenAIWSIngressLeaseScript _ _ _ s). by apply Ha.
  - destruct Hok as (? & ? & _). pose proof (good_increment s h key maxWait ttl) as Ha.
    destruct (incrementWaitScript _ _ _ s). by apply Ha.
  - destruct Hok as (? & ? & _). pose proof (good_increment s h key maxWait ttl) as Ha.
    change (incrementAccountWaitScript key maxWait ttl s) with (incrementWaitScript key maxWait ttl s).
    destruct (incrementWaitScript _ _ _ s). by apply Ha.
  - pose proof (good_decrement s h key) as Ha. destruct (decrementWaitScript _ s). by apply Ha.
  - destruct Hok as (? & ? & ? & ?). pose proof (good_cleanup_expired s h key ttl) as Ha.
    destruct (cleanupExpiredSlotsScript _ _ s). by apply Ha.
  - destruct Hok as (? & ? & ? & ?). pose proof (good_startup s h key activePrefix slotTTL) as Ha.
    destruct (startupCleanupSlotScript _ _ _ s). by apply Ha.
  - destruct Hok as (? & ? & ?). by apply good_zadds.
  - by apply good_zrems.
  - by apply good_tx_zrems.
  - destruct Hok as [? Hc]. apply good_trim; [done| |done]. intros E. specialize (Hc E). lia.
  - by apply good_dels.
  - destruct Hok as [? _]. apply (good_int_change s _ _ key); [done| | | |done]; intros;
      [by apply zset_SET | by apply deadline_SET | by rewrite clock_SET].
Qed.

(** *** The wait counter *)

Lemma ok_snd {A} (r : A * St) : (ok r).2 = r.2.
Proof. by destruct r. Qed.

Definition wait_ok (s : St) : Prop := 0 <= default 0 (GET s kw) <= W.

Lemma wait_same s s' : GET s' kw = GET s kw -> wait_ok s -> wait_ok s'.
Proof. unfold wait_ok. by intros ->. Qed.

Lemma wait_del s k : 0 <= W -> wait_ok s -> wait_ok (DEL k s).
Proof. intros HW Hw. unfold wait_ok. rewrite GET_DEL. case_decide; [cbn; lia | done]. Qed.

Lemma wait_fold {A} (f : St -> A -> St) (P : A -> Prop) l :
  (forall s a, P a -> wait_ok s -> wait_ok (f s a)) -> forall s, Forall P l -> wait_ok s -> wait_ok (fold_left f l s).
Proof. intros Hf. induction l as [|a l IH]; intros s Hl Hs; [done|]. inversion Hl; subst. cbn. apply IH; auto. Qed.

Lemma wait_increment s key m ttl :
  0 < ttl -> zset_key key = false -> (key = kw -> m <= W) -> wait_ok s -> wait_ok (incrementWaitScript key m ttl s).2.
Proof.
  intros Ht Hk Hm Hw. unfold incrementWaitScript. cbv zeta. destruct (m <=? _) eqn:E; [done|]. cbn [snd].
  unfold wait_ok in *. rewrite GET_EXPIRE, GET_INCR by done. case_decide as Hd; [|done]. subst key. specialize (Hm eq_refl).
  destruct (GET s kw); cbn in *; lia.
Qed.

Lemma wait_decrement s key : zset_key key = false -> wait_ok s -> wait_ok (decrementWaitScript key s).2.
Proof.
  intros Hk Hw. unfold decrementWaitScript. destruct (GET s key) as [v|] eqn:E; [|done].
  destruct (Z.ltb_spec 0 v); [|done]. cbn [snd]. unfold wait_ok in *. rewrite GET_DECR by done. case_decide; [subst|done].
  rewrite E in *. cbn in *. lia.
Qed.

(** The sorted-set commands do not touch the counter. *)
Ltac wait_zset := unfold wait_ok in *; rewrite ?GET_EXPIRE by done;
  repeat first [rewrite GET_ZADD by done | rewrite GET_ZREMRANGE by done | rewrite GET_ZREM by done | rewrite GET_EXPIRE by done]; done.

Lemma wait_owned keys lease cutoff : forall s,
  Forall (fun k => zset_key k = true /\ k <> kr) keys -> wait_ok s -> wait_ok (refreshLive_owned keys lease cutoff s).2.
Proof.
  induction keys as [|k keys IH]; intros s Hk Hs; [done|]. inversion Hk as [|? ? [Hz _] Hks]; subst. cbn.
  assert (Hs1 : wait_ok (ZREMRANGEBYSCORE k cutoff s)) by wait_zset. destruct (ZSCORE k lease _); [by apply IH | done].
Qed.

Lemma wait_startup key prefix ms : zset_key key = true -> forall st,
  wait_ok st.2 -> wait_ok (fold_left (startup_remove key prefix) ms st).2.
Proof.
  intros Hk. induction ms as [|m ms IH]; intros [n s] Hs; [done|]. cbn. apply IH. destruct (HasPrefix m prefix); [done|].
  cbn in *. wait_zset.
Qed.

Lemma wait_execute {R} (c : call R) t s : 0 <= W -> call_ok t c -> wait_ok s -> wait_ok (execute c s).2.
Proof.
  intros HW Hok Hw. destruct c; cbn [execute call_ok] in *; rewrite ?ok_snd; try done.
  - destruct Hok as (? & ? & ? & ? & ? & ?). unfold acquireScript. cbv zeta.
    destruct (ZSCORE _ _ _); [cbn; wait_zset|]. destruct (_ <? _); cbn; wait_zset.
  - destruct Hok as (? & ? & ? & ?). cbn. wait_zset.
  - destruct Hok as (? & ? & ? & ? & ? & ? & ? & ? & ? & _). unfold acquireLiveLeaseScript. cbv zeta.
    destruct (ZSCORE _ _ _); [cbn; wait_zset|]. destruct (_ && _); [cbn; wait_zset|]. destruct (_ && _); cbn; wait_zset.
  - destruct Hok as [? Hk]. unfold refreshLiveLeaseScript. cbv zeta.
    pose proof (wait_owned keys leaseID (TIME s - ttl) s Hk Hw) as Ho.
    destruct (refreshLive_owned _ _ _ s) as [[] s1]; cbn in *; [|done].
    apply (wait_fold _ (fun k => zset_key k = true /\ k <> kr)); [|done..]. intros s2 k [? ?] Hs2. wait_zset.
  - destruct Hok as (? & ? & ? & ?). cbn. wait_zset.
  - destruct Hok as (? & ? & ? & ?). unfold acquireOpenAIWSIngressLeaseScript. cbv zeta.
    destruct (ZSCORE _ _ _); [cbn; wait_zset|]. destruct (_ <? _); cbn; wait_zset.
  - destruct Hok as (? & ? & ? & ?). unfold refreshOpenAIWSIngressLeaseScript. cbv zeta.
    destruct (ZSCORE _ _ _); cbn; wait_zset.
  - destruct Hok as (? & ? & ?). by apply wait_increment.
  - destruct Hok as (? & ? & ?). by apply (wait_increment s key maxWait ttl).
  - by apply wait_decrement.
  - destruct Hok as (? & ? & ? & ?). unfold cleanupExpiredSlotsScript. cbv zeta.
    assert (Hs1 : wait_ok (ZREMRANGEBYSCORE key (TIME s - ttl) s)) by wait_zset.
    destruct (_ =? 0); cbn; [by apply wait_del | wait_zset].
  - destruct Hok as (? & ? & ? & ?). unfold startupCleanupSlotScript. cbv zeta.
    pose proof (wait_startup key activePrefix (ZRANGE key s) ltac:(done) (0, s) Hw) as Hs1.
    destruct (fold_left _ _ _) as [n s1]. cbn in Hs1. destruct (_ =? 0); cbn; [by apply wait_del | wait_zset].
  - destruct Hok as (? & ? & ?). apply (wait_fold _ (fun _ => True)); [|by apply Forall_true|done]. intros. wait_zset.
  - apply (wait_fold _ (fun _ => True)); [|by apply Forall_true|done]. intros. wait_zset.
  - apply (wait_fold _ (fun e => zset_key e.1 = true /\ e.1 <> kr)); [|done..]. intros s2 e [? ?] ?. wait_zset.
  - destruct Hok. cbn. wait_zset.
  - apply (wait_fold _ (fun k => k <> kr)); [|done..]. intros. by apply wait_del.
  - destruct Hok as [? ?]. cbn. unfold wait_ok in *. rewrite GET_SET by done. by rewrite decide_False.
Qed.

(** ** Programs that send only such requests *)

(** What is known of a reply that came at a time when the clock read [t]. *)
Definition reply_ok {R} (c : call R) (t : Z) : outcome R rerror -> Prop :=
  match c with
  | CmdTime => fun r => match r with Ok now => now = t | Err _ => True end
  | CmdScan prefix _ => fun r => match r with Ok (keys, _) => Forall (fun k => HasPrefix k prefix = true) keys | Err _ => True end
  | _ => fun _ => True
  end.

Fixpoint follows {A} (t : Z) (p : prog A) : Prop :=
  match p with
  | Ret _ => True
  | Do c k => call_ok t c /\ forall t' r, t <= t' -> reply_ok c t' r -> follows t' (k r)
  end.

Lemma call_ok_mono {R} (c : call R) t t' : t <= t' -> call_ok t c -> call_ok t' c.
Proof. destruct c; cbn; try done. intros Ht [? Hc]. split; [done|]. intros E. specialize (Hc E). lia. Qed.

Lemma follows_mono {A} (p : prog A) : forall t t', t <= t' -> follows t p -> follows t' p.
Proof.
  induction p as [|R c k IH]; intros t t' Ht; cbn; [done|]. intros [Hc Hk].
  split; [by eapply call_ok_mono|]. intros t'' r Ht' Hr. apply Hk; [lia | done].
Qed.

Lemma follows_bind {A B} (p : prog A) (f : A -> prog B) : forall t,
  follows t p -> (forall t' a, t <= t' -> follows t' (f a)) -> follows t (bind p f).
Proof.
  induction p as [a|R c k IH]; intros t; cbn; [intros _ Hf; apply Hf; lia|]. intros [Hc Hk] Hf.
  split; [done|]. intros t' r Ht Hr. apply IH; [by apply Hk|]. intros t'' a Ht'. apply Hf. lia.
Qed.

Lemma follows_try {A B} (p : prog (outcome A rerror)) (f : A -> prog (outcome B rerror)) t :
  follows t p -> (forall t' a, t <= t' -> follows t' (f a)) -> follows t (try p f).
Proof. intros Hp Hf. unfold try. apply follows_bind; [done|]. intros t' [a|e] Ht; [by apply Hf | done]. Qed.

Lemma follows_send {R} (c : call R) t : call_ok t c -> follows t (send c).
Proof. done. Qed.

(** The time that a program reads is one the server had. *)
Lemma follows_time {A} (f : outcome Z rerror -> prog A) t :
  (forall now, t <= now -> follows now (f (Ok now))) -> (forall t' e, t <= t' -> follows t' (f (Err e))) ->
  follows t (bind (send CmdTime) f).
Proof. intros Hf He. cbn. split; [done|]. intros t' [now|e] Ht Hr; [subst; by apply Hf | by apply He]. Qed.

Lemma follows_pipeline cmds t : Forall (call_ok t) cmds -> follows t (pipeline cmds).
Proof.
  revert t. induction cmds as [|c cmds IH]; intros t Hf; [done|]. inversion Hf as [|? ? Hc Hcs]; subst.
  change (follows t (bind (send c) (fun r => bind (pipeline cmds) (fun rs => Ret (r :: rs))))).
  apply follows_bind; [by apply follows_send|]. intros t' r Ht. apply follows_bind; [|done].
  apply IH. eapply Forall_impl; [exact Hcs|]. intros c' Hc'. by eapply call_ok_mono.
Qed.

(** ** The system *)

(** One Redis, the requests it admitted to the watched set, and the running
    programs of all processes. *)
Record system := System { server : St; held : gmap string Z; procs : gmap nat (prog unit) }.

Variable started : prog unit -> Prop.

Inductive step : system -> system -> Prop :=
| step_reply i R (c : call R) k s h ps r s' :
    ps !! i = Some (Do c k) -> execute c s = (r, s') ->
    step (System s h ps) (System s' (note c r h) (<[i := k r]> ps))
| step_reply_lost i R (c : call R) k s h ps r s' msg :
    ps !! i = Some (Do c k) -> execute c s = (r, s') ->
    step (System s h ps) (System s' (note c r h) (<[i := k (Err (Failed msg))]> ps))
| step_request_lost i R (c : call R) k s h ps msg :
    ps !! i = Some (Do c k) -> step (System s h ps) (System s h (<[i := k (Err (Failed msg))]> ps))
| step_elapse dt s h ps : 0 <= dt -> step (System s h ps) (System (elapse dt s) h ps)
| step_start i p s h ps : ps !! i = None -> started p -> step (System s h ps) (System s h (<[i := p]> ps)).

Definition system_ok (y : system) : Prop :=
  good (server y) (held y) /\ wait_ok (server y) /\ map_Forall (fun _ p => follows (TIME (server y)) p) (procs y).

Hypothesis HW : 0 <= W.
Hypothesis Hstarted : forall p, started p -> forall t, 0 <= t -> follows t p.

Lemma fold_clock {A} (f : St -> A -> St) l : (forall s a, clock (f s a) = clock s) -> forall s, clock (fold_left f l s) = clock s.
Proof. intros Hf. induction l as [|a l IH]; intros s; [done|]. cbn. by rewrite IH, Hf. Qed.

Lemma owned_clock keys lease cutoff : forall s, clock (refreshLive_owned keys lease cutoff s).2 = clock s.
Proof.
  induction keys as [|k keys IH]; intros s; [done|]. cbn. destruct (ZSCORE k lease _); [rewrite IH|cbn]; by rewrite clock_ZREMRANGE.
Qed.

Lemma startup_clock key prefix ms : forall st, clock (fold_left (startup_remove key prefix) ms st).2 = clock st.2.
Proof.
  induction ms as [|m ms IH]; intros [n s]; [done|]. cbn. rewrite IH. destruct (HasPrefix m prefix); [done|]. cbn. by rewrite clock_ZREM.
Qed.

Lemma clock_unchanged :
  (forall k sc m s, clock (ZADD k sc m s) = clock s) /\ (forall k m s, clock (ZREM k m s) = clock s) /\
  (forall k x s, clock (ZREMRANGEBYSCORE k x s) = clock s) /\ (forall k x s, clock (EXPIRE k x s) = clock s) /\
  (forall k s, clock (INCR k s) = clock s) /\ (forall k s, clock (DECR k s) = clock s) /\
  (forall k x s, clock (SET k x s) = clock s) /\ (forall k s, clock (DEL k s) = clock s).
Proof. repeat split; intros; apply H0. Qed.


Lemma execute_clock {R} (c : call R) s : clock (execute c s).2 = clock s.
Proof.
  destruct clock_unchanged as (E1 & E2 & E3 & E4 & E5 & E6 & E7 & E8).
  destruct c; cbn [execute]; try done;
    unfold acquireScript, getCountScript, acquireLiveLeaseScript, trackSlotScript, acquireOpenAIWSIngressLeaseScript,
      refreshOpenAIWSIngressLeaseScript, incrementWaitScript, incrementAccountWaitScript, decrementWaitScript,
      cleanupExpiredSlotsScript; cbv zeta;
    rewrite ?ok_snd;
    try (repeat match goal with |- context [match ?x with _ => _ end] => destruct x end; cbn [snd];
         repeat first [rewrite E1 | rewrite E2 | rewrite E3 | rewrite E4 | rewrite E5 | rewrite E6 | rewrite E7 | rewrite E8];
         reflexivity).
  - unfold refreshLiveLeaseScript. cbv zeta. pose proof (owned_clock keys leaseID (TIME s - ttl) s) as Ho.
    destruct (refreshLive_owned _ _ _ s) as [[] s1]; cbn in *; [|done]. rewrite fold_clock; [done|]. intros. by rewrite E4, E1.
  - unfold startupCleanupSlotScript. cbv zeta. pose proof (startup_clock key activePrefix (ZRANGE key s) (0, s)) as Ho.
    destruct (fold_left _ _ _) as [n s1]. cbn in Ho. destruct (_ =? 0); cbn; by rewrite ?E8, ?E4.
  - apply fold_clock. intros. apply E1.
  - apply fold_clock. intros. apply E2.
  - apply fold_clock. intros. apply E2.
  - apply fold_clock. intros. apply E8.
Qed.

Lemma execute_reply_ok {R} (c : call R) s : reply_ok c (TIME s) (execute c s).1.
Proof.
  destruct c as [| | | | | | | | | | | | | | | | | | | | | |pre cursor| |]; cbn; try done.
  pose proof (SCAN_prefix s pre cursor) as Hp. destruct (SCAN s pre cursor) as [keys next].
  apply Forall_forall. intros k Hk. by apply Hp.
Qed.

Lemma system_step_ok y y' : step y y' -> system_ok y -> system_ok y'.
Proof.
  assert (Htime : forall R (c : call R) s r s', execute c s = (r, s') -> TIME s' = TIME s).
  { intros R c s r s' E. pose proof (execute_clock c s) as Hc. rewrite E in Hc. unfold TIME. by rewrite <- Hc. }
  destruct 1 as [i R c k s h ps r s' Hi E | i R c k s h ps r s' msg Hi E | i R c k s h ps msg Hi | dt s h ps Hdt | i p s h ps Hi Hp];
    intros (Hg & Hw & Hf); unfold system_ok in *; cbn [server held procs] in *.
  - pose proof (Hf i _ Hi) as [Hok Hk]. pose proof (good_execute c (TIME s) s h (Z.le_refl _) Hok Hg) as Hg'. rewrite E in Hg'.
    split; [done|]. split; [pose proof (wait_execute c (TIME s) s HW Hok Hw) as Hw'; by rewrite E in Hw'|]. rewrite (Htime _ _ _ _ _ E). apply map_Forall_insert_2; [|done]. apply Hk; [lia|].
    pose proof (execute_reply_ok c s) as Hr. by rewrite E in Hr.
  - pose proof (Hf i _ Hi) as [Hok Hk]. pose proof (good_execute c (TIME s) s h (Z.le_refl _) Hok Hg) as Hg'. rewrite E in Hg'.
    split; [done|]. split; [pose proof (wait_execute c (TIME s) s HW Hok Hw) as Hw'; by rewrite E in Hw'|]. rewrite (Htime _ _ _ _ _ E). apply map_Forall_insert_2; [|done]. apply Hk; [lia|]. by destruct c.
  - pose proof (Hf i _ Hi) as [Hok Hk]. split; [done|]. split; [done|]. apply map_Forall_insert_2; [|done]. apply Hk; [lia|]. by destruct c.
  - split; [by apply good_elapse|].
    split; [unfold wait_ok in *; destruct (GET_elapse dt s kw Hdt) as [-> | ->]; [done | cbn; lia]|]. eapply map_Forall_impl; [exact Hf|]. intros i p. apply follows_mono, TIME_mono, Hdt.
  - split; [done|]. split; [done|]. apply map_Forall_insert_2; [|done]. apply Hstarted; [done|]. unfold TIME.
    apply Z.div_pos; [apply H0 | lia].
Qed.

Lemma steps_ok y y' : rtc step y y' -> system_ok y -> system_ok y'.
Proof. induction 1; eauto using system_step_ok. Qed.
End watch.
End zsets.


(** ** The methods of the cache send only such requests *)

Section methods.
Variables (kd : kind) (i : Z) (T M W : Z) (b : bool) (c : concurrencyCache).
Hypothesis HT : 0 < T.
Hypothesis Hslot : slotTTLSeconds c = T.
Hypothesis Hwait : 0 < waitQueueTTLSeconds c.

Abbreviation kr := (regular_key kd i).
Abbreviation kl := (live_key kd i).
Abbreviation kw := (wait_key kd i).
Abbreviation follows := (follows kr kl kw T M W b).
Abbreviation call_ok := (call_ok kr kl kw T M W b).

(** What the limits passed for the watched account or user are. *)
Definition limited (k : kind) (id max : Z) : Prop := k = kd -> id = i -> max <= M.
Definition wait_limited (k : kind) (id max : Z) : Prop := k = kd -> id = i -> max <= W.
Definition live_limited (k : kind) (id max : Z) (replacing : bool) : Prop :=
  k = kd -> id = i -> 0 < max <= M /\ (replacing = true -> b = true).

Lemma trim_ok t k id now : now <= t -> call_ok t (CmdZRemRangeByScore (regular_key k id) (now - slotTTLSeconds c)).
Proof. intros Ht. split; [apply regular_zset|]. rewrite Hslot. lia. Qed.

Lemma trim_live_ok t k id cutoff : call_ok t (CmdZRemRangeByScore (live_key k id) cutoff).
Proof. split; [apply live_zset|]. intros E. by apply eq_sym, regular_ne_live in E. Qed.

Lemma foreign_trim_ok t k cutoff : foreign k -> call_ok t (CmdZRemRangeByScore k cutoff).
Proof. intros [Hz Hf]. split; [done|]. intros E. by destruct (Hf kd i). Qed.

Lemma foreign_ne k : foreign k -> zset_key k = true /\ k <> kr /\ k <> kl.
Proof. intros [Hz Hf]. split; [done|]. apply Hf. Qed.

Lemma follows_unit_send {R} (d : call R) t : call_ok t d -> follows t (let* _ := send d in Ret tt).
Proof. intros Hc. apply follows_bind; [by apply follows_send | done]. Qed.

Lemma follows_touch t k id e :
  follows t (touchActiveIndexAt (match k with AccountKind => accountActiveIndexKey | UserKind => userActiveIndexKey end) id e).
Proof.
  unfold touchActiveIndexAt. destruct (_ || _); [done|]. apply follows_unit_send. apply foreign_ne, foreign_index.
Qed.

Lemma follows_load t k id wk now :
  now <= t -> follows t (readActiveLoadForKey c id (regular_key k id) wk now).
Proof.
  intros Ht. unfold readActiveLoadForKey. apply follows_bind.
  - apply follows_pipeline. constructor; [by apply trim_ok|]. by repeat constructor.
  - intros t' rs _. destruct (exec_failed rs); done.
Qed.

Definition index_key (k : kind) : string := match k with AccountKind => accountActiveIndexKey | UserKind => userActiveIndexKey end.

Lemma follows_refresh t k id wk : follows t (refreshActiveIndex c (index_key k) id (regular_key k id) wk).
Proof.
  unfold refreshActiveIndex. destruct (id <=? 0); [done|]. apply follows_time; [|done]. intros now Hnow.
  apply follows_bind; [apply follows_load; lia|]. intros t' [load|e] Ht'; [|done].
  destruct (_ && _); [apply follows_unit_send, foreign_ne, foreign_index|].
  destruct (_ <=? 0); [done|]. apply follows_touch.
Qed.

Lemma follows_acquire t k id max req :
  limited k id max -> call_ok t (RunAcquire (regular_key k id) (live_key k id) max (slotTTLSeconds c) req).
Proof.
  intros Hl. split; [apply regular_zset|]. split; [apply live_zset|]. split; [by apply not_eq_sym, regular_ne_live|].
  split; [apply regular_ne_live|]. split; [lia|]. intros [-> ->]%regular_inj. split; [done|]. split; [by apply Hl | done].
Qed.

Lemma follows_slot_call t k id max req (e : Z) (f : bool -> prog (outcome bool rerror)) :
  limited k id max -> (forall t' r, follows t' (f r)) ->
  follows t (try (send (RunAcquire (regular_key k id) (live_key k id) max (slotTTLSeconds c) req)) (fun r =>
    let '(result, now) := r in
    let* _ := (if result =? 1 then touchActiveIndexAt (index_key k) id (now + e) else Ret tt) in f (result =? 1))).
Proof.
  intros Hl Hf. apply follows_try; [by apply follows_send, follows_acquire|]. intros t' [result now] Ht.
  apply follows_bind; [|intros; apply Hf]. destruct (result =? 1); [apply follows_touch | done].
Qed.

Lemma follows_release t k id wk req :
  follows t (try (send (CmdZRem (regular_key k id) [req])) (fun _ =>
    let* _ := refreshActiveIndex c (index_key k) id (regular_key k id) wk in Ret (Ok tt))).
Proof.
  apply follows_try; [apply follows_send, regular_zset|]. intros t' [] Ht.
  apply follows_bind; [apply follows_refresh | done].
Qed.

Lemma follows_count t k id : follows t (send (RunGetCount (regular_key k id) (live_key k id) (slotTTLSeconds c))).
Proof.
  apply follows_send. split; [apply regular_zset|]. split; [apply live_zset|]. split; [by apply not_eq_sym, regular_ne_live | done].
Qed.

Lemma follows_foreign_send {A} (d : call A) (t : Z) : call_ok t d -> follows t (send d).
Proof. apply follows_send. Qed.

Lemma follows_send_ok {A B} (d : call A) (f : A -> B) t : call_ok t d -> follows t (try (send d) (fun r => Ret (Ok (f r)))).
Proof. intros Hd. by apply follows_try; [apply follows_send|]. Qed.

Lemma apikey_foreign id : foreign (apiKeySlotKey id). Proof. by apply foreign_family. Qed.
Lemma live_apikey_foreign id : foreign (liveAPIKeySlotKey id). Proof. by apply foreign_family. Qed.
Lemma ingress_foreign id : foreign (openAIWSIngressLeaseKey id). Proof. by apply foreign_family. Qed.

Lemma live_limit_ok k id max replacing :
  live_limited k id max replacing ->
  live_limit kr kl M b (regular_key k id) (live_key k id) max (if replacing then 1 else 0).
Proof.
  intros Hl [-> ->]%live_inj. destruct (Hl eq_refl eq_refl) as [Hm Hr]. split; [done|]. split; [done|]. by destruct replacing; auto.
Qed.

Lemma follows_acquire_live t a am u um k lease replacing :
  live_limited AccountKind a am replacing -> live_limited UserKind u um replacing ->
  follows t (AcquireLiveLease a am u um k lease replacing).
Proof.
  intros Ha Hu. unfold AcquireLiveLease. destruct (_ || _); [done|].
  apply (follows_send_ok _ (fun result => result =? 1)). destruct (live_apikey_foreign k) as [Hz Hf].
  split; [apply (live_zset AccountKind)|]. split; [apply (live_zset UserKind)|]. split; [done|].
  split; [by apply not_eq_sym, (regular_ne_live kd i AccountKind)|]. split; [by apply not_eq_sym, (regular_ne_live kd i UserKind)|].
  split; [apply Hf|]. split; [apply Hf|].
  split; [intros E; by apply (live_inj AccountKind a UserKind u) in E as [? _]|]. split; [done|].
  split; [by apply (live_limit_ok AccountKind) | by apply (live_limit_ok UserKind)].
Qed.

Lemma live_keys_ok a u k :
  Forall (fun key => zset_key key = true /\ key <> kr) [liveAccountSlotKey a; liveUserSlotKey u; liveAPIKeySlotKey k].
Proof.
  destruct (live_apikey_foreign k) as [Hz Hf].
  constructor; [split; [apply (live_zset AccountKind) | apply not_eq_sym, (regular_ne_live kd i AccountKind)]|].
  constructor; [split; [apply (live_zset UserKind) | apply not_eq_sym, (regular_ne_live kd i UserKind)]|].
  constructor; [split; [done | apply Hf] | constructor].
Qed.

Lemma follows_wait t (w : Z -> call (Z * Z)) k id (e : Z) :
  (forall t, call_ok t (w id)) ->
  follows t (try (send (w id)) (fun r => let '(result, now) := r in
    let* _ := (if result =? 1 then touchActiveIndexAt (index_key k) id (now + e) else Ret tt) in Ret (Ok (result =? 1)))).
Proof.
  intros Hw. apply follows_try; [by apply follows_send|]. intros t' [result now] Ht.
  apply follows_bind; [|done]. destruct (result =? 1); [apply follows_touch | done].
Qed.

Lemma follows_decrement t key k id wk : zset_key key = false ->
  follows t (try (send (RunDecrementWait key)) (fun _ =>
    let* _ := refreshActiveIndex c (index_key k) id (regular_key k id) wk in Ret (Ok tt))).
Proof.
  intros Hk. apply follows_try; [by apply follows_send|]. intros t' r Ht. apply follows_bind; [apply follows_refresh | done].
Qed.

(** *** Batches *)

Lemma Forall_flat_map {A B} (P : B -> Prop) (f : A -> list B) l : (forall a, Forall P (f a)) -> Forall P (flat_map f l).
Proof. intros Hf. induction l as [|a l IH]; cbn; [constructor|]. by apply Forall_app. Qed.

Lemma follows_batch {A} t (cmds : Z -> list (call Z)) (f : list (outcome Z rerror) -> outcome A rerror) :
  (forall now t', now <= t' -> Forall (call_ok t') (cmds now)) ->
  follows t (try (send CmdTime) (fun now => let* rs := pipeline (cmds now) in
    match exec_failed rs with Some e => Ret (Err e) | None => Ret (f rs) end)).
Proof.
  intros Hc. unfold try. apply follows_time; [|done]. intros now Hnow.
  apply follows_bind; [apply follows_pipeline, Hc; lia|]. intros t' rs _. by destruct (exec_failed rs).
Qed.

Lemma count_cmds_ok t now k id : now <= t -> Forall (call_ok t) (count_cmds c (regular_key k) (live_key k) now id).
Proof.
  intros Ht. constructor; [by apply trim_ok|]. constructor; [apply trim_live_ok|]. by repeat constructor.
Qed.

Lemma apikey_cmds_ok t now id : Forall (call_ok t) (count_cmds c apiKeySlotKey liveAPIKeySlotKey now id).
Proof.
  constructor; [apply foreign_trim_ok, apikey_foreign|]. constructor; [apply foreign_trim_ok, live_apikey_foreign|]. by repeat constructor.
Qed.

Lemma follows_concurrency_batch t sk lk ids :
  (forall now t' id, now <= t' -> Forall (call_ok t') (count_cmds c sk lk now id)) -> follows t (concurrency_batch c sk lk ids).
Proof.
  intros Hc. destruct ids as [|id ids]; [done|]. cbn [concurrency_batch]. apply follows_batch.
  intros now t' Hn. apply Forall_flat_map. intros. by apply Hc.
Qed.

Lemma follows_load_batch t k wk accounts : follows t (load_batch c (regular_key k) (live_key k) wk accounts).
Proof.
  destruct accounts as [|a l]; [done|]. cbn [load_batch]. apply follows_batch. intros now t' Hn. apply Forall_flat_map.
  intros acc. unfold load_cmds. apply Forall_app. split; [by apply count_cmds_ok|]. by repeat constructor.
Qed.

(** *** Cleanup *)

Definition spec_of (k : kind) : slotIndexSpec := match k with AccountKind => accountSlotIndex | UserKind => userSlotIndex end.

Lemma spec_slot k : slotKey (spec_of k) = regular_key k. Proof. by destruct k. Qed.
Lemma spec_index k : indexKey (spec_of k) = index_key k. Proof. by destruct k. Qed.
Lemma spec_wait k id : zset_key (waitKey (spec_of k) id) = false.
Proof. destruct k; [apply (wait_zset_key AccountKind) | apply (wait_zset_key UserKind)]. Qed.

Lemma follows_write_index t k refreshed stale : follows t (write_index (index_key k) refreshed stale).
Proof.
  unfold write_index. apply follows_bind.
  - destruct refreshed; [done|]. apply follows_send, foreign_ne, foreign_index.
  - intros t' _ _. destruct stale; [done|]. apply follows_unit_send, foreign_ne, foreign_index.
Qed.

Lemma index_cmds_ok t now k e : now <= t -> Forall (call_ok t) (index_cmds c (spec_of k) now e).
Proof. intros Ht. unfold index_cmds. rewrite spec_slot. constructor; [by apply trim_ok|]. by repeat constructor. Qed.

Lemma follows_read_chunks k now cs : forall t loads, now <= t -> follows t (read_chunks c (spec_of k) now cs loads).
Proof.
  induction cs as [|chunk cs IH]; intros t loads Ht; [done|]. cbn [read_chunks]. apply follows_bind.
  - apply follows_pipeline, Forall_flat_map. intros e. by apply index_cmds_ok.
  - intros t' rs Ht'. destruct (exec_failed rs); [done|]. apply IH. lia.
Qed.

Lemma follows_reconcile t k : follows t (reconcileExpiredIndexCandidates c (spec_of k)).
Proof.
  unfold reconcileExpiredIndexCandidates, try at 1. apply follows_time; [|done]. intros now Hnow.
  apply follows_try; [done|]. intros t1 members Ht1. apply follows_try.
  - unfold readIndexLoads. apply follows_try; [apply follows_read_chunks; lia | done].
  - intros t2 [loads stale] Ht2. apply follows_bind; [rewrite spec_index; apply follows_write_index | done].
Qed.

Lemma follows_cleanup_members k prefix now members : forall t refreshed stale,
  follows t (cleanup_members c (spec_of k) prefix now members refreshed stale).
Proof.
  induction members as [|m members IH]; intros t refreshed stale; [done|]. cbn [cleanup_members].
  destruct (member_id m) as [id|]; [|apply IH]. apply follows_try.
  - apply follows_send. rewrite spec_slot. split; [lia|]. split; [apply regular_zset|]. split; [apply regular_ne_live | done].
  - intros t1 r _. apply follows_try.
    + apply follows_send. constructor; [|constructor]. intros E. pose proof (spec_wait k id) as Hw. rewrite E, regular_zset in Hw. done.
    + intros t2 [] _. destruct (0 <? r.2); apply IH.
Qed.

Lemma follows_sweep rounds p : forall t cursor, p = accountWaitKeyPrefix \/ p = waitQueueKeyPrefix -> follows t (sweep_pattern rounds p cursor).
Proof.
  induction rounds as [|rounds IH]; intros t cursor Hp; [done|]. cbn [sweep_pattern]. cbn. split; [done|].
  intros t' [[keys next]|e] Ht Hk; [|done]. cbn in Hk. apply follows_try; [|intros; case_match; [done | by apply IH]].
  destruct keys as [|key keys]; [done|]. apply follows_send. eapply Forall_impl; [exact Hk|]. intros x Hx E. subst x.
  pose proof (regular_zset kd i) as Hz. unfold zset_key, int_key in Hz.
  destruct Hp as [-> | ->]; rewrite Hx in Hz; by rewrite ?orb_true_r in Hz.
Qed.

Lemma follows_stale t rounds prefix : follows t (CleanupStaleProcessSlots c rounds prefix).
Proof.
  assert (Hidx : forall t k members now, follows t (cleanupStaleProcessSlotsForIndex c (spec_of k) members prefix now)).
  { intros t' k members now. unfold cleanupStaleProcessSlotsForIndex. apply follows_try; [apply follows_cleanup_members|].
    intros t1 r _. apply follows_bind; [rewrite spec_index; apply follows_write_index | done]. }
  unfold CleanupStaleProcessSlots. destruct (_ =s _); [done|]. apply follows_try.
  - unfold sweepLegacyWaitKeysOnce. apply follows_try; [done|]. intros t1 e _. destruct (0 <? e); [done|].
    apply follows_try; [apply follows_sweep; auto|]. intros t2 [] _. apply follows_try; [apply follows_sweep; auto|].
    intros t3 [] _. apply follows_send. split; [done | apply wait_not_marker].
  - intros t1 [] _. apply follows_try; [done|]. intros t2 now _. apply follows_try; [done|]. intros t3 ms _.
    apply follows_try; [apply (Hidx _ AccountKind)|]. intros t4 [] _. apply follows_try; [done|]. intros t5 ms' _. apply (Hidx _ UserKind).
Qed.

(** *** Every method *)

Definition forget {A} (p : prog A) : prog unit := let* _ := p in Ret tt.

(** The programs that processes run: any method with any arguments, the
    limits of the watched account or user being at most [M], and of its waiting
    requests at most [W]. *)
Inductive method : prog unit -> Prop :=
| m_AcquireAccountSlot n max req : limited AccountKind n max -> method (forget (AcquireAccountSlot c n max req))
| m_ReleaseAccountSlot n req : method (forget (ReleaseAccountSlot c n req))
| m_GetAccountConcurrency n : method (forget (GetAccountConcurrency c n))
| m_GetAccountConcurrencyBatch ids : method (forget (GetAccountConcurrencyBatch c ids))
| m_AcquireUserSlot n max req : limited UserKind n max -> method (forget (AcquireUserSlot c n max req))
| m_ReleaseUserSlot n req : method (forget (ReleaseUserSlot c n req))
| m_GetUserConcurrency n : method (forget (GetUserConcurrency c n))
| m_TrackAPIKeySlot n req : method (forget (TrackAPIKeySlot c n req))
| m_ReleaseAPIKeySlot n req : method (forget (ReleaseAPIKeySlot n req))
| m_AcquireIngress n max lease : method (forget (AcquireOpenAIWSIngressLease n max lease))
| m_RefreshIngress n lease : method (forget (RefreshOpenAIWSIngressLease n lease))
| m_ReleaseIngress n lease : method (forget (ReleaseOpenAIWSIngressLease n lease))
| m_AcquireLive a am u um k lease replacing :
    live_limited AccountKind a am replacing -> live_limited UserKind u um replacing ->
    method (forget (AcquireLiveLease a am u um k lease replacing))
| m_RefreshLive a u k lease : method (forget (RefreshLiveLease a u k lease))
| m_ReleaseLive a u k lease : method (forget (ReleaseLiveLease a u k lease))
| m_GetAPIKeyConcurrencyBatch ids : method (forget (GetAPIKeyConcurrencyBatch c ids))
| m_IncrementWait n max : wait_limited UserKind n max -> method (forget (IncrementWaitCount c n max))
| m_DecrementWait n : method (forget (DecrementWaitCount c n))
| m_IncrementAccountWait n max : wait_limited AccountKind n max -> method (forget (IncrementAccountWaitCount c n max))
| m_DecrementAccountWait n : method (forget (DecrementAccountWaitCount c n))
| m_GetAccountWaitingCount n : method (forget (GetAccountWaitingCount n))
| m_GetAccountsLoadBatch l : method (forget (GetAccountsLoadBatch c l))
| m_GetUsersLoadBatch l : method (forget (GetUsersLoadBatch c l))
| m_CleanupExpiredAccountSlots n : method (forget (CleanupExpiredAccountSlots c n))
| m_CleanupExpiredAccountSlotKeys : method (forget (CleanupExpiredAccountSlotKeys c))
| m_CleanupStaleProcessSlots rounds prefix : method (forget (CleanupStaleProcessSlots c rounds prefix)).

Lemma follows_forget {A} (p : prog A) t : follows t p -> follows t (forget p).
Proof. intros Hp. by apply follows_bind. Qed.

Lemma foreign_call_ok t n ttl (d : forall k : string, call Z) :
  0 < ttl -> (forall k t, 0 < ttl -> zset_key k = true -> k <> kr -> k <> kl -> call_ok t (d k)) -> foreign n -> call_ok t (d n).
Proof. intros Ht Hd Hf. destruct (foreign_ne n Hf) as (? & ? & ?). by apply Hd. Qed.

Lemma follows_method p : method p -> forall t, 0 <= t -> follows t p.
Proof.
  pose proof (fun k n => spec_wait k n) as Hsw.
  destruct 1; intros t Ht; apply follows_forget.
  - by apply (follows_slot_call t AccountKind n max req (slotTTLSeconds c) (fun r => Ret (Ok r))).
  - apply (follows_release t AccountKind).
  - apply (follows_count t AccountKind).
  - apply follows_concurrency_batch. intros. by apply (count_cmds_ok _ _ AccountKind).
  - by apply (follows_slot_call t UserKind n max req (slotTTLSeconds c) (fun r => Ret (Ok r))).
  - apply (follows_release t UserKind).
  - apply (follows_count t UserKind).
  - apply (follows_send_ok (RunTrack _ _ _) (fun _ => tt)). split; [lia|]. apply foreign_ne, apikey_foreign.
  - apply follows_send. apply (apikey_foreign n).
  - unfold AcquireOpenAIWSIngressLease. destruct (_ || _ || _); [done|]. apply (follows_send_ok _ (fun r => r =? 1)).
    split; [done|]. apply foreign_ne, ingress_foreign.
  - unfold RefreshOpenAIWSIngressLease. destruct (_ || _); [done|]. apply (follows_send_ok _ (fun r => r =? 1)).
    split; [done|]. apply foreign_ne, ingress_foreign.
  - unfold ReleaseOpenAIWSIngressLease. destruct (_ || _); [done|]. apply follows_send. apply (ingress_foreign n).
  - by apply follows_acquire_live.
  - unfold RefreshLiveLease. destruct (_ =s _); [done|]. apply (follows_send_ok _ (fun r => r =? 1)). split; [done|]. apply live_keys_ok.
  - unfold ReleaseLiveLease. destruct (_ =s _); [done|]. apply follows_send.
    pose proof (live_keys_ok a u k) as Hf. inversion Hf as [|? ? H1 Hf1]; subst. inversion Hf1 as [|? ? H2 Hf2]; subst.
    inversion Hf2 as [|? ? H3 _]; subst.
    constructor; [exact H1|]. constructor; [exact H2|]. constructor; [exact H3 | constructor].
  - apply follows_concurrency_batch. intros. apply apikey_cmds_ok.
  - apply (follows_wait t (fun n => RunIncrementWait (waitQueueKey n) max (waitQueueTTLSeconds c)) UserKind n (waitQueueTTLSeconds c)).
    intros t'. split; [done|]. split; [apply (Hsw UserKind)|]. intros E. apply (wait_inj UserKind n) in E as [? ?]. auto.
  - apply (follows_decrement t _ UserKind), (Hsw UserKind).
  - apply (follows_wait t (fun n => RunIncrementAccountWait (accountWaitKey n) max (waitQueueTTLSeconds c)) AccountKind n (waitQueueTTLSeconds c)).
    intros t'. split; [done|]. split; [apply (Hsw AccountKind)|]. intros E. apply (wait_inj AccountKind n) in E as [? ?]. auto.
  - apply (follows_decrement t _ AccountKind), (Hsw AccountKind).
  - unfold GetAccountWaitingCount. apply follows_bind; [done|]. intros t' [v|[|msg]] _; done.
  - apply (follows_load_batch t AccountKind).
  - apply (follows_load_batch t UserKind).
  - apply follows_try.
    + apply follows_send. split; [lia|]. split; [apply (regular_zset AccountKind)|]. split; [apply (regular_ne_live AccountKind)|done].
    + intros t' r _. apply follows_bind; [apply (follows_refresh t' AccountKind) | done].
  - apply follows_try; [apply (follows_reconcile t AccountKind)|]. intros t' [] _. apply (follows_reconcile t' UserKind).
  - apply follows_stale.
Qed.
End methods.

(** ** The limit *)

(** C12: However many processes share the Redis server, in whatever order their
    requests arrive, however many of them get lost or are answered too late,
    and whatever time passes, when all callers name limits of at most [M] for
    an account (or user): its slots, regular and live together, never number
    more than [M], or [M + 1] when live leases may replace regular slots
    ([b]).  A request that was told it holds a slot still holds it as long as
    it is younger than the slot TTL and was neither released nor swept by the
    startup cleanup of another process, and such requests, with the live
    leases, number at most [M] (or [M + 1]).  The wait counter stays between 0
    and the largest queue length the callers allow.

    [held] records the requests that were admitted and neither released nor
    swept.  The theorem says nothing of requests that go on after a startup
    cleanup took their slots: they run without a slot, beyond the limit (see
    [startup_sweeps_running_request] below). *)
Theorem slot_limit_holds {St} `{RedisLaws St zset_key} kd i M W b c s0 y
  (Hslot : 0 < slotTTLSeconds c) (Hwait : 0 < waitQueueTTLSeconds c) (HM : 0 <= M) (HW : 0 <= W)
  (Hreg : zset s0 (regular_key kd i) = ∅) (Hlive : zset s0 (live_key kd i) = ∅) (Hnone : GET s0 (wait_key kd i) = None)
  (Hrun : rtc (step (regular_key kd i) (method kd i M W b c)) (System s0 ∅ ∅) y) :
  let active := filter (fun e => young (slotTTLSeconds c) (server y) e.2 = true) (held y) in
  map_len (zset (server y) (regular_key kd i)) + map_len (zset (server y) (live_key kd i)) <= M + Z.b2z b /\
  (forall req t, active !! req = Some t -> is_Some (zset (server y) (regular_key kd i) !! req)) /\
  map_len active + map_len (zset (server y) (live_key kd i)) <= M + Z.b2z b /\
  0 <= default 0 (GET (server y) (wait_key kd i)) <= W.
Proof.
  set (kr := regular_key kd i) in *. set (kl := live_key kd i) in *. set (kw := wait_key kd i) in *.
  assert (Hinit : system_ok kr kl kw (slotTTLSeconds c) M W b (System s0 ∅ ∅)).
  { split; [|split; [unfold wait_ok; cbn [server]; rewrite Hnone; cbn; lia | done]].
    cbn [server held]. split; rewrite ?Hreg, ?Hlive; try done.
    change (map_len (∅ : gmap string Z)) with 0. destruct b; cbn; lia. }
  destruct (steps_ok kr kl kw (slotTTLSeconds c) M W b (regular_zset kd i) (live_zset kd i)
    (regular_ne_live kd i kd i) Hslot (wait_zset_key kd i) (method kd i M W b c) HW
    (follows_method kd i (slotTTLSeconds c) M W b c Hslot eq_refl Hwait) _ _ Hrun Hinit) as ([Hc Hp Hd Hh] & Hww & _).
  intros active.
  assert (Hact : forall req t, active !! req = Some t -> is_Some (zset (server y) kr !! req)).
  { intros req t Ht. apply map_lookup_filter_Some in Ht as [Ht Hy]. destruct (Hh req t Ht Hy) as (sc & Hsc & _). eauto. }
  split; [done|]. split; [done|]. split; [|done].
  assert (map_len active <= map_len (zset (server y) kr)); [|lia].
  unfold map_len. apply inj_le. rewrite <- !size_dom. apply subseteq_size. intros req Hin.
  apply elem_of_dom in Hin as [t Ht]. apply elem_of_dom. by eapply Hact.
Qed.

(** ** Runs computed *)

Section play.
Context {St : Type} `{Redis St}.
Variable kr : string.

Inductive event :=
| Start (n : nat) (p : prog unit)
| Reply (n : nat)
| ReplyLost (n : nat)
| RequestLost (n : nat)
| Wait (ms : Z).

Definition deliver (n : nat) (lost : bool) (y : system) : option system :=
  match procs y !! n with
  | Some (Do c k) =>
      let '(r, s) := execute c (server y) in
      Some (System s (note kr c r (held y)) (<[n := k (if lost then Err (Failed "lost") else r)]> (procs y)))
  | _ => None
  end.

Definition play_event (e : event) (y : system (St := St)) : option system :=
  match e with
  | Start n p => match procs y !! n with None => Some (System (server y) (held y) (<[n := p]> (procs y))) | Some _ => None end
  | Reply n => deliver n false y
  | ReplyLost n => deliver n true y
  | RequestLost n =>
      match procs y !! n with
      | Some (Do c k) => Some (System (server y) (held y) (<[n := k (Err (Failed "lost"))]> (procs y)))
      | _ => None
      end
  | Wait ms => if 0 <=? ms then Some (System (elapse ms (server y)) (held y) (procs y)) else None
  end.

Fixpoint play (es : list event) (y : system) : option system :=
  match es with
  | [] => Some y
  | e :: es => match play_event e y with Some y => play es y | None => None end
  end.

Definition starts_ok (started : prog unit -> Prop) (es : list event) : Prop :=
  Forall (fun e => match e with Start _ p => started p | _ => True end) es.

Lemma play_event_sound started e y y' :
  match e with Start _ p => started p | _ => True end -> play_event e y = Some y' -> step kr started y y'.
Proof.
  destruct y as [s h ps]. intros Hs Hp. destruct e as [n p|n|n|n|ms]; cbn [play_event procs server held] in Hp.
  - destruct (ps !! n) eqn:E; simplify_eq. by apply step_start.
  - unfold deliver in Hp; cbn [procs server held] in Hp. destruct (ps !! n) as [[|R c k]|] eqn:E; try done.
    destruct (execute c s) as [r s'] eqn:Ex. simplify_eq. exact (step_reply kr started n R c k s h ps r s' E Ex).
  - unfold deliver in Hp; cbn [procs server held] in Hp. destruct (ps !! n) as [[|R c k]|] eqn:E; try done.
    destruct (execute c s) as [r s'] eqn:Ex. simplify_eq. exact (step_reply_lost kr started n R c k s h ps r s' _ E Ex).
  - destruct (ps !! n) as [[|R c k]|] eqn:E; try done. simplify_eq. exact (step_request_lost kr started n R c k s h ps _ E).
  - destruct (Z.leb_spec 0 ms); simplify_eq. by apply step_elapse.
Qed.

Lemma play_sound started es : forall y y', starts_ok started es -> play es y = Some y' -> rtc (step kr started) y y'.
Proof.
  induction es as [|e es IH]; intros y y' Hs Hp; cbn in Hp; [simplify_eq; apply rtc_refl|].
  inversion Hs; subst. destruct (play_event e y) as [y1|] eqn:E; [|done].
  eapply rtc_l; [by eapply play_event_sound | by apply IH].
Qed.
End play.

Import Reference.

(** A cache with the default TTLs and an account with one slot. *)
Definition cache1 : concurrencyCache := NewConcurrencyCache 0 0.

(** Two requests for the one slot of account 7, one of which then queues; a
    reply that is lost; and a third request after the slots have expired. *)
Definition example_run : list event :=
  [Start 0 (forget (AcquireAccountSlot cache1 7 1 "ra-1")); Start 1 (forget (AcquireAccountSlot cache1 7 1 "ra-2"));
   Reply 0; Reply 1; Reply 0; Start 4 (forget (IncrementAccountWaitCount cache1 7 21)); Reply 4; Reply 4;
   Wait 899999; Start 2 (forget (AcquireAccountSlot cache1 7 1 "ra-3")); Reply 2;
   Wait 1; Start 3 (forget (AcquireAccountSlot cache1 7 1 "ra-4")); ReplyLost 3].

Lemma slot_limit_holds_witness :
  exists y, play (accountSlotKey 7) example_run (System empty_store ∅ ∅) = Some y /\
    map_to_list (held y) = [("ra-1", 0); ("ra-4", 900)] /\
    map_len (zset (server y) (accountSlotKey 7)) = 1 /\
    map_len (zset (server y) (accountSlotKey 7)) + map_len (zset (server y) (liveAccountSlotKey 7)) <= 1.
Proof.
  destruct (play (accountSlotKey 7) example_run (System empty_store ∅ ∅)) as [y|] eqn:E; [|by vm_compute in E].
  exists y. split; [done|].
  assert (Hy : map_to_list (held y) = [("ra-1", 0); ("ra-4", 900)] /\ map_len (zset (server y) (accountSlotKey 7)) = 1).
  { vm_compute in E. injection E as <-. by split; vm_compute. }
  destruct Hy as [H1 H2]. split; [done|]. split; [done|].
  assert (Hs : starts_ok (method AccountKind 7 1 21 false cache1) example_run).
  { repeat constructor; intros _ _; lia. }
  pose proof (play_sound (accountSlotKey 7) (method AccountKind 7 1 21 false cache1) _ _ _ Hs E) as Hrun.
  destruct (slot_limit_holds AccountKind 7 1 21 false cache1 empty_store y) as [Hc _];
    [vm_compute; reflexivity | vm_compute; reflexivity | lia | lia | reflexivity | reflexivity | reflexivity | exact Hrun | exact Hc].
Defined.

(** ** The startup cleanup and other processes *)

(** Process [ra] serves a request on account 7; process [rb] starts, sweeps
    the slots and takes the slot for a request of its own. *)
Definition overlap_run : list event :=
  [Start 0 (forget (AcquireAccountSlot cache1 7 1 "ra-1")); Reply 0; Reply 0;
   Start 1 (forget (CleanupStaleProcessSlots cache1 1 "rb"))] ++ repeat (Reply 1) 10 ++
  [Start 2 (forget (AcquireAccountSlot cache1 7 1 "rb-1")); Reply 2; Reply 2].

(** The startup cleanup of one process frees the slots of the requests that
    other live processes are still running: account 7 has a limit of one, the
    request of [ra] was admitted and never released, and [rb] is given the
    slot within the same second. *)
Lemma startup_sweeps_running_request :
  exists y1 y2, play (accountSlotKey 7) (take 3 overlap_run) (System empty_store ∅ ∅) = Some y1 /\
    map_to_list (held y1) = [("ra-1", 0)] /\
    play (accountSlotKey 7) (drop 3 overlap_run) y1 = Some y2 /\
    map_to_list (held y2) = [("rb-1", 0)] /\ clock (server y2) = 0.
Proof.
  destruct (play (accountSlotKey 7) (take 3 overlap_run) (System empty_store ∅ ∅)) as [y1|] eqn:E1; [|by vm_compute in E1].
  destruct (play (accountSlotKey 7) (drop 3 overlap_run) y1) as [y2|] eqn:E2;
    [|vm_compute in E1; injection E1 as <-; by vm_compute in E2].
  exists y1, y2. vm_compute in E1. injection E1 as <-. vm_compute in E2. injection E2 as <-. repeat split.
Qed.

End ConcurrencySlots.
