(* ===== verification/ConcurrencyService.v ===== *)
(** * ConcurrencyService: the service over the concurrency cache

    Models [src/backend/internal/service/concurrency_service.go]: request
    identifiers, the acquisition of slots with the release function that goes
    back to the caller, the fail-open wait counters, the refresh of a
    WebSocket ingress lease, and the short-lived cache of account loads.

    Every call of the Redis cache is a program of [ConcurrencyCache].  The
    [singleflight] group is third-party code; the function it runs once per
    key is modelled. *)

From S2P Require Import Prelude GoStrings Redis ConcurrencyCache.

Module ConcurrencyService.
Import ConcurrencyCache.

(** ** Request identifiers *)

Definition digit36 (d : Z) : ascii := if d <? 10 then chr (48 + d) else chr (87 + d).

(** [strconv.FormatUint(n, 36)]; 13 digits are enough below [2^64]. *)
Fixpoint format36 (fuel : nat) (n : Z) (acc : list ascii) : list ascii :=
  match fuel with
  | O => acc
  | S fuel => if n <? 36 then digit36 n :: acc else format36 fuel (n / 36) (digit36 (n mod 36) :: acc)
  end.
Definition FormatUint36 (n : Z) : string := of_bytes (format36 13 n []).

(** The prefix of a process: eight random bytes, or the clock and the process
    id when the system has none to give. *)
Definition initRequestIDPrefix (random : option Z) (now : Time) (pid : Z) : string :=
  match random with
  | Some n => "r" +:+ FormatUint36 (uint64 n)
  | None => "r" +:+ FormatUint36 (Z.lxor (uint64 (UnixNano now)) (uint64 (Z.shiftl (uint64 pid) 16)))
  end.

(** The next identifier and the process counter. *)
Definition generateRequestID (prefix : string) (requestIDCounter : Z) : string * Z :=
  let seq := uint64 (requestIDCounter + 1) in
  (prefix +:+ "-" +:+ FormatUint36 seq, seq).

(** ** Slots *)

(** [ReleaseFunc] is the program that the caller must run in the end. *)
Record AcquireResult := MkAcquireResult { Acquired : bool; ReleaseFunc : option (prog unit) }.

Definition ignore_error {A} (p : prog (outcome A rerror)) : prog unit := let* _ := p in Ret tt.

Section service.
Variable c : concurrencyCache.

(** [requestID] is what [generateRequestID] answers. *)
Definition AcquireAccountSlot (accountID maxConcurrency : Z) (requestID : string) : prog (outcome AcquireResult rerror) :=
  if maxConcurrency <=? 0 then Ret (Ok (MkAcquireResult true (Some (Ret tt))))
  else
    try* acquired := ConcurrencyCache.AcquireAccountSlot c accountID maxConcurrency requestID in
    if acquired then
      Ret (Ok (MkAcquireResult true (Some (ignore_error (ConcurrencyCache.ReleaseAccountSlot c accountID requestID)))))
    else Ret (Ok (MkAcquireResult false None)).

Definition AcquireUserSlot (userID maxConcurrency : Z) (requestID : string) : prog (outcome AcquireResult rerror) :=
  if maxConcurrency <=? 0 then Ret (Ok (MkAcquireResult true (Some (Ret tt))))
  else
    try* acquired := ConcurrencyCache.AcquireUserSlot c userID maxConcurrency requestID in
    if acquired then
      Ret (Ok (MkAcquireResult true (Some (ignore_error (ConcurrencyCache.ReleaseUserSlot c userID requestID)))))
    else Ret (Ok (MkAcquireResult false None)).

(** Fail-open: an error only means that the slot is not shown. *)
Definition TrackAPIKeySlot (apiKeyID : Z) (requestID : string) : prog (prog unit) :=
  if apiKeyID <=? 0 then Ret (Ret tt)
  else
    let* r := ConcurrencyCache.TrackAPIKeySlot c apiKeyID requestID in
    match r with
    | Err _ => Ret (Ret tt)
    | Ok _ => Ret (ignore_error (ConcurrencyCache.ReleaseAPIKeySlot apiKeyID requestID))
    end.

(** ** Wait counters *)

Definition fail_open (p : prog (outcome bool rerror)) : prog (outcome bool rerror) :=
  let* r := p in match r with Err _ => Ret (Ok true) | Ok v => Ret (Ok v) end.

Definition IncrementWaitCount (userID maxWait : Z) : prog (outcome bool rerror) :=
  fail_open (ConcurrencyCache.IncrementWaitCount c userID maxWait).
Definition DecrementWaitCount (userID : Z) : prog unit := ignore_error (ConcurrencyCache.DecrementWaitCount c userID).
Definition IncrementAccountWaitCount (accountID maxWait : Z) : prog (outcome bool rerror) :=
  fail_open (ConcurrencyCache.IncrementAccountWaitCount c accountID maxWait).
Definition DecrementAccountWaitCount (accountID : Z) : prog unit :=
  ignore_error (ConcurrencyCache.DecrementAccountWaitCount c accountID).

Definition defaultExtraWaitSlots : Z := 20.
Definition CalculateMaxWait (userConcurrency : Z) : Z :=
  let userConcurrency := if userConcurrency <=? 0 then 1 else userConcurrency in
  wrap64 (userConcurrency + defaultExtraWaitSlots).
End service.

(** ** Ingress leases *)

Definition openAIWSIngressLeaseTTL : Duration := 60 * Second.
Definition openAIWSIngressLeaseRefreshInterval : Duration := 20 * Second.
Definition openAIWSIngressLeaseOperationTO : Duration := 2 * Second.

(** One refresh: the reply of the cache and the clock after it give the time
    of the last confirmation and whether the lease is lost. *)
Definition refresh (reply : outcome bool rerror) (now : Time) (lastConfirmedAt : Time) : Time * bool :=
  match reply with
  | Ok true => (now, false)
  | Ok false => (lastConfirmedAt, true)
  | Err _ => (lastConfirmedAt, openAIWSIngressLeaseTTL <=? time_Sub now lastConfirmedAt)
  end.

(** The loop of a lease: the refreshes that its ticker starts, until it is
    stopped or lost. *)
Fixpoint refreshLoop (ticks : list (outcome bool rerror * Time)) (lastConfirmedAt : Time) : Time * bool :=
  match ticks with
  | [] => (lastConfirmedAt, false)
  | (reply, now) :: ticks =>
      let '(lastConfirmedAt, lost) := refresh reply now lastConfirmedAt in
      if lost then (lastConfirmedAt, true) else refreshLoop ticks lastConfirmedAt
  end.

(** ** The cache of account loads *)

Definition maxAccountLoadBatchCacheEntries : Z := 256.
Definition defaultAccountLoadBatchCacheTTL : Duration := 200 * Millisecond.

Record cachedAccountLoadBatch := Batch { loadMap : gmap Z LoadInfo; expiresAt : Time }.

Record ConcurrencyService := Service {
  accountLoadCacheTTL : Duration;
  accountLoadCache : gmap string cachedAccountLoadBatch
}.
#[export] Instance service_struct : Struct ConcurrencyService := fun s => Service (accountLoadCacheTTL s) (accountLoadCache s).

Definition SetAccountLoadBatchCacheTTL (ttl : Duration) (s : ConcurrencyService) : ConcurrencyService :=
  let s := s <| accountLoadCacheTTL := ttl |> in
  if ttl <=? 0 then s <| accountLoadCache := ∅ |> else s.

Definition NewConcurrencyService : ConcurrencyService := SetAccountLoadBatchCacheTTL defaultAccountLoadBatchCacheTTL (Service 0 ∅).

Definition getCachedAccountLoadBatch (key : string) (now : Time) (s : ConcurrencyService)
    : option (gmap Z LoadInfo) * ConcurrencyService :=
  match accountLoadCache s !! key with
  | None => (None, s)
  | Some cached =>
      if negb (Before now (expiresAt cached)) then (None, s <| accountLoadCache := delete key (accountLoadCache s) |>)
      else (Some (loadMap cached), s)
  end.

(** [for len >= max { for k := range m { delete(m, k); break } }]; [first] is
    the key that a range over the map meets first. *)
Fixpoint evict (fuel : nat) (first : gmap string cachedAccountLoadBatch -> option string)
    (m : gmap string cachedAccountLoadBatch) : gmap string cachedAccountLoadBatch :=
  match fuel with
  | O => m
  | S fuel =>
      if map_len m <? maxAccountLoadBatchCacheEntries then m
      else match first m with Some k => evict fuel first (delete k m) | None => m end
  end.

Definition storeCachedAccountLoadBatch (first : gmap string cachedAccountLoadBatch -> option string) (key : string)
    (loads : gmap Z LoadInfo) (expires now : Time) (s : ConcurrencyService) : ConcurrencyService :=
  let m := accountLoadCache s in
  let m :=
    if maxAccountLoadBatchCacheEntries <=? map_len m then
      let m := filter (fun e => Before now (expiresAt e.2) = true) m in
      evict (Datatypes.S (size m)) first m
    else m in
  s <| accountLoadCache := <[key := Batch loads expires]> m |>.

(** The function that [singleflight] runs for a key: [now] is read first,
    [fetched] is what the cache answers, [later] the clock when it is stored. *)
Definition load_once (first : gmap string cachedAccountLoadBatch -> option string) (key : string) (ttl : Duration)
    (fetched : outcome (gmap Z LoadInfo) rerror) (now later : Time) (s : ConcurrencyService)
    : outcome (gmap Z LoadInfo) rerror * ConcurrencyService :=
  match getCachedAccountLoadBatch key now s with
  | (Some cached, s) => (Ok cached, s)
  | (None, s) =>
      match fetched with
      | Err e => (Err e, s)
      | Ok loads => (Ok loads, storeCachedAccountLoadBatch first key loads (time_Add now ttl) later s)
      end
  end.

(** ** Identifiers are unique *)

Definition value36 (c : ascii) : Z := if byte_of c <? 58 then byte_of c - 48 else byte_of c - 87.
Definition parse36 (v : Z) (l : list ascii) : Z := fold_left (fun v c => v * 36 + value36 c) l v.

Lemma digit36_spec d : 0 <= d < 36 -> value36 (digit36 d) = d /\ digit36 d <> "-"%char.
Proof.
  intros Hd. assert (Hall : forallb (fun n => (value36 (digit36 (Z.of_nat n)) =? Z.of_nat n) && negb (Ascii.eqb (digit36 (Z.of_nat n)) "-")) (seq 0 36) = true)
    by (vm_compute; reflexivity).
  rewrite forallb_forall in Hall. specialize (Hall (Z.to_nat d)). rewrite Z2Nat.id, andb_true_iff, Z.eqb_eq, negb_true_iff, Ascii.eqb_neq in Hall by lia.
  apply Hall, in_seq. lia.
Qed.

Lemma format36_parse fuel : forall n acc, 0 <= n < 36 ^ Z.of_nat fuel -> parse36 0 (format36 fuel n acc) = parse36 n acc.
Proof.
  induction fuel as [|fuel IH]; intros n acc Hn; cbn [format36]; [change (36 ^ Z.of_nat 0) with 1 in Hn; by replace n with 0 by lia|].
  rewrite Nat2Z.inj_succ, Z.pow_succ_r in Hn by lia. destruct (Z.ltb_spec n 36).
  - cbn. by rewrite (proj1 (digit36_spec n ltac:(lia))).
  - pose proof (Z.mod_pos_bound n 36 ltac:(lia)). rewrite IH.
    + change (parse36 (n / 36 * 36 + value36 (digit36 (n mod 36))) acc = parse36 n acc).
      rewrite (proj1 (digit36_spec (n mod 36) ltac:(lia))). f_equal. pose proof (Z.div_mod n 36 ltac:(lia)). lia.
    + split; [apply Z.div_pos; lia | apply Z.div_lt_upper_bound; lia].
Qed.

Lemma format36_no_dash fuel : forall n acc, 0 <= n -> Forall (fun c => c <> "-"%char) acc -> Forall (fun c => c <> "-"%char) (format36 fuel n acc).
Proof.
  induction fuel as [|fuel IH]; intros n acc Hn Ha; cbn; [done|]. destruct (Z.ltb_spec n 36).
  - constructor; [|done]. by apply digit36_spec.
  - apply IH; [apply Z.div_pos; lia|]. constructor; [|done]. apply digit36_spec, Z.mod_pos_bound. lia.
Qed.

Lemma uint64_range z : 0 <= uint64 z < 2 ^ 64.
Proof. unfold uint64. apply Z.mod_pos_bound. lia. Qed.

Lemma FormatUint36_inj m n : 0 <= m < 2 ^ 64 -> 0 <= n < 2 ^ 64 -> FormatUint36 m = FormatUint36 n -> m = n.
Proof.
  intros Hm Hn E. unfold FormatUint36 in E. apply (f_equal to_bytes) in E. rewrite !to_of_bytes in E.
  apply (f_equal (parse36 0)) in E. rewrite !format36_parse in E; [exact E|..]; change (36 ^ Z.of_nat 13) with 170581728179578208256; lia.
Qed.

(** Text without a dash before a dash is determined by the whole. *)
Lemma split_at_dash (p1 p2 s1 s2 : list ascii) :
  Forall (fun c => c <> "-"%char) p1 -> Forall (fun c => c <> "-"%char) p2 ->
  p1 ++ "-"%char :: s1 = p2 ++ "-"%char :: s2 -> p1 = p2 /\ s1 = s2.
Proof.
  revert p2. induction p1 as [|a p1 IH]; intros p2 H1 H2; destruct p2 as [|a2 p2]; cbn; intros E.
  - by simplify_eq.
  - inversion H2; simplify_eq.
  - inversion H1; simplify_eq.
  - inversion H1; inversion H2; simplify_eq. by destruct (IH p2) as [-> ->].
Qed.

Lemma prefix_no_dash random now pid : Forall (fun c => c <> "-"%char) (to_bytes (initRequestIDPrefix random now pid)).
Proof.
  assert (Hf : forall n, 0 <= n -> Forall (fun c => c <> "-"%char) (to_bytes ("r" +:+ FormatUint36 n))).
  { intros n Hn. rewrite to_bytes_app. apply Forall_app. split; [by repeat constructor|].
    unfold FormatUint36. rewrite to_of_bytes. by apply format36_no_dash. }
  destruct random as [n|]; apply Hf; [apply uint64_range|]. apply Z.lxor_nonneg.
  split; intros; apply uint64_range.
Qed.

(** Request identifiers never collide: those of one process differ until
    its counter has made 2^64 of them, and those of two processes differ
    whenever their prefixes do, since a prefix contains no dash.  So no
    release ever frees the slot of another request. *)
Theorem request_ids_unique r1 now1 pid1 c1 r2 now2 pid2 c2 :
  let p1 := initRequestIDPrefix r1 now1 pid1 in
  let p2 := initRequestIDPrefix r2 now2 pid2 in
  fst (generateRequestID p1 c1) = fst (generateRequestID p2 c2) <-> p1 = p2 /\ uint64 (c1 + 1) = uint64 (c2 + 1).
Proof.
  intros p1 p2. cbn [generateRequestID fst]. split; [|by intros [-> ->]]. intros E.
  apply (f_equal to_bytes) in E. rewrite !to_bytes_app in E. change (to_bytes "-") with ["-"%char] in E. cbn [app] in E.
  apply split_at_dash in E as [E1 E2]; [|apply prefix_no_dash..]. split.
  - rewrite <- (of_to_bytes p1), <- (of_to_bytes p2). by f_equal.
  - apply FormatUint36_inj; [apply uint64_range..|].
    rewrite <- (of_to_bytes (FormatUint36 (uint64 (c1 + 1)))), <- (of_to_bytes (FormatUint36 (uint64 (c2 + 1)))). by f_equal.
Qed.

Example id_ex : fst (generateRequestID (initRequestIDPrefix (Some 1296) 0 1) 35) = "r100-10".
Proof. reflexivity. Qed.

(** ** Leases *)

(** A WebSocket session goes on only while its lease is confirmed: the
    first refresh that finds the lease gone ends it at once, and if Redis
    cannot be asked, no refresh leaves it running a full lease lifetime after
    the last confirmation. *)
Theorem lease_held_only_if_confirmed ticks t0 l :
  refreshLoop ticks t0 = (l, false) ->
  Forall (fun e => e.1 <> Ok false) ticks /\
  (forall reply now, last ticks = Some (reply, now) -> now - l < openAIWSIngressLeaseTTL).
Proof.
  revert t0. induction ticks as [|[reply now] ticks IH]; intros t0 Hl; [done|]. cbn [refreshLoop] in Hl.
  destruct (refresh reply now t0) as [t1 lost] eqn:E. destruct lost; [done|].
  destruct (IH t1 Hl) as [Hf Hlast]. split.
  - constructor; [|done]. intros Hr. cbn in Hr. subst. cbn in E. by simplify_eq.
  - intros r n Hrn. destruct ticks as [|e ticks]; [|by apply (Hlast r n)].
    cbn in Hrn, Hl. simplify_eq. unfold refresh in E. unfold openAIWSIngressLeaseTTL, time_Sub in *.
    destruct r as [[]|]; simplify_eq; time_lia.
Qed.

Lemma lease_held_only_if_confirmed_witness :
  let ticks := [(Ok true, 20 * Second); (Err (Failed "down"), 40 * Second); (Err Nil, 79 * Second)] in
  refreshLoop ticks 0 = (20 * Second, false) /\ Forall (fun e => e.1 <> Ok false) ticks /\
  refreshLoop (ticks ++ [(Err Nil, 80 * Second)]) 0 = (20 * Second, true).
Proof.
  intros ticks. split; [reflexivity|]. split; [|reflexivity].
  exact (proj1 (lease_held_only_if_confirmed ticks 0 (20 * Second) eq_refl)).
Defined.

(** ** The load cache *)

Section load_cache.
Variable ttl : Duration.
Variable first : gmap string cachedAccountLoadBatch -> option string.
(** A range over a map that is not empty meets one of its keys. *)
Hypothesis Hfirst : forall m, m <> ∅ -> exists k, first m = Some k /\ is_Some (m !! k).

(** One use of the cache for a key. *)
Record load := MkLoad { l_key : string; l_fetched : outcome (gmap Z LoadInfo) rerror; l_now : Time; l_later : Time }.

Definition load_step (o : load) (s : ConcurrencyService) : ConcurrencyService :=
  snd (load_once first (l_key o) ttl (l_fetched o) (l_now o) (l_later o) s).

Lemma evict_below fuel : forall m, map_len m < maxAccountLoadBatchCacheEntries + Z.of_nat fuel ->
  map_len (evict fuel first m) < maxAccountLoadBatchCacheEntries /\ evict fuel first m ⊆ m.
Proof.
  induction fuel as [|fuel IH]; intros m Hm; cbn [evict]; [split; [lia|done]|].
  destruct (Z.ltb_spec (map_len m) maxAccountLoadBatchCacheEntries) as [|Hge]; [done|].
  destruct (Hfirst m) as (k & -> & Hk).
  { intros ->. unfold maxAccountLoadBatchCacheEntries in Hge. change (map_len (∅ : gmap string cachedAccountLoadBatch)) with 0 in Hge. lia. }
  destruct (IH (delete k m)) as [H1 H2]; [rewrite map_len_delete by done; lia|].
  split; [done|]. etrans; [done|apply delete_subseteq].
Qed.

(** Every entry is an answer of the cache that was asked for at most [ttl]
    before the entry expires. *)
Definition cache_ok (past : list load) (s : ConcurrencyService) : Prop :=
  map_len (accountLoadCache s) <= maxAccountLoadBatchCacheEntries /\
  forall k b, accountLoadCache s !! k = Some b ->
    exists o, o ∈ past /\ l_key o = k /\ l_fetched o = Ok (loadMap b) /\ expiresAt b = l_now o + ttl.

Lemma cache_ok_step past o s : cache_ok past s -> cache_ok (o :: past) (load_step o s).
Proof.
  intros [Hl He]. unfold load_step, load_once, getCachedAccountLoadBatch.
  assert (Hmore : forall m, map_len m <= maxAccountLoadBatchCacheEntries -> m ⊆ accountLoadCache s ->
    cache_ok (o :: past) (s <| accountLoadCache := m |>)).
  { intros m Hm Hsub. split; [done|]. intros k b Hk. destruct (He k b) as (o' & Hin & Ho); [by eapply lookup_weaken|].
    exists o'. split; [by right | done]. }
  assert (Hstore : forall s' loads, cache_ok (o :: past) s' -> l_fetched o = Ok loads ->
    cache_ok (o :: past) (storeCachedAccountLoadBatch first (l_key o) loads (time_Add (l_now o) ttl) (l_later o) s')).
  { clear He Hmore Hl. intros s' loads [Hl He] Ho. unfold storeCachedAccountLoadBatch. cbv zeta.
    assert (Hm : exists m, (if maxAccountLoadBatchCacheEntries <=? map_len (accountLoadCache s') then
        evict (Datatypes.S (size (filter (fun e => Before (l_later o) (expiresAt e.2) = true) (accountLoadCache s')))) first
          (filter (fun e => Before (l_later o) (expiresAt e.2) = true) (accountLoadCache s')) else accountLoadCache s') = m /\
      map_len m < maxAccountLoadBatchCacheEntries /\ m ⊆ accountLoadCache s').
    { eexists. split; [reflexivity|]. destruct (Z.leb_spec maxAccountLoadBatchCacheEntries (map_len (accountLoadCache s'))); [|done].
      edestruct evict_below as [H1 H2]; [|split; [exact H1|etrans; [exact H2|apply map_filter_subseteq]]].
      unfold map_len, maxAccountLoadBatchCacheEntries. lia. }
    destruct Hm as (m & -> & Hlt & Hsub). split; cbn [accountLoadCache].
    - pose proof (map_len_insert_le (l_key o) (Batch loads (time_Add (l_now o) ttl)) m). cbn. lia.
    - intros k b Hk. cbn in Hk. apply lookup_insert_Some in Hk as [[<- <-]|[_ Hk]].
      + exists o. split; [by left|]. by rewrite Ho.
      + apply He. by eapply lookup_weaken. }
  destruct (accountLoadCache s !! l_key o) as [cached|] eqn:E.
  - destruct (Before (l_now o) (expiresAt cached)); cbn [negb].
    + destruct s. by apply (Hmore accountLoadCache0).
    + assert (Hd : cache_ok (o :: past) (s <| accountLoadCache := delete (l_key o) (accountLoadCache s) |>)).
      { apply Hmore; [|apply delete_subseteq]. pose proof (map_len_delete_le (l_key o) (accountLoadCache s)). lia. }
      destruct (l_fetched o) eqn:Ef; [by apply Hstore | exact Hd].
  - assert (Hs : cache_ok (o :: past) s) by (destruct s; by apply (Hmore accountLoadCache0)).
    destruct (l_fetched o) eqn:Ef; [by apply Hstore | exact Hs].
Qed.

Fixpoint loads_run (past os : list load) (s : ConcurrencyService) : list load * ConcurrencyService :=
  match os with
  | [] => (past, s)
  | o :: os => loads_run (o :: past) os (load_step o s)
  end.

Lemma loads_run_ok os : forall past s, cache_ok past s -> cache_ok (fst (loads_run past os s)) (snd (loads_run past os s)).
Proof. induction os as [|o os IH]; intros past s Hs; [done|]. cbn. by apply IH, cache_ok_step. Qed.
End load_cache.

(** The cache of account loads never has more than 256 entries, in whatever
    order the eviction meets them, and a hit is never stale: what it answers
    was fetched for the same accounts by a load that began less than the TTL
    before. *)
Theorem load_cache_fresh ttl first os key now loads s'
  (Hfirst : forall m, m <> ∅ -> exists k, first m = Some k /\ is_Some (m !! k)) :
  let '(past, s) := loads_run ttl first [] os (Service ttl ∅) in
  map_len (accountLoadCache s) <= maxAccountLoadBatchCacheEntries /\
  (getCachedAccountLoadBatch key now s = (Some loads, s') ->
   exists o, o ∈ past /\ l_key o = key /\ l_fetched o = Ok loads /\ now < l_now o + ttl).
Proof.
  assert (H0 : cache_ok ttl [] (Service ttl ∅)) by (by split).
  pose proof (loads_run_ok ttl first Hfirst os [] _ H0) as [Hl He].
  destruct (loads_run ttl first [] os (Service ttl ∅)) as [past s]. cbn [fst snd] in *. split; [done|].
  unfold getCachedAccountLoadBatch. destruct (accountLoadCache s !! key) as [b|] eqn:E; [|done].
  unfold Before. destruct (Z.ltb_spec now (expiresAt b)); [|done]. intros Hc. cbn in Hc. injection Hc as <- _.
  destruct (He key b E) as (o & Hin & Hk & Hf & Hx). exists o. rewrite <- Hx. auto.
Qed.

(** The least key in the order of the map. *)
Definition head_key (m : gmap string cachedAccountLoadBatch) : option string := option_map fst (head (map_to_list m)).

Lemma load_cache_fresh_witness :
  let os := [MkLoad "a" (Ok (<[7 := MkLoadInfo 7 1 0 50]> ∅)) 1000 1001; MkLoad "b" (Err Nil) 1100 1100] in
  let '(past, s) := loads_run 200 head_key [] os (Service 200 ∅) in
  map_len (accountLoadCache s) <= maxAccountLoadBatchCacheEntries /\
  exists o, o ∈ past /\ l_key o = "a" /\ l_fetched o = Ok (<[7 := MkLoadInfo 7 1 0 50]> ∅) /\ 1150 < l_now o + 200.
Proof.
  intros os.
  assert (Hh : forall m, m <> ∅ -> exists k, head_key m = Some k /\ is_Some (m !! k)).
  { intros m Hm. unfold head_key. destruct (map_to_list m) as [|[k x] l] eqn:E.
    - apply map_to_list_empty_iff in E. done.
    - exists k. split; [done|]. exists x. apply elem_of_map_to_list. rewrite E. by left. }
  pose proof (load_cache_fresh 200 head_key os "a" 1150 (<[7 := MkLoadInfo 7 1 0 50]> ∅) (snd (loads_run 200 head_key [] os (Service 200 ∅))) Hh) as HT.
  destruct (loads_run 200 head_key [] os (Service 200 ∅)) as [past s] eqn:E. destruct HT as [H1 H2]. split; [done|].
  apply H2. vm_compute in E. injection E as <- <-. vm_compute. reflexivity.
Defined.

End ConcurrencyService.
