(* ===== verification/UsagePool.v ===== *)
(** * UsagePool: the worker pool that records usage

    Models [src/backend/internal/service/usage_record_worker_pool.go]: the
    options and their normalisation, the submission of a task with the
    overflow policies, and the auto-scaler.

    The queue itself is the third-party pool [pond].  What it answers
    ([Stopped], [TrySubmit], its sizes) is an argument of each operation, so
    the theorems hold for every behaviour of the pool and of its other users;
    the auto-scaler's theorem relies on the documented effect of [Resize],
    that [MaxConcurrency] is the size last set. *)

From S2P Require Import Prelude GoStrings.

Module UsagePool.

Definition UsageRecordOverflowPolicyDrop : string := "drop".
Definition UsageRecordOverflowPolicySample : string := "sample".
Definition UsageRecordOverflowPolicySync : string := "sync".

Definition defaultUsageRecordWorkerCount : Z := 128.
Definition defaultUsageRecordQueueSize : Z := 16384.
Definition defaultUsageRecordTaskTimeoutSeconds : Z := 5.
Definition defaultUsageRecordOverflowPolicy : string := UsageRecordOverflowPolicySync.
Definition defaultUsageRecordOverflowSampleRatio : Z := 10.
Definition defaultUsageRecordAutoScaleEnabled : bool := true.
Definition defaultUsageRecordAutoScaleMinWorkers : Z := 128.
Definition defaultUsageRecordAutoScaleMaxWorkers : Z := 512.
Definition defaultUsageRecordAutoScaleUpPercent : Z := 70.
Definition defaultUsageRecordAutoScaleDownPercent : Z := 15.
Definition defaultUsageRecordAutoScaleUpStep : Z := 32.
Definition defaultUsageRecordAutoScaleDownStep : Z := 16.
Definition defaultUsageRecordAutoScaleInterval : Duration := 3 * Second.
Definition defaultUsageRecordAutoScaleCooldown : Duration := 10 * Second.
Definition usageRecordDropLogInterval : Duration := 5 * Second.

(** ** Options *)

Record UsageRecordWorkerPoolOptions := Options {
  WorkerCount : Z;
  QueueSize : Z;
  TaskTimeout : Duration;
  OverflowPolicy : string;
  OverflowSamplePercent : Z;
  AutoScaleEnabled : bool;
  AutoScaleMinWorkers : Z;
  AutoScaleMaxWorkers : Z;
  AutoScaleUpPercent : Z;
  AutoScaleDownPercent : Z;
  AutoScaleUpStep : Z;
  AutoScaleDownStep : Z;
  AutoScaleInterval : Duration;
  AutoScaleCooldown : Duration
}.
#[export] Instance options_struct : Struct UsageRecordWorkerPoolOptions := fun o =>
  Options (WorkerCount o) (QueueSize o) (TaskTimeout o) (OverflowPolicy o) (OverflowSamplePercent o) (AutoScaleEnabled o)
    (AutoScaleMinWorkers o) (AutoScaleMaxWorkers o) (AutoScaleUpPercent o) (AutoScaleDownPercent o) (AutoScaleUpStep o)
    (AutoScaleDownStep o) (AutoScaleInterval o) (AutoScaleCooldown o).

Definition normalize_policy (policy : string) : string :=
  let p := ToLower (TrimSpace policy) in
  if (p =s UsageRecordOverflowPolicyDrop) || (p =s UsageRecordOverflowPolicySample) || (p =s UsageRecordOverflowPolicySync)
  then p else defaultUsageRecordOverflowPolicy.

(** Go's [if c { o.F = v }] is the update of [F] with the chosen value.

    The block under [if opts.AutoScaleEnabled]: *)
Definition normalize_scaling (o : UsageRecordWorkerPoolOptions) : UsageRecordWorkerPoolOptions :=
  let o := o <| AutoScaleMinWorkers := if AutoScaleMinWorkers o <=? 0 then defaultUsageRecordAutoScaleMinWorkers else AutoScaleMinWorkers o |> in
  let o := o <| AutoScaleMaxWorkers := if AutoScaleMaxWorkers o <=? 0 then defaultUsageRecordAutoScaleMaxWorkers else AutoScaleMaxWorkers o |> in
  let o := o <| AutoScaleMaxWorkers := if AutoScaleMaxWorkers o <? AutoScaleMinWorkers o then AutoScaleMinWorkers o else AutoScaleMaxWorkers o |> in
  let o := o <| WorkerCount := if WorkerCount o <? AutoScaleMinWorkers o then AutoScaleMinWorkers o else WorkerCount o |> in
  let o := o <| WorkerCount := if AutoScaleMaxWorkers o <? WorkerCount o then AutoScaleMaxWorkers o else WorkerCount o |> in
  let o := o <| AutoScaleUpPercent := if (AutoScaleUpPercent o <=? 0) || (100 <? AutoScaleUpPercent o) then defaultUsageRecordAutoScaleUpPercent else AutoScaleUpPercent o |> in
  let o := o <| AutoScaleDownPercent := if (AutoScaleDownPercent o <? 0) || (100 <=? AutoScaleDownPercent o) then defaultUsageRecordAutoScaleDownPercent else AutoScaleDownPercent o |> in
  let o := o <| AutoScaleDownPercent := if AutoScaleUpPercent o <=? AutoScaleDownPercent o then Z.max 0 (Z.quot (AutoScaleUpPercent o) 2) else AutoScaleDownPercent o |> in
  let o := o <| AutoScaleUpStep := if AutoScaleUpStep o <=? 0 then defaultUsageRecordAutoScaleUpStep else AutoScaleUpStep o |> in
  let o := o <| AutoScaleDownStep := if AutoScaleDownStep o <=? 0 then defaultUsageRecordAutoScaleDownStep else AutoScaleDownStep o |> in
  let o := o <| AutoScaleInterval := if AutoScaleInterval o <=? 0 then defaultUsageRecordAutoScaleInterval else AutoScaleInterval o |> in
  o <| AutoScaleCooldown := if AutoScaleCooldown o <? 0 then defaultUsageRecordAutoScaleCooldown else AutoScaleCooldown o |>.

(** The part before [if opts.AutoScaleEnabled]. *)
Definition normalize_basics (o : UsageRecordWorkerPoolOptions) : UsageRecordWorkerPoolOptions :=
  let o := o <| WorkerCount := if WorkerCount o <=? 0 then defaultUsageRecordWorkerCount else WorkerCount o |> in
  let o := o <| QueueSize := if QueueSize o <=? 0 then defaultUsageRecordQueueSize else QueueSize o |> in
  let o := o <| TaskTimeout := if TaskTimeout o <=? 0 then defaultUsageRecordTaskTimeoutSeconds * Second else TaskTimeout o |> in
  let o := o <| OverflowPolicy := normalize_policy (OverflowPolicy o) |> in
  let o := o <| OverflowSamplePercent := if OverflowSamplePercent o <? 0 then 0 else OverflowSamplePercent o |> in
  let o := o <| OverflowSamplePercent := if 100 <? OverflowSamplePercent o then 100 else OverflowSamplePercent o |> in
  o <| OverflowSamplePercent :=
    if (OverflowPolicy o =s UsageRecordOverflowPolicySample) && (OverflowSamplePercent o =? 0)
    then defaultUsageRecordOverflowSampleRatio else OverflowSamplePercent o |>.

Definition normalizeUsageRecordPoolOptions (o : UsageRecordWorkerPoolOptions) : UsageRecordWorkerPoolOptions :=
  let o := normalize_basics o in
  if AutoScaleEnabled o then normalize_scaling o
  else o <| AutoScaleMinWorkers := WorkerCount o |> <| AutoScaleMaxWorkers := WorkerCount o |>.

(** [cfg.Gateway.UsageRecord]. *)
Record GatewayUsageRecordConfig := UsageConfig {
  cfg_WorkerCount : Z;
  cfg_QueueSize : Z;
  cfg_TaskTimeoutSeconds : Z;
  cfg_OverflowPolicy : string;
  cfg_OverflowSamplePercent : Z;
  cfg_AutoScaleEnabled : bool;
  cfg_AutoScaleMinWorkers : Z;
  cfg_AutoScaleMaxWorkers : Z;
  cfg_AutoScaleUpQueuePercent : Z;
  cfg_AutoScaleDownQueuePercent : Z;
  cfg_AutoScaleUpStep : Z;
  cfg_AutoScaleDownStep : Z;
  cfg_AutoScaleCheckIntervalSeconds : Z;
  cfg_AutoScaleCooldownSeconds : Z
}.

(** [time.Duration(n) * time.Second], which wraps. *)
Definition seconds (n : Z) : Duration := wrap64 (n * Second).

Definition default_options : UsageRecordWorkerPoolOptions :=
  Options defaultUsageRecordWorkerCount defaultUsageRecordQueueSize (defaultUsageRecordTaskTimeoutSeconds * Second)
    defaultUsageRecordOverflowPolicy defaultUsageRecordOverflowSampleRatio defaultUsageRecordAutoScaleEnabled
    defaultUsageRecordAutoScaleMinWorkers defaultUsageRecordAutoScaleMaxWorkers defaultUsageRecordAutoScaleUpPercent
    defaultUsageRecordAutoScaleDownPercent defaultUsageRecordAutoScaleUpStep defaultUsageRecordAutoScaleDownStep
    defaultUsageRecordAutoScaleInterval defaultUsageRecordAutoScaleCooldown.

Definition usageRecordPoolOptionsFromConfig (cfg : option GatewayUsageRecordConfig) : UsageRecordWorkerPoolOptions :=
  let opts := default_options in
  match cfg with
  | None => opts
  | Some c =>
      let pos v d := if 0 <? v then v else d in
      let policy := TrimSpace (ToLower (cfg_OverflowPolicy c)) in
      normalizeUsageRecordPoolOptions (Options
        (pos (cfg_WorkerCount c) (WorkerCount opts))
        (pos (cfg_QueueSize c) (QueueSize opts))
        (if 0 <? cfg_TaskTimeoutSeconds c then seconds (cfg_TaskTimeoutSeconds c) else TaskTimeout opts)
        (if negb (policy =s "") then policy else OverflowPolicy opts)
        (if 0 <=? cfg_OverflowSamplePercent c then cfg_OverflowSamplePercent c else OverflowSamplePercent opts)
        (cfg_AutoScaleEnabled c)
        (pos (cfg_AutoScaleMinWorkers c) (AutoScaleMinWorkers opts))
        (pos (cfg_AutoScaleMaxWorkers c) (AutoScaleMaxWorkers opts))
        (pos (cfg_AutoScaleUpQueuePercent c) (AutoScaleUpPercent opts))
        (if 0 <=? cfg_AutoScaleDownQueuePercent c then cfg_AutoScaleDownQueuePercent c else AutoScaleDownPercent opts)
        (pos (cfg_AutoScaleUpStep c) (AutoScaleUpStep opts))
        (pos (cfg_AutoScaleDownStep c) (AutoScaleDownStep opts))
        (if 0 <? cfg_AutoScaleCheckIntervalSeconds c then seconds (cfg_AutoScaleCheckIntervalSeconds c) else AutoScaleInterval opts)
        (if 0 <=? cfg_AutoScaleCooldownSeconds c then seconds (cfg_AutoScaleCooldownSeconds c) else AutoScaleCooldown opts))
  end.

(** ** The pool *)

(** The options are kept; [has_pool] is false for a pool without its [pond]. *)
Record UsageRecordWorkerPool := Pool {
  has_pool : bool;
  opts : UsageRecordWorkerPoolOptions;
  overflowCounter : Z;
  droppedQueueFull : Z;
  droppedPoolStopped : Z;
  syncFallback : Z;
  lastDropLogNanos : Z;
  lastScaleNanos : Z
}.
#[export] Instance pool_struct : Struct UsageRecordWorkerPool := fun p =>
  Pool (has_pool p) (opts p) (overflowCounter p) (droppedQueueFull p) (droppedPoolStopped p) (syncFallback p) (lastDropLogNanos p)
    (lastScaleNanos p).

Definition NewUsageRecordWorkerPoolWithOptions (o : UsageRecordWorkerPoolOptions) : UsageRecordWorkerPool :=
  Pool true (normalizeUsageRecordPoolOptions o) 0 0 0 0 0 0.

Inductive UsageRecordSubmitMode :=
| UsageRecordSubmitModeEnqueued
| UsageRecordSubmitModeDropped
| UsageRecordSubmitModeDroppedStopped
| UsageRecordSubmitModeSync.

Definition Dropped (m : UsageRecordSubmitMode) : bool :=
  match m with UsageRecordSubmitModeDropped | UsageRecordSubmitModeDroppedStopped => true | _ => false end.

(** What [pond] answers during one submission. *)
Record pond_answers := Answers { stopped_before : bool; accepted : bool; stopped_after : bool }.

(** Where the task goes. *)
Inductive task_effect := HandedToPool | ExecutedInline.

Definition shouldSyncFallback (p : UsageRecordWorkerPool) : bool * UsageRecordWorkerPool :=
  if OverflowSamplePercent (opts p) <=? 0 then (false, p)
  else
    let p := p <| overflowCounter := uint64 (overflowCounter p + 1) |> in
    (uint64 (overflowCounter p - 1) mod 100 <? OverflowSamplePercent (opts p), p).

Definition logDrop (now : Time) (p : UsageRecordWorkerPool) : UsageRecordWorkerPool :=
  let n := UnixNano now in
  if wrap64 (n - lastDropLogNanos p) <? usageRecordDropLogInterval then p else p <| lastDropLogNanos := n |>.

Definition run_inline (p : UsageRecordWorkerPool) : UsageRecordSubmitMode * list task_effect * UsageRecordWorkerPool :=
  (UsageRecordSubmitModeSync, [ExecutedInline], p <| syncFallback := uint64 (syncFallback p + 1) |>).

Definition drop_stopped (now : Time) (p : UsageRecordWorkerPool) : UsageRecordSubmitMode * list task_effect * UsageRecordWorkerPool :=
  (UsageRecordSubmitModeDroppedStopped, [], logDrop now (p <| droppedPoolStopped := uint64 (droppedPoolStopped p + 1) |>)).

Definition drop_full (now : Time) (p : UsageRecordWorkerPool) : UsageRecordSubmitMode * list task_effect * UsageRecordWorkerPool :=
  (UsageRecordSubmitModeDropped, [], logDrop now (p <| droppedQueueFull := uint64 (droppedQueueFull p + 1) |>)).

(** [Submit] of a task that is not nil. *)
Definition Submit (a : pond_answers) (now : Time) (p : UsageRecordWorkerPool)
    : UsageRecordSubmitMode * list task_effect * UsageRecordWorkerPool :=
  if negb (has_pool p) || stopped_before a then drop_stopped now p
  else if accepted a then (UsageRecordSubmitModeEnqueued, [HandedToPool], p)
  else if stopped_after a then drop_stopped now p
  else if OverflowPolicy (opts p) =s UsageRecordOverflowPolicySync then run_inline p
  else if OverflowPolicy (opts p) =s UsageRecordOverflowPolicySample then
    let '(inline, p) := shouldSyncFallback p in
    if inline then run_inline p else drop_full now p
  else drop_full now p.

(** ** The auto-scaler *)

(** What [pond] reports at a tick. *)
Record pond_report := Report { r_stopped : bool; r_queueSize : Z; r_waiting : Z; r_running : Z }.

Definition resizePool (current target : Z) (now : Time) (p : UsageRecordWorkerPool) : option Z * UsageRecordWorkerPool :=
  if target =? current then (None, p) else (Some target, p <| lastScaleNanos := UnixNano now |>).

(** A tick answers the new size, if it resizes; [now] and [now2] are its two
    clock readings. *)
Definition autoScaleTick (r : pond_report) (current : Z) (now now2 : Time) (p : UsageRecordWorkerPool)
    : option Z * UsageRecordWorkerPool :=
  let o := opts p in
  if negb (has_pool p) || r_stopped r then (None, p)
  else if r_queueSize r <=? 0 then (None, p)
  else
    let waiting := wrap64 (r_waiting r) in
    let running := wrap64 (r_running r) in
    if (current <=? 0) || (waiting <? 0) then (None, p)
    else
      let queuePercent := Z.quot (wrap64 (waiting * 100)) (r_queueSize r) in
      let runningPercent := Z.quot (wrap64 (running * 100)) current in
      if (0 <? lastScaleNanos p) && (time_Sub now (time_Unix (lastScaleNanos p)) <? AutoScaleCooldown o) then (None, p)
      else if (AutoScaleUpPercent o <=? queuePercent) && (current <? AutoScaleMaxWorkers o) then
        let target := wrap64 (current + AutoScaleUpStep o) in
        let target := if AutoScaleMaxWorkers o <? target then AutoScaleMaxWorkers o else target in
        resizePool current target now2 p
      else if (queuePercent <=? AutoScaleDownPercent o) && (waiting =? 0) && (runningPercent <=? AutoScaleDownPercent o) &&
              (AutoScaleMinWorkers o <? current) then
        let target := wrap64 (current - AutoScaleDownStep o) in
        let target := if target <? AutoScaleMinWorkers o then AutoScaleMinWorkers o else target in
        resizePool current target now2 p
      else (None, p).


(** ** What normalisation guarantees *)

(** The ranges the rest of the pool relies on. *)
Definition valid_scaling (o : UsageRecordWorkerPoolOptions) : Prop :=
  (0 < AutoScaleMinWorkers o <= WorkerCount o /\ WorkerCount o <= AutoScaleMaxWorkers o) /\
  (0 <= AutoScaleDownPercent o < AutoScaleUpPercent o /\ AutoScaleUpPercent o <= 100) /\
  (0 < AutoScaleUpStep o /\ 0 < AutoScaleDownStep o) /\
  (0 < AutoScaleInterval o /\ 0 <= AutoScaleCooldown o).

Definition valid_policy (p : string) : Prop :=
  p = UsageRecordOverflowPolicyDrop \/ p = UsageRecordOverflowPolicySample \/ p = UsageRecordOverflowPolicySync.

Definition valid_basics (o : UsageRecordWorkerPoolOptions) : Prop :=
  (0 < WorkerCount o /\ 0 < QueueSize o /\ 0 < TaskTimeout o) /\
  valid_policy (OverflowPolicy o) /\
  (0 <= OverflowSamplePercent o <= 100 /\
   (OverflowPolicy o = UsageRecordOverflowPolicySample -> 0 < OverflowSamplePercent o)).

Definition valid_options (o : UsageRecordWorkerPoolOptions) : Prop :=
  valid_basics o /\
  (if AutoScaleEnabled o then valid_scaling o
   else AutoScaleMinWorkers o = WorkerCount o /\ AutoScaleMaxWorkers o = WorkerCount o).

Lemma normalize_policy_valid p : valid_policy (normalize_policy p).
Proof.
  unfold normalize_policy, valid_policy. case_match eqn:E; [|by right; right].
  rewrite !orb_true_iff, !String.eqb_eq in E. tauto.
Qed.

Lemma normalize_policy_id p : valid_policy p -> normalize_policy p = p.
Proof. intros [-> | [-> | ->]]; reflexivity. Qed.

(** Decide the tests on integers that choose a field's value. *)
Ltac int_tests := repeat case_match; first [lia | Z.to_euclidean_division_equations; lia].

(** The fields of a normalised record, one expression each. *)
Ltac eval_options := cbv [normalize_basics normalize_scaling set_field options_struct WorkerCount QueueSize
  TaskTimeout OverflowPolicy OverflowSamplePercent AutoScaleEnabled AutoScaleMinWorkers AutoScaleMaxWorkers
  AutoScaleUpPercent AutoScaleDownPercent AutoScaleUpStep AutoScaleDownStep AutoScaleInterval AutoScaleCooldown
  valid_scaling valid_basics] in *.

Lemma normalize_scaling_valid o : 0 < WorkerCount o -> valid_scaling (normalize_scaling o).
Proof.
  destruct o as [w q t p s e mi ma up dn us ds iv cd]. intros Hw. eval_options.
  unfold defaultUsageRecordAutoScaleMaxWorkers, defaultUsageRecordAutoScaleMinWorkers, defaultUsageRecordAutoScaleUpPercent,
    defaultUsageRecordAutoScaleDownPercent, defaultUsageRecordAutoScaleUpStep, defaultUsageRecordAutoScaleDownStep,
    defaultUsageRecordAutoScaleInterval, defaultUsageRecordAutoScaleCooldown, Second.
  repeat match goal with |- _ /\ _ => split | |- _ <= _ < _ => split | |- _ < _ <= _ => split end; int_tests.
Qed.

Lemma normalize_scaling_id o : valid_scaling o -> normalize_scaling o = o.
Proof.
  destruct o as [w q t p s e mi ma up dn us ds iv cd]. intros ([H1 H2] & [H3 H4] & [H5 H6] & [H7 H8]). eval_options.
  f_equal; int_tests.
Qed.

(** Scaling changes no basic field but [WorkerCount], which stays positive. *)
Lemma normalize_scaling_basics o : valid_basics o -> valid_basics (normalize_scaling o).
Proof.
  intros Hb. pose proof (normalize_scaling_valid o ltac:(apply Hb)) as Hs. destruct Hs as [[? ?] _].
  destruct o as [w q t p s e mi ma up dn us ds iv cd]. destruct Hb as [(Hw & Hq) Hb].
  split; [split; [lia | exact Hq] | exact Hb].
Qed.

Lemma normalize_scaling_enabled o : AutoScaleEnabled (normalize_scaling o) = AutoScaleEnabled o.
Proof. by destruct o. Qed.

Lemma normalize_basics_valid o : valid_basics (normalize_basics o).
Proof.
  destruct o as [w q t p s e mi ma up dn us ds iv cd]. eval_options.
  pose proof (normalize_policy_valid p) as Hp.
  unfold defaultUsageRecordWorkerCount, defaultUsageRecordQueueSize, defaultUsageRecordTaskTimeoutSeconds,
    defaultUsageRecordOverflowSampleRatio, Second.
  split; [repeat split; int_tests|]. split; [done|]. split; [int_tests|]. intros ->. rewrite String.eqb_refl. cbn [andb]. int_tests.
Qed.

Lemma normalize_basics_id o : valid_basics o -> normalize_basics o = o.
Proof.
  destruct o as [w q t p s e mi ma up dn us ds iv cd]. intros ((H1 & H2 & H3) & H4 & H5 & H6). eval_options.
  rewrite (normalize_policy_id p H4). replace (w <=? 0) with false by lia. replace (q <=? 0) with false by lia.
  replace (t <=? 0) with false by lia. replace (s <? 0) with false by lia. replace (100 <? s) with false by lia.
  destruct (p =s _) eqn:E; [|done]. apply String.eqb_eq in E. replace (s =? 0) with false by (specialize (H6 E); lia). done.
Qed.

Lemma normalize_valid o : valid_options (normalizeUsageRecordPoolOptions o).
Proof.
  pose proof (normalize_basics_valid o) as Hb. unfold normalizeUsageRecordPoolOptions, valid_options.
  set (b := normalize_basics o) in *. clearbody b. cbv zeta. destruct (AutoScaleEnabled b) eqn:E.
  - split; [by apply normalize_scaling_basics|]. rewrite normalize_scaling_enabled, E.
    apply normalize_scaling_valid, Hb.
  - split; [exact Hb|]. destruct b. cbn in E. subst. done.
Qed.

Lemma normalize_id o : valid_options o -> normalizeUsageRecordPoolOptions o = o.
Proof.
  intros [Hb Hs]. unfold normalizeUsageRecordPoolOptions. rewrite (normalize_basics_id o Hb).
  destruct (AutoScaleEnabled o) eqn:E; [by apply normalize_scaling_id|].
  destruct o; simpl in *; destruct Hs as [-> ->]; done.
Qed.

(** C39: Normalisation always answers options in the ranges the pool relies on
    (positive sizes and timeout, one of the three policies, a percentage that
    is positive under the sample policy, ordered scaling bounds and
    thresholds); it leaves exactly those options alone, so it is idempotent;
    and a pool built from any configuration, or from none, has such options. *)
Theorem options_normalized :
  (forall o, valid_options (normalizeUsageRecordPoolOptions o)) /\
  (forall o, valid_options o <-> normalizeUsageRecordPoolOptions o = o) /\
  (forall cfg, valid_options (usageRecordPoolOptionsFromConfig cfg)).
Proof.
  split; [exact normalize_valid|]. split.
  - intros o. split; [apply normalize_id|]. intros <-. apply normalize_valid.
  - intros [c|]; [apply normalize_valid|]. cbn [usageRecordPoolOptionsFromConfig].
    repeat split; try done. by right; right.
Qed.

(** ** Submissions *)

(** Submissions in the order of their effects on the counters: what [pond]
    answers to each, and its clock reading. *)
Fixpoint submit_all (l : list (pond_answers * Time)) (p : UsageRecordWorkerPool)
    : list (UsageRecordSubmitMode * list task_effect) * UsageRecordWorkerPool :=
  match l with
  | [] => ([], p)
  | (a, now) :: l =>
      let '(m, e, p) := Submit a now p in
      let '(outs, p) := submit_all l p in ((m, e) :: outs, p)
  end.

(** How many submissions had an outcome. *)
Definition outcomes (f : UsageRecordSubmitMode -> bool) (outs : list (UsageRecordSubmitMode * list task_effect)) : Z :=
  Z.of_nat (length (filter (fun o => f (fst o) = true) outs)).

Definition is_sync (m : UsageRecordSubmitMode) : bool := match m with UsageRecordSubmitModeSync => true | _ => false end.
Definition is_full (m : UsageRecordSubmitMode) : bool := match m with UsageRecordSubmitModeDropped => true | _ => false end.
Definition is_stopped (m : UsageRecordSubmitMode) : bool := match m with UsageRecordSubmitModeDroppedStopped => true | _ => false end.

(** The single effect a mode announces. *)
Definition announced (m : UsageRecordSubmitMode) : list task_effect :=
  match m with
  | UsageRecordSubmitModeEnqueued => [HandedToPool]
  | UsageRecordSubmitModeSync => [ExecutedInline]
  | _ => []
  end.

Definition counts (m : UsageRecordSubmitMode) (p p' : UsageRecordWorkerPool) : Prop :=
  droppedQueueFull p' = uint64 (droppedQueueFull p + Z.b2z (is_full m)) /\
  droppedPoolStopped p' = uint64 (droppedPoolStopped p + Z.b2z (is_stopped m)) /\
  syncFallback p' = uint64 (syncFallback p + Z.b2z (is_sync m)).

(** The counters are machine words. *)
Definition words (p : UsageRecordWorkerPool) : Prop :=
  uint64 (droppedQueueFull p) = droppedQueueFull p /\ uint64 (droppedPoolStopped p) = droppedPoolStopped p /\
  uint64 (syncFallback p) = syncFallback p.

Lemma uint64_idem z : uint64 (uint64 z) = uint64 z.
Proof. unfold uint64. by rewrite Z.mod_mod by lia. Qed.

Lemma uint64_add z n : uint64 (uint64 z + n) = uint64 (z + n).
Proof. unfold uint64. by rewrite Z.add_mod_idemp_l by lia. Qed.

Lemma uint64_small z : 0 <= z < 2 ^ 64 -> uint64 z = z.
Proof. intros ?. unfold uint64. by rewrite Z.mod_small by lia. Qed.

(** One submission: its effect is the announced one, exactly one counter moves
    if the task was not enqueued, and the options stay. *)
Lemma Submit_spec a now p m e p' :
  Submit a now p = (m, e, p') -> words p ->
  e = announced m /\ counts m p p' /\ words p' /\ opts p' = opts p /\ has_pool p' = has_pool p.
Proof.
  destruct p as [hp o oc dq ds sf ll ls]. unfold words; cbn [droppedQueueFull droppedPoolStopped syncFallback].
  intros HS (H1 & H2 & H3). unfold counts.
  assert (Hz : forall z, z + 0 = z) by (intros; lia).
  unfold Submit, drop_stopped, drop_full, run_inline, shouldSyncFallback, logDrop in HS.
  repeat (case_match; simplify_eq/=); rewrite ?Hz, ?uint64_idem; auto 10.
Qed.

Lemma outcomes_cons f m e outs : outcomes f ((m, e) :: outs) = Z.b2z (f m) + outcomes f outs.
Proof. unfold outcomes. rewrite filter_cons. cbn [fst]. destruct (f m); cbn [Z.b2z]; case_decide; try done; cbn [length]; lia. Qed.

Lemma Submit_sync_never_full a now p m e p' :
  Submit a now p = (m, e, p') -> OverflowPolicy (opts p) = UsageRecordOverflowPolicySync -> is_full m = false.
Proof.
  unfold Submit, drop_stopped, drop_full, run_inline. intros HS Hp. rewrite Hp, String.eqb_refl in HS.
  repeat (case_match; simplify_eq/=); done.
Qed.

Lemma Submit_drop_never_inline a now p m e p' :
  Submit a now p = (m, e, p') -> OverflowPolicy (opts p) = UsageRecordOverflowPolicyDrop -> is_sync m = false.
Proof.
  unfold Submit, drop_stopped, drop_full, run_inline. intros HS Hp. rewrite Hp in HS. cbn in HS.
  repeat (case_match; simplify_eq/=); done.
Qed.

(** The counters after any submissions. *)
Definition tallied (outs : list (UsageRecordSubmitMode * list task_effect)) (p p' : UsageRecordWorkerPool) : Prop :=
  droppedQueueFull p' = uint64 (droppedQueueFull p + outcomes is_full outs) /\
  droppedPoolStopped p' = uint64 (droppedPoolStopped p + outcomes is_stopped outs) /\
  syncFallback p' = uint64 (syncFallback p + outcomes is_sync outs).

(** C34: Every usage task has exactly one fate, whatever the queue answers: it
    is handed to the pool once, or run by the submitter once, or dropped, and
    the mode returned says which.  Each drop and each inline run is counted in
    exactly the counter of its reason (modulo 2^64).  Under the sync policy a
    running pool loses no task: the only drops are those of a stopped pool;
    under the drop policy nothing runs inline. *)
Theorem submit_accounted l p (Hw : words p) :
  let '(outs, p') := submit_all l p in
  length outs = length l /\ Forall (fun o => snd o = announced (fst o)) outs /\ tallied outs p p' /\
  (OverflowPolicy (opts p) = UsageRecordOverflowPolicySync -> outcomes is_full outs = 0) /\
  (OverflowPolicy (opts p) = UsageRecordOverflowPolicyDrop -> outcomes is_sync outs = 0).
Proof.
  revert p Hw. induction l as [|[a now] l IH]; intros p Hw; cbn [submit_all].
  - destruct Hw as (H1 & H2 & H3). unfold tallied, outcomes. cbn. rewrite !Z.add_0_r. auto 10 using eq_sym.
  - destruct (Submit a now p) as [[m e] p1] eqn:HS.
    destruct (Submit_spec _ _ _ _ _ _ HS Hw) as (He & (C1 & C2 & C3) & Hw1 & Ho & _).
    specialize (IH p1 Hw1). destruct (submit_all l p1) as [outs p'].
    destruct IH as (Hl & Hf & (T1 & T2 & T3) & Hs & Hd). unfold tallied. rewrite !outcomes_cons.
    rewrite Ho in Hs, Hd. split; [cbn; lia|]. split; [by constructor|].
    split; [rewrite T1, T2, T3, C1, C2, C3, !uint64_add, <- !Z.add_assoc; done|]. split.
    + intros Hp. rewrite (Submit_sync_never_full _ _ _ _ _ _ HS Hp), Hs by done. done.
    + intros Hp. rewrite (Submit_drop_never_inline _ _ _ _ _ _ HS Hp), Hd by done. done.
Qed.

Lemma submit_accounted_witness :
  let p := NewUsageRecordWorkerPoolWithOptions default_options in
  let l := [(Answers false true false, 0); (Answers false false false, 1); (Answers false false true, 2); (Answers true false true, 3)] in
  words p /\
  (let '(outs, p') := submit_all l p in
   map fst outs = [UsageRecordSubmitModeEnqueued; UsageRecordSubmitModeSync; UsageRecordSubmitModeDroppedStopped;
                   UsageRecordSubmitModeDroppedStopped] /\
   outcomes is_full outs = 0 /\ droppedPoolStopped p' = 2 /\ tallied outs p p').
Proof.
  intros p l. assert (Hw : words p) by done. split; [done|].
  pose proof (submit_accounted l p Hw) as HT. destruct (submit_all l p) as [outs p'] eqn:E.
  destruct HT as (_ & _ & Ht & Hs & _). split; [vm_compute in E; by simplify_eq|].
  split; [by apply Hs|]. split; [vm_compute in E; by simplify_eq|done].
Defined.

(** *** The sample policy *)

(** What a full, running queue answers. *)
Definition queue_full : pond_answers := Answers false false false.

(** The decisions of the first [n] overflows after the counter stood at 0:
    [percent] of every full hundred, the first ones of each hundred. *)
Definition sampled (percent n : Z) : Z := percent * (n / 100) + Z.min percent (n mod 100).

Lemma sampled_step percent n :
  0 <= percent <= 100 -> 0 <= n -> sampled percent (n + 1) = sampled percent n + Z.b2z (n mod 100 <? percent).
Proof.
  intros Hp Hn. unfold sampled. pose proof (Z.div_mod n 100 ltac:(lia)) as Hd. pose proof (Z.mod_pos_bound n 100 ltac:(lia)) as Hm.
  destruct (decide (n mod 100 = 99)) as [E|E].
  - rewrite <- (Z.div_unique (n + 1) 100 (n / 100 + 1) 0), <- (Z.mod_unique (n + 1) 100 (n / 100 + 1) 0) by lia. rewrite E. destruct (Z.ltb_spec 99 percent); cbn [Z.b2z]; lia.
  - rewrite <- (Z.div_unique (n + 1) 100 (n / 100) (n mod 100 + 1)), <- (Z.mod_unique (n + 1) 100 (n / 100) (n mod 100 + 1)) by lia.
    destruct (Z.ltb_spec (n mod 100) percent); cbn [Z.b2z]; lia.
Qed.

Section sample.
Variable percent : Z.
Hypothesis Hpercent : 0 < percent <= 100.

Definition sampling (n : Z) (p : UsageRecordWorkerPool) : Prop :=
  has_pool p = true /\ OverflowPolicy (opts p) = UsageRecordOverflowPolicySample /\
  OverflowSamplePercent (opts p) = percent /\ overflowCounter p = n.

Lemma Submit_sampling now p n :
  sampling n p -> 0 <= n < 2 ^ 64 - 1 ->
  exists m e p', Submit queue_full now p = (m, e, p') /\ is_sync m = (n mod 100 <? percent) /\ sampling (n + 1) p'.
Proof.
  destruct p as [hp o oc dq ds sf ll ls]. intros (H1 & H2 & H3 & H4) Hn. cbn in *. subst hp oc.
  unfold Submit, shouldSyncFallback. cbn. rewrite H2, H3. cbn. replace (percent <=? 0) with false by lia.
  rewrite (uint64_small (n + 1)) by lia. replace (n + 1 - 1) with n by lia. rewrite (uint64_small n) by lia.
  unfold run_inline, drop_full, logDrop, sampling. destruct (n mod 100 <? percent).
  - eexists _, _, _. by repeat split.
  - destruct (wrap64 _ <? _); eexists _, _, _; by repeat split.
Qed.

Lemma sampling_run times n p :
  sampling n p -> 0 <= n -> n + Z.of_nat (length times) < 2 ^ 64 ->
  outcomes is_sync (fst (submit_all (map (fun t => (queue_full, t)) times) p))
  = sampled percent (n + Z.of_nat (length times)) - sampled percent n.
Proof.
  revert n p. induction times as [|t times IH]; intros n p Hs Hn Hlt; cbn [map submit_all length] in *.
  - rewrite Z.add_0_r. unfold outcomes. cbn. lia.
  - destruct (Submit_sampling t p n Hs ltac:(lia)) as (m & e & p1 & -> & Hm & Hs1).
    specialize (IH (n + 1) p1 Hs1 ltac:(lia) ltac:(lia)). destruct (submit_all _ p1) as [outs p']. cbn [fst] in *.
    rewrite outcomes_cons, IH, Hm, sampled_step by lia. replace (n + 1 + _) with (n + Z.of_nat (S (length times))) by lia. lia.
Qed.
End sample.

(** Under the sample policy, of the first [n] tasks that meet a full queue
    exactly [percent * (n / 100) + min percent (n mod 100)] are run inline:
    the configured percentage of every hundred, without drift, up to 2^64
    overflows. *)
Theorem sample_rate o times (p := NewUsageRecordWorkerPoolWithOptions o)
  (Hpol : OverflowPolicy (opts p) = UsageRecordOverflowPolicySample) (Hn : Z.of_nat (length times) < 2 ^ 64) :
  outcomes is_sync (fst (submit_all (map (fun t => (queue_full, t)) times) p))
  = sampled (OverflowSamplePercent (opts p)) (Z.of_nat (length times)).
Proof.
  assert (Hv : valid_options (opts p)) by exact (normalize_valid o).
  assert (Hs : sampling (OverflowSamplePercent (opts p)) 0 p) by (repeat split; exact Hpol).
  clearbody p. destruct Hv as [(_ & _ & H1 & H2) _]. specialize (H2 Hpol).
  rewrite (sampling_run (OverflowSamplePercent (opts p)) ltac:(lia) times 0 p Hs) by lia.
  replace (sampled _ 0) with 0 by (unfold sampled; change (0 / 100) with 0; change (0 mod 100) with 0; lia).
  rewrite Z.add_0_l. lia.
Qed.

Lemma sample_rate_witness :
  let o := default_options <| OverflowPolicy := " Sample " |> <| OverflowSamplePercent := 25 |> in
  let p := NewUsageRecordWorkerPoolWithOptions o in
  outcomes is_sync (fst (submit_all (map (fun t => (queue_full, t)) (repeat 0 230)) p)) = 75.
Proof.
  intros o p. transitivity (sampled (OverflowSamplePercent (opts p)) (Z.of_nat (length (repeat 0 230)))).
  - apply (sample_rate o (repeat 0 230)); vm_compute; reflexivity.
  - vm_compute. reflexivity.
Defined.

(** ** The auto-scaler over time *)

(** The pool with the concurrency of its [pond], which [Resize] sets. *)
Record scaled := Scaled { pool : UsageRecordWorkerPool; concurrency : Z }.

Definition tick (t : pond_report * Time * Time) (s : scaled) : scaled :=
  let '(r, now, now2) := t in
  let '(resize, p) := autoScaleTick r (concurrency s) now now2 (pool s) in
  Scaled p (default (concurrency s) resize).

Section scaling.
Variable o : UsageRecordWorkerPoolOptions.
Hypothesis Hvalid : valid_scaling o.
Hypothesis Hfits : AutoScaleMaxWorkers o + AutoScaleUpStep o <= int64_max.
Hypothesis Hfits_down : AutoScaleDownStep o <= int64_max.

(** The queue and worker percentages of a tick. *)
Definition queue_percent (r : pond_report) : Z := Z.quot (wrap64 (wrap64 (r_waiting r) * 100)) (r_queueSize r).

(** What a resize at a tick may be. *)
Definition resize_ok (r : pond_report) (current target : Z) (now : Time) (p : UsageRecordWorkerPool) : Prop :=
  AutoScaleMinWorkers o <= target <= AutoScaleMaxWorkers o /\
  (lastScaleNanos p <= 0 \/ AutoScaleCooldown o <= time_Sub now (time_Unix (lastScaleNanos p))) /\
  (if current <? target then AutoScaleUpPercent o <= queue_percent r /\ target <= current + AutoScaleUpStep o
   else target < current /\ r_waiting r mod 2 ^ 64 = 0 /\ current - AutoScaleDownStep o <= target).

Lemma wrap64_zero z : wrap64 z = 0 -> z mod 2 ^ 64 = 0.
Proof.
  unfold wrap64. intros H. pose proof (Z.div_mod (z + 2 ^ 63) (2 ^ 64) ltac:(lia)) as Hd.
  replace z with (((z + 2 ^ 63) / 2 ^ 64) * 2 ^ 64) by lia. apply Z.mod_mul. lia.
Qed.

Lemma autoScaleTick_spec r current now now2 p :
  opts p = o -> AutoScaleMinWorkers o <= current <= AutoScaleMaxWorkers o ->
  match autoScaleTick r current now now2 p with
  | (None, p') => p' = p
  | (Some target, p') => p' = p <| lastScaleNanos := UnixNano now2 |> /\ resize_ok r current target now p
  end.
Proof.
  intros Ho Hc. destruct Hvalid as ([H1 H2] & [H3 H4] & [H5 H6] & [H7 H8]).
  unfold int64_max in *. unfold autoScaleTick, resizePool. rewrite Ho. cbv zeta.
  destruct (_ || _); [done|]. destruct (_ <=? 0); [done|]. destruct (_ || _); [done|].
  destruct ((0 <? lastScaleNanos p) && _) eqn:Ecool; [done|].
  assert (Hcool : lastScaleNanos p <= 0 \/ AutoScaleCooldown o <= time_Sub now (time_Unix (lastScaleNanos p))) by lia.
  clear Ecool. fold (queue_percent r).
  destruct ((AutoScaleUpPercent o <=? queue_percent r) && _) eqn:Eup.
  - rewrite wrap64_id by time_lia.
    destruct (_ =? current) eqn:E; [done|]. split; [done|]. unfold resize_ok.
    assert (Hlt : (current <? (if AutoScaleMaxWorkers o <? current + AutoScaleUpStep o then AutoScaleMaxWorkers o
                               else (current + AutoScaleUpStep o))) = true) by (case_match; lia).
    rewrite Hlt. repeat split; try done; case_match; lia.
  - destruct (_ && _ && _ && _) eqn:Edown; [|done]. apply andb_prop in Edown as [Edown Hmin].
    apply andb_prop in Edown as [Edown _]. apply andb_prop in Edown as [_ Hw]. apply Z.eqb_eq, wrap64_zero in Hw.
    rewrite wrap64_id by time_lia. destruct (_ =? current) eqn:E; [done|]. split; [done|]. unfold resize_ok.
    assert (Hlt : (current <? (if current - AutoScaleDownStep o <? AutoScaleMinWorkers o then AutoScaleMinWorkers o
                              else (current - AutoScaleDownStep o))) = false) by (case_match; lia).
    rewrite Hlt. repeat split; try done; case_match; lia.
Qed.

Definition in_bounds (s : scaled) : Prop :=
  opts (pool s) = o /\ AutoScaleMinWorkers o <= concurrency s <= AutoScaleMaxWorkers o.

Lemma tick_in_bounds t s : in_bounds s -> in_bounds (tick t s).
Proof.
  destruct t as [[r now] now2]. intros [Ho Hc]. unfold tick.
  pose proof (autoScaleTick_spec r (concurrency s) now now2 (pool s) Ho Hc) as HT.
  destruct (autoScaleTick _ _ _ _ _) as [[target|] p'].
  - destruct HT as [-> [Ht _]]. split; [done|]. exact Ht.
  - subst p'. by split.
Qed.
End scaling.

(** The auto-scaler keeps the concurrency of an enabled pool between its
    minimum and maximum for every sequence of ticks, whatever queue it sees;
    and a tick resizes only when the cooldown since the last resize is over,
    upwards by at most one step and only when the queue has reached the upper
    threshold, downwards by at most one step and only with no task waiting. *)
Theorem autoscale_within_bounds o ticks (p := NewUsageRecordWorkerPoolWithOptions o)
  (He : AutoScaleEnabled (opts p) = true)
  (Hfits : AutoScaleMaxWorkers (opts p) + AutoScaleUpStep (opts p) <= int64_max)
  (Hdown : AutoScaleDownStep (opts p) <= int64_max) :
  let s := run tick ticks (Scaled p (WorkerCount (opts p))) in
  AutoScaleMinWorkers (opts p) <= concurrency s <= AutoScaleMaxWorkers (opts p) /\
  forall r now now2 target p', autoScaleTick r (concurrency s) now now2 (pool s) = (Some target, p') ->
    resize_ok (opts p) r (concurrency s) target now (pool s).
Proof.
  assert (Hs : valid_options (opts p)) by exact (normalize_valid o). clearbody p. destruct Hs as [_ Hs].
  rewrite He in Hs. intros s. assert (HI : in_bounds (opts p) s).
  { apply (run_invariant tick (in_bounds (opts p))); [intros t s'; by apply tick_in_bounds|].
    destruct Hs as [[[? ?] ?] _]. split; [done|]. cbn [concurrency]. lia. }
  split; [apply HI|]. intros r now now2 target p' HT.
  pose proof (autoScaleTick_spec (opts p) Hs Hfits Hdown r (concurrency s) now now2 (pool s)) as HS.
  rewrite HT in HS. apply HS; apply HI.
Qed.

Lemma autoscale_within_bounds_witness :
  let p := NewUsageRecordWorkerPoolWithOptions default_options in
  let busy := Report false 16384 16000 128 in
  let t n := unix_epoch + n * Second in
  let s := run tick [(busy, t 100, t 100); (busy, t 103, t 103); (busy, t 112, t 112)] (Scaled p (WorkerCount (opts p))) in
  concurrency s = 192 /\ AutoScaleMinWorkers (opts p) <= concurrency s <= AutoScaleMaxWorkers (opts p).
Proof.
  intros p busy t s. split; [vm_compute; reflexivity|].
  refine (proj1 (autoscale_within_bounds default_options
    [(busy, t 100, t 100); (busy, t 103, t 103); (busy, t 112, t 112)] _ _ _)); vm_compute; congruence.
Defined.

End UsagePool.
