(* ===== verification/Programs.v ===== *)
(** * Programs of calls

    A handler that talks to the outside is a program: it makes a call and goes
    on with the answer.  What a call does is said elsewhere, so the same program
    runs alone, fails at any call, or interleaves with others. *)

From S2P Require Import Prelude.

Module Programs.

Inductive free (C : Type -> Type) (R : Type) : Type :=
| Ret (r : R)
| Do {A : Type} (c : C A) (k : A -> free C R).
Arguments Ret {C R} r.
Arguments Do {C R A} c k.

Fixpoint bind {C A B} (p : free C A) (k : A -> free C B) : free C B :=
  match p with
  | Ret a => k a
  | Do c k' => Do c (fun x => bind (k' x) k)
  end.

Notation "'let!' x ':=' c 'in' k" := (Do c (fun x => k)) (at level 200, x pattern, c at level 100, k at level 200).
Notation "'run!' x ':=' p 'in' k" := (bind p (fun x => k)) (at level 200, x pattern, p at level 100, k at level 200).

(** A program over one family of calls as a program over another. *)
Fixpoint lift {C D R} (f : forall A, C A -> free D A) (p : free C R) : free D R :=
  match p with
  | Ret r => Ret r
  | Do c k => bind (f _ c) (fun x => lift f (k x))
  end.

(** ** Properties of all runs

    [note] is what a program has learnt when a call is answered.  [always]
    holds when every call meets its condition whatever the answers are, and
    [Q] holds of the result and of what was learnt. *)
Section always.
Context {C : Type -> Type} {K : Type}.
Context (allowed : forall A, K -> C A -> Prop) (possible : forall A, K -> C A -> A -> Prop) (note : forall A, K -> C A -> A -> K).

Fixpoint always {R} (Q : K -> R -> Prop) (κ : K) (p : free C R) : Prop :=
  match p with
  | Ret r => Q κ r
  | Do c k => allowed _ κ c /\ forall x, possible _ κ c x -> always Q (note _ κ c x) (k x)
  end.

Lemma always_mono {R} (Q Q' : K -> R -> Prop) κ p :
  (forall κ r, Q κ r -> Q' κ r) -> always Q κ p -> always Q' κ p.
Proof. intros HQ. revert κ. induction p as [r|A c k IH]; intros κ; cbn; [apply HQ|]. intros [Hc Hk]. eauto. Qed.

Lemma always_bind {A B} (Q : K -> B -> Prop) κ (p : free C A) (k : A -> free C B) :
  always (fun κ r => always Q κ (k r)) κ p -> always Q κ (bind p k).
Proof. revert κ. induction p as [r|X c k' IH]; intros κ; cbn; [done|]. intros [Hc Hk]. eauto. Qed.
End always.
End Programs.
