(* ===== verification/RedisKeys.v ===== *)
(** * Redis: lists, sorted sets and expiring strings

    The commands that the job queue uses.  As in [Redis], the server is a
    parameter: [RedisServer] names the commands, and [RedisServerLaws] says
    that each acts on the keys as documented, where [kind] tells the type the
    application gives to a key; nothing is said about a command on a key of
    another type.  The documented effects are the functions on a [keyspace]
    below; a server whose state is a keyspace is at the end of the file. *)

From S2P Require Import Prelude GoStrings.

Module RedisKeys.
#[local] Open Scope Z_scope.

(** Lists from the head; sorted sets; strings with the time they expire at, in
    milliseconds of the server's clock.  An absent list or set is an empty one. *)
Record keyspace := Keyspace {
  clock : Z;
  lists : gmap string (list string);
  zsets : gmap string (gmap string Z);
  strings : gmap string (string * Z)
}.
#[export] Instance keyspace_struct : Struct keyspace := fun k => Keyspace (clock k) (lists k) (zsets k) (strings k).

Definition list_at (k : string) (ks : keyspace) : list string := default [] (lists ks !! k).
Definition zset_at (k : string) (ks : keyspace) : gmap string Z := default ∅ (zsets ks !! k).
Definition string_at (k : string) (ks : keyspace) : option string :=
  match strings ks !! k with Some (v, d) => if clock ks <? d then Some v else None | None => None end.

(** *** Documented effects *)

Definition lpush (k v : string) (ks : keyspace) : keyspace := ks <| lists := <[k := v :: list_at k ks]> (lists ks) |>.
Definition rpop (k : string) (ks : keyspace) : keyspace :=
  ks <| lists := <[k := take (length (list_at k ks) - 1) (list_at k ks)]> (lists ks) |>.
Definition zadd (k : string) (score : Z) (m : string) (ks : keyspace) : keyspace :=
  ks <| zsets := <[k := <[m := score]> (zset_at k ks)]> (zsets ks) |>.
Definition zrem (k m : string) (ks : keyspace) : keyspace :=
  ks <| zsets := <[k := delete m (zset_at k ks)]> (zsets ks) |>.
Definition set_px (k v : string) (ttl : Z) (ks : keyspace) : keyspace :=
  ks <| strings := <[k := (v, clock ks + ttl)]> (strings ks) |>.
Definition pexpire (k : string) (ttl : Z) (ks : keyspace) : keyspace :=
  match string_at k ks with Some v => set_px k v ttl ks | None => ks end.
Definition del_string (k : string) (ks : keyspace) : keyspace := ks <| strings := delete k (strings ks) |>.
Definition pass (dt : Z) (ks : keyspace) : keyspace := ks <| clock := clock ks + dt |>.

(** Members by score, equal scores by bytes: the first [count] up to [max]. *)
Definition score_order (a b : string * Z) : bool := (a.2 <? b.2) || ((a.2 =? b.2) && String.leb a.1 b.1).
Definition range_by_score (max count : Z) (z : gmap string Z) : list string :=
  take (Z.to_nat count) (merge_sort score_order (map_to_list (filter (fun e => e.2 <= max) z))).*1.

Inductive redis_type := ListKey | ZSetKey | StringKey.

(** ** The server *)

Class RedisServer (S : Type) := {
  space : S -> keyspace;
  LPUSH : string -> string -> S -> S;
  RPOP : string -> S -> S;
  ZADD : string -> Z -> string -> S -> S;
  ZREM : string -> string -> S -> S;
  SET_PX : string -> string -> Z -> S -> S;
  PEXPIRE : string -> Z -> S -> S;
  DEL : string -> S -> S;
  elapse : Z -> S -> S
}.

Class RedisServerLaws (S : Type) `{RedisServer S} (kind : string -> redis_type) := {
  space_LPUSH k v s : kind k = ListKey -> space (LPUSH k v s) = lpush k v (space s);
  space_RPOP k s : kind k = ListKey -> space (RPOP k s) = rpop k (space s);
  space_ZADD k sc m s : kind k = ZSetKey -> space (ZADD k sc m s) = zadd k sc m (space s);
  space_ZREM k m s : kind k = ZSetKey -> space (ZREM k m s) = zrem k m (space s);
  space_SET_PX k v ttl s : kind k = StringKey -> 0 < ttl -> space (SET_PX k v ttl s) = set_px k v ttl (space s);
  space_PEXPIRE k ttl s : kind k = StringKey -> 0 < ttl -> space (PEXPIRE k ttl s) = pexpire k ttl (space s);
  space_DEL k s : kind k = StringKey -> space (DEL k s) = del_string k (space s);
  space_elapse dt s : 0 <= dt -> space (elapse dt s) = pass dt (space s)
}.

Section observations.
Context {S : Type} `{RedisServer S}.
Definition LRANGE (k : string) (s : S) : list string := list_at k (space s).
Definition ZSET (k : string) (s : S) : gmap string Z := zset_at k (space s).
Definition GET (k : string) (s : S) : option string := string_at k (space s).
Definition ZRANGEBYSCORE (k : string) (max count : Z) (s : S) : list string := range_by_score max count (ZSET k s).
End observations.

(** ** Reading after writing *)

Lemma list_at_lpush k v ks k' : list_at k' (lpush k v ks) = if decide (k' = k) then v :: list_at k ks else list_at k' ks.
Proof. unfold list_at at 1, lpush. cbn. case_decide; subst; [by rewrite lookup_insert_eq|by rewrite lookup_insert_ne]. Qed.

Lemma list_at_rpop k ks k' :
  list_at k' (rpop k ks) = if decide (k' = k) then take (length (list_at k ks) - 1) (list_at k ks) else list_at k' ks.
Proof. unfold list_at at 1, rpop. cbn. case_decide; subst; [by rewrite lookup_insert_eq|by rewrite lookup_insert_ne]. Qed.

Lemma zset_at_zadd k sc m ks k' : zset_at k' (zadd k sc m ks) = if decide (k' = k) then <[m := sc]> (zset_at k ks) else zset_at k' ks.
Proof. unfold zset_at at 1, zadd. cbn. case_decide; subst; [by rewrite lookup_insert_eq|by rewrite lookup_insert_ne]. Qed.

Lemma zset_at_zrem k m ks k' : zset_at k' (zrem k m ks) = if decide (k' = k) then delete m (zset_at k ks) else zset_at k' ks.
Proof. unfold zset_at at 1, zrem. cbn. case_decide; subst; [by rewrite lookup_insert_eq|by rewrite lookup_insert_ne]. Qed.

(** Commands on keys of the other types. *)
Section other_types.
Context (k v : string) (z : Z) (ks : keyspace) (k' : string).
Lemma list_at_zadd : list_at k' (zadd k z v ks) = list_at k' ks. Proof. done. Qed.
Lemma list_at_zrem : list_at k' (zrem k v ks) = list_at k' ks. Proof. done. Qed.
Lemma list_at_set_px : list_at k' (set_px k v z ks) = list_at k' ks. Proof. done. Qed.
Lemma list_at_del_string : list_at k' (del_string k ks) = list_at k' ks. Proof. done. Qed.
Lemma list_at_pass : list_at k' (pass z ks) = list_at k' ks. Proof. done. Qed.
Lemma list_at_pexpire : list_at k' (pexpire k z ks) = list_at k' ks.
Proof. unfold pexpire. by destruct (string_at k ks). Qed.
Lemma zset_at_lpush : zset_at k' (lpush k v ks) = zset_at k' ks. Proof. done. Qed.
Lemma zset_at_rpop : zset_at k' (rpop k ks) = zset_at k' ks. Proof. done. Qed.
Lemma zset_at_set_px : zset_at k' (set_px k v z ks) = zset_at k' ks. Proof. done. Qed.
Lemma zset_at_del_string : zset_at k' (del_string k ks) = zset_at k' ks. Proof. done. Qed.
Lemma zset_at_pass : zset_at k' (pass z ks) = zset_at k' ks. Proof. done. Qed.
Lemma zset_at_pexpire : zset_at k' (pexpire k z ks) = zset_at k' ks.
Proof. unfold pexpire. by destruct (string_at k ks). Qed.
Lemma string_at_lpush : string_at k' (lpush k v ks) = string_at k' ks. Proof. done. Qed.
Lemma string_at_rpop : string_at k' (rpop k ks) = string_at k' ks. Proof. done. Qed.
Lemma string_at_zadd : string_at k' (zadd k z v ks) = string_at k' ks. Proof. done. Qed.
Lemma string_at_zrem : string_at k' (zrem k v ks) = string_at k' ks. Proof. done. Qed.
End other_types.

Lemma string_at_set_px k v ttl ks k' : 0 < ttl ->
  string_at k' (set_px k v ttl ks) = if decide (k' = k) then Some v else string_at k' ks.
Proof.
  intros Ht. unfold string_at, set_px. cbn. case_decide; subst; [rewrite lookup_insert_eq|by rewrite lookup_insert_ne].
  destruct (Z.ltb_spec (clock ks) (clock ks + ttl)); [done|lia].
Qed.

Lemma string_at_pexpire k ttl ks k' : 0 < ttl -> string_at k' (pexpire k ttl ks) = string_at k' ks.
Proof.
  intros Ht. unfold pexpire. destruct (string_at k ks) eqn:E; [|done]. rewrite string_at_set_px by done. case_decide; [by subst|done].
Qed.

Lemma string_at_del k ks k' : string_at k' (del_string k ks) = if decide (k' = k) then None else string_at k' ks.
Proof. unfold string_at, del_string. cbn. case_decide; subst; [by rewrite lookup_delete_eq|by rewrite lookup_delete_ne]. Qed.

(** Time only ends strings. *)
Lemma string_at_pass k dt ks v : 0 <= dt -> string_at k (pass dt ks) = Some v -> string_at k ks = Some v.
Proof.
  intros Hd. unfold string_at, pass. cbn. destruct (strings ks !! k) as [[v' d]|]; [|done].
  destruct (Z.ltb_spec (clock ks + dt) d); [|done]. destruct (Z.ltb_spec (clock ks) d); [done|lia].
Qed.

Create HintDb redis discriminated.
#[export] Hint Rewrite list_at_lpush list_at_rpop list_at_zadd list_at_zrem list_at_set_px list_at_del_string list_at_pass
  list_at_pexpire zset_at_lpush zset_at_rpop zset_at_zadd zset_at_zrem zset_at_set_px zset_at_del_string zset_at_pass
  zset_at_pexpire string_at_lpush string_at_rpop string_at_zadd string_at_zrem string_at_del : redis.

(** A pop takes one element off the end. *)
Lemma list_at_pop k ks v l : list_at k ks = l ++ [v] -> list_at k (rpop k ks) = l.
Proof.
  intros Hl. rewrite list_at_rpop, decide_True, Hl by done. rewrite length_app. cbn.
  replace (length l + 1 - 1)%nat with (length l) by lia. by rewrite take_app_length.
Qed.

Lemma range_by_score_spec max count z m : m ∈ range_by_score max count z -> exists sc, z !! m = Some sc /\ sc <= max.
Proof.
  unfold range_by_score. intros (i & Hi & _)%elem_of_take. apply list_elem_of_lookup_2, list_elem_of_fmap in Hi as ([m' sc] & -> & Hm).
  rewrite merge_sort_Permutation, elem_of_map_to_list in Hm. apply map_lookup_filter_Some in Hm as [? ?]. by exists sc.
Qed.

(** ** A server that is its keyspace *)

#[export] Instance keyspace_server : RedisServer keyspace := {|
  space := id;
  LPUSH := lpush;
  RPOP := rpop;
  ZADD := zadd;
  ZREM := zrem;
  SET_PX := set_px;
  PEXPIRE := pexpire;
  DEL := del_string;
  elapse := pass
|}.

#[export] Instance keyspace_server_laws kind : RedisServerLaws keyspace kind.
Proof. by split. Qed.

Definition empty_keyspace : keyspace := Keyspace 0 ∅ ∅ ∅.
End RedisKeys.
