(* ===== verification/GoFloat.v ===== *)
(** * Go's float64 and PostgreSQL's NUMERIC

    [float64] is IEEE 754 binary64, as the Standard Library's [SpecFloat]
    defines it: the operations round to nearest, ties to even.  A NUMERIC(20,s)
    column holds an integer count of units of 10^-s: an assignment rounds half
    away from zero and fails on a value of more than twenty digits. *)

From Stdlib Require Import QArith SpecFloat.
From S2P Require Import Prelude GoStrings.

Module GoFloat.

Definition float64 : Set := spec_float.

(** [float64(n)] of an integer; the nearest float64 of a fraction, which is
    what a decimal literal and [strconv.ParseFloat] denote. *)
Definition f64_of_int (n : Z) : float64 := binary_normalize 53 1024 n 0 false.
Definition f64_of_ratio (n : Z) (d : positive) : float64 :=
  match n with
  | Z0 => S754_zero false
  | Zpos p => SFdiv 53 1024 (S754_finite false p 0) (S754_finite false d 0)
  | Zneg p => SFdiv 53 1024 (S754_finite true p 0) (S754_finite false d 0)
  end.
Definition f64_mul (x y : float64) : float64 := SFmul 53 1024 x y.
Definition f64_sub (x y : float64) : float64 := SFsub 53 1024 x y.
Definition f64_add (x y : float64) : float64 := SFadd 53 1024 x y.
Definition f64_zero : float64 := S754_zero false.
Definition f64_one : float64 := f64_of_int 1.

Declare Scope f64_scope.
Delimit Scope f64_scope with f64.
Bind Scope f64_scope with float64.
Infix "*" := f64_mul : f64_scope.
Infix "+" := f64_add : f64_scope.
Infix "-" := f64_sub : f64_scope.
Notation "x <? y" := (SFltb x y) : f64_scope.
Notation "x <=? y" := (SFleb x y) : f64_scope.

(** The exact value of a finite float64. *)
Definition f64_value (x : float64) : Q :=
  match x with
  | S754_finite s m e =>
      let q := match e with
               | Zneg p => Zpos m # (2 ^ p)
               | _ => inject_Z (Zpos m * 2 ^ e)
               end in
      if s then (- q)%Q else q
  | _ => 0%Q
  end.

(** [fmt.Sprintf("%0.10f", x)]: ten decimals, the exact value rounded to
    nearest, ties to even. *)
Definition round_half_even (q : Q) : Z :=
  let n := Qnum q in
  let d := Zpos (Qden q) in
  let fl := n / d in
  let r := 2 * (n mod d) in
  if r <? d then fl else if d <? r then fl + 1 else if Z.even fl then fl else fl + 1.

Definition zero_pad (width : nat) (s : string) : string :=
  String.concat "" (replicate (width - String.length s) "0") +:+ s.

Definition format_f10 (x : float64) : string :=
  match x with
  | S754_nan => "NaN"
  | S754_infinity s => if s then "-Inf" else "+Inf"
  | S754_zero s => (if s then "-" else "") +:+ "0.0000000000"
  | S754_finite s _ _ =>
      let v := round_half_even (inject_Z (10 ^ 10) * (if s then - f64_value x else f64_value x))%Q in
      (if s then "-" else "") +:+ Itoa (v / 10 ^ 10) +:+ "." +:+ zero_pad 10 (Itoa (v mod 10 ^ 10))
  end.

(** ** NUMERIC columns *)

(** Rounding to an integer, half away from zero. *)
Definition round_half_away (q : Q) : Z :=
  let n := Qnum q in
  let d := Zpos (Qden q) in
  Z.sgn n * ((2 * Z.abs n + d) / (2 * d)).

(** What a NUMERIC(20,[scale]) column stores, in units of 10^-[scale]. *)
Definition numeric_store (scale : Z) (q : Q) : option Z :=
  let z := round_half_away (inject_Z (10 ^ scale) * q)%Q in
  if Z.abs z <? 10 ^ 20 then Some z else None.

(** The value a column holds. *)
Definition numeric_value (scale : positive) (z : Z) : Q := z # (10 ^ scale).

(** Scanning a column into a [float64]. *)
Definition numeric_scan (scale : positive) (z : Z) : float64 := f64_of_ratio z (10 ^ scale).

(** *** Rounding *)

Lemma round_half_away_bound q : 2 * Z.abs (round_half_away q * Zpos (Qden q) - Qnum q) <= Zpos (Qden q).
Proof.
  unfold round_half_away. destruct q as [n d]. cbn [Qnum Qden].
  pose proof (Z.div_mod (2 * Z.abs n + Zpos d) (2 * Zpos d) ltac:(lia)) as Hd.
  pose proof (Z.mod_pos_bound (2 * Z.abs n + Zpos d) (2 * Zpos d) ltac:(lia)) as Hm.
  set (k := (2 * Z.abs n + Zpos d) / (2 * Zpos d)) in *. destruct (Z.sgn_spec n) as [[? ->]|[[? ->]|[? ->]]]; nia.
Qed.

Lemma round_half_away_nonneg q : (0 <= q)%Q -> 0 <= round_half_away q.
Proof.
  unfold Qle, round_half_away. destruct q as [n d]. cbn [Qnum Qden]. intros Hn.
  apply Z.mul_nonneg_nonneg; [lia|]. apply Z.div_pos; lia.
Qed.

(** A stored value differs from the assigned one by at most half a unit, and
    not at all when that is a whole number of units. *)
Section store.
Context (scale : positive) (q : Q) (z : Z) (Hz : numeric_store (Zpos scale) q = Some z).

Lemma stored_rounded : z = round_half_away (inject_Z (10 ^ Zpos scale) * q)%Q.
Proof. unfold numeric_store in Hz. by branches_in Hz. Qed.

Lemma stored_within : (- (1 # (2 * 10 ^ scale)) <= numeric_value scale z - q <= 1 # (2 * 10 ^ scale))%Q.
Proof.
  pose proof (round_half_away_bound (inject_Z (10 ^ Zpos scale) * q)%Q) as Hb. rewrite <- stored_rounded in Hb.
  unfold numeric_value, Qle, Qminus, Qplus, Qopp, Qmult, inject_Z in *. cbn [Qnum Qden] in *.
  destruct q as [n d]. cbn [Qnum Qden] in *. replace (10 ^ Zpos scale) with (Zpos (10 ^ scale)) in Hb by lia.
  set (t := (10 ^ scale)%positive) in *. rewrite ?Pos2Z.inj_mul in *. replace (Zpos (1 * d)) with (Zpos d) in Hb by lia.
  assert (2 * Z.abs (z * Zpos d - Zpos t * n) <= Zpos d) as Hb' by lia. clear Hb.
  assert (Hp : 0 < Zpos t) by lia. split; nia.
Qed.

Lemma stored_exact y : (q == y # (10 ^ scale))%Q -> z = y.
Proof.
  intros Hq. pose proof stored_within as [Hl Hu]. rewrite Hq in Hl, Hu. unfold numeric_value in *.
  unfold Qle, Qminus, Qplus, Qopp in *. cbn [Qnum Qden] in *. rewrite ?Pos2Z.inj_mul in *.
  set (t := Zpos (10 ^ scale)) in *. assert (Ht : 0 < t) by lia.
  assert (Hd : (2 * t) * (2 * t) * (z - y) * t = 2 * (2 * t * t * (z - y) * t)) by lia.
  assert (-1 < z - y < 1) by nia. lia.
Qed.

Lemma stored_nonneg : (0 <= q)%Q -> 0 <= z.
Proof.
  intros Hq. rewrite stored_rounded. apply round_half_away_nonneg.
  apply Qmult_le_0_compat; [|done]. unfold Qle, inject_Z. cbn. lia.
Qed.
End store.

End GoFloat.
