(* ===== verification/AppErrors.v ===== *)
(** * Application errors

    The errors of [pkg/errors/errors.go]: a status code, a reason and a
    message, wrapped around an optional cause; next to them the plain
    sentinels of [errors.New] and what drivers and the network report. *)

From S2P Require Import Prelude GoStrings.

Module AppErrors.

Inductive error :=
| ApplicationError (Code : Z) (Reason Message : string) (cause : option error)
| PlainError (message : string)     (* a sentinel of [errors.New] *)
| DriverError (message : string)    (* an error of code outside the repository *)
| Wrapped (prefix : string) (cause : error).   (* [fmt.Errorf] of a prefix and [%w] *)

Definition New (code : Z) (reason message : string) : error := ApplicationError code reason message None.

(** [e.WithCause(cause)]. *)
Definition WithCause (e cause : error) : error :=
  match e with
  | ApplicationError c r m _ => ApplicationError c r m (Some cause)
  | _ => e
  end.

(** [errors.Is(e, target)] for a sentinel [target]: sentinels of [errors.New]
    are compared by identity, application errors by [ApplicationError.Is]. *)
Definition same_sentinel (e target : error) : bool :=
  match e, target with
  | ApplicationError c r _ _, ApplicationError c' r' _ _ => (c =? c') && (r =s r')
  | PlainError m, PlainError m' => m =s m'
  | _, _ => false
  end.

Fixpoint errors_Is (e target : error) : bool :=
  same_sentinel e target ||
  match e with
  | ApplicationError _ _ _ (Some c) => errors_Is c target
  | Wrapped _ c => errors_Is c target
  | _ => false
  end.

(** [Reason(err)]: that of the outermost application error, empty for others. *)
Fixpoint error_Reason (e : error) : string :=
  match e with ApplicationError _ r _ _ => r | Wrapped _ c => error_Reason c | _ => "" end.

(** [err.Error()]; the reasons and messages of the repository's errors contain
    nothing that the verb q escapes, and no metadata. *)
Definition quoted (s : string) : string := of_bytes [chr 34] +:+ s +:+ of_bytes [chr 34].

Fixpoint Error (e : error) : string :=
  match e with
  | ApplicationError c r m cause =>
      "error: code=" +:+ Itoa c +:+ " reason=" +:+ quoted r +:+ " message=" +:+ quoted m +:+ " metadata=map[]" +:+
      match cause with None => "" | Some e' => " cause=" +:+ Error e' end
  | PlainError m | DriverError m => m
  | Wrapped p c => p +:+ ": " +:+ Error c
  end.

(** Failures of a driver match no sentinel. *)
Lemma driver_is_nothing m target : errors_Is (DriverError m) target = false.
Proof. by destruct target. Qed.

End AppErrors.
