(* ===== verification/UsageBilling.v ===== *)
(** * Usage billing: balance holds

    The holds of [repository/usage_billing_repo.go] with their commands
    ([service/usage_billing.go]).  A batch image job reserves an amount of its
    user's balance, which later is captured (charged) or released.  Each
    operation is one transaction: it claims its request id in
    [usage_billing_dedup] and moves money in [users], or leaves both tables as
    they were.  Concurrent transactions on one row or one id are serialised by
    PostgreSQL's locks, so a transaction is one atomic step.

    [numeric] is the value that the driver sends for a finite [float64] (its
    shortest decimal), [sha256_hex] the hex digest.  Both are third-party or
    cryptographic code and parameters here. *)

From Stdlib Require Import QArith Lqa.
From S2P Require Import Prelude GoStrings GoFloat AppErrors.

Module UsageBilling.
Export GoFloat AppErrors.
#[local] Open Scope Z_scope.

Definition ErrUsageBillingRequestIDRequired : error := PlainError "usage billing request_id is required".
Definition ErrUsageBillingRequestConflict : error := PlainError "usage billing request fingerprint conflict".
Definition ErrUserNotFound : error := New 404 "USER_NOT_FOUND" "user not found".
Definition ErrBatchImageInsufficientBalance : error :=
  New 402 "BATCH_IMAGE_INSUFFICIENT_BALANCE" "insufficient balance for batch image hold".
Definition ErrBatchImageSettlementCostExceedsHold : error :=
  New 409 "BATCH_IMAGE_SETTLEMENT_COST_EXCEEDS_HOLD" "batch image settlement cost exceeds held balance".
Definition frozen_insufficient : error := PlainError "batch image frozen balance is insufficient".

Record BatchImageBalanceHoldCommand := HoldCommand {
  RequestID : string;
  APIKeyID : Z;
  RequestFingerprint : string;
  RequestPayloadHash : string;
  UserID : Z;
  BatchID : string;
  HoldAmount : float64;
  ActualAmount : float64
}.

Record BatchImageBalanceHoldResult := HoldResult {
  Applied : bool;
  NewBalance : option float64;
  FrozenBalance : option float64
}.

(** The columns of [users] that holds use, amounts in units of 10^-8; the
    claimed request ids with their fingerprints, and those moved to the
    archive. *)
Record user_row := User { balance : Z; frozen_balance : Z; deleted : bool }.
#[export] Instance user_row_struct : Struct user_row := fun u => User (balance u) (frozen_balance u) (deleted u).

Record billing_db := Billing {
  users : gmap Z user_row;
  dedup : gmap (string * Z) string;
  dedup_archive : gmap (string * Z) string
}.
#[export] Instance billing_db_struct : Struct billing_db := fun d => Billing (users d) (dedup d) (dedup_archive d).

(** Prefixes of the request ids of a batch ([service/batch_image_billing_hold.go]). *)
Definition BatchImageHoldRequestID (batchID : string) : string := "batch_image_hold:" +:+ TrimSpace batchID.
Definition BatchImageCaptureRequestID (batchID : string) : string := "batch_image_capture:" +:+ TrimSpace batchID.
Definition BatchImageReleaseRequestID (batchID : string) : string := "batch_image_release:" +:+ TrimSpace batchID.

(** Batch ids are made of printable characters ([NewBatchImageID]), and then
    the three request ids of a batch are their own trimmed forms. *)
Definition plain_id (s : string) : Prop := Forall (fun c => 33 <= byte_of c <= 126) (to_bytes s).

Lemma plain_trim s : plain_id s -> TrimSpace s = s.
Proof. apply TrimSpace_printable. Qed.

Lemma plain_prefix pre b :
  forallb (fun c => (33 <=? byte_of c) && (byte_of c <=? 126)) (to_bytes pre) = true -> plain_id b -> plain_id (pre +:+ TrimSpace b).
Proof.
  intros Hp Hb. rewrite (plain_trim b Hb). unfold plain_id. rewrite to_bytes_app. apply Forall_app. split; [|done].
  apply Forall_forall. intros c Hc. rewrite forallb_forall in Hp. specialize (Hp c). rewrite <- list_elem_of_In in Hp.
  specialize (Hp Hc). lia.
Qed.

Lemma hold_id_plain b : plain_id b -> plain_id (BatchImageHoldRequestID b).
Proof. by apply plain_prefix. Qed.
Lemma capture_id_plain b : plain_id b -> plain_id (BatchImageCaptureRequestID b).
Proof. by apply plain_prefix. Qed.
Lemma release_id_plain b : plain_id b -> plain_id (BatchImageReleaseRequestID b).
Proof. by apply plain_prefix. Qed.

Section repository.
Context (numeric : float64 -> Q) (sha256_hex : string -> string).

Definition buildBatchImageBalanceHoldFingerprint (c : BatchImageBalanceHoldCommand) : string :=
  let raw := Itoa (UserID c) +:+ "|" +:+ Itoa (APIKeyID c) +:+ "|" +:+ TrimSpace (BatchID c) +:+ "|" +:+
             format_f10 (HoldAmount c) +:+ "|" +:+ format_f10 (ActualAmount c) in
  let payloadHash := TrimSpace (RequestPayloadHash c) in
  sha256_hex (if payloadHash =s "" then raw else raw +:+ "|" +:+ payloadHash).

Definition Normalize (c : BatchImageBalanceHoldCommand) : BatchImageBalanceHoldCommand :=
  let c := HoldCommand (TrimSpace (RequestID c)) (APIKeyID c) (RequestFingerprint c) (RequestPayloadHash c)
             (UserID c) (TrimSpace (BatchID c)) (HoldAmount c) (ActualAmount c) in
  if TrimSpace (RequestFingerprint c) =s "" then
    HoldCommand (RequestID c) (APIKeyID c) (buildBatchImageBalanceHoldFingerprint c) (RequestPayloadHash c)
      (UserID c) (BatchID c) (HoldAmount c) (ActualAmount c)
  else c.

(** The claim of a request id, within the transaction: whether it is new. *)
Definition claimUsageBillingRequest (requestID : string) (apiKeyID : Z) (fingerprint : string) (d : billing_db)
    : outcome bool error * billing_db :=
  let known existing :=
    if TrimSpace existing =s TrimSpace fingerprint then Ok false else Err ErrUsageBillingRequestConflict in
  match dedup d !! (requestID, apiKeyID) with
  | Some existing => (known existing, d)
  | None =>
      let d := d <| dedup := <[(requestID, apiKeyID) := fingerprint]> (dedup d) |> in
      match dedup_archive d !! (requestID, apiKeyID) with
      | Some archived => (known archived, d)
      | None => (Ok true, d)
      end
  end.

(** [UPDATE users SET balance = .., frozen_balance = .. WHERE id = .. AND
    deleted_at IS NULL AND guard RETURNING ..]; when no row qualifies the code
    tells an absent user from a failed guard. *)
Definition update_balances (uid : Z) (guard : user_row -> bool) (balance' frozen' : user_row -> Q) (otherwise : error)
    (d : billing_db) : outcome (BatchImageBalanceHoldResult * billing_db) error :=
  match users d !! uid with
  | Some u =>
      if deleted u then Err ErrUserNotFound
      else if guard u then
        match numeric_store 8 (balance' u), numeric_store 8 (frozen' u) with
        | Some b, Some f =>
            Ok (HoldResult true (Some (numeric_scan 8 b)) (Some (numeric_scan 8 f)),
                d <| users := <[uid := User b f false]> (users d) |>)
        | _, _ => Err (DriverError "numeric field overflow")
        end
      else Err otherwise
  | None => Err ErrUserNotFound
  end.

Definition no_money (d : billing_db) : outcome (BatchImageBalanceHoldResult * billing_db) error :=
  Ok (HoldResult true None None, d).

Definition row_balance (u : user_row) : Q := numeric_value 8 (balance u).
Definition row_frozen (u : user_row) : Q := numeric_value 8 (frozen_balance u).

Definition reserveUsageBillingBatchImageBalance (cmd : BatchImageBalanceHoldCommand) (d : billing_db)
    : outcome (BatchImageBalanceHoldResult * billing_db) error :=
  if (HoldAmount cmd <=? f64_zero)%f64 then no_money d
  else
    let hold := numeric (HoldAmount cmd) in
    update_balances (UserID cmd) (fun u => Qle_bool hold (row_balance u))
      (fun u => (row_balance u - hold)%Q) (fun u => (row_frozen u + hold)%Q) ErrBatchImageInsufficientBalance d.

(** The tolerance of a capture, 0.00000001. *)
Definition batchImageCostEpsilon : float64 := f64_of_ratio 1 (10 ^ 8).

(** [$1] and [$2] of the capture: [CASE WHEN x > y THEN x - y ELSE 0 END]. *)
Definition excess (x y : Q) : Q := if Qle_bool x y then 0%Q else (x - y)%Q.

Definition captureUsageBillingBatchImageBalance (cmd : BatchImageBalanceHoldCommand) (d : billing_db)
    : outcome (BatchImageBalanceHoldResult * billing_db) error :=
  if ((HoldAmount cmd <=? f64_zero) && (ActualAmount cmd <=? f64_zero))%f64 then no_money d
  else if (batchImageCostEpsilon <? ActualAmount cmd - HoldAmount cmd)%f64 then Err ErrBatchImageSettlementCostExceedsHold
  else
    let hold := numeric (HoldAmount cmd) in
    let actual := numeric (ActualAmount cmd) in
    update_balances (UserID cmd) (fun u => Qle_bool hold (row_frozen u))
      (fun u => (row_balance u + excess hold actual - excess actual hold)%Q) (fun u => (row_frozen u - hold)%Q)
      frozen_insufficient d.

Definition batchImageHoldClaimExists (holdRequestID : string) (apiKeyID : Z) (d : billing_db) : bool :=
  bool_decide (is_Some (dedup d !! (holdRequestID, apiKeyID))) ||
  bool_decide (is_Some (dedup_archive d !! (holdRequestID, apiKeyID))).

Definition releaseUsageBillingBatchImageBalance (cmd : BatchImageBalanceHoldCommand) (d : billing_db)
    : outcome (BatchImageBalanceHoldResult * billing_db) error :=
  if (HoldAmount cmd <=? f64_zero)%f64 then no_money d
  else if negb (batchImageHoldClaimExists (BatchImageHoldRequestID (BatchID cmd)) (APIKeyID cmd) d) then no_money d
  else
    let hold := numeric (HoldAmount cmd) in
    update_balances (UserID cmd) (fun u => Qle_bool hold (row_frozen u))
      (fun u => (row_balance u + hold)%Q) (fun u => (row_frozen u - hold)%Q) frozen_insufficient d.

(** One transaction; an error and a claim already made roll it back. *)
Definition applyBatchImageBalanceHold (cmd : BatchImageBalanceHoldCommand)
    (apply : BatchImageBalanceHoldCommand -> billing_db -> outcome (BatchImageBalanceHoldResult * billing_db) error)
    (d : billing_db) : outcome BatchImageBalanceHoldResult error * billing_db :=
  let cmd := Normalize cmd in
  if RequestID cmd =s "" then (Err ErrUsageBillingRequestIDRequired, d)
  else
    match claimUsageBillingRequest (RequestID cmd) (APIKeyID cmd) (RequestFingerprint cmd) d with
    | (Err e, _) => (Err e, d)
    | (Ok false, _) => (Ok (HoldResult false None None), d)
    | (Ok true, d1) =>
        match apply cmd d1 with
        | Err e => (Err e, d)
        | Ok (result, d2) => (Ok result, d2)
        end
    end.

Definition ReserveBatchImageBalance (cmd : BatchImageBalanceHoldCommand) (d : billing_db) :=
  applyBatchImageBalanceHold cmd reserveUsageBillingBatchImageBalance d.
Definition CaptureBatchImageBalance (cmd : BatchImageBalanceHoldCommand) (d : billing_db) :=
  applyBatchImageBalanceHold cmd captureUsageBillingBatchImageBalance d.
Definition ReleaseBatchImageBalance (cmd : BatchImageBalanceHoldCommand) (d : billing_db) :=
  applyBatchImageBalanceHold cmd releaseUsageBillingBatchImageBalance d.

(** [CleanupUsageBillingDedup] ([dashboard_aggregation_repo.go]) moves a batch
    of old claims to the archive. *)
Definition CleanupUsageBillingDedup (victims : gset (string * Z)) (d : billing_db) : billing_db :=
  let moved := filter (fun e => e.1 ∈ victims) (dedup d) in
  d <| dedup := filter (fun e => e.1 ∉ victims) (dedup d) |> <| dedup_archive := dedup_archive d ∪ moved |>.

(** *** The ledger

    Any sequence of hold operations and clean-ups, with the record of the
    operations that took effect. *)
Inductive hold_kind := Reserve | Capture | Release.

Inductive billing_op :=
| Hold (kind : hold_kind) (cmd : BatchImageBalanceHoldCommand)
| Archive (victims : gset (string * Z)).

Definition hold_apply (kind : hold_kind) : BatchImageBalanceHoldCommand -> billing_db ->
    outcome (BatchImageBalanceHoldResult * billing_db) error :=
  match kind with
  | Reserve => reserveUsageBillingBatchImageBalance
  | Capture => captureUsageBillingBatchImageBalance
  | Release => releaseUsageBillingBatchImageBalance
  end.

Record entry := Entry { e_kind : hold_kind; e_cmd : BatchImageBalanceHoldCommand; e_moved : bool }.

Definition billing_step (op : billing_op) (s : billing_db * list entry) : billing_db * list entry :=
  match op with
  | Archive victims => (CleanupUsageBillingDedup victims s.1, s.2)
  | Hold kind cmd =>
      match applyBatchImageBalanceHold cmd (hold_apply kind) s.1 with
      | (Ok r, d) => (d, if Applied r then s.2 ++ [Entry kind (Normalize cmd) (bool_decide (is_Some (NewBalance r)))] else s.2)
      | (Err _, d) => (d, s.2)
      end
  end.

Definition entry_key (e : entry) : string * Z := (RequestID (e_cmd e), APIKeyID (e_cmd e)).
Definition hold_key (e : entry) : string * Z := (BatchImageHoldRequestID (BatchID (e_cmd e)), APIKeyID (e_cmd e)).

(** What an entry charges to a user: the captured amount. *)
Definition charge (uid : Z) (e : entry) : Q :=
  match e_kind e with
  | Capture => if e_moved e && (UserID (e_cmd e) =? uid) then numeric (ActualAmount (e_cmd e)) else 0
  | _ => 0
  end%Q.

Definition charges (uid : Z) (log : list entry) : Q := foldr (fun e acc => charge uid e + acc)%Q 0%Q log.

(** A user's money, available and frozen. *)
Definition wealth (uid : Z) (d : billing_db) : Q :=
  match users d !! uid with Some u => row_balance u + row_frozen u | None => 0 end%Q.

(** Amounts of at most eight decimals. *)
Definition on_scale (x : float64) : Prop := exists z, (numeric x == z # (10 ^ 8))%Q.
Definition entry_on_scale (e : entry) : Prop := on_scale (HoldAmount (e_cmd e)) /\ on_scale (ActualAmount (e_cmd e)).

Context (numeric_pos : forall x, (x <=? f64_zero)%f64 = false -> (0 <= numeric x)%Q).

Definition claimed (d : billing_db) : gset (string * Z) := dom (dedup d) ∪ dom (dedup_archive d).

Record ledger_ok (uid : Z) (d0 : billing_db) (s : billing_db * list entry) : Prop := {
  lo_claimed : claimed s.1 = list_to_set (entry_key <$> s.2);
  lo_nodup : NoDup (entry_key <$> s.2);
  lo_reserved : forall l1 e l2, s.2 = l1 ++ e :: l2 -> e_kind e = Release -> e_moved e = true -> hold_key e ∈ entry_key <$> l1;
  lo_frozen : forall v u, users s.1 !! v = Some u -> 0 <= frozen_balance u;
  lo_wealth : (- (Z.of_nat (length s.2) # (10 ^ 8)) <=
               wealth uid s.1 - (wealth uid d0 - charges uid s.2) <= Z.of_nat (length s.2) # (10 ^ 8))%Q;
  lo_exact : Forall entry_on_scale s.2 -> (wealth uid s.1 == wealth uid d0 - charges uid s.2)%Q
}.

Lemma claim_new r k fp d d1 :
  claimUsageBillingRequest r k fp d = (Ok true, d1) ->
  (r, k) ∉ claimed d /\ d1 = d <| dedup := <[(r, k) := fp]> (dedup d) |>.
Proof.
  unfold claimUsageBillingRequest, claimed. cbn. intros H. branches_in H.
  split; [|done]. rewrite elem_of_union, !elem_of_dom. intros [[? ?]|[? ?]]; congruence.
Qed.

Lemma update_balances_inv uid guard bal fro e d r d2 :
  update_balances uid guard bal fro e d = Ok (r, d2) ->
  exists u b f, users d !! uid = Some u /\ guard u = true /\ numeric_store 8 (bal u) = Some b /\
    numeric_store 8 (fro u) = Some f /\ is_Some (NewBalance r) /\ Applied r = true /\
    d2 = d <| users := <[uid := User b f false]> (users d) |>.
Proof. unfold update_balances. intros H. branches_in H. eauto 10. Qed.

Lemma excess_difference x y : (excess x y - excess y x == x - y)%Q.
Proof.
  unfold excess. destruct (Qle_bool x y) eqn:H1, (Qle_bool y x) eqn:H2.
  - apply Qle_bool_iff in H1, H2. pose proof (Qle_antisym _ _ H1 H2) as ->. ring.
  - ring.
  - ring.
  - exfalso. destruct (Qle_bool_iff x y) as [_ A]. destruct (Qle_bool_iff y x) as [_ B].
    destruct (Qlt_le_dec x y) as [H|H]; [apply Qlt_le_weak in H; rewrite (A H) in H1|rewrite (B H) in H2]; done.
Qed.

(** What an operation that moves money does: the row of its user gets the
    rounded [bq] and [fq], which add up to the old amounts less the charge. *)
Definition moves (kind : hold_kind) (cmd : BatchImageBalanceHoldCommand) (d d2 : billing_db) : Prop :=
  exists u b f bq fq,
    users d !! UserID cmd = Some u /\ numeric_store 8 bq = Some b /\ numeric_store 8 fq = Some f /\
    d2 = d <| users := <[UserID cmd := User b f false]> (users d) |> /\
    ((0 <= row_frozen u)%Q -> (0 <= fq)%Q) /\
    (bq + fq == row_balance u + row_frozen u - charge (UserID cmd) (Entry kind cmd true))%Q /\
    (entry_on_scale (Entry kind cmd true) -> exists x y, (bq == x # (10 ^ 8))%Q /\ (fq == y # (10 ^ 8))%Q).

Lemma row_scale_add x z q : (q == z # (10 ^ 8))%Q -> (numeric_value 8 x + q == (x + z) # (10 ^ 8))%Q.
Proof. intros ->. unfold numeric_value. rewrite <- Qinv_plus_distr. reflexivity. Qed.

Lemma row_scale_sub x z q : (q == z # (10 ^ 8))%Q -> (numeric_value 8 x - q == (x - z) # (10 ^ 8))%Q.
Proof. intros ->. unfold numeric_value. unfold Qeq, Qminus, Qplus, Qopp. cbn [Qnum Qden]. lia. Qed.

Lemma hold_claim_exists r k d : batchImageHoldClaimExists r k d = true -> (r, k) ∈ claimed d.
Proof.
  unfold batchImageHoldClaimExists, claimed. rewrite elem_of_union, !elem_of_dom.
  intros [H|H]%orb_true_iff; apply bool_decide_eq_true in H; eauto.
Qed.

Lemma reserve_moves cmd d r d2 :
  update_balances (UserID cmd) (fun u => Qle_bool (numeric (HoldAmount cmd)) (row_balance u))
    (fun u => (row_balance u - numeric (HoldAmount cmd))%Q) (fun u => (row_frozen u + numeric (HoldAmount cmd))%Q)
    ErrBatchImageInsufficientBalance d = Ok (r, d2) ->
  (HoldAmount cmd <=? f64_zero)%f64 = false -> moves Reserve cmd d d2.
Proof.
  intros (u & b & f & Hu & Hg & Hb & Hf & _ & _ & ->)%update_balances_inv Hp.
  exists u, b, f. do 2 eexists. do 4 (split; [eassumption || reflexivity|]). repeat split.
  - intros H0. pose proof (numeric_pos _ Hp). lra.
  - cbn. ring.
  - intros [[z Hz] _]. cbn in Hz. do 2 eexists. split; [by apply row_scale_sub|by apply row_scale_add].
Qed.

Lemma capture_moves cmd d r d2 :
  update_balances (UserID cmd) (fun u => Qle_bool (numeric (HoldAmount cmd)) (row_frozen u))
    (fun u => (row_balance u + excess (numeric (HoldAmount cmd)) (numeric (ActualAmount cmd))
               - excess (numeric (ActualAmount cmd)) (numeric (HoldAmount cmd)))%Q)
    (fun u => (row_frozen u - numeric (HoldAmount cmd))%Q) frozen_insufficient d = Ok (r, d2) ->
  moves Capture cmd d d2.
Proof.
  intros (u & b & f & Hu & Hg & Hb & Hf & _ & _ & ->)%update_balances_inv.
  pose proof (excess_difference (numeric (HoldAmount cmd)) (numeric (ActualAmount cmd))) as Hx.
  exists u, b, f. do 2 eexists. do 4 (split; [eassumption || reflexivity|]). repeat split.
  - intros _. apply Qle_bool_iff in Hg. lra.
  - cbn. rewrite Z.eqb_refl. lra.
  - intros [[z Hz] [y Hy]]. cbn in Hz, Hy. exists (balance u + (z - y)), (frozen_balance u - z). split.
    + rewrite <- (row_scale_add (balance u) (z - y) (numeric (HoldAmount cmd) - numeric (ActualAmount cmd))).
      * unfold row_balance. lra.
      * rewrite Hz. by apply (row_scale_sub z y).
    + by apply row_scale_sub.
Qed.

Lemma release_moves cmd d r d2 :
  update_balances (UserID cmd) (fun u => Qle_bool (numeric (HoldAmount cmd)) (row_frozen u))
    (fun u => (row_balance u + numeric (HoldAmount cmd))%Q) (fun u => (row_frozen u - numeric (HoldAmount cmd))%Q)
    frozen_insufficient d = Ok (r, d2) ->
  moves Release cmd d d2.
Proof.
  intros (u & b & f & Hu & Hg & Hb & Hf & _ & _ & ->)%update_balances_inv.
  exists u, b, f. do 2 eexists. do 4 (split; [eassumption || reflexivity|]). repeat split.
  - intros _. apply Qle_bool_iff in Hg. lra.
  - cbn. ring.
  - intros [[z Hz] _]. cbn in Hz. do 2 eexists. split; [by apply row_scale_add|by apply row_scale_sub].
Qed.

Lemma hold_apply_inv kind cmd d r d2 :
  hold_apply kind cmd d = Ok (r, d2) ->
  Applied r = true /\
  (NewBalance r = None /\ d2 = d \/
   is_Some (NewBalance r) /\ moves kind cmd d d2 /\
   (kind = Release -> (BatchImageHoldRequestID (BatchID cmd), APIKeyID cmd) ∈ claimed d)).
Proof.
  assert (Hup : forall guard bal fro e, update_balances (UserID cmd) guard bal fro e d = Ok (r, d2) ->
            Applied r = true /\ is_Some (NewBalance r)).
  { intros guard bal fro e (u & b & f & _ & _ & _ & _ & ? & ? & _)%update_balances_inv. done. }
  destruct kind; cbn; unfold reserveUsageBillingBatchImageBalance, captureUsageBillingBatchImageBalance,
    releaseUsageBillingBatchImageBalance, no_money; intros H.
  - destruct (HoldAmount cmd <=? f64_zero)%f64 eqn:Hp; [simplify_eq; auto|].
    destruct (Hup _ _ _ _ H) as [Ha Hn]. split; [done|]. right. split; [done|]. split; [by eapply reserve_moves|done].
  - destruct ((HoldAmount cmd <=? f64_zero) && (ActualAmount cmd <=? f64_zero))%f64; [simplify_eq; auto|].
    destruct (batchImageCostEpsilon <? ActualAmount cmd - HoldAmount cmd)%f64; [done|].
    destruct (Hup _ _ _ _ H) as [Ha Hn]. split; [done|]. right. split; [done|].
    split; [by eapply capture_moves|done].
  - destruct (HoldAmount cmd <=? f64_zero)%f64; [simplify_eq; auto|].
    destruct (batchImageHoldClaimExists _ _ d) eqn:Hc; cbn in H; [|simplify_eq; auto].
    destruct (Hup _ _ _ _ H) as [Ha Hn]. split; [done|]. right. split; [done|].
    split; [by eapply release_moves|intros _; by apply hold_claim_exists].
Qed.
(** A hold operation of the ledger either changes nothing, or is a new entry
    whose claim is made and whose money, if any, is moved. *)
Definition effect (kind : hold_kind) (cmd : BatchImageBalanceHoldCommand) (d : billing_db) (e : entry) (d' : billing_db) : Prop :=
  exists d1, e_kind e = kind /\ e_cmd e = Normalize cmd /\ entry_key e ∉ claimed d /\
    d1 = d <| dedup := <[entry_key e := RequestFingerprint (Normalize cmd)]> (dedup d) |> /\
    (e_moved e = false /\ d' = d1 \/
     e_moved e = true /\ moves kind (Normalize cmd) d1 d' /\ (kind = Release -> hold_key e ∈ claimed d1)).

Lemma billing_step_hold kind cmd d log :
  billing_step (Hold kind cmd) (d, log) = (d, log) \/
  exists e d', billing_step (Hold kind cmd) (d, log) = (d', log ++ [e]) /\ effect kind cmd d e d'.
Proof.
  cbn. unfold applyBatchImageBalanceHold. set (c := Normalize cmd).
  destruct (RequestID c =s ""); [by left|].
  destruct (claimUsageBillingRequest _ _ _ d) as [[[|]|x] d1] eqn:Hc; [|by left|by left].
  destruct (hold_apply kind c d1) as [[r d2]|x] eqn:Ha; [|by left].
  apply claim_new in Hc as [Hnew Hd1]. apply hold_apply_inv in Ha as [Hap Hm]. rewrite Hap. right.
  eexists _, _. split; [reflexivity|]. exists d1. cbn. do 3 (split; [done|]). split; [done|].
  destruct Hm as [[-> ->]|(Hs & Hm & Hr)]; [left|right]; [done|]. rewrite bool_decide_true by done. eauto.
Qed.

Lemma wealth_claim uid d f : wealth uid (d <| dedup := f |>) = wealth uid d.
Proof. done. Qed.

Lemma wealth_other uid kind cmd d d' : moves kind cmd d d' -> UserID cmd <> uid -> wealth uid d' = wealth uid d.
Proof.
  intros (u & b & f & bq & fq & _ & _ & _ & -> & _) Hne. unfold wealth. cbn. by rewrite lookup_insert_ne.
Qed.

(** A move changes its user's wealth by the charge, up to one unit. *)
Lemma wealth_moves kind cmd d d' :
  moves kind cmd d d' ->
  (- (1 # (10 ^ 8)) <= wealth (UserID cmd) d' - (wealth (UserID cmd) d - charge (UserID cmd) (Entry kind cmd true)) <= 1 # (10 ^ 8))%Q /\
  (entry_on_scale (Entry kind cmd true) ->
   (wealth (UserID cmd) d' == wealth (UserID cmd) d - charge (UserID cmd) (Entry kind cmd true))%Q).
Proof.
  intros (u & b & f & bq & fq & Hu & Hb & Hf & -> & _ & Hsum & Hex).
  set (d' := d <| users := _ |>). assert (Hd' : wealth (UserID cmd) d' = (numeric_value 8 b + numeric_value 8 f)%Q)
    by (unfold wealth; cbn; by rewrite lookup_insert_eq).
  rewrite Hd'. assert (Hd : wealth (UserID cmd) d = (row_balance u + row_frozen u)%Q) by (unfold wealth; by rewrite Hu).
  rewrite Hd. split.
  - pose proof (stored_within 8 bq b Hb) as [? ?]. pose proof (stored_within 8 fq f Hf) as [? ?].
    assert (Hunit : (1 # (10 ^ 8) == (1 # (2 * 10 ^ 8)) + (1 # (2 * 10 ^ 8)))%Q) by reflexivity. rewrite Hunit. lra.
  - intros (x & y & Hx & Hy)%Hex. rewrite (stored_exact 8 bq b Hb x Hx), (stored_exact 8 fq f Hf y Hy).
    unfold numeric_value. rewrite <- Hx, <- Hy. exact Hsum.
Qed.

Lemma claimed_insert k f d : claimed (d <| dedup := <[k := f]> (dedup d) |>) = {[ k ]} ∪ claimed d.
Proof. clear. unfold claimed. cbn. rewrite dom_insert_L. set_solver. Qed.

Lemma claimed_archive v d : claimed (CleanupUsageBillingDedup v d) = claimed d.
Proof.
  unfold claimed, CleanupUsageBillingDedup. cbn. rewrite dom_union_L. apply set_eq. intros k.
  rewrite !elem_of_union, !elem_of_dom. split.
  - intros [H|[H|H]]; [left; by eapply filter_keys|by right|left; by eapply filter_keys].
  - intros [[f Hf]|H]; [|by right; left]. destruct (decide (k ∈ v)).
    + right. right. exists f. by apply map_lookup_filter_Some.
    + left. exists f. by apply map_lookup_filter_Some.
Qed.

Lemma claimed_moves kind cmd d d' : moves kind cmd d d' -> claimed d' = claimed d.
Proof. by intros (u & b & f & bq & fq & _ & _ & _ & -> & _). Qed.

Lemma effect_claimed kind cmd d e d' : effect kind cmd d e d' -> claimed d' = {[ entry_key e ]} ∪ claimed d.
Proof.
  intros (d1 & _ & _ & _ & Hd1 & [[_ ->]|(_ & Hm & _)]); [|rewrite (claimed_moves _ _ _ _ Hm)]; by rewrite Hd1, claimed_insert.
Qed.

Lemma effect_frozen kind cmd d e d' :
  effect kind cmd d e d' -> (forall v u, users d !! v = Some u -> 0 <= frozen_balance u) ->
  forall v u, users d' !! v = Some u -> 0 <= frozen_balance u.
Proof.
  intros (d1 & _ & _ & _ & Hd1 & [[_ ->]|(_ & Hm & _)]) Hf v u; [rewrite Hd1; apply Hf|].
  destruct Hm as (u0 & b & f & bq & fq & Hu & _ & Hst & -> & Hnn & _). cbn. rewrite lookup_insert_Some.
  intros [[_ <-]|[_ Hv]]; [|rewrite Hd1 in Hv; by eapply Hf].
  cbn. apply (stored_nonneg 8 fq f Hst), Hnn. rewrite Hd1 in Hu. pose proof (Hf _ _ Hu).
  unfold row_frozen, numeric_value, Qle. cbn [Qnum Qden]. lia.
Qed.

Lemma effect_wealth uid kind cmd d e d' :
  effect kind cmd d e d' ->
  (- (1 # (10 ^ 8)) <= wealth uid d' - (wealth uid d - charge uid e) <= 1 # (10 ^ 8))%Q /\
  (entry_on_scale e -> (wealth uid d' == wealth uid d - charge uid e)%Q).
Proof.
  intros (d1 & Hk & He & _ & Hd1 & Hm). assert (Hw : wealth uid d1 = wealth uid d) by by rewrite Hd1.
  assert (H0 : charge uid e = 0%Q -> wealth uid d' = wealth uid d ->
    (- (1 # (10 ^ 8)) <= wealth uid d' - (wealth uid d - charge uid e) <= 1 # (10 ^ 8))%Q /\
    (entry_on_scale e -> (wealth uid d' == wealth uid d - charge uid e)%Q)).
  { intros -> ->. assert (H1 : (0 <= 1 # (10 ^ 8))%Q) by by unfold Qle.
    split; [split|intros _]; lra. }
  destruct Hm as [[Hmv ->]|(Hmv & Hm & _)].
  - apply H0; [|done]. unfold charge. rewrite Hmv. by destruct (e_kind e).
  - destruct (decide (UserID (Normalize cmd) = uid)) as [<-|Hne].
    + rewrite <- Hw. apply wealth_moves in Hm. destruct e as [k c m]. cbn in Hk, He, Hmv. subst. exact Hm.
    + apply H0; [|rewrite <- Hw; by eapply wealth_other]. unfold charge.
      rewrite He. destruct (Z.eqb_spec (UserID (Normalize cmd)) uid); [done|]. rewrite andb_false_r. by destruct (e_kind e).
Qed.

Lemma charges_snoc uid log e : (charges uid (log ++ [e]) == charges uid log + charge uid e)%Q.
Proof.
  unfold charges. rewrite foldr_app. cbn. induction log as [|x log IH]; cbn; [ring|]. rewrite IH. ring.
Qed.

Lemma units_succ n : ((Z.of_nat n # (10 ^ 8)) + (1 # (10 ^ 8)) == Z.of_nat (n + 1) # (10 ^ 8))%Q.
Proof. rewrite Qinv_plus_distr. by rewrite Nat2Z.inj_add. Qed.

Lemma ledger_start uid us :
  (forall v u, us !! v = Some u -> 0 <= frozen_balance u) -> ledger_ok uid (Billing us ∅ ∅) (Billing us ∅ ∅, []).
Proof.
  intros Hf. assert (Hch : charges uid [] = 0%Q) by done. split; cbn [fst snd length Z.of_nat].
  - unfold claimed. cbn. by rewrite !dom_empty_L, union_empty_l_L.
  - constructor.
  - by intros [].
  - done.
  - rewrite Hch. assert (Hz : (0 # (10 ^ 8) == 0)%Q) by reflexivity.
    change (Z.of_nat 0) with 0. rewrite Hz. lra.
  - rewrite Hch. intros _. ring.
Qed.

(** A release does not claim the id under which its batch's hold is claimed. *)
Definition own_id (op : billing_op) : Prop :=
  match op with
  | Hold Release cmd => RequestID (Normalize cmd) <> BatchImageHoldRequestID (BatchID (Normalize cmd))
  | _ => True
  end.

Lemma ledger_step uid d0 op s : own_id op -> ledger_ok uid d0 s -> ledger_ok uid d0 (billing_step op s).
Proof.
  destruct s as [d log]. intros Hown [Hc Hn Hr Hf Hw He]. cbn [fst snd] in *. destruct op as [kind cmd|v].
  - destruct (billing_step_hold kind cmd d log) as [->|(e & d' & -> & Hx)]; [by split|].
    pose proof (effect_wealth uid _ _ _ _ _ Hx) as [Hb Hex]. pose proof (effect_claimed _ _ _ _ _ Hx) as Hcl.
    assert (Hnew : entry_key e ∉ entry_key <$> log).
    { destruct Hx as (d1 & _ & _ & Hnew & _). rewrite Hc, elem_of_list_to_set in Hnew. done. }
    split; cbn [fst snd].
    + rewrite Hcl, Hc, fmap_app, list_to_set_app_L. set_solver.
    + rewrite fmap_app. apply NoDup_app. split; [done|]. split; [|apply NoDup_singleton].
      intros k Hk Hk'. cbn in Hk'. by apply list_elem_of_singleton in Hk' as ->.
    + intros l1 e' l2 Hl Hk Hm. destruct (decide (l2 = [])) as [->|Hne].
      * apply app_inj_tail in Hl as [<- <-]. destruct Hx as (d1 & Hkd & He' & _ & Hd1 & [[? _]|(_ & _ & Hrel)]); [congruence|].
        rewrite Hkd in Hk. specialize (Hrel Hk).
        assert (Hown' : RequestID (Normalize cmd) <> BatchImageHoldRequestID (BatchID (Normalize cmd))) by (by rewrite Hk in Hown). rewrite Hd1, claimed_insert, Hc in Hrel.
        apply elem_of_union in Hrel as [Heq|Hin]; [|by apply elem_of_list_to_set in Hin].
        apply elem_of_singleton in Heq. unfold hold_key, entry_key in Heq. rewrite He' in Heq.
        exfalso. apply Hown'. congruence.
      * destruct (exists_last Hne) as (l2' & x & ->). rewrite app_comm_cons, app_assoc in Hl.
        apply app_inj_tail in Hl as [Hl _]. by eapply Hr.
    + by eapply effect_frozen.
    + rewrite length_app. cbn [length]. rewrite <- units_succ, charges_snoc. lra.
    + intros [Hs1 Hs2]%Forall_app. rewrite Forall_singleton in Hs2. rewrite charges_snoc, (Hex Hs2), (He Hs1). ring.
  - split; cbn [fst snd billing_step]; [by rewrite claimed_archive|done|done|done|exact Hw|exact He].
Qed.

(** A claimed request id has no effect any more, and stays claimed. *)
Lemma claimed_no_effect kind cmd d :
  (RequestID (Normalize cmd), APIKeyID cmd) ∈ claimed d ->
  snd (applyBatchImageBalanceHold cmd (hold_apply kind) d) = d.
Proof.
  intros Hc. assert (Hk : APIKeyID (Normalize cmd) = APIKeyID cmd) by (unfold Normalize; by case_match).
  unfold applyBatchImageBalanceHold. set (c := Normalize cmd) in *. destruct (RequestID c =s ""); [done|].
  destruct (claimUsageBillingRequest _ _ _ d) as [[[|]|x] d1] eqn:Hcl; [|done|done].
  apply claim_new in Hcl as [Hn _]. by rewrite Hk in Hn.
Qed.

Lemma claimed_step op s : claimed s.1 ⊆ claimed (billing_step op s).1.
Proof.
  destruct s as [d log], op as [kind cmd|v].
  - destruct (billing_step_hold kind cmd d log) as [->|(e & d' & -> & Hx)]; [done|].
    cbn. rewrite (effect_claimed _ _ _ _ _ Hx). set_solver.
  - cbn. by rewrite claimed_archive.
Qed.

Lemma claimed_run ops s : claimed s.1 ⊆ claimed (run billing_step ops s).1.
Proof.
  revert s. induction ops as [|op ops IH]; intros s; [done|]. cbn. etrans; [apply (claimed_step op)|apply IH].
Qed.

Lemma ledger_run uid d0 ops s : Forall own_id ops -> ledger_ok uid d0 s -> ledger_ok uid d0 (run billing_step ops s).
Proof.
  intros Ho. revert s. induction Ho as [|op ops Hop _ IH]; intros s Hs; [done|]. by apply IH, ledger_step.
Qed.

(** C17: Balance holds keep every user's money.  Start from any users and no claims
    and let any holds, captures, releases and archivals happen, with any
    commands and any repetitions (releases under an id of their own, as the
    code makes it).  Then a request id takes effect at most once; a release
    gives money back only for a batch whose hold was made before; no frozen
    balance becomes negative; and a user's available plus frozen money is what
    it was at the start less the captured amounts, up to a rounding of 10^-8
    for each operation, and exactly when the amounts have at most eight
    decimals. *)
Theorem holds_conserve_money us ops uid :
  (forall v u, us !! v = Some u -> 0 <= frozen_balance u) -> Forall own_id ops ->
  let start := Billing us ∅ ∅ in
  let s := run billing_step ops (start, []) in
  NoDup (entry_key <$> s.2) /\
  (forall l1 e l2, s.2 = l1 ++ e :: l2 -> e_kind e = Release -> e_moved e = true -> hold_key e ∈ entry_key <$> l1) /\
  (forall v u, users s.1 !! v = Some u -> 0 <= frozen_balance u) /\
  (- (Z.of_nat (length s.2) # (10 ^ 8)) <= wealth uid s.1 - (wealth uid start - charges uid s.2) <=
   Z.of_nat (length s.2) # (10 ^ 8))%Q /\
  (Forall entry_on_scale s.2 -> (wealth uid s.1 == wealth uid start - charges uid s.2)%Q).
Proof.
  intros Hf Ho start s. by destruct (ledger_run uid start ops (start, []) Ho (ledger_start uid us Hf)).
Qed.

Lemma claim_fresh r k fp d :
  (r, k) ∉ claimed d -> claimUsageBillingRequest r k fp d = (Ok true, d <| dedup := <[(r, k) := fp]> (dedup d) |>).
Proof.
  unfold claimUsageBillingRequest, claimed. rewrite not_elem_of_union, !not_elem_of_dom. intros [H1 H2].
  rewrite H1. cbn. by rewrite H2.
Qed.

Lemma update_balances_ok uid guard bal fro e d u b f :
  users d !! uid = Some u -> deleted u = false -> guard u = true ->
  numeric_store 8 (bal u) = Some b -> numeric_store 8 (fro u) = Some f ->
  exists r, update_balances uid guard bal fro e d = Ok (r, d <| users := <[uid := User b f false]> (users d) |>).
Proof. intros Hu Hd Hg Hb Hf. unfold update_balances. rewrite Hu, Hd, Hg, Hb, Hf. by eexists. Qed.

(** A capture whose id is new, of a hold that is frozen. *)
Lemma capture_succeeds cmd d u b f :
  let c := Normalize cmd in
  RequestID c <> "" -> (RequestID c, APIKeyID c) ∉ claimed d ->
  ((HoldAmount c <=? f64_zero) && (ActualAmount c <=? f64_zero))%f64 = false ->
  (batchImageCostEpsilon <? ActualAmount c - HoldAmount c)%f64 = false ->
  users d !! UserID c = Some u -> deleted u = false -> (numeric (HoldAmount c) <= row_frozen u)%Q ->
  numeric_store 8 (row_balance u + excess (numeric (HoldAmount c)) (numeric (ActualAmount c))
                   - excess (numeric (ActualAmount c)) (numeric (HoldAmount c)))%Q = Some b ->
  numeric_store 8 (row_frozen u - numeric (HoldAmount c))%Q = Some f ->
  exists r, CaptureBatchImageBalance cmd d =
    (Ok r, d <| dedup := <[(RequestID c, APIKeyID c) := RequestFingerprint c]> (dedup d) |>
             <| users := <[UserID c := User b f false]> (users d) |>).
Proof.
  intros c Hid Hnew Hm Hx Hu Hd Hf Hb Hfr. unfold CaptureBatchImageBalance, applyBatchImageBalanceHold. fold c.
  destruct (String.eqb_spec (RequestID c) ""); [done|]. rewrite claim_fresh by done.
  unfold captureUsageBillingBatchImageBalance. rewrite Hm, Hx.
  set (d1 := d <| dedup := _ |>).
  destruct (update_balances_ok (UserID c) (fun u => Qle_bool (numeric (HoldAmount c)) (row_frozen u))
    (fun u => (row_balance u + excess (numeric (HoldAmount c)) (numeric (ActualAmount c))
               - excess (numeric (ActualAmount c)) (numeric (HoldAmount c)))%Q)
    (fun u => (row_frozen u - numeric (HoldAmount c))%Q) frozen_insufficient d1 u b f) as [r ->];
    [exact Hu|done|by apply Qle_bool_iff|done|done|]. by exists r.
Qed.
End repository.

(** ** Concrete runs *)

(** The decimal of at most ten places nearest to a float. *)
Definition decimal10 (x : float64) : Q := round_half_even (inject_Z (10 ^ 10) * f64_value x)%Q # (10 ^ 10).

Lemma decimal10_pos x : (x <=? f64_zero)%f64 = false -> (0 <= decimal10 x)%Q.
Proof.
  intros Hx. unfold decimal10, Qle. cbn [Qnum Qden]. rewrite Z.mul_0_l, Z.mul_1_r.
  assert (Hv : (0 <= f64_value x)%Q).
  { destruct x as [[]|[]| |[] m [|e|e]]; try done; unfold Qle; cbn [f64_value Qnum Qden inject_Z]; nia. }
  unfold round_half_even. set (n := Qnum _). assert (Hn : 0 <= n).
  { unfold n, Qle in *. cbn [Qnum Qden Qmult inject_Z] in *. nia. }
  assert (0 <= n / Zpos (Qden (inject_Z (10 ^ 10) * f64_value x)%Q)) by (apply Z.div_pos; lia).
  repeat case_match; lia.
Qed.

Definition no_hash (s : string) : string := s.

(** 10 dollars; a hold of 1.20, a capture of 0.90, the capture again and a
    release that comes too late. *)
Definition demo_hold (id : string) (hold actual : float64) : BatchImageBalanceHoldCommand :=
  HoldCommand (id +:+ "imgbatch_1") 7 "" "" 1 "imgbatch_1" hold actual.
Definition demo_ops : list billing_op :=
  [Hold Reserve (demo_hold "batch_image_hold:" (f64_of_ratio 12 10) f64_zero);
   Hold Capture (demo_hold "batch_image_capture:" (f64_of_ratio 12 10) (f64_of_ratio 9 10));
   Hold Capture (demo_hold "batch_image_capture:" (f64_of_ratio 12 10) (f64_of_ratio 9 10));
   Hold Release (demo_hold "batch_image_release:" (f64_of_ratio 12 10) f64_zero)].
Definition demo_users : gmap Z user_row := {[ 1 := User (10 * 10 ^ 8) 0 false ]}.

Lemma holds_conserve_money_witness :
  let s := run (billing_step decimal10 no_hash) demo_ops (Billing demo_users ∅ ∅, []) in
  users s.1 !! 1 = Some (User 910000000 0 false) /\ length s.2 = 2%nat /\
  (wealth 1 s.1 == wealth 1 (Billing demo_users ∅ ∅) - charges decimal10 1 s.2)%Q.
Proof.
  split; [vm_compute; reflexivity|]. split; [vm_compute; reflexivity|].
  refine (proj2 (proj2 (proj2 (proj2 (holds_conserve_money decimal10 no_hash decimal10_pos demo_users demo_ops 1 _ _)))) _).
  - intros v u H. unfold demo_users in H. apply lookup_singleton_Some in H as [_ <-]. cbn. lia.
  - unfold demo_ops. repeat (apply Forall_cons; split; [|]); try exact I; [|apply Forall_nil_2].
    vm_compute. discriminate.
  - assert (Hlog : snd (run (billing_step decimal10 no_hash) demo_ops (Billing demo_users ∅ ∅, []))
      = [Entry Reserve (Normalize no_hash (demo_hold "batch_image_hold:" (f64_of_ratio 12 10) f64_zero)) true;
         Entry Capture (Normalize no_hash (demo_hold "batch_image_capture:" (f64_of_ratio 12 10) (f64_of_ratio 9 10))) true])
      by (vm_compute; reflexivity).
    rewrite Hlog. apply Forall_cons; split; [|apply Forall_cons; split; [|apply Forall_nil_2]]; split.
    + exists 120000000. vm_compute. reflexivity.
    + exists 0. vm_compute. reflexivity.
    + exists 120000000. vm_compute. reflexivity.
    + exists 90000000. vm_compute. reflexivity.
Defined.
End UsageBilling.
