(* ===== verification/BatchImage.v ===== *)
(** * Batch image jobs: data, life cycle and tables

    The data of [service/batch_image.go] and the statements of
    [repository/batch_image_repo.go].  A job runs through the statuses of
    [CanTransitionBatchImageJob]; its row is changed by single SQL statements or
    by transactions that lock the row first, so each repository method is one
    atomic step on the tables.

    The record of a job has the columns that the services read or that a
    statement computes; columns that are only stored and shown (task name,
    parent, storage URIs, price components, currency, session) and the event
    log, which is only appended to, are left out. *)

From Stdlib Require Import QArith.
From S2P Require Import Prelude GoStrings GoFloat AppErrors.

Module BatchImage.
Export GoFloat AppErrors.
#[local] Open Scope Z_scope.

Definition BatchImageProviderGeminiAPI : string := "gemini_api".
Definition BatchImageProviderVertex : string := "vertex".

Definition BatchImageJobStatusCreated : string := "created".
Definition BatchImageJobStatusUploading : string := "uploading".
Definition BatchImageJobStatusSubmitted : string := "submitted".
Definition BatchImageJobStatusRunning : string := "running".
Definition BatchImageJobStatusIndexing : string := "indexing".
Definition BatchImageJobStatusSettling : string := "settling".
Definition BatchImageJobStatusCompleted : string := "completed".
Definition BatchImageJobStatusFailed : string := "failed".
Definition BatchImageJobStatusCancelled : string := "cancelled".
Definition BatchImageJobStatusOutputDeleted : string := "output_deleted".

Definition BatchImageItemStatusPending : string := "pending".
Definition BatchImageItemStatusSuccess : string := "success".
Definition BatchImageItemStatusFailed : string := "failed".

Definition ErrBatchImageJobNotFound := New 404 "BATCH_IMAGE_JOB_NOT_FOUND" "batch image job not found".
Definition ErrBatchImageJobExists := New 409 "BATCH_IMAGE_JOB_EXISTS" "batch image job already exists".
Definition ErrBatchImageItemExists := New 409 "BATCH_IMAGE_ITEM_EXISTS" "batch image item already exists".
Definition ErrBatchImageAlreadyQueued := New 409 "BATCH_IMAGE_ALREADY_QUEUED" "batch image job is already queued".
Definition ErrBatchImageInvalidTransition :=
  New 400 "BATCH_IMAGE_INVALID_TRANSITION" "invalid batch image job status transition".
Definition ErrBatchImageInvalidProvider := New 400 "BATCH_IMAGE_INVALID_PROVIDER" "invalid batch image provider".
Definition ErrBatchImageIndexStateConflict :=
  New 409 "BATCH_IMAGE_INDEX_STATE_CONFLICT" "batch image job is no longer in indexing state".
Definition ErrBatchImageSettlementInvalidStatus :=
  New 400 "BATCH_IMAGE_SETTLEMENT_INVALID_STATUS" "batch image job is not ready for settlement".
Definition ErrBatchImageSettlementManifestConflict :=
  New 409 "BATCH_IMAGE_SETTLEMENT_MANIFEST_CONFLICT" "batch image settlement manifest hash conflict".
Definition ErrBatchImageAlreadySettled := New 409 "BATCH_IMAGE_ALREADY_SETTLED" "batch image job is already settled".
Definition ErrBatchImageRecordDeleteNotReady :=
  New 409 "BATCH_IMAGE_RECORD_DELETE_NOT_READY" "batch image record can only be deleted after the job finishes".

Definition IsSupportedBatchImageProvider (provider : string) : bool :=
  (provider =s BatchImageProviderGeminiAPI) || (provider =s BatchImageProviderVertex).

Definition IsTerminalBatchImageJobStatus (status : string) : bool :=
  (status =s BatchImageJobStatusCompleted) || (status =s BatchImageJobStatusFailed) ||
  (status =s BatchImageJobStatusCancelled) || (status =s BatchImageJobStatusOutputDeleted).

(** The map [allowed] of the code. *)
Definition allowed_transitions : gmap string (gset string) :=
  list_to_map [
    (BatchImageJobStatusCreated,
      {[ BatchImageJobStatusUploading; BatchImageJobStatusSubmitted; BatchImageJobStatusCancelled ]});
    (BatchImageJobStatusUploading, {[ BatchImageJobStatusSubmitted; BatchImageJobStatusCancelled ]});
    (BatchImageJobStatusSubmitted,
      {[ BatchImageJobStatusRunning; BatchImageJobStatusIndexing; BatchImageJobStatusFailed; BatchImageJobStatusCancelled ]});
    (BatchImageJobStatusRunning,
      {[ BatchImageJobStatusRunning; BatchImageJobStatusIndexing; BatchImageJobStatusFailed; BatchImageJobStatusCancelled ]});
    (BatchImageJobStatusIndexing, {[ BatchImageJobStatusSettling; BatchImageJobStatusFailed ]});
    (BatchImageJobStatusSettling, {[ BatchImageJobStatusCompleted ]})
  ].

Definition CanTransitionBatchImageJob (from to : string) : bool :=
  if (from =s "") || (to =s "") then false
  else if IsTerminalBatchImageJobStatus from then
    (to =s BatchImageJobStatusOutputDeleted) && negb (from =s BatchImageJobStatusOutputDeleted) &&
    ((from =s BatchImageJobStatusCompleted) || (from =s BatchImageJobStatusFailed) || (from =s BatchImageJobStatusCancelled))
  else if to =s BatchImageJobStatusFailed then true
  else match allowed_transitions !! from with
  | Some tos => bool_decide (to ∈ tos)
  | None => false
  end.

Record BatchImageJob := Job {
  ID : Z;
  BatchID : string;
  UserID : Z;
  APIKeyID : option Z;
  AccountID : option Z;
  Provider : string;
  Model : string;
  Status : string;
  ProviderJobName : option string;
  ProviderInputRef : option string;
  ProviderOutputRef : option string;
  ItemCount : Z;
  SuccessCount : Z;
  FailCount : Z;
  EstimatedCost : float64;
  HoldAmount : option float64;
  ActualCost : option float64;
  BillableUnitPrice : float64;
  PricingSnapshotVersion : Z;
  IdempotencyKey : option string;
  RequestHash : option string;
  ManifestHash : option string;
  RetryCount : Z;
  Version : Z;
  OutputExpiresAt : option Time;
  InputDeletedAt : option Time;
  OutputDeletedAt : option Time;
  DownloadedAt : option Time;
  UserDeletedAt : option Time;
  LastErrorCode : option string;
  LastErrorMessage : option string;
  UpdatedAt : Time;
  SubmittedAt : option Time;
  StartedAt : option Time;
  FinishedAt : option Time;
  SettledAt : option Time
}.
#[export] Instance job_struct : Struct BatchImageJob := fun j =>
  Job (ID j) (BatchID j) (UserID j) (APIKeyID j) (AccountID j) (Provider j) (Model j) (Status j) (ProviderJobName j)
    (ProviderInputRef j) (ProviderOutputRef j) (ItemCount j) (SuccessCount j) (FailCount j) (EstimatedCost j)
    (HoldAmount j) (ActualCost j) (BillableUnitPrice j) (PricingSnapshotVersion j) (IdempotencyKey j) (RequestHash j)
    (ManifestHash j) (RetryCount j) (Version j) (OutputExpiresAt j) (InputDeletedAt j) (OutputDeletedAt j)
    (DownloadedAt j) (UserDeletedAt j) (LastErrorCode j) (LastErrorMessage j) (UpdatedAt j) (SubmittedAt j)
    (StartedAt j) (FinishedAt j) (SettledAt j).

Record BatchImageItem := Item {
  item_CustomID : string;
  item_Status : string;
  item_RequestHash : option string;
  item_PromptPreview : option string;
  item_ProviderSourceObject : option string;
  item_SourceLineNumber : option Z;
  item_MimeType : option string;
  item_FileExtension : option string;
  item_ImageCount : Z;
  item_ErrorCode : option string;
  item_ErrorMessage : option string;
  item_IndexedAt : option Time
}.
#[export] Instance item_struct : Struct BatchImageItem := fun i =>
  Item (item_CustomID i) (item_Status i) (item_RequestHash i) (item_PromptPreview i) (item_ProviderSourceObject i)
    (item_SourceLineNumber i) (item_MimeType i) (item_FileExtension i) (item_ImageCount i) (item_ErrorCode i)
    (item_ErrorMessage i) (item_IndexedAt i).

Record BatchImageTransitionOptions := TransitionOptions {
  opt_ErrorCode : option string;
  opt_ErrorMessage : option string
}.

(** Options without error. *)
Definition no_options : BatchImageTransitionOptions := TransitionOptions None None.

Record UpdateBatchImageJobProviderSubmitParams := ProviderSubmitParams {
  ps_BatchID : string;
  ps_ProviderJobName : string;
  ps_ProviderInputRef : string;
  ps_ProviderOutputRef : string
}.

Record MarkBatchImageJobSettledParams := SettledParams {
  st_BatchID : string;
  st_ActualCost : float64;
  st_ManifestHash : string;
  st_Now : Time;
  st_OutputExpiresAt : Time
}.

(** ** The tables

    Jobs by their unique [batch_id]; the items of a job in the order of their
    ids. *)

Record batch_db := Tables {
  jobs : gmap string BatchImageJob;
  items : gmap string (list BatchImageItem);
  next_id : Z
}.
#[export] Instance batch_db_struct : Struct batch_db := fun d => Tables (jobs d) (items d) (next_id d).

(** [CASE WHEN c IS NULL THEN v ELSE c END] and [NULLIF(v, '')]. *)
Definition coalesce {A} (c : option A) (v : A) : option A := match c with None => Some v | Some _ => c end.
Definition nullif_empty (s : string) : option string := if s =s "" then None else Some s.

Section repository.
Context (numeric : float64 -> Q).

(** A [float64] after a DECIMAL(20,10) column. *)
Definition db_decimal (x : float64) : option float64 :=
  match numeric_store 10 (numeric x) with Some z => Some (numeric_scan 10 z) | None => None end.

Definition numeric_overflow : error := DriverError "numeric field overflow".
Definition unique_violation : error := DriverError "duplicate key value violates unique constraint".

Definition find_job (batchID : string) (d : batch_db) : outcome BatchImageJob error :=
  match jobs d !! batchID with Some j => Ok j | None => Err ErrBatchImageJobNotFound end.

(** [UPDATE batch_image_jobs SET .. WHERE batch_id = $1 AND guard]: the rows
    affected. *)
Definition update_job (batchID : string) (guard : BatchImageJob -> bool) (f : BatchImageJob -> BatchImageJob) (d : batch_db)
    : bool * batch_db :=
  match jobs d !! batchID with
  | Some j => if guard j then (true, d <| jobs := <[batchID := f j]> (jobs d) |>) else (false, d)
  | None => (false, d)
  end.

(** The parameters of [CreateBatchImageJob] are the columns of the new row. *)
Definition CreateBatchImageJob (p : BatchImageJob) (now : Time) (d : batch_db) : outcome BatchImageJob error * batch_db :=
  if negb (IsSupportedBatchImageProvider (Provider p)) then (Err ErrBatchImageInvalidProvider, d)
  else
    let status := if Status p =s "" then BatchImageJobStatusCreated else Status p in
    let holdAmount := match HoldAmount p with None => Some None | Some h => option_map Some (db_decimal h) end in
    match db_decimal (EstimatedCost p), holdAmount, db_decimal (BillableUnitPrice p) with
    | Some estimated, Some hold, Some billable =>
        match jobs d !! BatchID p with
        | Some _ => (Err ErrBatchImageJobExists, d)
        | None =>
            let job := Job (next_id d) (BatchID p) (UserID p) (APIKeyID p) (AccountID p) (Provider p) (Model p) status
              (ProviderJobName p) (ProviderInputRef p) (ProviderOutputRef p) (ItemCount p) (SuccessCount p) (FailCount p)
              estimated hold (ActualCost p) billable (PricingSnapshotVersion p) (IdempotencyKey p) (RequestHash p)
              (ManifestHash p) (RetryCount p) 0 (OutputExpiresAt p) None None None None None None now None None None None in
            (Ok job, d <| jobs := <[BatchID p := job]> (jobs d) |> <| next_id := next_id d + 1 |>)
        end
    | _, _, _ => (Err numeric_overflow, d)
    end.

Definition GetBatchImageJobByBatchID (batchID : string) (d : batch_db) : outcome BatchImageJob error := find_job batchID d.

Definition owned_by (userID apiKeyID : Z) (j : BatchImageJob) : bool :=
  (UserID j =? userID) && bool_decide (APIKeyID j = Some apiKeyID).

Definition GetBatchImageJobByBatchIDForOwner (userID apiKeyID : Z) (batchID : string) (d : batch_db)
    : outcome BatchImageJob error :=
  match jobs d !! batchID with
  | Some j =>
      if owned_by userID apiKeyID j && bool_decide (UserDeletedAt j = None) then Ok j else Err ErrBatchImageJobNotFound
  | None => Err ErrBatchImageJobNotFound
  end.

(** [ORDER BY id DESC LIMIT 1]. *)
Definition newest (j : BatchImageJob) (acc : option BatchImageJob) : option BatchImageJob :=
  match acc with Some k => if ID k <? ID j then Some j else acc | None => Some j end.

Definition GetBatchImageJobByIdempotencyKey (userID apiKeyID : Z) (key : string) (d : batch_db) : outcome BatchImageJob error :=
  match map_fold (fun _ j acc =>
      if owned_by userID apiKeyID j && bool_decide (IdempotencyKey j = Some key) then newest j acc else acc) None (jobs d) with
  | Some j => Ok j
  | None => Err ErrBatchImageJobNotFound
  end.

Definition TransitionBatchImageJobStatus (batchID toStatus : string) (opts : BatchImageTransitionOptions) (now : Time)
    (d : batch_db) : outcome unit error * batch_db :=
  match jobs d !! batchID with
  | None => (Err ErrBatchImageJobNotFound, d)
  | Some j =>
      if negb (CanTransitionBatchImageJob (Status j) toStatus) then (Err ErrBatchImageInvalidTransition, d)
      else
        let becomes s := toStatus =s s in
        let once (b : bool) (c : option Time) := if b then coalesce c now else c in
        let j := j <| Status := toStatus |> <| Version := Version j + 1 |> <| UpdatedAt := now |>
          <| LastErrorCode := if becomes BatchImageJobStatusFailed then opt_ErrorCode opts else LastErrorCode j |>
          <| LastErrorMessage := if becomes BatchImageJobStatusFailed then opt_ErrorMessage opts else LastErrorMessage j |>
          <| SubmittedAt := once (becomes BatchImageJobStatusSubmitted) (SubmittedAt j) |>
          <| StartedAt := once (becomes BatchImageJobStatusRunning) (StartedAt j) |>
          <| FinishedAt := once (becomes BatchImageJobStatusCompleted || becomes BatchImageJobStatusFailed ||
                                 becomes BatchImageJobStatusCancelled) (FinishedAt j) |>
          <| SettledAt := once (becomes BatchImageJobStatusCompleted) (SettledAt j) |>
          <| OutputDeletedAt := once (becomes BatchImageJobStatusOutputDeleted) (OutputDeletedAt j) |> in
        (Ok tt, d <| jobs := <[batchID := j]> (jobs d) |>)
  end.

Definition unsubmitted (j : BatchImageJob) : bool :=
  (Status j =s BatchImageJobStatusCreated) || (Status j =s BatchImageJobStatusUploading).

Definition TouchBatchImageJobSubmitting (batchID : string) (now : Time) (d : batch_db) : batch_db :=
  snd (update_job batchID unsubmitted (fun j => j <| UpdatedAt := now |>) d).

Definition FailStaleUnsubmittedBatchImageJob (batchID : string) (cutoff : Time) (code message : string) (now : Time)
    (d : batch_db) : bool * batch_db :=
  update_job batchID (fun j => unsubmitted j && bool_decide (ProviderJobName j = None) && (UpdatedAt j <=? cutoff))
    (fun j => j <| Status := BatchImageJobStatusFailed |> <| LastErrorCode := Some code |>
                <| LastErrorMessage := Some message |> <| FinishedAt := coalesce (FinishedAt j) now |>
                <| UpdatedAt := now |> <| Version := Version j + 1 |>) d.

Definition UpdateBatchImageJobProviderOutputRef (batchID providerOutputRef : string) (now : Time) (d : batch_db)
    : outcome unit error * batch_db :=
  let '(affected, d) := update_job batchID (fun _ => true)
    (fun j => j <| ProviderOutputRef := Some providerOutputRef |> <| UpdatedAt := now |>) d in
  (if affected then Ok tt else Err ErrBatchImageJobNotFound, d).

Definition UpdateBatchImageJobProviderSubmit (p : UpdateBatchImageJobProviderSubmitParams) (now : Time) (d : batch_db)
    : outcome unit error * batch_db :=
  match jobs d !! ps_BatchID p with
  | None => (Err ErrBatchImageJobNotFound, d)
  | Some j =>
      if negb (CanTransitionBatchImageJob (Status j) BatchImageJobStatusSubmitted) then (Err ErrBatchImageInvalidTransition, d)
      else
        let j := j <| Status := BatchImageJobStatusSubmitted |> <| ProviderJobName := Some (ps_ProviderJobName p) |>
          <| ProviderInputRef := nullif_empty (ps_ProviderInputRef p) |>
          <| ProviderOutputRef := nullif_empty (ps_ProviderOutputRef p) |>
          <| SubmittedAt := coalesce (SubmittedAt j) now |> <| UpdatedAt := now |> <| Version := Version j + 1 |> in
        (Ok tt, d <| jobs := <[ps_BatchID p := j]> (jobs d) |>)
  end.

Definition RecordBatchImageJobSubmitFailure (batchID code message : string) (markFailed : bool) (now : Time) (d : batch_db)
    : batch_db :=
  let status j := if markFailed then BatchImageJobStatusFailed else Status j in
  snd (update_job batchID (fun _ => true)
    (fun j => j <| Status := status j |> <| LastErrorCode := Some code |> <| LastErrorMessage := Some message |>
                <| FinishedAt := if status j =s BatchImageJobStatusFailed then coalesce (FinishedAt j) now else FinishedAt j |>
                <| UpdatedAt := now |> <| Version := Version j + 1 |>) d).

(** The unique index on non-empty manifest hashes. *)
Definition manifest_taken (batchID hash : string) (d : batch_db) : bool :=
  negb (hash =s "") &&
  map_fold (fun b j acc => acc || (negb (b =s batchID) && bool_decide (ManifestHash j = Some hash))) false (jobs d).

Definition MarkBatchImageJobSettled (p : MarkBatchImageJobSettledParams) (d : batch_db) : outcome unit error * batch_db :=
  let now := st_Now p in
  let fits j := match ManifestHash j with None => true | Some h => (h =s "") || (h =s st_ManifestHash p) end in
  match jobs d !! st_BatchID p with
  | None => (Err ErrBatchImageJobNotFound, d)
  | Some j =>
      if (Status j =s BatchImageJobStatusSettling) && fits j then
        match db_decimal (st_ActualCost p) with
        | None => (Err numeric_overflow, d)
        | Some cost =>
            if manifest_taken (st_BatchID p) (st_ManifestHash p) d then (Err unique_violation, d)
            else
              let j := j <| Status := BatchImageJobStatusCompleted |> <| ActualCost := Some cost |>
                <| ManifestHash := Some (st_ManifestHash p) |> <| SettledAt := coalesce (SettledAt j) now |>
                <| FinishedAt := coalesce (FinishedAt j) now |>
                <| OutputExpiresAt := coalesce (OutputExpiresAt j) (st_OutputExpiresAt p) |>
                <| UpdatedAt := now |> <| Version := Version j + 1 |> in
              (Ok tt, d <| jobs := <[st_BatchID p := j]> (jobs d) |>)
        end
      else if negb (Status j =s BatchImageJobStatusSettling) then
        if Status j =s BatchImageJobStatusCompleted then (Err ErrBatchImageAlreadySettled, d)
        else (Err ErrBatchImageSettlementInvalidStatus, d)
      else (Err ErrBatchImageSettlementManifestConflict, d)
  end.

Definition SetBatchImageJobSettlementFailed (batchID code message : string) (now : Time) (d : batch_db)
    : outcome Z error * batch_db :=
  match jobs d !! batchID with
  | None => (Err ErrBatchImageJobNotFound, d)
  | Some j =>
      let j := j <| LastErrorCode := Some code |> <| LastErrorMessage := Some message |>
        <| RetryCount := RetryCount j + 1 |> <| UpdatedAt := now |> in
      (Ok (RetryCount j), d <| jobs := <[batchID := j]> (jobs d) |>)
  end.

(** The items of a new job; the unique index on [(job_id, custom_id)] refuses
    duplicates, and then the whole transaction. *)
Definition duplicate_free (l : list BatchImageItem) : bool := bool_decide (NoDup (item_CustomID <$> l)).

Definition BulkCreateBatchImageItems (batchID : string) (new : list BatchImageItem) (d : batch_db)
    : outcome unit error * batch_db :=
  let all := default [] (items d !! batchID) ++ new in
  if duplicate_free all then (Ok tt, d <| items := <[batchID := all]> (items d) |>) else (Err ErrBatchImageItemExists, d).

Definition ListBatchImageItems (batchID : string) (limit offset : Z) (d : batch_db) : list BatchImageItem :=
  let limit := if (limit <=? 0) || (500 <? limit) then 100 else limit in
  let offset := if offset <? 0 then 0 else offset in
  take (Z.to_nat limit) (drop (Z.to_nat offset) (default [] (items d !! batchID))).

Definition batchImageItemPromptPreviews (batchID : string) (d : batch_db) : gmap string string :=
  list_to_map (omap (fun i => match item_PromptPreview i with
                              | Some p => if p =s "" then None else Some (item_CustomID i, p)
                              | None => None
                              end) (default [] (items d !! batchID))).

Definition ReplaceBatchImageItemsForJob (batchID : string) (new : list BatchImageItem) (successCount failCount : Z)
    (now : Time) (d : batch_db) : outcome unit error * batch_db :=
  match jobs d !! batchID with
  | None => (Err ErrBatchImageJobNotFound, d)
  | Some j =>
      if negb (Status j =s BatchImageJobStatusIndexing) then (Err ErrBatchImageIndexStateConflict, d)
      else
        let previews := batchImageItemPromptPreviews batchID d in
        let new := map (fun i => match item_PromptPreview i with
                                 | Some _ => i
                                 | None => i <| item_PromptPreview := previews !! item_CustomID i |>
                                 end) new in
        if duplicate_free new then
          (Ok tt, d <| items := <[batchID := new]> (items d) |>
                    <| jobs := <[batchID := j <| SuccessCount := successCount |> <| FailCount := failCount |>
                                              <| UpdatedAt := now |>]> (jobs d) |>)
        else (Err ErrBatchImageItemExists, d)
  end.

(** Due jobs in the order [ORDER BY updated_at ASC, id ASC]. *)
Definition stale_order (a b : BatchImageJob) : bool :=
  (UpdatedAt a <? UpdatedAt b) || ((UpdatedAt a =? UpdatedAt b) && (ID a <=? ID b)).

Definition ListStaleUnsubmittedBatchImageJobs (cutoff : Time) (limit : Z) (d : batch_db) : list BatchImageJob :=
  let limit := if (limit <=? 0) || (1000 <? limit) then 100 else limit in
  let due j := unsubmitted j && bool_decide (ProviderJobName j = None) &&
    (f64_zero <? match HoldAmount j with Some h => h | None => EstimatedCost j end)%f64 && (UpdatedAt j <=? cutoff) in
  take (Z.to_nat limit) (merge_sort stale_order (List.filter due (map snd (map_to_list (jobs d))))).

Definition MarkBatchImageInputDeleted (batchID : string) (deletedAt : Time) (d : batch_db) : outcome unit error * batch_db :=
  let '(affected, d) := update_job batchID (fun _ => true)
    (fun j => j <| InputDeletedAt := coalesce (InputDeletedAt j) deletedAt |> <| UpdatedAt := deletedAt |>
                <| Version := Version j + 1 |>) d in
  (if affected then Ok tt else Err ErrBatchImageJobNotFound, d).

Definition MarkBatchImageOutputDeleted (batchID : string) (deletedAt : Time) (d : batch_db) : outcome unit error * batch_db :=
  let '(affected, d) := update_job batchID (fun _ => true)
    (fun j =>
       let completed := Status j =s BatchImageJobStatusCompleted in
       j <| Status := if completed then BatchImageJobStatusOutputDeleted else Status j |>
         <| OutputDeletedAt := coalesce (OutputDeletedAt j) deletedAt |>
         <| FinishedAt := if completed then coalesce (FinishedAt j) deletedAt else FinishedAt j |>
         <| UpdatedAt := deletedAt |> <| Version := Version j + 1 |>) d in
  (if affected then Ok tt else Err ErrBatchImageJobNotFound, d).

Definition MarkBatchImageDownloaded (batchID : string) (downloadedAt : Time) (d : batch_db) : outcome unit error * batch_db :=
  let '(affected, d) := update_job batchID (fun _ => true)
    (fun j => j <| DownloadedAt := coalesce (DownloadedAt j) downloadedAt |> <| UpdatedAt := downloadedAt |>) d in
  (if affected then Ok tt else Err ErrBatchImageJobNotFound, d).

Definition MarkBatchImageJobUserDeleted (userID apiKeyID : Z) (batchID : string) (deletedAt : Time) (d : batch_db)
    : outcome unit error * batch_db :=
  let '(affected, d) := update_job batchID
    (fun j => owned_by userID apiKeyID j && bool_decide (UserDeletedAt j = None) && IsTerminalBatchImageJobStatus (Status j))
    (fun j => j <| UserDeletedAt := coalesce (UserDeletedAt j) deletedAt |> <| UpdatedAt := deletedAt |>) d in
  (if affected then Ok tt else Err ErrBatchImageRecordDeleteNotReady, d).

Definition SetBatchImageOutputExpiresAt (batchID : string) (expiresAt now : Time) (d : batch_db) : outcome unit error * batch_db :=
  let '(affected, d) := update_job batchID (fun _ => true)
    (fun j => j <| OutputExpiresAt := coalesce (OutputExpiresAt j) expiresAt |> <| UpdatedAt := now |>) d in
  (if affected then Ok tt else Err ErrBatchImageJobNotFound, d).

Definition RecordBatchImageCleanupFailure (batchID code message : string) (now : Time) (d : batch_db) : batch_db :=
  snd (update_job batchID (fun _ => true)
    (fun j => j <| LastErrorCode := Some code |> <| LastErrorMessage := Some message |>
                <| RetryCount := RetryCount j + 1 |> <| UpdatedAt := now |>) d).

(** *** The life cycle

    Every statement that changes a job. *)
Inductive table_op :=
| OpCreate (p : BatchImageJob) (now : Time)
| OpTransition (batchID toStatus : string) (opts : BatchImageTransitionOptions) (now : Time)
| OpTouch (batchID : string) (now : Time)
| OpFailStale (batchID : string) (cutoff : Time) (code message : string) (now : Time)
| OpOutputRef (batchID ref : string) (now : Time)
| OpProviderSubmit (p : UpdateBatchImageJobProviderSubmitParams) (now : Time)
| OpSubmitFailure (batchID code message : string) (markFailed : bool) (now : Time)
| OpSettled (p : MarkBatchImageJobSettledParams)
| OpSettlementFailed (batchID code message : string) (now : Time)
| OpItems (batchID : string) (new : list BatchImageItem)
| OpReplaceItems (batchID : string) (new : list BatchImageItem) (successCount failCount : Z) (now : Time)
| OpInputDeleted (batchID : string) (deletedAt : Time)
| OpOutputDeleted (batchID : string) (deletedAt : Time)
| OpDownloaded (batchID : string) (downloadedAt : Time)
| OpUserDeleted (userID apiKeyID : Z) (batchID : string) (deletedAt : Time)
| OpOutputExpires (batchID : string) (expiresAt now : Time)
| OpCleanupFailure (batchID code message : string) (now : Time).

Definition table_step (op : table_op) (d : batch_db) : batch_db :=
  match op with
  | OpCreate p now => snd (CreateBatchImageJob p now d)
  | OpTransition b s o now => snd (TransitionBatchImageJobStatus b s o now d)
  | OpTouch b now => TouchBatchImageJobSubmitting b now d
  | OpFailStale b c code m now => snd (FailStaleUnsubmittedBatchImageJob b c code m now d)
  | OpOutputRef b r now => snd (UpdateBatchImageJobProviderOutputRef b r now d)
  | OpProviderSubmit p now => snd (UpdateBatchImageJobProviderSubmit p now d)
  | OpSubmitFailure b code m f now => RecordBatchImageJobSubmitFailure b code m f now d
  | OpSettled p => snd (MarkBatchImageJobSettled p d)
  | OpSettlementFailed b code m now => snd (SetBatchImageJobSettlementFailed b code m now d)
  | OpItems b l => snd (BulkCreateBatchImageItems b l d)
  | OpReplaceItems b l s f now => snd (ReplaceBatchImageItemsForJob b l s f now d)
  | OpInputDeleted b t => snd (MarkBatchImageInputDeleted b t d)
  | OpOutputDeleted b t => snd (MarkBatchImageOutputDeleted b t d)
  | OpDownloaded b t => snd (MarkBatchImageDownloaded b t d)
  | OpUserDeleted u k b t => snd (MarkBatchImageJobUserDeleted u k b t d)
  | OpOutputExpires b t now => snd (SetBatchImageOutputExpiresAt b t now d)
  | OpCleanupFailure b code m now => RecordBatchImageCleanupFailure b code m now d
  end.

(** The one statement that does not look at the status it replaces. *)
Definition overrides (op : table_op) (batchID : string) : bool :=
  match op with OpSubmitFailure b _ _ true _ => b =s batchID | _ => false end.

(** What a job's owner and the billing rely on never changes. *)
Definition contract (j : BatchImageJob) :=
  (ID j, BatchID j, UserID j, APIKeyID j, AccountID j, Provider j, Model j, ItemCount j,
   (EstimatedCost j, HoldAmount j, BillableUnitPrice j, PricingSnapshotVersion j, IdempotencyKey j, RequestHash j)).

Definition kept_once {A} (c c' : option A) : Prop := forall t, c = Some t -> c' = Some t.

(** The columns that remember when something first happened. *)
Definition milestones (j : BatchImageJob) : list (option Time) :=
  [SubmittedAt j; StartedAt j; FinishedAt j; SettledAt j; InputDeletedAt j; OutputDeletedAt j; DownloadedAt j;
   UserDeletedAt j; OutputExpiresAt j].

(** How a status moves: along the table, or to failed when the failure of the
    job's submission is recorded over it. *)
Definition moves (forced : bool) (s t : string) : Prop :=
  CanTransitionBatchImageJob s t = true \/ forced = true /\ t = BatchImageJobStatusFailed.

Record evolves (forced : bool) (j j' : BatchImageJob) : Prop := {
  ev_contract : contract j' = contract j;
  ev_status : Status j' = Status j /\ Version j <= Version j' \/
              moves forced (Status j) (Status j') /\ Version j < Version j';
  ev_milestones : Forall2 kept_once (milestones j) (milestones j');
  ev_retries : RetryCount j <= RetryCount j'
}.

Lemma kept_once_id {A} (c : option A) : kept_once c c.
Proof. by intros t. Qed.
#[export] Instance kept_once_preorder {A} : PreOrder (@kept_once A).
Proof. split; [by intros c t | intros c1 c2 c3 H1 H2 t Ht; auto]. Qed.
Lemma kept_once_coalesce {A} (c : option A) v : kept_once c (coalesce c v).
Proof. by intros t ->. Qed.
Lemma kept_once_if {A} (b : bool) (c c' : option A) : kept_once c c' -> kept_once c (if b then c' else c).
Proof. intros H. destruct b; [exact H | apply kept_once_id]. Qed.
#[local] Create HintDb batch discriminated.
#[local] Hint Resolve kept_once_id kept_once_coalesce kept_once_if : batch.

(** What happens to the job at a key. *)
Definition job_follows (forced : bool) (d d' : batch_db) (b : string) : Prop :=
  forall j, jobs d !! b = Some j -> exists j', jobs d' !! b = Some j' /\ evolves forced j j'.

Ltac evolve :=
  split; cbn;
  [done
  |first [left; split; [done | lia] | right; split; [by unfold moves; auto | lia]]
  |unfold milestones; cbn; repeat apply List.Forall2_cons; try apply List.Forall2_nil; by auto with batch
  |lia].

Section forced.
Context (forced : bool).

Lemma evolves_refl j : evolves forced j j.
Proof. evolve. Qed.

Lemma follows_same d d' b : jobs d' !! b = jobs d !! b -> job_follows forced d d' b.
Proof. intros H j Hj. exists j. rewrite H. auto using evolves_refl. Qed.

Lemma follows_insert d d' b b' j1 j2 :
  jobs d !! b' = Some j1 -> jobs d' = <[b' := j2]> (jobs d) -> (b' = b -> evolves forced j1 j2) -> job_follows forced d d' b.
Proof.
  intros H1 H2 He j Hj. destruct (decide (b' = b)) as [<-|Hne].
  - exists j2. rewrite H2, lookup_insert_eq. split; [done|]. assert (j1 = j) as <- by congruence. auto.
  - exists j. rewrite H2, lookup_insert_ne by done. auto using evolves_refl.
Qed.

Lemma follows_update b b' guard f d :
  (forall j, guard j = true -> b' = b -> evolves forced j (f j)) -> job_follows forced d (snd (update_job b' guard f d)) b.
Proof.
  intros Hf. unfold update_job. destruct (jobs d !! b') as [j1|] eqn:H1; [|by apply follows_same].
  destruct (guard j1) eqn:Hg; [|by apply follows_same]. by eapply follows_insert; eauto.
Qed.

Lemma snd_let {A B C} (p : A * B) (f : A -> C) : snd (let '(a, b) := p in (f a, b)) = snd p.
Proof. by destruct p. Qed.

Lemma unsubmitted_fails j : unsubmitted j = true -> CanTransitionBatchImageJob (Status j) BatchImageJobStatusFailed = true.
Proof. unfold unsubmitted. intros [H|H]%orb_true_iff; apply String.eqb_eq in H as ->; reflexivity. Qed.

Lemma settling_completes j :
  (Status j =s BatchImageJobStatusSettling) = true -> CanTransitionBatchImageJob (Status j) BatchImageJobStatusCompleted = true.
Proof. intros ->%String.eqb_eq. vm_compute. reflexivity. Qed.

Lemma completed_output_deleted j :
  (Status j =s BatchImageJobStatusCompleted) = true -> CanTransitionBatchImageJob (Status j) BatchImageJobStatusOutputDeleted = true.
Proof. intros ->%String.eqb_eq. reflexivity. Qed.

Lemma table_step_follows op d b : (overrides op b = true -> forced = true) -> job_follows forced d (table_step op d) b.
Proof.
  intros Ho. destruct op as [p now|b' s o now|b' now|b' c code m now|b' r now|p now|b' code m f now|p|b' code m now|b' l
                            |b' l sc fc now|b' t|b' t|b' t|u k b' t|b' t now|b' code m now]; cbn [table_step].
  - unfold CreateBatchImageJob. repeat (case_match; try by apply follows_same).
    all: intros j Hj; exists j; cbn; rewrite lookup_insert_ne by congruence; auto using evolves_refl.
  - unfold TransitionBatchImageJobStatus. destruct (jobs d !! b') as [j1|] eqn:H1; [|by apply follows_same].
    destruct (CanTransitionBatchImageJob _ _) eqn:Hc; [|by apply follows_same]. cbn [negb snd].
    eapply follows_insert; [done|reflexivity|]. intros _. evolve.
  - apply follows_update. intros j _ _. evolve.
  - apply follows_update. intros j Hg _. apply andb_true_iff in Hg as [Hg _]. apply andb_true_iff in Hg as [Hg _].
    pose proof (unsubmitted_fails j Hg). evolve.
  - unfold UpdateBatchImageJobProviderOutputRef. rewrite snd_let. apply follows_update. intros j _ _. evolve.
  - unfold UpdateBatchImageJobProviderSubmit. destruct (jobs d !! _) as [j1|] eqn:H1; [|by apply follows_same].
    destruct (CanTransitionBatchImageJob _ _) eqn:Hc; [|by apply follows_same]. cbn [negb snd].
    eapply follows_insert; [done|reflexivity|]. intros _. evolve.
  - apply follows_update. intros j _ ->. cbn in Ho. rewrite String.eqb_refl in Ho. destruct f; evolve.
  - unfold MarkBatchImageJobSettled. destruct (jobs d !! _) as [j1|] eqn:H1; [|by apply follows_same].
    destruct (Status j1 =s BatchImageJobStatusSettling) eqn:Hs; cbn [andb negb]; [|case_match; by apply follows_same].
    pose proof (settling_completes j1 Hs). repeat (case_match; try by apply follows_same).
    all: eapply follows_insert; [done|reflexivity|]; intros _; evolve.
  - unfold SetBatchImageJobSettlementFailed. destruct (jobs d !! _) as [j1|] eqn:H1; [|by apply follows_same]. cbn [snd].
    eapply follows_insert; [done|reflexivity|]. intros _. evolve.
  - unfold BulkCreateBatchImageItems. case_match; by apply follows_same.
  - unfold ReplaceBatchImageItemsForJob. destruct (jobs d !! _) as [j1|] eqn:H1; [|by apply follows_same].
    repeat (case_match; try by apply follows_same).
    all: eapply follows_insert; [done|reflexivity|]; intros _; evolve.
  - unfold MarkBatchImageInputDeleted. rewrite snd_let. apply follows_update. intros j _ _. evolve.
  - unfold MarkBatchImageOutputDeleted. rewrite snd_let. apply follows_update. intros j _ _.
    pose proof (completed_output_deleted j). destruct (Status j =s BatchImageJobStatusCompleted) eqn:Hs; evolve.
  - unfold MarkBatchImageDownloaded. rewrite snd_let. apply follows_update. intros j _ _. evolve.
  - unfold MarkBatchImageJobUserDeleted. rewrite snd_let. apply follows_update. intros j _ _. evolve.
  - unfold SetBatchImageOutputExpiresAt. rewrite snd_let. apply follows_update. intros j _ _. evolve.
  - apply follows_update. intros j _ _. evolve.
Qed.

(** What any number of statements do. *)
Record evolved (j j' : BatchImageJob) : Prop := {
  ed_contract : contract j' = contract j;
  ed_status : rtc (moves forced) (Status j) (Status j');
  ed_version : Version j <= Version j' /\ (Version j' = Version j -> Status j' = Status j);
  ed_milestones : Forall2 kept_once (milestones j) (milestones j');
  ed_retries : RetryCount j <= RetryCount j'
}.

Lemma evolved_refl j : evolved j j.
Proof. split; [done|done|split; [lia|done]|apply evolves_refl|lia]. Qed.

Lemma evolved_step j1 j2 j3 : evolved j1 j2 -> evolves forced j2 j3 -> evolved j1 j3.
Proof.
  intros [Hc Hs [Hv Hvs] Hm Hr] [Hc' Hs' Hm' Hr']. split.
  - congruence.
  - destruct Hs' as [[-> _]|[Hstep _]]; [done|]. by eapply rtc_r.
  - destruct Hs' as [[-> ?]|[_ ?]]; (split; [lia|]); intros ?; [apply Hvs; lia|lia].
  - by etrans.
  - lia.
Qed.

Lemma run_evolves ops d b j0 j :
  (forall op, op ∈ ops -> overrides op b = true -> forced = true) -> jobs d !! b = Some j -> evolved j0 j ->
  exists j', jobs (run table_step ops d) !! b = Some j' /\ evolved j0 j'.
Proof.
  revert d j. induction ops as [|op ops IH]; intros d j Ho Hj He; [by exists j|].
  destruct (table_step_follows op d b (Ho op (list_elem_of_here _ _)) j Hj) as (j2 & Hj2 & He2). cbn.
  eapply IH; [|done|by eapply evolved_step]. intros op' Hop. apply Ho. by apply list_elem_of_further.
Qed.
End forced.

Lemma terminal_step forced s t :
  IsTerminalBatchImageJobStatus s = true -> moves forced s t ->
  t = BatchImageJobStatusOutputDeleted \/ forced = true /\ t = BatchImageJobStatusFailed.
Proof.
  intros Hs [Hc|?]; [left|by right]. unfold CanTransitionBatchImageJob in Hc. rewrite Hs in Hc.
  destruct (_ || _); [done|]. apply andb_true_iff in Hc as [Hc _]. apply andb_true_iff in Hc as [Hc _].
  by apply String.eqb_eq in Hc.
Qed.

Lemma terminal_stays forced s t :
  IsTerminalBatchImageJobStatus s = true -> rtc (moves forced) s t ->
  t = s \/ t = BatchImageJobStatusOutputDeleted \/ forced = true /\ t = BatchImageJobStatusFailed.
Proof.
  intros Hs H. induction H as [|s u t Hstep _ IH]; [by left|]. right.
  destruct (terminal_step _ _ _ Hs Hstep) as [->|[? ->]]; destruct (IH eq_refl) as [->|?]; auto.
Qed.

(** Is the failed submission of this job recorded over its status? *)
Definition submission_fails (b : string) (ops : list table_op) : bool := existsb (fun op => overrides op b) ops.

(** C26: The life cycle of a batch image job.  Whatever statements run on the
    tables, in any order and on any jobs, the job stays in the table with the
    same owner, account, item count, price and hold.  Its status moves along
    [CanTransitionBatchImageJob], with one exception: the statement that
    records a failed submission ([RecordBatchImageJobSubmitFailure] with
    [markFailed]) sets failed over whatever status the job has.  A terminal
    job keeps its status, except that its output may be deleted and that such
    a statement makes it failed; so it stays terminal.  Every move of the
    status raises the version.  The times of submission, start, end,
    settlement, download and of the deletions, and the expiry of the output,
    are set once; the retry count never falls. *)
Theorem job_life_cycle ops d b j :
  jobs d !! b = Some j ->
  exists j', jobs (run table_step ops d) !! b = Some j' /\
    contract j' = contract j /\
    rtc (moves (submission_fails b ops)) (Status j) (Status j') /\
    (IsTerminalBatchImageJobStatus (Status j) = true ->
     Status j' = Status j \/ Status j' = BatchImageJobStatusOutputDeleted \/
     submission_fails b ops = true /\ Status j' = BatchImageJobStatusFailed) /\
    Version j <= Version j' /\ (Version j' = Version j -> Status j' = Status j) /\
    Forall2 kept_once (milestones j) (milestones j') /\ RetryCount j <= RetryCount j'.
Proof.
  intros Hj. destruct (run_evolves (submission_fails b ops) ops d b j j) as (j' & Hj' & [Hc Hs [Hv Hvs] Hm Hr]);
    [|done|apply evolved_refl|].
  - intros op Hop Ho. apply existsb_exists. exists op. by rewrite <- list_elem_of_In.
  - exists j'. eauto 10 using terminal_stays.
Qed.
End repository.

(** ** A concrete life *)

Definition demo_job : BatchImageJob :=
  Job 0 "imgbatch_1" 1 (Some 7) (Some 3) "vertex" "gemini-3-pro-image" "" None None None 2 0 0
    (f64_of_ratio 1 2) (Some (f64_of_ratio 3 5)) None (f64_of_ratio 1 4) 1 None (Some "hash") None 0 0 None None None None None
    None None 0 None None None None.

Definition demo_numeric (x : float64) : Q := round_half_even (inject_Z (10 ^ 10) * f64_value x)%Q # (10 ^ 10).

Definition demo_tables : batch_db := snd (CreateBatchImageJob demo_numeric demo_job 100 (Tables ∅ ∅ 1)).

(** An attempt that settles the batch, and refuses a cancellation meanwhile. *)
Definition demo_statements : list table_op :=
  [OpTransition "imgbatch_1" "uploading" no_options 101;
   OpProviderSubmit (ProviderSubmitParams "imgbatch_1" "batches/9" "" "") 102;
   OpTransition "imgbatch_1" "indexing" no_options 103;
   OpTransition "imgbatch_1" "settling" no_options 104;
   OpTransition "imgbatch_1" "cancelled" no_options 105;
   OpSettled (SettledParams "imgbatch_1" (f64_of_ratio 1 2) "m" 106 200);
   OpOutputDeleted "imgbatch_1" 201].

(** The user cancels while the provider is asked, and the provider's failure is
    then recorded over the cancellation. *)
Definition demo_cancelled : list table_op :=
  [OpTransition "imgbatch_1" "uploading" no_options 101;
   OpTransition "imgbatch_1" "cancelled" no_options 102;
   OpSubmitFailure "imgbatch_1" "PROVIDER_SUBMIT_FAILED" "unavailable" true 103].

Lemma job_life_cycle_witness :
  exists j j' j'', jobs demo_tables !! "imgbatch_1" = Some j /\
    jobs (run (table_step demo_numeric) demo_statements demo_tables) !! "imgbatch_1" = Some j' /\
    Status j' = "output_deleted" /\ FinishedAt j' = Some 106 /\ contract j' = contract j /\
    jobs (run (table_step demo_numeric) demo_cancelled demo_tables) !! "imgbatch_1" = Some j'' /\
    Status j'' = "failed" /\ FinishedAt j'' = Some 102 /\ rtc (moves true) (Status j) (Status j'').
Proof.
  destruct (jobs demo_tables !! "imgbatch_1") as [j|] eqn:Hj; [|vm_compute in Hj; discriminate].
  destruct (job_life_cycle demo_numeric demo_statements demo_tables "imgbatch_1" j Hj) as (j' & Hj' & Hc & _).
  destruct (job_life_cycle demo_numeric demo_cancelled demo_tables "imgbatch_1" j Hj) as (j'' & Hj'' & _ & Hm & _).
  exists j, j', j''. do 2 (split; [done|]). split; [revert Hj'; vm_compute; by intros [= <-]|].
  split; [revert Hj'; vm_compute; by intros [= <-]|]. split; [done|]. split; [done|].
  split; [revert Hj''; vm_compute; by intros [= <-]|]. split; [revert Hj''; vm_compute; by intros [= <-]|exact Hm].
Defined.
End BatchImage.
