(* ===== verification/BatchImageQueue.v ===== *)
(** * The queue of batch image jobs

    [repository/batch_image_queue.go]: jobs wait in a ready list, a set of
    delayed ones and a set of active ones in Redis; a key per job keeps it from
    being queued twice, another is the lock of the worker that processes it.
    Scripts and transactions are atomic requests; a method is a program of
    requests. *)

From S2P Require Import Prelude GoStrings AppErrors Programs RedisKeys BatchImage.

Module BatchImageQueue.
Export AppErrors Programs.
Import RedisKeys.
#[local] Open Scope Z_scope.

Definition ErrBatchImageQueueEmpty := New 404 "BATCH_IMAGE_QUEUE_EMPTY" "batch image queue is empty".
Definition ErrInvalidBatchImageQueuePayload := New 400 "BATCH_IMAGE_QUEUE_INVALID_PAYLOAD" "invalid batch image queue payload".

(** The client's answer for an absent value. *)
Definition redis_Nil : error := PlainError "redis: nil".

Definition defaultBatchImageReadyKey : string := "batch_image:queue:ready".
Definition defaultBatchImageDelayedKey : string := "batch_image:queue:delayed".
Definition defaultBatchImageActiveKey : string := "batch_image:queue:active".
Definition defaultBatchImageInflightPrefix : string := "batch_image:queue:inflight:".
Definition defaultBatchImageLockPrefix : string := "batch_image:queue:lock:".
Definition defaultBatchImageInflightTTL : Duration := 7 * 24 * Hour.
Definition defaultBatchImageJobLockTTL : Duration := 5 * Minute.
Definition batchImageReservePollInterval : Duration := Second.

(** ** Options

    The options are the fields of the queue. *)
Record batchImageQueueOptions := QueueOptions {
  ReadyKey : string;
  DelayedKey : string;
  ActiveKey : string;
  InflightPrefix : string;
  LockPrefix : string;
  InflightTTL : Duration;
  LockTTL : Duration
}.

(** The part of [cfg.BatchImage] about the queue and its workers. *)
Record BatchImageConfig := Config {
  QueueReadyKey : string;
  QueueDelayedKey : string;
  QueueActiveKey : string;
  InflightKeyPrefix : string;
  LockKeyPrefix : string;
  InflightTTLSeconds : Z;
  JobLockTTLSeconds : Z;
  LockConflictDelaySeconds : Z;
  DefaultRequeueDelaySeconds : Z;
  ErrorRetryDelaySeconds : Z;
  DelayedMoverIntervalSeconds : Z;
  RecoveryIntervalSeconds : Z;
  StaleActiveAfterSeconds : Z;
  cfg_DelayedMoveLimit : Z;
  cfg_RecoverLimit : Z
}.

(** [time.Duration(n) * time.Second]. *)
Definition seconds (n : Z) : Duration := wrap64 (n * Second).

Definition batchImageQueueOptionsFromConfig (cfg : option BatchImageConfig) : batchImageQueueOptions :=
  match cfg with
  | None => QueueOptions "" "" "" "" "" 0 0
  | Some c =>
      QueueOptions (QueueReadyKey c) (QueueDelayedKey c) (QueueActiveKey c) (InflightKeyPrefix c) (LockKeyPrefix c)
        (seconds (InflightTTLSeconds c)) (seconds (JobLockTTLSeconds c))
  end.

Definition normalizeBatchImageQueueOptions (o : batchImageQueueOptions) : batchImageQueueOptions :=
  let key (k d : string) := if k =s "" then d else k in
  let ttl (t d : Duration) := if t <=? 0 then d else t in
  QueueOptions (key (ReadyKey o) defaultBatchImageReadyKey) (key (DelayedKey o) defaultBatchImageDelayedKey)
    (key (ActiveKey o) defaultBatchImageActiveKey) (key (InflightPrefix o) defaultBatchImageInflightPrefix)
    (key (LockPrefix o) defaultBatchImageLockPrefix) (ttl (InflightTTL o) defaultBatchImageInflightTTL)
    (ttl (LockTTL o) defaultBatchImageJobLockTTL).

Definition newBatchImageQueueWithOptions (o : batchImageQueueOptions) : batchImageQueueOptions :=
  normalizeBatchImageQueueOptions o.

Definition NewBatchImageQueue (cfg : option BatchImageConfig) : batchImageQueueOptions :=
  newBatchImageQueueWithOptions (batchImageQueueOptionsFromConfig cfg).

Definition IsValidBatchImageID (batchID : string) : bool :=
  HasPrefix batchID "imgbatch_" && (len "imgbatch_" <? len batchID).

(** ** Scripts *)

Section scripts.
Context {S : Type} `{RedisServer S}.
Implicit Types s : S.

Definition move_to_list (set list : string) (s : S) (job : string) : S := LPUSH list job (ZREM set job s).

Definition batchImageMoveDueDelayedScript (delayed ready : string) (max limit : Z) (s : S) : Z * S :=
  let jobs := ZRANGEBYSCORE delayed max limit s in
  (Z.of_nat (length jobs), fold_left (move_to_list delayed ready) jobs s).

Definition batchImageRecoverStaleActiveScript (active ready : string) (max limit : Z) (s : S) : Z * S :=
  let jobs := ZRANGEBYSCORE active max limit s in
  (Z.of_nat (length jobs), fold_left (move_to_list active ready) jobs s).

Definition batchImageReleaseLockScript (key token : string) (s : S) : Z * S :=
  if bool_decide (GET key s = Some token) then (1, DEL key s) else (0, s).

Definition batchImageRefreshLockScript (key token : string) (ttl : Z) (s : S) : Z * S :=
  if bool_decide (GET key s = Some token) then (1, PEXPIRE key ttl s) else (0, s).

Definition batchImageReserveScript (ready active : string) (score : Z) (s : S) : option string * S :=
  match last (LRANGE ready s) with
  | None => (None, s)
  | Some job => (Some job, ZADD active score job (RPOP ready s))
  end.

Definition batchImageEnqueueScript (inflight ready batchID : string) (ttl : Z) (s : S) : Z * S :=
  match GET inflight s with
  | None => (1, LPUSH ready batchID (SET_PX inflight batchID ttl s))
  | Some _ => (0, s)
  end.
End scripts.

(** ** Requests *)

(** Commands of a transaction. *)
Inductive piped :=
| PipeZRem (key m : string)
| PipeLPush (key v : string)
| PipeZAdd (key : string) (score : Z) (m : string)
| PipeDel (key : string).

Inductive qcall : Type -> Type :=
| QNow : qcall Time
| QSleep (d : Duration) : qcall (outcome unit error)       (* an error when the context ends *)
| RandToken : qcall (outcome string error)
| RunEnqueue (inflight ready batchID : string) (ttl : Z) : qcall (outcome Z error)
| RunReserve (ready active : string) (score : Z) : qcall (outcome string error)
| RunMoveDueDelayed (delayed ready : string) (max limit : Z) : qcall (outcome Z error)
| RunRecoverStaleActive (active ready : string) (max limit : Z) : qcall (outcome Z error)
| RunReleaseLock (key token : string) : qcall (outcome Z error)
| RunRefreshLock (key token : string) (ttl : Z) : qcall (outcome Z error)
| CmdZRem (key m : string) : qcall (outcome unit error)
| CmdZAddXX (key : string) (score : Z) (m : string) : qcall (outcome unit error)
| CmdSetNX (key v : string) (ttl : Duration) : qcall (outcome bool error)
| CmdTx (cmds : list piped) : qcall (outcome unit error).

Section methods.
Context (q : batchImageQueueOptions).

Definition inflightKey (batchID : string) : string := InflightPrefix q +:+ batchID.
Definition lockKey (batchID : string) : string := LockPrefix q +:+ batchID.

Definition QueueEnqueue (batchID : string) : free qcall (outcome unit error) :=
  if negb (IsValidBatchImageID batchID) then Ret (Err ErrInvalidBatchImageQueuePayload)
  else
    let! applied := RunEnqueue (inflightKey batchID) (ReadyKey q) batchID (Milliseconds (InflightTTL q)) in
    Ret (match applied with
         | Err e => Err e
         | Ok n => if n =? 0 then Err BatchImage.ErrBatchImageAlreadyQueued else Ok tt
         end).

Definition reserveOnce : free qcall (outcome string error) :=
  let! now := QNow in
  let! raw := RunReserve (ReadyKey q) (ActiveKey q) (UnixMilli now) in
  match raw with
  | Err e => Ret (Err (if errors_Is e redis_Nil then ErrBatchImageQueueEmpty else e))
  | Ok batchID =>
      if IsValidBatchImageID batchID then Ret (Ok batchID)
      else if batchID =s "" then Ret (Err ErrInvalidBatchImageQueuePayload)
      else let! _ := CmdZRem (ActiveKey q) batchID in Ret (Err ErrInvalidBatchImageQueuePayload)
  end.

(** The polls until [deadline], [rounds] at most. *)
Definition too_many_polls : error := PlainError "too many polls".

Fixpoint reserve_until (rounds : nat) (deadline : Time) : free qcall (outcome string error) :=
  match rounds with
  | O => Ret (Err too_many_polls)
  | S rounds =>
      run! once := reserveOnce in
      match once with
      | Ok batchID => Ret (Ok batchID)
      | Err e =>
          if negb (errors_Is e ErrBatchImageQueueEmpty) then Ret (Err e)
          else
            let! now := QNow in
            let remaining := time_Sub deadline now in
            if remaining <=? 0 then Ret (Err ErrBatchImageQueueEmpty)
            else
              let wait := if remaining <? batchImageReservePollInterval then remaining else batchImageReservePollInterval in
              let! slept := QSleep wait in
              match slept with
              | Err e => Ret (Err e)
              | Ok _ => reserve_until rounds deadline
              end
      end
  end.

Definition Reserve (rounds : nat) (blockTimeout : Duration) : free qcall (outcome string error) :=
  let! now := QNow in reserve_until rounds (time_Add now blockTimeout).

Definition RequeueAfter (batchID : string) (delay : Duration) : free qcall (outcome unit error) :=
  if negb (IsValidBatchImageID batchID) then Ret (Err ErrInvalidBatchImageQueuePayload)
  else
    let leave := [PipeZRem (ActiveKey q) batchID; PipeZRem (DelayedKey q) batchID] in
    if delay <=? 0 then let! r := CmdTx (leave ++ [PipeLPush (ReadyKey q) batchID]) in Ret r
    else
      let! now := QNow in
      let! r := CmdTx (leave ++ [PipeZAdd (DelayedKey q) (UnixMilli (time_Add now delay)) batchID]) in Ret r.

Definition Ack (batchID : string) : free qcall (outcome unit error) :=
  if negb (IsValidBatchImageID batchID) then Ret (Err ErrInvalidBatchImageQueuePayload)
  else
    let! r := CmdTx [PipeZRem (ActiveKey q) batchID; PipeZRem (DelayedKey q) batchID; PipeDel (inflightKey batchID)] in Ret r.

Definition Heartbeat (batchID : string) : free qcall (outcome unit error) :=
  if negb (IsValidBatchImageID batchID) then Ret (Err ErrInvalidBatchImageQueuePayload)
  else
    let! now := QNow in
    let! r := CmdZAddXX (ActiveKey q) (UnixMilli now) batchID in Ret r.

Definition MoveDueDelayedToReady (limit : Z) : free qcall (outcome Z error) :=
  let limit := if limit <=? 0 then 100 else limit in
  let! now := QNow in
  let! r := RunMoveDueDelayed (DelayedKey q) (ReadyKey q) (UnixMilli now) limit in Ret r.

Definition RecoverStaleActive (staleAfter : Duration) (limit : Z) : free qcall (outcome Z error) :=
  if staleAfter <=? 0 then Ret (Err ErrInvalidBatchImageQueuePayload)
  else
    let limit := if limit <=? 0 then 100 else limit in
    let! now := QNow in
    let! r := RunRecoverStaleActive (ActiveKey q) (ReadyKey q) (UnixMilli (time_Add now (- staleAfter))) limit in Ret r.

(** *** The lock of a job *)

Record batchImageRedisJobLock := JobLock { lock_key : string; lock_token : string }.

(** Some lock when it was acquired. *)
Definition TryAcquireJobLock (batchID : string) (ttl : Duration) : free qcall (outcome (option batchImageRedisJobLock) error) :=
  if negb (IsValidBatchImageID batchID) then Ret (Err ErrInvalidBatchImageQueuePayload)
  else
    let ttl := if ttl <=? 0 then LockTTL q else ttl in
    let! token := RandToken in
    match token with
    | Err e => Ret (Err e)
    | Ok token =>
        let! set := CmdSetNX (lockKey batchID) token ttl in
        Ret (match set with
             | Err e => Err e
             | Ok true => Ok (Some (JobLock (lockKey batchID) token))
             | Ok false => Ok None
             end)
    end.

Definition Release (l : batchImageRedisJobLock) : free qcall (option error) :=
  if (lock_key l =s "") || (lock_token l =s "") then Ret None
  else let! r := RunReleaseLock (lock_key l) (lock_token l) in Ret (match r with Err e => Some e | Ok _ => None end).

Definition Refresh (l : batchImageRedisJobLock) (ttl : Duration) : free qcall (option error) :=
  if (lock_key l =s "") || (lock_token l =s "") then Ret None
  else
    let ttl := if ttl <=? 0 then defaultBatchImageJobLockTTL else ttl in
    let! r := RunRefreshLock (lock_key l) (lock_token l) (Milliseconds ttl) in
    Ret (match r with Err e => Some e | Ok _ => None end).
End methods.

(** ** What requests do

    A request that fails has or has not taken effect. *)
Section semantics.
Context {S : Type} `{RedisServer S}.
Implicit Types s : S.

Definition run_piped (c : piped) (s : S) : S :=
  match c with
  | PipeZRem key m => ZREM key m s
  | PipeLPush key v => LPUSH key v s
  | PipeZAdd key score m => ZADD key score m s
  | PipeDel key => DEL key s
  end.

Definition answer {A} (r : A * S) : outcome A error * S := (Ok r.1, r.2).

(** [now], [token] and [slept] are what the client's clock, the random
    generator and the timer answer. *)
Definition exec_q (now : Time) (token : string) {A} (c : qcall A) (s : S) : A * S :=
  match c in qcall A return A * S with
  | QNow => (now, s)
  | QSleep _ => (Ok tt, s)
  | RandToken => (Ok token, s)
  | RunEnqueue inflight ready batchID ttl => answer (batchImageEnqueueScript inflight ready batchID ttl s)
  | RunReserve ready active score =>
      let '(job, s) := batchImageReserveScript ready active score s in
      (match job with Some job => Ok job | None => Err redis_Nil end, s)
  | RunMoveDueDelayed delayed ready max limit => answer (batchImageMoveDueDelayedScript delayed ready max limit s)
  | RunRecoverStaleActive active ready max limit => answer (batchImageRecoverStaleActiveScript active ready max limit s)
  | RunReleaseLock key token => answer (batchImageReleaseLockScript key token s)
  | RunRefreshLock key token ttl => answer (batchImageRefreshLockScript key token ttl s)
  | CmdZRem key m => (Ok tt, ZREM key m s)
  | CmdZAddXX key score m =>
      (Ok tt, match ZSET key s !! m with Some _ => ZADD key score m s | None => s end)
  | CmdSetNX key v ttl =>
      match GET key s with
      | Some _ => (Ok false, s)
      | None => (Ok true, SET_PX key v (Z.max 1 (Milliseconds ttl)) s)
      end
  | CmdTx cmds => (Ok tt, fold_left (fun s c => run_piped c s) cmds s)
  end.

Definition failed_q (e : error) {A} (c : qcall A) : option A :=
  match c in qcall A return option A with
  | QNow => None
  | QSleep _ => Some (Err e)
  | RandToken => Some (Err e)
  | RunEnqueue _ _ _ _ => Some (Err e)
  | RunReserve _ _ _ => Some (Err e)
  | RunMoveDueDelayed _ _ _ _ => Some (Err e)
  | RunRecoverStaleActive _ _ _ _ => Some (Err e)
  | RunReleaseLock _ _ => Some (Err e)
  | RunRefreshLock _ _ _ => Some (Err e)
  | CmdZRem _ _ => Some (Err e)
  | CmdZAddXX _ _ _ => Some (Err e)
  | CmdSetNX _ _ _ => Some (Err e)
  | CmdTx _ => Some (Err e)
  end.

Definition q_sem {A} (c : qcall A) (s : S) (r : A) (s' : S) : Prop :=
  exists now token,
    exec_q now token c s = (r, s') \/
    exists m, failed_q (DriverError m) c = Some r /\ (s' = s \/ s' = snd (exec_q now token c s)).

(** The state moves as if the request took effect, or not at all. *)
Lemma q_sem_state {A} (c : qcall A) s r s' : q_sem c s r s' -> s' = s \/ exists now token, s' = snd (exec_q now token c s).
Proof. intros (now & token & [E|(m & _ & [->| ->])]); [right; exists now, token; by rewrite E|by left|eauto]. Qed.
End semantics.

(** ** No job gets lost

    The places of a job, and what clients may send: each request with the keys
    of the queue, only invalid ids are dropped, and a job leaves all places only
    by [Ack], which needs [permit]. *)
Section places.
Context {S : Type} (kind : string -> redis_type) `{RedisServerLaws S kind}.
Context (q : batchImageQueueOptions).
Implicit Types s : S.

Record separate_keys : Prop := {
  sk_ready : kind (ReadyKey q) = ListKey;
  sk_delayed : kind (DelayedKey q) = ZSetKey;
  sk_active : kind (ActiveKey q) = ZSetKey;
  sk_sets : DelayedKey q <> ActiveKey q;
  sk_inflight b : kind (inflightKey q b) = StringKey;
  sk_lock b : kind (lockKey q b) = StringKey;
  sk_strings b b' : inflightKey q b <> lockKey q b'
}.

Context (sep : separate_keys).

Definition queued (b : string) s : Prop :=
  b ∈ LRANGE (ReadyKey q) s \/ is_Some (ZSET (DelayedKey q) s !! b) \/ is_Some (ZSET (ActiveKey q) s !! b).

Definition string_key (k : string) : Prop := (exists b, k = inflightKey q b) \/ (exists b, k = lockKey q b).

Inductive sent (permit : string -> Prop) : forall A, qcall A -> Prop :=
| sent_now : sent permit _ QNow
| sent_sleep d : sent permit _ (QSleep d)
| sent_token : sent permit _ RandToken
| sent_enqueue b ttl : 0 < ttl -> sent permit _ (RunEnqueue (inflightKey q b) (ReadyKey q) b ttl)
| sent_reserve score : sent permit _ (RunReserve (ReadyKey q) (ActiveKey q) score)
| sent_move max limit : sent permit _ (RunMoveDueDelayed (DelayedKey q) (ReadyKey q) max limit)
| sent_recover max limit : sent permit _ (RunRecoverStaleActive (ActiveKey q) (ReadyKey q) max limit)
| sent_release b token : sent permit _ (RunReleaseLock (lockKey q b) token)
| sent_refresh b token ttl : 0 < ttl -> sent permit _ (RunRefreshLock (lockKey q b) token ttl)
| sent_drop m : IsValidBatchImageID m = false -> sent permit _ (CmdZRem (ActiveKey q) m)
| sent_heartbeat score b : sent permit _ (CmdZAddXX (ActiveKey q) score b)
| sent_lock b token ttl : sent permit _ (CmdSetNX (lockKey q b) token ttl)
| sent_requeue_now b :
    sent permit _ (CmdTx [PipeZRem (ActiveKey q) b; PipeZRem (DelayedKey q) b; PipeLPush (ReadyKey q) b])
| sent_requeue_later b score :
    sent permit _ (CmdTx [PipeZRem (ActiveKey q) b; PipeZRem (DelayedKey q) b; PipeZAdd (DelayedKey q) score b])
| sent_ack b : permit b ->
    sent permit _ (CmdTx [PipeZRem (ActiveKey q) b; PipeZRem (DelayedKey q) b; PipeDel (inflightKey q b)]).

(** A key holds what it held, or its value was set or its life ended. *)
Definition inflight (b : string) s : Prop := is_Some (GET (inflightKey q b) s).

(** What may happen to a job at a request: it stays where it can be found, and
    it is marked as queued only if it can be found. *)
Record keeps (b : string) s s' : Prop := {
  keeps_queued : queued b s -> queued b s';
  keeps_inflight : (inflight b s -> queued b s) -> inflight b s' -> queued b s'
}.

Lemma keeps_refl b s : keeps b s s.
Proof. by split. Qed.

Lemma keeps_trans b s1 s2 s3 : keeps b s1 s2 -> keeps b s2 s3 -> keeps b s1 s3.
Proof. intros [Q1 I1] [Q2 I2]. split; auto. Qed.

(** The three places and the job's key, read off the keys. *)
Ltac read_keys :=
  unfold queued, inflight, LRANGE, ZSET, GET in *;
  repeat first
    [ rewrite space_LPUSH in * by apply sep | rewrite space_RPOP in * by apply sep
    | rewrite space_ZADD in * by apply sep | rewrite space_ZREM in * by apply sep
    | rewrite space_DEL in * by apply sep | rewrite space_SET_PX in * by (apply sep || lia)
    | rewrite space_PEXPIRE in * by (apply sep || lia) ];
  autorewrite with redis in *;
  rewrite ?string_at_set_px, ?string_at_pexpire in * by lia.

(** Commands that leave the strings alone. *)
Lemma keeps_places b s s' :
  (queued b s -> queued b s') -> GET (inflightKey q b) s' = GET (inflightKey q b) s -> keeps b s s'.
Proof. intros Hq Hs. split; [done|]. intros Hi Hi'. apply Hq, Hi. unfold inflight in *. by rewrite <- Hs. Qed.

Lemma keeps_move set job b s :
  set = DelayedKey q \/ set = ActiveKey q -> keeps b s (move_to_list set (ReadyKey q) s job).
Proof.
  pose proof (sk_sets sep). unfold move_to_list. intros [-> | ->]; (apply keeps_places; [|by read_keys]); read_keys.
  all: repeat (case_decide; try congruence); destruct (decide (b = job)) as [->|Hne]; [intros; left; by left|].
  all: rewrite lookup_delete_ne by done; intros [?|[?|?]]; auto; left; by right.
Qed.

Lemma keeps_moves set jobs b s :
  set = DelayedKey q \/ set = ActiveKey q -> keeps b s (fold_left (move_to_list set (ReadyKey q)) jobs s).
Proof.
  intros Hset. revert s. induction jobs as [|job jobs IH]; intros s; [apply keeps_refl|]. cbn.
  eapply keeps_trans; [by apply keeps_move|apply IH].
Qed.

Lemma keeps_reserve score b s : keeps b s (batchImageReserveScript (ReadyKey q) (ActiveKey q) score s).2.
Proof.
  pose proof (sk_sets sep). unfold batchImageReserveScript. destruct (last (LRANGE (ReadyKey q) s)) as [job|] eqn:Hl; [|apply keeps_refl].
  apply last_Some in Hl as [l Hl]. cbn [snd]. apply keeps_places; [|by read_keys]. read_keys.
  repeat (case_decide; try congruence). rewrite Hl, length_app. cbn. replace (length l + 1 - 1)%nat with (length l) by lia.
  rewrite take_app_length. destruct (decide (b = job)) as [->|Hne]; [intros; right; right; rewrite lookup_insert_eq; by eexists|].
  rewrite lookup_insert_ne by done. intros [[?|?%list_elem_of_singleton]%elem_of_app|?]; auto. done.
Qed.

(** The [SET] of a new id and its push. *)
Lemma keeps_enqueue b' ttl b s : 0 < ttl -> keeps b s (batchImageEnqueueScript (inflightKey q b') (ReadyKey q) b' ttl s).2.
Proof.
  intros Ht. unfold batchImageEnqueueScript. destruct (GET _ s) eqn:Hg; [apply keeps_refl|]. cbn [snd].
  assert (Hq : queued b s -> queued b (LPUSH (ReadyKey q) b' (SET_PX (inflightKey q b') b' ttl s))).
  { read_keys. repeat (case_decide; try congruence). intros [?|?]; [left; by right|by right]. }
  split; [exact Hq|]. intros Hi Hi'. destruct (decide (b = b')) as [->|Hne].
  - read_keys. repeat (case_decide; try congruence). left. by left.
  - apply Hq, Hi. read_keys. case_decide as Hd; [|done]. unfold inflightKey in Hd. by apply (inj (String.append _)) in Hd.
Qed.

(** Taken out of both sets and put back into one place. *)
Lemma keeps_requeue b' b s (put : S -> S) :
  put = LPUSH (ReadyKey q) b' \/ (exists score, put = ZADD (DelayedKey q) score b') ->
  keeps b s (put (ZREM (DelayedKey q) b' (ZREM (ActiveKey q) b' s))).
Proof.
  pose proof (sk_sets sep). intros [-> | [score ->]]; (apply keeps_places; [|by read_keys]); read_keys.
  all: repeat (case_decide; try congruence); destruct (decide (b = b')) as [->|Hne].
  all: rewrite ?lookup_delete_ne by done.
  - intros _. left. by left.
  - intros [?|?]; [left; by right|auto].
  - intros _. right. left. rewrite lookup_insert_eq. by eexists.
  - rewrite lookup_insert_ne, lookup_delete_ne by done. done.
Qed.

Lemma keeps_ack b' b s : b <> b' -> keeps b s (DEL (inflightKey q b') (ZREM (DelayedKey q) b' (ZREM (ActiveKey q) b' s))).
Proof.
  pose proof (sk_sets sep). intros Hne. apply keeps_places; read_keys.
  - repeat (case_decide; try congruence). by rewrite !lookup_delete_ne.
  - case_decide as Hd; [|done]. unfold inflightKey in Hd. by apply (inj (String.append _)) in Hd.
Qed.

Lemma keeps_elapse dt b s : 0 <= dt -> keeps b s (elapse dt s).
Proof.
  intros Hdt. assert (Hq : queued b s -> queued b (elapse dt s)).
  { unfold queued, LRANGE, ZSET. by rewrite space_elapse. }
  split; [exact Hq|]. intros Hi [v Hi']. apply Hq, Hi. unfold inflight, GET in *. rewrite space_elapse in Hi' by done.
  exists v. by eapply string_at_pass.
Qed.

(** Requests of clients keep every job that no acknowledgement is permitted
    for. *)
Lemma sent_keeps permit {A} (c : qcall A) s r s' b :
  IsValidBatchImageID b = true -> sent permit A c -> ~ permit b -> q_sem c s r s' -> keeps b s s'.
Proof.
  intros Hv Hsent Hp [->|(now & token & ->)]%q_sem_state; [apply keeps_refl|]. revert Hsent.
  destruct c; intros Hsent; inversion Hsent; simplify_eq; cbn [exec_q snd answer]; try apply keeps_refl.
  - by apply keeps_enqueue.
  - pose proof (keeps_reserve score b s) as Hk. by destruct (batchImageReserveScript _ _ score s) as [[job|] s1].
  - apply keeps_moves. by left.
  - apply keeps_moves. by right.
  - unfold batchImageReleaseLockScript. case_bool_decide; [|apply keeps_refl]. cbn [snd]. apply keeps_places; read_keys; [done|].
    case_decide; [|done]. exfalso. by eapply (sk_strings sep).
  - unfold batchImageRefreshLockScript. case_bool_decide; [|apply keeps_refl]. cbn [snd]. by apply keeps_places; read_keys.
  - apply keeps_places; [|by read_keys]. pose proof (sk_sets sep). read_keys. repeat (case_decide; try congruence).
    rewrite lookup_delete_ne by congruence. done.
  - destruct (ZSET _ s !! _) eqn:Hm; [|apply keeps_refl]. apply keeps_places; [|by read_keys]. pose proof (sk_sets sep).
    read_keys. repeat (case_decide; try congruence). intros [?|[?|[sc Hsc]]]; auto. right; right.
    apply lookup_insert_is_Some. destruct (decide (m = b)); [by left|right; by eauto].
  - destruct (GET _ s); [apply keeps_refl|]. cbn [snd]. apply keeps_places; read_keys; [done|].
    case_decide; [|done]. exfalso. by eapply (sk_strings sep).
  - cbn. apply (keeps_requeue b0 b s (LPUSH (ReadyKey q) b0)). by left.
  - cbn. apply (keeps_requeue b0 b s (ZADD (DelayedKey q) score b0)). right. by eexists.
  - cbn. apply keeps_ack. by intros ->.
Qed.

(** An enqueued job can be found, whether it was enqueued before or not. *)
Lemma enqueue_queues b ttl s n s' :
  0 < ttl -> (inflight b s -> queued b s) ->
  q_sem (RunEnqueue (inflightKey q b) (ReadyKey q) b ttl) s (Ok n) s' -> queued b s'.
Proof.
  intros Ht Hi (now & token & [[= _ <-]|(m & [=] & _)]). unfold batchImageEnqueueScript.
  destruct (GET (inflightKey q b) s) as [v|] eqn:Hg; cbn [snd].
  - apply Hi. by exists v.
  - read_keys. repeat (case_decide; try congruence). left. by left.
Qed.

(** *** The lock of a job

    [h] has the workers that hold the lock of [b], by their tokens, with the
    server time until which they hold it: a worker gets it by [SETNX], extends
    it by a confirmed refresh, and gives it up when it asks to release it. *)
Definition held (b : string) (now T : Z) {A} (c : qcall A) : A -> gmap string Z -> gmap string Z :=
  match c in qcall A return A -> gmap string Z -> gmap string Z with
  | CmdSetNX key token _ => fun r h =>
      match r with Ok true => if key =s lockKey q b then <[token := now + T]> h else h | _ => h end
  | RunRefreshLock key token _ => fun r h =>
      match r with Ok 1 => if key =s lockKey q b then <[token := now + T]> h else h | _ => h end
  | RunReleaseLock key token => fun _ h => if key =s lockKey q b then delete token h else h
  | _ => fun _ h => h
  end.

(** Workers ask for the lock, and refresh it, for the same time [T]. *)
Definition same_ttl (b : string) (T : Z) {A} (c : qcall A) : Prop :=
  match c with
  | CmdSetNX key _ ttl => key = lockKey q b -> Z.max 1 (Milliseconds ttl) = T
  | RunRefreshLock key _ ttl => key = lockKey q b -> ttl = T
  | _ => True
  end.

Inductive lock_step (b : string) (T : Z) : S * gmap string Z -> S * gmap string Z -> Prop :=
| lock_elapse dt s h : 0 <= dt -> lock_step b T (s, h) (elapse dt s, h)
| lock_request {A} (c : qcall A) r s s' h :
    sent (fun _ => True) A c -> same_ttl b T c -> q_sem c s r s' ->
    lock_step b T (s, h) (s', held b (clock (space s)) T c r h).

(** Who holds the lock is who the server names, for no less time than it knows. *)
Record lock_ok (b : string) (T : Z) (s : S) (h : gmap string Z) : Prop := {
  lk_named token d : h !! token = Some d -> clock (space s) < d ->
    exists d', strings (space s) !! lockKey q b = Some (token, d') /\ d <= d';
  lk_soon token d : h !! token = Some d -> d <= clock (space s) + T
}.

Lemma lock_ok_quiet b T s s' h :
  lock_ok b T s h -> strings (space s') !! lockKey q b = strings (space s) !! lockKey q b ->
  clock (space s) <= clock (space s') -> lock_ok b T s' h.
Proof.
  intros [Hn Hs] He Hc. split.
  - intros token d Hh Hd. rewrite He. apply (Hn token d Hh). lia.
  - intros token d Hh. specialize (Hs token d Hh). lia.
Qed.

(** A live holder is what [GET] answers. *)
Lemma lock_ok_get b T s h token d :
  lock_ok b T s h -> h !! token = Some d -> clock (space s) < d -> GET (lockKey q b) s = Some token.
Proof.
  intros [Hn _] Hh Hd. destruct (Hn token d Hh Hd) as (d' & He & Hle). unfold GET, string_at. rewrite He.
  destruct (Z.ltb_spec (clock (space s)) d'); [done|lia].
Qed.

(** Everything but locks leaves the locks alone. *)
Definition about_lock {A} (c : qcall A) : Prop :=
  match c with CmdSetNX _ _ _ | RunRefreshLock _ _ _ | RunReleaseLock _ _ => True | _ => False end.

Lemma moves_quiet set jobs s k :
  set = DelayedKey q \/ set = ActiveKey q ->
  strings (space (fold_left (move_to_list set (ReadyKey q)) jobs s)) !! k = strings (space s) !! k /\
  clock (space (fold_left (move_to_list set (ReadyKey q)) jobs s)) = clock (space s).
Proof.
  intros Hset. revert s. induction jobs as [|job jobs IH]; intros s; [done|]. cbn. destruct (IH (move_to_list set (ReadyKey q) s job)) as [-> ->].
  unfold move_to_list. destruct Hset as [-> | ->]; by rewrite space_LPUSH, space_ZREM by apply sep.
Qed.

Lemma others_quiet b {A} (c : qcall A) s now token :
  sent (fun _ => True) A c -> ~ about_lock c ->
  strings (space (exec_q now token c s).2) !! lockKey q b = strings (space s) !! lockKey q b /\
  clock (space (exec_q now token c s).2) = clock (space s).
Proof.
  intros Hsent Ha. revert Hsent Ha. destruct c; intros Hsent Ha; inversion Hsent; simplify_eq; cbn [exec_q snd answer]; try done.
  - unfold batchImageEnqueueScript. destruct (GET _ s); [done|]. cbn [snd]. rewrite space_LPUSH, space_SET_PX by (apply sep || lia).
    cbn. rewrite lookup_insert_ne by apply sep. done.
  - unfold batchImageReserveScript. destruct (last _); [|done]. cbn [snd]. by rewrite space_ZADD, space_RPOP by apply sep.
  - apply moves_quiet. by left.
  - apply moves_quiet. by right.
  - by rewrite space_ZREM by apply sep.
  - destruct (ZSET _ s !! _); [|done]. by rewrite space_ZADD by apply sep.
  - cbn. by rewrite space_LPUSH, !space_ZREM by apply sep.
  - cbn. by rewrite space_ZADD, !space_ZREM by apply sep.
  - cbn. rewrite space_DEL, !space_ZREM by apply sep. cbn. rewrite lookup_delete_ne by apply sep. done.
Qed.

(** An operation on the lock of another job. *)
Lemma lock_insert_other b b' v ttl s : b' <> b -> 0 < ttl ->
  strings (space (SET_PX (lockKey q b') v ttl s)) !! lockKey q b = strings (space s) !! lockKey q b.
Proof.
  intros Hne Ht. rewrite space_SET_PX by (apply sep || lia). cbn. rewrite lookup_insert_ne; [done|].
  intros E. by apply (inj (String.append _)) in E.
Qed.

Lemma lock_taken b T s h token :
  0 < T -> lock_ok b T s h -> GET (lockKey q b) s = None ->
  lock_ok b T (SET_PX (lockKey q b) token T s) h /\ lock_ok b T (SET_PX (lockKey q b) token T s) (<[token := clock (space s) + T]> h).
Proof.
  intros HT Hl Hg.
  assert (Hdead : forall t d, h !! t = Some d -> ~ clock (space s) < d).
  { intros t d Hh Hd. pose proof (lock_ok_get _ _ _ _ _ _ Hl Hh Hd). congruence. }
  assert (Hsp : space (SET_PX (lockKey q b) token T s) = set_px (lockKey q b) token T (space s)) by (apply space_SET_PX; [apply sep|done]).
  split; (split; intros t d; rewrite Hsp; cbn [set_px strings clock set_field]).
  - intros Hh Hd. by destruct (Hdead t d Hh).
  - apply (lk_soon _ _ _ _ Hl).
  - intros [[<- <-]|[_ Hh]]%lookup_insert_Some Hd; [rewrite lookup_insert_eq; by eexists|by destruct (Hdead t d Hh)].
  - intros [[_ <-]|[_ Hh]]%lookup_insert_Some; [lia|]. by apply (lk_soon _ _ _ _ Hl t).
Qed.

Lemma lock_refreshed b T s h token :
  0 < T -> lock_ok b T s h -> GET (lockKey q b) s = Some token ->
  lock_ok b T (PEXPIRE (lockKey q b) T s) h /\ lock_ok b T (PEXPIRE (lockKey q b) T s) (<[token := clock (space s) + T]> h).
Proof.
  intros HT Hl Hg.
  assert (Hone : forall t d, h !! t = Some d -> clock (space s) < d -> t = token).
  { intros t d Hh Hd. pose proof (lock_ok_get _ _ _ _ _ _ Hl Hh Hd). congruence. }
  assert (Hsp : space (PEXPIRE (lockKey q b) T s) = set_px (lockKey q b) token T (space s)).
  { rewrite space_PEXPIRE by (apply sep || done). unfold pexpire. unfold GET in Hg. by rewrite Hg. }
  assert (Hs : strings (space (PEXPIRE (lockKey q b) T s)) !! lockKey q b = Some (token, clock (space s) + T))
    by (rewrite Hsp; cbn; apply lookup_insert_eq).
  assert (Hc : clock (space (PEXPIRE (lockKey q b) T s)) = clock (space s)) by (by rewrite Hsp).
  split; (split; intros t d; rewrite ?Hs, ?Hc).
  - intros Hh Hd. rewrite (Hone t d Hh Hd). eexists. split; [done|]. by apply (lk_soon _ _ _ _ Hl t).
  - apply (lk_soon _ _ _ _ Hl).
  - intros [[<- <-]|[_ Hh]]%lookup_insert_Some Hd; [by eexists|]. rewrite (Hone t d Hh Hd). eexists. split; [done|].
    by apply (lk_soon _ _ _ _ Hl t).
  - intros [[_ <-]|[_ Hh]]%lookup_insert_Some; [lia|]. by apply (lk_soon _ _ _ _ Hl t).
Qed.

Lemma lock_released b T s h token :
  lock_ok b T s h -> GET (lockKey q b) s = Some token -> lock_ok b T (DEL (lockKey q b) s) (delete token h).
Proof.
  intros Hl Hg. split; intros t d [Hne Hh]%lookup_delete_Some; rewrite space_DEL by apply sep.
  - intros Hd. pose proof (lock_ok_get _ _ _ _ _ _ Hl Hh Hd). congruence.
  - by apply (lk_soon _ _ _ _ Hl t).
Qed.

Lemma lock_ok_delete b T s h token : lock_ok b T s h -> lock_ok b T s (delete token h).
Proof. intros [H1 H2]. split; intros t d [_ Hh]%lookup_delete_Some; eauto. Qed.

Lemma lock_key_eq b b' : (lockKey q b =s lockKey q b') = (b =s b').
Proof.
  destruct (String.eqb_spec b b') as [->|Hne]; [apply String.eqb_refl|]. apply String.eqb_neq. intros E.
  by apply (inj (String.append _)) in E.
Qed.

Lemma held_same b T s h : lock_ok b T s h -> forall {A} (c : qcall A) r m,
  failed_q (DriverError m) c = Some r -> lock_ok b T s (held b (clock (space s)) T c r h).
Proof.
  intros Hl A c r m Hf. destruct c; cbn in *; simplify_eq; try done. destruct (_ =s _); [by apply lock_ok_delete|done].
Qed.

Section one_request.
Context (b : string) (T : Z) (s : S) (h : gmap string Z) (HT : 0 < T) (Hl : lock_ok b T s h).

Lemma release_ok b0 token :
  lock_ok b T (batchImageReleaseLockScript (lockKey q b0) token s).2 (if b0 =s b then delete token h else h).
Proof.
  unfold batchImageReleaseLockScript. destruct (String.eqb_spec b0 b) as [->|Hne].
  - case_bool_decide; [by apply lock_released|by apply lock_ok_delete].
  - case_bool_decide; [|done]. cbn [snd]. apply (lock_ok_quiet b T s); [done| |by rewrite space_DEL by apply sep].
    rewrite space_DEL by apply sep. cbn. apply lookup_delete_ne. intros E. by apply (inj (String.append _)) in E.
Qed.

Lemma refresh_ok b0 token ttl :
  0 < ttl -> (b0 = b -> ttl = T) ->
  let r := batchImageRefreshLockScript (lockKey q b0) token ttl s in
  lock_ok b T r.2 h /\ (r.1 = 1 -> b0 = b -> lock_ok b T r.2 (<[token := clock (space s) + T]> h)).
Proof.
  intros Ht Htt. unfold batchImageRefreshLockScript. destruct (decide (b0 = b)) as [->|Hne].
  - rewrite (Htt eq_refl). case_bool_decide; cbn [fst snd]; [|split; done].
    destruct (lock_refreshed b T s h token HT Hl) as [Hr1 Hr2]; [done|]. split; [exact Hr1|intros; exact Hr2].
  - split; [|intros _ ->; done]. case_bool_decide; [|done]. apply (lock_ok_quiet b T s); [done| |]; cbn [snd].
    + rewrite space_PEXPIRE by (apply sep || lia). unfold pexpire. destruct (string_at _ _); [|done]. cbn.
      apply lookup_insert_ne. intros E. by apply (inj (String.append _)) in E.
    + rewrite space_PEXPIRE by (apply sep || lia). unfold pexpire. by destruct (string_at _ _).
Qed.

Lemma setnx_ok b0 token ttl now rnd :
  (b0 = b -> Z.max 1 (Milliseconds ttl) = T) ->
  let r := exec_q now rnd (CmdSetNX (lockKey q b0) token ttl) s in
  lock_ok b T r.2 h /\ (r.1 = Ok true -> b0 = b -> lock_ok b T r.2 (<[token := clock (space s) + T]> h)).
Proof.
  intros Htt. cbn [exec_q]. destruct (GET (lockKey q b0) s) eqn:Hg; cbn [fst snd]; [done|].
  destruct (decide (b0 = b)) as [->|Hne].
  - rewrite (Htt eq_refl). destruct (lock_taken b T s h token HT Hl Hg). by split.
  - split; [|intros _ ->; done]. apply (lock_ok_quiet b T s); [done| |].
    + apply lock_insert_other; [done|lia].
    + by rewrite space_SET_PX by (apply sep || lia).
Qed.
End one_request.

Lemma lock_step_ok b T s h {A} (c : qcall A) r s' :
  0 < T -> lock_ok b T s h -> sent (fun _ => True) A c -> same_ttl b T c -> q_sem c s r s' ->
  lock_ok b T s' (held b (clock (space s)) T c r h).
Proof.
  intros HT Hl Hsent Htt (now & token & Hq).
  assert (Hcase : s' = s /\ (exists m, failed_q (DriverError m) c = Some r) \/
    s' = (exec_q now token c s).2 /\ (r = (exec_q now token c s).1 \/ exists m, failed_q (DriverError m) c = Some r)).
  { destruct Hq as [E|(m & Hf & [->| ->])]; [right; rewrite E; auto|left; eauto|right; eauto]. }
  clear Hq. destruct Hcase as [[-> [m Hf]]|[-> Hr]]; [by eapply held_same|].
  assert (Hdec : about_lock c \/ ~ about_lock c) by (destruct c; cbn; auto). destruct Hdec as [Ha|Ha].
  - destruct c; try done; inversion Hsent; simplify_eq; cbn [held same_ttl] in *; rewrite lock_key_eq.
    + apply (release_ok b T s h Hl).
    + destruct (refresh_ok b T s h HT Hl b0 token0 ttl) as [H1 H2]; [done|intros ->; by apply Htt|].
      cbn [exec_q answer fst snd] in *. destruct Hr as [->|[m [= <-]]]; [|exact H1].
      destruct (batchImageRefreshLockScript _ _ ttl s) as [n s2] eqn:E. cbn [fst snd] in *.
      destruct (String.eqb_spec b0 b) as [Hb|]; [|by destruct n as [|[]|]]. destruct (decide (n = 1)) as [->|]; [by apply H2|].
      by destruct n as [|[]|].
    + destruct (setnx_ok b T s h HT Hl b0 v ttl now token) as [H1 H2]; [intros ->; by apply Htt|].
      destruct Hr as [Hr|[m [= <-]]]; [|exact H1]. destruct (exec_q now token (CmdSetNX (lockKey q b0) v ttl) s) as [r' s2] eqn:E.
      cbn [fst snd] in *. subst r. destruct r' as [[]|]; [|done|done].
      destruct (String.eqb_spec b0 b) as [Hb|]; [by apply H2|done].
  - destruct (others_quiet b c s now token Hsent Ha) as [Hst Hck].
    assert (Hq : lock_ok b T (exec_q now token c s).2 h) by (apply (lock_ok_quiet b T s); [done|exact Hst|rewrite Hck; done]).
    by destruct c.
Qed.

(** C21: One worker at a time.  Whatever requests clients make and however much time
    passes between them, at any moment at most one worker holds the lock of a
    job: of those that were granted it or had it refreshed, did not ask to
    release it and whose time is not over; and the server names this worker. *)
Theorem lock_exclusive b T s0 s h t1 d1 t2 d2 :
  0 < T -> rtc (lock_step b T) (s0, ∅) (s, h) ->
  h !! t1 = Some d1 -> clock (space s) < d1 -> h !! t2 = Some d2 -> clock (space s) < d2 ->
  t1 = t2 /\ GET (lockKey q b) s = Some t1.
Proof.
  intros HT Hsteps H1 Hd1 H2 Hd2.
  assert (Hl : lock_ok b T s h).
  { clear -sep HT Hsteps H0. change s with (s, h).1. change h with (s, h).2 at 2. revert Hsteps. generalize (s, h). clear s h.
    refine (rtc_ind_r (fun st => lock_ok b T st.1 st.2) (s0, ∅) _ _).
    - split; cbn; intros token d Hd; by rewrite lookup_empty in Hd.
    - intros x y _ Hstep Hx. inversion Hstep as [dt s h Hdt|A c r s s' h Hs Ht Hq]; subst; cbn in *.
      + apply (lock_ok_quiet b T s); [done|by rewrite space_elapse|rewrite space_elapse by done; cbn; lia].
      + by apply (lock_step_ok b T s h c r s'). }
  pose proof (lock_ok_get _ _ _ _ _ _ Hl H1 Hd1). pose proof (lock_ok_get _ _ _ _ _ _ Hl H2 Hd2). split; congruence.
Qed.

(** *** The methods

    All requests of a method are [sent]; the keys of locks live for at least a
    millisecond. *)
Definition sends (permit : string -> Prop) {R} (p : free qcall R) : Prop :=
  always (fun A (_ : unit) c => sent permit A c) (fun _ _ _ _ => True) (fun _ κ _ _ => κ) (fun _ _ => True) tt p.

Lemma sends_bind permit {A B} (p : free qcall A) (k : A -> free qcall B) :
  sends permit p -> (forall r, sends permit (k r)) -> sends permit (bind p k).
Proof. intros Hp Hk. apply always_bind. eapply always_mono; [|exact Hp]. intros [] r _. apply Hk. Qed.

Context (ttl_ok : Millisecond <= InflightTTL q).

Lemma Milliseconds_pos d : Millisecond <= d -> 0 < Milliseconds d.
Proof. unfold Milliseconds. intros Hd. apply Z.quot_str_pos. unfold Millisecond in *. lia. Qed.

Ltac send_steps :=
  repeat first
    [ progress cbn [sends always] | split; [by constructor; auto using Milliseconds_pos|] | intros ? | exact I
    | case_match ].

Section methods_send.
Context (permit : string -> Prop) (b : string).
Lemma QueueEnqueue_sends : sends permit (QueueEnqueue q b).
Proof. unfold QueueEnqueue. send_steps. Qed.
Lemma reserveOnce_sends : sends permit (reserveOnce q).
Proof. unfold reserveOnce. send_steps. Qed.
Lemma RequeueAfter_sends d : sends permit (RequeueAfter q b d).
Proof. unfold RequeueAfter. send_steps. Qed.
Lemma Ack_sends : permit b -> sends permit (Ack q b).
Proof. intros Hp. unfold Ack. send_steps. Qed.
Lemma Heartbeat_sends : sends permit (Heartbeat q b).
Proof. unfold Heartbeat. send_steps. Qed.
Lemma MoveDueDelayedToReady_sends n : sends permit (MoveDueDelayedToReady q n).
Proof. unfold MoveDueDelayedToReady. send_steps. Qed.
Lemma RecoverStaleActive_sends d n : sends permit (RecoverStaleActive q d n).
Proof. unfold RecoverStaleActive. send_steps. Qed.
Lemma TryAcquireJobLock_sends ttl : sends permit (TryAcquireJobLock q b ttl).
Proof. unfold TryAcquireJobLock. send_steps. Qed.
Lemma Release_sends token : sends permit (Release (JobLock (lockKey q b) token)).
Proof. unfold Release. send_steps. Qed.
Lemma Refresh_sends token ttl : Millisecond <= ttl -> sends permit (Refresh (JobLock (lockKey q b) token) ttl).
Proof. intros Ht. unfold Refresh. cbn [lock_key lock_token]. destruct (_ || _); [exact I|]. send_steps. Qed.
Lemma reserve_until_sends n d : sends permit (reserve_until q n d).
Proof.
  induction n as [|n IH]; [exact I|]. cbn [reserve_until]. apply sends_bind; [apply reserveOnce_sends|]. intros [r|e]; [exact I|].
  send_steps; apply IH.
Qed.
Lemma Reserve_sends n d : sends permit (Reserve q n d).
Proof. unfold Reserve. split; [constructor|]. intros now _. apply reserve_until_sends. Qed.
End methods_send.

(** *** The wait for a job ends

    The client's clock does not run backwards, and a timer that expires took
    its time; apart from this every call may answer anything. *)
Definition clock_allows (A : Type) (κ : Time) (c : qcall A) : A -> Prop :=
  fun x => (match c in qcall A return A -> Prop with QNow => fun now => κ <= now | _ => fun _ => True end) x /\
           exists s s', q_sem c s x s'.
Definition clock_after (A : Type) (κ : Time) (c : qcall A) : A -> Time :=
  match c in qcall A return A -> Time with
  | QNow => fun now => now
  | QSleep d => fun _ => κ + d
  | _ => fun _ => κ
  end.

Definition runs_to {R} (Q : Time -> R -> Prop) (κ : Time) (p : free qcall R) : Prop :=
  always (fun _ _ _ => True) clock_allows clock_after Q κ p.

(** No answer is the model's own error. *)
Definition answers_of_code {A} (c : qcall A) : A -> Prop :=
  match c in qcall A return A -> Prop with
  | QSleep _ => fun r => r <> Err too_many_polls
  | RunReserve _ _ _ => fun r => r <> Err too_many_polls
  | _ => fun _ => True
  end.

Lemma q_sem_of_code {A} (c : qcall A) s r s' : q_sem c s r s' -> answers_of_code c r.
Proof.
  intros (now & token & [E|(m & Hf & _)]).
  - apply (f_equal fst) in E. cbn [fst] in E. rewrite <- E. clear E. destruct c; cbn; try done.
    by destruct (batchImageReserveScript _ _ _ _) as [[]].
  - destruct c; cbn in *; simplify_eq; done.
Qed.

Lemma reserveOnce_ends κ : runs_to (fun κ' r => κ <= κ' /\ r <> Err too_many_polls) κ (reserveOnce q).
Proof.
  unfold reserveOnce, runs_to. cbn. split; [done|]. intros now [Hn _]. split; [done|]. intros [b|e] [_ (s & s' & Hq)].
  - destruct (IsValidBatchImageID b); [done|]. destruct (b =s ""); [done|]. cbn. done.
  - cbn. split; [done|]. apply q_sem_of_code in Hq. cbn in Hq. destruct (errors_Is e redis_Nil); [done|congruence].
Qed.

Lemma reserve_until_ends rounds deadline κ :
  deadline - κ <= int64_max -> deadline - κ <= (Z.of_nat rounds - 1) * Second -> 1 <= Z.of_nat rounds ->
  runs_to (fun _ r => r <> Err too_many_polls) κ (reserve_until q rounds deadline).
Proof.
  revert deadline κ. induction rounds as [|n IH]; intros deadline κ Hmax Hd Hn; [lia|]. cbn [reserve_until].
  apply always_bind. eapply always_mono; [|apply reserveOnce_ends]. intros κ1 [b|e] [Hκ He]; [done|].
  destruct (negb (errors_Is e ErrBatchImageQueueEmpty)); [cbn; congruence|]. cbn. split; [done|]. intros now1 [Hnow _].
  unfold time_Sub. destruct (Z.leb_spec (Z.max int64_min (Z.min int64_max (deadline - now1))) 0) as [|Hrem]; [done|].
  assert (Hpos : 0 < deadline - now1) by (unfold int64_min, int64_max in *; lia).
  assert (Heq : Z.max int64_min (Z.min int64_max (deadline - now1)) = deadline - now1) by (unfold int64_min, int64_max in *; lia).
  rewrite Heq. cbn. split; [done|]. intros [u|e2] [_ (s & s' & Hq)]; [|cbn; apply q_sem_of_code in Hq; cbn in Hq; congruence].
  assert (1 <= Z.of_nat n) by (destruct n; [unfold Second in *; lia|lia]).
  unfold batchImageReservePollInterval in *. unfold Second in *.
  apply IH; [| |done]; destruct (Z.ltb_spec (deadline - now1) 1000000000); lia.
Qed.

(** The model's bound on the polls is no bound: for [Reserve] with a time of at
    most [rounds - 1] seconds, every run comes to an answer of the code, within
    [rounds] polls. *)
Theorem Reserve_answers rounds blockTimeout κ :
  0 <= blockTimeout <= int64_max -> blockTimeout <= (Z.of_nat rounds - 1) * Second ->
  runs_to (fun _ r => r <> Err too_many_polls) κ (Reserve q rounds blockTimeout).
Proof.
  intros Hmax Hb. unfold Reserve, runs_to. cbn. split; [done|]. intros now [_ _]. unfold time_Add.
  apply reserve_until_ends; unfold Second in *; lia.
Qed.
End places.

(** ** The default queue *)

Definition default_queue : batchImageQueueOptions := NewBatchImageQueue None.

Definition default_kind (k : string) : redis_type :=
  if k =s defaultBatchImageReadyKey then ListKey
  else if (k =s defaultBatchImageDelayedKey) || (k =s defaultBatchImageActiveKey) then ZSetKey else StringKey.

Lemma default_separate : separate_keys default_kind default_queue.
Proof. by split. Qed.

(** One worker takes the lock and refreshes it, another asks in vain. *)
Definition lock_requests : list (qcall (outcome bool error) + Z) :=
  let ask token := inl (CmdSetNX (lockKey default_queue "imgbatch_1") token (5 * Minute)) in
  [ask "worker A"; inr 100000; ask "worker B"; inr 100000; ask "worker C"].

Definition lock_move (r : qcall (outcome bool error) + Z) (st : keyspace * gmap string Z) : keyspace * gmap string Z :=
  match r with
  | inl c => ((exec_q 0 "" c st.1).2,
              held default_queue "imgbatch_1" (clock (space st.1)) 300000 c (exec_q 0 "" c st.1).1 st.2)
  | inr dt => (elapse dt st.1, st.2)
  end.

Lemma lock_moves rs st :
  Forall (fun r => match r with
                   | inl c => sent default_queue (fun _ => True) _ c /\ same_ttl default_queue "imgbatch_1" 300000 c
                   | inr dt => 0 <= dt
                   end) rs ->
  rtc (lock_step default_queue "imgbatch_1" 300000) st (fold_left (fun st r => lock_move r st) rs st).
Proof.
  intros Hrs. revert st. induction Hrs as [|r rs Hr _ IH]; intros [s h]; [done|]. eapply rtc_l; [|apply IH].
  destruct r as [c|dt]; [|by apply lock_elapse]. destruct Hr. apply lock_request; [done|done|].
  exists 0, "". left. apply surjective_pairing.
Qed.

Lemma lock_exclusive_witness :
  let st := fold_left (fun st r => lock_move r st) lock_requests (empty_keyspace, ∅) in
  st.2 = {[ "worker A" := 300000 ]} /\ clock (space st.1) = 200000 /\
  GET (lockKey default_queue "imgbatch_1") st.1 = Some "worker A".
Proof.
  intros st. assert (Hh : st.2 = {[ "worker A" := 300000 ]}) by (vm_compute; reflexivity).
  assert (Hc : clock (space st.1) = 200000) by (vm_compute; reflexivity). split; [exact Hh|]. split; [exact Hc|].
  refine (proj2 (lock_exclusive default_kind default_queue default_separate "imgbatch_1" 300000 empty_keyspace st.1 st.2
    "worker A" 300000 "worker A" 300000 eq_refl _ _ _ _ _)).
  - rewrite <- (surjective_pairing st). apply lock_moves. repeat constructor; try done; intros _; reflexivity.
  - rewrite Hh. reflexivity.
  - rewrite Hc. lia.
  - rewrite Hh. reflexivity.
  - rewrite Hc. lia.
Defined.

(** Five seconds in six polls. *)
Lemma Reserve_answers_witness :
  runs_to (S := keyspace) (fun _ r => r <> Err too_many_polls) 0 (Reserve default_queue 6 (5 * Second)).
Proof. apply (Reserve_answers (S := keyspace) default_queue 6 (5 * Second) 0); unfold Second, int64_max; lia. Defined.
End BatchImageQueue.
