(* ===== verification/BatchImageIndex.v ===== *)
(** * Indexing the results of a batch image job

    [BatchImageResultIndexer] of [service/batch_image_processor.go]: the lines
    of a provider's output are parsed, matched with the items that were
    submitted, and completed by a failure for every item without a result.

    A decoded JSON value of type any is represented by its text: a type
    assertion looks at its first byte. *)

From S2P Require Import Prelude GoStrings GoFloat AppErrors Json JsonCodec JsonAny BatchImage.

Module BatchImageIndex.
Import Json JsonCodec JsonAny BatchImage.
#[local] Open Scope Z_scope.

Definition ErrBatchImageIndexOutputMissing :=
  New 502 "BATCH_IMAGE_INDEX_OUTPUT_MISSING" "batch image provider output is missing".
Definition ErrBatchImageIndexParseFailed :=
  New 502 "BATCH_IMAGE_INDEX_PARSE_FAILED" "batch image provider output parse failed".
Definition ErrBatchImageIndexNoResultLines :=
  New 502 "BATCH_IMAGE_INDEX_NO_RESULT_LINES" "batch image provider output has no result lines".
Definition ErrBatchImageDuplicateCustomID :=
  New 502 "DUPLICATE_CUSTOM_ID_IN_OUTPUT" "batch image provider output contains duplicate custom id".

Definition BatchImageParsedStatusSucceeded : string := "succeeded".
Definition BatchImageParsedStatusFailed : string := "failed".
Definition batchImageMaxErrorMessageLength : Z := 1000.

(** ** [strconv.Quote]

    Of the runes above ASCII, [IsPrint] says which are copied. *)
Definition hex_digits (n : nat) (r : Z) : list ascii :=
  map (fun i => hex_digit (Z.shiftr r (4 * Z.of_nat i) mod 16)) (rev (seq 0 n)).

Definition escape_rune (IsPrint : Z -> bool) (r : Z) (own : list ascii) : list ascii :=
  if (r =? 34) || (r =? 92) then [chr 92; chr r]
  else if if r <? 128 then (32 <=? r) && (r <=? 126) else IsPrint r then own
  else if r =? 7 then to_bytes "\a"
  else if r =? 8 then to_bytes "\b"
  else if r =? 12 then to_bytes "\f"
  else if r =? 10 then to_bytes "\n"
  else if r =? 13 then to_bytes "\r"
  else if r =? 9 then to_bytes "\t"
  else if r =? 11 then to_bytes "\v"
  else if (r <? 32) || (r =? 127) then to_bytes "\x" ++ hex_digits 2 r
  else if r <? 65536 then to_bytes "\u" ++ hex_digits 4 r
  else to_bytes "\U" ++ hex_digits 8 r.

Fixpoint quote_bytes (IsPrint : Z -> bool) (fuel : nat) (l : list ascii) : list ascii :=
  match fuel, l with
  | S fuel, a :: _ =>
      let '(r, w) := decode_rune l in
      (if (r =? RuneError) && (w =? 1)%nat then to_bytes "\x" ++ hex_digits 2 (byte_of a) else escape_rune IsPrint r (take w l))
      ++ quote_bytes IsPrint fuel (drop w l)
  | _, _ => []
  end.

Definition Quote (IsPrint : Z -> bool) (s : string) : string :=
  of_bytes ([chr 34] ++ quote_bytes IsPrint (String.length s) (to_bytes s) ++ [chr 34]).

Example Quote_escapes : Quote (fun _ => true) ("a\" +:+ of_bytes [chr 10; chr 195; chr 169; chr 1; chr 255]) =
  of_bytes ([chr 34] ++ to_bytes "a\\\n" ++ [chr 195; chr 169] ++ to_bytes "\x01\xff" ++ [chr 34]).
Proof. vm_compute. reflexivity. Qed.

(** ** Small helpers *)

Definition batchImageDerefString (v : option string) : string := match v with Some s => TrimSpace s | None => "" end.
Definition batchImageStringPtr (v : string) : option string := Some v.
Definition batchImageOptionalStringPtr (v : string) : option string :=
  let v := TrimSpace v in if v =s "" then None else Some v.

Definition truncateBatchImageMessage (message : string) (limit : Z) : string :=
  let message := TrimSpace message in
  if (limit <=? 0) || (len message <=? limit) then message else str_take (Z.to_nat limit) message.

Fixpoint batchImageFirstNonEmptyString (values : list string) : string :=
  match values with
  | [] => ""
  | v :: rest => if TrimSpace v =s "" then batchImageFirstNonEmptyString rest else TrimSpace v
  end.

(** ** Values of type any *)

Definition any : Type := string.

(** [value.(map[string]any)] and [value.([]any)]; an absent member is [nil]. *)
Definition as_map (v : option any) : option (gmap string any) :=
  match v with Some s => if first_is 123 s then unmarshal_object s else None | None => None end.
Definition as_list (v : option any) : option (list any) :=
  match v with
  | Some (String c r) => if is_byte 91 c then Some (array_elements r) else None
  | _ => None
  end.

(** [int64(f)] of the decoded number: truncation, and the smallest integer
    outside the range. *)
Definition any_int64 (token : string) : Z :=
  let '(m, e) := decimal token in
  let x := if 0 <=? e then f64_of_ratio (m * 10 ^ e) 1 else f64_of_ratio m (Z.to_pos (10 ^ (- e))) in
  let q := f64_value x in
  let n := Z.quot (QArith_base.Qnum q) (Zpos (QArith_base.Qden q)) in
  let n := if HasPrefix token "-" then - n else n in
  if (int64_min <=? n) && (n <=? int64_max) then n else int64_min.

Definition batchImageMapString (m : gmap string any) (key : string) : string :=
  match m !! key with
  | Some (String c r) =>
      if is_byte 34 c then TrimSpace (unquote r)
      else if is_byte 45 c || byte_in 48 57 c then Itoa (any_int64 (String c r))
      else ""
  | _ => ""
  end.

Fixpoint batchImageNestedAny (m : gmap string any) (keys : list string) : option any :=
  match keys with
  | [] => None
  | [key] => m !! key
  | key :: rest => match as_map (m !! key) with Some cm => batchImageNestedAny cm rest | None => None end
  end.

Definition batchImageNestedString (m : gmap string any) (keys : list string) : string :=
  match batchImageNestedAny m keys with
  | Some (String c r) => if is_byte 34 c then TrimSpace (unquote r) else ""
  | _ => ""
  end.

Fixpoint firstMap (values : list (option any)) : option (gmap string any) :=
  match values with
  | [] => None
  | v :: rest => match as_map v with Some m => Some m | None => firstMap rest end
  end.

(** ** One line *)

Record ParsedBatchImageResult := Parsed {
  pr_CustomID : string;
  pr_Status : string;
  pr_MimeType : string;
  pr_FileExtension : string;
  pr_ImageCount : Z;
  pr_ErrorCode : string;
  pr_ErrorMessage : string;
  pr_SourceLineNumber : Z
}.

Definition batchImageFileExtension (mimeType : string) : string :=
  let m := ToLower (TrimSpace mimeType) in
  if m =s "image/png" then "png"
  else if (m =s "image/jpeg") || (m =s "image/jpg") then "jpg"
  else if m =s "image/webp" then "webp"
  else "".

(** The image of a part: its trimmed mime type. *)
Definition image_part (partRaw : any) : option string :=
  match as_map (Some partRaw) with
  | None => None
  | Some part =>
      match firstMap [part !! "inlineData"; part !! "inline_data"] with
      | None => None
      | Some inline =>
          let data := TrimSpace (batchImageMapString inline "data") in
          let mime := batchImageFirstNonEmptyString [batchImageMapString inline "mimeType"; batchImageMapString inline "mime_type"] in
          if (data =s "") || negb (HasPrefix (ToLower (TrimSpace mime)) "image/") then None else Some (TrimSpace mime)
      end
  end.

Definition candidate_images (candidateRaw : any) : list string :=
  match as_map (Some candidateRaw) with
  | None => []
  | Some candidate =>
      match as_list (batchImageNestedAny candidate ["content"; "parts"]) with
      | None => []
      | Some parts => omap image_part parts
      end
  end.

(** The first mime type that is not empty. *)
Fixpoint first_mime (mimes : list string) : string :=
  match mimes with [] => "" | m :: rest => if m =s "" then first_mime rest else m end.

Definition batchImageFindImagePartsInCandidates (raw : option any) : Z * string :=
  match as_list raw with
  | None => (0, "")
  | Some candidates =>
      let images := concat (map candidate_images candidates) in
      (Z.of_nat (length images), first_mime images)
  end.

Definition batchImageFindImageParts (obj : gmap string any) : Z * string :=
  let '(count, mimeType) := batchImageFindImagePartsInCandidates (batchImageNestedAny obj ["response"; "candidates"]) in
  if 0 <? count then (count, mimeType) else batchImageFindImagePartsInCandidates (obj !! "candidates").

Definition batchImageMapFailureCode (code message : string) : string :=
  let text := ToLower (TrimSpace (code +:+ " " +:+ message)) in
  let has := existsb (Contains text) in
  if has ["safety"; "policy"; "blocked"; "prohibited"] then "SAFETY_BLOCKED"
  else if has ["invalid_argument"; "invalid argument"; "bad request"] then "INVALID_ARGUMENT"
  else if has ["quota"; "rate"; "resource_exhausted"; "too many requests"] then "PROVIDER_RATE_LIMITED"
  else "PROVIDER_ITEM_FAILED".

Definition failure_of (m : gmap string any) : string * string :=
  let message := batchImageFirstNonEmptyString [batchImageMapString m "message"; batchImageMapString m "details"] in
  let code := batchImageFirstNonEmptyString [batchImageMapString m "code"; batchImageMapString m "status"] in
  (batchImageMapFailureCode code message, message).

Definition batchImageFailureFromProviderFields (obj : gmap string any) : option (string * string) :=
  match as_map (obj !! "status") with
  | Some status => Some (failure_of status)
  | None => match as_map (obj !! "error") with Some e => Some (failure_of e) | None => None end
  end.

Definition batchImageHasCandidates (obj : gmap string any) : bool :=
  bool_decide (is_Some (obj !! "candidates")) ||
  match as_list (batchImageNestedAny obj ["response"; "candidates"]) with Some _ => true | None => false end.

(** [json.Unmarshal(line, &obj)] into a [map[string]any]. *)
Definition unmarshal_any_map (line : string) : option (gmap string any) :=
  if negb (Valid line) then None
  else if forallb in_range (numbers (String.length line) line) then unmarshal_object line
  else None.

Definition line_error (lineNumber : Z) (what : string) : error :=
  WithCause ErrBatchImageIndexParseFailed (PlainError ("line " +:+ Itoa lineNumber +:+ ": " +:+ what)).

Definition ParseBatchImageResultLine (line : string) (lineNumber : Z) : outcome ParsedBatchImageResult error :=
  match unmarshal_any_map line with
  | None => Err (line_error lineNumber "invalid JSON")
  | Some obj =>
      let customID := batchImageFirstNonEmptyString
        [batchImageMapString obj "key"; batchImageMapString obj "custom_id"; batchImageMapString obj "customId";
         batchImageNestedString obj ["request"; "key"]] in
      if customID =s "" then Err (line_error lineNumber "missing custom id")
      else
        let failed code message := Ok (Parsed customID BatchImageParsedStatusFailed "" "" 0 code message lineNumber) in
        let '(imageCount, mimeType) := batchImageFindImageParts obj in
        if 0 <? imageCount then
          Ok (Parsed customID BatchImageParsedStatusSucceeded mimeType (batchImageFileExtension mimeType) imageCount "" "" lineNumber)
        else match batchImageFailureFromProviderFields obj with
        | Some (code, message) => failed code (truncateBatchImageMessage message batchImageMaxErrorMessageLength)
        | None =>
            if bool_decide (is_Some (obj !! "response")) || batchImageHasCandidates obj then
              failed "EMPTY_IMAGE_OUTPUT" "provider response contained no image output"
            else failed "PROVIDER_ITEM_FAILED" "provider result line contained no image output"
        end
  end.
(** ** A whole output *)

(** [bufio.Scanner] over the content with the code's buffer of 16 MB: the lines
    without their terminators, up to a line that is too long. *)
Definition maxTokenSize : Z := 16 * 1024 * 1024.

Definition drop_cr (line : string) : string :=
  match to_bytes line with
  | [] => ""
  | _ => if is_byte 13 (List.last (to_bytes line) (chr 0)) then str_take (String.length line - 1) line else line
  end.

Fixpoint drop_last_empty (lines : list string) : list string :=
  match lines with
  | [] => []
  | [l] => if l =s "" then [] else [l]
  | l :: rest => l :: drop_last_empty rest
  end.

Fixpoint short_lines (lines : list string) : list string * option error :=
  match lines with
  | [] => ([], None)
  | l :: rest =>
      if maxTokenSize <=? len l then ([], Some (DriverError "bufio.Scanner: token too long"))
      else let '(ls, e) := short_lines rest in (drop_cr l :: ls, e)
  end.

Definition scan_lines (content : string) : list string * option error :=
  short_lines (drop_last_empty (SplitByte content (chr 10))).

(** The loop's variables. *)
Record index_state := Indexing {
  ix_seen : gmap string Z;   (* the line of each id *)
  ix_unknown : Z;
  ix_items : list BatchImageItem;
  ix_success : Z;
  ix_fail : Z;
  ix_total : Z
}.
#[export] Instance index_state_struct : Struct index_state := fun s =>
  Indexing (ix_seen s) (ix_unknown s) (ix_items s) (ix_success s) (ix_fail s) (ix_total s).

Definition index_start : index_state := Indexing ∅ 0 [] 0 0 0.

Definition result_item (parsed : ParsedBatchImageResult) (sourceObject : string) (now : Time) : BatchImageItem :=
  let ok := pr_Status parsed =s BatchImageParsedStatusSucceeded in
  let on (b : bool) (v : string) := if b then batchImageOptionalStringPtr v else None in
  Item (pr_CustomID parsed) (if ok then BatchImageItemStatusSuccess else BatchImageItemStatusFailed) None None
    (batchImageOptionalStringPtr sourceObject) (Some (pr_SourceLineNumber parsed)) (on ok (pr_MimeType parsed))
    (on ok (pr_FileExtension parsed)) (pr_ImageCount parsed) (on (negb ok) (pr_ErrorCode parsed))
    (on (negb ok) (pr_ErrorMessage parsed)) (Some now).

Section index.
Context (IsPrint : Z -> bool).

Definition index_line (expected : gset string) (sourceObject : string) (now : Time) (lineNumber : Z) (text : string)
    (st : index_state) : outcome index_state error :=
  let line := TrimSpace text in
  if line =s "" then Ok st
  else match ParseBatchImageResultLine line lineNumber with
  | Err e => Err e
  | Ok parsed =>
      if negb (bool_decide (expected = ∅)) && negb (bool_decide (pr_CustomID parsed ∈ expected)) then
        Ok (st <| ix_unknown := ix_unknown st + 1 |>)
      else match ix_seen st !! pr_CustomID parsed with
      | Some firstLine =>
          Err (WithCause ErrBatchImageDuplicateCustomID
            (PlainError ("custom id " +:+ Quote IsPrint (pr_CustomID parsed) +:+ " duplicated at lines " +:+ Itoa firstLine +:+
                         " and " +:+ Itoa lineNumber)))
      | None =>
          let item := result_item parsed sourceObject now in
          let ok := pr_Status parsed =s BatchImageParsedStatusSucceeded in
          Ok (Indexing (<[pr_CustomID parsed := lineNumber]> (ix_seen st)) (ix_unknown st) (ix_items st ++ [item])
                (ix_success st + Z.b2z ok) (ix_fail st + Z.b2z (negb ok)) (ix_total st + 1))
      end
  end.

Fixpoint index_lines (expected : gset string) (sourceObject : string) (now : Time) (lineNumber : Z) (lines : list string)
    (st : index_state) : outcome index_state error :=
  match lines with
  | [] => Ok st
  | text :: rest =>
      match index_line expected sourceObject now lineNumber text st with
      | Err e => Err e
      | Ok st => index_lines expected sourceObject now (lineNumber + 1) rest st
      end
  end.

(** The failure recorded for an item without a result. *)
Definition missing_item (sourceObject : string) (now : Time) (customID : string) : BatchImageItem :=
  Item customID BatchImageItemStatusFailed None None (batchImageOptionalStringPtr sourceObject) None None None 0
    (Some "PROVIDER_RESULT_MISSING") (Some "provider output did not include a result for this item") (Some now).

Definition missing_ids (expected seen : gset string) : list string := merge_sort String.leb (base.elements (expected ∖ seen)).

Definition add_missing (expected : gset string) (sourceObject : string) (now : Time) (st : index_state) : index_state * Z :=
  let missing := if bool_decide (expected = ∅) then [] else missing_ids expected (dom (ix_seen st)) in
  let n := Z.of_nat (length missing) in
  (st <| ix_items := ix_items st ++ map (missing_item sourceObject now) missing |>
      <| ix_fail := ix_fail st + n |> <| ix_total := ix_total st + n |>, n).

(** From the content of the output to the items and counts, and the numbers of
    unknown and missing ids. *)
Definition index_output (expected : gset string) (sourceObject : string) (now : Time) (content : string) (readErr : option error)
    : outcome (index_state * Z) error :=
  let '(lines, scanErr) := scan_lines content in
  match index_lines expected sourceObject now 1 lines index_start with
  | Err e => Err e
  | Ok st =>
      match scanErr, readErr with
      | Some e, _ => Err e
      | None, Some e => Err e
      | None, None =>
          let '(st, missing) := add_missing expected sourceObject now st in
          if ix_total st =? 0 then Err ErrBatchImageIndexNoResultLines else Ok (st, missing)
      end
  end.

Definition sourceObject_of (job : BatchImageJob) : string :=
  let s := batchImageDerefString (ProviderOutputRef job) in
  if s =s "" then batchImageDerefString (ProviderJobName job) else s.

(** ** What indexing guarantees *)

Definition succeeded (i : BatchImageItem) : bool := item_Status i =s BatchImageItemStatusSuccess.
Definition count_items (f : BatchImageItem -> bool) (l : list BatchImageItem) : Z := Z.of_nat (length (List.filter f l)).

Record index_ok (expected : gset string) (st : index_state) : Prop := {
  io_seen : list_to_set (item_CustomID <$> ix_items st) = dom (ix_seen st);
  io_nodup : NoDup (item_CustomID <$> ix_items st);
  io_expected : expected <> ∅ -> dom (ix_seen st) ⊆ expected;
  io_success : ix_success st = count_items succeeded (ix_items st);
  io_fail : ix_fail st = count_items (fun i => negb (succeeded i)) (ix_items st);
  io_total : ix_total st = Z.of_nat (length (ix_items st))
}.

Lemma count_items_app f l l' : count_items f (l ++ l') = count_items f l + count_items f l'.
Proof. unfold count_items. rewrite List.filter_app, length_app. lia. Qed.

Lemma count_items_one f i : count_items f [i] = Z.b2z (f i).
Proof. unfold count_items. cbn. by destruct (f i). Qed.

Lemma result_item_succeeded p so now : succeeded (result_item p so now) = (pr_Status p =s BatchImageParsedStatusSucceeded).
Proof. unfold succeeded, result_item. cbn. by destruct (pr_Status p =s _). Qed.

Lemma index_line_ok expected so now n text st st' :
  index_ok expected st -> index_line expected so now n text st = Ok st' -> index_ok expected st'.
Proof.
  intros Hi H. unfold index_line in H. destruct (TrimSpace text =s ""); [by injection H as <-|].
  destruct (ParseBatchImageResultLine _ n) as [p|e]; [|done].
  destruct (_ && _) eqn:Hu; [injection H as <-; by destruct Hi|].
  destruct (ix_seen st !! pr_CustomID p) eqn:Hs; [done|]. injection H as <-.
  apply not_elem_of_dom in Hs. destruct Hi as [H1 H2 H3 H4 H5 H6]. pose proof (result_item_succeeded p so now) as Hok.
  assert (Hid : item_CustomID (result_item p so now) = pr_CustomID p) by done.
  generalize dependent (result_item p so now). intros i Hok Hid. split; cbn.
  - rewrite fmap_app, list_to_set_app_L, H1, dom_insert_L. cbn. rewrite Hid. set_solver.
  - rewrite fmap_app. apply NoDup_app. split; [done|]. split; [|apply NoDup_singleton].
    intros x Hx Hx'. cbn in Hx'. apply list_elem_of_singleton in Hx' as ->. apply Hs. rewrite <- H1, Hid in *.
    by apply elem_of_list_to_set.
  - intros He. specialize (H3 He). apply andb_false_iff in Hu as [Hu|Hu].
    + apply negb_false_iff, bool_decide_eq_true in Hu. done.
    + apply negb_false_iff, bool_decide_eq_true in Hu. set_solver.
  - rewrite count_items_app, count_items_one, ?Hok. lia.
  - rewrite count_items_app, count_items_one, ?Hok. lia.
  - rewrite length_app. cbn. lia.
Qed.

Lemma index_lines_ok expected so now lines : forall n st st',
  index_ok expected st -> index_lines expected so now n lines st = Ok st' -> index_ok expected st'.
Proof.
  induction lines as [|text lines IH]; intros n st st' Hi H; cbn in H; [by injection H as <-|].
  destruct (index_line expected so now n text st) as [st1|] eqn:Hl; [|done]. eauto using index_line_ok.
Qed.

Lemma index_start_ok expected : index_ok expected index_start.
Proof. split; cbn; [done|constructor|set_solver|done|done|done]. Qed.

Lemma missing_ids_elements expected seen : missing_ids expected seen ≡ₚ base.elements (expected ∖ seen).
Proof. apply merge_sort_Permutation. Qed.

Lemma missing_custom_ids so now l : item_CustomID <$> map (missing_item so now) l = l.
Proof. induction l as [|x l IH]; cbn; [done|]. by rewrite IH. Qed.

Lemma missing_failed so now l : count_items (fun i => negb (succeeded i)) (map (missing_item so now) l) = Z.of_nat (length l)
  /\ count_items succeeded (map (missing_item so now) l) = 0.
Proof. unfold count_items. induction l as [|x l [IH1 IH2]]; [done|]. cbn in *. lia. Qed.


Lemma parsed_success line n p :
  ParseBatchImageResultLine line n = Ok p -> pr_Status p = BatchImageParsedStatusSucceeded -> 0 < pr_ImageCount p.
Proof.
  unfold ParseBatchImageResultLine. intros H Hs. destruct (unmarshal_any_map line) as [obj|]; [|done].
  destruct (batchImageFirstNonEmptyString _ =s ""); [done|]. destruct (batchImageFindImageParts obj) as [c m].
  destruct (0 <? c) eqn:Hc; [injection H as <-; cbn in *; lia|].
  destruct (batchImageFailureFromProviderFields obj) as [[code msg]|]; [injection H as <-; done|].
  destruct (_ || _); injection H as <-; done.
Qed.

(** Where the items come from. *)
Definition from_lines (all : list string) (so : string) (now : Time) (st : index_state) : Prop :=
  forall i, i ∈ ix_items st -> exists n line p,
    line ∈ all /\ ParseBatchImageResultLine (TrimSpace line) n = Ok p /\ i = result_item p so now.

Lemma index_lines_from all expected so now lines : forall n st st',
  (forall l, l ∈ lines -> l ∈ all) -> from_lines all so now st ->
  index_lines expected so now n lines st = Ok st' -> from_lines all so now st'.
Proof.
  induction lines as [|text lines IH]; intros n st st' Hall Hf H; cbn in H; [by injection H as <-|].
  destruct (index_line expected so now n text st) as [st1|] eqn:Hl; [|done].
  refine (IH _ _ _ _ _ H); [intros l Hin; apply Hall; by right|].
  unfold index_line in Hl. destruct (TrimSpace text =s ""); [by injection Hl as <-|].
  destruct (ParseBatchImageResultLine _ n) as [p|e] eqn:Hp; [|done].
  destruct (_ && _); [by injection Hl as <-|].
  destruct (ix_seen st !! pr_CustomID p); [done|]. injection Hl as <-. intros i. cbn. rewrite elem_of_app, list_elem_of_singleton.
  intros [Hi| ->]; [by apply Hf|]. exists n, text, p. split; [apply Hall; by left|done].
Qed.

Lemma index_output_inv expected so now content readErr st missing :
  index_output expected so now content readErr = Ok (st, missing) ->
  exists st0, index_ok expected st0 /\ from_lines (scan_lines content).1 so now st0 /\
    (st, missing) = add_missing expected so now st0.
Proof.
  unfold index_output. destruct (scan_lines content) as [lines scanErr]. intros H.
  destruct (index_lines expected so now 1 lines index_start) as [st0|] eqn:Hl; [|done].
  destruct scanErr, readErr; try done. destruct (add_missing expected so now st0) as [st1 m] eqn:Ha.
  destruct (ix_total st1 =? 0); [done|]. injection H as <- <-. exists st0. split; [|split; [|done]].
  - eapply index_lines_ok; [apply index_start_ok|exact Hl].
  - refine (index_lines_from _ expected so now lines 1 index_start st0 _ _ Hl); [done|]. intros i Hi. by apply not_elem_of_nil in Hi.
Qed.

(** C28: A job's submitted items are reconciled with whatever the provider returns.
    If indexing an output for a job with the submitted ids [expected] ends
    without error, the items written back carry exactly these ids, each once:
    no unknown id of the output gets in and no submitted one is lost; an item
    is a success only by a line of the output with its id that holds an image;
    and the counts are those of the items, so that successes and failures add
    up to the number of submitted items. *)
Theorem index_reconciled expected so now content readErr st missing :
  expected <> ∅ -> index_output expected so now content readErr = Ok (st, missing) ->
  item_CustomID <$> ix_items st ≡ₚ base.elements expected /\
  ix_success st = count_items succeeded (ix_items st) /\
  ix_fail st = count_items (fun i => negb (succeeded i)) (ix_items st) /\
  ix_success st + ix_fail st = Z.of_nat (size expected) /\
  (forall i, i ∈ ix_items st -> succeeded i = true ->
   exists n line p, line ∈ (scan_lines content).1 /\ ParseBatchImageResultLine (TrimSpace line) n = Ok p /\
     pr_Status p = BatchImageParsedStatusSucceeded /\ 0 < pr_ImageCount p /\ i = result_item p so now).
Proof.
  intros He (st0 & [H1 H2 H3 H4 H5 H6] & Hf & Ha)%index_output_inv. specialize (H3 He).
  unfold add_missing in Ha. rewrite bool_decide_eq_false_2 in Ha by done.
  pose proof (missing_ids_elements expected (dom (ix_seen st0))) as Hm. set (miss := missing_ids _ _) in *.
  injection Ha as -> _. pose proof (missing_failed so now miss) as [Hn0 Hn1].
  assert (Hperm : (item_CustomID <$> ix_items st0) ++ miss ≡ₚ base.elements expected).
  { apply NoDup_Permutation; [|apply NoDup_elements|].
    - apply NoDup_app. split; [done|]. split; [|rewrite Hm; apply NoDup_elements].
      intros x Hx. rewrite Hm, elem_of_elements, <- H1, elem_of_difference, elem_of_list_to_set. tauto.
    - intros x. rewrite elem_of_app, Hm, !elem_of_elements, elem_of_difference, <- H1, elem_of_list_to_set. split.
      + intros [Hx|[Hx _]]; [|done]. apply H3. by rewrite <- H1, elem_of_list_to_set.
      + intros Hx. destruct (decide (x ∈ item_CustomID <$> ix_items st0)); tauto. }
  cbn. rewrite !fmap_app, missing_custom_ids, !count_items_app, Hn0, Hn1. repeat split.
  - done.
  - lia.
  - lia.
  - assert (Hlen : (length (ix_items st0) + length miss)%nat = size expected).
    { unfold size, set_size. cbn. rewrite <- Hperm, length_app, length_fmap. done. }
    assert (Hall : forall l, count_items succeeded l + count_items (fun i => negb (succeeded i)) l = Z.of_nat (length l)).
    { intros l. unfold count_items. induction l as [|i l IH]; [done|]. cbn. destruct (succeeded i); cbn; lia. }
    specialize (Hall (ix_items st0)). lia.
  - intros i. rewrite elem_of_app. intros [Hi|Hi] Hs.
    + destruct (Hf i Hi) as (n & line & p & Hl & Hp & ->). exists n, line, p.
      rewrite result_item_succeeded in Hs. apply String.eqb_eq in Hs. eauto 10 using parsed_success.
    + apply list_elem_of_fmap in Hi as (x & -> & _). done.
Qed.
End index.

(** ** A concrete output *)

Definition demo_line (key body : string) : string := sq ("{'key':'" +:+ key +:+ "'," +:+ body +:+ "}").
Definition demo_image : string :=
  "'response':{'candidates':[{'content':{'parts':[{'text':'ok'},{'inlineData':{'mimeType':'image/png','data':'aGk='}}]}}]}".
Definition newline : string := of_bytes [chr 10].
Definition demo_content : string :=
  demo_line "cat" demo_image +:+ newline +:+ newline +:+ demo_line "stranger" demo_image +:+ newline +:+
  demo_line "dog" "'error':{'code':400,'message':'Blocked by policy'}" +:+ newline.
Definition demo_expected : gset string := {[ "cat"; "dog"; "owl" ]}.

Example demo_index : match index_output (fun _ => true) demo_expected "gs://out" 5 demo_content None with
  | Ok (st, missing) => (map (fun i => (item_CustomID i, item_Status i, item_ErrorCode i)) (ix_items st), ix_success st, ix_fail st, missing)
  | Err _ => ([], -1, -1, -1)
  end = ([("cat", "success", None); ("dog", "failed", Some "SAFETY_BLOCKED"); ("owl", "failed", Some "PROVIDER_RESULT_MISSING")], 1, 2, 1).
Proof. vm_compute. reflexivity. Qed.

Lemma index_reconciled_witness :
  exists st missing, index_output (fun _ => true) demo_expected "gs://out" 5 demo_content None = Ok (st, missing) /\
    item_CustomID <$> ix_items st ≡ₚ base.elements demo_expected /\ ix_success st + ix_fail st = Z.of_nat (size demo_expected).
Proof.
  destruct (index_output (fun _ => true) demo_expected "gs://out" 5 demo_content None) as [[st missing]|e] eqn:H; [|vm_compute in H; discriminate].
  exists st, missing. split; [done|].
  destruct (index_reconciled (fun _ => true) demo_expected "gs://out" 5 demo_content None st missing) as (Hp & _ & _ & Hc & _); [|exact H|].
  - clear H. intros He. apply (f_equal (fun s => bool_decide ("cat" ∈ s))) in He. vm_compute in He. discriminate.
  - split; [exact Hp|exact Hc].
Defined.
End BatchImageIndex.
