(* ===== verification/BatchImageJobs.v ===== *)
(** * Batch image services

    The services that drive a batch image job: submission and cancellation
    ([service/batch_image_public.go]), the provider poll with indexing
    ([service/batch_image_processor.go]), settlement
    ([service/batch_image_settlement.go]), the balance holds
    ([service/batch_image_billing_hold.go]) and the recovery of submissions that
    got stuck ([service/batch_image_billing_recovery.go]).

    A handler is a program of calls: to the tables, the billing repository, the
    queue, the clock, and to the accounts and the provider, whose answers are
    arbitrary.  The services are constructed with all their parts.  Logging and
    the invalidation of the key cache change nothing modelled here. *)

From Stdlib Require Import QArith SpecFloat.
From S2P Require Import Prelude Programs GoStrings GoFloat AppErrors UsageBilling BatchImage BatchImageIndex.

Module BatchImageJobs.
Export Programs BatchImage BatchImageIndex.
#[local] Open Scope Z_scope.

Definition ErrBatchImageMissingProviderJobName :=
  New 400 "BATCH_IMAGE_MISSING_PROVIDER_JOB_NAME" "batch image provider job name is missing".
Definition ErrBatchImageMissingAccountID := New 400 "BATCH_IMAGE_MISSING_ACCOUNT_ID" "batch image account id is missing".
Definition ErrBatchImageUnsupportedProvider :=
  New 400 "BATCH_IMAGE_UNSUPPORTED_PROVIDER" "unsupported batch image provider".
Definition ErrBatchImageSettlementPricingMissing :=
  New 400 "BATCH_IMAGE_SETTLEMENT_PRICING_MISSING" "batch image settlement pricing is missing".
Definition ErrBatchImageSettlementBillingFailed :=
  New 502 "BATCH_IMAGE_SETTLEMENT_BILLING_FAILED" "batch image settlement billing failed".
Definition ErrBatchImageSettlementMissingAPIKeyID :=
  New 400 "BATCH_IMAGE_SETTLEMENT_MISSING_API_KEY_ID" "batch image settlement api key id is missing".
Definition ErrBatchImageSettlementMissingAccountID :=
  New 400 "BATCH_IMAGE_SETTLEMENT_MISSING_ACCOUNT_ID" "batch image settlement account id is missing".
Definition ErrBatchImageSettlementInvalidCounts :=
  New 400 "BATCH_IMAGE_SETTLEMENT_INVALID_COUNTS" "batch image settlement counts are invalid".
Definition ErrBatchImageBillingHoldFailed := New 502 "BATCH_IMAGE_BILLING_HOLD_FAILED" "batch image balance hold failed".
Definition ErrBatchImageProviderSubmitFailed :=
  New 502 "BATCH_IMAGE_PROVIDER_SUBMIT_FAILED" "batch image provider submit failed".
Definition ErrBatchImageQueueFailed := New 502 "BATCH_IMAGE_QUEUE_FAILED" "batch image queue failed".
Definition ErrBatchImageCancelFailed := New 502 "BATCH_IMAGE_CANCEL_FAILED" "batch image cancel failed".
Definition ErrBatchImageVertexGCSBucketMissing :=
  New 502 "BATCH_IMAGE_VERTEX_GCS_BUCKET_MISSING" "Vertex managed GCS bucket is not configured".
Definition ErrBatchImageProviderUnsupportedAccount :=
  New 400 "BATCH_IMAGE_PROVIDER_UNSUPPORTED_ACCOUNT" "batch image provider does not support this account".
Definition ErrBatchImageProviderMissingAPIKey :=
  New 400 "BATCH_IMAGE_PROVIDER_MISSING_API_KEY" "batch image provider account is missing api key".
Definition ErrBatchImageProviderMissingServiceAccount :=
  New 400 "BATCH_IMAGE_PROVIDER_MISSING_SERVICE_ACCOUNT"
    "batch image provider account is missing service account credentials".

(** ** Calls *)

Record BatchProviderJob := ProviderJob {
  pj_ProviderJobName : string;
  pj_ProviderInputRef : string;
  pj_ProviderOutputRef : string
}.

Definition BatchProviderStateQueued : string := "queued".
Definition BatchProviderStateRunning : string := "running".
Definition BatchProviderStateSucceeded : string := "succeeded".
Definition BatchProviderStateFailed : string := "failed".
Definition BatchProviderStateCancelled : string := "cancelled".
Definition BatchProviderStateExpired : string := "expired".

Record BatchProviderStatus := ProviderStatus {
  ps_InternalState : string;
  ps_OutputRef : string;
  ps_ErrorCode : string;
  ps_ErrorMessage : string;
  ps_SuggestedRequeueAfter : Duration
}.

Inductive call : Type -> Type :=
| Now : call Time
| GetJob (batchID : string) : call (outcome BatchImageJob error)
| GetJobForOwner (userID apiKeyID : Z) (batchID : string) : call (outcome BatchImageJob error)
| CreateJob (p : BatchImageJob) : call (outcome BatchImageJob error)
| CreateItems (batchID : string) (new : list BatchImageItem) : call (outcome unit error)
| Transition (batchID toStatus : string) (opts : BatchImageTransitionOptions) : call (outcome unit error)
| FailStale (batchID : string) (cutoff : Time) (code message : string) : call (bool * option error)
| SetOutputRef (batchID ref : string) : call (outcome unit error)
| ProviderSubmitted (p : UpdateBatchImageJobProviderSubmitParams) : call (outcome unit error)
| SubmitFailure (batchID code message : string) (markFailed : bool) : call (outcome unit error)
| MarkSettled (p : MarkBatchImageJobSettledParams) : call (outcome unit error)
| SettlementFailed (batchID code message : string) : call (outcome Z error)
| ListItems (batchID : string) (limit offset : Z) : call (outcome (list BatchImageItem) error)
| ReplaceItems (batchID : string) (new : list BatchImageItem) (successCount failCount : Z) : call (outcome unit error)
| MarkUserDeleted (userID apiKeyID : Z) (batchID : string) (deletedAt : Time) : call (outcome unit error)
| ListStale (cutoff : Time) (limit : Z) : call (outcome (list BatchImageJob) error)
| AppendEvent (batchID eventType : string) : call (outcome unit error)
| Balance (kind : UsageBilling.hold_kind) (cmd : UsageBilling.BatchImageBalanceHoldCommand)
    : call (outcome UsageBilling.BatchImageBalanceHoldResult error)
| Enqueue (batchID : string) : call (outcome unit error)
| ResolveAccount (accountID : Z) : call (outcome bool error)   (* whether the provider supports the account *)
| ProviderSubmit (job : BatchImageJob) : call (outcome (option BatchProviderJob) error)
| ProviderGet (job : BatchImageJob) : call (outcome (option BatchProviderStatus) error)
| ProviderCancel (job : BatchImageJob) : call (outcome unit error)
| ProviderCleanupInput (job : BatchImageJob) : call (outcome unit error)
| OpenResult (job : BatchImageJob) : call (outcome (string * option error) error)  (* content, and an error of reading it *)
| UnitPrice (job : BatchImageJob) : call (outcome float64 error).

Notation prog := (free call).

(** ** Balance holds *)

Definition hold_amount (job : BatchImageJob) : float64 :=
  match HoldAmount job with Some h => h | None => EstimatedCost job end.

Definition buildBatchImageHoldCommand (job : BatchImageJob) (requestID : string) (actualAmount : float64) (payloadHash : string)
    : outcome UsageBilling.BatchImageBalanceHoldCommand error :=
  match APIKeyID job with
  | Some key =>
      if key <=? 0 then Err ErrBatchImageSettlementMissingAPIKeyID
      else
        let positive x := if (x <? f64_zero)%f64 then f64_zero else x in
        Ok (UsageBilling.HoldCommand requestID key "" (TrimSpace payloadHash) (UserID job) (BatchID job)
              (positive (hold_amount job)) (positive actualAmount))
  | None => Err ErrBatchImageSettlementMissingAPIKeyID
  end.

Definition reserveBatchImageBalanceHold (job : BatchImageJob) (payloadHash : string) : prog (option error) :=
  match buildBatchImageHoldCommand job (UsageBilling.BatchImageHoldRequestID (BatchID job)) f64_zero payloadHash with
  | Err e => Ret (Some e)
  | Ok cmd =>
      if (UsageBilling.HoldAmount cmd <=? f64_zero)%f64 then Ret None
      else
        let! r := Balance UsageBilling.Reserve cmd in
        match r with
        | Ok _ => Ret None
        | Err e =>
            if errors_Is e UsageBilling.ErrBatchImageInsufficientBalance then Ret (Some UsageBilling.ErrBatchImageInsufficientBalance)
            else Ret (Some (WithCause ErrBatchImageBillingHoldFailed e))
        end
  end.

Definition captureBatchImageBalanceHold (job : BatchImageJob) (actualAmount : float64) (payloadHash : string)
    : prog (option error) :=
  match buildBatchImageHoldCommand job (UsageBilling.BatchImageCaptureRequestID (BatchID job)) actualAmount payloadHash with
  | Err e => Ret (Some e)
  | Ok cmd =>
      let! r := Balance UsageBilling.Capture cmd in
      match r with
      | Ok _ => Ret None
      | Err e => Ret (Some (WithCause ErrBatchImageSettlementBillingFailed e))
      end
  end.

Definition releaseBatchImageBalanceHold (job : BatchImageJob) (payloadHash : string) : prog (option error) :=
  match buildBatchImageHoldCommand job (UsageBilling.BatchImageReleaseRequestID (BatchID job)) f64_zero payloadHash with
  | Err e => Ret (Some e)
  | Ok cmd =>
      if (UsageBilling.HoldAmount cmd <=? f64_zero)%f64 then Ret None
      else
        let! r := Balance UsageBilling.Release cmd in
        match r with
        | Ok _ => Ret None
        | Err e =>
            if errors_Is e UsageBilling.ErrUsageBillingRequestConflict then Ret None
            else Ret (Some (WithCause ErrBatchImageBillingHoldFailed e))
        end
  end.

Section services.
Context (sha256_hex : string -> string).
Context (IsPrint : Z -> bool).               (* [unicode.IsPrint] above ASCII *)
Context (registered : string -> bool).       (* the providers of the registry *)
Context (outputRetention : Duration).        (* outputRetentionAfterTerminal() *)
Context (requeueDefault : Duration) (retryDelay : Duration).
Context (pages : nat).                       (* how many pages of items are read at most *)

(** ** Settlement *)

Definition batchImageSettlementMaxRetries : Z := 5.
Definition batchImageSettlementRetryDelay : Duration := Minute.

Definition BuildBatchImageSettlementManifestHash (job : BatchImageJob) : string :=
  sha256_hex (String.concat (of_bytes [chr 0])
    [TrimSpace (BatchID job); TrimSpace (Provider job); TrimSpace (Model job);
     batchImageDerefString (ProviderJobName job); batchImageDerefString (ProviderOutputRef job);
     Itoa (SuccessCount job); Itoa (FailCount job); Itoa (ItemCount job)]).

Definition isBatchImageSettlementRetryExhausted (job : BatchImageJob) : bool :=
  (Status job =s BatchImageJobStatusSettling) && (batchImageSettlementMaxRetries <=? RetryCount job) &&
  HasPrefix (batchImageDerefString (LastErrorCode job)) "SETTLEMENT_".

Definition failExhaustedSettlement (job : BatchImageJob) (message : string) : prog error :=
  run! released := releaseBatchImageBalanceHold job (batchImageDerefString (RequestHash job)) in
  match released with
  | Some e =>
      let! _ := SettlementFailed (BatchID job) "SETTLEMENT_RELEASE_FAILED"
                  (truncateBatchImageMessage (Error e) batchImageMaxErrorMessageLength) in
      Ret (WithCause ErrBatchImageSettlementBillingFailed e)
  | None =>
      let msg := if TrimSpace message =s "" then "settlement billing retry limit reached" else TrimSpace message in
      let! moved := Transition (BatchID job) BatchImageJobStatusFailed
                      (TransitionOptions (Some "SETTLEMENT_BILLING_RETRY_EXHAUSTED") (Some msg)) in
      match moved with
      | Err e => Ret e
      | Ok _ => Ret ErrBatchImageSettlementBillingFailed
      end
  end.

(** The error to return instead of the recorded one, if any. *)
Definition recordSettlementFailure (job : BatchImageJob) (code message : string) : prog (option error) :=
  let! recorded := SettlementFailed (BatchID job) code (truncateBatchImageMessage message batchImageMaxErrorMessageLength) in
  match recorded with
  | Err _ => Ret None
  | Ok retryCount =>
      let job := job <| RetryCount := retryCount |> <| LastErrorCode := Some code |> in
      if batchImageSettlementMaxRetries <=? retryCount then
        run! e := failExhaustedSettlement job message in Ret (Some e)
      else Ret None
  end.

Definition settlementUnitPrice (job : BatchImageJob) : prog (outcome float64 error) :=
  if 1 <=? PricingSnapshotVersion job then
    Ret (if (BillableUnitPrice job <? f64_zero)%f64 then Err ErrBatchImageSettlementPricingMissing
         else Ok (BillableUnitPrice job))
  else let! price := UnitPrice job in Ret price.

Record BatchImageSettlementResult := SettlementResult {
  sr_BatchID : string;
  sr_SuccessCount : Z;
  sr_FailCount : Z;
  sr_ActualCost : float64;
  sr_ManifestHash : string;
  sr_RequestID : string;
  sr_AlreadySettled : bool
}.

Definition fail_settlement (job : BatchImageJob) (code message : string) (e : error) : prog (outcome BatchImageSettlementResult error) :=
  run! failErr := recordSettlementFailure job code message in
  Ret (Err (default e failErr)).

(** Settling from a price on. *)
Definition settle_at (job : BatchImageJob) (result : BatchImageSettlementResult) (manifestHash : string) (unitPrice : float64)
    : prog (outcome BatchImageSettlementResult error) :=
  let actualCost := (f64_of_int (SuccessCount job) * unitPrice)%f64 in
  let result := SettlementResult (sr_BatchID result) (sr_SuccessCount result) (sr_FailCount result) actualCost
                  (sr_ManifestHash result) (sr_RequestID result) (sr_AlreadySettled result) in
  if (UsageBilling.batchImageCostEpsilon <? actualCost - hold_amount job)%f64 then
    fail_settlement job "SETTLEMENT_COST_EXCEEDS_HOLD"
      ("actual cost " +:+ format_f10 actualCost +:+ " exceeds held amount " +:+ format_f10 (hold_amount job))
      UsageBilling.ErrBatchImageSettlementCostExceedsHold
  else
    run! captured := captureBatchImageBalanceHold job actualCost manifestHash in
    match captured with
    | Some e =>
        fail_settlement job "SETTLEMENT_BILLING_FAILED" (truncateBatchImageMessage (Error e) batchImageMaxErrorMessageLength) e
    | None =>
        let! now := Now in
        let! settled := MarkSettled (SettledParams (BatchID job) actualCost manifestHash now (time_Add now outputRetention)) in
        match settled with
        | Err e => Ret (Err e)
        | Ok _ => Ret (Ok result)
        end
    end.

Definition Settle (batchID : string) : prog (outcome BatchImageSettlementResult error) :=
  let! found := GetJob batchID in
  match found with
  | Err e => Ret (Err e)
  | Ok job =>
      let manifestHash := BuildBatchImageSettlementManifestHash job in
      let result already := SettlementResult (BatchID job) (SuccessCount job) (FailCount job)
        (default f64_zero (ActualCost job)) manifestHash (UsageBilling.BatchImageCaptureRequestID (BatchID job)) already in
      if Status job =s BatchImageJobStatusCompleted then Ret (Ok (result true))
      else if negb (Status job =s BatchImageJobStatusSettling) then Ret (Err ErrBatchImageSettlementInvalidStatus)
      else if default 0 (APIKeyID job) <=? 0 then Ret (Err ErrBatchImageSettlementMissingAPIKeyID)
      else if default 0 (AccountID job) <=? 0 then Ret (Err ErrBatchImageSettlementMissingAccountID)
      else if isBatchImageSettlementRetryExhausted job then
        run! e := failExhaustedSettlement job ("settlement retry limit reached: " +:+ batchImageDerefString (LastErrorCode job)) in
        Ret (Err e)
      else if (SuccessCount job <? 0) || (FailCount job <? 0) || (ItemCount job <? 0) ||
              (ItemCount job <? wrap64 (SuccessCount job + FailCount job)) then
        fail_settlement job "SETTLEMENT_INVALID_COUNTS"
          ("success=" +:+ Itoa (SuccessCount job) +:+ " fail=" +:+ Itoa (FailCount job) +:+ " item_count=" +:+ Itoa (ItemCount job))
          ErrBatchImageSettlementInvalidCounts
      else if negb (TrimSpace (batchImageDerefString (ManifestHash job)) =s "") &&
              negb (batchImageDerefString (ManifestHash job) =s manifestHash) then
        fail_settlement job "SETTLEMENT_MANIFEST_CONFLICT" "manifest hash conflict" ErrBatchImageSettlementManifestConflict
      else
        run! price := settlementUnitPrice job in
        let price := match price with
                     | Ok p => if (p <? f64_zero)%f64 then Err ErrBatchImageSettlementPricingMissing else Ok p
                     | Err e => Err e
                     end in
        match price with
        | Err e => fail_settlement job "SETTLEMENT_PRICING_MISSING" (Error e) e
        | Ok unitPrice => settle_at job (result false) manifestHash unitPrice
        end
  end.

(** ** The provider processor *)

Record BatchImageProcessResult := ProcessResult { RequeueAfter : Duration; Terminal : bool }.

Definition requeue (d : Duration) : outcome BatchImageProcessResult error := Ok (ProcessResult d false).
Definition terminal : outcome BatchImageProcessResult error := Ok (ProcessResult 0 true).

Definition defaultBatchImageProcessorRequeue : Duration := 30 * Second.
Definition batchImageProviderErrorRequeue : Duration := Minute.

Definition requeueDelay (suggested : Duration) : Duration :=
  if 0 <? suggested then suggested
  else if 0 <? requeueDefault then requeueDefault else defaultBatchImageProcessorRequeue.

Definition isBatchImageProcessorDoneStatus (status : string) : bool :=
  (status =s BatchImageJobStatusSettling) || IsTerminalBatchImageJobStatus status.

Definition releaseTerminalHold (job : BatchImageJob) : prog (option error) :=
  if negb (Status job =s BatchImageJobStatusFailed) && negb (Status job =s BatchImageJobStatusCancelled) then Ret None
  else releaseBatchImageBalanceHold job (batchImageDerefString (RequestHash job)).

(** Move the job to a terminal status and give its hold back. *)
Definition end_job (job : BatchImageJob) (status : string) (opts : BatchImageTransitionOptions)
    : prog (outcome BatchImageProcessResult error) :=
  let! moved := Transition (BatchID job) status opts in
  match moved with
  | Err e => Ret (Err e)
  | Ok _ =>
      run! released := releaseTerminalHold (job <| Status := status |>) in
      Ret (match released with Some e => Err e | None => terminal end)
  end.

(** The ids of the items of a job, read page by page. *)
Definition page_size : Z := 500.

Fixpoint listExpectedCustomIDs (fuel : nat) (batchID : string) (offset : Z) (expected : gset string)
    : prog (outcome (gset string) error) :=
  match fuel with
  | O => Ret (Err (DriverError "too many pages"))
  | S fuel =>
      let! page := ListItems batchID page_size offset in
      match page with
      | Err e => Ret (Err e)
      | Ok page =>
          let expected := list_to_set (map item_CustomID page) ∪ expected in
          let n := Z.of_nat (length page) in
          if n <? page_size then Ret (Ok expected) else listExpectedCustomIDs fuel batchID (offset + n) expected
      end
  end.

Definition Index (job : BatchImageJob) : prog (outcome index_state error) :=
  run! expected := listExpectedCustomIDs pages (BatchID job) 0 ∅ in
  match expected with
  | Err e => Ret (Err e)
  | Ok expected =>
      let! opened := OpenResult job in
      match opened with
      | Err e => Ret (Err (WithCause ErrBatchImageIndexOutputMissing e))
      | Ok (content, readErr) =>
          let! now := Now in
          match index_output IsPrint expected (sourceObject_of job) now content readErr with
          | Err e => Ret (Err e)
          | Ok (st, missing) =>
              let write : prog (outcome index_state error) :=
                let! replaced := ReplaceItems (BatchID job) (ix_items st) (ix_success st) (ix_fail st) in
                Ret (match replaced with Err e => Err e | Ok _ => Ok st end) in
              if (0 <? ix_unknown st) || (0 <? missing) then
                let! _ := AppendEvent (BatchID job) "index_reconciled" in write
              else write
          end
      end
  end.

Definition indexAndSettle (job : BatchImageJob) : prog (outcome BatchImageProcessResult error) :=
  run! result := Index job in
  match result with
  | Err e =>
      if errors_Is e ErrBatchImageIndexOutputMissing then Ret (Err e)
      else if errors_Is e ErrBatchImageIndexStateConflict then Ret (requeue Millisecond)
      else
        let code := if errors_Is e ErrBatchImageDuplicateCustomID then "DUPLICATE_CUSTOM_ID_IN_OUTPUT" else "INDEX_PARSE_FAILED" in
        let msg := truncateBatchImageMessage (Error e) batchImageMaxErrorMessageLength in
        end_job job BatchImageJobStatusFailed (TransitionOptions (Some code) (batchImageOptionalStringPtr msg))
  | Ok _ =>
      let! moved := Transition (BatchID job) BatchImageJobStatusSettling no_options in
      Ret (match moved with Err e => Err e | Ok _ => requeue Millisecond end)
  end.

Definition persistProviderOutputRef (job : BatchImageJob) (ref : string) : prog (outcome BatchImageJob error) :=
  let ref := TrimSpace ref in
  if (ref =s "") || (batchImageDerefString (ProviderOutputRef job) =s ref) then Ret (Ok job)
  else
    let! set := SetOutputRef (BatchID job) ref in
    Ret (match set with Err e => Err e | Ok _ => Ok (job <| ProviderOutputRef := Some ref |>) end).

(** What the provider's state leads to. *)
Definition follow_state (job : BatchImageJob) (status : BatchProviderStatus) : prog (outcome BatchImageProcessResult error) :=
  let later := requeue (requeueDelay (ps_SuggestedRequeueAfter status)) in
  let state := ps_InternalState status in
  if state =s BatchProviderStateQueued then Ret later
  else if state =s BatchProviderStateRunning then
    if Status job =s BatchImageJobStatusRunning then Ret later
    else
      let! moved := Transition (BatchID job) BatchImageJobStatusRunning no_options in
      Ret (match moved with Err e => Err e | Ok _ => later end)
  else if state =s BatchProviderStateSucceeded then
    if Status job =s BatchImageJobStatusIndexing then indexAndSettle job
    else
      let! moved := Transition (BatchID job) BatchImageJobStatusIndexing no_options in
      match moved with
      | Err e => Ret (Err e)
      | Ok _ => indexAndSettle (job <| Status := BatchImageJobStatusIndexing |>)
      end
  else if (state =s BatchProviderStateFailed) || (state =s BatchProviderStateExpired) then
    let code := TrimSpace (ps_ErrorCode status) in
    let code := if (code =s "") && (state =s BatchProviderStateExpired) then "PROVIDER_BATCH_EXPIRED" else code in
    let code := if code =s "" then "PROVIDER_BATCH_FAILED" else code in
    let msg := truncateBatchImageMessage (ps_ErrorMessage status) batchImageMaxErrorMessageLength in
    end_job job BatchImageJobStatusFailed (TransitionOptions (Some code) (batchImageOptionalStringPtr msg))
  else if state =s BatchProviderStateCancelled then end_job job BatchImageJobStatusCancelled no_options
  else Ret later.

Definition ProviderProcess (batchID : string) : prog (outcome BatchImageProcessResult error) :=
  let! found := GetJob batchID in
  match found with
  | Err e => Ret (Err e)
  | Ok job =>
      if isBatchImageProcessorDoneStatus (Status job) then
        run! released := releaseTerminalHold job in
        Ret (match released with Some e => Err e | None => terminal end)
      else if negb (registered (Provider job)) then Ret (Err ErrBatchImageUnsupportedProvider)
      else if default 0 (AccountID job) <=? 0 then Ret (Err ErrBatchImageMissingAccountID)
      else
        let! account := ResolveAccount (default 0 (AccountID job)) in
        match account with
        | Err e => Ret (Err e)
        | Ok false => Ret (Err ErrBatchImageProviderUnsupportedAccount)
        | Ok true =>
            if TrimSpace (batchImageDerefString (ProviderJobName job)) =s "" then Ret (Err ErrBatchImageMissingProviderJobName)
            else if Status job =s BatchImageJobStatusIndexing then indexAndSettle job
            else
              let! status := ProviderGet job in
              match status with
              | Err _ => Ret (requeue batchImageProviderErrorRequeue)
              | Ok None => Ret (requeue (requeueDelay 0))
              | Ok (Some status) =>
                  run! kept := persistProviderOutputRef job (ps_OutputRef status) in
                  match kept with
                  | Err e => Ret (Err e)
                  | Ok job => follow_state job status
                  end
              end
        end
  end.

(** [BatchImagePipelineProcessor.Process], what a worker runs for a job. *)
Definition Process (batchID : string) : prog (outcome BatchImageProcessResult error) :=
  let! found := GetJob batchID in
  match found with
  | Err e => Ret (Err e)
  | Ok job =>
      if Status job =s BatchImageJobStatusSettling then
        run! settled := Settle batchID in
        match settled with
        | Ok _ => Ret terminal
        | Err e =>
            if errors_Is e ErrBatchImageSettlementBillingFailed then
              let! updated := GetJob batchID in
              let retry := requeue (if retryDelay <=? 0 then batchImageSettlementRetryDelay else retryDelay) in
              Ret (match updated with
                   | Ok job => if IsTerminalBatchImageJobStatus (Status job) then terminal else retry
                   | Err _ => retry
                   end)
            else Ret (Err e)
        end
      else ProviderProcess batchID
  end.

(** ** Submission *)

Definition maxBatchImagePublicErrorChars : Z := 500.

Definition sanitizeBatchImagePublicMessage (message : string) : string :=
  let message := TrimSpace message in
  let message := if existsb (Contains message) ["gs://"; "files/"; "projects/"] then "upstream provider operation failed" else message in
  if maxBatchImagePublicErrorChars <? len message then str_take (Z.to_nat maxBatchImagePublicErrorChars) message else message.

Definition enqueueBillingRetry (batchID : string) : prog unit :=
  let! queued := Enqueue batchID in
  match queued with
  | Err e =>
      if errors_Is e ErrBatchImageAlreadyQueued then Ret tt
      else let! _ := AppendEvent batchID "billing_retry_enqueue_failed" in Ret tt
  | Ok _ => Ret tt
  end.

Definition releaseFailedSubmitHold (job : BatchImageJob) (requestHash : string) : prog (option error) :=
  run! released := releaseBatchImageBalanceHold job requestHash in
  match released with
  | Some e =>
      let! _ := SubmitFailure (BatchID job) "BILLING_RELEASE_FAILED" (sanitizeBatchImagePublicMessage (Error e)) true in
      run! _ := enqueueBillingRetry (BatchID job) in
      Ret (Some ErrBatchImageBillingHoldFailed)
  | None => Ret None
  end.

Definition hidePreUpstreamSubmitFailure (job : BatchImageJob) : prog unit :=
  match ProviderJobName job with
  | Some _ => Ret tt
  | None =>
      let! now := Now in
      let! _ := MarkUserDeleted (UserID job) (default 0 (APIKeyID job)) (BatchID job) now in
      Ret tt
  end.

(** Record a failed submission and answer [e]. *)
Definition record_failed {R} (job : BatchImageJob) (code message : string) (e : error) : prog (outcome R error) :=
  let! _ := SubmitFailure (BatchID job) code (sanitizeBatchImagePublicMessage message) true in
  run! _ := hidePreUpstreamSubmitFailure job in
  Ret (Err e).

(** Release the hold of a failed submission, then record it. *)
Definition undo_submit {R} (job : BatchImageJob) (requestHash code message : string) (e : error) : prog (outcome R error) :=
  run! released := releaseFailedSubmitHold job requestHash in
  match released with
  | Some e' => Ret (Err e')
  | None => record_failed job code message e
  end.

Definition batchImageProviderSubmitPublicError (e : error) : error :=
  let reason := TrimSpace (error_Reason e) in
  if reason =s "VERTEX_MANAGED_GCS_BUCKET_MISSING" then ErrBatchImageVertexGCSBucketMissing
  else if reason =s "BATCH_IMAGE_PROVIDER_MISSING_API_KEY" then ErrBatchImageProviderMissingAPIKey
  else if reason =s "BATCH_IMAGE_PROVIDER_MISSING_SERVICE_ACCOUNT" then ErrBatchImageProviderMissingServiceAccount
  else if reason =s "BATCH_IMAGE_PROVIDER_UNSUPPORTED_ACCOUNT" then ErrBatchImageProviderUnsupportedAccount
  else ErrBatchImageProviderSubmitFailed.

Definition batchImageProviderSubmitRecordCode (e : error) : string :=
  let reason := TrimSpace (error_Reason e) in
  if (reason =s "") || (reason =s "BATCH_IMAGE_PROVIDER_SUBMIT_FAILED") then "PROVIDER_SUBMIT_FAILED" else reason.

Definition abortOrphanProviderJob (job : BatchImageJob) (pj : BatchProviderJob) : prog unit :=
  let orphan := job <| ProviderJobName := batchImageOptionalStringPtr (pj_ProviderJobName pj) |>
                    <| ProviderInputRef := batchImageOptionalStringPtr (pj_ProviderInputRef pj) |> in
  let! _ := ProviderCancel orphan in
  let! _ := ProviderCleanupInput orphan in
  let! _ := AppendEvent (BatchID job) "provider_job_aborted_after_submit" in
  Ret tt.

(** From the provider's answer on. *)
Definition finish_submit (job : BatchImageJob) (pj : BatchProviderJob) : prog (outcome BatchImageJob error) :=
  let! submitted := ProviderSubmitted
    (ProviderSubmitParams (BatchID job) (pj_ProviderJobName pj) (pj_ProviderInputRef pj) (pj_ProviderOutputRef pj)) in
  match submitted with
  | Err e => run! _ := abortOrphanProviderJob job pj in Ret (Err e)
  | Ok _ =>
      let! queued := Enqueue (BatchID job) in
      match queued with
      | Err e =>
          if errors_Is e ErrBatchImageAlreadyQueued then let! created := GetJob (BatchID job) in Ret created
          else
            let! _ := SubmitFailure (BatchID job) "QUEUE_FAILED" (sanitizeBatchImagePublicMessage (Error e)) false in
            Ret (Err ErrBatchImageQueueFailed)
      | Ok _ => let! created := GetJob (BatchID job) in Ret created
      end
  end.

(** From the hold on: items, upload, the provider. *)
Definition submit_held (job : BatchImageJob) (requestHash : string) (pending : list BatchImageItem)
    : prog (outcome BatchImageJob error) :=
  let! items := CreateItems (BatchID job) pending in
  match items with
  | Err e => undo_submit job requestHash "ITEM_CREATE_FAILED" (Error e) ErrBatchImageQueueFailed
  | Ok _ =>
      let! moved := Transition (BatchID job) BatchImageJobStatusUploading no_options in
      match moved with
      | Err e =>
          run! released := releaseFailedSubmitHold job requestHash in
          match released with
          | Some e' => Ret (Err e')
          | None =>
              if errors_Is e ErrBatchImageInvalidTransition then Ret (Err e)
              else record_failed job "UPLOAD_TRANSITION_FAILED" (Error e) e
          end
      | Ok _ =>
          let job := job <| Status := BatchImageJobStatusUploading |> in
          let! answer := ProviderSubmit job in
          match answer with
          | Err e =>
              let publicErr := batchImageProviderSubmitPublicError e in
              undo_submit job requestHash (batchImageProviderSubmitRecordCode publicErr) (Error e) publicErr
          | Ok None => undo_submit job requestHash "PROVIDER_SUBMIT_FAILED" "provider job name missing" ErrBatchImageProviderSubmitFailed
          | Ok (Some pj) =>
              if TrimSpace (pj_ProviderJobName pj) =s "" then
                undo_submit job requestHash "PROVIDER_SUBMIT_FAILED" "provider job name missing" ErrBatchImageProviderSubmitFailed
              else finish_submit job pj
          end
      end
  end.

(** [Submit] from the creation of the job's row [p] on; [requestHash] and the
    [pending] items belong to the checked request. *)
Definition submit_job (p : BatchImageJob) (requestHash : string) (pending : list BatchImageItem)
    : prog (outcome BatchImageJob error) :=
  let! created := CreateJob p in
  match created with
  | Err e => Ret (Err e)
  | Ok job =>
      run! reserved := reserveBatchImageBalanceHold job requestHash in
      match reserved with
      | Some e =>
          let code := if errors_Is e UsageBilling.ErrBatchImageInsufficientBalance then "INSUFFICIENT_BALANCE" else "BILLING_HOLD_FAILED" in
          record_failed job code (Error e) e
      | None => submit_held job requestHash pending
      end
  end.

(** ** Cancellation *)

Definition Cancel (userID apiKeyID : Z) (batchID : string) : prog (outcome BatchImageJob error) :=
  let! found := GetJobForOwner userID apiKeyID batchID in
  match found with
  | Err e => Ret (Err e)
  | Ok job =>
      let release (k : prog (outcome BatchImageJob error)) :=
        run! released := releaseBatchImageBalanceHold job (batchImageDerefString (RequestHash job)) in
        match released with
        | Some _ => run! _ := enqueueBillingRetry (BatchID job) in Ret (Err ErrBatchImageCancelFailed)
        | None => k
        end in
      let updated := let! job := GetJobForOwner userID apiKeyID batchID in Ret job in
      if isBatchImageProcessorDoneStatus (Status job) then
        if (Status job =s BatchImageJobStatusFailed) || (Status job =s BatchImageJobStatusCancelled) then release (Ret (Ok job))
        else Ret (Ok job)
      else if negb (batchImageDerefString (ProviderJobName job) =s "") then
        if negb (registered (Provider job)) then Ret (Err ErrBatchImageUnsupportedProvider)
        else match AccountID job with
        | None => Ret (Err ErrBatchImageCancelFailed)
        | Some accountID =>
            let! account := ResolveAccount accountID in
            match account with
            | Err _ => Ret (Err ErrBatchImageCancelFailed)
            | Ok _ =>
                let! cancelled := ProviderCancel job in
                match cancelled with
                | Err _ => Ret (Err ErrBatchImageCancelFailed)
                | Ok _ =>
                    let! _ := AppendEvent (BatchID job) "job_cancel_requested" in
                    let! queued := Enqueue (BatchID job) in
                    match queued with
                    | Err e => if errors_Is e ErrBatchImageAlreadyQueued then updated else Ret (Err ErrBatchImageCancelFailed)
                    | Ok _ => updated
                    end
                end
            end
        end
      else
        let! moved := Transition (BatchID job) BatchImageJobStatusCancelled no_options in
        match moved with
        | Err e => Ret (Err e)
        | Ok _ => release updated
        end
  end.

(** ** Recovery of stuck submissions *)

Definition defaultBatchImageBillingRecoveryStaleAfter : Duration := 10 * Minute.
Definition defaultBatchImageBillingRecoveryLimit : Z := 100.

Fixpoint recover (cutoff : Time) (stale : list BatchImageJob) (released : Z) (lastErr : option error) : prog (Z * option error) :=
  match stale with
  | [] => Ret (released, lastErr)
  | job :: rest =>
      let! applied := FailStale (BatchID job) cutoff "SUBMIT_STALE_BEFORE_PROVIDER"
                        "batch image submission did not reach provider before recovery cutoff" in
      match applied with
      | (false, None) => recover cutoff rest released lastErr
      | (false, Some e) => recover cutoff rest released (Some e)
      | (true, _) =>
          let job := job <| Status := BatchImageJobStatusFailed |> in
          run! r := releaseBatchImageBalanceHold job (batchImageDerefString (RequestHash job)) in
          match r with
          | Some e => let! _ := Enqueue (BatchID job) in recover cutoff rest released (Some e)
          | None => recover cutoff rest (released + 1) lastErr
          end
      end
  end.

Definition ReleaseStaleUnsubmittedOnce (staleAfter : Duration) (limit : Z) : prog (Z * option error) :=
  let staleAfter := if staleAfter <=? 0 then defaultBatchImageBillingRecoveryStaleAfter else staleAfter in
  let limit := if limit <=? 0 then defaultBatchImageBillingRecoveryLimit else limit in
  let! now := Now in
  let! stale := ListStale (time_Add now (- staleAfter)) limit in
  match stale with
  | Err e => Ret (0, Some e)
  | Ok stale => recover (time_Add now (- staleAfter)) stale 0 None
  end.
End services.
End BatchImageJobs.
