(* ===== verification/BatchImageSystem.v ===== *)
(** * Batch images: processes and money

    Any number of submissions, cancellations, workers and recovery scans run
    concurrently on the tables and the balances.  Each call of a program is one
    atomic step; a call to the tables or to the billing repository may fail
    before or after it takes effect; clocks, accounts, the queue and the
    provider answer as they like. *)

From Stdlib Require Import QArith.
From S2P Require Import Prelude GoStrings GoFloat AppErrors UsageBilling BatchImage BatchImageIndex BatchImageJobs.

Module BatchImageSystem.
Import BatchImageJobs.
#[local] Open Scope Z_scope.
#[local] Arguments TrimSpace : simpl never.
#[local] Arguments GoFloat.f64_mul : simpl never.
#[local] Arguments GoFloat.f64_sub : simpl never.
#[local] Arguments GoFloat.f64_of_int : simpl never.
#[local] Arguments UsageBilling.batchImageCostEpsilon : simpl never.

Record world := World { tables : batch_db; billing : UsageBilling.billing_db }.
#[export] Instance world_struct : Struct world := fun w => World (tables w) (billing w).

(** What the outside answers at one step. *)
Record answers := Answers {
  a_now : Time;
  a_account : outcome bool error;
  a_submit : outcome (option BatchProviderJob) error;
  a_get : outcome (option BatchProviderStatus) error;
  a_cancel : outcome unit error;
  a_open : outcome (string * option error) error;
  a_price : outcome float64 error;
  a_queue : outcome unit error
}.

Section system.
Context (numeric : float64 -> Q) (sha256_hex : string -> string).
Context (registered : string -> bool) (outputRetention requeueDefault retryDelay : Duration) (pages : nat).

Definition on_tables {A} (r : A * batch_db) (w : world) : A * world := (fst r, World (snd r) (billing w)).

(** A call that does not fail. *)
Definition exec (a : answers) {A} (c : call A) (w : world) : A * world :=
  let now := a_now a in
  let d := tables w in
  match c in call A return A * world with
  | Now => (now, w)
  | GetJob b => (GetBatchImageJobByBatchID b d, w)
  | GetJobForOwner u k b => (GetBatchImageJobByBatchIDForOwner u k b d, w)
  | CreateJob p => on_tables (CreateBatchImageJob numeric p now d) w
  | CreateItems b l => on_tables (BulkCreateBatchImageItems b l d) w
  | Transition b s o => on_tables (TransitionBatchImageJobStatus b s o now d) w
  | FailStale b cut code m =>
      let r := FailStaleUnsubmittedBatchImageJob b cut code m now d in ((fst r, None), World (snd r) (billing w))
  | SetOutputRef b r => on_tables (UpdateBatchImageJobProviderOutputRef b r now d) w
  | ProviderSubmitted p => on_tables (UpdateBatchImageJobProviderSubmit p now d) w
  | SubmitFailure b code m f => (Ok tt, World (RecordBatchImageJobSubmitFailure b code m f now d) (billing w))
  | MarkSettled p => on_tables (MarkBatchImageJobSettled numeric p d) w
  | SettlementFailed b code m => on_tables (SetBatchImageJobSettlementFailed b code m now d) w
  | ListItems b limit offset => (Ok (ListBatchImageItems b limit offset d), w)
  | ReplaceItems b l s f => on_tables (ReplaceBatchImageItemsForJob b l s f now d) w
  | MarkUserDeleted u k b t => on_tables (MarkBatchImageJobUserDeleted u k b t d) w
  | ListStale cutoff limit => (Ok (ListStaleUnsubmittedBatchImageJobs cutoff limit d), w)
  | AppendEvent _ _ => (Ok tt, w)
  | Balance kind cmd =>
      let r := UsageBilling.applyBatchImageBalanceHold sha256_hex cmd (UsageBilling.hold_apply numeric kind) (billing w) in
      (fst r, World d (snd r))
  | Enqueue _ => (a_queue a, w)
  | ResolveAccount _ => (a_account a, w)
  | ProviderSubmit _ => (a_submit a, w)
  | ProviderGet _ => (a_get a, w)
  | ProviderCancel _ => (a_cancel a, w)
  | ProviderCleanupInput _ => (a_cancel a, w)
  | OpenResult _ => (a_open a, w)
  | UnitPrice _ => (a_price a, w)
  end.

(** The answer of a call whose statement fails, where it can. *)
Definition failed_answer (e : error) {A} (c : call A) : option A :=
  match c in call A return option A with
  | GetJob _ | GetJobForOwner _ _ _ | CreateJob _ => Some (Err e)
  | CreateItems _ _ | Transition _ _ _ | SetOutputRef _ _ | ProviderSubmitted _ | SubmitFailure _ _ _ _ | MarkSettled _
  | ReplaceItems _ _ _ _ | MarkUserDeleted _ _ _ _ | AppendEvent _ _ => Some (Err e)
  | FailStale _ _ _ _ => Some (false, Some e)
  | SettlementFailed _ _ _ => Some (Err e)
  | ListItems _ _ _ => Some (Err e)
  | ListStale _ _ => Some (Err e)
  | Balance _ _ => Some (Err e)
  | _ => None
  end.

(** A recovered job whose audit event was not written. *)
Definition half_failed_answer (e : error) {A} (c : call A) : A -> option A :=
  match c in call A return A -> option A with
  | FailStale _ _ _ _ => fun r => if fst r then Some (true, Some e) else None
  | _ => fun _ => None
  end.

Definition call_sem {A} (c : call A) (w : world) (r : A) (w' : world) : Prop :=
  exists a,
    exec a c w = (r, w') \/
    (exists m, failed_answer (DriverError m) c = Some r /\ (w' = w \/ w' = snd (exec a c w))) \/
    (exists m, half_failed_answer (DriverError m) c (fst (exec a c w)) = Some r /\ w' = snd (exec a c w)).

(** ** Concrete interleavings

    A schedule lets named programs take one step each, nothing failing; what
    is asked of the provider is recorded. *)
Inductive process :=
| Finished
| Running {R : Type} (p : prog R).

Definition upstream_call {A} (c : call A) : list string :=
  match c with
  | ProviderSubmit _ => ["submit"]
  | ProviderGet _ => ["get"]
  | ProviderCancel _ => ["cancel"]
  | ProviderCleanupInput _ => ["cleanup"]
  | OpenResult _ => ["open"]
  | _ => []
  end.

Definition advance (a : answers) (p : process) (w : world) : process * world * list string :=
  match p with
  | Running (Do c k) =>
      let '(r, w) := exec a c w in (match k r with Ret _ => Finished | p => Running p end, w, upstream_call c)
  | p => (p, w, [])
  end.

Fixpoint play (a : answers) (schedule : list nat) (ps : gmap nat process) (w : world) (log : list string)
    : gmap nat process * world * list string :=
  match schedule with
  | [] => (ps, w, log)
  | pid :: rest =>
      match ps !! pid with
      | Some p => let '(p, w, l) := advance a p w in play a rest (<[pid := p]> ps) w (log ++ l)
      | None => play a rest ps w log
      end
  end.

(** A program alone. *)
Fixpoint evaluate (a : answers) {R} (p : prog R) (w : world) : R * world :=
  match p with
  | Ret r => (r, w)
  | Do c k => let '(r, w) := exec a c w in evaluate a (k r) w
  end.

Lemma evaluate_bind a {R R'} (p : prog R) (k : R -> prog R') w :
  evaluate a (bind p k) w = let '(r, w1) := evaluate a p w in evaluate a (k r) w1.
Proof. revert w. induction p as [r|X c k' IH]; intros w; cbn; [done|]. destruct (exec a c w). apply IH. Qed.

(** *** A settlement that charges *)

Definition capture_command (job : BatchImageJob) (key : Z) (cost : float64) : UsageBilling.BatchImageBalanceHoldCommand :=
  UsageBilling.HoldCommand (UsageBilling.BatchImageCaptureRequestID (BatchID job)) key ""
    (TrimSpace (BuildBatchImageSettlementManifestHash sha256_hex job)) (UserID job) (BatchID job) (hold_amount job) cost.

(** A job whose results are indexed, whose price was fixed when it was
    submitted, and whose hold is frozen and not captured yet. *)
Record settleable (b : string) (w : world) (job : BatchImageJob) (key : Z) (u : UsageBilling.user_row) (cost stored : float64)
    (bal fro : Z) : Prop := {
  sb_job : jobs (tables w) !! b = Some job;
  sb_id : BatchID job = b /\ UsageBilling.plain_id b;
  sb_status : Status job = BatchImageJobStatusSettling;
  sb_key : APIKeyID job = Some key /\ 0 < key /\ 0 < default 0 (AccountID job);
  sb_retry : RetryCount job < batchImageSettlementMaxRetries;
  sb_counts : 0 <= SuccessCount job /\ 0 <= FailCount job /\
    SuccessCount job + FailCount job <= ItemCount job <= int64_max;
  sb_manifest : ManifestHash job = None /\
    manifest_taken b (BuildBatchImageSettlementManifestHash sha256_hex job) (tables w) = false;
  sb_price : 1 <= PricingSnapshotVersion job /\ (BillableUnitPrice job <? f64_zero)%f64 = false /\
    cost = (f64_of_int (SuccessCount job) * BillableUnitPrice job)%f64 /\ db_decimal numeric cost = Some stored;
  sb_amounts : (hold_amount job <=? f64_zero)%f64 = false /\ (hold_amount job <? f64_zero)%f64 = false /\
    (cost <? f64_zero)%f64 = false /\ (UsageBilling.batchImageCostEpsilon <? cost - hold_amount job)%f64 = false;
  sb_unclaimed : (UsageBilling.BatchImageCaptureRequestID b, key) ∉ UsageBilling.claimed (billing w);
  sb_user : UsageBilling.users (billing w) !! UserID job = Some u /\ UsageBilling.deleted u = false;
  sb_frozen : (numeric (hold_amount job) <= UsageBilling.row_frozen u)%Q;
  sb_balance' : numeric_store 8 (UsageBilling.row_balance u +
      UsageBilling.excess (numeric (hold_amount job)) (numeric cost) -
      UsageBilling.excess (numeric cost) (numeric (hold_amount job)))%Q = Some bal;
  sb_frozen' : numeric_store 8 (UsageBilling.row_frozen u - numeric (hold_amount job))%Q = Some fro
}.

Lemma Normalize_capture job key cost :
  UsageBilling.plain_id (BatchID job) ->
  let c := UsageBilling.Normalize sha256_hex (capture_command job key cost) in
  UsageBilling.RequestID c = UsageBilling.BatchImageCaptureRequestID (BatchID job) /\ UsageBilling.APIKeyID c = key /\
  UsageBilling.UserID c = UserID job /\ UsageBilling.HoldAmount c = hold_amount job /\ UsageBilling.ActualAmount c = cost.
Proof.
  intros Hb. unfold UsageBilling.Normalize. cbn.
  rewrite (UsageBilling.plain_trim _ (UsageBilling.capture_id_plain _ Hb)). done.
Qed.

Definition settle_prog (b : string) := Settle sha256_hex outputRetention b.

(** What [Settle] starts from for a job that passes its checks. *)
Definition settle_result (job : BatchImageJob) : BatchImageSettlementResult :=
  SettlementResult (BatchID job) (SuccessCount job) (FailCount job) (default f64_zero (ActualCost job))
    (BuildBatchImageSettlementManifestHash sha256_hex job) (UsageBilling.BatchImageCaptureRequestID (BatchID job)) false.

Record checked (b : string) (w : world) (job : BatchImageJob) : Prop := {
  ck_job : jobs (tables w) !! b = Some job;
  ck_status : Status job = BatchImageJobStatusSettling;
  ck_key : 0 < default 0 (APIKeyID job) /\ 0 < default 0 (AccountID job);
  ck_retry : RetryCount job < batchImageSettlementMaxRetries;
  ck_counts : 0 <= SuccessCount job /\ 0 <= FailCount job /\ SuccessCount job + FailCount job <= ItemCount job <= int64_max;
  ck_manifest : ManifestHash job = None;
  ck_price : 1 <= PricingSnapshotVersion job /\ (BillableUnitPrice job <? f64_zero)%f64 = false
}.

Lemma settle_checked a b w job :
  checked b w job ->
  evaluate a (settle_prog b) w =
  evaluate a (settle_at outputRetention job (settle_result job) (BuildBatchImageSettlementManifestHash sha256_hex job)
                (BillableUnitPrice job)) w.
Proof.
  intros [Hj Hst [Hk Hacc] Hr (Hs & Hf & Hi) Hm [Hv Hp]]. unfold settle_prog, Settle. cbn [evaluate exec].
  unfold GetBatchImageJobByBatchID, find_job. rewrite Hj.
  assert (Hex : isBatchImageSettlementRetryExhausted job = false).
  { unfold isBatchImageSettlementRetryExhausted. destruct (Z.leb_spec batchImageSettlementMaxRetries (RetryCount job)); [lia|].
    by rewrite andb_false_r. }
  rewrite Hex, Hst, Hm.
  replace (BatchImageJobStatusSettling =s BatchImageJobStatusCompleted) with false by reflexivity.
  replace (BatchImageJobStatusSettling =s BatchImageJobStatusSettling) with true by reflexivity. cbn [negb].
  destruct (Z.leb_spec (default 0 (APIKeyID job)) 0); [lia|]. destruct (Z.leb_spec (default 0 (AccountID job)) 0); [lia|].
  rewrite wrap64_id by (unfold int64_range, int64_min in *; lia).
  destruct (Z.ltb_spec (SuccessCount job) 0); [lia|]. destruct (Z.ltb_spec (FailCount job) 0); [lia|].
  destruct (Z.ltb_spec (ItemCount job) 0); [lia|]. destruct (Z.ltb_spec (ItemCount job) (SuccessCount job + FailCount job)); [lia|].
  cbn [orb]. replace (TrimSpace (batchImageDerefString None) =s "") with true by reflexivity. cbn [negb andb].
  unfold settlementUnitPrice. destruct (Z.leb_spec 1 (PricingSnapshotVersion job)); [|lia]. rewrite Hp. cbn [bind].
  by rewrite Hp.
Qed.

Lemma settle_evaluates a b w job key u cost stored bal fro :
  settleable b w job key u cost stored bal fro ->
  exists r w', evaluate a (settle_prog b) w = (Ok r, w') /\
    sr_ActualCost r = cost /\ sr_AlreadySettled r = false /\
    (exists job', jobs (tables w') !! b = Some job' /\ Status job' = BatchImageJobStatusCompleted /\
      ActualCost job' = Some stored /\ Version job' = Version job + 1 /\ contract job' = contract job) /\
    UsageBilling.users (billing w') = <[UserID job := UsageBilling.User bal fro false]> (UsageBilling.users (billing w)) /\
    (UsageBilling.BatchImageCaptureRequestID b, key) ∈ UsageBilling.claimed (billing w').
Proof.
  intros [Hj [Hid Hplain] Hst (Hk & Hk0 & Hacc) Hr (Hs & Hf & Hi) [Hm Hmt] (Hv & Hp & Hcost & Hstored)
          (Ha1 & Ha2 & Ha3 & Ha4) Hun [Hu Hdel] Hfr Hb' Hf'].
  assert (Hk' : 0 < default 0 (APIKeyID job)) by (rewrite Hk; exact Hk0).
  rewrite (settle_checked a b w job (Build_checked _ _ _ Hj Hst (conj Hk' Hacc) Hr (conj Hs (conj Hf Hi)) Hm (conj Hv Hp))).
  unfold settle_at. rewrite <- Hcost, Ha4. unfold captureBatchImageBalanceHold, buildBatchImageHoldCommand.
  rewrite Hk. destruct (Z.leb_spec key 0); [lia|]. rewrite Ha2, Ha3. cbn [bind evaluate exec].
  subst b. destruct (Normalize_capture job key cost Hplain) as (N1 & N2 & N3 & N4 & N5).
  unfold capture_command in N1, N2, N3, N4, N5.
  destruct (UsageBilling.capture_succeeds numeric sha256_hex (capture_command job key cost) (billing w) u bal fro) as [r Hcap];
    unfold capture_command; rewrite ?N1, ?N2, ?N3, ?N4, ?N5; try done.
  { by rewrite Ha1. }
  unfold UsageBilling.CaptureBatchImageBalance in Hcap. cbn [UsageBilling.hold_apply].
  unfold capture_command in Hcap. rewrite Hcap. cbn [fst snd bind evaluate exec]. unfold on_tables.
  unfold MarkBatchImageJobSettled. cbn [st_BatchID st_ActualCost st_ManifestHash tables]. rewrite Hj, Hst, Hm.
  replace (BatchImageJobStatusSettling =s BatchImageJobStatusSettling) with true by reflexivity.
  cbn [andb]. rewrite Hstored, Hmt. cbn [fst snd evaluate]. eexists _, _. split; [reflexivity|].
  split; [reflexivity|]. split; [reflexivity|]. cbn [tables billing]. split.
  - eexists. split; [cbn; apply lookup_insert_eq|]. repeat (split; [reflexivity|]). reflexivity.
  - split; [cbn; by rewrite N3|]. unfold UsageBilling.claimed. apply elem_of_union_l, elem_of_dom. cbn.
    rewrite N1, N2, lookup_insert_eq. by eexists.
Qed.

(** C19: Settlement charges a job once.  A settled run of [Settle] on a job whose
    results are indexed, at a price fixed at submission and within the hold,
    completes the job with the price times its successes as actual cost, turns
    the frozen hold into this charge and returns the rest to the balance; it
    changes no other user; and settling again, at any time and with whatever
    answers, reports the job as settled and changes nothing. *)
Theorem settle_charges_once a b w job key u cost stored bal fro :
  settleable b w job key u cost stored bal fro ->
  exists r w', evaluate a (settle_prog b) w = (Ok r, w') /\
    sr_ActualCost r = (f64_of_int (SuccessCount job) * BillableUnitPrice job)%f64 /\
    (exists job', jobs (tables w') !! b = Some job' /\ Status job' = BatchImageJobStatusCompleted /\
      ActualCost job' = Some stored /\ contract job' = contract job) /\
    UsageBilling.users (billing w') = <[UserID job := UsageBilling.User bal fro false]> (UsageBilling.users (billing w)) /\
    (forall a', exists r', evaluate a' (settle_prog b) w' = (Ok r', w') /\ sr_AlreadySettled r' = true /\
      sr_ActualCost r' = stored).
Proof.
  intros H. destruct (settle_evaluates a _ _ _ _ _ _ _ _ _ H) as (r & w' & He & Hc & _ & (job' & Hj & Hs & Ha & _ & Hk) & Hu & _).
  exists r, w'. destruct H as [_ _ _ _ _ _ _ (_ & _ & -> & _) _ _ _ _ _ _].
  split; [done|]. split; [done|]. split; [eauto 10|]. split; [done|]. intros a'.
  unfold settle_prog, Settle. cbn [evaluate exec]. unfold GetBatchImageJobByBatchID, find_job. rewrite Hj, Hs.
  replace (BatchImageJobStatusCompleted =s BatchImageJobStatusCompleted) with true by reflexivity.
  cbn [evaluate]. eexists. split; [reflexivity|]. cbn. by rewrite Ha.
Qed.
End system.

(** ** A hold that is never given back

    Ten dollars, a job with a hold of 0.60, and its owner cancelling it between
    the creation of its row and the reservation of its hold. *)

Definition demo_answers : answers :=
  Answers 1000 (Ok true) (Ok (Some (ProviderJob "batches/9" "in" "out"))) (Ok None) (Ok tt) (Ok ("", None)) (Ok f64_zero) (Ok tt).

Definition demo_registered (p : string) : bool := IsSupportedBatchImageProvider p.

Definition demo_world : world := World (Tables ∅ ∅ 1) (UsageBilling.Billing UsageBilling.demo_users ∅ ∅).

Definition demo_submit : prog (outcome BatchImageJob error) := submit_job demo_job "hash" [].
Definition demo_cancel : prog (outcome BatchImageJob error) := Cancel demo_registered 1 7 "imgbatch_1".

Definition demo_processes : gmap nat process := {[ 1%nat := Running demo_submit; 2%nat := Running demo_cancel ]}.

Definition demo_play (schedule : list nat) : gmap nat process * world * list string :=
  play demo_numeric UsageBilling.no_hash demo_answers schedule demo_processes demo_world [].

(** Where the job and the user's money are. *)
Definition observe (w : world) : option string * option (Z * Z) :=
  (option_map Status (jobs (tables w) !! "imgbatch_1"),
   option_map (fun u => (UsageBilling.balance u, UsageBilling.frozen_balance u)) (UsageBilling.users (billing w) !! 1)).

Definition all_finished (ps : gmap nat process) : bool :=
  map_fold (fun _ p acc => acc && match p with Finished => true | _ => false end) true ps.

Example cancel_first : observe (demo_play [1; 1; 1; 2; 2; 2; 2; 1; 1; 1; 1]%nat).1.2 = (Some "cancelled", Some (1000000000, 0)).
Proof. vm_compute. reflexivity. Qed.
Example cancel_between : observe (demo_play [1; 2; 2; 2; 2; 1; 1; 1; 1; 1; 1]%nat).1.2 = (Some "cancelled", Some (940000000, 60000000)).
Proof. vm_compute. reflexivity. Qed.

(** Two images at 0.25 against a hold of 0.60. *)
Definition settle_job : BatchImageJob :=
  demo_job <| Status := "settling" |> <| SuccessCount := 2 |> <| Version := 5 |>.
Definition settle_world : world :=
  World (Tables {[ "imgbatch_1" := settle_job ]} ∅ 2)
    (UsageBilling.Billing {[ 1 := UsageBilling.User 940000000 60000000 false ]} ∅ ∅).
Definition settle_cost : float64 := (f64_of_int 2 * f64_of_ratio 1 4)%f64.

Lemma settle_charges_once_witness :
  exists r w',
    evaluate demo_numeric UsageBilling.no_hash demo_answers
      (settle_prog UsageBilling.no_hash 3600 "imgbatch_1") settle_world = (Ok r, w') /\
    observe w' = (Some "completed", Some (950000000, 0)).
Proof.
  destruct (settle_charges_once demo_numeric UsageBilling.no_hash 3600 demo_answers "imgbatch_1" settle_world settle_job 7
      (UsageBilling.User 940000000 60000000 false) settle_cost (f64_of_ratio 1 2) 950000000 0)
    as (r & w' & He & _ & (j & Hj & Hs & _) & Hu & _).
  { constructor; try (vm_compute; reflexivity).
    - split; [reflexivity|]. unfold UsageBilling.plain_id. repeat constructor; vm_compute; congruence.
    - repeat split.
    - repeat split; vm_compute; congruence.
    - repeat split.
    - repeat split; vm_compute; congruence.
    - repeat split.
    - intros H. vm_compute in H. set_solver.
    - repeat split.
    - vm_compute. congruence. }
  exists r, w'. split; [exact He|]. unfold observe. rewrite Hj, Hu. cbn [option_map].
  rewrite Hs. vm_compute. reflexivity.
Defined.

Definition demo_release_id : string * Z := (UsageBilling.BatchImageReleaseRequestID "imgbatch_1", 7).

(** C22: A hold can be stranded.  The owner cancels the job after its row is created
    and before its hold is reserved: the cancellation's release finds no hold,
    moves no money, but claims the release id of the batch; the submission then
    reserves the hold, fails to start the upload of the cancelled job, and its
    own release is taken for a repetition.  No call fails.  In the end both
    programs have finished, the job is cancelled, its hold is frozen, and no
    release of this batch, then or after any further operations on the
    balances, has any effect. *)
Theorem cancel_during_submit_strands_hold :
  let '(ps, w, _) := demo_play [1; 2; 2; 2; 2; 1; 1; 1; 1; 1; 1]%nat in
  all_finished ps = true /\
  observe w = (Some "cancelled", Some (940000000, 60000000)) /\
  forall ops cmd,
    (UsageBilling.RequestID (UsageBilling.Normalize UsageBilling.no_hash cmd), UsageBilling.APIKeyID cmd) = demo_release_id ->
    let d := (run (UsageBilling.billing_step demo_numeric UsageBilling.no_hash) ops (billing w, [])).1 in
    snd (UsageBilling.ReleaseBatchImageBalance demo_numeric UsageBilling.no_hash cmd d) = d.
Proof.
  destruct (demo_play _) as [[ps w] log] eqn:H. split; [|split].
  - apply (f_equal (fun x => all_finished x.1.1)) in H. cbn [fst] in H. rewrite <- H. vm_compute. reflexivity.
  - apply (f_equal (fun x => observe x.1.2)) in H. cbn [fst snd] in H. rewrite <- H. vm_compute. reflexivity.
  - intros ops cmd Hid d. apply UsageBilling.claimed_no_effect with (kind := UsageBilling.Release). rewrite Hid.
    refine (UsageBilling.claimed_run demo_numeric UsageBilling.no_hash _ ops (billing w, []) _ _).
    { apply UsageBilling.decimal10_pos. }
    cbn [fst]. unfold UsageBilling.claimed. apply elem_of_union_l, elem_of_dom.
    apply (f_equal (fun x => UsageBilling.dedup (billing x.1.2) !! demo_release_id)) in H. cbn [fst snd] in H.
    rewrite <- H. clear H. vm_compute. by eexists.
Qed.

(** A refund of a running batch.  The cancellation reads the job before the
    provider has answered the submission and moves it to cancelled afterwards:
    the client of the submission gets the submitted job, the hold is given
    back, and nothing was ever asked of the provider but to run the batch. *)
Theorem cancel_refunds_running_batch :
  let '(ps, w, log) := demo_play [1; 1; 1; 1; 1; 2; 1; 1; 1; 2; 2; 2]%nat in
  all_finished ps = true /\
  observe w = (Some "cancelled", Some (1000000000, 0)) /\
  option_map ProviderJobName (jobs (tables w) !! "imgbatch_1") = Some (Some "batches/9") /\
  log = ["submit"].
Proof. vm_compute. repeat split. Qed.
End BatchImageSystem.
