(* ===== verification/BatchImageWorker.v ===== *)
(** * The workers of the batch image queue

    [service/batch_image_worker.go]: a worker reserves a job, takes its lock,
    processes it while another goroutine keeps lock and reservation alive, and
    acknowledges it or puts it back; other loops move delayed jobs to the ready
    list and recover those whose worker died.  Its programs make the calls of
    [BatchImageJobs] and the requests of [BatchImageQueue]; here the queue of
    the services is the real one. *)

From S2P Require Import Prelude Programs GoStrings AppErrors BatchImage BatchImageQueue BatchImageJobs.

Module BatchImageWorker.
Import BatchImageJobs.
#[local] Open Scope Z_scope.

(** ** Options *)

Definition defaultBatchImageWorkerLockTTL : Duration := 5 * Minute.
Definition defaultBatchImageWorkerLockConflictDelay : Duration := 5 * Second.
Definition defaultBatchImageWorkerErrorRetryDelay : Duration := Minute.
Definition defaultBatchImageWorkerRequeueDelay : Duration := 30 * Second.
Definition defaultBatchImageWorkerDelayedPollInterval : Duration := 5 * Second.
Definition defaultBatchImageWorkerRecoveryInterval : Duration := 5 * Minute.
Definition defaultBatchImageWorkerStaleActiveAfter : Duration := 10 * Minute.
Definition defaultBatchImageWorkerDelayedMoveLimit : Z := 100.
Definition defaultBatchImageWorkerRecoverLimit : Z := 100.
Definition defaultBatchImageWorkerErrorBackoff : Duration := Second.
Definition defaultBatchImageWorkerReserveBlockTimeout : Duration := 5 * Second.

Record BatchImageWorkerOptions := WorkerOptions {
  ReserveBlockTimeout : Duration;
  JobLockTTL : Duration;
  LockConflictDelay : Duration;
  DefaultRequeueDelay : Duration;
  ErrorRetryDelay : Duration;
  ErrorBackoff : Duration;
  DelayedPollInterval : Duration;
  RecoveryInterval : Duration;
  StaleActiveAfter : Duration;
  DelayedMoveLimit : Z;
  RecoverLimit : Z
}.

Definition normalizeBatchImageWorkerOptions (o : BatchImageWorkerOptions) : BatchImageWorkerOptions :=
  let pos (x d : Z) := if x <=? 0 then d else x in
  WorkerOptions (pos (ReserveBlockTimeout o) defaultBatchImageWorkerReserveBlockTimeout)
    (pos (JobLockTTL o) defaultBatchImageWorkerLockTTL) (pos (LockConflictDelay o) defaultBatchImageWorkerLockConflictDelay)
    (pos (DefaultRequeueDelay o) defaultBatchImageWorkerRequeueDelay)
    (pos (ErrorRetryDelay o) defaultBatchImageWorkerErrorRetryDelay) (pos (ErrorBackoff o) defaultBatchImageWorkerErrorBackoff)
    (pos (DelayedPollInterval o) defaultBatchImageWorkerDelayedPollInterval)
    (pos (RecoveryInterval o) defaultBatchImageWorkerRecoveryInterval)
    (pos (StaleActiveAfter o) defaultBatchImageWorkerStaleActiveAfter)
    (pos (DelayedMoveLimit o) defaultBatchImageWorkerDelayedMoveLimit) (pos (RecoverLimit o) defaultBatchImageWorkerRecoverLimit).

Definition NewBatchImageWorkerOptionsFromConfig (cfg : option BatchImageQueue.BatchImageConfig) : BatchImageWorkerOptions :=
  let seconds := BatchImageQueue.seconds in
  normalizeBatchImageWorkerOptions
    match cfg with
    | None => WorkerOptions 0 0 0 0 0 0 0 0 0 0 0
    | Some c =>
        WorkerOptions 0 (seconds (BatchImageQueue.JobLockTTLSeconds c)) (seconds (BatchImageQueue.LockConflictDelaySeconds c))
          (seconds (BatchImageQueue.DefaultRequeueDelaySeconds c)) (seconds (BatchImageQueue.ErrorRetryDelaySeconds c)) 0
          (seconds (BatchImageQueue.DelayedMoverIntervalSeconds c)) (seconds (BatchImageQueue.RecoveryIntervalSeconds c))
          (seconds (BatchImageQueue.StaleActiveAfterSeconds c)) (BatchImageQueue.cfg_DelayedMoveLimit c)
          (BatchImageQueue.cfg_RecoverLimit c)
    end.

Definition heartbeatInterval (o : BatchImageWorkerOptions) : Duration :=
  let interval := if StaleActiveAfter o <? JobLockTTL o then StaleActiveAfter o else JobLockTTL o in
  let interval := Z.quot interval 3 in
  if interval <? Second then Second else interval.

(** The defaults fill what is not positive; the heartbeat beats at least twice
    within the life of a lock that lives for three seconds. *)
Lemma normalized_positive o :
  let n := normalizeBatchImageWorkerOptions o in
  0 < JobLockTTL n /\ 0 < StaleActiveAfter n /\ 0 < ReserveBlockTimeout n /\ 0 < DelayedMoveLimit n /\ 0 < RecoverLimit n.
Proof. cbn. repeat split; match goal with |- 0 < (if ?x <=? 0 then _ else _) => destruct (Z.leb_spec x 0); [reflexivity|lia] end. Qed.

Lemma heartbeat_in_time o :
  3 * Second <= JobLockTTL o -> 3 * Second <= StaleActiveAfter o ->
  3 * heartbeatInterval o <= JobLockTTL o /\ 3 * heartbeatInterval o <= StaleActiveAfter o.
Proof.
  intros H1 H2. unfold heartbeatInterval. set (i := if StaleActiveAfter o <? JobLockTTL o then StaleActiveAfter o else JobLockTTL o).
  assert (Hi : i <= JobLockTTL o /\ i <= StaleActiveAfter o /\ 3 * Second <= i)
    by (subst i; destruct (Z.ltb_spec (StaleActiveAfter o) (JobLockTTL o)); lia).
  unfold Second in *. pose proof (Z.quot_div_nonneg i 3 ltac:(lia) ltac:(lia)) as Hq. rewrite Hq.
  pose proof (Z.mul_div_le i 3 ltac:(lia)). destruct (Z.ltb_spec (i / 3) 1000000000); [|lia].
  assert (1000000000 <= i / 3) by (apply Z.div_le_lower_bound; lia). lia.
Qed.

(** ** Programs over both kinds of calls *)

Inductive wcall : Type -> Type :=
| WJob {A : Type} (c : call A) : wcall A
| WQueue {A : Type} (c : BatchImageQueue.qcall A) : wcall A.
Abbreviation wprog := (free wcall).

Definition on_queue {R} (p : free BatchImageQueue.qcall R) : wprog R := lift (fun A c => Do (WQueue c) Ret) p.

Section worker.
Context (sha256_hex : string -> string) (IsPrint : Z -> bool) (registered : string -> bool).
Context (outputRetention requeueDefault retryDelay : Duration) (pages rounds : nat).
Context (q : BatchImageQueue.batchImageQueueOptions) (opts : BatchImageWorkerOptions).

(** A call of the services; to enqueue is to ask the queue. *)
Definition on_services_call (A : Type) (c : call A) : wprog A :=
  match c in call A return wprog A with
  | Enqueue b => on_queue (BatchImageQueue.QueueEnqueue q b)
  | c => Do (WJob c) Ret
  end.

Definition on_services {R} (p : prog R) : wprog R := lift on_services_call p.

Definition process (b : string) : wprog (outcome BatchImageProcessResult error) :=
  on_services (Process sha256_hex IsPrint registered outputRetention requeueDefault retryDelay pages b).

(** [EnqueueBatchImageJob] of [service/batch_image_queue.go]. *)
Definition EnqueueBatchImageJob (b : string) : wprog (outcome unit error) :=
  if negb (BatchImageQueue.IsValidBatchImageID b) then Ret (Err BatchImageQueue.ErrInvalidBatchImageQueuePayload)
  else
    let! found := WJob (GetJob b) in
    match found with
    | Err e => Ret (Err e)
    | Ok _ => on_queue (BatchImageQueue.QueueEnqueue q b)
    end.

Definition as_error (r : outcome unit error) : option error := match r with Ok _ => None | Err e => Some e end.

(** What follows the answer [result] of the processor; the lock is released
    last. *)
Definition conclude (b : string) (l : BatchImageQueue.batchImageRedisJobLock) (result : outcome BatchImageProcessResult error)
    : wprog (option error) :=
  let back delay := BatchImageQueue.RequeueAfter q b delay in
  run! r := on_queue match result with
                     | Err _ => back (ErrorRetryDelay opts)
                     | Ok res =>
                         if Terminal res then BatchImageQueue.Ack q b
                         else back (if BatchImageJobs.RequeueAfter res <=? 0 then DefaultRequeueDelay opts else BatchImageJobs.RequeueAfter res)
                     end in
  run! _ := on_queue (BatchImageQueue.Release l) in
  Ret (as_error r).

Definition RunOnce : wprog (option error) :=
  run! reserved := on_queue (BatchImageQueue.Reserve q rounds (ReserveBlockTimeout opts)) in
  match reserved with
  | Err e => Ret (if errors_Is e BatchImageQueue.ErrBatchImageQueueEmpty then None else Some e)
  | Ok b =>
      run! lock := on_queue (BatchImageQueue.TryAcquireJobLock q b (JobLockTTL opts)) in
      match lock with
      | Err e =>
          run! r := on_queue (BatchImageQueue.RequeueAfter q b (LockConflictDelay opts)) in
          Ret (match r with Err e' => Some e' | Ok _ => Some e end)
      | Ok None =>
          run! r := on_queue (BatchImageQueue.RequeueAfter q b (LockConflictDelay opts)) in Ret (as_error r)
      | Ok (Some l) => run! result := process b in conclude b l result
      end
  end.

(** The goroutine beside the processor: [beats] beats. *)
Fixpoint runJobHeartbeat (beats : nat) (b : string) (l : BatchImageQueue.batchImageRedisJobLock) : wprog unit :=
  match beats with
  | O => Ret tt
  | S beats =>
      run! _ := on_queue (BatchImageQueue.Heartbeat q b) in
      run! _ := on_queue (BatchImageQueue.Refresh l (JobLockTTL opts)) in
      runJobHeartbeat beats b l
  end.

Definition MoveDueDelayedOnce : wprog (outcome Z error) :=
  on_queue (BatchImageQueue.MoveDueDelayedToReady q (DelayedMoveLimit opts)).

Definition RecoverStaleActiveOnce : wprog (outcome Z error) :=
  on_queue (BatchImageQueue.RecoverStaleActive q (StaleActiveAfter opts) (RecoverLimit opts)).
End worker.
End BatchImageWorker.
