(* ===== verification/BatchImageQueueSystem.v ===== *)
(** * Batch images: no job gets lost

    The whole subsystem at work: any number of API handlers, workers with
    their heartbeats, movers and recovery loops, over one database and one
    Redis, one call or request at a time.  Calls and requests fail before or
    after they take effect, programs stop anywhere, locks and inflight keys
    expire. *)

From Stdlib Require Import QArith.
From S2P Require Import Prelude Programs GoStrings RedisKeys AppErrors UsageBilling BatchImage BatchImageQueue BatchImageIndex BatchImageJobs BatchImageSystem BatchImageWorker.

Module BatchImageQueueSystem.
Import BatchImageJobs BatchImageSystem BatchImageWorker.
#[local] Open Scope Z_scope.

(** ** Statements and the status of a job *)

Section statements.
Context (numeric : float64 -> Q) (sha256_hex : string -> string).

(** The statement behind a call. *)
Definition op_of (now : Time) {A} (c : call A) : option table_op :=
  match c with
  | CreateJob p => Some (OpCreate p now)
  | CreateItems b l => Some (OpItems b l)
  | Transition b s o => Some (OpTransition b s o now)
  | FailStale b cut code m => Some (OpFailStale b cut code m now)
  | SetOutputRef b r => Some (OpOutputRef b r now)
  | ProviderSubmitted p => Some (OpProviderSubmit p now)
  | SubmitFailure b code m f => Some (OpSubmitFailure b code m f now)
  | MarkSettled p => Some (OpSettled p)
  | SettlementFailed b code m => Some (OpSettlementFailed b code m now)
  | ReplaceItems b l s f => Some (OpReplaceItems b l s f now)
  | MarkUserDeleted u k b t => Some (OpUserDeleted u k b t)
  | _ => None
  end.

Lemma exec_op a {A} (c : call A) w :
  tables (exec numeric sha256_hex a c w).2 =
  match op_of (a_now a) c with Some op => table_step numeric op (tables w) | None => tables w end.
Proof. by destruct c. Qed.

(** The tables after a call, whatever fails. *)
Lemma call_sem_op {A} (c : call A) w r w' :
  call_sem numeric sha256_hex c w r w' ->
  tables w' = tables w \/ exists now op, op_of now c = Some op /\ tables w' = table_step numeric op (tables w).
Proof.
  intros (a & Hc). assert (Hcase : w' = w \/ w' = (exec numeric sha256_hex a c w).2).
  { destruct Hc as [E|[(m & _ & [->| ->])|(m & _ & ->)]]; [right; by rewrite E|by left|by right|by right]. }
  destruct Hcase as [->| ->]; [by left|]. rewrite exec_op. destruct (op_of (a_now a) c) as [op|] eqn:E; [|by left]. right. eauto.
Qed.

(** A job's key is its id. *)
Definition keyed (d : batch_db) : Prop := forall b j, jobs d !! b = Some j -> BatchID j = b.

(** The processor has nothing more to ask the provider for it. *)
Definition done_with (b : string) (d : batch_db) : Prop :=
  exists j, jobs d !! b = Some j /\ isBatchImageProcessorDoneStatus (Status j) = true.

Lemma allowed_after_settling s :
  CanTransitionBatchImageJob BatchImageJobStatusSettling s = true -> IsTerminalBatchImageJobStatus s = true.
Proof.
  unfold CanTransitionBatchImageJob. cbn [orb]. destruct (s =s "") eqn:E; [done|]. cbn [orb].
  replace (BatchImageJobStatusSettling =s "") with false by reflexivity.
  replace (IsTerminalBatchImageJobStatus BatchImageJobStatusSettling) with false by reflexivity. cbn [orb].
  destruct (String.eqb_spec s BatchImageJobStatusFailed) as [->|]; [done|].
  assert (Hl : option_map base.elements (allowed_transitions !! BatchImageJobStatusSettling) =
               Some [BatchImageJobStatusCompleted]) by (vm_compute; reflexivity).
  destruct (allowed_transitions !! _) as [tos|]; [|done]. injection Hl as Hl. rewrite bool_decide_eq_true, <- elem_of_elements, Hl.
  intros Hs. set_unfold in Hs. by destruct Hs as [->|[]].
Qed.

Lemma done_stays s s' :
  isBatchImageProcessorDoneStatus s = true -> CanTransitionBatchImageJob s s' = true ->
  isBatchImageProcessorDoneStatus s' = true.
Proof.
  unfold isBatchImageProcessorDoneStatus. intros [->%String.eqb_eq|Ht]%orb_true_iff Hc.
  - by rewrite allowed_after_settling, orb_true_r.
  - unfold CanTransitionBatchImageJob in Hc. rewrite Ht in Hc. destruct (_ || _); [done|].
    apply andb_true_iff in Hc as [Hc _]. apply andb_true_iff in Hc as [->%String.eqb_eq _]. done.
Qed.

(** Rows stay, with their ids, and what is done with stays done with. *)
Lemma row_stays op d b j :
  jobs d !! b = Some j -> exists j', jobs (table_step numeric op d) !! b = Some j' /\ BatchID j' = BatchID j /\
    (isBatchImageProcessorDoneStatus (Status j) = true -> isBatchImageProcessorDoneStatus (Status j') = true).
Proof.
  intros Hj. destruct (table_step_follows numeric (overrides op b) op d b ltac:(auto) j Hj) as (j' & Hj' & [Hc Hs _ _]).
  exists j'. split; [done|]. split; [by injection Hc|]. intros Hd.
  destruct Hs as [[-> _]|[[Hs|[_ ->]] _]]; [done|by eapply done_stays|reflexivity].
Qed.

Lemma update_no_row b' guard f d b j : jobs (update_job b' guard f d).2 !! b = Some j -> is_Some (jobs d !! b).
Proof.
  unfold update_job. destruct (jobs d !! b') as [j1|] eqn:H1; [|by eexists]. destruct (guard j1); [|by eexists]. cbn.
  intros [[<- <-]|[_ H]]%lookup_insert_Some; by eexists.
Qed.

(** A new row is under its id. *)
Lemma new_row op d b j' : jobs (table_step numeric op d) !! b = Some j' -> BatchID j' = b \/ is_Some (jobs d !! b).
Proof.
  destruct op as [p now|b' s o now|b' now|b' c code m now|b' r now|p now|b' code m f now|p|b' code m now|b' l
                            |b' l sc fc now|b' t|b' t|b' t|u k b' t|b' t now|b' code m now]; cbn [table_step]; intros Hj.
  - revert Hj. unfold CreateBatchImageJob. repeat (case_match; try (cbn; by eauto)). all: cbn.
    all: intros [[<- <-]|[_ H']]%lookup_insert_Some; eauto.
  - right. revert Hj. unfold TransitionBatchImageJobStatus. repeat (case_match; try (cbn; by eauto)).
    all: cbn; intros [[<- <-]|[_ H']]%lookup_insert_Some; eauto.
  - right. by eapply update_no_row.
  - right. by eapply update_no_row.
  - right. unfold UpdateBatchImageJobProviderOutputRef in Hj. rewrite snd_let in Hj. by eapply update_no_row.
  - right. revert Hj. unfold UpdateBatchImageJobProviderSubmit. repeat (case_match; try (cbn; by eauto)).
    all: cbn; intros [[<- <-]|[_ H']]%lookup_insert_Some; eauto.
  - right. by eapply update_no_row.
  - right. revert Hj. unfold MarkBatchImageJobSettled. repeat (case_match; try (cbn; by eauto)).
    all: cbn; intros [[<- <-]|[_ H']]%lookup_insert_Some; eauto.
  - right. revert Hj. unfold SetBatchImageJobSettlementFailed. repeat (case_match; try (cbn; by eauto)).
    all: cbn; intros [[<- <-]|[_ H']]%lookup_insert_Some; eauto.
  - right. revert Hj. unfold BulkCreateBatchImageItems. case_match; cbn; by eauto.
  - right. revert Hj. unfold ReplaceBatchImageItemsForJob. repeat (case_match; try (cbn; by eauto)).
    all: cbn; intros [[<- <-]|[_ H']]%lookup_insert_Some; eauto.
  - right. unfold MarkBatchImageInputDeleted in Hj. rewrite snd_let in Hj. by eapply update_no_row.
  - right. unfold MarkBatchImageOutputDeleted in Hj. rewrite snd_let in Hj. by eapply update_no_row.
  - right. unfold MarkBatchImageDownloaded in Hj. rewrite snd_let in Hj. by eapply update_no_row.
  - right. unfold MarkBatchImageJobUserDeleted in Hj. rewrite snd_let in Hj. by eapply update_no_row.
  - right. unfold SetBatchImageOutputExpiresAt in Hj. rewrite snd_let in Hj. by eapply update_no_row.
  - right. by eapply update_no_row.
Qed.

Lemma keyed_step op d : keyed d -> keyed (table_step numeric op d).
Proof.
  intros Hk b j' Hj'. destruct (new_row op d b j' Hj') as [|[j Hj]]; [done|].
  destruct (row_stays op d b j Hj) as (j2 & Hj2 & Hb & _). assert (j2 = j') as -> by congruence. rewrite Hb. by apply Hk.
Qed.

Lemma done_with_step op d b : done_with b d -> done_with b (table_step numeric op d).
Proof. intros (j & Hj & Hd). destruct (row_stays op d b j Hj) as (j' & Hj' & _ & Hd'). exists j'. auto. Qed.

(** Any call, whatever fails. *)
Lemma call_tables {A} (c : call A) w r w' (P : batch_db -> Prop) :
  (forall op d, P d -> P (table_step numeric op d)) -> call_sem numeric sha256_hex c w r w' -> P (tables w) -> P (tables w').
Proof. intros HP [-> |(now & op & _ & ->)]%call_sem_op; auto. Qed.
End statements.

#[export] Instance done_with_dec b d : Decision (done_with b d).
Proof.
  refine (match jobs d !! b as o return jobs d !! b = o -> _ with
          | Some j => fun E => cast_if (decide (isBatchImageProcessorDoneStatus (Status j) = true))
          | None => fun E => right _
          end eq_refl); unfold done_with; rewrite E; naive_solver.
Defined.

(** ** What a program knows

    [true] once an answer showed that the job [b] is done with. *)

Section knowledge.
Context (b : string).

(** The answer [r] of [c] shows it. *)
Definition shows_done {A} (c : call A) : A -> bool :=
  match c in call A return A -> bool with
  | GetJob k => fun r => match r with Ok j => (k =s b) && isBatchImageProcessorDoneStatus (Status j) | Err _ => false end
  | Transition k s _ => fun r => match r with Ok _ => (k =s b) && isBatchImageProcessorDoneStatus s | Err _ => false end
  | MarkSettled p => fun r => match r with Ok _ => st_BatchID p =s b | Err _ => false end
  | _ => fun _ => false
  end.

(** Rows come with the id they were asked for. *)
Definition right_row {A} (c : call A) : A -> Prop :=
  match c in call A return A -> Prop with
  | GetJob k => fun r => match r with Ok j => BatchID j = k | Err _ => True end
  | _ => fun _ => True
  end.

Definition job_note (A : Type) (κ : bool) (c : call A) (r : A) : bool := κ || shows_done c r.
Definition job_runs {R} : (bool -> R -> Prop) -> bool -> prog R -> Prop :=
  always (fun _ _ _ => True) (fun _ _ c r => right_row c r) job_note.

(** Knowledge is kept. *)
Lemma knows_more {R} κ (p : prog R) : job_runs (fun κ' _ => κ = true -> κ' = true) κ p.
Proof.
  assert (H : forall κ0, (κ = true -> κ0 = true) -> job_runs (fun κ' _ => κ = true -> κ' = true) κ0 p); [|by apply H].
  induction p as [r|A c k IH]; intros κ0 H0; [done|]. cbn. split; [done|]. intros x _. apply IH. unfold job_note.
  intros H. by rewrite H0.
Qed.

Lemma runs_bind {A R} (Q : bool -> R -> Prop) κ (p : prog A) (k : A -> prog R) :
  (forall κ' r, (κ = true -> κ' = true) -> job_runs Q κ' (k r)) -> job_runs Q κ (bind p k).
Proof. intros Hk. apply always_bind. eapply always_mono; [|apply knows_more]. intros κ' r H. by apply Hk. Qed.

Context (sha256_hex : string -> string) (IsPrint : Z -> bool) (registered : string -> bool).
Context (outputRetention requeueDefault retryDelay : Duration) (pages : nat).

(** What a program may answer about [b]: its successes know. *)
Definition success_knows {R} (κ : bool) (r : outcome R error) : Prop := match r with Ok _ => κ = true | Err _ => True end.
Definition terminal_knows (κ : bool) (r : outcome BatchImageProcessResult error) : Prop :=
  match r with Ok res => Terminal res = true -> κ = true | Err _ => True end.

Ltac run_steps :=
  repeat first
    [ done | progress (cbn [job_runs always right_row shows_done terminal_knows success_knows Terminal terminal requeue])
    | split; [done|] | apply runs_bind; intros | intros ? | case_match; simplify_eq ].

Lemma fail_settlement_knows κ job code m e : job_runs success_knows κ (fail_settlement job code m e).
Proof. unfold fail_settlement. run_steps. Qed.

Lemma settle_at_knows κ job res h price :
  BatchID job = b -> job_runs success_knows κ (settle_at outputRetention job res h price).
Proof.
  intros Hb. unfold settle_at. destruct (_ <? _)%f64; [apply fail_settlement_knows|]. apply runs_bind. intros κ' captured _.
  destruct captured; [apply fail_settlement_knows|]. run_steps. unfold job_note. cbn. by rewrite Hb, String.eqb_refl, !orb_true_r.
Qed.

Lemma Settle_knows κ : job_runs success_knows κ (Settle sha256_hex outputRetention b).
Proof.
  unfold Settle. cbn. split; [done|]. intros [job|e] Hb; [|done]. destruct (String.eqb_spec (Status job) BatchImageJobStatusCompleted) as [Hs|].
  { cbn. unfold job_note. cbn. by rewrite Hs, String.eqb_refl, orb_true_r. }
  destruct (negb _); [exact I|]. do 2 (destruct (_ <=? 0); [exact I|]).
  destruct (isBatchImageSettlementRetryExhausted job); [by apply runs_bind|].
  do 2 (match goal with |- context [if ?x then _ else _] => destruct x; [apply fail_settlement_knows|] end).
  apply runs_bind. intros κ' price _. destruct price as [price|e]; [|apply fail_settlement_knows].
  destruct (price <? f64_zero)%f64; [apply fail_settlement_knows|by apply settle_at_knows].
Qed.

Lemma end_job_knows κ job s opts :
  BatchID job = b -> isBatchImageProcessorDoneStatus s = true -> job_runs terminal_knows κ (end_job job s opts).
Proof.
  intros Hb Hs. unfold end_job. cbn. split; [done|]. intros [u|e] _; [|done]. unfold job_note. cbn.
  rewrite Hb, Hs, String.eqb_refl, orb_true_r. apply runs_bind. intros κ' r H. destruct r; cbn; auto.
Qed.

Lemma indexAndSettle_knows κ job :
  BatchID job = b -> job_runs terminal_knows κ (indexAndSettle IsPrint pages job).
Proof.
  intros Hb. unfold indexAndSettle. apply runs_bind. intros κ' [st|e] _; [run_steps|].
  repeat (case_match; [by run_steps|]). by apply end_job_knows.
Qed.

Lemma follow_state_knows κ job status :
  BatchID job = b -> job_runs terminal_knows κ (follow_state IsPrint requeueDefault pages job status).
Proof.
  intros Hb. unfold follow_state. cbn zeta. case_match; [by run_steps|]. case_match; [by run_steps|]. case_match.
  - case_match; [by apply indexAndSettle_knows|]. cbn. split; [done|]. intros [u|e] _; [|done]. by apply indexAndSettle_knows.
  - case_match; [by apply end_job_knows|]. case_match; [by apply end_job_knows|done].
Qed.

Lemma ProviderProcess_knows κ : job_runs terminal_knows κ (ProviderProcess IsPrint registered requeueDefault pages b).
Proof.
  unfold ProviderProcess. cbn. split; [done|]. intros [job|e] Hb; [|exact I]. unfold job_note at 1. cbn.
  rewrite String.eqb_refl, andb_true_l. destruct (isBatchImageProcessorDoneStatus (Status job)) eqn:Hd.
  { rewrite orb_true_r. apply runs_bind. intros κ' r H. destruct r; cbn; auto. }
  do 2 (match goal with |- context [if ?x then _ else _] => destruct x; [exact I|] end).
  cbn. split; [done|]. intros [[]|e] _; try exact I. destruct (_ =s ""); [exact I|].
  destruct (Status job =s BatchImageJobStatusIndexing); [by apply indexAndSettle_knows|]. cbn. split; [done|].
  intros [[status|]|e] _; try done. unfold persistProviderOutputRef. destruct ((_ =s _) || _); [by apply follow_state_knows|].
  cbn. split; [done|]. intros [u|e] _; [|exact I]. by apply follow_state_knows.
Qed.

Lemma Process_knows κ :
  job_runs terminal_knows κ (Process sha256_hex IsPrint registered outputRetention requeueDefault retryDelay pages b).
Proof.
  unfold Process. split; [exact I|]. intros [job|e] Hb; [|exact I]. cbv beta iota.
  destruct (Status job =s BatchImageJobStatusSettling); [|apply ProviderProcess_knows].
  apply always_bind. eapply always_mono; [|apply Settle_knows]. intros κ' [r|e] Hr; [intros _; exact Hr|].
  destruct (errors_Is e ErrBatchImageSettlementBillingFailed); [|exact I]. cbn. split; [done|]. intros [j|e'] Hj; [|done].
  unfold job_note. cbn. destruct (IsTerminalBatchImageJobStatus (Status j)) eqn:Ht; [|done]. intros _.
  unfold isBatchImageProcessorDoneStatus. by rewrite Ht, String.eqb_refl, !orb_true_r.
Qed.

(** *** Programs of the queue's clients *)

Context (rounds : nat) (q : BatchImageQueue.batchImageQueueOptions) (opts : BatchImageWorkerOptions).

(** Only who knows that [b] is done with acknowledges it. *)
Definition permitted (κ : bool) (k : string) : Prop := k = b -> κ = true.

Definition w_allowed (A : Type) (κ : bool) (c : wcall A) : Prop :=
  match c with WJob _ => True | @WQueue A c => BatchImageQueue.sent q (permitted κ) A c end.
Definition w_right (A : Type) (κ : bool) (c : wcall A) : A -> Prop :=
  match c in wcall A return A -> Prop with WJob c => right_row c | WQueue _ => fun _ => True end.
Definition w_note (A : Type) (κ : bool) (c : wcall A) : A -> bool :=
  match c in wcall A return A -> bool with WJob c => job_note _ κ c | WQueue _ => fun _ => κ end.
Definition w_runs {R} : (bool -> R -> Prop) -> bool -> wprog R -> Prop := always w_allowed w_right w_note.

Lemma w_bind {A R} (Q : bool -> A -> Prop) (Q' : bool -> R -> Prop) κ (p : wprog A) (k : A -> wprog R) :
  w_runs Q κ p -> (forall κ' r, Q κ' r -> w_runs Q' κ' (k r)) -> w_runs Q' κ (bind p k).
Proof. intros Hp Hk. apply always_bind. eapply always_mono; [|exact Hp]. auto. Qed.

Lemma on_queue_runs κ {R} (p : free BatchImageQueue.qcall R) :
  BatchImageQueue.sends q (permitted κ) p -> w_runs (fun κ' _ => κ' = κ) κ (on_queue p).
Proof.
  unfold BatchImageQueue.sends. induction p as [r|A c k IH]; [done|]. cbn. intros [Hc Hk]. split; [done|]. intros x _. apply IH. by apply Hk.
Qed.

Lemma after_queue {A R} (Q : bool -> R -> Prop) κ (p : free BatchImageQueue.qcall A) (k : A -> wprog R) :
  BatchImageQueue.sends q (permitted κ) p -> (forall r, w_runs Q κ (k r)) -> w_runs Q κ (run! r := on_queue p in k r).
Proof. intros Hp Hk. eapply w_bind; [by apply on_queue_runs|]. by intros κ' r ->. Qed.

Context (ttl_ok : Millisecond <= BatchImageQueue.InflightTTL q) (lock_ttl_ok : Millisecond <= JobLockTTL opts).

Lemma on_services_runs {R} (Q : bool -> R -> Prop) κ (p : prog R) : job_runs Q κ p -> w_runs Q κ (on_services q p).
Proof.
  revert κ. induction p as [r|A c k IH]; intros κ; [done|]. cbn. intros [_ Hk].
  assert (Hdo : w_runs Q κ (bind (Do (WJob c) Ret) (fun x => on_services q (k x)))).
  { cbn. split; [done|]. intros x Hx. by apply IH, Hk. }
  destruct c; try exact Hdo. cbn. apply after_queue; [by apply BatchImageQueue.QueueEnqueue_sends|]. intros r. apply IH. replace κ with (job_note _ κ (Enqueue batchID) r) by apply orb_false_r. by apply Hk.
Qed.

Lemma process_runs κ k :
  w_runs (fun κ' r => k = b -> terminal_knows κ' r) κ
    (process sha256_hex IsPrint registered outputRetention requeueDefault retryDelay pages q k).
Proof.
  apply on_services_runs. destruct (decide (k = b)) as [->|Hk].
  - eapply always_mono; [|apply Process_knows]. auto.
  - eapply always_mono; [|apply knows_more]. done.
Qed.

Lemma conclude_runs κ k l r :
  BatchImageQueue.lock_key l = BatchImageQueue.lockKey q k -> (k = b -> terminal_knows κ r) ->
  w_runs (fun _ _ => True) κ (conclude q opts k l r).
Proof.
  intros Hl Hr. unfold conclude. destruct l as [key token]. cbn in Hl. subst key.
  apply after_queue; [|intros res; apply after_queue; [apply BatchImageQueue.Release_sends|done]]. destruct r as [res|e]; [|apply BatchImageQueue.RequeueAfter_sends].
  destruct (Terminal res) eqn:Ht; [|apply BatchImageQueue.RequeueAfter_sends].
  apply BatchImageQueue.Ack_sends. intros ->. by apply Hr.
Qed.

Lemma TryAcquire_runs κ k ttl :
  w_runs (fun κ' r => κ' = κ /\ forall l, r = Ok (Some l) -> BatchImageQueue.lock_key l = BatchImageQueue.lockKey q k) κ
    (on_queue (BatchImageQueue.TryAcquireJobLock q k ttl)).
Proof.
  unfold BatchImageQueue.TryAcquireJobLock. destruct (negb _); [by split|]. cbn.
  split; [constructor|]. intros [token|e] _; [|by split]. cbn. split; [constructor|].
  intros [[]|e] _; cbn; (split; [done|]); [by intros l [= <-]|done|done].
Qed.

Lemma RunOnce_runs κ :
  w_runs (fun _ _ => True) κ
    (RunOnce sha256_hex IsPrint registered outputRetention requeueDefault retryDelay pages rounds q opts).
Proof.
  assert (Hreq : forall κ k d (g : outcome unit error -> option error),
    w_runs (fun _ _ => True) κ (run! r := on_queue (BatchImageQueue.RequeueAfter q k d) in Ret (g r))).
  { intros. apply after_queue; [apply BatchImageQueue.RequeueAfter_sends|done]. }
  unfold RunOnce. apply after_queue; [apply BatchImageQueue.Reserve_sends|]. intros [k|e]; [|exact I].
  eapply w_bind; [apply TryAcquire_runs|]. intros κ' [[l|]|e] [-> Hl].
  - eapply w_bind; [apply process_runs|]. intros κ' r Hr. by apply conclude_runs; auto.
  - apply (Hreq κ k _ as_error).
  - apply (Hreq κ k _ (fun r => match r with Err e' => Some e' | Ok _ => Some e end)).
Qed.

Lemma runJobHeartbeat_runs κ beats k token :
  w_runs (fun _ _ => True) κ (runJobHeartbeat q opts beats k (BatchImageQueue.JobLock (BatchImageQueue.lockKey q k) token)).
Proof.
  revert κ. induction beats as [|n IH]; intros κ; [exact I|]. cbn [runJobHeartbeat].
  apply after_queue; [apply BatchImageQueue.Heartbeat_sends|]. intros _.
  apply after_queue; [by apply BatchImageQueue.Refresh_sends|]. intros _. apply IH.
Qed.

Lemma EnqueueBatchImageJob_runs κ k : w_runs (fun _ _ => True) κ (EnqueueBatchImageJob q k).
Proof.
  unfold EnqueueBatchImageJob. destruct (negb _); [exact I|]. cbn. split; [done|]. intros [j|e] _; [|exact I].
  eapply always_mono; [|apply on_queue_runs, BatchImageQueue.QueueEnqueue_sends; exact ttl_ok]. done.
Qed.
End knowledge.

(** ** The system

    The database with the balances, the server, and the programs that run. *)

Section system.
Context {S : Type} (kind : string -> RedisKeys.redis_type) `{RedisKeys.RedisServerLaws S kind}.
Context (numeric : float64 -> Q) (sha256_hex : string -> string) (IsPrint : Z -> bool) (registered : string -> bool).
Context (outputRetention requeueDefault retryDelay : Duration) (pages rounds : nat).
Context (q : BatchImageQueue.batchImageQueueOptions) (opts : BatchImageWorkerOptions).

Definition quietly {R} (p : wprog R) : wprog unit := run! _ := p in Ret tt.

(** What the processes of the service start. *)
Inductive service : wprog unit -> Prop :=
| a_worker :
    service (quietly (RunOnce sha256_hex IsPrint registered outputRetention requeueDefault retryDelay pages rounds q opts))
| a_heartbeat beats k token :
    service (quietly (runJobHeartbeat q opts beats k (BatchImageQueue.JobLock (BatchImageQueue.lockKey q k) token)))
| a_mover : service (quietly (MoveDueDelayedOnce q opts))
| a_recovery : service (quietly (RecoverStaleActiveOnce q opts))
| an_enqueuer k : service (quietly (EnqueueBatchImageJob q k))
| a_submission p hash pending : service (quietly (on_services q (submit_job p hash pending)))
| a_cancellation u key k : service (quietly (on_services q (Cancel registered u key k)))
| a_rescue stale limit : service (quietly (on_services q (ReleaseStaleUnsubmittedOnce stale limit))).

Definition system : Type := world * S * list (wprog unit).

Inductive sys_step : system -> system -> Prop :=
| sys_start w s ps p : service p -> sys_step (w, s, ps) (w, s, p :: ps)
| sys_call w s ps1 ps2 {A} (c : call A) k r w' :
    call_sem numeric sha256_hex c w r w' ->
    sys_step (w, s, ps1 ++ Do (WJob c) k :: ps2) (w', s, ps1 ++ k r :: ps2)
| sys_request w s ps1 ps2 {A} (c : BatchImageQueue.qcall A) k r s' :
    BatchImageQueue.q_sem c s r s' ->
    sys_step (w, s, ps1 ++ Do (WQueue c) k :: ps2) (w, s', ps1 ++ k r :: ps2)
| sys_time w s ps dt : 0 <= dt -> sys_step (w, s, ps) (w, RedisKeys.elapse dt s, ps)
| sys_statement w s ps op : sys_step (w, s, ps) (w <| tables := table_step numeric op (tables w) |>, s, ps)
| sys_crash w s ps1 ps2 p : sys_step (w, s, ps1 ++ p :: ps2) (w, s, ps1 ++ ps2).

Section invariant.
Context (b : string) (valid : BatchImageQueue.IsValidBatchImageID b = true) (sep : BatchImageQueue.separate_keys kind q).
Context (ttl_ok : Millisecond <= BatchImageQueue.InflightTTL q) (lock_ttl_ok : Millisecond <= JobLockTTL opts).

(** A program whose knowledge is right. *)
Definition sound (d : batch_db) (p : wprog unit) : Prop :=
  exists κ, w_runs b q (fun _ _ => True) κ p /\ (κ = true -> done_with b d).

Record sys_ok (st : system) : Prop := {
  so_keyed : keyed (tables st.1.1);
  so_sound : Forall (sound (tables st.1.1)) st.2;
  so_inflight : BatchImageQueue.inflight q b st.1.2 -> BatchImageQueue.queued q b st.1.2 \/ done_with b (tables st.1.1)
}.

Lemma quietly_runs {R} (Q : bool -> R -> Prop) κ (p : wprog R) :
  w_runs b q Q κ p -> w_runs b q (fun _ _ => True) κ (quietly p).
Proof. intros Hp. unfold quietly. eapply w_bind; [exact Hp|done]. Qed.

Lemma service_runs p : service p -> w_runs b q (fun _ _ => True) false p.
Proof.
  destruct 1; eapply quietly_runs.
  - apply RunOnce_runs; assumption.
  - apply runJobHeartbeat_runs; assumption.
  - apply on_queue_runs, BatchImageQueue.MoveDueDelayedToReady_sends.
  - apply on_queue_runs, BatchImageQueue.RecoverStaleActive_sends.
  - apply EnqueueBatchImageJob_runs; assumption.
  - apply on_services_runs; [assumption|apply knows_more].
  - apply on_services_runs; [assumption|apply knows_more].
  - apply on_services_runs; [assumption|apply knows_more].
Qed.

Lemma sound_mono d d' p : (done_with b d -> done_with b d') -> sound d p -> sound d' p.
Proof. intros Hd (κ & Hr & Hκ). exists κ. auto. Qed.

(** What an answered call shows is so, and rows come with their ids. *)
Lemma call_shows {A} (c : call A) w r w' :
  keyed (tables w) -> call_sem numeric sha256_hex c w r w' ->
  right_row c r /\ (shows_done b c r = true -> done_with b (tables w')).
Proof.
  intros Hk (a & [E|[(m & Hf & _)|(m & Hf & _)]]).
  - destruct c; try done; cbn in *.
    + injection E as <- <-. unfold GetBatchImageJobByBatchID, find_job. destruct (jobs (tables w) !! batchID) as [j|] eqn:Hj; [|done].
      split; [by apply Hk|]. intros [->%String.eqb_eq Hd]%andb_true_iff. by exists j.
    + split; [done|]. destruct r; [|done]. intros [->%String.eqb_eq Hd]%andb_true_iff.
      unfold on_tables in E. injection E as E1 <-. cbn. revert E1. unfold TransitionBatchImageJobStatus.
      destruct (jobs (tables w) !! b); [|done]. destruct (negb _); [done|]. intros _.
      unfold done_with. cbn. rewrite lookup_insert_eq. eauto.
    + split; [done|]. destruct r; [|done]. intros <-%String.eqb_eq. unfold on_tables in E. injection E as E1 <-. cbn.
      revert E1. unfold MarkBatchImageJobSettled. destruct (jobs (tables w) !! _); [|done].
      repeat (case_match; try done); intros _; unfold done_with; cbn; rewrite lookup_insert_eq; eauto.
  - destruct c; cbn in *; simplify_eq; done.
  - destruct c; cbn in *; try done; destruct (_.1); simplify_eq; done.
Qed.

Lemma Forall_swap (P P' : wprog unit -> Prop) p p' ps1 ps2 :
  Forall P (ps1 ++ p :: ps2) -> (forall x, P x -> P' x) -> (P p -> P' p') -> Forall P' (ps1 ++ p' :: ps2).
Proof.
  intros [H1 [Hp H2]%Forall_cons]%Forall_app HP Hp'. apply Forall_app. split; [by eapply Forall_impl|].
  apply Forall_cons. split; [auto|by eapply Forall_impl].
Qed.

Lemma sys_ok_step st st' : sys_step st st' -> sys_ok st -> sys_ok st'.
Proof.
  intros Hstep [Hk Hs Hi]. destruct Hstep as [w s ps p Hp|w s ps1 ps2 A c k r w' Hc|w s ps1 ps2 A c k r s' Hq
    |w s ps dt Hdt|w s ps op|w s ps1 ps2 p]; cbn in *.
  - split; cbn; [done| |done]. apply Forall_cons. split; [|done]. exists false. split; [by apply service_runs|done].
  - assert (Hd : done_with b (tables w) -> done_with b (tables w')).
    { eapply (call_tables numeric sha256_hex c w r w' (done_with b)); [|done]. intros. by apply done_with_step. }
    destruct (call_shows c w r w' Hk Hc) as [Hrow Hshow]. split; cbn.
    + eapply (call_tables numeric sha256_hex c w r w' keyed); [|done|done]. intros. by apply keyed_step.
    + eapply Forall_swap; [exact Hs|intros x; by apply (sound_mono (tables w))|]. intros (κ & [_ Hr] & Hκ). exists (job_note b A κ c r).
      split; [by apply Hr|]. unfold job_note. intros [|]%orb_true_iff; auto.
    + intros H1. destruct (Hi H1); auto.
  - split; cbn; [done| |].
    + eapply Forall_swap; [exact Hs|done|]. intros (κ & [_ Hr] & Hκ). exists κ. split; [by apply Hr|done].
    + assert (Hsent : sound (tables w) (Do (WQueue c) k)).
      { apply Forall_app in Hs as [_ [Hs _]%Forall_cons]. done. }
      destruct Hsent as (κ & [Ha _] & Hκ). intros H1. destruct κ; [right; by apply Hκ|].
      assert (Hkeep : BatchImageQueue.keeps q b s s').
      { eapply (BatchImageQueue.sent_keeps kind); try done. intros Hp. by specialize (Hp eq_refl). }
      destruct (decide (done_with b (tables w))) as [|Hn]; [by right|]. left.
      apply (BatchImageQueue.keeps_inflight _ _ _ _ Hkeep); [|done]. intros H2. by destruct (Hi H2).
  - split; cbn; [done|done|]. intros H1. destruct (decide (done_with b (tables w))) as [|Hn]; [by right|]. left.
    apply (BatchImageQueue.keeps_inflight _ _ _ _ (BatchImageQueue.keeps_elapse kind q dt b s Hdt)); [|done].
    intros H2. by destruct (Hi H2).
  - split; cbn; [by apply keyed_step| |].
    + eapply Forall_impl; [exact Hs|]. intros p. apply sound_mono. apply done_with_step.
    + intros H1. destruct (Hi H1); [by left|right]. by apply done_with_step.
  - split; cbn; [done| |done]. apply Forall_app in Hs as [H1 [_ H2]%Forall_cons]. by apply Forall_app.
Qed.

(** A queued job stays queued until it is done with. *)
Lemma queued_step st st' :
  sys_ok st -> sys_step st st' ->
  BatchImageQueue.queued q b st.1.2 \/ done_with b (tables st.1.1) ->
  BatchImageQueue.queued q b st'.1.2 \/ done_with b (tables st'.1.1).
Proof.
  intros [Hk Hs Hi] Hstep [Hq|Hd].
  - destruct Hstep as [|w s ps1 ps2 A c k r w' Hc|w s ps1 ps2 A c k r s' Hq'|w s ps dt Hdt| |]; cbn in *; try by left.
    + apply Forall_app in Hs as [_ [(κ & [Ha _] & Hκ) _]%Forall_cons]. destruct κ; [right; by apply Hκ|]. left.
      eapply (BatchImageQueue.keeps_queued q b s s'); [|done].
      eapply (BatchImageQueue.sent_keeps kind); try done. intros Hp. by specialize (Hp eq_refl).
    + left. by eapply (BatchImageQueue.keeps_queued q b s), Hq; apply (BatchImageQueue.keeps_elapse kind).
  - right. destruct Hstep as [|w s ps1 ps2 A c k r w' Hc| | | |]; cbn in *; try done; [|by apply done_with_step].
    eapply (call_tables numeric sha256_hex c w r w' (done_with b)); [|done|done]. intros. by apply done_with_step.
Qed.
End invariant.

(** From a database whose keys are right and a server that marks no job as
    queued, with no program running. *)
Definition fresh_system (b : string) (st : system) : Prop :=
  keyed (tables st.1.1) /\ ~ BatchImageQueue.inflight q b st.1.2 /\ st.2 = [].

(** C18: No job gets lost.  Once the server has answered a request to enqueue a job,
    with whatever answer, the job can be found in the queue at every later
    moment (in the ready list, among the delayed or among the active ones),
    until its status is one that nothing more is asked of the provider for:
    settling or terminal.  Between this, any number of workers, heartbeats,
    movers, recoveries, submissions, cancellations and rescues make their calls
    and requests in any order; calls fail before or after they take effect,
    programs crash anywhere, time passes, locks and inflight keys expire. *)
Theorem no_job_lost b st1 w s ps1 ps2 ttl k n s' st3 :
  BatchImageQueue.IsValidBatchImageID b = true -> BatchImageQueue.separate_keys kind q ->
  Millisecond <= BatchImageQueue.InflightTTL q -> Millisecond <= JobLockTTL opts -> 0 < ttl ->
  fresh_system b st1 ->
  let enqueue := BatchImageQueue.RunEnqueue (BatchImageQueue.inflightKey q b) (BatchImageQueue.ReadyKey q) b ttl in
  rtc sys_step st1 (w, s, ps1 ++ Do (WQueue enqueue) k :: ps2) ->
  BatchImageQueue.q_sem enqueue s (Ok n) s' ->
  rtc sys_step (w, s', ps1 ++ k (Ok n) :: ps2) st3 ->
  BatchImageQueue.queued q b st3.1.2 \/ done_with b (tables st3.1.1).
Proof.
  intros Hv Hsep Ht Hl Hpos (Hk & Hi & Hp) enqueue Hs1 Hq Hs3.
  assert (Hok1 : sys_ok b st1) by (split; [done|by rewrite Hp|done]).
  assert (Hok2 : sys_ok b (w, s, ps1 ++ Do (WQueue enqueue) k :: ps2)).
  { clear -Hv Hsep Ht Hl H0 Hok1 Hs1. revert Hok1. induction Hs1; [done|]. intros. by eapply IHHs1, sys_ok_step. }
  assert (Hok3 : sys_ok b (w, s', ps1 ++ k (Ok n) :: ps2)) by (eapply sys_ok_step; try done; by constructor).
  assert (Hnow : BatchImageQueue.queued q b s' \/ done_with b (tables w)).
  { destruct (decide (done_with b (tables w))) as [|Hn]; [by right|]. left.
    apply (BatchImageQueue.enqueue_queues kind q Hsep b ttl s n s' Hpos); [|exact Hq].
    intros Hi2. destruct (so_inflight _ _ Hok2 Hi2); [done|by exfalso]. }
  change (BatchImageQueue.queued q b (w, s', ps1 ++ k (Ok n) :: ps2).1.2 \/
          done_with b (tables (w, s', ps1 ++ k (Ok n) :: ps2).1.1)) in Hnow.
  clear -Hv Hsep Ht Hl H0 Hok3 Hnow Hs3. revert Hok3 Hnow.
  induction Hs3; [done|]. intros. apply IHHs3; [by eapply sys_ok_step|by eapply queued_step].
Qed.
End system.

(** ** Runs, one program at a time *)

#[local] Existing Instance RedisKeys.keyspace_server.
#[local] Existing Instance RedisKeys.keyspace_server_laws.

Section runs.
Context (numeric : float64 -> Q) (sha256_hex : string -> string) (IsPrint : Z -> bool) (registered : string -> bool).
Context (outputRetention requeueDefault retryDelay : Duration) (pages rounds : nat).
Context (q : BatchImageQueue.batchImageQueueOptions) (opts : BatchImageWorkerOptions).

Notation step := (sys_step (S := RedisKeys.keyspace) numeric sha256_hex IsPrint registered outputRetention requeueDefault
                    retryDelay pages rounds q opts).
Notation worker :=
  (quietly (RunOnce sha256_hex IsPrint registered outputRetention requeueDefault retryDelay pages rounds q opts)).

Inductive move :=
| Enqueues (k : string)      (* a caller of EnqueueBatchImageJob starts *)
| Works                      (* a worker starts *)
| Advances (a : answers)     (* the youngest program makes its call, which succeeds *)
| Dies                       (* the youngest program crashes *)
| Waits (dt : Z).

Definition make (m : move) (st : system (S := RedisKeys.keyspace)) : system (S := RedisKeys.keyspace) :=
  let '(w, s, ps) := st in
  match m, ps with
  | Enqueues k, _ => (w, s, quietly (EnqueueBatchImageJob q k) :: ps)
  | Works, _ => (w, s, worker :: ps)
  | Advances a, Do (WJob c) k :: ps => ((exec numeric sha256_hex a c w).2, s, k (exec numeric sha256_hex a c w).1 :: ps)
  | Advances a, Do (WQueue c) k :: ps =>
      (w, (BatchImageQueue.exec_q (a_now a) "token" c s).2, k (BatchImageQueue.exec_q (a_now a) "token" c s).1 :: ps)
  | Advances _, _ => st
  | Dies, _ => (w, s, tail ps)
  | Waits dt, _ => (w, RedisKeys.elapse (Z.max 0 dt) s, ps)
  end.

Lemma make_steps m st : rtc step st (make m st).
Proof.
  destruct st as [[w s] ps]. destruct m as [k| |a| |dt]; cbn.
  - apply rtc_once. constructor. apply an_enqueuer.
  - apply rtc_once. constructor. apply a_worker.
  - destruct ps as [|[|A [A' c|A' c] k] ps]; try apply rtc_refl; apply rtc_once.
    + apply (sys_call _ _ _ _ _ _ _ _ _ _ _ w s [] ps c k). exists a. left. apply surjective_pairing.
    + apply (sys_request _ _ _ _ _ _ _ _ _ _ _ w s [] ps c k). exists (a_now a), "token". left. apply surjective_pairing.
  - destruct ps as [|p ps]; [apply rtc_refl|]. apply rtc_once, (sys_crash _ _ _ _ _ _ _ _ _ _ _ w s [] ps p).
  - apply rtc_once. constructor. lia.
Qed.

Lemma moves_step ms st : rtc step st (fold_left (fun st m => make m st) ms st).
Proof. revert st. induction ms as [|m ms IH]; intros st; [apply rtc_refl|]. etrans; [apply make_steps|apply IH]. Qed.
End runs.

(** *** A worker that dies

    A job is enqueued; a worker takes it off the ready list and dies; a year
    passes, and the job's inflight key with it. *)

Definition mortal_world : world := World demo_tables (UsageBilling.Billing UsageBilling.demo_users ∅ ∅).
Definition year_ms : Z := 31536000000.

Definition default_worker : BatchImageWorkerOptions := NewBatchImageWorkerOptionsFromConfig None.

Notation mortal_run :=
  (fold_left (fun st m => make demo_numeric UsageBilling.no_hash (fun _ => true) demo_registered 0 0 0 1 2
     BatchImageQueue.default_queue default_worker m st)).

Definition before_enqueue : system (S := RedisKeys.keyspace) :=
  mortal_run [Enqueues "imgbatch_1"; Advances demo_answers] (mortal_world, RedisKeys.empty_keyspace, []).

(** What follows the answer to the enqueue request. *)
Definition asked_to_enqueue (applied : outcome Z error) : wprog unit :=
  quietly (Ret (match applied with
                | Err e => Err e
                | Ok n => if n =? 0 then Err ErrBatchImageAlreadyQueued else Ok tt
                end)).
Definition demo_enqueue : BatchImageQueue.qcall (outcome Z error) :=
  BatchImageQueue.RunEnqueue (BatchImageQueue.inflightKey BatchImageQueue.default_queue "imgbatch_1")
    (BatchImageQueue.ReadyKey BatchImageQueue.default_queue) "imgbatch_1" 604800000.

Definition a_year_later : system (S := RedisKeys.keyspace) :=
  mortal_run [Works; Advances demo_answers; Advances demo_answers; Advances demo_answers; Dies; Waits year_ms]
    (mortal_world, (BatchImageQueue.exec_q 0 "" demo_enqueue RedisKeys.empty_keyspace).2, [asked_to_enqueue (Ok 1)]).

Lemma no_job_lost_witness :
  BatchImageQueue.queued BatchImageQueue.default_queue "imgbatch_1" a_year_later.1.2 /\
  ~ BatchImageQueue.inflight BatchImageQueue.default_queue "imgbatch_1" a_year_later.1.2.
Proof.
  assert (Hkey : keyed demo_tables).
  { intros b j Hj. destruct (String.eqb_spec b "imgbatch_1") as [->|Hb]; [vm_compute in Hj; by injection Hj as <-|].
    replace demo_tables with (snd (CreateBatchImageJob demo_numeric demo_job 100 (Tables ∅ ∅ 1))) in Hj by reflexivity.
    destruct (new_row demo_numeric (OpCreate demo_job 100) (Tables ∅ ∅ 1) b j Hj) as [|[j' Hj']]; done. }
  split; [|intros [v Hv]; vm_compute in Hv; done].
  destruct (no_job_lost BatchImageQueue.default_kind demo_numeric UsageBilling.no_hash (fun _ => true) demo_registered 0 0 0 1 2
    BatchImageQueue.default_queue default_worker "imgbatch_1" (mortal_world, RedisKeys.empty_keyspace, []) mortal_world
    RedisKeys.empty_keyspace [] [] 604800000 asked_to_enqueue 1
    (BatchImageQueue.exec_q 0 "" demo_enqueue RedisKeys.empty_keyspace).2 a_year_later) as [Hq|(j & Hj & Hd)].
  - reflexivity.
  - exact BatchImageQueue.default_separate.
  - vm_compute. congruence.
  - vm_compute. congruence.
  - reflexivity.
  - split; [exact Hkey|]. split; [intros [v Hv]; vm_compute in Hv; done|reflexivity].
  - exact (moves_step demo_numeric UsageBilling.no_hash (fun _ => true) demo_registered 0 0 0 1 2
             BatchImageQueue.default_queue default_worker [Enqueues "imgbatch_1"; Advances demo_answers]
             (mortal_world, RedisKeys.empty_keyspace, [])).
  - exists 0, "". left. vm_compute. reflexivity.
  - apply moves_step.
  - exact Hq.
  - exfalso. vm_compute in Hj. injection Hj as <-. vm_compute in Hd. discriminate Hd.
Defined.
End BatchImageQueueSystem.
