(* ===== verification/Subscriptions.v ===== *)
(** * Subscriptions: terms, usage windows and their table

    A user's subscription to a group ([service/user_subscription.go]) counts
    the user's costs in three windows.  The daily window is a calendar day of
    the configured zone, the weekly and monthly ones are whole periods from an
    anchor and open no new period at or after the term's end.  The table is
    that of [repository/user_subscription_repo.go]: each method is one statement
    and one atomic step; the amounts are NUMERIC(20,10), the struct's [float64]
    fields the scanned columns.

    All times carry the configured location ([pkg/timezone]), which is how the
    clock and the database answer them; [offset] is its offset from UTC, read
    off the time zone database.  [column] is what a timestamp column stores of
    a time (microseconds). *)

From Stdlib Require Import QArith SpecFloat.
From S2P Require Import Prelude GoStrings GoFloat AppErrors.

Module Subscriptions.
Export GoFloat AppErrors.
#[local] Open Scope Z_scope.

(** ** Errors and constants *)

Definition ErrSubscriptionNotFound : error := New 404 "SUBSCRIPTION_NOT_FOUND" "subscription not found".
Definition ErrSubscriptionExpired : error := New 403 "SUBSCRIPTION_EXPIRED" "subscription has expired".
Definition ErrSubscriptionSuspended : error := New 403 "SUBSCRIPTION_SUSPENDED" "subscription is suspended".
Definition ErrSubscriptionAlreadyExists : error :=
  New 409 "SUBSCRIPTION_ALREADY_EXISTS" "subscription already exists for this user and group".
Definition ErrSubscriptionAssignConflict : error :=
  New 409 "SUBSCRIPTION_ASSIGN_CONFLICT" "subscription exists but request conflicts with existing assignment semantics".
Definition ErrSubscriptionNotRevoked : error := New 409 "SUBSCRIPTION_NOT_REVOKED" "subscription is not revoked".
Definition ErrSubscriptionRestoreConflict : error :=
  New 409 "SUBSCRIPTION_RESTORE_CONFLICT" "subscription already exists for this user and group".
Definition ErrGroupNotSubscriptionType : error := New 400 "GROUP_NOT_SUBSCRIPTION_TYPE" "group is not a subscription type".
Definition ErrInvalidInput : error :=
  New 400 "INVALID_INPUT" "at least one of resetDaily, resetWeekly, or resetMonthly must be true".
Definition ErrDailyLimitExceeded : error := New 429 "DAILY_LIMIT_EXCEEDED" "daily usage limit exceeded".
Definition ErrWeeklyLimitExceeded : error := New 429 "WEEKLY_LIMIT_EXCEEDED" "weekly usage limit exceeded".
Definition ErrMonthlyLimitExceeded : error := New 429 "MONTHLY_LIMIT_EXCEEDED" "monthly usage limit exceeded".
Definition ErrAdjustWouldExpire : error :=
  New 400 "ADJUST_WOULD_EXPIRE" "adjustment would result in expired subscription (remaining days must be > 0)".

Definition SubscriptionStatusActive : string := "active".
Definition SubscriptionStatusExpired : string := "expired".
Definition SubscriptionStatusSuspended : string := "suspended".
Definition SubscriptionStatusRevoked : string := "revoked".

Definition subscriptionDayDuration : Duration := 24 * Hour.

(** 2099-12-31 23:59:59 UTC. *)
Definition MaxExpiresAt : Time := 66238041599 * Second.
Definition MaxValidityDays : Z := 36500.

(** ** Data *)

Record UserSubscription := Subscription {
  ID : Z;
  UserID : Z;
  GroupID : Z;
  StartsAt : Time;
  ExpiresAt : Time;
  Status : string;
  DailyWindowStart : option Time;
  WeeklyWindowStart : option Time;
  MonthlyWindowStart : option Time;
  DailyUsageUSD : Z;             (* units of 10^-10 *)
  WeeklyUsageUSD : Z;
  MonthlyUsageUSD : Z;
  AssignedBy : option Z;
  AssignedAt : Time;
  Notes : string;
  DeletedAt : option Time
}.
#[export] Instance subscription_struct : Struct UserSubscription := fun s =>
  Subscription (ID s) (UserID s) (GroupID s) (StartsAt s) (ExpiresAt s) (Status s) (DailyWindowStart s) (WeeklyWindowStart s)
    (MonthlyWindowStart s) (DailyUsageUSD s) (WeeklyUsageUSD s) (MonthlyUsageUSD s) (AssignedBy s) (AssignedAt s) (Notes s)
    (DeletedAt s).

Definition SubscriptionTypeSubscription : string := "subscription".

Record Group := MkGroup {
  SubscriptionType : string;
  DailyLimitUSD : option float64;
  WeeklyLimitUSD : option float64;
  MonthlyLimitUSD : option float64;
  group_deleted : bool
}.

Definition IsSubscriptionType (g : Group) : bool := SubscriptionType g =s SubscriptionTypeSubscription.

Definition has_limit (limit : option float64) : bool :=
  match limit with Some l => (f64_zero <? l)%f64 | None => false end.
Definition HasDailyLimit (g : Group) : bool := has_limit (DailyLimitUSD g).
Definition HasWeeklyLimit (g : Group) : bool := has_limit (WeeklyLimitUSD g).
Definition HasMonthlyLimit (g : Group) : bool := has_limit (MonthlyLimitUSD g).

(** An amount of the struct. *)
Definition usd (units : Z) : float64 := numeric_scan 10 units.

Definition check_limit (limit : option float64) (usage : Z) (additionalCost : float64) : bool :=
  if negb (has_limit limit) then true
  else match limit with Some l => (usd usage + additionalCost <=? l)%f64 | None => true end.
Definition CheckDailyLimit (s : UserSubscription) (g : Group) (cost : float64) : bool := check_limit (DailyLimitUSD g) (DailyUsageUSD s) cost.
Definition CheckWeeklyLimit (s : UserSubscription) (g : Group) (cost : float64) : bool := check_limit (WeeklyLimitUSD g) (WeeklyUsageUSD s) cost.
Definition CheckMonthlyLimit (s : UserSubscription) (g : Group) (cost : float64) : bool := check_limit (MonthlyLimitUSD g) (MonthlyUsageUSD s) cost.

Definition CheckAllLimits (s : UserSubscription) (g : Group) (cost : float64) : bool * bool * bool :=
  (CheckDailyLimit s g cost, CheckWeeklyLimit s g cost, CheckMonthlyLimit s g cost).

(** ** Calendar *)

Section calendar.
Context (offset : Time -> Duration).

Definition day : Duration := 86400 * Second.

(** What a clock on the wall shows, and [time.Date], its inverse: the offset is
    looked up as if the wall time were UTC, and looked up again at the result. *)
Definition wall (t : Time) : Time := t + offset t.
Definition Date (w : Time) : Time :=
  let o := offset w in if o =? 0 then w else w - offset (w - o).

(** [timezone.StartOfDay]; [startOfDay] of the service. *)
Definition StartOfDay (t : Time) : Time := Date (wall t / day * day).
Definition startOfDay (t : Time) : Time := StartOfDay t.

(** [t.AddDate(0, 0, days)]. *)
Definition AddDays (t : Time) (days : Z) : Time := Date (wall t + days * day).

(** *** A zone without transitions *)
Lemma Date_wall_fixed o t : (forall u, offset u = o) -> Date (wall t) = t.
Proof. intros Ho. unfold Date, wall. rewrite !Ho. destruct (Z.eqb_spec o 0); lia. Qed.

Lemma StartOfDay_fixed o t :
  (forall u, offset u = o) -> StartOfDay t <= t < StartOfDay t + day /\ (StartOfDay t + o) mod day = 0.
Proof.
  intros Ho. unfold StartOfDay, Date, wall. rewrite !Ho.
  assert (Hd : 0 < day) by reflexivity. pose proof (Z.div_mod (t + o) day ltac:(lia)). pose proof (Z.mod_pos_bound (t + o) day Hd).
  assert (Hs : (if o =? 0 then (t + o) / day * day else (t + o) / day * day - o) = (t + o) / day * day - o) by (destruct (Z.eqb_spec o 0); lia).
  rewrite Hs. split; [nia|]. replace ((t + o) / day * day - o + o) with ((t + o) / day * day) by lia. apply Z_mod_mult.
Qed.

(** ** Windows *)

Definition daysRemainingAt (s : UserSubscription) (now : Time) : Z :=
  let remaining := time_Sub (ExpiresAt s) now in
  if remaining <=? 0 then 0
  else
    let days := Z.quot remaining subscriptionDayDuration in
    if negb (Z.rem remaining subscriptionDayDuration =? 0) then days + 1 else days.

Definition is_set {A} (o : option A) : bool := match o with Some _ => true | None => false end.

Definition IsWindowActivated (s : UserSubscription) : bool :=
  is_set (DailyWindowStart s) || is_set (WeeklyWindowStart s) || is_set (MonthlyWindowStart s).

Definition HasOneTimeDailyQuota (s : UserSubscription) : bool :=
  if IsZero (StartsAt s) || IsZero (ExpiresAt s) then false
  else negb (After (ExpiresAt s) (AddDays (StartsAt s) 1)).

Definition week : Duration := 7 * 24 * Hour.
Definition month : Duration := 30 * 24 * Hour.

Definition NeedsWeeklyResetAt (s : UserSubscription) (now : Time) : bool :=
  match WeeklyWindowStart s with None => false | Some w => negb (Before now (time_Add w week)) end.
Definition NeedsMonthlyResetAt (s : UserSubscription) (now : Time) : bool :=
  match MonthlyWindowStart s with None => false | Some w => negb (Before now (time_Add w month)) end.

(** The start of the current window when the recorded one is over. *)
Definition automaticDailyWindowStartAt (s : UserSubscription) (now : Time) : option Time :=
  match DailyWindowStart s with
  | None => None
  | Some start =>
      if HasOneTimeDailyQuota s then None
      else
        let today := StartOfDay now in
        if negb (After today (StartOfDay start)) then None else Some today
  end.

Definition windowResetAnchor (s : UserSubscription) (previous : Time) : Time :=
  let legacyAnchor := startOfDay (StartsAt s) in
  if Before legacyAnchor (StartsAt s) && time_Equal previous legacyAnchor then StartsAt s else previous.

Definition automaticWindowStartAt (s : UserSubscription) (previous : option Time) (period : Duration) (now : Time) : option Time :=
  match previous with
  | None => None
  | Some previous =>
      let anchor := windowResetAnchor s previous in
      let next := time_Add anchor period in
      if Before now next || negb (Before next (ExpiresAt s)) then None
      else
        let periods := Z.quot (time_Sub now anchor) period in
        let lastPeriodBeforeExpiry := Z.quot (wrap64 (time_Sub (ExpiresAt s) anchor - 1)) period in
        let periods := if lastPeriodBeforeExpiry <? periods then lastPeriodBeforeExpiry else periods in
        Some (time_Add anchor (wrap64 (periods * period)))
  end.

Definition automaticWeeklyWindowStartAt (s : UserSubscription) (now : Time) : option Time :=
  automaticWindowStartAt s (WeeklyWindowStart s) week now.
Definition automaticMonthlyWindowStartAt (s : UserSubscription) (now : Time) : option Time :=
  automaticWindowStartAt s (MonthlyWindowStart s) month now.

Definition canAutomaticallyResetDailyAt (s : UserSubscription) (now : Time) : bool := is_set (automaticDailyWindowStartAt s now).
Definition canAutomaticallyResetWeeklyAt (s : UserSubscription) (now : Time) : bool := is_set (automaticWeeklyWindowStartAt s now).
Definition canAutomaticallyResetMonthlyAt (s : UserSubscription) (now : Time) : bool := is_set (automaticMonthlyWindowStartAt s now).
Definition NeedsDailyResetAt (s : UserSubscription) (now : Time) : bool := canAutomaticallyResetDailyAt s now.

Definition DailyResetTime (s : UserSubscription) : option Time :=
  match DailyWindowStart s with
  | None => None
  | Some start => Some (if HasOneTimeDailyQuota s then ExpiresAt s else AddDays (StartOfDay start) 1)
  end.
Definition WeeklyResetTime (s : UserSubscription) : option Time :=
  option_map (fun w => time_Add (windowResetAnchor s w) week) (WeeklyWindowStart s).
Definition MonthlyResetTime (s : UserSubscription) : option Time :=
  option_map (fun w => time_Add (windowResetAnchor s w) month) (MonthlyWindowStart s).

(** Expired windows show as empty ones. *)
Definition normalizeExpiredWindowsAt (subs : list UserSubscription) (now : Time) : list UserSubscription :=
  map (fun s =>
    let s := if canAutomaticallyResetDailyAt s now then s <| DailyWindowStart := None |> <| DailyUsageUSD := 0 |> else s in
    let s := if canAutomaticallyResetWeeklyAt s now then s <| WeeklyWindowStart := None |> <| WeeklyUsageUSD := 0 |> else s in
    if canAutomaticallyResetMonthlyAt s now then s <| MonthlyWindowStart := None |> <| MonthlyUsageUSD := 0 |> else s) subs.
End calendar.

(** *** New periods *)
Section grid.
Context (offset : Time -> Duration) (s : UserSubscription) (previous : Time) (period : Duration) (now : Time).
Let anchor := windowResetAnchor offset s previous.
Context (period_pos : 0 < period) (no_saturation : int64_range (now - anchor) /\ int64_range (ExpiresAt s - anchor)).

(** The start of a new period is on the grid of the anchor, begun by [now], and
    the last such before the term ends; no period is open before the first full
    one has passed, nor when the term ends with it. *)
Theorem automatic_window_grid :
  match automaticWindowStartAt offset s (Some previous) period now with
  | Some start => exists k, 1 <= k /\ start = anchor + k * period /\ start <= now /\ start < ExpiresAt s /\
      (now < start + period \/ ExpiresAt s <= start + period)
  | None => now < anchor + period \/ ExpiresAt s <= anchor + period
  end.
Proof.
  destruct no_saturation as [Hn He]. cbn [automaticWindowStartAt]. fold anchor. unfold Before, time_Add.
  destruct (Z.ltb_spec now (anchor + period)) as [|Hp]; [by left|].
  destruct (Z.ltb_spec (anchor + period) (ExpiresAt s)) as [Hx|]; [cbn [negb orb]|by right].
  rewrite !time_Sub_exact by done. unfold int64_range, int64_min, int64_max in *. rewrite (wrap64_id (_ - 1)) by time_lia.
  rewrite !Z.quot_div_nonneg by lia.
  set (p := (now - anchor) / period). set (l := (ExpiresAt s - anchor - 1) / period).
  assert (Hpp : period * p <= now - anchor < period * (p + 1)).
  { pose proof (Z.div_mod (now - anchor) period). pose proof (Z.mod_pos_bound (now - anchor) period). subst p. nia. }
  assert (Hll : period * l <= ExpiresAt s - anchor - 1 < period * (l + 1)).
  { pose proof (Z.div_mod (ExpiresAt s - anchor - 1) period). pose proof (Z.mod_pos_bound (ExpiresAt s - anchor - 1) period).
    subst l. nia. }
  assert (1 <= p) by nia. assert (1 <= l) by nia.
  exists (Z.min p l). assert (Hmin : (if l <? p then l else p) = Z.min p l) by (destruct (Z.ltb_spec l p); lia). rewrite Hmin.
  rewrite wrap64_id by (unfold int64_range, int64_min, int64_max; nia). split; [lia|]. split; [done|].
  split; [nia|]. split; [nia|]. destruct (Z.min_spec p l) as [[? ->]|[? ->]]; [left|right]; nia.
Qed.
End grid.

(** A month of 30 days renewed twice in a term of 70, asked on its last day. *)
Lemma automatic_window_grid_witness :
  let s := Subscription 1 1 1 (5 * Hour) (70 * day) SubscriptionStatusActive None None (Some 0) 0 0 0 None 0 "" None in
  int64_range (69 * day - 5 * Hour) /\
  automaticWindowStartAt (fun _ => 0) s (Some 0) month (69 * day) = Some (5 * Hour + 2 * month) /\
  exists k, 1 <= k /\ 5 * Hour + 2 * month = 5 * Hour + k * month.
Proof.
  intros s. split; [vm_compute; split; congruence|]. split; [vm_compute; reflexivity|].
  pose proof (automatic_window_grid (fun _ => 0) s 0 month (69 * day) ltac:(reflexivity) ltac:(vm_compute; repeat split; congruence)) as H.
  replace (automaticWindowStartAt (fun _ => 0) s (Some 0) month (69 * day)) with (Some (5 * Hour + 2 * month)) in H
    by (vm_compute; reflexivity).
  destruct H as (k & Hk & E & _). exists k. split; [exact Hk|].
  replace (windowResetAnchor (fun _ => 0) s 0) with (5 * Hour) in E by (vm_compute; reflexivity). exact E.
Defined.

Lemma windowResetAnchor_later offset s p : p <= windowResetAnchor offset s p.
Proof.
  unfold windowResetAnchor, Before, time_Equal. destruct (Z.ltb_spec (startOfDay offset (StartsAt s)) (StartsAt s)); cbn; [|lia].
  destruct (Z.eqb_spec p (startOfDay offset (StartsAt s))); lia.
Qed.

(** Before a window can start anew its period has passed. *)
Lemma automatic_window_after offset s p period now start :
  automaticWindowStartAt offset s (Some p) period now = Some start -> p + period <= now.
Proof.
  pose proof (windowResetAnchor_later offset s p). unfold automaticWindowStartAt, Before, time_Add.
  destruct (Z.ltb_spec now (windowResetAnchor offset s p + period)); [done|]. intros _. lia.
Qed.

(** ** The table *)

Record sub_db := SubDB { subs : gmap Z UserSubscription; groups : gmap Z Group; next_sub : Z }.
#[export] Instance sub_db_struct : Struct sub_db := fun d => SubDB (subs d) (groups d) (next_sub d).

Definition live (s : UserSubscription) : bool := negb (is_set (DeletedAt s)).

(** The live row of a user and group: the partial unique index allows one. *)
Definition same_key (u g : Z) (s : UserSubscription) : bool := live s && (UserID s =? u) && (GroupID s =? g).
Definition by_key (u g : Z) (d : sub_db) : option UserSubscription :=
  map_fold (fun _ s acc => if same_key u g s then Some s else acc) None (subs d).

Definition not_found : error := WithCause ErrSubscriptionNotFound (DriverError "ent: user_subscription not found").
Definition duplicate_key : error := DriverError "duplicate key value violates unique constraint".

Inductive window := Daily | Weekly | Monthly.
#[export] Instance window_eq_dec : EqDecision window.
Proof. solve_decision. Defined.

Definition start_of (w : window) (s : UserSubscription) : option Time :=
  match w with Daily => DailyWindowStart s | Weekly => WeeklyWindowStart s | Monthly => MonthlyWindowStart s end.
Definition usage_of (w : window) (s : UserSubscription) : Z :=
  match w with Daily => DailyUsageUSD s | Weekly => WeeklyUsageUSD s | Monthly => MonthlyUsageUSD s end.

(** No usage, and a new start. *)
Definition restart (w : window) (start : Time) (s : UserSubscription) : UserSubscription :=
  match w with
  | Daily => s <| DailyUsageUSD := 0 |> <| DailyWindowStart := Some start |>
  | Weekly => s <| WeeklyUsageUSD := 0 |> <| WeeklyWindowStart := Some start |>
  | Monthly => s <| MonthlyUsageUSD := 0 |> <| MonthlyWindowStart := Some start |>
  end.

Section table.
Context (numeric : float64 -> Q) (column : Time -> Time).

Definition find_by_id (id : Z) (d : sub_db) : outcome UserSubscription error :=
  match subs d !! id with Some s => if live s then Ok s else Err not_found | None => Err not_found end.
Definition find_by_id_include_deleted (id : Z) (d : sub_db) : outcome UserSubscription error :=
  match subs d !! id with Some s => Ok s | None => Err not_found end.
Definition find_by_user_and_group (u g : Z) (d : sub_db) : outcome UserSubscription error :=
  match by_key u g d with Some s => Ok s | None => Err not_found end.

(** [UPDATE .. WHERE id = ..] through ent's [UpdateOneID]. *)
Definition update_one (id : Z) (f : UserSubscription -> UserSubscription) (d : sub_db) : outcome unit error * sub_db :=
  match subs d !! id with
  | None => (Err not_found, d)
  | Some s => (Ok tt, d <| subs := <[id := f s]> (subs d) |>)
  end.

(** [UPDATE .. WHERE id = .. AND guard]: the affected rows. *)
Definition update_where (id : Z) (guard : UserSubscription -> bool) (f : UserSubscription -> UserSubscription) (d : sub_db)
    : Z * sub_db :=
  match subs d !! id with
  | Some s => if guard s then (1, d <| subs := <[id := f s]> (subs d) |>) else (0, d)
  | None => (0, d)
  end.

Definition repo_Create (s : UserSubscription) (now : Time) (d : sub_db) : outcome UserSubscription error * sub_db :=
  match by_key (UserID s) (GroupID s) d with
  | Some _ => (Err (WithCause ErrSubscriptionAlreadyExists duplicate_key), d)
  | None =>
      let or_now t := column (if IsZero t then now else t) in
      let row := s <| ID := next_sub d |> <| StartsAt := or_now (StartsAt s) |> <| ExpiresAt := column (ExpiresAt s) |>
        <| Status := if Status s =s "" then SubscriptionStatusActive else Status s |>
        <| DailyWindowStart := option_map column (DailyWindowStart s) |>
        <| WeeklyWindowStart := option_map column (WeeklyWindowStart s) |>
        <| MonthlyWindowStart := option_map column (MonthlyWindowStart s) |>
        <| AssignedAt := or_now (AssignedAt s) |> <| DeletedAt := None |> in
      (Ok row, d <| subs := <[next_sub d := row]> (subs d) |> <| next_sub := next_sub d + 1 |>)
  end.

(** Another live row has the key. *)
Definition taken (u g id : Z) (d : sub_db) : bool :=
  map_fold (fun id' s acc => acc || (same_key u g s && negb (id' =? id))) false (subs d).

(** The windows of [s] that are set replace those of the row. *)
Definition repo_Update (s : UserSubscription) (d : sub_db) : outcome unit error * sub_db :=
  let set (new old : option Time) := match new with Some t => Some (column t) | None => old end in
  match subs d !! ID s with
  | None => (Err not_found, d)
  | Some row =>
      if live row && taken (UserID s) (GroupID s) (ID s) d then (Err (WithCause ErrSubscriptionAlreadyExists duplicate_key), d)
      else
        update_one (ID s) (fun row =>
          row <| UserID := UserID s |> <| GroupID := GroupID s |> <| StartsAt := column (StartsAt s) |>
          <| ExpiresAt := column (ExpiresAt s) |> <| Status := Status s |>
          <| DailyWindowStart := set (DailyWindowStart s) (DailyWindowStart row) |>
          <| WeeklyWindowStart := set (WeeklyWindowStart s) (WeeklyWindowStart row) |>
          <| MonthlyWindowStart := set (MonthlyWindowStart s) (MonthlyWindowStart row) |>
          <| DailyUsageUSD := DailyUsageUSD s |> <| WeeklyUsageUSD := WeeklyUsageUSD s |>
          <| MonthlyUsageUSD := MonthlyUsageUSD s |>
          <| AssignedBy := match AssignedBy s with Some a => Some a | None => AssignedBy row end |>
          <| AssignedAt := column (AssignedAt s) |> <| Notes := Notes s |>) d
  end.

Definition repo_ExtendExpiry (id : Z) (newExpiresAt : Time) (d : sub_db) := update_one id (fun s => s <| ExpiresAt := column newExpiresAt |>) d.
Definition repo_UpdateStatus (id : Z) (status : string) (d : sub_db) := update_one id (fun s => s <| Status := status |>) d.
Definition repo_UpdateNotes (id : Z) (notes : string) (d : sub_db) := update_one id (fun s => s <| Notes := notes |>) d.

(** The statement of [ActivateWindows]. *)
Definition activate_windows (id : Z) (dailyStart periodicStart : Time) (d : sub_db) : Z * sub_db :=
  update_where id (fun s => negb (IsWindowActivated s))
    (fun s => s <| DailyWindowStart := Some (column dailyStart) |> <| WeeklyWindowStart := Some (column periodicStart) |>
                <| MonthlyWindowStart := Some (column periodicStart) |>) d.

Definition repo_ResetUsageWindows (id : Z) (resetDaily resetWeekly resetMonthly : bool) (dailyStart periodicStart : Time) (d : sub_db) :=
  update_one id (fun s =>
    let s := if resetDaily then restart Daily (column dailyStart) s else s in
    let s := if resetWeekly then restart Weekly (column periodicStart) s else s in
    if resetMonthly then restart Monthly (column periodicStart) s else s) d.

(** The statements of [ResetDailyUsage], [ResetWeeklyUsage] and
    [ResetMonthlyUsage]. *)
Definition reset_usage (w : window) (id : Z) (expectedWindowStart : option Time) (newWindowStart : Time) (d : sub_db) : Z * sub_db :=
  update_where id (fun s => bool_decide (start_of w s = option_map column expectedWindowStart)) (restart w (column newWindowStart)) d.

(** The statement of [IncrementUsage]: the affected rows. *)
Definition increment_usage (id : Z) (costUSD : float64) (d : sub_db) : outcome Z error * sub_db :=
  match subs d !! id with
  | None => (Ok 0, d)
  | Some s =>
      match groups d !! GroupID s with
      | Some g =>
          if negb (live s) || group_deleted g then (Ok 0, d)
          else
            let plus u := numeric_store 10 (numeric_value 10 u + numeric costUSD)%Q in
            match plus (DailyUsageUSD s), plus (WeeklyUsageUSD s), plus (MonthlyUsageUSD s) with
            | Some du, Some wu, Some mu =>
                (Ok 1, d <| subs := <[id := s <| DailyUsageUSD := du |> <| WeeklyUsageUSD := wu |> <| MonthlyUsageUSD := mu |>]> (subs d) |>)
            | _, _, _ => (Err (DriverError "numeric field overflow"), d)
            end
      | None => (Ok 0, d)
      end
  end.

(** The soft delete of a live row. *)
Definition repo_Delete (id : Z) (now : Time) (d : sub_db) : outcome unit error * sub_db :=
  (Ok tt, (update_where id live (fun s => s <| DeletedAt := Some (column now) |>) d).2).

(** The statement of [Restore]. *)
Definition restore_row (id : Z) (restoredStatus : string) (d : sub_db) : outcome unit error * sub_db :=
  match subs d !! id with
  | None => (Err not_found, d)
  | Some s =>
      if taken (UserID s) (GroupID s) id d then (Err (WithCause ErrSubscriptionRestoreConflict duplicate_key), d)
      else update_one id (fun s => s <| Status := restoredStatus |> <| DeletedAt := None |>) d
  end.

Definition repo_BatchUpdateExpiredStatus (now : Time) (d : sub_db) : Z * sub_db :=
  let due s := (Status s =s SubscriptionStatusActive) && (ExpiresAt s <=? now) in
  (count_if due (subs d),
   d <| subs := fmap (fun s => if due s then s <| Status := SubscriptionStatusExpired |> else s) (subs d) |>).

End table.
End Subscriptions.
