(* ===== verification/SubscriptionService.v ===== *)
(** * Subscription service

    The handlers of [service/subscription_service.go] as programs of calls:
    the check of a request and the maintenance of its windows, usage,
    assignment, renewal, extension, revocation.  A transaction that locks its
    row first is one call; any other call is one statement.  Statements, and
    the caches behind [Invalidate], may fail.  The level-one cache answers a
    request with a snapshot of a subscription, which may be stale: it is an
    argument here. *)

From Stdlib Require Import QArith SpecFloat.
From S2P Require Import Prelude Programs GoStrings GoFloat AppErrors Subscriptions.

Module SubscriptionService.
Export Programs Subscriptions.
#[local] Open Scope Z_scope.

(** ** Transactions *)

Section transactions.
Context (offset : Time -> Duration) (column : Time -> Time).

(** Statements of a transaction, until one fails. *)
Definition then_do {A B} (r : outcome A error * sub_db) (k : sub_db -> outcome B error * sub_db) : outcome B error * sub_db :=
  match r with (Ok _, d) => k d | (Err e, d) => (Err e, d) end.

(** A failed transaction is rolled back. *)
Definition transaction {A} (body : sub_db -> outcome A error * sub_db) (d : sub_db) : outcome A error * sub_db :=
  match body d with (Ok r, d') => (Ok r, d') | (Err e, _) => (Err e, d) end.

Definition wrapping {A} (prefix : string) (r : outcome A error * sub_db) : outcome A error * sub_db :=
  match r with (Err e, d) => (Err (Wrapped prefix e), d) | r => r end.

Definition appendSubscriptionNotes (existingNotes newNotes : string) : string :=
  if newNotes =s "" then existingNotes
  else if existingNotes =s "" then newNotes
  else existingNotes +:+ of_bytes [chr 10] +:+ newNotes.

Definition renewedSubscriptionTerm (s : UserSubscription) (notes : string) (startsAt expiresAt : Time) : UserSubscription :=
  s <| StartsAt := startsAt |> <| ExpiresAt := expiresAt |> <| Status := SubscriptionStatusActive |>
    <| DailyWindowStart := Some (StartOfDay offset startsAt) |> <| WeeklyWindowStart := Some startsAt |>
    <| MonthlyWindowStart := Some startsAt |> <| DailyUsageUSD := 0 |> <| WeeklyUsageUSD := 0 |> <| MonthlyUsageUSD := 0 |>
    <| Notes := appendSubscriptionNotes (Notes s) notes |>.

Definition capped (t : Time) : Time := if After t MaxExpiresAt then MaxExpiresAt else t.

Definition updateExistingSubscriptionTerm (id validityDays : Z) (notes : string) (assignmentSemantics : bool) (now : Time)
    : sub_db -> outcome unit error * sub_db :=
  transaction (fun d =>
    match find_by_id id d with
    | Err e => (Err (Wrapped "lock subscription for renewal" e), d)
    | Ok s =>
        if assignmentSemantics && (Status s =s SubscriptionStatusSuspended) then (Ok tt, d)
        else
          let over := negb (After (ExpiresAt s) now) in
          let isExpired :=
            if assignmentSemantics then
              (Status s =s SubscriptionStatusExpired) || (negb (Status s =s SubscriptionStatusSuspended) && over)
            else over in
          let newExpiresAt := capped (if isExpired then AddDays offset now validityDays else AddDays offset (ExpiresAt s) validityDays) in
          let notes := if assignmentSemantics && (TrimSpace (Notes s) =s TrimSpace notes) then "" else notes in
          if isExpired then
            wrapping "renew expired subscription" (repo_Update column (renewedSubscriptionTerm s notes now newExpiresAt) d)
          else
            then_do (wrapping "extend subscription" (repo_ExtendExpiry column (ID s) newExpiresAt d)) (fun d =>
            then_do (if negb (Status s =s SubscriptionStatusActive)
                     then wrapping "update subscription status" (repo_UpdateStatus (ID s) SubscriptionStatusActive d) else (Ok tt, d)) (fun d =>
            if negb (notes =s "")
            then wrapping "update subscription notes" (repo_UpdateNotes (ID s) (appendSubscriptionNotes (Notes s) notes) d) else (Ok tt, d)))
    end).

Definition cannot_shorten : error := New 400 "CANNOT_SHORTEN_EXPIRED" "cannot shorten an expired subscription".

(** The transaction of [ExtendSubscription]. *)
Definition extend_term (id days : Z) (now : Time) : sub_db -> outcome unit error * sub_db :=
  transaction (fun d =>
    match find_by_id id d with
    | Err _ => (Err ErrSubscriptionNotFound, d)
    | Ok s =>
        let days := if MaxValidityDays <? days then MaxValidityDays else days in
        let days := if days <? - MaxValidityDays then - MaxValidityDays else days in
        let isExpired := negb (After (ExpiresAt s) now) in
        if isExpired && (days <? 0) then (Err cannot_shorten, d)
        else
          let newExpiresAt := capped (if isExpired then AddDays offset now days else AddDays offset (ExpiresAt s) days) in
          if negb (After newExpiresAt now) then (Err ErrAdjustWouldExpire, d)
          else
            then_do (repo_ExtendExpiry column id newExpiresAt d) (fun d =>
            if Status s =s SubscriptionStatusExpired then repo_UpdateStatus id SubscriptionStatusActive d else (Ok tt, d))
    end).
End transactions.

(** ** Calls *)

Inductive scall : Type -> Type :=
| SNow : scall Time
| SGroup (groupID : Z) : scall (outcome Group error)
| SFind (id : Z) : scall (outcome UserSubscription error)
| SFindAny (id : Z) : scall (outcome UserSubscription error)
| SFindByKey (userID groupID : Z) : scall (outcome UserSubscription error)
| SExistsByKey (userID groupID : Z) : scall (outcome bool error)
| SExists (id : Z) : scall (outcome bool error)
| SCreate (s : UserSubscription) : scall (outcome UserSubscription error)
| SActivate (id : Z) (dailyStart periodicStart : Time) : scall (outcome Z error)
| SReset (w : window) (id : Z) (expected : option Time) (start : Time) : scall (outcome Z error)
| SResetWindows (id : Z) (resetDaily resetWeekly resetMonthly : bool) (dailyStart periodicStart : Time) : scall (outcome unit error)
| SIncrement (id : Z) (costUSD : float64) : scall (outcome Z error)
| SDelete (id : Z) : scall (outcome unit error)
| SRestore (id : Z) (status : string) : scall (outcome unit error)
| SUpdateStatus (id : Z) (status : string) : scall (outcome unit error)
| STerm (id validityDays : Z) (notes : string) (assignmentSemantics : bool) : scall (outcome unit error)
| SExtend (id days : Z) : scall (outcome unit error)
| SExpire : scall (outcome Z error)
| SInvalidate (userID groupID : Z) : scall (outcome unit error).

Notation sprog := (free scall).

Section service.
Context (offset : Time -> Duration).

(** ** Windows *)

(** What a conditional statement reports, [translateConditionalWindowReset]. *)
Definition translateConditionalWindowReset (id : Z) (affected : outcome Z error) : sprog (outcome unit error) :=
  match affected with
  | Err e => Ret (Err e)
  | Ok n =>
      if 0 <? n then Ret (Ok tt)
      else
        let! exists_ := SExists id in
        Ret (match exists_ with Err e => Err e | Ok true => Ok tt | Ok false => Err ErrSubscriptionNotFound end)
  end.

Definition ActivateWindows (id : Z) (dailyStart periodicStart : Time) : sprog (outcome unit error) :=
  let! n := SActivate id dailyStart periodicStart in translateConditionalWindowReset id n.

(** [ResetDailyUsage], [ResetWeeklyUsage], [ResetMonthlyUsage]. *)
Definition ResetUsage (w : window) (id : Z) (expected : option Time) (start : Time) : sprog (outcome unit error) :=
  let! n := SReset w id expected start in translateConditionalWindowReset id n.

Definition checkAndActivateWindowAt (s : UserSubscription) (now : Time) : sprog (outcome unit error) :=
  if IsWindowActivated s then Ret (Ok tt) else ActivateWindows (ID s) (StartOfDay offset now) now.

Definition CheckAndActivateWindow (s : UserSubscription) : sprog (outcome unit error) :=
  let! now := SNow in checkAndActivateWindowAt s now.

Definition automatic_start (w : window) (s : UserSubscription) (now : Time) : option Time :=
  match w with
  | Daily => automaticDailyWindowStartAt offset s now
  | Weekly => automaticWeeklyWindowStartAt offset s now
  | Monthly => automaticMonthlyWindowStartAt offset s now
  end.

(** The windows of [ws] in turn; with the subscription as the code leaves it,
    and whether a window was reset. *)
Fixpoint reset_windows (ws : list window) (now : Time) (s : UserSubscription) (changed : bool)
    : sprog (outcome (UserSubscription * bool) error) :=
  match ws with
  | [] => Ret (Ok (s, changed))
  | w :: ws =>
      match automatic_start w s now with
      | None => reset_windows ws now s changed
      | Some start =>
          run! r := ResetUsage w (ID s) (start_of w s) start in
          match r with
          | Err e => Ret (Err e)
          | Ok _ => reset_windows ws now (restart w start s) true
          end
      end
  end.

Definition CheckAndResetWindows (s : UserSubscription) : sprog (outcome unit error) :=
  let! now := SNow in
  run! r := reset_windows [Daily; Weekly; Monthly] now s false in
  match r with
  | Err e => Ret (Err e)
  | Ok (s, changed) =>
      if changed then let! _ := SInvalidate (UserID s) (GroupID s) in Ret (Ok tt) else Ret (Ok tt)
  end.

Definition EnsureWindowMaintenance (s : UserSubscription) : sprog (outcome UserSubscription error) :=
  run! activated := (if negb (IsWindowActivated s) then CheckAndActivateWindow s else Ret (Ok tt)) in
  match activated with
  | Err e => Ret (Err e)
  | Ok _ =>
      run! reset := CheckAndResetWindows s in
      match reset with
      | Err e => Ret (Err e)
      | Ok _ =>
          let! refreshed := SFind (ID s) in
          match refreshed with
          | Err e => Ret (Err e)
          | Ok r => let! _ := SInvalidate (UserID s) (GroupID s) in Ret (Ok r)
          end
      end
  end.

Definition doWindowMaintenance (s : UserSubscription) : sprog unit :=
  run! _ := (if negb (IsWindowActivated s) then CheckAndActivateWindow s else Ret (Ok tt)) in
  run! _ := CheckAndResetWindows s in
  let! _ := SInvalidate (UserID s) (GroupID s) in Ret tt.

(** ** Checks *)

Definition CheckUsageLimits (s : UserSubscription) (g : Group) (additionalCost : float64) : option error :=
  if negb (CheckDailyLimit s g additionalCost) then Some ErrDailyLimitExceeded
  else if negb (CheckWeeklyLimit s g additionalCost) then Some ErrWeeklyLimitExceeded
  else if negb (CheckMonthlyLimit s g additionalCost) then Some ErrMonthlyLimitExceeded
  else None.

(** The usage that counts at [now]. *)
Definition current_usage (s : UserSubscription) (now : Time) : UserSubscription :=
  let s := if canAutomaticallyResetDailyAt offset s now then s <| DailyUsageUSD := 0 |> else s in
  let s := if canAutomaticallyResetWeeklyAt offset s now then s <| WeeklyUsageUSD := 0 |> else s in
  if canAutomaticallyResetMonthlyAt offset s now then s <| MonthlyUsageUSD := 0 |> else s.

(** With the subscription as the code leaves it. *)
Definition ValidateAndCheckLimits (s : UserSubscription) (g : Group) (now : Time) : bool * option error * UserSubscription :=
  if Status s =s SubscriptionStatusExpired then (false, Some ErrSubscriptionExpired, s)
  else if Status s =s SubscriptionStatusSuspended then (false, Some ErrSubscriptionSuspended, s)
  else if negb (After (ExpiresAt s) now) then (false, Some ErrSubscriptionExpired, s)
  else
    let needsMaintenance := canAutomaticallyResetDailyAt offset s now || canAutomaticallyResetWeeklyAt offset s now ||
                            canAutomaticallyResetMonthlyAt offset s now || negb (IsWindowActivated s) in
    let s := current_usage s now in
    (needsMaintenance, CheckUsageLimits s g f64_zero, s).

Definition maintenance_failed : error := PlainError "SUBSCRIPTION_MAINTENANCE_FAILED".

(** The check of a request with a subscription ([middleware/api_key_auth.go]):
    the error it is refused with. *)
Definition check_subscription (s : UserSubscription) (g : Group) : sprog (option error) :=
  let! now := SNow in
  let '(needsMaintenance, validateErr, s) := ValidateAndCheckLimits s g now in
  if needsMaintenance then
    run! refreshed := EnsureWindowMaintenance s in
    match refreshed with
    | Err _ => Ret (Some maintenance_failed)
    | Ok s => let! now := SNow in let '(_, validateErr, _) := ValidateAndCheckLimits s g now in Ret validateErr
    end
  else Ret validateErr.

Definition ValidateSubscription (s : UserSubscription) : sprog (option error) :=
  if Status s =s SubscriptionStatusExpired then Ret (Some ErrSubscriptionExpired)
  else if Status s =s SubscriptionStatusSuspended then Ret (Some ErrSubscriptionSuspended)
  else
    let! now := SNow in
    if After now (ExpiresAt s) then let! _ := SUpdateStatus (ID s) SubscriptionStatusExpired in Ret (Some ErrSubscriptionExpired)
    else Ret None.

Definition RecordUsage (id : Z) (costUSD : float64) : sprog (outcome unit error) :=
  let! n := SIncrement id costUSD in
  Ret (match n with Err e => Err e | Ok n => if 0 <? n then Ok tt else Err ErrSubscriptionNotFound end).

Definition AdminResetQuota (id : Z) (resetDaily resetWeekly resetMonthly : bool) : sprog (outcome UserSubscription error) :=
  if negb resetDaily && negb resetWeekly && negb resetMonthly then Ret (Err ErrInvalidInput)
  else
    let! found := SFind id in
    match found with
    | Err e => Ret (Err e)
    | Ok s =>
        let! now := SNow in
        let! r := SResetWindows (ID s) resetDaily resetWeekly resetMonthly (StartOfDay offset now) now in
        match r with
        | Err e => Ret (Err e)
        | Ok _ => let! _ := SInvalidate (UserID s) (GroupID s) in let! s := SFind id in Ret s
        end
    end.

(** ** Assignment *)

Record AssignSubscriptionInput := AssignInput {
  in_UserID : Z;
  in_GroupID : Z;
  ValidityDays : Z;
  in_AssignedBy : Z;
  in_Notes : string
}.

Definition normalizeAssignValidityDays (days : Z) : Z :=
  let days := if days <=? 0 then 30 else days in
  if MaxValidityDays <? days then MaxValidityDays else days.

Definition createSubscription (input : AssignSubscriptionInput) : sprog (outcome UserSubscription error) :=
  let validityDays := normalizeAssignValidityDays (ValidityDays input) in
  let! now := SNow in
  let s := Subscription 0 (in_UserID input) (in_GroupID input) now (capped (AddDays offset now validityDays)) SubscriptionStatusActive
             None None None 0 0 0 (if 0 <? in_AssignedBy input then Some (in_AssignedBy input) else None) now (in_Notes input) None in
  let! created := SCreate s in
  match created with
  | Err e => Ret (Err e)
  | Ok s => let! found := SFind (ID s) in Ret found
  end.

Definition detectAssignSemanticConflict (existing : UserSubscription) (input : AssignSubscriptionInput) : option string :=
  let expected := capped (AddDays offset (StartsAt existing) (normalizeAssignValidityDays (ValidityDays input))) in
  if negb (IsZero (StartsAt existing)) && negb (time_Equal (ExpiresAt existing) expected) then Some "validity_days_mismatch"
  else if negb (TrimSpace (Notes existing) =s TrimSpace (in_Notes input)) then Some "notes_mismatch"
  else None.

(** Only for groups that are subscribed to. *)
Definition with_group {R} (groupID : Z) (k : sprog (outcome R error)) : sprog (outcome R error) :=
  let! group := SGroup groupID in
  match group with
  | Err e => Ret (Err (Wrapped "group not found" e))
  | Ok g => if negb (IsSubscriptionType g) then Ret (Err ErrGroupNotSubscriptionType) else k
  end.

(** With whether an existing subscription was answered. *)
Definition assignSubscriptionWithReuse (input : AssignSubscriptionInput) : sprog (outcome (UserSubscription * bool) error) :=
  let u := in_UserID input in
  let g := in_GroupID input in
  let answer (reused : bool) (r : outcome UserSubscription error) : outcome (UserSubscription * bool) error :=
    match r with Ok s => Ok (s, reused) | Err e => Err e end in
  with_group g
    (let! exists_ := SExistsByKey u g in
     match exists_ with
     | Err e => Ret (Err e)
     | Ok true =>
         let! found := SFindByKey u g in
         match found with
         | Err e => Ret (Err e)
         | Ok s =>
             let! now := SNow in
             if (Status s =s SubscriptionStatusExpired) ||
                (negb (Status s =s SubscriptionStatusSuspended) && negb (After (ExpiresAt s) now)) then
               let! r := STerm (ID s) (normalizeAssignValidityDays (ValidityDays input)) (in_Notes input) true in
               match r with
               | Err e => Ret (Err e)
               | Ok _ => let! _ := SInvalidate u g in let! renewed := SFind (ID s) in Ret (answer true renewed)
               end
             else
               match detectAssignSemanticConflict s input with
               | Some _ => Ret (Err ErrSubscriptionAssignConflict)
               | None => Ret (Ok (s, true))
               end
         end
     | Ok false =>
         run! created := createSubscription input in
         match created with
         | Err e => Ret (Err e)
         | Ok s => let! _ := SInvalidate u g in Ret (Ok (s, false))
         end
     end).

Definition AssignSubscription (input : AssignSubscriptionInput) : sprog (outcome UserSubscription error) :=
  run! r := assignSubscriptionWithReuse input in
  Ret (match r with Ok (s, _) => Ok s | Err e => Err e end).

(** With whether a subscription was extended.  The caches are invalidated by
    the payment that owns the outer transaction when it is [deferred]. *)
Definition assignOrExtendSubscription (input : AssignSubscriptionInput) (deferred : bool)
    : sprog (outcome (UserSubscription * bool) error) :=
  let u := in_UserID input in
  let g := in_GroupID input in
  let invalidated {R} (k : sprog R) : sprog R := if deferred then k else let! _ := SInvalidate u g in k in
  with_group g
    (let! existing := SFindByKey u g in
     match existing with
     | Ok s =>
         let! r := STerm (ID s) (normalizeAssignValidityDays (ValidityDays input)) (in_Notes input) false in
         match r with
         | Err e => Ret (Err e)
         | Ok _ =>
             invalidated (let! s := SFind (ID s) in Ret (match s with Ok s => Ok (s, true) | Err e => Err e end))
         end
     | Err _ =>
         run! created := createSubscription input in
         match created with
         | Err e => Ret (Err e)
         | Ok s => invalidated (Ret (Ok (s, false)))
         end
     end).

Definition AssignOrExtendSubscription (input : AssignSubscriptionInput) := assignOrExtendSubscription input false.

(** The user ids with what became of each: [failed], [reused] or [created]. *)
Fixpoint BulkAssignSubscription (userIDs : list Z) (input : AssignSubscriptionInput) : sprog (list (Z * string)) :=
  match userIDs with
  | [] => Ret []
  | u :: rest =>
      run! r := assignSubscriptionWithReuse (AssignInput u (in_GroupID input) (ValidityDays input) (in_AssignedBy input) (in_Notes input)) in
      run! statuses := BulkAssignSubscription rest input in
      Ret ((u, match r with Err _ => "failed" | Ok (_, true) => "reused" | Ok (_, false) => "created" end) :: statuses)
  end.

(** ** Revocation, restoration, extension *)

Definition RevokeSubscription (id : Z) : sprog (outcome unit error) :=
  let! found := SFind id in
  match found with
  | Err e => Ret (Err e)
  | Ok s =>
      let! deleted := SDelete id in
      match deleted with
      | Err e => Ret (Err e)
      | Ok _ => let! r := SInvalidate (UserID s) (GroupID s) in Ret r
      end
  end.

Definition RestoreSubscription (id : Z) : sprog (outcome UserSubscription error) :=
  let! found := SFindAny id in
  match found with
  | Err e => Ret (Err e)
  | Ok s =>
      if live s then Ret (Err ErrSubscriptionNotRevoked)
      else
        let! exists_ := SExistsByKey (UserID s) (GroupID s) in
        match exists_ with
        | Err e => Ret (Err e)
        | Ok true => Ret (Err ErrSubscriptionRestoreConflict)
        | Ok false =>
            let! now := SNow in
            let restoredStatus :=
              if (Status s =s SubscriptionStatusActive) && negb (After (ExpiresAt s) now) then SubscriptionStatusExpired else Status s in
            let! restored := SRestore id restoredStatus in
            match restored with
            | Err e => Ret (Err e)
            | Ok _ =>
                let! found := SFind id in
                match found with
                | Err e => Ret (Err e)
                | Ok r =>
                    let! invalidated := SInvalidate (UserID r) (GroupID r) in
                    Ret (match invalidated with Err e => Err e | Ok _ => Ok r end)
                end
            end
        end
  end.

Definition ExtendSubscription (id days : Z) : sprog (outcome UserSubscription error) :=
  let! r := SExtend id days in
  match r with
  | Err e => Ret (Err e)
  | Ok _ =>
      let! found := SFind id in
      match found with
      | Err e => Ret (Err e)
      | Ok s => let! _ := SInvalidate (UserID s) (GroupID s) in Ret (Ok s)
      end
  end.

(** [SubscriptionExpiryService.runOnce]; the reminders are mail. *)
Definition expire_once : sprog unit := let! _ := SExpire in Ret tt.
End service.

(** ** What calls do *)

Section semantics.
Context (offset : Time -> Duration) (column : Time -> Time) (numeric : float64 -> Q).

(** A call that does not fail, at [now]; [cache] is what the caches answer. *)
Definition exec_s (now : Time) (cache : outcome unit error) {A} (c : scall A) (d : sub_db) : A * sub_db :=
  let counted (r : Z * sub_db) : outcome Z error * sub_db := (Ok r.1, r.2) in
  match c in scall A return A * sub_db with
  | SNow => (now, d)
  | SGroup g =>
      (match groups d !! g with
       | Some gr => if group_deleted gr then Err (DriverError "group not found") else Ok gr
       | None => Err (DriverError "group not found")
       end, d)
  | SFind id => (find_by_id id d, d)
  | SFindAny id => (find_by_id_include_deleted id d, d)
  | SFindByKey u g => (find_by_user_and_group u g d, d)
  | SExistsByKey u g => (Ok (is_set (by_key u g d)), d)
  | SExists id => (Ok (match find_by_id id d with Ok _ => true | Err _ => false end), d)
  | SCreate s => repo_Create column s now d
  | SActivate id dailyStart periodicStart => counted (activate_windows column id dailyStart periodicStart d)
  | SReset w id expected start => counted (reset_usage column w id expected start d)
  | SResetWindows id rd rw rm dailyStart periodicStart => repo_ResetUsageWindows column id rd rw rm dailyStart periodicStart d
  | SIncrement id cost => increment_usage numeric id cost d
  | SDelete id => repo_Delete column id now d
  | SRestore id status => restore_row id status d
  | SUpdateStatus id status => repo_UpdateStatus id status d
  | STerm id days notes assignment => updateExistingSubscriptionTerm offset column id days notes assignment now d
  | SExtend id days => extend_term offset column id days now d
  | SExpire => counted (repo_BatchUpdateExpiredStatus now d)
  | SInvalidate _ _ => (cache, d)
  end.

Definition failed_s (e : error) {A} (c : scall A) : option A :=
  match c in scall A return option A with
  | SNow => None
  | SGroup _ => Some (Err e)
  | SFind _ | SFindAny _ | SFindByKey _ _ | SCreate _ => Some (Err e)
  | SExistsByKey _ _ | SExists _ => Some (Err e)
  | SActivate _ _ _ | SReset _ _ _ _ | SIncrement _ _ | SExpire => Some (Err e)
  | SResetWindows _ _ _ _ _ _ | SDelete _ | SRestore _ _ | SUpdateStatus _ _ | STerm _ _ _ _ | SExtend _ _ | SInvalidate _ _ =>
      Some (Err e)
  end.

(** A failing call has or has not taken effect. *)
Definition s_sem (now : Time) {A} (c : scall A) (d : sub_db) (r : A) (d' : sub_db) : Prop :=
  exists cache,
    exec_s now cache c d = (r, d') \/
    exists m, failed_s (DriverError m) c = Some r /\ (d' = d \/ d' = (exec_s now cache c d).2).

(** A program alone, at one moment. *)
Fixpoint run_alone (now : Time) {R} (p : sprog R) (d : sub_db) : R * sub_db :=
  match p with
  | Ret r => (r, d)
  | Do c k => let '(r, d) := exec_s now (Ok tt) c d in run_alone now (k r) d
  end.

Lemma run_alone_bind now {R R'} (p : sprog R) (k : R -> sprog R') d :
  run_alone now (bind p k) d = let '(r, d1) := run_alone now p d in run_alone now (k r) d1.
Proof. revert d. induction p as [r|X c k' IH]; intros d; cbn; [done|]. destruct (exec_s now (Ok tt) c d). apply IH. Qed.

Lemma s_sem_state now {A} (c : scall A) d r d' :
  s_sem now c d r d' -> d' = d \/ exists cache, d' = (exec_s now cache c d).2.
Proof. intros (cache & [E|(m & _ & [->| ->])]); [right; exists cache; by rewrite E|by left|eauto]. Qed.
End semantics.
End SubscriptionService.
