(* ===== verification/SubscriptionSystem.v ===== *)
(** * Subscriptions: requests, billing and administration at once

    Any number of handlers of [SubscriptionService] over one table, one call
    at a time; calls fail before or after they take effect, handlers stop
    anywhere, the clock advances between calls.  A handler may start from any
    snapshot that a table once held, however stale. *)

From Stdlib Require Import QArith SpecFloat.
From S2P Require Import Prelude Programs GoStrings GoFloat AppErrors Subscriptions SubscriptionService.

Module SubscriptionSystem.
Export SubscriptionService.
#[local] Open Scope Z_scope.

Section system.
Context (offset : Time -> Duration) (column : Time -> Time) (numeric : float64 -> Q).

(** The window that started at [start] has ended by [now]. *)
Definition window_over (w : window) (start now : Time) : bool :=
  match w with
  | Daily => StartOfDay offset start <? StartOfDay offset now
  | Weekly => start + week <=? now
  | Monthly => start + month <=? now
  end.

(** A snapshot has times that a column can hold. *)
Definition from_table (s : UserSubscription) : Prop := forall w, option_map column (start_of w s) = start_of w s.

Inductive handler : sprog unit -> Prop :=
| h_check s g : from_table s -> handler (run! _ := check_subscription offset s g in Ret tt)
| h_maintenance s : from_table s -> handler (doWindowMaintenance offset s)
| h_validate s : handler (run! _ := ValidateSubscription s in Ret tt)
| h_usage id cost : handler (run! _ := RecordUsage id cost in Ret tt)
| h_reset id rd rw rm : handler (run! _ := AdminResetQuota offset id rd rw rm in Ret tt)
| h_assign input : handler (run! _ := AssignSubscription offset input in Ret tt)
| h_extend_or_assign input deferred : handler (run! _ := assignOrExtendSubscription offset input deferred in Ret tt)
| h_bulk users input : handler (run! _ := BulkAssignSubscription offset users input in Ret tt)
| h_revoke id : handler (run! _ := RevokeSubscription id in Ret tt)
| h_restore id : handler (run! _ := RestoreSubscription id in Ret tt)
| h_extend id days : handler (run! _ := ExtendSubscription id days in Ret tt)
| h_expiry : handler expire_once.

(** What a call charges, and which windows it gives back early: those an
    administrator resets, and all of a term that is over when it is renewed. *)
Record event := Event { ev_charge : option (Z * Q); ev_refunds : window -> Z -> bool }.

Definition quiet_event : event := Event None (fun _ _ => false).

Definition term_over (id : Z) (assignment : bool) (now : Time) (d : sub_db) : bool :=
  match subs d !! id with
  | Some s => (ExpiresAt s <=? now) || (assignment && (Status s =s SubscriptionStatusExpired))
  | None => false
  end.

Definition event_of (now : Time) {A} (c : scall A) (d : sub_db) : event :=
  match c with
  | SIncrement id cost =>
      match increment_usage numeric id cost d with (Ok 1, _) => Event (Some (id, numeric cost)) (fun _ _ => false) | _ => quiet_event end
  | SResetWindows id rd rw rm _ _ =>
      Event None (fun w i => (i =? id) && match w with Daily => rd | Weekly => rw | Monthly => rm end)
  | STerm id _ _ assignment => Event None (fun _ i => (i =? id) && term_over id assignment now d)
  | _ => quiet_event
  end.

Definition sub_system : Type := sub_db * Time * list (sprog unit).

Inductive sub_step : sub_system -> event -> sub_system -> Prop :=
| step_start d t ps p : handler p -> sub_step (d, t, ps) quiet_event (d, t, p :: ps)
| step_call d t ps1 ps2 {A} (c : scall A) k r cache :
    r = (exec_s offset column numeric t cache c d).1 \/ (exists m, failed_s (DriverError m) c = Some r) ->
    sub_step (d, t, ps1 ++ Do c k :: ps2) (event_of t c d) ((exec_s offset column numeric t cache c d).2, t, ps1 ++ k r :: ps2)
| step_fail d t ps1 ps2 {A} (c : scall A) k r m :
    failed_s (DriverError m) c = Some r ->
    sub_step (d, t, ps1 ++ Do c k :: ps2) quiet_event (d, t, ps1 ++ k r :: ps2)
| step_clock d t t' ps : t <= t' -> sub_step (d, t, ps) quiet_event (d, t', ps)
| step_crash d t ps1 ps2 p : sub_step (d, t, ps1 ++ p :: ps2) quiet_event (d, t, ps1 ++ ps2)
| step_groups d t ps g : sub_step (d, t, ps) quiet_event (d <| groups := g |>, t, ps).

Inductive sub_exec : sub_system -> list event -> sub_system -> Prop :=
| exec_nil st : sub_exec st [] st
| exec_cons st1 e st2 log st3 : sub_step st1 e st2 -> sub_exec st2 log st3 -> sub_exec st1 (e :: log) st3.

(** ** Handlers reset only windows that are over *)

Definition resets_late (A : Type) (κ : Time) (c : scall A) : Prop :=
  match c with
  | SReset w _ expected _ => exists start, expected = Some start /\ column start = start /\ window_over w start κ = true
  | _ => True
  end.
Definition reads_clock (A : Type) (κ : Time) (c : scall A) : A -> Time :=
  match c in scall A return A -> Time with SNow => fun now => now | _ => fun _ => κ end.
Definition careful {R} (κ : Time) (p : sprog R) : Prop :=
  always resets_late (fun _ _ _ _ => True) reads_clock (fun _ _ => True) κ p.

Lemma automatic_start_over w s now start :
  automatic_start offset w s now = Some start -> exists e, start_of w s = Some e /\ window_over w e now = true.
Proof.
  destruct w; cbn; intros H.
  - unfold automaticDailyWindowStartAt in H. destruct (DailyWindowStart s) as [e|]; [|done]. exists e. split; [done|].
    destruct (HasOneTimeDailyQuota offset s); [done|]. unfold After in H.
    destruct (StartOfDay offset e <? StartOfDay offset now); done.
  - unfold automaticWeeklyWindowStartAt in H. destruct (WeeklyWindowStart s) as [e|]; [|done]. exists e. split; [done|].
    apply automatic_window_after in H. unfold week in *. lia.
  - unfold automaticMonthlyWindowStartAt in H. destruct (MonthlyWindowStart s) as [e|]; [|done]. exists e. split; [done|].
    apply automatic_window_after in H. unfold month in *. lia.
Qed.

Lemma careful_bind {A R} κ (p : sprog A) (k : A -> sprog R) :
  careful κ p -> (forall κ' r, careful κ' (k r)) -> careful κ (bind p k).
Proof. intros Hp Hk. apply always_bind. eapply always_mono; [|exact Hp]. intros κ' r _. apply Hk. Qed.

Ltac careful_steps :=
  repeat first
    [ exact I | progress cbn [careful always resets_late] | split; [exact I|] | apply careful_bind | intros ? | case_match ].

Lemma translate_careful κ id n : careful κ (translateConditionalWindowReset id n).
Proof. unfold translateConditionalWindowReset. careful_steps. Qed.

Lemma activate_careful κ s : careful κ (CheckAndActivateWindow offset s).
Proof.
  unfold CheckAndActivateWindow, checkAndActivateWindowAt, ActivateWindows. split; [exact I|]. intros now _. cbv beta.
  destruct (IsWindowActivated s); [exact I|]. split; [exact I|]. intros n _. apply translate_careful.
Qed.

(** Restarting a window leaves the starts of the others. *)
Lemma restart_other w w' start s : w <> w' -> start_of w' (restart w start s) = start_of w' s.
Proof. by destruct w, w'. Qed.

Lemma reset_windows_careful ws now s s0 changed :
  NoDup ws -> from_table s0 -> (forall w, w ∈ ws -> start_of w s = start_of w s0) ->
  always resets_late (fun _ _ _ _ => True) reads_clock (fun κ' _ => κ' = now) now (reset_windows offset ws now s changed).
Proof.
  intros Hnd Ht. revert s changed. induction Hnd as [|w ws Hw _ IH]; intros s changed Hs; [done|]. cbn [reset_windows].
  assert (Hws : forall w', w' ∈ ws -> start_of w' s = start_of w' s0) by (intros; apply Hs; by right).
  destruct (automatic_start offset w s now) as [start|] eqn:Ha; [|by apply IH].
  unfold ResetUsage. split.
  - apply automatic_start_over in Ha as (e & He & Ho). exists e. split; [done|]. split; [|done].
    specialize (Ht w). rewrite <- Hs, He in Ht by (by left). by injection Ht.
  - intros n _. cbn [reads_clock]. apply always_bind.
    assert (Hk : forall r : outcome unit error, always resets_late (fun _ _ _ _ => True) reads_clock (fun κ' _ => κ' = now) now
      (match r with Err e => Ret (Err e) | Ok _ => reset_windows offset ws now (restart w start s) true end)).
    { intros [u|e]; [|done]. apply IH. intros w' Hw'. rewrite restart_other by (intros ->; done). by apply Hws. }
    unfold translateConditionalWindowReset. destruct n as [n|e]; [|apply (Hk (Err e))]. destruct (0 <? n); [apply (Hk (Ok tt))|].
    split; [exact I|]. intros r _. cbn [reads_clock]. apply Hk.
Qed.

Lemma reset_careful κ s : from_table s -> careful κ (CheckAndResetWindows offset s).
Proof.
  intros Ht. unfold CheckAndResetWindows. split; [exact I|]. intros now _. cbn [reads_clock]. cbv beta. apply always_bind.
  eapply always_mono; [|apply (reset_windows_careful _ now s s)]; [|repeat constructor; set_solver|done|done].
  intros κ' r _. careful_steps.
Qed.

Lemma maintenance_careful κ s : from_table s -> careful κ (EnsureWindowMaintenance offset s).
Proof.
  intros Ht. unfold EnsureWindowMaintenance. apply careful_bind; [destruct (negb _); [apply activate_careful|exact I]|].
  intros κ' [u|e]; [|exact I]. apply careful_bind; [by apply reset_careful|]. careful_steps.
Qed.

Lemma handler_careful κ p : handler p -> careful κ p.
Proof.
  destruct 1.
  - apply careful_bind; [|done]. unfold check_subscription. split; [exact I|]. intros now _. cbv beta.
    assert (Ht : from_table (ValidateAndCheckLimits offset s g now).2).
    { unfold ValidateAndCheckLimits, current_usage. repeat case_match; done. }
    destruct (ValidateAndCheckLimits offset s g now) as [[needs err] s']. destruct needs; [|exact I].
    apply careful_bind; [by apply maintenance_careful|]. careful_steps.
  - unfold doWindowMaintenance. apply careful_bind; [destruct (negb _); [apply activate_careful|exact I]|].
    intros κ' _. apply careful_bind; [by apply reset_careful|]. careful_steps.
  - unfold ValidateSubscription. careful_steps.
  - unfold RecordUsage. careful_steps.
  - unfold AdminResetQuota. careful_steps.
  - unfold AssignSubscription, assignSubscriptionWithReuse, with_group, createSubscription. careful_steps.
  - unfold assignOrExtendSubscription, with_group, createSubscription. careful_steps.
  - apply careful_bind; [|done]. revert κ. induction users as [|u users IH]; intros κ; [exact I|]. cbn [BulkAssignSubscription].
    apply careful_bind; [unfold assignSubscriptionWithReuse, with_group, createSubscription; careful_steps|].
    intros κ' r. apply careful_bind; [apply IH|done].
  - unfold RevokeSubscription. careful_steps.
  - unfold RestoreSubscription. careful_steps.
  - unfold ExtendSubscription. careful_steps.
  - unfold expire_once. careful_steps.
Qed.

(** ** What a call does to one window of one subscription *)

Definition same_window (w : window) (s s' : UserSubscription) : Prop := start_of w s' = start_of w s /\ usage_of w s' = usage_of w s.

Definition keeps_window (w : window) (id : Z) (d d' : sub_db) : Prop :=
  forall s, subs d !! id = Some s -> exists s', subs d' !! id = Some s' /\ same_window w s s'.

(** Rows are under their ids, which are below the next one. *)
Definition numbered (d : sub_db) : Prop := forall id s, subs d !! id = Some s -> ID s = id /\ id < next_sub d.

Lemma keeps_window_refl w id d : keeps_window w id d d.
Proof. intros s Hs. by exists s. Qed.

Lemma keeps_window_trans w id d1 d2 d3 : keeps_window w id d1 d2 -> keeps_window w id d2 d3 -> keeps_window w id d1 d3.
Proof.
  intros H1 H2 s Hs. destruct (H1 s Hs) as (s2 & Hs2 & E1 & E2). destruct (H2 s2 Hs2) as (s3 & Hs3 & E3 & E4).
  exists s3. split; [done|]. split; congruence.
Qed.

Lemma keeps_insert w id d id' s0 s1 :
  subs d !! id' = Some s0 -> (id' = id -> same_window w s0 s1) -> keeps_window w id d (d <| subs := <[id' := s1]> (subs d) |>).
Proof.
  intros H0 H1 s Hs. cbn. destruct (decide (id' = id)) as [->|Hne].
  - rewrite lookup_insert_eq. exists s1. split; [done|]. assert (s0 = s) as <- by congruence. auto.
  - rewrite lookup_insert_ne by done. by exists s.
Qed.

Lemma keeps_update_one w id id' f d :
  (id' = id -> forall s, subs d !! id = Some s -> same_window w s (f s)) -> keeps_window w id d (update_one id' f d).2.
Proof.
  intros Hf. unfold update_one. destruct (subs d !! id') as [s0|] eqn:H0; [|apply keeps_window_refl]. cbn [snd].
  eapply keeps_insert; [done|]. intros ->. by apply Hf.
Qed.

Lemma keeps_update_where w id id' guard f d :
  (id' = id -> forall s, subs d !! id = Some s -> guard s = true -> same_window w s (f s)) ->
  keeps_window w id d (update_where id' guard f d).2.
Proof.
  intros Hf. unfold update_where. destruct (subs d !! id') as [s0|] eqn:H0; [|apply keeps_window_refl].
  destruct (guard s0) eqn:Hg; [|apply keeps_window_refl]. cbn [snd]. eapply keeps_insert; [done|]. intros ->. by apply Hf.
Qed.

Lemma same_restart w w' start s : w <> w' -> same_window w' s (restart w start s).
Proof. by destruct w, w'. Qed.

Lemma transaction_keeps {A} w id (body : sub_db -> outcome A error * sub_db) d :
  keeps_window w id d (body d).2 -> keeps_window w id d (transaction body d).2.
Proof. unfold transaction. destruct (body d) as [[|] d']; [done|]. intros _. apply keeps_window_refl. Qed.

Lemma then_do_keeps {A B} w id d (r : outcome A error * sub_db) (k : sub_db -> outcome B error * sub_db) :
  keeps_window w id d r.2 -> (forall d', keeps_window w id d' (k d').2) -> keeps_window w id d (then_do r k).2.
Proof. intros Hr Hk. unfold then_do. destruct r as [[a|e] d']; [|done]. eapply keeps_window_trans; [exact Hr|apply Hk]. Qed.

Lemma wrapping_snd {A} p (r : outcome A error * sub_db) : (wrapping p r).2 = r.2.
Proof. by destruct r as [[|] d]. Qed.

Lemma field_keeps w id id' f d : (forall s, same_window w s (f s)) -> keeps_window w id d (update_one id' f d).2.
Proof. intros Hf. apply keeps_update_one. auto. Qed.

Lemma term_keeps w id id' days notes a now d :
  numbered d -> (id' = id -> term_over id' a now d = false) ->
  keeps_window w id d (updateExistingSubscriptionTerm offset column id' days notes a now d).2.
Proof.
  intros Hn Ht. apply transaction_keeps. unfold find_by_id. destruct (subs d !! id') as [s|] eqn:Hs; [|apply keeps_window_refl].
  destruct (live s); [|apply keeps_window_refl]. destruct (a && _); [apply keeps_window_refl|].
  destruct (Hn id' s Hs) as [Hid _]. cbv zeta.
  set (over := if a then _ else _). destruct over eqn:Ho; subst over.
  - rewrite wrapping_snd. unfold repo_Update. cbn [renewedSubscriptionTerm]. cbn. rewrite Hid, Hs.
    destruct (live s && _); [apply keeps_window_refl|]. apply keeps_update_one. intros Heq. exfalso. specialize (Ht Heq).
    unfold term_over in Ht. rewrite Hs in Ht. unfold After in Ho. destruct a; cbn in *.
    + destruct (Status s =s SubscriptionStatusExpired); [by rewrite orb_true_r in Ht|]. rewrite orb_false_r in Ht. cbn in Ho.
      apply andb_true_iff in Ho as [_ Ho]. destruct (Z.ltb_spec now (ExpiresAt s)); [done|]. lia.
    + rewrite orb_false_r in Ht. destruct (Z.ltb_spec now (ExpiresAt s)); [done|]. lia.
  - clear Ho. apply then_do_keeps; [rewrite wrapping_snd; by apply field_keeps|]. intros d1.
    apply then_do_keeps; [destruct (negb _); [rewrite wrapping_snd; by apply field_keeps|apply keeps_window_refl]|]. intros d2.
    destruct (negb _); [rewrite wrapping_snd; by apply field_keeps|apply keeps_window_refl].
Qed.

Lemma extend_keeps w id id' days now d : keeps_window w id d (extend_term offset column id' days now d).2.
Proof.
  apply transaction_keeps. destruct (find_by_id id' d) as [s|]; [|apply keeps_window_refl]. cbv zeta.
  destruct (_ && _); [apply keeps_window_refl|]. destruct (negb _); [apply keeps_window_refl|].
  apply then_do_keeps; [by apply field_keeps|]. intros d1. destruct (_ =s _); [by apply field_keeps|apply keeps_window_refl].
Qed.

(** Usage units after an event. *)
Definition charge_units (id : Z) (units : Z) (e : event) : Z :=
  match ev_charge e with
  | Some (i, cost) => if i =? id then default units (numeric_store 10 (numeric_value 10 units + cost)%Q) else units
  | None => units
  end.

Lemma increment_units w id id' cost d s cache t :
  subs d !! id = Some s -> exists s', subs (exec_s offset column numeric t cache (SIncrement id' cost) d).2 !! id = Some s' /\
    start_of w s' = start_of w s /\ usage_of w s' = charge_units id (usage_of w s) (event_of t (SIncrement id' cost) d).
Proof.
  intros Hs. cbn [exec_s event_of]. destruct (increment_usage numeric id' cost d) as [r d'] eqn:Hi. cbn [snd]. revert Hi.
  unfold increment_usage. destruct (subs d !! id') as [s0|] eqn:H0; [|intros [= <- <-]; by exists s].
  destruct (groups d !! GroupID s0) as [g|]; [|intros [= <- <-]; by exists s].
  destruct (_ || _); [intros [= <- <-]; by exists s|].
  destruct (numeric_store 10 (numeric_value 10 (DailyUsageUSD s0) + _)%Q) as [du|] eqn:Hd; [|intros [= <- <-]; by exists s].
  destruct (numeric_store 10 (numeric_value 10 (WeeklyUsageUSD s0) + _)%Q) as [wu|] eqn:Hw; [|intros [= <- <-]; by exists s].
  destruct (numeric_store 10 (numeric_value 10 (MonthlyUsageUSD s0) + _)%Q) as [mu|] eqn:Hm; [|intros [= <- <-]; by exists s].
  intros [= <- <-]. cbn [subs set_field]. unfold charge_units. cbn [ev_charge]. destruct (Z.eqb_spec id' id) as [->|Hne].
  - assert (s0 = s) as -> by congruence. cbn. rewrite lookup_insert_eq. eexists. split; [reflexivity|].
    destruct w; cbn; rewrite ?Hd, ?Hw, ?Hm; done.
  - cbn. rewrite lookup_insert_ne by done. by exists s.
Qed.

Lemma call_window w id κ t cache {A} (c : scall A) d s start :
  numbered d -> subs d !! id = Some s -> start_of w s = Some start -> resets_late A κ c -> κ <= t ->
  (forall u, u <= t -> window_over w start u = false) -> ev_refunds (event_of t c d) w id = false ->
  exists s', subs (exec_s offset column numeric t cache c d).2 !! id = Some s' /\ start_of w s' = Some start /\
    usage_of w s' = charge_units id (usage_of w s) (event_of t c d).
Proof.
  intros Hn Hs Hst Hl Hκ Ho Hr.
  assert (Hkeep : keeps_window w id d (exec_s offset column numeric t cache c d).2 -> ev_charge (event_of t c d) = None ->
    exists s', subs (exec_s offset column numeric t cache c d).2 !! id = Some s' /\ start_of w s' = Some start /\
      usage_of w s' = charge_units id (usage_of w s) (event_of t c d)).
  { intros Hk Hc. destruct (Hk s Hs) as (s' & Hs' & E1 & E2). exists s'. unfold charge_units. rewrite Hc, E1. auto. }
  destruct c; try (apply Hkeep; [apply keeps_window_refl|reflexivity]); cbn [resets_late ev_refunds event_of] in *.
  - apply Hkeep; [|reflexivity]. cbn. unfold repo_Create. destruct (by_key _ _ d); [apply keeps_window_refl|]. cbn [snd].
    intros s1 Hs1. exists s1. cbn. rewrite lookup_insert_ne; [by split|]. intros E. destruct (Hn id s1 Hs1) as [_ Hlt]. lia.
  - apply Hkeep; [|reflexivity]. cbn. apply keeps_update_where. intros _ s1 Hs1 Hg. assert (s1 = s) as -> by congruence.
    unfold IsWindowActivated in Hg. destruct w; cbn in Hst; rewrite Hst in Hg; by rewrite ?orb_true_r in Hg.
  - apply Hkeep; [|reflexivity]. cbn. apply keeps_update_where. intros _ s1 Hs1 Hg. assert (s1 = s) as -> by congruence.
    apply bool_decide_eq_true in Hg. destruct Hl as (e & -> & Hc & He). cbn in Hg. rewrite Hc in Hg.
    apply same_restart. intros ->. rewrite Hst in Hg. injection Hg as ->. rewrite (Ho κ Hκ) in He. done.
  - apply Hkeep; [|reflexivity]. cbn. apply keeps_update_one. intros -> s1 Hs1. rewrite Z.eqb_refl in Hr. cbn in Hr.
    unfold same_window. by destruct w, resetDaily, resetWeekly, resetMonthly.
  - rewrite <- Hst. by apply increment_units.
  - apply Hkeep; [|reflexivity]. cbn. by apply keeps_update_where.
  - apply Hkeep; [|reflexivity]. cbn. unfold restore_row. destruct (subs d !! id0); [|apply keeps_window_refl].
    destruct (taken _ _ _ _); [apply keeps_window_refl|by apply field_keeps].
  - apply Hkeep; [|reflexivity]. by apply field_keeps.
  - apply Hkeep; [|reflexivity]. apply term_keeps; [done|]. intros ->. by rewrite Z.eqb_refl in Hr.
  - apply Hkeep; [|reflexivity]. apply extend_keeps.
  - apply Hkeep; [|reflexivity]. intros s1 Hs1. cbn. rewrite lookup_fmap, Hs1. cbn. eexists. split; [reflexivity|].
    by destruct (_ && _).
Qed.

(** *** Ids *)

Lemma numbered_insert d id s0 s1 :
  numbered d -> subs d !! id = Some s0 -> ID s1 = ID s0 -> numbered (d <| subs := <[id := s1]> (subs d) |>).
Proof.
  intros Hn H0 He i s. cbn. intros [[<- <-]|[_ Hs]]%lookup_insert_Some; [rewrite He|]; by apply Hn.
Qed.

Lemma numbered_update_one d id f : (forall s, ID (f s) = ID s) -> numbered d -> numbered (update_one id f d).2.
Proof. intros Hf Hn. unfold update_one. destruct (subs d !! id) eqn:H0; [|done]. by eapply numbered_insert. Qed.

Lemma numbered_update_where d id g f : (forall s, ID (f s) = ID s) -> numbered d -> numbered (update_where id g f d).2.
Proof.
  intros Hf Hn. unfold update_where. destruct (subs d !! id) as [s|] eqn:H0; [|done]. destruct (g s); [|done].
  by eapply numbered_insert.
Qed.

Lemma numbered_transaction {A} (body : sub_db -> outcome A error * sub_db) d :
  (numbered d -> numbered (body d).2) -> numbered d -> numbered (transaction body d).2.
Proof. unfold transaction. destruct (body d) as [[|] d']; auto. Qed.

Lemma numbered_then_do {A B} (r : outcome A error * sub_db) (k : sub_db -> outcome B error * sub_db) :
  numbered r.2 -> (forall d', numbered d' -> numbered (k d').2) -> numbered (then_do r k).2.
Proof. unfold then_do. destruct r as [[|] d']; auto. Qed.

Lemma numbered_update d s : numbered d -> numbered (repo_Update column s d).2.
Proof.
  intros Hn. unfold repo_Update. destruct (subs d !! ID s); [|done]. destruct (_ && _); [done|]. by apply numbered_update_one.
Qed.

Lemma numbered_exec t cache {A} (c : scall A) d : numbered d -> numbered (exec_s offset column numeric t cache c d).2.
Proof.
  intros Hn. destruct c; try done; cbn [exec_s snd].
  - unfold repo_Create. destruct (by_key _ _ d); [done|]. cbn. intros i s1. cbn.
    intros [[<- <-]|[_ H1]]%lookup_insert_Some; [cbn; lia|]. destruct (Hn i s1 H1). lia.
  - by apply numbered_update_where.
  - apply numbered_update_where; [|done]. intros s. by destruct w.
  - apply numbered_update_one; [|done]. intros s. by destruct resetDaily, resetWeekly, resetMonthly.
  - unfold increment_usage. destruct (subs d !! id) as [s|] eqn:Hs; [|done]. repeat (case_match; try done).
    all: by eapply numbered_insert.
  - by apply numbered_update_where.
  - unfold restore_row. destruct (subs d !! id); [|done]. destruct (taken _ _ _ _); [done|by apply numbered_update_one].
  - by apply numbered_update_one.
  - apply numbered_transaction; [|done]. intros _. destruct (find_by_id id d) as [s|]; [|done].
    destruct (assignmentSemantics && _); [done|]. cbv zeta.
    match goal with |- numbered (if ?x then _ else _).2 => destruct x end; [rewrite wrapping_snd; by apply numbered_update|].
    apply numbered_then_do; [rewrite wrapping_snd; by apply numbered_update_one|]. intros d1 H1.
    apply numbered_then_do; [destruct (negb (Status s =s _)); [rewrite wrapping_snd; by apply numbered_update_one|done]|]. intros d2 H2.
    match goal with |- numbered (if ?x then _ else _).2 => destruct x end; [rewrite wrapping_snd; by apply numbered_update_one|done].
  - apply numbered_transaction; [|done]. intros _. destruct (find_by_id id d) as [s|]; [|done]. cbv zeta.
    do 2 (match goal with |- numbered (if ?x then _ else _).2 => destruct x; [done|] end).
    apply numbered_then_do; [by apply numbered_update_one|]. intros d1 H1. destruct (_ =s _); [by apply numbered_update_one|done].
  - intros i s1. cbn. rewrite lookup_fmap_Some. intros (s0 & <- & H0). destruct (Hn i s0 H0). by destruct (_ && _).
Qed.

(** ** The system *)

Record sub_ok (st : sub_system) : Prop := {
  so_numbered : numbered st.1.1;
  so_careful : Forall (fun p => exists κ, κ <= st.1.2 /\ careful κ p) st.2
}.

Lemma sub_ok_step st e st' : sub_step st e st' -> sub_ok st -> sub_ok st'.
Proof.
  intros Hstep [Hn Hc]. destruct Hstep as [d t ps p Hp|d t ps1 ps2 A c k r cache Hr|d t ps1 ps2 A c k r m Hf
    |d t t' ps Ht|d t ps1 ps2 p|d t ps g]; cbn in *.
  - split; cbn; [done|]. apply Forall_cons. split; [|done]. exists t. split; [lia|by apply handler_careful].
  - split; cbn; [by apply numbered_exec|]. apply Forall_app in Hc as [H1 [(κ & Hκ & _ & Hk) H2]%Forall_cons].
    apply Forall_app. split; [done|]. apply Forall_cons. split; [|done]. exists (reads_clock A κ c r). split; [|by apply Hk].
    destruct c; cbn; try done. destruct Hr as [->|[m Hm]]; [cbn; lia|done].
  - split; cbn; [done|]. apply Forall_app in Hc as [H1 [(κ & Hκ & _ & Hk) H2]%Forall_cons].
    apply Forall_app. split; [done|]. apply Forall_cons. split; [|done]. exists (reads_clock A κ c r). split; [|by apply Hk].
    by destruct c.
  - split; cbn; [done|]. eapply Forall_impl; [exact Hc|]. intros p (κ & Hκ & Hp). exists κ. split; [lia|done].
  - split; cbn; [done|]. apply Forall_app in Hc as [H1 [_ H2]%Forall_cons]. by apply Forall_app.
  - split; cbn; [exact Hn|done].
Qed.

Lemma clock_step st e st' : sub_step st e st' -> st.1.2 <= st'.1.2.
Proof. destruct 1; cbn; lia. Qed.

Lemma clock_exec st log st' : sub_exec st log st' -> st.1.2 <= st'.1.2.
Proof. induction 1 as [|st1 e st2 log st3 H1%clock_step _ IH]; lia. Qed.

(** A handler that runs to its end. *)
Fixpoint solo_log {R} (t : Time) (p : sprog R) (d : sub_db) : list event :=
  match p with
  | Ret _ => [quiet_event]
  | Do c k => let '(r, d') := exec_s offset column numeric t (Ok tt) c d in event_of t c d :: solo_log t (k r) d'
  end.

Lemma exec_solo t p d ps : sub_exec (d, t, p :: ps) (solo_log t p d) ((run_alone offset column numeric t p d).2, t, ps).
Proof.
  revert d. induction p as [r|A c k IH]; intros d; cbn.
  - eapply exec_cons; [apply (step_crash d t [] ps)|apply exec_nil].
  - destruct (exec_s offset column numeric t (Ok tt) c d) as [r d'] eqn:He.
    eapply exec_cons; [apply (step_call d t [] ps c k r (Ok tt)); left; by rewrite He|]. rewrite He. apply IH.
Qed.

Lemma exec_app st1 log1 st2 log2 st3 : sub_exec st1 log1 st2 -> sub_exec st2 log2 st3 -> sub_exec st1 (log1 ++ log2) st3.
Proof. induction 1; cbn; [done|]. intros H2. eapply exec_cons; [done|auto]. Qed.

(** C20: Usage is kept while its window lasts.  Whatever checks, maintenance
    (from snapshots of any age), billing, renewals and administration happen
    at the same time, and whatever fails in them: as long as a window of a
    subscription has not ended, and no administrator resets it and no ended
    term is renewed, its start stays, and its usage grows by exactly the costs
    that are charged, each rounded as the column rounds. *)
Theorem usage_kept w id st log st' s start :
  sub_ok st -> sub_exec st log st' ->
  subs st.1.1 !! id = Some s -> start_of w s = Some start ->
  Forall (fun e => ev_refunds e w id = false) log ->
  (forall t, t <= st'.1.2 -> window_over w start t = false) ->
  exists s', subs st'.1.1 !! id = Some s' /\ start_of w s' = Some start /\
    usage_of w s' = fold_left (charge_units id) log (usage_of w s).
Proof.
  intros Hok Hexec. revert s Hok. induction Hexec as [st|st1 e st2 log st3 Hstep Hexec IH]; intros s Hok Hs Hst Hq Ho; [by exists s|].
  apply Forall_cons in Hq as [He Hq]. pose proof (clock_exec _ _ _ Hexec) as Hc. pose proof (clock_step _ _ _ Hstep) as Hc1.
  assert (H2 : exists s2, subs st2.1.1 !! id = Some s2 /\ start_of w s2 = Some start /\
                 usage_of w s2 = charge_units id (usage_of w s) e).
  { destruct Hstep as [| d t ps1 ps2 A c k r cache Hr| | | |]; cbn in *; try (by exists s).
    destruct Hok as [Hn Hcare]. apply Forall_app in Hcare as [_ [(κ & Hκ & Hl & _) _]%Forall_cons].
    eapply call_window; try done. intros u Hu. apply Ho. lia. }
  destruct H2 as (s2 & Hs2 & Hst2 & Hu2). cbn. rewrite <- Hu2. apply IH; try done. by eapply sub_ok_step.
Qed.
End system.

(** Two weeks of monthly quota, one request of half a dollar, a check from a
    snapshot that is older than the usage. *)
Definition demo_offset (t : Time) : Duration := 8 * 3600 * Second.
Definition demo_column (t : Time) : Time := t / 1000 * 1000.
Definition demo_amount (x : float64) : Q := round_half_even (inject_Z (10 ^ 10) * f64_value x)%Q # (10 ^ 10).
Definition demo_now : Time := 1767225600 * Second.
Definition demo_group : Group := MkGroup SubscriptionTypeSubscription None None (Some (f64_of_int 20)) false.
Definition demo_subscription : UserSubscription :=
  Subscription 7 3 2 demo_now (demo_now + 60 * day) SubscriptionStatusActive (Some (StartOfDay demo_offset demo_now)) (Some demo_now)
    (Some demo_now) 0 0 12500000000 None demo_now "" None.
Definition demo_db : sub_db := SubDB {[ 7 := demo_subscription ]} {[ 2 := demo_group ]} 8.
Definition half_dollar : float64 := f64_of_ratio 1 2.

Lemma usage_kept_witness :
  exists log d s', sub_exec demo_offset demo_column demo_amount (demo_db, demo_now, []) log (d, demo_now + 14 * day, []) /\
    subs d !! 7 = Some s' /\ WeeklyWindowStart s' = Some (demo_now + 14 * day) /\ WeeklyUsageUSD s' = 0 /\
    MonthlyWindowStart s' = Some demo_now /\ MonthlyUsageUSD s' = 17500000000.
Proof.
  set (later := demo_now + 14 * day).
  set (check := run! _ := check_subscription demo_offset demo_subscription demo_group in Ret tt).
  set (usage := run! _ := RecordUsage 7 half_dollar in Ret tt).
  set (d1 := (run_alone demo_offset demo_column demo_amount later usage demo_db).2).
  set (d2 := (run_alone demo_offset demo_column demo_amount later check d1).2).
  set (log := [quiet_event; quiet_event; quiet_event] ++ solo_log demo_offset demo_column demo_amount later usage demo_db
                ++ solo_log demo_offset demo_column demo_amount later check d1).
  assert (Hexec : sub_exec demo_offset demo_column demo_amount (demo_db, demo_now, []) log (d2, later, [])).
  { eapply exec_cons; [apply (step_start _ _ _ _ _ _ check), h_check; intros []; reflexivity|].
    eapply exec_cons; [apply (step_clock _ _ _ _ _ later); vm_compute; congruence|].
    eapply exec_cons; [apply (step_start _ _ _ _ _ _ usage), h_usage|].
    eapply exec_app; [apply exec_solo|apply exec_solo]. }
  destruct (usage_kept demo_offset demo_column demo_amount Monthly 7 (demo_db, demo_now, []) log (d2, later, []) demo_subscription demo_now)
    as (s' & Hs' & Hst & Hu).
  - split; [|constructor]. intros id s Hs. change (({[ 7 := demo_subscription ]} : gmap Z _) !! id = Some s) in Hs.
    apply lookup_singleton_Some in Hs as [<- <-]. by split.
  - exact Hexec.
  - reflexivity.
  - reflexivity.
  - apply List.Forall_forall. intros e He. apply negb_true_iff. revert e He. apply forallb_forall. vm_compute. reflexivity.
  - intros t Ht. change (t <= demo_now + 14 * day) in Ht. change ((demo_now + month <=? t) = false). apply Z.leb_gt.
    assert (14 * day < month) by reflexivity. lia.
  - exists log, d2, s'. split; [exact Hexec|]. split; [exact Hs'|].
    assert (Hw : option_map (fun r => (WeeklyWindowStart r, WeeklyUsageUSD r)) (subs d2 !! 7) = Some (Some later, 0))
      by (vm_compute; reflexivity).
    change (subs d2 !! 7 = Some s') in Hs'. rewrite Hs' in Hw. injection Hw as Hw1 Hw2.
    split; [exact Hw1|]. split; [exact Hw2|]. split; [exact Hst|].
    change (usage_of Monthly s' = 17500000000). rewrite Hu. vm_compute. reflexivity.
Defined.
End SubscriptionSystem.
