(* ===== verification/SubscriptionChecks.v ===== *)
(** * Subscription checks: the fast path and the maintenance agree

    A request is checked on a snapshot as if the windows that are over were
    reset already; when one is, the maintenance writes the table, reads the row
    again and the check is repeated.  Both give the same answer. *)

From Stdlib Require Import QArith SpecFloat.
From S2P Require Import Prelude Programs GoStrings GoFloat AppErrors Subscriptions SubscriptionService SubscriptionSystem.

Module SubscriptionChecks.
Export SubscriptionSystem.
#[local] Open Scope Z_scope.

(** The limits are checked on the three amounts alone. *)
Lemma limits_by_usage s s' g cost :
  (forall w, usage_of w s' = usage_of w s) -> CheckUsageLimits s' g cost = CheckUsageLimits s g cost.
Proof.
  intros H. pose proof (H Daily) as H1. pose proof (H Weekly) as H2. pose proof (H Monthly) as H3. cbn in H1, H2, H3.
  unfold CheckUsageLimits, CheckDailyLimit, CheckWeeklyLimit, CheckMonthlyLimit. by rewrite H1, H2, H3.
Qed.

Section checks.
Context (offset : Time -> Duration) (column : Time -> Time) (numeric : float64 -> Q) (now : Time).

(** Two rows with one term, one start of a window. *)
Definition same_term (s s' : UserSubscription) : Prop := StartsAt s' = StartsAt s /\ ExpiresAt s' = ExpiresAt s.

Lemma automatic_start_same w s s' :
  same_term s s' -> start_of w s' = start_of w s -> automatic_start offset w s' now = automatic_start offset w s now.
Proof.
  intros [H1 H2] Hw. destruct w; cbn in *;
    unfold automaticDailyWindowStartAt, automaticWeeklyWindowStartAt, automaticMonthlyWindowStartAt, automaticWindowStartAt,
      HasOneTimeDailyQuota, windowResetAnchor; by rewrite Hw, H1, H2.
Qed.

Definition counted_usage (w : window) (s : UserSubscription) : Z :=
  match automatic_start offset w s now with Some _ => 0 | None => usage_of w s end.

(** The usage that counts is a window's own: none when it is over. *)
Lemma current_usage_of w s : usage_of w (current_usage offset s now) = counted_usage w s.
Proof.
  unfold counted_usage, current_usage, canAutomaticallyResetDailyAt, canAutomaticallyResetWeeklyAt, canAutomaticallyResetMonthlyAt.
  set (s1 := if is_set (automaticDailyWindowStartAt offset s now) then _ else _).
  assert (E1 : same_term s s1 /\ forall w, start_of w s1 = start_of w s) by (subst s1; destruct (is_set _); by repeat split).
  set (s2 := if is_set (automaticWeeklyWindowStartAt offset s1 now) then _ else _).
  assert (E2 : same_term s s2 /\ forall w, start_of w s2 = start_of w s) by (subst s2; clearbody s1; destruct (is_set _); exact E1).
  pose proof (automatic_start_same Weekly s s1 (proj1 E1) (proj2 E1 Weekly)) as HW.
  pose proof (automatic_start_same Monthly s s2 (proj1 E2) (proj2 E2 Monthly)) as HM. cbn [automatic_start] in HW, HM.
  rewrite HM. subst s2. rewrite HW. subst s1. clear.
  destruct w; cbn [automatic_start];
    destruct (automaticDailyWindowStartAt offset s now), (automaticWeeklyWindowStartAt offset s now),
      (automaticMonthlyWindowStartAt offset s now); done.
Qed.

(** ** The maintenance alone *)

(** What the maintenance leaves of a row. *)
Definition maintain (s : UserSubscription) (r : UserSubscription) (w : window) : UserSubscription :=
  match automatic_start offset w s now with Some start => restart w (column start) r | None => r end.

Definition with_row (id : Z) (r : UserSubscription) (d : sub_db) : sub_db := d <| subs := <[id := r]> (subs d) |>.

Lemma with_row_row id r d : subs (with_row id r d) !! id = Some r.
Proof. apply lookup_insert_eq. Qed.

Lemma with_row_twice id r r' d : with_row id r' (with_row id r d) = with_row id r' d.
Proof. unfold with_row. cbn. by rewrite insert_insert_eq. Qed.

Lemma find_row id r d : live r = true -> find_by_id id (with_row id r d) = Ok r.
Proof. intros Hl. unfold find_by_id. by rewrite with_row_row, Hl. Qed.

(** A reset that expects the row's start happens. *)
Lemma reset_alone w id start r d e :
  start_of w r = option_map column e ->
  run_alone offset column numeric now (ResetUsage w id e start) (with_row id r d) = (Ok tt, with_row id (restart w (column start) r) d).
Proof.
  intros He. unfold ResetUsage. cbn [run_alone exec_s]. unfold reset_usage, update_where. rewrite with_row_row, bool_decide_true by done.
  cbn. by rewrite insert_insert_eq.
Qed.

Lemma restart_term w start s : same_term s (restart w start s) /\ ID (restart w start s) = ID s.
Proof. by destruct w. Qed.

Lemma reset_windows_alone ws id s0 d :
  NoDup ws -> from_table column s0 -> ID s0 = id -> forall s r b,
  same_term s0 s -> ID s = id -> (forall w, w ∈ ws -> start_of w s = start_of w s0) -> (forall w, w ∈ ws -> start_of w r = start_of w s0) ->
  exists s' b', run_alone offset column numeric now (reset_windows offset ws now s b) (with_row id r d)
    = (Ok (s', b'), with_row id (fold_left (maintain s0) ws r) d) /\ UserID s' = UserID s /\ GroupID s' = GroupID s.
Proof.
  intros Hnd Ht Hid. induction Hnd as [|w ws Hw _ IH]; intros s r b Hterm Hsid Hs Hr; [by exists s, b|].
  cbn [reset_windows fold_left]. unfold maintain at 2.
  rewrite (automatic_start_same w s0 s) by (auto; apply Hs; by left).
  destruct (automatic_start offset w s0 now) as [start|] eqn:Ha;
    [|apply IH; try done; intros w' Hw'; [apply Hs|apply Hr]; by right].
  rewrite run_alone_bind, Hsid, reset_alone by (rewrite (Hs w), (Ht w) by (by left); apply Hr; by left).
  destruct (restart_term w start s) as [[T1 T2] T3]. destruct Hterm as [T4 T5].
  destruct (IH (restart w start s) (restart w (column start) r) true) as (s' & b' & E & E1 & E2).
  - split; congruence.
  - congruence.
  - intros w' Hw'. rewrite restart_other by (intros ->; done). apply Hs. by right.
  - intros w' Hw'. rewrite restart_other by (intros ->; done). apply Hr. by right.
  - exists s', b'. split; [exact E|]. rewrite E1, E2. by destruct w.
Qed.

Notation alone := (run_alone offset column numeric now).
Notation maintained s := (fold_left (maintain s) [Daily; Weekly; Monthly] s).

Lemma maintained_row s : same_term s (maintained s) /\ Status (maintained s) = Status s /\ live (maintained s) = live s.
Proof. cbn [fold_left]. unfold maintain. repeat case_match; by repeat split. Qed.

(** Maintenance does not change what counts. *)
Lemma maintained_usage w s : counted_usage w (maintained s) = counted_usage w s.
Proof.
  assert (H : match automatic_start offset w s now with
              | Some _ => usage_of w (maintained s) = 0
              | None => usage_of w (maintained s) = usage_of w s /\ start_of w (maintained s) = start_of w s
              end).
  { cbn [fold_left]. unfold maintain. destruct w;
      destruct (automatic_start offset Daily s now), (automatic_start offset Weekly s now), (automatic_start offset Monthly s now); done. }
  unfold counted_usage. destruct (automatic_start offset w s now) eqn:Ha; [rewrite H; by case_match|]. destruct H as [H1 H2].
  by rewrite (automatic_start_same w s (maintained s)), Ha, H1 by (auto; apply maintained_row).
Qed.

(** The check answers by the amounts that count. *)
Lemma check_by_usage s s' g :
  same_term s s' -> Status s' = Status s -> (forall w, counted_usage w s' = counted_usage w s) ->
  (ValidateAndCheckLimits offset s' g now).1.2 = (ValidateAndCheckLimits offset s g now).1.2.
Proof.
  intros [_ He] Hs Hu. unfold ValidateAndCheckLimits. rewrite Hs, He. repeat (case_match; [done|]). cbn.
  apply limits_by_usage. intros w. by rewrite !current_usage_of.
Qed.

Lemma current_usage_same s :
  same_term s (current_usage offset s now) /\ ID (current_usage offset s now) = ID s /\ forall w, start_of w (current_usage offset s now) = start_of w s.
Proof. unfold current_usage. cbv zeta. repeat case_match; by repeat split. Qed.

Lemma activated_by_starts s s' : (forall w, start_of w s' = start_of w s) -> IsWindowActivated s' = IsWindowActivated s.
Proof.
  intros H. pose proof (H Daily) as H1. pose proof (H Weekly) as H2. pose proof (H Monthly) as H3. cbn in H1, H2, H3.
  unfold IsWindowActivated. by rewrite H1, H2, H3.
Qed.

(** The windows that a first use starts. *)
Definition activated (s : UserSubscription) : UserSubscription :=
  s <| DailyWindowStart := Some (column (StartOfDay offset now)) |> <| WeeklyWindowStart := Some (column now) |>
    <| MonthlyWindowStart := Some (column now) |>.

Lemma activate_alone s c d :
  ID c = ID s -> IsWindowActivated c = false -> IsWindowActivated s = false ->
  alone (CheckAndActivateWindow offset c) (with_row (ID s) s d) = (Ok tt, with_row (ID s) (activated s) d).
Proof.
  intros Hid Hc Hs. unfold CheckAndActivateWindow, checkAndActivateWindowAt. cbn [run_alone exec_s]. rewrite Hc. unfold ActivateWindows.
  cbn [run_alone exec_s]. unfold activate_windows, update_where. rewrite Hid, with_row_row, Hs. cbn. by rewrite insert_insert_eq.
Qed.

Lemma reset_windows_none ws s b : (forall w, start_of w s = None) -> reset_windows offset ws now s b = Ret (Ok (s, b)).
Proof.
  intros H. pose proof (H Daily) as H1. pose proof (H Weekly) as H2. pose proof (H Monthly) as H3. cbn in H1, H2, H3.
  induction ws as [|w ws IH]; [done|]. cbn [reset_windows]. rewrite IH. destruct w; cbn;
    unfold automaticDailyWindowStartAt, automaticWeeklyWindowStartAt, automaticMonthlyWindowStartAt; by rewrite ?H1, ?H2, ?H3.
Qed.

Lemma not_activated s : IsWindowActivated s = false -> forall w, start_of w s = None.
Proof.
  unfold IsWindowActivated. intros H w. by destruct w; cbn; destruct (DailyWindowStart s), (WeeklyWindowStart s), (MonthlyWindowStart s).
Qed.

Lemma maintenance_alone s c d :
  from_table column s -> live s = true -> same_term s c -> ID c = ID s -> (forall w, start_of w c = start_of w s) ->
  alone (EnsureWindowMaintenance offset c) (with_row (ID s) s d) =
    let r := if IsWindowActivated s then maintained s else activated s in (Ok r, with_row (ID s) r d).
Proof.
  intros Ht Hl Hterm Hid Hst. unfold EnsureWindowMaintenance. rewrite (activated_by_starts s c) by done.
  destruct (IsWindowActivated s) eqn:Hact; cbn [negb].
  - cbn [bind]. rewrite run_alone_bind. unfold CheckAndResetWindows. cbn [run_alone exec_s]. rewrite run_alone_bind.
    destruct (reset_windows_alone [Daily; Weekly; Monthly] (ID s) s d) with (s := c) (r := s) (b := false) as (c' & b' & E & _);
      [repeat constructor; set_solver|done|done|done|done|auto|done|]. rewrite E. destruct b'; cbn [run_alone exec_s];
      rewrite Hid, find_row by (rewrite (proj2 (proj2 (maintained_row s))); exact Hl); done.
  - rewrite run_alone_bind, activate_alone by (done || by rewrite (activated_by_starts s c)). rewrite run_alone_bind.
    unfold CheckAndResetWindows. cbn [run_alone exec_s]. rewrite reset_windows_none by (intros w; rewrite Hst; by apply not_activated).
    cbn [bind run_alone exec_s]. rewrite Hid, find_row by exact Hl. done.
Qed.

(** ** The answer *)

(** A week is longer than the rounding of a timestamp, and a day's first
    moment, as the column has it, is of that day. *)
Context (near : column now - Second < now < column now + Second)
  (midnight : StartOfDay offset (column (StartOfDay offset now)) = StartOfDay offset now).

Lemma no_new_period s previous period :
  week <= period -> previous = column now -> automaticWindowStartAt offset s (Some previous) period now = None.
Proof.
  intros Hp ->. unfold automaticWindowStartAt, Before, time_Add. pose proof (windowResetAnchor_later offset s (column now)).
  destruct (Z.ltb_spec now (windowResetAnchor offset s (column now) + period)); [done|]. assert (Second < week) by reflexivity. lia.
Qed.

Lemma activated_usage w s : counted_usage w (activated s) = usage_of w s.
Proof.
  unfold counted_usage. destruct w; cbn [automatic_start].
  - unfold automaticDailyWindowStartAt. cbn. case_match; [|done]. rewrite midnight in *. unfold After in *.
    rewrite Z.ltb_irrefl in *. by repeat case_match.
  - unfold automaticWeeklyWindowStartAt. cbn [WeeklyWindowStart activated set_field]. by rewrite no_new_period.
  - unfold automaticMonthlyWindowStartAt. cbn [MonthlyWindowStart activated set_field]. by rewrite no_new_period.
Qed.

(** C32: The fast path and the maintenance agree.  A check of the current row of a
    subscription answers what [ValidateAndCheckLimits] answers at once, with
    the usage of ended windows left out: the first use and the resets that it
    writes before it looks again change nothing about the answer. *)
Theorem check_equals_fast_path s g d :
  from_table column s -> live s = true -> subs d !! ID s = Some s ->
  (alone (check_subscription offset s g) d).1 = (ValidateAndCheckLimits offset s g now).1.2.
Proof.
  intros Ht Hl Hs. assert (Hd : d = with_row (ID s) s d) by (unfold with_row; destruct d; cbn in *; by rewrite insert_id).
  rewrite Hd. clear Hs Hd. unfold check_subscription. cbn [run_alone exec_s].
  destruct (ValidateAndCheckLimits offset s g now) as [[needs e] c] eqn:Hv. destruct needs; [|done].
  assert (Hc : c = current_usage offset s now) by (revert Hv; unfold ValidateAndCheckLimits; repeat case_match; by intros [=]).
  destruct (current_usage_same s) as (Hterm & Hid & Hst). rewrite run_alone_bind, Hc, maintenance_alone by done. cbv zeta.
  cbn [run_alone exec_s]. set (r := if IsWindowActivated s then maintained s else activated s).
  assert (Hr : (ValidateAndCheckLimits offset r g now).1.2 = e).
  { change e with (true, e, c).1.2. rewrite <- Hv. subst r. destruct (IsWindowActivated s) eqn:Hact.
    - apply check_by_usage; [apply maintained_row..|]. intros w. apply maintained_usage.
    - apply check_by_usage; [done|done|]. intros w. rewrite activated_usage. unfold counted_usage.
      pose proof (not_activated s Hact w) as Hn. destruct w; cbn in *;
        unfold automaticDailyWindowStartAt, automaticWeeklyWindowStartAt, automaticMonthlyWindowStartAt; by rewrite Hn. }
  destruct (ValidateAndCheckLimits offset r g now) as [[n1 e1] c1]. exact Hr.
Qed.
End checks.

(** Weekly usage beyond its limit, in a week that is over. *)
Definition busy_subscription : UserSubscription :=
  demo_subscription <| WeeklyUsageUSD := 90000000000 |> <| DailyUsageUSD := 90000000000 |>.
Definition strict_group : Group := MkGroup SubscriptionTypeSubscription (Some f64_one) (Some (f64_of_int 5)) (Some (f64_of_int 20)) false.
Definition busy_db : sub_db := SubDB {[ 7 := busy_subscription ]} {[ 2 := strict_group ]} 8.

Lemma check_equals_fast_path_witness :
  (run_alone demo_offset demo_column demo_amount (demo_now + 8 * day) (check_subscription demo_offset busy_subscription strict_group) busy_db).1
    = None /\
  CheckUsageLimits busy_subscription strict_group f64_zero = Some ErrDailyLimitExceeded.
Proof.
  split; [|vm_compute; reflexivity].
  rewrite (check_equals_fast_path demo_offset demo_column demo_amount (demo_now + 8 * day)).
  - vm_compute. reflexivity.
  - vm_compute. split; reflexivity.
  - vm_compute. reflexivity.
  - intros []; reflexivity.
  - reflexivity.
  - reflexivity.
Defined.
End SubscriptionChecks.
