(* ===== verification/SubscriptionAssign.v ===== *)
(** * Subscription assignment: asking twice assigns once

    An assignment that finds the subscription of an earlier, equal one answers
    it: its term is compared in the column's precision and under the cap, so
    that rounding and the cap never look like a conflict. *)

From Stdlib Require Import QArith SpecFloat.
From S2P Require Import Prelude Programs GoStrings GoFloat AppErrors Subscriptions SubscriptionService SubscriptionSystem.

Module SubscriptionAssign.
Export SubscriptionSystem.
#[local] Open Scope Z_scope.

(** ** The row of a user and group *)

Lemma by_key_spec u g d :
  match by_key u g d with
  | Some s => same_key u g s = true /\ exists id, subs d !! id = Some s
  | None => forall id s, subs d !! id = Some s -> same_key u g s = false
  end.
Proof.
  unfold by_key. revert d. intros [m gs n]. cbn. 
  refine (map_fold_weak_ind (fun acc m => match acc with Some s => same_key u g s = true /\ exists id, m !! id = Some s
    | None => forall id s, m !! id = Some s -> same_key u g s = false end) _ _ _ _ m).
  - intros id s Hs. by rewrite lookup_empty in Hs.
  - intros i x m' r Hi IH. destruct (same_key u g x) eqn:Hx.
    + split; [done|]. exists i. apply lookup_insert_eq.
    + destruct r as [s|].
      * destruct IH as [H1 [id H2]]. split; [done|]. exists id. rewrite lookup_insert_ne; [done|]. intros ->. congruence.
      * intros id s [[<- <-]|[_ Hs]]%lookup_insert_Some; eauto.
Qed.

(** A new row is the one of its key. *)
Lemma by_key_new u g d row :
  by_key u g d = None -> same_key u g row = true ->
  by_key u g (d <| subs := <[next_sub d := row]> (subs d) |> <| next_sub := next_sub d + 1 |>) = Some row.
Proof.
  intros Hn Hr. set (d1 := d <| subs := _ |> <| next_sub := _ |>). pose proof (by_key_spec u g d1) as H1.
  change (subs d1) with (<[next_sub d := row]> (subs d)) in H1.
  pose proof (by_key_spec u g d) as H0. rewrite Hn in H0. destruct (by_key u g d1) as [s|].
  - destruct H1 as [Hk [id [[_ E]|[_ Hs]]%lookup_insert_Some]]; [by subst|]. by rewrite (H0 id s Hs) in Hk.
  - rewrite (H1 (next_sub d) row) in Hr; [done|]. apply lookup_insert_eq.
Qed.

Section assign.
Context (offset : Time -> Duration) (column : Time -> Time) (numeric : float64 -> Q).

(** One offset all the year, and a column that rounds. *)
Context (o : Duration) (fixed : forall t, offset t = o)
  (by_days : forall t n, column (t + n * day) = column t + n * day) (monotone : forall t u, t <= u -> column t <= column u)
  (whole : column MaxExpiresAt = MaxExpiresAt).

Lemma AddDays_fixed t n : AddDays offset t n = t + n * day.
Proof.
  unfold AddDays, Date, wall. rewrite !fixed. destruct (Z.eqb_spec o 0); lia.
Qed.

(** The cap and the rounding commute. *)
Lemma expected_expiry t n : capped (AddDays offset (column t) n) = column (capped (AddDays offset t n)).
Proof.
  rewrite !AddDays_fixed. unfold capped, After. rewrite <- by_days.
  destruct (Z.ltb_spec MaxExpiresAt (t + n * day)) as [H|H].
  - rewrite whole. assert (H1 : MaxExpiresAt <= column (t + n * day)) by (rewrite <- whole; apply monotone; lia).
    destruct (Z.ltb_spec MaxExpiresAt (column (t + n * day))); lia.
  - assert (H1 : column (t + n * day) <= MaxExpiresAt) by (rewrite <- whole; apply monotone; lia).
    destruct (Z.ltb_spec MaxExpiresAt (column (t + n * day))); [lia|done].
Qed.

Notation alone := (run_alone offset column numeric).

(** The row of a first assignment. *)
Definition assigned (input : AssignSubscriptionInput) (now : Time) (d : sub_db) : UserSubscription :=
  Subscription (next_sub d) (in_UserID input) (in_GroupID input) (column now)
    (column (capped (AddDays offset now (normalizeAssignValidityDays (ValidityDays input))))) SubscriptionStatusActive None None None
    0 0 0 (if 0 <? in_AssignedBy input then Some (in_AssignedBy input) else None) (column now) (in_Notes input) None.

Definition with_assigned (input : AssignSubscriptionInput) (now : Time) (d : sub_db) : sub_db :=
  d <| subs := <[next_sub d := assigned input now d]> (subs d) |> <| next_sub := next_sub d + 1 |>.

Lemma first_assignment input now d g :
  groups d !! in_GroupID input = Some g -> group_deleted g = false -> IsSubscriptionType g = true ->
  by_key (in_UserID input) (in_GroupID input) d = None ->
  alone now (assignSubscriptionWithReuse offset input) d = (Ok (assigned input now d, false), with_assigned input now d).
Proof.
  intros Hg Hdel Hty Hk. unfold assignSubscriptionWithReuse, with_group. cbn [run_alone exec_s]. rewrite Hg, Hdel, Hty.
  cbn [negb run_alone exec_s]. rewrite Hk. cbn [is_set]. rewrite run_alone_bind. unfold createSubscription. cbn [run_alone exec_s].
  unfold repo_Create. cbn [UserID GroupID]. rewrite Hk. cbn.
  assert (Hz : (if IsZero now then now else now) = now) by (by destruct (IsZero now)). rewrite Hz.
  unfold find_by_id. cbn. rewrite lookup_insert_eq. done.
Qed.

(** Assigning is idempotent.  When a user's first assignment to a group is
    asked for again before its term is over, with the same notes and the same
    days, or days that are normalised to the same, the existing subscription
    is answered, as reused, and nothing is written. *)
Theorem assign_again_reuses input input' now later d g :
  groups d !! in_GroupID input = Some g -> group_deleted g = false -> IsSubscriptionType g = true ->
  by_key (in_UserID input) (in_GroupID input) d = None ->
  in_UserID input' = in_UserID input -> in_GroupID input' = in_GroupID input -> in_Notes input' = in_Notes input ->
  normalizeAssignValidityDays (ValidityDays input') = normalizeAssignValidityDays (ValidityDays input) ->
  later < column (capped (AddDays offset now (normalizeAssignValidityDays (ValidityDays input)))) ->
  exists s, (alone now (assignSubscriptionWithReuse offset input) d).1 = Ok (s, false) /\
    let d1 := (alone now (assignSubscriptionWithReuse offset input) d).2 in
    subs d1 !! ID s = Some s /\ alone later (assignSubscriptionWithReuse offset input') d1 = (Ok (s, true), d1).
Proof.
  intros Hg Hdel Hty Hk Hu' Hg' Hn' Hd' Hlater. exists (assigned input now d). rewrite (first_assignment input now d g) by done.
  split; [done|]. cbn [snd]. split; [apply lookup_insert_eq|].
  assert (Hkey : by_key (in_UserID input) (in_GroupID input) (with_assigned input now d) = Some (assigned input now d)).
  { apply by_key_new; [done|]. unfold same_key, live. cbn. by rewrite !Z.eqb_refl. }
  unfold assignSubscriptionWithReuse, with_group. cbn [run_alone exec_s]. rewrite Hg', Hu'.
  change (groups (with_assigned input now d)) with (groups d). rewrite Hg, Hdel, Hty. cbn [negb run_alone exec_s].
  rewrite Hkey. cbn [is_set run_alone exec_s]. unfold find_by_user_and_group. rewrite Hkey. cbn [run_alone exec_s].
  assert (Hover : (Status (assigned input now d) =s SubscriptionStatusExpired) ||
      (negb (Status (assigned input now d) =s SubscriptionStatusSuspended) && negb (After (ExpiresAt (assigned input now d)) later)) = false).
  { cbn [assigned Status ExpiresAt]. unfold After. replace (later <? _) with true by (symmetry; apply Z.ltb_lt; lia). done. }
  rewrite Hover. unfold detectAssignSemanticConflict. cbn [assigned StartsAt ExpiresAt Notes]. rewrite Hd', Hn', expected_expiry.
  unfold time_Equal. rewrite Z.eqb_refl, andb_false_r, String.eqb_refl. done.
Qed.
End assign.

Definition demo_input : AssignSubscriptionInput := AssignInput 3 2 0 0 "trial".
Definition no_subscriptions : sub_db := SubDB ∅ {[ 2 := demo_group ]} 7.
Definition asked_at : Time := demo_now + 123456789.

Lemma assign_again_reuses_witness :
  exists s, ExpiresAt s = demo_column asked_at + 30 * day /\
    let d1 := (run_alone demo_offset demo_column demo_amount asked_at (assignSubscriptionWithReuse demo_offset demo_input) no_subscriptions).2 in
    run_alone demo_offset demo_column demo_amount (asked_at + 29 * day)
      (assignSubscriptionWithReuse demo_offset (AssignInput 3 2 30 1 "trial")) d1 = (Ok (s, true), d1).
Proof.
  destruct (assign_again_reuses demo_offset demo_column demo_amount (8 * 3600 * Second)) with (input := demo_input)
    (input' := AssignInput 3 2 30 1 "trial") (now := asked_at) (later := asked_at + 29 * day) (d := no_subscriptions) (g := demo_group)
    as (s & Hs & _ & H); try (vm_compute; reflexivity).
  - intros t n. unfold demo_column. replace (t + n * day) with (t + (n * 86400000000) * 1000) by (unfold day, Second; lia).
    rewrite Z.div_add by lia. unfold day, Second. lia.
  - intros t u Htu. unfold demo_column. assert (t / 1000 <= u / 1000) by (apply Z.div_le_mono; lia). lia.
  - exists s. split; [|exact H].
    replace (run_alone demo_offset demo_column demo_amount asked_at (assignSubscriptionWithReuse demo_offset demo_input) no_subscriptions).1
      with (Ok (E := error) (assigned demo_offset demo_column demo_input asked_at no_subscriptions, false)) in Hs by (vm_compute; reflexivity).
    injection Hs as <-. vm_compute. reflexivity.
Defined.
End SubscriptionAssign.
