(* ===== verification/AccountQuota.v ===== *)
(** * Account quotas

    The quotas of an upstream account live in its [extra] column, a JSON object
    ([repository/account_repo.go]): a total, and a daily and a weekly quota
    whose period rolls (24 hours, 168 hours from its start) or ends at a fixed
    hour of a zone.  One statement counts an amount in all three.

    JSON numbers are exact decimals; [at_zone] and [from_zone] are PostgreSQL's
    [AT TIME ZONE], from a time to the wall clock of a named zone and back.
    What the theorem on reset points needs of them is the class [Zone], which a
    zone with a fixed offset and one that changes to or from summer time
    satisfy. *)

From Stdlib Require Import QArith SpecFloat.
From S2P Require Import Prelude GoStrings GoFloat AppErrors.

Module AccountQuota.
Export GoFloat AppErrors.
#[local] Open Scope Z_scope.

Definition ErrAccountNotFound : error := New 404 "ACCOUNT_NOT_FOUND" "account not found".

(** The members of [extra] that quotas use; [p_day] is used by the weekly one. *)
Record period := Period {
  p_limit : option Q;
  p_used : option Q;
  p_start : option Time;
  p_mode : option string;
  p_reset_at : option Time;
  p_hour : option Z;
  p_day : option Z
}.
#[export] Instance period_struct : Struct period := fun p =>
  Period (p_limit p) (p_used p) (p_start p) (p_mode p) (p_reset_at p) (p_hour p) (p_day p).

Record account_extra := Extra {
  quota_used : option Q;
  quota_limit : option Q;
  daily : period;
  weekly : period;
  quota_reset_timezone : option string
}.
#[export] Instance account_extra_struct : Struct account_extra := fun e =>
  Extra (quota_used e) (quota_limit e) (daily e) (weekly e) (quota_reset_timezone e).

(** [COALESCE(.., 0)]. *)
Definition amount_or_0 (q : option Q) : Q := default 0%Q q.

Definition is_positive (q : option Q) : bool := negb (Qle_bool (amount_or_0 q) 0).

Definition fixed_mode (p : period) : bool := default "rolling" (p_mode p) =s "fixed".

(** 1970-01-01. *)
Definition epoch : Time := 62135596800 * Second.

(** [dailyExpiredExpr] and [weeklyExpiredExpr]. *)
Definition expired (length : Duration) (p : period) (now : Time) : bool :=
  if fixed_mode p then default epoch (p_reset_at p) <=? now
  else default epoch (p_start p) + length <=? now.
Definition dailyExpiredExpr (p : period) (now : Time) : bool := expired (24 * Hour) p now.
Definition weeklyExpiredExpr (p : period) (now : Time) : bool := expired (168 * Hour) p now.

Section zones.
Context (at_zone from_zone : string -> Time -> Time).

Definition a_day : Duration := 24 * Hour.

(** [date_trunc('day', ..)] and the day of the week, Sunday 0, on the wall. *)
Definition trunc_day (w : Time) : Time := w / a_day * a_day.
Definition dow (w : Time) : Z := (w / a_day + 1) mod 7.

(** Text of whole seconds. *)
Definition to_seconds (t : Time) : Time := t / Second * Second.

Definition zone_of (e : account_extra) : string := default "UTC" (quota_reset_timezone e).

(** The reset hour of the day of [now], on the wall. *)
Definition reset_point (z : string) (p : period) (now : Time) : Time :=
  trunc_day (at_zone z now) + default 0 (p_hour p) * Hour.

Definition nextDailyResetAtExpr (e : account_extra) (now : Time) : option Time :=
  let z := zone_of e in
  let p := daily e in
  if fixed_mode p then
    Some (to_seconds
      (if from_zone z (reset_point z p now) <=? now then from_zone z (reset_point z p now + a_day)
       else from_zone z (reset_point z p now)))
  else None.

(** SQL's [%] on the days is not negative here for days from 0 on. *)
Definition days_forward (z : string) (p : period) (now : Time) : Z :=
  Z.rem (default 1 (p_day p) - dow (at_zone z now) + 7) 7.

Definition nextWeeklyResetAtExpr (e : account_extra) (now : Time) : option Time :=
  let z := zone_of e in
  let p := weekly e in
  if fixed_mode p then
    Some (to_seconds
      (if (days_forward z p now =? 0) && (from_zone z (reset_point z p now) <=? now)
       then from_zone z (reset_point z p now + 7 * a_day)
       else from_zone z (reset_point z p now + days_forward z p now * a_day)))
  else None.

(** One period, [$1] being [amount]. *)
Definition count_period (is_expired : bool) (next : option Time) (amount : Q) (now : Time) (p : period) : period :=
  if is_positive (p_limit p) then
    let p' := p <| p_used := Some (if is_expired then amount else amount_or_0 (p_used p) + amount)%Q |>
                <| p_start := Some (if is_expired then now else default now (p_start p)) |> in
    match next with
    | Some t => if is_expired then p' <| p_reset_at := Some t |> else p'
    | None => p'
    end
  else p.

(** The [UPDATE accounts SET extra = ..] of [IncrementQuotaUsed] and of
    [incrementUsageBillingAccountQuota]. *)
Definition count_quota (amount : Q) (now : Time) (e : account_extra) : account_extra :=
  Extra (Some (amount_or_0 (quota_used e) + amount)%Q) (quota_limit e)
    (count_period (dailyExpiredExpr (daily e) now) (nextDailyResetAtExpr e now) amount now (daily e))
    (count_period (weeklyExpiredExpr (weekly e) now) (nextWeeklyResetAtExpr e now) amount now (weekly e))
    (quota_reset_timezone e).

(** [ResetQuotaUsedAndClearRateLimitCooldown], its quota part. *)
Definition reset_quota (e : account_extra) : account_extra :=
  let cleared p := p <| p_used := Some 0%Q |> <| p_start := None |> <| p_reset_at := None |> in
  Extra (Some 0%Q) (quota_limit e) (cleared (daily e)) (cleared (weekly e)) (quota_reset_timezone e).

(** ** The table *)

Record account_row := Account { extra : account_extra; account_deleted : bool }.

(** The accounts, and the accounts of the pending change events. *)
Record account_db := AccountDB { accounts : gmap Z account_row; outbox : list Z }.

Definition enqueue_changed (id : Z) (d : account_db) : account_db :=
  if bool_decide (id ∈ outbox d) then d else AccountDB (accounts d) (outbox d ++ [id]).

Definition with_extra (id : Z) (e : account_extra) (d : account_db) : account_db :=
  AccountDB (<[id := Account e false]> (accounts d)) (outbox d).

Definition scan (q : option Q) : float64 := f64_of_ratio (Qnum (amount_or_0 q)) (Qden (amount_or_0 q)).

Record AccountQuotaState := QuotaState {
  TotalUsed : float64;
  TotalLimit : float64;
  DailyUsed : float64;
  DailyLimit : float64;
  WeeklyUsed : float64;
  WeeklyLimit : float64
}.

Definition state_of (e : account_extra) : AccountQuotaState :=
  QuotaState (scan (quota_used e)) (scan (quota_limit e)) (scan (p_used (daily e))) (scan (p_limit (daily e)))
    (scan (p_used (weekly e))) (scan (p_limit (weekly e))).

Definition crossed (limit used amount : float64) : bool :=
  ((f64_zero <? limit) && (limit <=? used) && (used - amount <? limit))%f64.

Section statements.
Context (numeric : float64 -> Q).

Definition incrementUsageBillingAccountQuota (id : Z) (amount : float64) (now : Time) (d : account_db)
    : outcome (AccountQuotaState * account_db) error :=
  match accounts d !! id with
  | Some a =>
      if account_deleted a then Err ErrAccountNotFound
      else
        let e := count_quota (numeric amount) now (extra a) in
        let d := with_extra id e d in
        let s := state_of e in
        Ok (s, if crossed (TotalLimit s) (TotalUsed s) amount || crossed (DailyLimit s) (DailyUsed s) amount
                  || crossed (WeeklyLimit s) (WeeklyUsed s) amount
               then enqueue_changed id d else d)
  | None => Err ErrAccountNotFound
  end.

(** Outside a transaction, for the total quota only. *)
Definition IncrementQuotaUsed (id : Z) (amount : float64) (now : Time) (d : account_db) : account_db :=
  match accounts d !! id with
  | Some a =>
      if account_deleted a then d
      else
        let e := count_quota (numeric amount) now (extra a) in
        let d := with_extra id e d in
        if crossed (scan (quota_limit e)) (scan (quota_used e)) amount then enqueue_changed id d else d
  | None => d
  end.

Definition ResetQuotaUsed (id : Z) (d : account_db) : outcome unit error * account_db :=
  match accounts d !! id with
  | Some a =>
      if account_deleted a then (Err ErrAccountNotFound, d)
      else (Ok tt, enqueue_changed id (with_extra id (reset_quota (extra a)) d))
  | None => (Err ErrAccountNotFound, d)
  end.
End statements.
End zones.

(** ** Reset points *)

(** A zone whose clocks are set forward and back by at most [s], an hour at
    most: [f] from a time to the wall clock, [g] back.  An hour that the wall
    shows twice is taken the second time, one that it skips is counted with the
    offset before the change. *)
Class Zone (f g : Time -> Time) (s : Duration) : Prop := {
  zone_shift : 0 <= s <= Hour;
  zone_round : forall u, f (g (f u)) = f u;
  zone_later : forall t w, f t < w -> t < g w;
  zone_earlier : forall t w, w + s <= f t -> g w <= t;
  zone_drift : forall t w n, 0 <= n <= 7 * a_day -> w <= f t + n -> g w <= t + n + s;
  zone_order : forall w w', w + s <= w' -> g w <= g w';
  zone_whole : forall w, w mod Second = 0 -> g w mod Second = 0
}.

(** The offset changes once, at [T], from [o1] to [o2]. *)
Definition zone_at (T : Time) (o1 o2 : Duration) (t : Time) : Time := if t <? T then t + o1 else t + o2.
Definition zone_from (T : Time) (o1 o2 : Duration) (w : Time) : Time := if w <? T + o2 then w - o1 else w - o2.

#[export] Instance zone_with_change T o1 o2 s :
  0 <= s <= Hour -> Z.abs (o1 - o2) <= s -> o1 mod Second = 0 -> o2 mod Second = 0 ->
  Zone (zone_at T o1 o2) (zone_from T o1 o2) s.
Proof.
  intros Hs Ho W1 W2.
  assert (Hwhole : forall w o, w mod Second = 0 -> o mod Second = 0 -> (w - o) mod Second = 0).
  { intros w o Hw Ho'. by rewrite Zminus_mod, Hw, Ho'. }
  split; unfold zone_at, zone_from; intros; repeat case_match; auto; lia.
Qed.

(** The hour [h] of the day [n], on the wall. *)
Definition point (n h : Z) : Time := n * a_day + h * Hour.

Lemma to_seconds_id t : t mod Second = 0 -> to_seconds t = t.
Proof.
  unfold to_seconds. intros H. pose proof (Z.div_mod t Second ltac:(by compute)) as Hd. rewrite H in Hd. lia.
Qed.

Lemma point_whole n h : point n h mod Second = 0.
Proof.
  apply Z.mod_divide; [by compute|]. exists (n * (24 * 3600) + h * 3600). unfold point, a_day, Hour, Minute. ring.
Qed.

Lemma hour_small h : 0 <= h <= 23 -> 0 <= h * Hour <= a_day - Hour.
Proof. unfold a_day, Hour, Minute, Second. lia. Qed.

Lemma dow_point n h : 0 <= h <= 23 -> dow (point n h) = (n + 1) mod 7.
Proof.
  intros Hh%hour_small. unfold dow, point. rewrite (Z.add_comm (n * a_day)), Z.div_add by (by compute).
  rewrite Z.div_small; [done|]. unfold a_day, Hour, Minute, Second in *. lia.
Qed.

(** The days forward are those to the next [wd], today counted. *)
Lemma days_to wd n m :
  0 <= wd <= 6 -> ((m + 1) mod 7 = wd <-> (m - n) mod 7 = (wd - (n + 1) mod 7 + 7) mod 7).
Proof.
  intros Hwd. rewrite <- (Z.mod_small wd 7) at 1 by lia.
  pose proof (Z.div_mod (n + 1) 7 ltac:(lia)). set (q := (n + 1) / 7) in *. set (r := (n + 1) mod 7) in *.
  replace (wd - r + 7) with (wd - (n + 1) + (q + 1) * 7) by lia. rewrite Z_mod_plus_full.
  rewrite !Z.cong_iff_0. by replace (m - n - (wd - (n + 1))) with (m + 1 - wd) by lia.
Qed.

Section zone.
Context (at_zone from_zone : string -> Time -> Time) (z : string) (s : Duration).
Context `{!Zone (at_zone z) (from_zone z) s}.

(** The day of [now] on the wall. *)
Definition today (now : Time) : Z := at_zone z now / a_day.

Lemma today_bounds now : point (today now) 0 <= at_zone z now < point (today now + 1) 0.
Proof.
  unfold today, point. pose proof (Z.div_mod (at_zone z now) a_day ltac:(by compute)).
  pose proof (Z.mod_pos_bound (at_zone z now) a_day ltac:(by compute)). lia.
Qed.

Lemma reset_point_eq p now h k :
  p_hour p = Some h -> reset_point at_zone z p now + k * a_day = point (today now + k) h.
Proof. intros Hh. unfold reset_point, trunc_day, point, today. rewrite Hh. cbn. lia. Qed.

Lemma point_mono n m h : n <= m -> from_zone z (point n h) <= from_zone z (point m h).
Proof.
  intros [Hlt| ->]%Zle_lt_or_eq; [|lia]. apply zone_order. pose proof zone_shift as Hs. unfold point.
  unfold a_day, Hour, Minute, Second in *. nia.
Qed.

Section hour.
Context (now : Time) (h : Z) (Hh : 0 <= h <= 23).

Lemma point_after n : today now < n -> now < from_zone z (point n h).
Proof.
  intros Hn. apply zone_later. pose proof (today_bounds now). pose proof (hour_small h Hh).
  unfold point in *. unfold a_day, Hour, Minute, Second in *. nia.
Qed.

Lemma point_before n : n < today now -> from_zone z (point n h) <= now.
Proof.
  intros Hn. apply zone_earlier. pose proof (today_bounds now). pose proof (hour_small h Hh). pose proof zone_shift as Hs.
  unfold point in *. unfold a_day, Hour, Minute, Second in *. nia.
Qed.

Lemma point_near n k :
  0 <= k <= 7 -> n < today now + k \/ n = today now + k /\ from_zone z (point (today now) h) <= now ->
  from_zone z (point n h) <= now + k * a_day + s.
Proof.
  intros Hk Hn. apply zone_drift; [unfold a_day, Hour, Minute, Second; lia|].
  pose proof (today_bounds now). pose proof (hour_small h Hh). destruct Hn as [Hn|[-> Hpast]].
  - unfold point in *. unfold a_day, Hour, Minute, Second in *. nia.
  - destruct (Z.le_gt_cases (point (today now) h) (at_zone z now)) as [Hle|Hgt]; [unfold point in *; lia|].
    apply zone_later in Hgt. lia.
Qed.

(** [n] is the first day that suits whose hour is still to come. *)
Definition first_point (ok : Z -> Prop) (n : Z) : Prop :=
  ok n /\ now < from_zone z (point n h) /\
  forall m, ok m -> now < from_zone z (point m h) -> from_zone z (point n h) <= from_zone z (point m h).

Lemma first_point_intro (ok : Z -> Prop) n :
  ok n -> (today now < n \/ n = today now /\ now < from_zone z (point n h)) ->
  (forall m, ok m -> today now < m \/ m = today now /\ now < from_zone z (point m h) -> n <= m) -> first_point ok n.
Proof.
  intros Hok Hn Hmin. split; [done|]. split.
  - destruct Hn as [|[_ ?]]; [by apply point_after|done].
  - intros m Hm Hlt. apply point_mono, Hmin; [done|].
    destruct (Z.lt_total m (today now)) as [Hl|[->|?]]; [|by right|by left]. apply point_before in Hl. lia.
Qed.
End hour.

Lemma next_daily e now h :
  zone_of e = z -> fixed_mode (daily e) = true -> p_hour (daily e) = Some h -> 0 <= h <= 23 ->
  exists n, nextDailyResetAtExpr at_zone from_zone e now = Some (from_zone z (point n h)) /\
    first_point now h (fun _ => True) n /\ from_zone z (point n h) <= now + a_day + s.
Proof.
  intros Hz Hf Hp Hh. unfold nextDailyResetAtExpr. rewrite Hf, Hz.
  pose proof (reset_point_eq (daily e) now h 0 Hp) as E0. rewrite Z.mul_0_l, !Z.add_0_r in E0.
  pose proof (reset_point_eq (daily e) now h 1 Hp) as E1. rewrite Z.mul_1_l in E1. rewrite E1, E0.
  destruct (Z.leb_spec (from_zone z (point (today now) h)) now) as [Hp0|Hp0];
    (eexists; split; [by rewrite to_seconds_id by apply zone_whole, point_whole|split]).
  - apply first_point_intro; [done|done|lia|intros m _ [?|[-> ?]]; lia].
  - replace a_day with (1 * a_day) by lia. apply point_near; auto; lia.
  - apply first_point_intro; [done|done|lia|intros m _ [?|[-> ?]]; lia].
  - replace a_day with (1 * a_day) by lia. apply point_near; auto; lia.
Qed.

Lemma next_weekly e now h wd :
  zone_of e = z -> fixed_mode (weekly e) = true -> p_hour (weekly e) = Some h -> p_day (weekly e) = Some wd ->
  0 <= h <= 23 -> 0 <= wd <= 6 ->
  exists n, nextWeeklyResetAtExpr at_zone from_zone e now = Some (from_zone z (point n h)) /\
    first_point now h (fun m => (m + 1) mod 7 = wd) n /\ from_zone z (point n h) <= now + 7 * a_day + s.
Proof.
  intros Hz Hf Hp Hd Hh Hwd. unfold nextWeeklyResetAtExpr. rewrite Hf, Hz.
  set (df := days_forward at_zone z (weekly e) now).
  pose proof (reset_point_eq (weekly e) now h 0 Hp) as E0. rewrite Z.mul_0_l, !Z.add_0_r in E0.
  rewrite (reset_point_eq (weekly e) now h df Hp), (reset_point_eq (weekly e) now h 7 Hp), E0.
  assert (Hdf : df = (wd - (today now + 1) mod 7 + 7) mod 7).
  { subst df. unfold days_forward, dow. rewrite Hd. apply Z.rem_mod_nonneg; [|done].
    pose proof (Z.mod_pos_bound (today now + 1) 7). fold (today now). cbn [default]. lia. }
  pose proof (Z.mod_pos_bound (wd - (today now + 1) mod 7 + 7) 7 ltac:(lia)) as Bdf. rewrite <- Hdf in Bdf.
  assert (Hto : forall m, (m + 1) mod 7 = wd <-> (m - today now) mod 7 = df) by (intros m; rewrite Hdf; by apply days_to).
  assert (Hmod : forall m, (m + 1) mod 7 = wd -> m = today now + df + 7 * ((m - today now) / 7)).
  { intros m Hm%Hto. pose proof (Z.div_mod (m - today now) 7). lia. }
  destruct (Z.eqb_spec df 0) as [H0|H0]; cbn [andb];
    [destruct (Z.leb_spec (from_zone z (point (today now) h)) now) as [Hp0|Hp0]|];
    (eexists; split; [by rewrite to_seconds_id by apply zone_whole, point_whole|split]).
  - apply first_point_intro; [done| |lia|].
    + apply Hto. by replace (today now + 7 - today now) with 7 by lia.
    + intros m Hm%Hmod [?|[-> ?]]; lia.
  - apply point_near; auto; lia.
  - rewrite H0, Z.add_0_r. apply first_point_intro; [done| |lia|].
    + apply Hto. by rewrite Z.sub_diag.
    + intros m Hm%Hmod [?|[-> ?]]; lia.
  - rewrite H0. apply point_near; lia.
  - apply first_point_intro; [done| |lia|].
    + apply Hto. replace (today now + df - today now) with df by lia. apply Z.mod_small. lia.
    + intros m Hm%Hmod [?|[-> ?]]; lia.
  - apply point_near; lia.
Qed.

(** C33: A fixed quota is reset at the next moment of the configured hour, the
    weekly one at that of the configured weekday.  In any zone whose clocks are
    set forward or back by at most [s], an hour or less: the reset is the
    moment that [from_zone] gives to the configured hour of some day (of the
    right weekday), it is strictly after now, it is the first such moment after
    now, and it is at most a day or a week and [s] away.  When the wall clock
    of the zone ever shows that hour of that day (it does unless the clocks are
    set forward over it), it shows it at the reset.  Today's hour may have
    passed or not, and the clocks may change before the reset, so that the day
    has 23 or 25 hours. *)
Theorem resets_at_next_point e now hd hw wd :
  zone_of e = z -> fixed_mode (daily e) = true -> fixed_mode (weekly e) = true ->
  p_hour (daily e) = Some hd -> p_hour (weekly e) = Some hw -> p_day (weekly e) = Some wd ->
  0 <= hd <= 23 -> 0 <= hw <= 23 -> 0 <= wd <= 6 ->
  let reset n h := from_zone z (point n h) in
  let shown n h := (exists u, at_zone z u = point n h) -> at_zone z (reset n h) = point n h in
  (exists n, nextDailyResetAtExpr at_zone from_zone e now = Some (reset n hd) /\
     now < reset n hd <= now + a_day + s /\ shown n hd /\
     forall m, now < reset m hd -> reset n hd <= reset m hd) /\
  (exists n, nextWeeklyResetAtExpr at_zone from_zone e now = Some (reset n hw) /\ dow (point n hw) = wd /\
     now < reset n hw <= now + 7 * a_day + s /\ shown n hw /\
     forall m, dow (point m hw) = wd -> now < reset m hw -> reset n hw <= reset m hw).
Proof.
  intros Hz Hfd Hfw Hhd Hhw Hwd Bd Bw Bwd reset shown.
  assert (Hshown : forall n h, shown n h) by (intros n h [u Hu]; unfold reset; rewrite <- Hu; apply zone_round). split.
  - destruct (next_daily e now hd Hz Hfd Hhd Bd) as (n & Hn & (_ & Hlt & Hmin) & Hle). exists n.
    split; [exact Hn|]. split; [done|]. split; [done|]. intros m. by apply Hmin.
  - destruct (next_weekly e now hw wd Hz Hfw Hhw Hwd Bw Bwd) as (n & Hn & (Hd & Hlt & Hmin) & Hle). exists n.
    rewrite dow_point by done. split; [exact Hn|]. split; [done|]. split; [done|]. split; [done|]. intros m. rewrite dow_point by done. apply Hmin.
Qed.
End zone.

(** New York, every day at noon and every Sunday at noon, asked on Saturday,
    2026-10-31, at noon, when the quota is due: the clocks are set back in the
    night, and the next noon is 25 hours away.  Shanghai keeps its offset. *)
Lemma resets_at_next_point_witness :
  let noon day := Period None None None (Some "fixed") None (Some 12) day in
  let e zone := Extra None None (noon None) (noon (Some 0)) (Some zone) in
  let change := 63929109600 * Second in
  let at_zone zone := if zone =s "America/New_York" then zone_at change (-4 * Hour) (-5 * Hour) else zone_at 0 (8 * Hour) (8 * Hour) in
  let from_zone zone := if zone =s "America/New_York" then zone_from change (-4 * Hour) (-5 * Hour) else zone_from 0 (8 * Hour) (8 * Hour) in
  let now := 63929059200 * Second in
  dow (at_zone "America/New_York" now) = 6 /\
  (exists n, nextDailyResetAtExpr at_zone from_zone (e "America/New_York") now = Some (from_zone "America/New_York" (point n 12)) /\
     from_zone "America/New_York" (point n 12) = now + 25 * Hour) /\
  (exists n, nextWeeklyResetAtExpr at_zone from_zone (e "America/New_York") now = Some (from_zone "America/New_York" (point n 12)) /\
     from_zone "America/New_York" (point n 12) = now + 25 * Hour) /\
  (exists n, nextDailyResetAtExpr at_zone from_zone (e "Asia/Shanghai") now = Some (from_zone "Asia/Shanghai" (point n 12)) /\
     from_zone "Asia/Shanghai" (point n 12) <= now + a_day).
Proof.
  intros noon e change at_zone from_zone now. split; [vm_compute; reflexivity|].
  assert (Zny : Zone (at_zone "America/New_York") (from_zone "America/New_York") Hour)
    by (apply zone_with_change; [split; by compute|by compute|reflexivity|reflexivity]).
  assert (Zsh : Zone (at_zone "Asia/Shanghai") (from_zone "Asia/Shanghai") 0)
    by (apply zone_with_change; [split; by compute|by compute|reflexivity|reflexivity]).
  destruct (resets_at_next_point at_zone from_zone "America/New_York" Hour (e "America/New_York") now 12 12 0)
    as [(n1 & Hn1 & _) (n2 & Hn2 & _)]; try reflexivity; try lia.
  destruct (resets_at_next_point at_zone from_zone "Asia/Shanghai" 0 (e "Asia/Shanghai") now 12 12 0)
    as [(n3 & Hn3 & [_ Hle] & _) _]; try reflexivity; try lia.
  split; [|split].
  - exists n1. split; [exact Hn1|].
    assert (Ht : nextDailyResetAtExpr at_zone from_zone (e "America/New_York") now = Some (now + 25 * Hour)) by (vm_compute; reflexivity).
    rewrite Ht in Hn1. by injection Hn1.
  - exists n2. split; [exact Hn2|].
    assert (Ht : nextWeeklyResetAtExpr at_zone from_zone (e "America/New_York") now = Some (now + 25 * Hour)) by (vm_compute; reflexivity).
    rewrite Ht in Hn2. by injection Hn2.
  - exists n3. split; [exact Hn3|]. lia.
Defined.
End AccountQuota.
