(* ===== verification/UsageApply.v ===== *)
(** * Usage billing of requests

    One transaction charges a finished request ([service/usage_billing.go],
    [repository/usage_billing_repo.go], [service/gateway_usage_billing.go]): it
    claims the request id, then counts the cost in the user's subscription or
    balance, in the quota and the rate windows of the API key and in the quota
    of the upstream account.  Concurrent transactions are serialised by the
    claimed row and the rows they update, so one is an atomic step.

    [numeric] is the decimal that stands for a [float64]: the shortest one that
    reads back as it, in the SQL driver and in [decimal.NewFromFloat] alike. *)

From Stdlib Require Import QArith Lqa SpecFloat.
From S2P Require Import Prelude GoStrings GoFloat AppErrors UsageBilling Subscriptions AccountQuota.

Module UsageApply.
Export GoFloat AppErrors AccountQuota.
Import UsageBilling Subscriptions.
#[local] Open Scope Z_scope.

Definition ErrAPIKeyNotFound : error := New 404 "API_KEY_NOT_FOUND" "api key not found".
Definition StatusAPIKeyActive : string := "active".
Definition StatusAPIKeyQuotaExhausted : string := "quota_exhausted".
Definition AccountTypeAPIKey : string := "apikey".
Definition AccountTypeBedrock : string := "bedrock".

Record UsageBillingCommand := Command {
  RequestID : string;
  APIKeyID : Z;
  RequestFingerprint : string;
  RequestPayloadHash : string;
  UserID : Z;
  AccountID : Z;
  SubscriptionID : option Z;
  AccountType : string;
  Model : string;
  ServiceTier : string;
  ReasoningEffort : string;
  BillingType : Z;
  InputTokens : Z;
  OutputTokens : Z;
  CacheCreationTokens : Z;
  CacheReadTokens : Z;
  ImageCount : Z;
  MediaType : string;
  BalanceCost : float64;
  SubscriptionCost : float64;
  APIKeyQuotaCost : float64;
  APIKeyRateLimitCost : float64;
  AccountQuotaCost : float64
}.
#[export] Instance command_struct : Struct UsageBillingCommand := fun c =>
  Command (RequestID c) (APIKeyID c) (RequestFingerprint c) (RequestPayloadHash c) (UserID c) (AccountID c) (SubscriptionID c)
    (AccountType c) (Model c) (ServiceTier c) (ReasoningEffort c) (BillingType c) (InputTokens c) (OutputTokens c)
    (CacheCreationTokens c) (CacheReadTokens c) (ImageCount c) (MediaType c) (BalanceCost c) (SubscriptionCost c)
    (APIKeyQuotaCost c) (APIKeyRateLimitCost c) (AccountQuotaCost c).

Record UsageBillingApplyResult := ApplyResult {
  Applied : bool;
  APIKeyQuotaExhausted : bool;
  NewBalance : option float64;
  BalanceOverdrafted : bool;
  QuotaStateOf : option AccountQuotaState
}.
#[export] Instance result_struct : Struct UsageBillingApplyResult := fun r =>
  ApplyResult (Applied r) (APIKeyQuotaExhausted r) (NewBalance r) (BalanceOverdrafted r) (QuotaStateOf r).

(** ** Tables *)

Record api_key_row := KeyRow {
  quota : Z;               (* units of 10^-8, as all amounts of a key *)
  key_quota_used : Z;
  key_status : string;
  usage_5h : Z;
  usage_1d : Z;
  usage_7d : Z;
  window_5h_start : option Time;
  window_1d_start : option Time;
  window_7d_start : option Time;
  key_deleted : bool
}.
#[export] Instance api_key_row_struct : Struct api_key_row := fun k =>
  KeyRow (quota k) (key_quota_used k) (key_status k) (usage_5h k) (usage_1d k) (usage_7d k) (window_5h_start k)
    (window_1d_start k) (window_7d_start k) (key_deleted k).

Record usage_db := UsageDB {
  money : UsageBilling.billing_db;
  api_keys : gmap Z api_key_row;
  subscriptions : Subscriptions.sub_db;
  quotas : account_db
}.
#[export] Instance usage_db_struct : Struct usage_db := fun d => UsageDB (money d) (api_keys d) (subscriptions d) (quotas d).

(** [strings.EqualFold] with a lower-case ASCII word: besides the capitals, the
    Kelvin sign folds to k and the long s to s. *)
Fixpoint fold_bytes (l : list ascii) : list ascii :=
  match l with
  | a :: l1 =>
      if byte_in 65 90 a then chr (byte_of a + 32) :: fold_bytes l1
      else match l1 with
      | b :: l2 =>
          if is_byte 197 a && is_byte 191 b then chr 115 :: fold_bytes l2
          else match l2 with
          | c :: l3 =>
              if is_byte 226 a && is_byte 132 b && is_byte 170 c then chr 107 :: fold_bytes l3 else a :: fold_bytes l1
          | [] => a :: fold_bytes l1
          end
      | [] => [a]
      end
  | [] => []
  end.
Definition EqualFold (s word : string) : bool := of_bytes (fold_bytes (to_bytes s)) =s word.

Section billing.
Context (numeric : float64 -> Q) (sha256_hex : string -> string).
Context (at_zone from_zone : string -> Time -> Time) (db_day : Time -> Time).

(** ** Amounts *)

Definition UsageBillingMonetaryScale : positive := 8.

(** An amount in units of 10^-8, half away from zero. *)
Definition units (v : float64) : Z := round_half_away (inject_Z (10 ^ Zpos UsageBillingMonetaryScale) * numeric v)%Q.

Definition QuantizeUsageBillingAmount (v : float64) : float64 :=
  match v with
  | S754_finite _ _ _ => f64_of_ratio (units v) (10 ^ UsageBillingMonetaryScale)
  | _ => v
  end.

Definition quantizeMonetaryFields (c : UsageBillingCommand) : UsageBillingCommand :=
  c <| BalanceCost := QuantizeUsageBillingAmount (BalanceCost c) |>
    <| SubscriptionCost := QuantizeUsageBillingAmount (SubscriptionCost c) |>
    <| APIKeyQuotaCost := QuantizeUsageBillingAmount (APIKeyQuotaCost c) |>
    <| APIKeyRateLimitCost := QuantizeUsageBillingAmount (APIKeyRateLimitCost c) |>
    <| AccountQuotaCost := QuantizeUsageBillingAmount (AccountQuotaCost c) |>.

Definition valueOrZero (v : option Z) : Z := default 0 v.

Definition buildUsageBillingFingerprint (c : UsageBillingCommand) : string :=
  let raw := String.concat "|"
    [Itoa (UserID c); Itoa (AccountID c); Itoa (APIKeyID c); TrimSpace (AccountType c); TrimSpace (Model c);
     TrimSpace (ServiceTier c); TrimSpace (ReasoningEffort c); Itoa (BillingType c); Itoa (InputTokens c);
     Itoa (OutputTokens c); Itoa (CacheCreationTokens c); Itoa (CacheReadTokens c); Itoa (ImageCount c);
     TrimSpace (MediaType c); Itoa (valueOrZero (SubscriptionID c)); format_f10 (BalanceCost c);
     format_f10 (SubscriptionCost c); format_f10 (APIKeyQuotaCost c); format_f10 (APIKeyRateLimitCost c);
     format_f10 (AccountQuotaCost c)] in
  let payloadHash := TrimSpace (RequestPayloadHash c) in
  sha256_hex (if payloadHash =s "" then raw else raw +:+ "|" +:+ payloadHash).

(** The fingerprint is of the amounts before they are quantised. *)
Definition Normalize (c : UsageBillingCommand) : UsageBillingCommand :=
  let c := c <| RequestID := TrimSpace (RequestID c) |> in
  let c := if TrimSpace (RequestFingerprint c) =s "" then c <| RequestFingerprint := buildUsageBillingFingerprint c |> else c in
  quantizeMonetaryFields c.

(** ** Statements *)

(** The number of affected rows decides [incrementUsageBillingSubscription]. *)
Definition incrementUsageBillingSubscription (id : Z) (costUSD : float64) (d : Subscriptions.sub_db)
    : outcome Subscriptions.sub_db error :=
  match Subscriptions.increment_usage numeric id costUSD d with
  | (Err e, _) => Err e
  | (Ok n, d) => if 0 <? n then Ok d else Err Subscriptions.ErrSubscriptionNotFound
  end.

Definition set_balance (uid : Z) (q : Q) (u : UsageBilling.user_row) (d : UsageBilling.billing_db)
    : outcome (float64 * UsageBilling.billing_db) error :=
  match numeric_store 8 q with
  | Some b =>
      Ok (numeric_scan 8 b,
          d <| UsageBilling.users := <[uid := u <| UsageBilling.balance := b |>]> (UsageBilling.users d) |>)
  | None => Err (DriverError "numeric field overflow")
  end.

(** The new balance and whether it was sufficient; a debt is recorded, too. *)
Definition deductUsageBillingBalance (uid : Z) (amount : float64) (d : UsageBilling.billing_db)
    : outcome (float64 * bool * UsageBilling.billing_db) error :=
  match UsageBilling.users d !! uid with
  | Some u =>
      if UsageBilling.deleted u then Err UsageBilling.ErrUserNotFound
      else
        let balance := UsageBilling.row_balance u in
        match set_balance uid (balance - numeric amount)%Q u d with
        | Ok (b, d) => Ok (b, Qle_bool (numeric amount) balance, d)
        | Err e => Err e
        end
  | None => Err UsageBilling.ErrUserNotFound
  end.

Definition key_amount (z : Z) : Q := numeric_value 8 z.

Definition incrementUsageBillingAPIKeyQuota (id : Z) (amount : float64) (keys : gmap Z api_key_row)
    : outcome (bool * gmap Z api_key_row) error :=
  match keys !! id with
  | Some k =>
      if key_deleted k then Err ErrAPIKeyNotFound
      else
        let sum := (key_amount (key_quota_used k) + numeric amount)%Q in
        match numeric_store 8 sum with
        | Some used =>
            let status :=
              if (0 <? quota k) && (key_status k =s StatusAPIKeyActive) && (key_quota_used k <? quota k)
                 && Qle_bool (key_amount (quota k)) sum
              then StatusAPIKeyQuotaExhausted else key_status k in
            Ok ((0 <? quota k) && (quota k <=? used)
                  && negb (Qle_bool (key_amount (quota k)) (key_amount used - numeric amount)%Q),
                <[id := k <| key_quota_used := used |> <| key_status := status |>]> keys)
        | None => Err (DriverError "numeric field overflow")
        end
  | None => Err ErrAPIKeyNotFound
  end.

Definition window_expired (start : option Time) (length : Duration) (now : Time) : bool :=
  match start with Some t => t + length <=? now | None => false end.

Definition next_start (start : option Time) (length : Duration) (fresh now : Time) : option Time :=
  match start with
  | Some t => if t + length <=? now then Some fresh else start
  | None => Some fresh
  end.

Definition incrementUsageBillingAPIKeyRateLimit (id : Z) (cost : float64) (now : Time) (keys : gmap Z api_key_row)
    : outcome (gmap Z api_key_row) error :=
  match keys !! id with
  | Some k =>
      if key_deleted k then Err ErrAPIKeyNotFound
      else
        let count used start length :=
          numeric_store 8 (if window_expired start length now then numeric cost else key_amount used + numeric cost)%Q in
        match count (usage_5h k) (window_5h_start k) (5 * Hour), count (usage_1d k) (window_1d_start k) (24 * Hour),
              count (usage_7d k) (window_7d_start k) (7 * 24 * Hour) with
        | Some u5, Some u1, Some u7 =>
            Ok (<[id := k <| usage_5h := u5 |> <| usage_1d := u1 |> <| usage_7d := u7 |>
                     <| window_5h_start := next_start (window_5h_start k) (5 * Hour) now now |>
                     <| window_1d_start := next_start (window_1d_start k) (24 * Hour) (db_day now) now |>
                     <| window_7d_start := next_start (window_7d_start k) (7 * 24 * Hour) (db_day now) now |>]> keys)
        | _, _, _ => Err (DriverError "numeric field overflow")
        end
  | None => Err ErrAPIKeyNotFound
  end.

(** ** The transaction *)

Definition and_then {A B} (r : outcome A error) (k : A -> outcome B error) : outcome B error :=
  match r with Ok a => k a | Err e => Err e end.
Notation "'do!' p := r 'in' k" := (and_then r (fun p => k)) (at level 200, p pattern, r at level 100, k at level 200).

(** The statements of [applyUsageBillingEffects], in their order. *)
Definition charge_subscription (cmd : UsageBillingCommand) (d : usage_db) : outcome usage_db error :=
  match SubscriptionID cmd with
  | Some id =>
      if (f64_zero <? SubscriptionCost cmd)%f64 then
        do! s := incrementUsageBillingSubscription id (SubscriptionCost cmd) (subscriptions d) in Ok (d <| subscriptions := s |>)
      else Ok d
  | None => Ok d
  end.

Definition charge_balance (cmd : UsageBillingCommand) (result : UsageBillingApplyResult) (d : usage_db)
    : outcome (UsageBillingApplyResult * usage_db) error :=
  if (f64_zero <? BalanceCost cmd)%f64 then
    do! (b, sufficient, m) := deductUsageBillingBalance (UserID cmd) (BalanceCost cmd) (money d) in
    Ok (result <| NewBalance := Some b |> <| BalanceOverdrafted := negb sufficient |>, d <| money := m |>)
  else Ok (result, d).

(** A key that is gone is skipped. *)
Definition count_key_quota (cmd : UsageBillingCommand) (result : UsageBillingApplyResult) (d : usage_db)
    : outcome (UsageBillingApplyResult * usage_db) error :=
  if (f64_zero <? APIKeyQuotaCost cmd)%f64 then
    match incrementUsageBillingAPIKeyQuota (APIKeyID cmd) (APIKeyQuotaCost cmd) (api_keys d) with
    | Ok (exhausted, keys) => Ok (result <| APIKeyQuotaExhausted := exhausted |>, d <| api_keys := keys |>)
    | Err e => if errors_Is e ErrAPIKeyNotFound then Ok (result <| APIKeyQuotaExhausted := false |>, d) else Err e
    end
  else Ok (result, d).

Definition count_rate_limit (cmd : UsageBillingCommand) (now : Time) (d : usage_db) : outcome usage_db error :=
  if (f64_zero <? APIKeyRateLimitCost cmd)%f64 then
    match incrementUsageBillingAPIKeyRateLimit (APIKeyID cmd) (APIKeyRateLimitCost cmd) now (api_keys d) with
    | Ok keys => Ok (d <| api_keys := keys |>)
    | Err e => if errors_Is e ErrAPIKeyNotFound then Ok d else Err e
    end
  else Ok d.

Definition counts_account (cmd : UsageBillingCommand) : bool :=
  (f64_zero <? AccountQuotaCost cmd)%f64 && (EqualFold (AccountType cmd) AccountTypeAPIKey || EqualFold (AccountType cmd) AccountTypeBedrock).

Definition count_account (cmd : UsageBillingCommand) (now : Time) (result : UsageBillingApplyResult) (d : usage_db)
    : outcome (UsageBillingApplyResult * usage_db) error :=
  if counts_account cmd then
    do! (s, a) := incrementUsageBillingAccountQuota at_zone from_zone numeric (AccountID cmd) (AccountQuotaCost cmd) now (quotas d) in
    Ok (result <| QuotaStateOf := Some s |>, d <| quotas := a |>)
  else Ok (result, d).

Definition applyUsageBillingEffects (cmd : UsageBillingCommand) (now : Time) (d : usage_db)
    : outcome (UsageBillingApplyResult * usage_db) error :=
  do! d := charge_subscription cmd d in
  do! (result, d) := charge_balance cmd (ApplyResult true false None false None) d in
  do! (result, d) := count_key_quota cmd result d in
  do! d := count_rate_limit cmd now d in
  count_account cmd now result d.

Definition Apply (cmd : UsageBillingCommand) (now : Time) (d : usage_db) : outcome UsageBillingApplyResult error * usage_db :=
  let cmd := Normalize cmd in
  if RequestID cmd =s "" then (Err UsageBilling.ErrUsageBillingRequestIDRequired, d)
  else
    match UsageBilling.claimUsageBillingRequest (RequestID cmd) (APIKeyID cmd) (RequestFingerprint cmd) (money d) with
    | (Err e, _) => (Err e, d)
    | (Ok false, _) => (Ok (ApplyResult false false None false None), d)
    | (Ok true, m) =>
        match applyUsageBillingEffects cmd now (d <| money := m |>) with
        | Err e => (Err e, d)
        | Ok (result, d') => (Ok result, d')
        end
    end.

(** ** Building the command of a request *)

Record CostBreakdown := Cost { TotalCost : float64; ActualCost : float64 }.

(** What billing reads of the key, the account and the usage record. *)
Record billed_key := BilledKey {
  bk_ID : Z;
  Quota : float64;
  RateLimit5h : float64;
  RateLimit1d : float64;
  RateLimit7d : float64
}.
Definition HasRateLimits (k : billed_key) : bool :=
  ((f64_zero <? RateLimit5h k) || (f64_zero <? RateLimit1d k) || (f64_zero <? RateLimit7d k))%f64.

Record billed_account := BilledAccount {
  ba_ID : Z;
  ba_Type : string;
  GetQuotaLimit : float64;
  GetQuotaDailyLimit : float64;
  GetQuotaWeeklyLimit : float64
}.
Definition IsAPIKeyOrBedrock (a : billed_account) : bool := (ba_Type a =s AccountTypeAPIKey) || (ba_Type a =s AccountTypeBedrock).
Definition HasAnyQuotaLimit (a : billed_account) : bool :=
  ((f64_zero <? GetQuotaLimit a) || (f64_zero <? GetQuotaDailyLimit a) || (f64_zero <? GetQuotaWeeklyLimit a))%f64.

Record usage_log := UsageLog {
  l_Model : string;
  l_BillingType : Z;
  l_InputTokens : Z;
  l_OutputTokens : Z;
  l_CacheCreationTokens : Z;
  l_CacheReadTokens : Z;
  l_ImageCount : Z;
  l_ServiceTier : option string;
  l_ReasoningEffort : option string;
  l_SubscriptionID : option Z
}.

(** Users and subscriptions by their ids; [hasAPIKeyService] is
    [APIKeyService != nil]. *)
Record postUsageBillingParams := BillingParams {
  CostOf : option CostBreakdown;
  User : option Z;
  APIKey : option billed_key;
  AccountOf : option billed_account;
  Subscription : option Z;
  p_RequestPayloadHash : string;
  IsSubscriptionBill : bool;
  AccountRateMultiplier : float64;
  hasAPIKeyService : bool;
  SimpleModeKeyRateLimitOnly : bool
}.

Definition shouldDeductAPIKeyQuota (p : postUsageBillingParams) (cost : CostBreakdown) (k : billed_key) : bool :=
  ((f64_zero <? ActualCost cost) && (f64_zero <? Quota k))%f64 && hasAPIKeyService p.
Definition shouldUpdateRateLimits (p : postUsageBillingParams) (cost : CostBreakdown) (k : billed_key) : bool :=
  (f64_zero <? ActualCost cost)%f64 && HasRateLimits k && hasAPIKeyService p.
Definition shouldUpdateAccountQuota (cost : CostBreakdown) (a : billed_account) : bool :=
  (f64_zero <? TotalCost cost)%f64 && IsAPIKeyOrBedrock a && HasAnyQuotaLimit a.

Definition of_log {A} (log : option usage_log) (f : usage_log -> A) (otherwise : A) : A :=
  match log with Some l => f l | None => otherwise end.

Definition uncharged (requestID : string) (log : option usage_log) (uid : Z) (k : billed_key) (a : billed_account) (hash : string)
    : UsageBillingCommand :=
  Command requestID (bk_ID k) "" (TrimSpace hash) uid (ba_ID a) (of_log log l_SubscriptionID None) (ba_Type a) (of_log log l_Model "")
    (of_log log (fun l => default "" (l_ServiceTier l)) "") (of_log log (fun l => default "" (l_ReasoningEffort l)) "") (of_log log l_BillingType 0)
    (of_log log l_InputTokens 0) (of_log log l_OutputTokens 0) (of_log log l_CacheCreationTokens 0) (of_log log l_CacheReadTokens 0) (of_log log l_ImageCount 0) ""
    f64_zero f64_zero f64_zero f64_zero f64_zero.

(** The costs of a request, on a command without any. *)
Definition charge_command (p : postUsageBillingParams) (cost : CostBreakdown) (k : billed_key) (a : billed_account) (cmd : UsageBillingCommand)
    : UsageBillingCommand :=
  if SimpleModeKeyRateLimitOnly p then
    if (f64_zero <? ActualCost cost)%f64 && HasRateLimits k then cmd <| APIKeyRateLimitCost := ActualCost cost |> else cmd
  else
    let balance cmd := if (f64_zero <? ActualCost cost)%f64 then cmd <| BalanceCost := ActualCost cost |> else cmd in
    let cmd :=
      match Subscription p with
      | Some s =>
          if IsSubscriptionBill p && (f64_zero <? TotalCost cost)%f64
          then cmd <| SubscriptionID := Some s |> <| SubscriptionCost := ActualCost cost |> else balance cmd
      | None => balance cmd
      end in
    let cmd := if shouldDeductAPIKeyQuota p cost k then cmd <| APIKeyQuotaCost := ActualCost cost |> else cmd in
    let cmd := if shouldUpdateRateLimits p cost k then cmd <| APIKeyRateLimitCost := ActualCost cost |> else cmd in
    if shouldUpdateAccountQuota cost a
    then cmd <| AccountQuotaCost := (TotalCost cost * AccountRateMultiplier p)%f64 |> else cmd.

Definition buildUsageBillingCommand (requestID : string) (log : option usage_log) (p : postUsageBillingParams)
    : option UsageBillingCommand :=
  match CostOf p, APIKey p, User p, AccountOf p with
  | Some cost, Some k, Some uid, Some a =>
      Some (Normalize (charge_command p cost k a (uncharged requestID log uid k a (p_RequestPayloadHash p))))
  | _, _, _, _ => None
  end.
End billing.

(** ** Request ids *)

Definition isForcedUsageBillingRequestID (requestID : string) : bool :=
  let id := TrimSpace requestID in
  HasPrefix id "web_search:" || HasPrefix id "grok-video:" || HasPrefix id "grok_audio:" || HasPrefix id "grok_realtime:".

(** [client] and [request] are the ids of the context, empty when it has none;
    [generated] is the random id. *)
Definition resolveUsageBillingRequestID (client request upstreamRequestID generated : string) : string :=
  let upstream := TrimSpace upstreamRequestID in
  if negb (upstream =s "") && isForcedUsageBillingRequestID upstream then upstream
  else if negb (TrimSpace client =s "") then "client:" +:+ TrimSpace client
  else if negb (TrimSpace request =s "") then "local:" +:+ TrimSpace request
  else if negb (upstream =s "") then upstream
  else "generated:" +:+ generated.

Definition StableGrokAudioBillingRequestID (upstreamRequestID generated : string) : string :=
  let id := TrimSpace upstreamRequestID in
  if HasPrefix id "grok_audio:" then id else "grok_audio:" +:+ (if id =s "" then generated else id).
Definition StableGrokRealtimeBillingRequestID (sessionID generated : string) : string :=
  let id := TrimSpace sessionID in
  if HasPrefix id "grok_realtime:" then id else "grok_realtime:" +:+ (if id =s "" then generated else id).

Definition resolveUsageBillingPayloadFingerprint (client request requestPayloadHash : string) : string :=
  if negb (TrimSpace requestPayloadHash =s "") then TrimSpace requestPayloadHash
  else if negb (TrimSpace client =s "") then "client:" +:+ TrimSpace client
  else if negb (TrimSpace request =s "") then "local:" +:+ TrimSpace request
  else "".
End UsageApply.
