(* ===== verification/UsageLedger.v ===== *)
(** * The ledger of usage billing

    Any sequence of billed requests, retries and clean-ups of old claims: each
    request is charged once, and the books of users, keys, subscriptions and
    accounts agree to the last digit. *)

From Stdlib Require Import QArith Lqa SpecFloat.
From S2P Require Import Prelude GoStrings GoFloat AppErrors UsageBilling Subscriptions AccountQuota UsageApply.

Module UsageLedger.
Export UsageApply.
Import UsageBilling Subscriptions UsageApply.
#[local] Open Scope Z_scope.

Section ledger.
Context (numeric : float64 -> Q) (sha256_hex : string -> string).
Context (at_zone from_zone : string -> Time -> Time) (db_day : Time -> Time).

(** What a cost charges, in units of 10^-8. *)
Definition charged (v : float64) : Z := if (f64_zero <? QuantizeUsageBillingAmount numeric v)%f64 then units numeric v else 0.

(** The decimal of a quantised amount is the rounded one: the [float64] nearest
    to a decimal of at most 15 digits has this as its shortest decimal. *)
Definition reads_back (v : float64) : Prop := (numeric (QuantizeUsageBillingAmount numeric v) == units numeric v # (10 ^ 8))%Q.

Definition amounts_read_back (c : UsageBillingCommand) : Prop :=
  reads_back (BalanceCost c) /\ reads_back (SubscriptionCost c) /\ reads_back (APIKeyQuotaCost c) /\ reads_back (AccountQuotaCost c).

Definition at_id (id : Z) (z : Z) (i : Z) : Z := if i =? id then z else 0.

Definition user_charge (c : UsageBillingCommand) : Z -> Z := at_id (UserID c) (charged (BalanceCost c)).
Definition key_charge (c : UsageBillingCommand) : Z -> Z := at_id (APIKeyID c) (charged (APIKeyQuotaCost c)).
Definition subscription_charge (c : UsageBillingCommand) : Z -> Z :=
  match SubscriptionID c with Some id => at_id id (charged (SubscriptionCost c)) | None => fun _ => 0 end.
Definition account_charge (c : UsageBillingCommand) : Z -> Z :=
  at_id (AccountID c)
    (if EqualFold (AccountType c) AccountTypeAPIKey || EqualFold (AccountType c) AccountTypeBedrock
     then charged (AccountQuotaCost c) else 0).

(** The books moved by given amounts. *)
Definition users_moved (u : Z -> Z) (m m' : billing_db) : Prop :=
  forall i r, users m !! i = Some r -> users m' !! i = Some (r <| balance := balance r - u i |>).
Definition keys_moved (k : Z -> Z) (m m' : gmap Z api_key_row) : Prop :=
  forall i r, m !! i = Some r -> key_deleted r = false ->
    exists r', m' !! i = Some r' /\ key_deleted r' = false /\ quota r' = quota r /\ key_quota_used r' = key_quota_used r + k i.
Definition subs_moved (s : Z -> Z) (m m' : sub_db) : Prop :=
  forall i r, subs m !! i = Some r -> exists r', subs m' !! i = Some r' /\ forall w, usage_of w r' = usage_of w r + 100 * s i.
Definition accounts_moved (a : Z -> Z) (m m' : account_db) : Prop :=
  forall i r, accounts m !! i = Some r ->
    exists r', accounts m' !! i = Some r' /\
      (amount_or_0 (quota_used (extra r')) == amount_or_0 (quota_used (extra r)) + (a i # (10 ^ 8)))%Q.

Record moved (u k s a : Z -> Z) (d d' : usage_db) : Prop := {
  mv_users : users_moved u (money d) (money d');
  mv_keys : keys_moved k (api_keys d) (api_keys d');
  mv_subs : subs_moved s (subscriptions d) (subscriptions d');
  mv_accounts : accounts_moved a (quotas d) (quotas d')
}.

Notation nothing := (fun _ : Z => 0).

Lemma users_same m : users_moved nothing m m.
Proof. intros i r Hr. rewrite Hr. f_equal. destruct r. cbn. by rewrite Z.sub_0_r. Qed.
Lemma keys_same m : keys_moved nothing m m.
Proof. intros i r Hr Hd. exists r. repeat split; try done. lia. Qed.
Lemma subs_same m : subs_moved nothing m m.
Proof. intros i r Hr. exists r. split; [done|]. intros w. lia. Qed.
Lemma accounts_same m : accounts_moved nothing m m.
Proof. intros i r Hr. exists r. split; [done|]. unfold Qeq, Qplus. cbn. lia. Qed.
Hint Resolve users_same keys_same subs_same accounts_same : core.

Lemma moved_refl d : moved nothing nothing nothing nothing d d.
Proof. by split. Qed.

Lemma moved_trans u1 k1 s1 a1 u2 k2 s2 a2 d1 d2 d3 :
  moved u1 k1 s1 a1 d1 d2 -> moved u2 k2 s2 a2 d2 d3 ->
  moved (fun i => u1 i + u2 i) (fun i => k1 i + k2 i) (fun i => s1 i + s2 i) (fun i => a1 i + a2 i) d1 d3.
Proof.
  intros [U1 K1 S1 A1] [U2 K2 S2 A2]. split; intros i r Hr; cbn beta.
  - rewrite (U2 i _ (U1 i r Hr)). f_equal. destruct r. cbn. f_equal. lia.
  - intros Hd. destruct (K1 i r Hr Hd) as (r1 & H1 & Hd1 & Q1 & E1). destruct (K2 i r1 H1 Hd1) as (r2 & H2 & Hd2 & Q2 & E2).
    exists r2. repeat split; try done; [congruence|lia].
  - destruct (S1 i r Hr) as (r1 & H1 & E1). destruct (S2 i r1 H1) as (r2 & H2 & E2). exists r2. split; [done|].
    intros w. rewrite E2, E1. lia.
  - destruct (A1 i r Hr) as (r1 & H1 & E1). destruct (A2 i r1 H1) as (r2 & H2 & E2). exists r2. split; [done|].
    rewrite E2, E1. unfold Qeq, Qplus. cbn [Qnum Qden]. nia.
Qed.

Lemma moved_ext u k s a u' k' s' a' d d' :
  moved u k s a d d' -> (forall i, u i = u' i) -> (forall i, k i = k' i) -> (forall i, s i = s' i) -> (forall i, a i = a' i) ->
  moved u' k' s' a' d d'.
Proof.
  intros [U K S A] Eu Ek Es Ea. split; intros i r; rewrite <- ?Eu, <- ?Ek, <- ?Es, <- ?Ea; [apply U|apply K|apply S|apply A].
Qed.

(** *** Exact columns *)

Lemma exact_sum x v u : (v == u # (10 ^ 8))%Q -> (numeric_value 8 x + v == (x + u) # (10 ^ 8))%Q.
Proof. intros ->. unfold numeric_value, Qeq, Qplus. cbn [Qnum Qden]. lia. Qed.
Lemma exact_difference x v u : (v == u # (10 ^ 8))%Q -> (numeric_value 8 x - v == (x - u) # (10 ^ 8))%Q.
Proof. intros ->. unfold numeric_value, Qeq, Qminus, Qplus, Qopp. cbn [Qnum Qden]. lia. Qed.

Lemma stored_sum x z v u : numeric_store 8 (numeric_value 8 x + v)%Q = Some z -> (v == u # (10 ^ 8))%Q -> z = x + u.
Proof. intros Hz Hv. apply (stored_exact 8 _ _ Hz). by apply exact_sum. Qed.
Lemma stored_difference x z v u : numeric_store 8 (numeric_value 8 x - v)%Q = Some z -> (v == u # (10 ^ 8))%Q -> z = x - u.
Proof. intros Hz Hv. apply (stored_exact 8 _ _ Hz). by apply exact_difference. Qed.

Lemma stored_sum10 x z v u :
  numeric_store 10 (numeric_value 10 x + v)%Q = Some z -> (v == u # (10 ^ 8))%Q -> z = x + 100 * u.
Proof.
  intros Hz Hv. apply (stored_exact 10 _ _ Hz). rewrite Hv. unfold numeric_value, Qeq, Qplus. cbn [Qnum Qden].
  change (10 ^ 10)%positive with (10 ^ 8 * 100)%positive. lia.
Qed.

Lemma charged_positive v : (f64_zero <? QuantizeUsageBillingAmount numeric v)%f64 = true -> charged v = units numeric v.
Proof. unfold charged. by intros ->. Qed.
Lemma charged_nothing v : (f64_zero <? QuantizeUsageBillingAmount numeric v)%f64 = false -> charged v = 0.
Proof. unfold charged. by intros ->. Qed.

(** *** The statements *)

Lemma at_id_zero id i : at_id id 0 i = 0.
Proof. unfold at_id. by destruct (i =? id). Qed.

Notation norm := (Normalize numeric sha256_hex).

Lemma normal_fields c :
  UserID (norm c) = UserID c /\ APIKeyID (norm c) = APIKeyID c /\ AccountID (norm c) = AccountID c /\
  SubscriptionID (norm c) = SubscriptionID c /\ AccountType (norm c) = AccountType c /\
  RequestID (norm c) = TrimSpace (RequestID c) /\
  BalanceCost (norm c) = QuantizeUsageBillingAmount numeric (BalanceCost c) /\
  SubscriptionCost (norm c) = QuantizeUsageBillingAmount numeric (SubscriptionCost c) /\
  APIKeyQuotaCost (norm c) = QuantizeUsageBillingAmount numeric (APIKeyQuotaCost c) /\
  AccountQuotaCost (norm c) = QuantizeUsageBillingAmount numeric (AccountQuotaCost c).
Proof. unfold Normalize. cbv zeta. case_match; by repeat split. Qed.

Lemma subscription_moves c d d' :
  reads_back (SubscriptionCost c) -> charge_subscription numeric (norm c) d = Ok d' ->
  moved nothing nothing (subscription_charge c) nothing d d' /\ money d' = money d.
Proof.
  intros Hr. unfold charge_subscription, subscription_charge.
  destruct (normal_fields c) as (_ & _ & _ & -> & _ & _ & _ & -> & _). destruct (SubscriptionID c) as [id|];
    [|intros [= <-]; split; [apply moved_refl|done]].
  case_match eqn:Hpos; [|intros [= <-]; split; [|done]; eapply moved_ext; [apply moved_refl|done..| |done];
    intros i; by rewrite charged_nothing, at_id_zero].
  rewrite charged_positive by done. unfold incrementUsageBillingSubscription, increment_usage.
  destruct (subs (subscriptions d) !! id) as [r|] eqn:Hrow; [|done]. destruct (groups (subscriptions d) !! GroupID r) as [g|]; [|done].
  destruct (_ || _); [done|].
  destruct (numeric_store 10 (numeric_value 10 (DailyUsageUSD r) + _)%Q) as [du|] eqn:Hd; [|done].
  destruct (numeric_store 10 (numeric_value 10 (WeeklyUsageUSD r) + _)%Q) as [wu|] eqn:Hw; [|done].
  destruct (numeric_store 10 (numeric_value 10 (MonthlyUsageUSD r) + _)%Q) as [mu|] eqn:Hm; [|done].
  cbn. intros [= <-]. split; [|done]. apply (stored_sum10 _ _ _ _ Hd) in Hr as Ed. apply (stored_sum10 _ _ _ _ Hw) in Hr as Ew.
  apply (stored_sum10 _ _ _ _ Hm) in Hr as Em.
  split; [apply users_same|apply keys_same| |apply accounts_same]. intros i s Hs. cbn. unfold at_id. destruct (Z.eqb_spec i id) as [->|Hne].
  - rewrite lookup_insert_eq. eexists. split; [reflexivity|]. assert (r = s) as -> by congruence. intros []; cbn; done.
  - rewrite lookup_insert_ne by done. exists s. split; [done|]. intros w. lia.
Qed.

Lemma balance_moves c res res' d d' :
  reads_back (BalanceCost c) -> charge_balance numeric (norm c) res d = Ok (res', d') ->
  moved (user_charge c) nothing nothing nothing d d' /\ dedup (money d') = dedup (money d) /\ dedup_archive (money d') = dedup_archive (money d).
Proof.
  intros Hr. unfold charge_balance, user_charge. destruct (normal_fields c) as (-> & _ & _ & _ & _ & _ & -> & _).
  case_match eqn:Hpos; [|intros [= <- <-]; split; [|done]; eapply moved_ext; [apply moved_refl|..|done|done|done];
    intros i; by rewrite charged_nothing, at_id_zero].
  rewrite charged_positive by done. unfold deductUsageBillingBalance, set_balance.
  destruct (users (money d) !! UserID c) as [u|] eqn:Hu; [|done]. destruct (UsageBilling.deleted u); [done|].
  destruct (numeric_store 8 _) as [b|] eqn:Hb; [|done]. cbn. intros [= <- <-]. split; [|done].
  apply (stored_difference _ _ _ _ Hb) in Hr as ->. split; [|apply keys_same|apply subs_same|apply accounts_same].
  intros i r Hrow. cbn. unfold at_id. destruct (Z.eqb_spec i (UserID c)) as [->|Hne].
  - rewrite lookup_insert_eq. assert (u = r) as -> by congruence. done.
  - rewrite lookup_insert_ne, Hrow by done. f_equal. destruct r. cbn. by rewrite Z.sub_0_r.
Qed.

(** What the two statements on a key may do to its row. *)
Lemma key_row_moves id z (k k' : api_key_row) d :
  api_keys d !! id = Some k -> key_deleted k' = key_deleted k -> quota k' = quota k -> key_quota_used k' = key_quota_used k + z ->
  moved nothing (at_id id z) nothing nothing d (d <| api_keys := <[id := k']> (api_keys d) |>).
Proof.
  intros Hk Hd Hq Hu. split; [apply users_same| |apply subs_same|apply accounts_same]. intros i r Hr Hdel. cbn. unfold at_id.
  destruct (Z.eqb_spec i id) as [->|Hne].
  - rewrite lookup_insert_eq. exists k'. assert (k = r) as -> by congruence. repeat split; congruence.
  - rewrite lookup_insert_ne by done. exists r. repeat split; try done. lia.
Qed.

Lemma skipped_key id z d :
  (forall k, api_keys d !! id = Some k -> key_deleted k = true) -> moved nothing (at_id id z) nothing nothing d d.
Proof.
  intros Hk. split; [apply users_same| |apply subs_same|apply accounts_same]. intros i r Hr Hdel. unfold at_id.
  destruct (Z.eqb_spec i id) as [->|Hne]; [rewrite (Hk r Hr) in Hdel; done|]. exists r. repeat split; try done. lia.
Qed.

Lemma key_quota_moves c res res' d d' :
  reads_back (APIKeyQuotaCost c) -> count_key_quota numeric (norm c) res d = Ok (res', d') ->
  moved nothing (key_charge c) nothing nothing d d' /\ money d' = money d.
Proof.
  intros Hr. unfold count_key_quota, key_charge. destruct (normal_fields c) as (_ & -> & _ & _ & _ & _ & _ & _ & -> & _).
  case_match eqn:Hpos; [|intros [= <- <-]; split; [|done]; eapply moved_ext; [apply moved_refl|done| |done|done];
    intros i; by rewrite charged_nothing, at_id_zero].
  rewrite charged_positive by done. unfold incrementUsageBillingAPIKeyQuota.
  destruct (api_keys d !! APIKeyID c) as [k|] eqn:Hk; [|cbn; intros [= <- <-]; split; [apply skipped_key; congruence|done]].
  destruct (key_deleted k) eqn:Hdel; [cbn; intros [= <- <-]; split; [apply skipped_key; congruence|done]|].
  destruct (numeric_store 8 _) as [used|] eqn:Hs; [|done]. cbn. intros [= <- <-]. split; [|done].
  eapply key_row_moves; [done|done|done|]. exact (stored_sum _ _ _ _ Hs Hr).
Qed.

Lemma rate_limit_moves c now d d' :
  count_rate_limit numeric db_day (norm c) now d = Ok d' -> moved nothing nothing nothing nothing d d' /\ money d' = money d.
Proof.
  unfold count_rate_limit. case_match; [|intros [= <-]; split; [apply moved_refl|done]]. unfold incrementUsageBillingAPIKeyRateLimit.
  destruct (api_keys d !! APIKeyID (norm c)) as [k|] eqn:Hk; [|cbn; intros [= <-]; split; [apply moved_refl|done]].
  destruct (key_deleted k) eqn:Hdel; [cbn; intros [= <-]; split; [apply moved_refl|done]|].
  do 3 (match goal with |- context [numeric_store 8 ?q] => destruct (numeric_store 8 q); [|done] end).
  intros [= <-]. split; [|done]. eapply moved_ext; [eapply (key_row_moves _ 0); [done|done|done|cbn; lia]|done| |done|done].
  intros i. apply at_id_zero.
Qed.

Lemma account_moves c now res res' d d' :
  reads_back (AccountQuotaCost c) -> count_account numeric at_zone from_zone (norm c) now res d = Ok (res', d') ->
  moved nothing nothing nothing (account_charge c) d d' /\ money d' = money d.
Proof.
  intros Hr. unfold count_account, counts_account, account_charge.
  destruct (normal_fields c) as (_ & _ & -> & _ & -> & _ & _ & _ & _ & ->).
  set (typed := EqualFold _ _ || EqualFold _ _). destruct (f64_zero <? QuantizeUsageBillingAmount numeric (AccountQuotaCost c))%f64 eqn:Hpos;
    [destruct typed|]; cbn [andb]; try (intros [= <- <-]; split; [|done]; eapply moved_ext; [apply moved_refl|done|done|done|];
    intros i; rewrite ?charged_nothing by done; try destruct typed; by rewrite at_id_zero).
  rewrite charged_positive by done. unfold incrementUsageBillingAccountQuota.
  destruct (accounts (quotas d) !! AccountID c) as [a|] eqn:Ha; [|done]. destruct (account_deleted a); [done|]. cbn [and_then].
  intros [= <- <-]. split; [|done]. split; [apply users_same|apply keys_same|apply subs_same|]. intros i r Hrow. cbn.
  assert (Hq : forall (b : bool) (q : account_db), accounts (if b then enqueue_changed (AccountID c) q else q) = accounts q).
  { intros b q. destruct b; [|done]. unfold enqueue_changed. by case_match. }
  rewrite Hq. cbn. unfold at_id. destruct (Z.eqb_spec i (AccountID c)) as [->|Hne].
  - rewrite lookup_insert_eq. eexists. split; [reflexivity|]. assert (a = r) as -> by congruence. cbn. by apply Qplus_comp.
  - rewrite lookup_insert_ne by done. exists r. split; [done|]. unfold Qeq, Qplus. cbn. lia.
Qed.

Lemma effects_in_order c now d r d' :
  applyUsageBillingEffects numeric at_zone from_zone db_day c now d = Ok (r, d') ->
  exists d1 r2 d2 r3 d3 d4, charge_subscription numeric c d = Ok d1 /\
    charge_balance numeric c (ApplyResult true false None false None) d1 = Ok (r2, d2) /\ count_key_quota numeric c r2 d2 = Ok (r3, d3) /\
    count_rate_limit numeric db_day c now d3 = Ok d4 /\ count_account numeric at_zone from_zone c now r3 d4 = Ok (r, d').
Proof.
  unfold applyUsageBillingEffects. destruct (charge_subscription numeric c d) as [d1|]; [|done]. cbn [and_then].
  destruct (charge_balance numeric c _ d1) as [[r2 d2]|] eqn:E2; [|done]. cbn [and_then].
  destruct (count_key_quota numeric c r2 d2) as [[r3 d3]|] eqn:E3; [|done]. cbn [and_then].
  destruct (count_rate_limit numeric db_day c now d3) as [d4|] eqn:E4; [|done]. cbn [and_then]. eauto 12.
Qed.

Lemma effects_move c now d r d' :
  amounts_read_back c -> applyUsageBillingEffects numeric at_zone from_zone db_day (norm c) now d = Ok (r, d') ->
  moved (user_charge c) (key_charge c) (subscription_charge c) (account_charge c) d d' /\
  dedup (money d') = dedup (money d) /\ dedup_archive (money d') = dedup_archive (money d).
Proof.
  intros (Rb & Rs & Rk & Ra) He. destruct (effects_in_order _ _ _ _ _ He) as (d1 & r2 & d2 & r3 & d3 & d4 & E1 & E2 & E3 & E4 & E5).
  apply (subscription_moves c) in E1 as [M1 S1]; [|done]. apply (balance_moves c) in E2 as (M2 & S2 & A2); [|done].
  apply (key_quota_moves c) in E3 as [M3 S3]; [|done]. apply (rate_limit_moves c) in E4 as [M4 S4].
  apply (account_moves c) in E5 as [M5 S5]; [|done]. split; [|rewrite S5, S4, S3, S2, A2, S1; done].
  eapply moved_ext; [exact (moved_trans _ _ _ _ _ _ _ _ _ _ _ M1 (moved_trans _ _ _ _ _ _ _ _ _ _ _ M2
    (moved_trans _ _ _ _ _ _ _ _ _ _ _ M3 (moved_trans _ _ _ _ _ _ _ _ _ _ _ M4 M5))))|..]; intros i; cbn; lia.
Qed.

Lemma effects_applied c now d r d' : applyUsageBillingEffects numeric at_zone from_zone db_day c now d = Ok (r, d') -> Applied r = true.
Proof.
  intros He. destruct (effects_in_order _ _ _ _ _ He) as (d1 & r2 & d2 & r3 & d3 & d4 & _ & E2 & E3 & _ & E5).
  unfold charge_balance, count_key_quota, count_account, and_then in E2, E3, E5. branches_in E2; branches_in E3; branches_in E5.
Qed.

(** ** Any sequence of requests *)

Inductive usage_op :=
| Bill (cmd : UsageBillingCommand) (now : Time)
| ArchiveClaims (victims : gset (string * Z)).

Notation apply := (Apply numeric sha256_hex at_zone from_zone db_day).

(** With the commands that were applied. *)
Definition usage_step (op : usage_op) (s : usage_db * list UsageBillingCommand) : usage_db * list UsageBillingCommand :=
  match op with
  | Bill cmd now =>
      match apply cmd now s.1 with
      | (Ok r, d) => (d, if Applied r then s.2 ++ [cmd] else s.2)
      | (Err _, d) => (d, s.2)
      end
  | ArchiveClaims victims => (s.1 <| money := CleanupUsageBillingDedup victims (money s.1) |>, s.2)
  end.

Definition request_key (c : UsageBillingCommand) : string * Z := (TrimSpace (RequestID c), APIKeyID c).

Definition total (charge : UsageBillingCommand -> Z -> Z) (log : list UsageBillingCommand) (i : Z) : Z :=
  foldr (fun c acc => charge c i + acc) 0 log.

Lemma total_snoc charge log c i : total charge (log ++ [c]) i = total charge log i + charge c i.
Proof. unfold total. induction log as [|c' log IH]; cbn in *; lia. Qed.

(** A command takes effect under a new claim, or not at all. *)
Lemma apply_effect c now d :
  amounts_read_back c ->
  (exists r, (apply c now d).1 = Ok r /\ Applied r = true /\ request_key c ∉ claimed (money d) /\
     claimed (money (apply c now d).2) = {[ request_key c ]} ∪ claimed (money d) /\
     moved (user_charge c) (key_charge c) (subscription_charge c) (account_charge c) d (apply c now d).2) \/
  ((apply c now d).2 = d /\ forall r, (apply c now d).1 = Ok r -> Applied r = false).
Proof.
  intros Ha. unfold Apply. cbv zeta. destruct (normal_fields c) as (_ & Hk & _ & _ & _ & Hid & _). rewrite Hk, Hid.
  case_match; [by right|].
  destruct (claimUsageBillingRequest _ _ _ _) as [[[|]|e] m] eqn:Hclaim; [|right; split; [done|]; by intros r [= <-]|by right].
  apply claim_new in Hclaim as [Hnew Hm]. destruct (applyUsageBillingEffects _ _ _ _ _ _ _) as [[r d']|e] eqn:He; [|by right].
  left. exists r. pose proof He as He'. apply effects_move in He as (Hmv & Hd & Har); [|done]. cbn [fst snd]. split; [done|].
  pose proof (effects_applied _ _ _ _ _ He') as Hr.
  split; [done|]. split; [done|]. split.
  - unfold claimed. rewrite Hd, Har. cbn [money set_field]. fold (claimed m). rewrite Hm. apply claimed_insert.
  - assert (H0 : moved nothing nothing nothing nothing d (d <| money := m |>))
      by (split; [rewrite Hm; exact (users_same (money d))|apply keys_same|apply subs_same|apply accounts_same]).
    eapply moved_ext; [exact (moved_trans _ _ _ _ _ _ _ _ _ _ _ H0 Hmv)|..]; intros i; cbn; lia.
Qed.

Record usage_ok (d0 : usage_db) (s : usage_db * list UsageBillingCommand) : Prop := {
  uo_claimed : forall c, c ∈ s.2 -> request_key c ∈ claimed (money s.1);
  uo_nodup : NoDup (request_key <$> s.2);
  uo_moved : moved (total user_charge s.2) (total key_charge s.2) (total subscription_charge s.2) (total account_charge s.2) d0 s.1
}.

Definition op_reads_back (op : usage_op) : Prop := match op with Bill c _ => amounts_read_back c | ArchiveClaims _ => True end.

Lemma usage_ok_step d0 op s : op_reads_back op -> usage_ok d0 s -> usage_ok d0 (usage_step op s).
Proof.
  intros Hop [Hc Hn Hm]. destruct s as [d log]. cbn [fst snd] in *. destruct op as [c now|victims]; cbn [usage_step fst snd].
  - destruct (apply_effect c now d Hop) as [(r & Hr & Happ & Hnew & Hcl & Hmv)|[Hd Hno]]; destruct (apply c now d) as [o d'];
      cbn [fst snd] in *.
    + rewrite Hr, Happ. split; cbn [fst snd].
      * intros c' [Hin|Hin%list_elem_of_singleton]%elem_of_app; rewrite Hcl; [apply Hc in Hin|subst]; set_solver.
      * rewrite fmap_app. apply NoDup_app. split; [done|]. split; [|apply NoDup_singleton].
        intros k (c' & -> & Hin)%list_elem_of_fmap [E|E]%elem_of_cons; [|by apply elem_of_nil in E]. apply Hnew. rewrite <- E. by apply Hc.
      * eapply moved_ext; [exact (moved_trans _ _ _ _ _ _ _ _ _ _ _ Hm Hmv)|..]; intros i; by rewrite total_snoc.
    + subst d'. destruct o as [r|e]; [rewrite (Hno r eq_refl)|]; by split.
  - split; cbn [fst snd money set_field]; [|done|].
    + intros c Hin. rewrite claimed_archive. by apply Hc.
    + destruct Hm as [H1 H2 H3 H4]. by split.
Qed.

Lemma usage_ok_run d0 ops s : Forall op_reads_back ops -> usage_ok d0 s -> usage_ok d0 (run usage_step ops s).
Proof. intros Hops. revert s. induction Hops as [|op ops Hop _ IH]; intros s Hs; [done|]. apply IH. by apply usage_ok_step. Qed.

(** C6: The books reconcile.  Through any sequence of billed requests, with
    retries, conflicts, failures and the archiving of old claims, each request
    of a key is charged at most once; a user's balance falls, and the quota of
    a key, the three windows of a subscription (which keep ten decimals) and
    the quota of an account rise, by exactly the sum of the charged costs,
    each rounded once to eight decimals.  So no two of the books differ in the
    last digit, although one subtracts and the others add. *)
Theorem usage_reconciles ops d0 :
  Forall op_reads_back ops ->
  let '(d, log) := run usage_step ops (d0, []) in
  NoDup (request_key <$> log) /\
  (forall uid u, users (money d0) !! uid = Some u ->
     users (money d) !! uid = Some (u <| balance := balance u - total user_charge log uid |>)) /\
  (forall kid k, api_keys d0 !! kid = Some k -> key_deleted k = false ->
     exists k', api_keys d !! kid = Some k' /\ key_quota_used k' = key_quota_used k + total key_charge log kid) /\
  (forall sid s, subs (subscriptions d0) !! sid = Some s ->
     exists s', subs (subscriptions d) !! sid = Some s' /\ forall w, usage_of w s' = usage_of w s + 100 * total subscription_charge log sid) /\
  (forall aid a, accounts (quotas d0) !! aid = Some a ->
     exists a', accounts (quotas d) !! aid = Some a' /\
       (amount_or_0 (quota_used (extra a')) == amount_or_0 (quota_used (extra a)) + (total account_charge log aid # (10 ^ 8)))%Q).
Proof.
  intros Hops. destruct (usage_ok_run d0 ops (d0, []) Hops) as [_ Hn [Hu Hk Hs Ha]].
  { split; [intros c Hc; by apply elem_of_nil in Hc|constructor|apply moved_refl]. }
  destruct (run usage_step ops (d0, [])) as [d log]. cbn [fst snd] in *. split; [done|]. split; [exact Hu|]. split; [|by split].
  intros kid k Hrow Hdel. destruct (Hk kid k Hrow Hdel) as (k' & H1 & _ & _ & H2). eauto.
Qed.

(** *** Standard requests *)

(** Paid from the balance by a key that has a quota. *)
Definition standard (p : postUsageBillingParams) : Prop :=
  IsSubscriptionBill p = false /\ SimpleModeKeyRateLimitOnly p = false /\ hasAPIKeyService p = true /\
  exists k, APIKey p = Some k /\ (f64_zero <? Quota k)%f64 = true.

Lemma standard_costs id log p c :
  buildUsageBillingCommand numeric sha256_hex id log p = Some c -> standard p -> BalanceCost c = APIKeyQuotaCost c.
Proof.
  intros Hb (Hsub & Hsimple & Hsvc & k & Hk & Hq). unfold buildUsageBillingCommand in Hb. rewrite Hk in Hb.
  destruct (CostOf p) as [cost|]; [|done]. destruct (User p) as [uid|]; [|done]. destruct (AccountOf p) as [a|]; [|done].
  injection Hb as <-. destruct (normal_fields (charge_command p cost k a (uncharged id log uid k a (p_RequestPayloadHash p))))
    as (_ & _ & _ & _ & _ & _ & -> & _ & -> & _). f_equal.
  unfold charge_command, shouldDeductAPIKeyQuota. rewrite Hsub, Hsimple, Hsvc, Hq.
  destruct (Subscription p), (f64_zero <? ActualCost cost)%f64; cbn [andb];
    destruct (shouldUpdateRateLimits p cost k), (shouldUpdateAccountQuota cost a); done.
Qed.

(** Every request of one user is a standard request of one key. *)
Definition paid_with (uid kid : Z) (c : UsageBillingCommand) : Prop :=
  (exists id log p, buildUsageBillingCommand numeric sha256_hex id log p = Some c /\ standard p) /\ (UserID c = uid <-> APIKeyID c = kid).

Lemma logged P ops s :
  Forall (fun op => match op with Bill c _ => P c | ArchiveClaims _ => True end) ops -> Forall P s.2 -> Forall P (run usage_step ops s).2.
Proof.
  intros Hops. revert s. induction Hops as [|op ops Hop _ IH]; intros s Hs; [done|]. apply IH.
  destruct op as [c now|v]; cbn [usage_step]; [|done]. destruct (apply c now s.1) as [[r|e] d]; cbn; [|done].
  destruct (Applied r); [|done]. by apply Forall_app_2; [|constructor].
Qed.

(** C9: The balance and the quota of a key tell the same story.  When a user's
    requests are standard ones, all with one key that has a quota, then after
    any sequence of them the balance has fallen by exactly what the used quota
    has risen: no tolerance is needed to compare them. *)
Theorem balance_matches_quota ops d0 uid kid u k :
  Forall op_reads_back ops -> Forall (fun op => match op with Bill c _ => paid_with uid kid c | ArchiveClaims _ => True end) ops ->
  users (money d0) !! uid = Some u -> api_keys d0 !! kid = Some k -> key_deleted k = false ->
  let d := (run usage_step ops (d0, [])).1 in
  exists u' k', users (money d) !! uid = Some u' /\ api_keys d !! kid = Some k' /\
    balance u - balance u' = key_quota_used k' - key_quota_used k.
Proof.
  intros Hops Hpaid Hu Hk Hdel. destruct (usage_ok_run d0 ops (d0, []) Hops) as [_ _ [Mu Mk _ _]].
  { split; [intros c Hc; by apply elem_of_nil in Hc|constructor|apply moved_refl]. }
  pose proof (logged _ ops (d0, []) Hpaid (Forall_nil_2 _)) as Hlog. destruct (run usage_step ops (d0, [])) as [d log]. cbn [fst snd] in *.
  destruct (Mk kid k Hk Hdel) as (k' & Hk' & _ & _ & Hused). eexists _, k'. split; [apply Mu, Hu|]. split; [done|].
  assert (Hsum : total user_charge log uid = total key_charge log kid).
  { clear -Hlog. induction Hlog as [|c log [(id & l & p & Hb & Hp) Hwho] _ IH]; [done|]. unfold total in *. cbn. rewrite IH.
    unfold user_charge, key_charge, at_id. rewrite (standard_costs _ _ _ _ Hb Hp).
    assert (E : (uid =? UserID c) = (kid =? APIKeyID c)) by (rewrite (Z.eqb_sym uid), (Z.eqb_sym kid); apply eq_true_iff_eq; by rewrite !Z.eqb_eq).
    by rewrite E. }
  cbn. lia.
Qed.

(** *** The moment a quota is exhausted *)

Lemma column_le a q b : (q == b # (10 ^ 8))%Q -> Qle_bool (key_amount a) q = (a <=? b).
Proof.
  intros Hq. apply eq_true_iff_eq. rewrite Qle_bool_iff, Z.leb_le, Hq. unfold key_amount, numeric_value, Qle. cbn [Qnum Qden]. nia.
Qed.

Definition crosses (k k' : api_key_row) : bool :=
  (0 <? quota k) && (key_quota_used k <? quota k) && (quota k <=? key_quota_used k').

Definition status_after (k k' : api_key_row) : string :=
  if crosses k k' && (key_status k =s StatusAPIKeyActive) then StatusAPIKeyQuotaExhausted else key_status k.

Lemma key_quota_crosses c res res' d d' k :
  reads_back (APIKeyQuotaCost c) -> APIKeyQuotaExhausted res = false -> count_key_quota numeric (norm c) res d = Ok (res', d') ->
  api_keys d !! APIKeyID c = Some k -> key_deleted k = false ->
  exists k', api_keys d' !! APIKeyID c = Some k' /\ key_deleted k' = false /\
    APIKeyQuotaExhausted res' = crosses k k' /\ key_status k' = status_after k k'.
Proof.
  intros Hr Hres. unfold count_key_quota. destruct (normal_fields c) as (_ & -> & _ & _ & _ & _ & _ & _ & -> & _).
  intros H Hk Hdel. case_match.
  - unfold incrementUsageBillingAPIKeyQuota in H. rewrite Hk, Hdel in H. destruct (numeric_store 8 _) as [used|] eqn:Hs; [|done].
    injection H as <- <-. apply (stored_sum _ _ _ _ Hs) in Hr as Hused. cbn. rewrite lookup_insert_eq.
    eexists. split; [reflexivity|]. split; [exact Hdel|].
    pose proof (column_le (quota k) _ _ (exact_sum (key_quota_used k) _ _ Hr)) as E1.
    pose proof (column_le (quota k) _ _ (exact_difference used _ _ Hr)) as E2. rewrite <- Hused in E1.
    replace (used - units numeric (APIKeyQuotaCost c)) with (key_quota_used k) in E2 by lia.
    change (numeric_value 8) with key_amount in E1, E2. rewrite E1, E2.
    unfold status_after, crosses. cbn. split.
    + rewrite <- andb_assoc, (andb_comm (quota k <=? used)), andb_assoc. do 2 f_equal. lia.
    + by destruct (0 <? quota k), (key_status k =s _), (key_quota_used k <? quota k), (quota k <=? used).
  - injection H as <- <-. exists k. split; [done|]. split; [done|]. unfold status_after, crosses. rewrite Hres.
    destruct (0 <? quota k), (Z.ltb_spec (key_quota_used k) (quota k)), (Z.leb_spec (quota k) (key_quota_used k)); try done; lia.
Qed.

Lemma rate_limit_keeps c now d d' i k :
  count_rate_limit numeric db_day c now d = Ok d' -> api_keys d !! i = Some k -> 
  exists k', api_keys d' !! i = Some k' /\ key_quota_used k' = key_quota_used k /\ key_status k' = key_status k.
Proof.
  unfold count_rate_limit, incrementUsageBillingAPIKeyRateLimit. intros H Hk. branches_in H; eauto.
  all: destruct (Z.eqb_spec i (APIKeyID c)) as [->|Hne]; [rewrite lookup_insert_eq|rewrite lookup_insert_ne by done; eauto].
  all: eexists; split; [reflexivity|]; split; cbn; congruence.
Qed.

Lemma earlier_charges c res d d1 d2 res2 :
  charge_subscription numeric c d = Ok d1 -> charge_balance numeric c res d1 = Ok (res2, d2) ->
  api_keys d2 = api_keys d /\ APIKeyQuotaExhausted res2 = APIKeyQuotaExhausted res.
Proof. unfold charge_subscription, charge_balance, and_then. intros H1 H2. branches_in H1; branches_in H2. Qed.

Lemma account_keeps c now res res' d d' :
  count_account numeric at_zone from_zone c now res d = Ok (res', d') ->
  api_keys d' = api_keys d /\ APIKeyQuotaExhausted res' = APIKeyQuotaExhausted res.
Proof. unfold count_account, and_then. intros H. branches_in H. Qed.

Lemma applied_effects c now d r d' :
  apply c now d = (Ok r, d') -> Applied r = true ->
  exists m, applyUsageBillingEffects numeric at_zone from_zone db_day (norm c) now (d <| money := m |>) = Ok (r, d').
Proof.
  unfold Apply. cbv zeta. destruct (RequestID (norm c) =s ""); [done|].
  destruct (claimUsageBillingRequest _ _ _ _) as [[[|]|e] m]; [|by intros [= <- _]|done].
  destruct (applyUsageBillingEffects _ _ _ _ _ _ _) as [[r1 d1]|e] eqn:He; [|done]. intros [= <- <-] _. by exists m.
Qed.

(** The request that exhausts a quota reports it.  A charged request answers
    that the quota of its key is exhausted exactly when its own cost takes the
    used amount from below the quota to it or beyond, and exactly then an
    active key becomes an exhausted one. *)
Theorem exhausted_at_crossing c now d r d' k :
  apply c now d = (Ok r, d') -> Applied r = true -> reads_back (APIKeyQuotaCost c) ->
  api_keys d !! APIKeyID c = Some k -> key_deleted k = false ->
  exists k', api_keys d' !! APIKeyID c = Some k' /\ APIKeyQuotaExhausted r = crosses k k' /\ key_status k' = status_after k k'.
Proof.
  intros H Happ Hr Hk Hdel. destruct (applied_effects _ _ _ _ _ H Happ) as [m He].
  destruct (effects_in_order _ _ _ _ _ He) as (d1 & r2 & d2 & r3 & d3 & d4 & E1 & E2 & E3 & E4 & E5).
  destruct (earlier_charges _ _ _ _ _ _ E1 E2) as [K2 X2]. destruct (account_keeps _ _ _ _ _ _ E5) as [K5 X5].
  destruct (key_quota_crosses c r2 r3 d2 d3 k Hr X2 E3) as (k3 & Hk3 & _ & Hx & Hst); [rewrite K2; exact Hk|exact Hdel|].
  destruct (rate_limit_keeps _ _ _ _ _ _ E4 Hk3) as (k4 & Hk4 & Hu4 & Hs4). exists k4. rewrite K5, X5, Hx, Hs4, Hst.
  split; [exact Hk4|]. unfold status_after, crosses. by rewrite Hu4.
Qed.
End ledger.

(** ** A concrete run *)

(** The smallest cost whose ninth decimal is a half, charged twice and retried
    once, to a user with 10000 dollars and a key with a quota of 0.00015626. *)
Definition half_cost : float64 := f64_of_ratio 78125 (10 ^ 9).
Definition demo_row : api_key_row := KeyRow 15626 0 StatusAPIKeyActive 0 0 0 None None None false.
Definition demo_books : usage_db :=
  UsageDB (Billing {[ 1 := UsageBilling.User (10000 * 10 ^ 8) 0 false ]} ∅ ∅) {[ 7 := demo_row ]} (SubDB ∅ ∅ 1) (AccountDB ∅ []).
Definition demo_params : postUsageBillingParams :=
  BillingParams (Some (UsageApply.Cost half_cost half_cost)) (Some 1) (Some (BilledKey 7 f64_one f64_zero f64_zero f64_zero))
    (Some (BilledAccount 3 "oauth" f64_zero f64_zero f64_zero)) None "" false f64_one true false.
Definition demo_request (id : string) : UsageBillingCommand :=
  default (uncharged id None 0 (BilledKey 0 f64_zero f64_zero f64_zero f64_zero) (BilledAccount 0 "" f64_zero f64_zero f64_zero) "")
    (buildUsageBillingCommand decimal10 no_hash id None demo_params).
Definition demo_requests : list usage_op :=
  [Bill (demo_request "client:a") 5; Bill (demo_request "client:a") 6; ArchiveClaims {[ ("client:a", 7) ]}; Bill (demo_request "client:a") 7;
   Bill (demo_request "client:b") 8].
Definition demo_zone (z : string) (t : Time) : Time := t.
Notation demo_run := (run (usage_step decimal10 no_hash demo_zone demo_zone (fun t => t)) demo_requests (demo_books, [])).

Lemma demo_read_back : Forall (op_reads_back decimal10) demo_requests.
Proof. repeat (apply Forall_cons; split; [first [exact I | repeat split; vm_compute; reflexivity]|]). apply Forall_nil_2. Qed.

Lemma usage_reconciles_witness :
  map RequestID demo_run.2 = ["client:a"; "client:b"] /\
  users (money demo_run.1) !! 1 = Some (UsageBilling.User (10000 * 10 ^ 8 - 2 * 7813) 0 false).
Proof.
  pose proof (usage_reconciles decimal10 no_hash demo_zone demo_zone (fun t => t) demo_requests demo_books demo_read_back) as H.
  split; [vm_compute; reflexivity|]. destruct demo_run as [d log] eqn:E. destruct H as (_ & Hu & _). cbn [fst snd].
  rewrite (Hu 1 (UsageBilling.User (10000 * 10 ^ 8) 0 false) eq_refl). f_equal.
  assert (Hlog : log = demo_run.2) by (by rewrite E). rewrite Hlog. vm_compute. reflexivity.
Defined.

Lemma balance_matches_quota_witness :
  exists u' k', users (money demo_run.1) !! 1 = Some u' /\ api_keys demo_run.1 !! 7 = Some k' /\
    10000 * 10 ^ 8 - balance u' = key_quota_used k' - 0.
Proof.
  apply (balance_matches_quota decimal10 no_hash demo_zone demo_zone (fun t => t) demo_requests demo_books 1 7
           (UsageBilling.User (10000 * 10 ^ 8) 0 false) demo_row demo_read_back); [|reflexivity..].
  assert (Hp : standard demo_params)
    by (repeat split; exists (BilledKey 7 f64_one f64_zero f64_zero f64_zero); split; [reflexivity|vm_compute; reflexivity]).
  assert (Hc : forall id, paid_with decimal10 no_hash 1 7 (demo_request id)).
  { intros id. split; [|by split]. exists id, None, demo_params. by split. }
  unfold demo_requests. repeat (apply Forall_cons; split; [first [exact I | apply Hc]|]). apply Forall_nil_2.
Defined.

Lemma exhausted_at_crossing_witness :
  let d := (Apply decimal10 no_hash demo_zone demo_zone (fun t => t) (demo_request "client:a") 5 demo_books).2 in
  exists r k', (Apply decimal10 no_hash demo_zone demo_zone (fun t => t) (demo_request "client:b") 8 d).1 = Ok r /\
    APIKeyQuotaExhausted r = true /\ key_status k' = StatusAPIKeyQuotaExhausted.
Proof.
  intros d. set (o := Apply decimal10 no_hash demo_zone demo_zone (fun t => t) (demo_request "client:b") 8 d).
  set (r := ApplyResult true true (Some (numeric_scan 8 999999984374)) false None).
  assert (Hr : o = (Ok r, o.2)) by (rewrite (surjective_pairing o) at 1; f_equal; vm_compute; reflexivity).
  destruct (exhausted_at_crossing decimal10 no_hash demo_zone demo_zone (fun t => t) (demo_request "client:b") 8 d r o.2
    (demo_row <| key_quota_used := 7813 |>) Hr) as (k' & Hk' & Hx & Hs).
  - reflexivity.
  - vm_compute. reflexivity.
  - vm_compute. reflexivity.
  - reflexivity.
  - exists r, k'. split; [rewrite Hr; reflexivity|]. split; [reflexivity|]. rewrite Hs. unfold status_after. rewrite <- Hx. reflexivity.
Defined.
End UsageLedger.
