(* ===== verification/PaymentOrders.v ===== *)
(** * Payment orders and redeem codes

    An order that is paid is fulfilled by a redeem code of its own (balance) or
    by an assignment of a subscription ([service/payment_fulfillment.go],
    [service/redeem_service.go]).  Here are the tables and the statements on
    them.  Every update of an order also sets its [updated_at], which is the
    version that a fulfilment leases. *)

From Stdlib Require Import QArith SpecFloat.
From S2P Require Import Prelude Programs GoStrings GoFloat AppErrors Subscriptions SubscriptionService.

Module PaymentOrders.
Export GoFloat AppErrors Programs.
Import SubscriptionService.
#[local] Open Scope Z_scope.

Definition OrderStatusPending : string := "PENDING".
Definition OrderStatusPaid : string := "PAID".
Definition OrderStatusRecharging : string := "RECHARGING".
Definition OrderStatusCompleted : string := "COMPLETED".
Definition OrderStatusExpired : string := "EXPIRED".
Definition OrderStatusCancelled : string := "CANCELLED".
Definition OrderStatusFailed : string := "FAILED".
Definition OrderStatusRefundRequested : string := "REFUND_REQUESTED".
Definition OrderStatusRefunding : string := "REFUNDING".
Definition OrderStatusRefundPending : string := "REFUND_PENDING".
Definition OrderStatusPartiallyRefunded : string := "PARTIALLY_REFUNDED".
Definition OrderStatusRefunded : string := "REFUNDED".
Definition OrderStatusRefundFailed : string := "REFUND_FAILED".

Definition psIsRefundStatus (s : string) : bool :=
  existsb (String.eqb s) [OrderStatusRefundRequested; OrderStatusRefunding; OrderStatusRefundPending; OrderStatusPartiallyRefunded;
                          OrderStatusRefunded; OrderStatusRefundFailed].

Definition OrderTypeBalance : string := "balance".
Definition OrderTypeSubscription : string := "subscription".
Definition RedeemTypeBalance : string := "balance".
Definition RedeemTypeConcurrency : string := "concurrency".
Definition RedeemTypeSubscription : string := "subscription".
Definition RedeemTypeInvitation : string := "invitation".
Definition StatusUnused : string := "unused".
Definition StatusUsed : string := "used".
Definition StatusExpired : string := "expired".
Definition StatusDisabled : string := "disabled".

Definition ErrOrderNotFound : error := PlainError "payment order not found".
Definition ErrRedeemCodeNotFound : error := New 404 "REDEEM_CODE_NOT_FOUND" "redeem code not found".
Definition ErrRedeemCodeUsed : error := New 409 "REDEEM_CODE_USED" "redeem code already used".
Definition ErrRedeemCodeExpired : error := New 409 "REDEEM_CODE_EXPIRED" "redeem code expired".
Definition ErrRedeemRateLimited : error := New 429 "REDEEM_RATE_LIMITED" "too many failed attempts, please try again later".
Definition ErrRedeemCodeLocked : error := New 409 "REDEEM_CODE_LOCKED" "redeem code is being processed, please try again".
Definition ErrUserNotFound : error := New 404 "USER_NOT_FOUND" "user not found".
Definition overflow : error := DriverError "numeric field overflow".

Definition paymentFulfillmentLeaseDuration : Duration := 5 * Minute.
Definition paymentGraceMinutes : Z := 5.

(** ** Rows *)

(** What [psOrderProviderSnapshot] reads; the texts are trimmed. *)
Record paymentOrderProviderSnapshot := Snapshot {
  ProviderKey : string;
  MerchantAppID : string;
  MerchantID : string;
  Currency : string
}.

Record payment_order := Order {
  o_ID : Z;
  o_UserID : Z;
  OutTradeNo : string;
  OrderType : string;
  Amount : Z;                    (* units of 10^-2 *)
  PayAmount : Z;
  RechargeCode : string;
  o_Status : string;
  UpdatedAt : Time;
  o_ExpiresAt : Time;
  PaidAt : option Time;
  PaymentTradeNo : string;
  PaymentType : string;
  SubscriptionGroupID : option Z;
  SubscriptionDays : option Z;
  o_CreatedAt : Time;
  o_ProviderKey : option string;
  o_Snapshot : option paymentOrderProviderSnapshot;
  CompletedAt : option Time
}.
#[export] Instance payment_order_struct : Struct payment_order := fun o =>
  Order (o_ID o) (o_UserID o) (OutTradeNo o) (OrderType o) (Amount o) (PayAmount o) (RechargeCode o) (o_Status o) (UpdatedAt o)
    (o_ExpiresAt o) (PaidAt o) (PaymentTradeNo o) (PaymentType o) (SubscriptionGroupID o) (SubscriptionDays o)
    (o_CreatedAt o) (o_ProviderKey o) (o_Snapshot o) (CompletedAt o).

Record RedeemCode := MkCode {
  c_ID : Z;
  c_Code : string;
  c_Type : string;
  c_Value : Z;                   (* units of 10^-8 *)
  c_Status : string;
  UsedBy : option Z;
  c_ExpiresAt : option Time;
  c_GroupID : option Z;
  c_ValidityDays : Z;
  c_Notes : string
}.
#[export] Instance redeem_code_struct : Struct RedeemCode := fun c =>
  MkCode (c_ID c) (c_Code c) (c_Type c) (c_Value c) (c_Status c) (UsedBy c) (c_ExpiresAt c) (c_GroupID c) (c_ValidityDays c) (c_Notes c).

Definition IsUsed (c : RedeemCode) : bool := c_Status c =s StatusUsed.
Definition IsExpiredAt (c : RedeemCode) (now : Time) : bool :=
  (c_Status c =s StatusExpired) ||
  ((c_Status c =s StatusUnused) && match c_ExpiresAt c with Some e => negb (After e now) | None => false end).
Definition CanUse (c : RedeemCode) (now : Time) : bool := (c_Status c =s StatusUnused) && negb (IsExpiredAt c now).

Record payer := Payer {
  p_balance : Z;                 (* units of 10^-8 *)
  total_recharged : Z;
  p_concurrency : Z;
  p_deleted : bool
}.
#[export] Instance payer_struct : Struct payer := fun p => Payer (p_balance p) (total_recharged p) (p_concurrency p) (p_deleted p).

(** Orders are keyed by their ids, codes by their unique [code]; [audit] has the
    order and action of each row of [payment_audit_logs], unique together. *)
Record payment_db := PaymentDB {
  orders : gmap Z payment_order;
  next_order : Z;
  codes : gmap string RedeemCode;
  next_code : Z;
  payers : gmap Z payer;
  audit : list (Z * string);
  pay_subs : Subscriptions.sub_db
}.
#[export] Instance payment_db_struct : Struct payment_db := fun d =>
  PaymentDB (orders d) (next_order d) (codes d) (next_code d) (payers d) (audit d) (pay_subs d).

Definition order_not_found : error := DriverError "ent: payment_order not found".

Section statements.
Context (offset : Time -> Duration) (column : Time -> Time) (numeric : float64 -> Q).

(** ** Orders *)

Definition get_order (id : Z) (d : payment_db) : outcome payment_order error :=
  match orders d !! id with Some o => Ok o | None => Err order_not_found end.

Definition order_by_trade_no (outTradeNo : string) (d : payment_db) : outcome payment_order error :=
  match List.find (fun o => OutTradeNo o =s outTradeNo) (map snd (map_to_list (orders d))) with
  | Some o => Ok o
  | None => Err order_not_found
  end.

(** [UnixNano] and a [Time] have the same last digits.  The insertion of
    [createOrderInTx]; [candidate] is a trade number that no
    order had when it was drawn. *)
Definition recharge_code (id : Z) (now : Time) : string := "PAY-" +:+ Itoa id +:+ "-" +:+ Itoa (Z.rem now 100000).
Definition insert_order (o : payment_order) (candidate : string) (now : Time) (d : payment_db) : outcome payment_order error * payment_db :=
  if existsb (fun r => OutTradeNo r =s candidate) (map snd (map_to_list (orders d))) && negb (candidate =s "") then (Err duplicate_key, d)
  else
    let id := next_order d in
    let o := o <| o_ID := id |> <| OutTradeNo := candidate |> <| RechargeCode := recharge_code id now |> <| PaymentTradeNo := "" |>
               <| o_Status := OrderStatusPending |> <| PaidAt := None |> <| UpdatedAt := column now |> <| o_CreatedAt := column now |>
               <| CompletedAt := None |> in
    (Ok o, d <| orders := <[id := o]> (orders d) |> <| next_order := id + 1 |>).

(** [ExpireTimedOutOrders] and [ReconcilePendingPaymentOrders] select these. *)
Definition pending_orders (keep : payment_order -> bool) (d : payment_db) : list payment_order :=
  List.filter (fun o => (o_Status o =s OrderStatusPending) && keep o) (map snd (map_to_list (orders d))).
Definition timed_out (now : Time) (d : payment_db) : list payment_order := pending_orders (fun o => o_ExpiresAt o <=? column now) d.

Definition TypeWxpay : string := "wxpay".
Definition TypeAlipay : string := "alipay".
Definition pendingPaymentReconcileLimit : nat := 20.
Definition of_family (t : string) (s : string) : bool := (s =s t) || HasPrefix s (t +:+ "_").
Definition earlier (x y : payment_order) : Prop := o_CreatedAt x <= o_CreatedAt y.
#[local] Instance earlier_dec : RelDecision earlier := fun x y => Z_le_dec _ _.
Definition reconcilable (now : Time) (d : payment_db) : list payment_order :=
  take pendingPaymentReconcileLimit
    (merge_sort earlier
       (pending_orders
          (fun o => (column now <? o_ExpiresAt o) &&
             existsb (fun t => of_family t (PaymentType o) || match o_ProviderKey o with Some k => of_family t k | None => false end)
               [TypeWxpay; TypeAlipay]) d)).

(** [UPDATE payment_orders .. WHERE id = .. AND guard]: the affected rows. *)
Definition update_order (id : Z) (guard : payment_order -> bool) (f : payment_order -> payment_order) (d : payment_db) : Z * payment_db :=
  match orders d !! id with
  | Some o => if guard o then (1, d <| orders := <[id := f o]> (orders d) |>) else (0, d)
  | None => (0, d)
  end.

Definition mark_paid (id : Z) (tradeNo : string) (paid : float64) (now : Time) (d : payment_db) : outcome Z error * payment_db :=
  let grace := now - paymentGraceMinutes * Minute in
  match numeric_store 2 (numeric paid) with
  | None => (Err overflow, d)
  | Some amount =>
      let '(n, d) := update_order id
        (fun o => (o_Status o =s OrderStatusPending) || (o_Status o =s OrderStatusCancelled) ||
                  ((o_Status o =s OrderStatusExpired) && (column grace <=? UpdatedAt o)))
        (fun o => o <| o_Status := OrderStatusPaid |> <| PayAmount := amount |> <| PaymentTradeNo := tradeNo |>
                    <| PaidAt := Some (column now) |> <| UpdatedAt := column now |>) d in
      (Ok n, d)
  end.

(** The lease: [now] has microseconds. *)
Definition acquire_lease (id : Z) (now : Time) (d : payment_db) : Z * payment_db :=
  let staleBefore := now - paymentFulfillmentLeaseDuration in
  update_order id
    (fun o => (o_Status o =s OrderStatusPaid) || (o_Status o =s OrderStatusFailed) ||
              ((o_Status o =s OrderStatusRecharging) && (UpdatedAt o <=? staleBefore)))
    (fun o => o <| o_Status := OrderStatusRecharging |> <| UpdatedAt := now |>) d.

Definition holds_lease (version : Time) (o : payment_order) : bool :=
  (o_Status o =s OrderStatusRecharging) && (UpdatedAt o =? version).
Definition mark_completed (id : Z) (version now : Time) (d : payment_db) : Z * payment_db :=
  update_order id (holds_lease version)
    (fun o => o <| o_Status := OrderStatusCompleted |> <| UpdatedAt := column now |> <| CompletedAt := Some (column now) |>) d.
Definition mark_failed (id : Z) (version now : Time) (d : payment_db) : Z * payment_db :=
  update_order id (holds_lease version) (fun o => o <| o_Status := OrderStatusFailed |> <| UpdatedAt := column now |>) d.

Definition end_pending (id : Z) (status : string) (now : Time) (d : payment_db) : Z * payment_db :=
  update_order id (fun o => o_Status o =s OrderStatusPending) (fun o => o <| o_Status := status |> <| UpdatedAt := column now |>) d.

Definition set_trade_no (id : Z) (tradeNo : string) (now : Time) (d : payment_db) : Z * payment_db :=
  update_order id (fun _ => true) (fun o => o <| PaymentTradeNo := tradeNo |> <| UpdatedAt := column now |>) d.

(** [UpdateOneID]. *)
Definition update_one (id : Z) (f : payment_order -> payment_order) (d : payment_db) : outcome unit error * payment_db :=
  let '(n, d) := update_order id (fun _ => true) f d in (if n =? 0 then Err order_not_found else Ok tt, d).

(** The reply of the provider to a new payment; empty texts change nothing. *)
Definition save_provider_reply (id : Z) (tradeNo providerKey : string) (now : Time) (d : payment_db) : outcome unit error * payment_db :=
  update_one id
    (fun o => o <| PaymentTradeNo := if tradeNo =s "" then PaymentTradeNo o else tradeNo |>
                <| o_ProviderKey := if providerKey =s "" then o_ProviderKey o else Some providerKey |> <| UpdatedAt := column now |>) d.

(** A payment that could not be set up, whatever became of the order since. *)
Definition fail_order (id : Z) (now : Time) (d : payment_db) : outcome unit error * payment_db :=
  update_one id (fun o => o <| o_Status := OrderStatusFailed |> <| UpdatedAt := column now |>) d.

(** ** Audit *)

Definition has_audit (id : Z) (action : string) (d : payment_db) : bool := bool_decide ((id, action) ∈ audit d).
Definition write_audit (id : Z) (action : string) (d : payment_db) : outcome unit error * payment_db :=
  if has_audit id action d then (Err duplicate_key, d) else (Ok tt, d <| audit := audit d ++ [(id, action)] |>).

(** ** Redeem codes *)

Definition get_code (code : string) (d : payment_db) : outcome RedeemCode error :=
  match codes d !! code with Some c => Ok c | None => Err ErrRedeemCodeNotFound end.

Definition code_with_id (id : Z) (d : payment_db) : option RedeemCode :=
  List.find (fun c => c_ID c =? id) (map snd (map_to_list (codes d))).
Definition get_code_by_id (id : Z) (d : payment_db) : outcome RedeemCode error :=
  match code_with_id id d with Some c => Ok c | None => Err ErrRedeemCodeNotFound end.

Definition create_code (c : RedeemCode) (d : payment_db) : outcome unit error * payment_db :=
  match codes d !! c_Code c with
  | Some _ => (Err duplicate_key, d)
  | None =>
      (Ok tt, d <| codes := <[c_Code c := c <| c_ID := next_code d |>]> (codes d) |> <| next_code := next_code d + 1 |>)
  end.

(** [redeemRepo.Use]: only an unused code. *)
Definition use_code (c : RedeemCode) (uid : Z) (d : payment_db) : outcome unit error * payment_db :=
  match codes d !! c_Code c with
  | Some row =>
      if (c_ID row =? c_ID c) && (c_Status row =s StatusUnused)
      then (Ok tt, d <| codes := <[c_Code c := row <| c_Status := StatusUsed |> <| UsedBy := Some uid |>]> (codes d) |>)
      else (Err ErrRedeemCodeUsed, d)
  | None => (Err ErrRedeemCodeUsed, d)
  end.

Definition delete_code (id : Z) (d : payment_db) : payment_db :=
  match code_with_id id d with Some c => d <| codes := delete (c_Code c) (codes d) |> | None => d end.

(** [Update] writes the whole row. *)
Definition update_code (c : RedeemCode) (d : payment_db) : outcome unit error * payment_db :=
  match code_with_id (c_ID c) d with
  | None => (Err ErrRedeemCodeNotFound, d)
  | Some row =>
      if (c_Code c =s c_Code row) || negb (bool_decide (is_Some (codes d !! c_Code c)))
      then (Ok tt, d <| codes := <[c_Code c := c]> (delete (c_Code row) (codes d)) |>)
      else (Err duplicate_key, d)
  end.

Record RedeemCodeBatchUpdateFields := BatchFields {
  u_Status : option string;
  u_ExpiresAt : option (option Time);
  u_Notes : option string;
  u_GroupID : option (option Z);
  u_Type : option string;
  u_Value : option Z
}.

Definition set_fields (f : RedeemCodeBatchUpdateFields) (c : RedeemCode) : RedeemCode :=
  let c := match u_Status f with Some s => c <| c_Status := s |> | None => c end in
  let c := match u_Notes f with Some n => c <| c_Notes := n |> | None => c end in
  let c := match u_ExpiresAt f with Some e => c <| c_ExpiresAt := option_map column e |> | None => c end in
  match u_GroupID f with Some g => c <| c_GroupID := g |> | None => c end.

(** [UPDATE redeem_codes .. WHERE id IN ids]. *)
Definition update_codes (ids : list Z) (f : RedeemCodeBatchUpdateFields) (d : payment_db) : Z * payment_db :=
  let hit (c : RedeemCode) := bool_decide (c_ID c ∈ ids) in
  (Z.of_nat (length (List.filter hit (map snd (map_to_list (codes d))))),
   d <| codes := (fun c => if hit c then set_fields f c else c) <$> codes d |>).

Definition codes_with_ids (ids : list Z) (d : payment_db) : list RedeemCode :=
  List.filter (fun c => bool_decide (c_ID c ∈ ids)) (map snd (map_to_list (codes d))).

(** *** What a code gives *)

Definition unsupportedRedeemTypeError (codeType : string) : error :=
  New 400 "REDEEM_CODE_UNSUPPORTED_TYPE"
    (if codeType =s RedeemTypeInvitation then "invitation codes can only be used during registration"
     else "unsupported redeem type: " +:+ codeType).

Definition value_of (c : RedeemCode) : float64 := numeric_scan 8 (c_Value c).

Definition set_payer (uid : Z) (p : payer) (d : payment_db) : payment_db := d <| payers := <[uid := p]> (payers d) |>.

Definition UpdateBalance (uid : Z) (amount : float64) (d : payment_db) : outcome unit error * payment_db :=
  match payers d !! uid with
  | None => (Err ErrUserNotFound, d)
  | Some p =>
      match numeric_store 8 (numeric_value 8 (p_balance p) + numeric amount)%Q,
            numeric_store 8 (numeric_value 8 (total_recharged p) + (if (f64_zero <? amount)%f64 then numeric amount else 0))%Q with
      | Some b, Some t => (Ok tt, set_payer uid (p <| p_balance := b |> <| total_recharged := t |>) d)
      | _, _ => (Err overflow, d)
      end
  end.

Definition ApplyRedeemBalanceAdjustment (uid : Z) (delta : float64) (d : payment_db) : outcome unit error * payment_db :=
  match payers d !! uid with
  | None => (Err ErrUserNotFound, d)
  | Some p =>
      if p_deleted p then (Err ErrUserNotFound, d)
      else
        match numeric_store 8 (numeric_value 8 (p_balance p) + numeric delta)%Q with
        | Some b => (Ok tt, set_payer uid (p <| p_balance := Z.max b 0 |>) d)
        | None => (Err overflow, d)
        end
  end.

(** Truncation of a [float64] to [int]. *)
Definition trunc (x : float64) : Z := let q := f64_value x in Z.quot (Qnum q) (Zpos (Qden q)).

Definition change_concurrency (uid : Z) (delta : Z) (d : payment_db) : outcome unit error * payment_db :=
  match payers d !! uid with
  | None => (Err ErrUserNotFound, d)
  | Some p =>
      if delta <? 0 then
        if p_deleted p then (Err ErrUserNotFound, d)
        else (Ok tt, set_payer uid (p <| p_concurrency := Z.max (p_concurrency p + delta) 0 |>) d)
      else (Ok tt, set_payer uid (p <| p_concurrency := p_concurrency p + delta |>) d)
  end.

(** ["通过兑换码 " .. " 退款扣减 " .. " 天"], in UTF-8. *)
Definition redeemed_with (code : string) : string := "通过兑换码 " +:+ code +:+ " 兑换".
Definition reduced_with (code : string) (days : Z) : string := "通过兑换码 " +:+ code +:+ " 退款扣减 " +:+ Itoa days +:+ " 天".

Definition reduceOrCancelSubscription (uid groupID reduceDays : Z) (code : string) (now : Time) (d : Subscriptions.sub_db)
    : outcome unit error * Subscriptions.sub_db :=
  match find_by_user_and_group uid groupID d with
  | Err _ => (Err ErrSubscriptionNotFound, d)
  | Ok s =>
      let newExpiresAt := AddDays offset (ExpiresAt s) (- reduceDays) in
      then_do
        (if negb (After newExpiresAt now)
         then then_do (wrapping "cancel subscription" (repo_UpdateStatus (ID s) SubscriptionStatusExpired d))
                (wrapping "set subscription expiry" ∘ repo_ExtendExpiry column (ID s) now)
         else wrapping "reduce subscription" (repo_ExtendExpiry column (ID s) newExpiresAt d))
        (wrapping "update subscription notes" ∘ repo_UpdateNotes (ID s)
           ((if Notes s =s "" then "" else Notes s +:+ of_bytes [chr 10]) +:+ reduced_with code reduceDays))
  end.

(** A program on subscriptions within a transaction. *)
Definition on_subs {A} (prefix : string) (r : outcome A error * Subscriptions.sub_db) (d : payment_db) : outcome unit error * payment_db :=
  match r with
  | (Ok _, s) => (Ok tt, d <| pay_subs := s |>)
  | (Err e, _) => (Err (Wrapped prefix e), d)
  end.

Definition wrap_error (prefix : string) (r : outcome unit error * payment_db) : outcome unit error * payment_db :=
  match r with (Err e, d) => (Err (Wrapped prefix e), d) | ok => ok end.

(** The entitlement of a code that was just marked used. *)
Definition redeem_gives (c : RedeemCode) (uid : Z) (now : Time) (d : payment_db) : outcome unit error * payment_db :=
  if c_Type c =s RedeemTypeBalance then
    wrap_error "update user balance"
      (if (value_of c <? f64_zero)%f64 then ApplyRedeemBalanceAdjustment uid (value_of c) d else UpdateBalance uid (value_of c) d)
  else if c_Type c =s RedeemTypeConcurrency then wrap_error "update user concurrency" (change_concurrency uid (trunc (value_of c)) d)
  else if negb (c_Type c =s RedeemTypeSubscription) then (Err (unsupportedRedeemTypeError (c_Type c)), d)
  else
    match c_GroupID c with
    | None => (Err (PlainError "invalid memory address or nil pointer dereference"), d)   (* [redeem] refused it before *)
    | Some g =>
        if c_ValidityDays c <? 0 then
          on_subs "reduce or cancel subscription" (reduceOrCancelSubscription uid g (- c_ValidityDays c) (c_Code c) now (pay_subs d)) d
        else
          on_subs "assign or extend subscription"
            (run_alone offset column numeric now
               (AssignOrExtendSubscription offset
                  (AssignInput uid g (if c_ValidityDays c =? 0 then 30 else c_ValidityDays c) 0 (redeemed_with (c_Code c)))) (pay_subs d)) d
    end.

(** The transaction of [redeem]: all of it or nothing. *)
Definition redeem_tx (c : RedeemCode) (uid : Z) (now : Time) (d : payment_db) : outcome unit error * payment_db :=
  match use_code c uid d with
  | (Err _, _) => (Err ErrRedeemCodeUsed, d)
  | (Ok _, d1) => match redeem_gives c uid now d1 with (Ok r, d2) => (Ok r, d2) | (Err e, _) => (Err e, d) end
  end.

(** *** The assignment of a paid subscription *)

Definition paymentSubscriptionOrderNote (orderID : Z) : string := "payment order " +:+ Itoa orderID.

(** Lines: ["\r\n"] and ["\n"] end one. *)
Fixpoint lines_of (l cur : list ascii) : list (list ascii) :=
  match l with
  | [] => [cur]
  | a :: rest => if is_byte 10 a then cur :: lines_of rest [] else lines_of rest (cur ++ [a])
  end.
Fixpoint unix_newlines (l : list ascii) : list ascii :=
  match l with
  | a :: rest =>
      match rest with
      | b :: rest2 => if is_byte 13 a && is_byte 10 b then chr 10 :: unix_newlines rest2 else a :: unix_newlines rest
      | [] => [a]
      end
  | [] => []
  end.
Definition hasPaymentSubscriptionOrderNote (notes orderNote : string) : bool :=
  existsb (fun line => TrimSpace (of_bytes line) =s orderNote) (lines_of (unix_newlines (to_bytes notes)) []).

Definition hasPaymentSubscriptionAssignmentAudit (id : Z) (d : payment_db) : bool :=
  has_audit id "SUBSCRIPTION_ASSIGNED" d || has_audit id "SUBSCRIPTION_SUCCESS" d.

(** [recoveredFromNote]. *)
Definition recovered_from_note (o : payment_order) (groupID : Z) (d : payment_db) : bool :=
  match find_by_user_and_group (o_UserID o) groupID (pay_subs d) with
  | Ok existing => hasPaymentSubscriptionOrderNote (Notes existing) (paymentSubscriptionOrderNote (o_ID o))
  | Err _ => false
  end.

(** The transaction of [ensurePaymentSubscriptionAssigned]; of two at once the
    unique audit row lets one commit, and the other finds it. *)
Definition assign_tx (o : payment_order) (groupID days : Z) (now : Time) (d : payment_db) : outcome unit error * payment_db :=
  if hasPaymentSubscriptionAssignmentAudit (o_ID o) d then (Ok tt, d)
  else
    let orderNote := paymentSubscriptionOrderNote (o_ID o) in
    let recorded d := d <| audit := audit d ++ [(o_ID o, "SUBSCRIPTION_ASSIGNED")] |> in
    if recovered_from_note o groupID d then (Ok tt, recorded d)
    else
      match on_subs "assign subscription"
              (run_alone offset column numeric now
                 (assignOrExtendSubscription offset (AssignInput (o_UserID o) groupID days 0 orderNote) true) (pay_subs d)) d with
      | (Err e, _) => (Err e, d)
      | (Ok _, d1) => (Ok tt, recorded d1)
      end.
End statements.
End PaymentOrders.
