(* ===== verification/RedeemService.v ===== *)
(** * Redeem codes

    The redemption of codes ([service/redeem_service.go]) and their
    administration ([handler/admin/redeem_handler.go], [service/admin_user.go])
    as programs of calls.  A call is one statement or one transaction.

    What providers answer, the affiliate service, the lock and the failure
    counter of redemptions in Redis, random codes and the state of a group are
    answers from outside. *)

From Stdlib Require Import QArith SpecFloat.
From S2P Require Import Prelude Programs GoStrings GoFloat AppErrors Subscriptions SubscriptionService PaymentOrders.

Module RedeemService.
Export PaymentOrders.
Import Subscriptions.
#[local] Open Scope Z_scope.

(** A provider's answer about an order. *)
Record QueryOrderResponse := QueryResponse {
  q_paid : bool;               (* [Status == ProviderStatusPaid] *)
  q_TradeNo : string;
  q_Amount : float64;
  q_Metadata : gmap string string
}.

Inductive pcall : Type -> Type :=
| PNow : pcall Time
| PGetOrder (id : Z) : pcall (outcome payment_order error)
| PFindOrder (outTradeNo : string) : pcall (outcome payment_order error)
| PInsertOrder (o : payment_order) (candidate : string) : pcall (outcome payment_order error)
| PTimedOut (now : Time) : pcall (outcome (list payment_order) error)
| PReconcilable (now : Time) : pcall (outcome (list payment_order) error)
| PMarkPaid (id : Z) (tradeNo : string) (paid : float64) (now : Time) : pcall (outcome Z error)
| PAcquire (id : Z) (now : Time) : pcall (outcome Z error)
| PMarkCompleted (id : Z) (version : Time) : pcall (outcome Z error)
| PMarkFailed (id : Z) (version : Time) : pcall (outcome Z error)
| PEndPending (id : Z) (status : string) : pcall (outcome Z error)
| PSetTradeNo (id : Z) (tradeNo : string) : pcall (outcome Z error)
| PSaveProviderReply (id : Z) (tradeNo providerKey : string) : pcall (outcome unit error)
| PFailOrder (id : Z) : pcall (outcome unit error)
| PHasAudit (id : Z) (action : string) : pcall bool
| PAudit (id : Z) (action : string) : pcall (outcome unit error)
| PGetCode (code : string) : pcall (outcome RedeemCode error)
| PGetCodeByID (id : Z) : pcall (outcome RedeemCode error)
| PGetCodes (ids : list Z) : pcall (outcome (list RedeemCode) error)
| PCreateCode (c : RedeemCode) : pcall (outcome unit error)
| PUpdateCode (c : RedeemCode) : pcall (outcome unit error)
| PUpdateCodes (ids : list Z) (fields : RedeemCodeBatchUpdateFields) : pcall (outcome Z error)
| PDeleteCode (id : Z) : pcall (outcome unit error)
| PUserExists (uid : Z) : pcall (outcome unit error)
| PRedeemTx (c : RedeemCode) (uid : Z) : pcall (outcome unit error)
| PAssignTx (o : payment_order) (groupID days : Z) : pcall (outcome unit error)
(* answers from outside *)
| PCreatePayment (o : payment_order) : pcall (outcome (string * string) error)   (* trade number, key *)
| PProvider (id : Z) : pcall (option string)                 (* [getOrderProvider] and its key *)
| PInstanceKey (id : Z) : pcall string
| PRegistryKey (paymentType : string) : pcall string
| PQueryProvider (queryRef : string) : pcall (option QueryOrderResponse)
| PCancelPayment (queryRef : string) : pcall unit
| PRebate (id : Z) : pcall (outcome unit error)              (* [applyAffiliateRebateForOrder] *)
| PRedeemRebate (uid : Z) : pcall unit                       (* [tryAccrueAffiliateRebateForRedeem] *)
| PGroupActive (groupID : Z) : pcall bool
| PGroupSubscribable (groupID : Z) : pcall (outcome bool error)
| PRandomCode : pcall (outcome string error)
| PTryLock (code : string) : pcall bool
| PUnlock (code : string) : pcall unit
| PRedeemLimit (uid : Z) : pcall (option error)
| PCountFailure (uid : Z) : pcall unit
| PInvalidate (uid : Z) : pcall (outcome unit error).

Notation pprog := (free pcall).

(** ** Redemption *)

Definition CreateCode (c : RedeemCode) : pprog (outcome unit error) :=
  let c := c <| c_Code := TrimSpace (c_Code c) |> in
  if c_Code c =s "" then Ret (Err (PlainError "code is required"))
  else
    let c := if c_Type c =s "" then c <| c_Type := RedeemTypeBalance |> else c in
    if negb (c_Type c =s RedeemTypeInvitation) && (c_Value c =? 0) then Ret (Err (PlainError "value must not be zero"))
    else
      let c := if c_Status c =s "" then c <| c_Status := StatusUnused |> else c in
      let! now := PNow in
      if IsExpiredAt c now then Ret (Err ErrRedeemCodeExpired)
      else
        let! created := PCreateCode c in
        Ret (match created with Err e => Err (Wrapped "create redeem code" e) | ok => ok end).

(** [enforceRedeemRateLimit] or [bypassRedeemRateLimit], and whether
    [ContextSkipRedeemAffiliate] is set. *)
Record redeem_policy := RedeemPolicy { limited : bool; skip_affiliate : bool }.

Definition redeem_locked (policy : redeem_policy) (uid : Z) (code : string) : pprog (outcome RedeemCode error) :=
  let failing {R} (k : pprog R) : pprog R := if limited policy then let! _ := PCountFailure uid in k else k in
  let! found := PGetCode code in
  match found with
  | Err e =>
      if errors_Is e ErrRedeemCodeNotFound then failing (Ret (Err ErrRedeemCodeNotFound)) else Ret (Err (Wrapped "get redeem code" e))
  | Ok c =>
      let! now := PNow in
      if IsExpiredAt c now then failing (Ret (Err ErrRedeemCodeExpired))
      else
        let! now := PNow in
        if negb (CanUse c now) then failing (Ret (Err ErrRedeemCodeUsed))
        else if negb ((c_Type c =s RedeemTypeBalance) || (c_Type c =s RedeemTypeConcurrency) || (c_Type c =s RedeemTypeSubscription))
        then Ret (Err (unsupportedRedeemTypeError (c_Type c)))
        else if (c_Type c =s RedeemTypeSubscription) && negb (is_set (c_GroupID c))
        then Ret (Err (New 400 "REDEEM_CODE_INVALID" "invalid subscription redeem code: missing group_id"))
        else
          let! user := PUserExists uid in
          match user with
          | Err e => Ret (Err (Wrapped "get user" e))
          | Ok _ =>
              let! used := PRedeemTx c uid in
              match used with
              | Err e => Ret (Err e)
              | Ok _ =>
                  let! _ := PInvalidate uid in
                  let reload : pprog (outcome RedeemCode error) :=
                    let! updated := PGetCodeByID (c_ID c) in
                    Ret (match updated with Err e => Err (Wrapped "get updated redeem code" e) | ok => ok end) in
                  if (c_Type c =s RedeemTypeBalance) && (f64_zero <? value_of c)%f64 && negb (skip_affiliate policy)
                  then let! _ := PRedeemRebate uid in reload
                  else reload
              end
          end
  end.

Definition redeem (policy : redeem_policy) (uid : Z) (code : string) : pprog (outcome RedeemCode error) :=
  let locked :=
    let! acquired := PTryLock code in
    if negb acquired then Ret (Err ErrRedeemCodeLocked)
    else run! r := redeem_locked policy uid code in let! _ := PUnlock code in Ret r in
  if limited policy then
    let! refused := PRedeemLimit uid in
    match refused with Some e => Ret (Err e) | None => locked end
  else locked.

Definition Redeem (uid : Z) (code : string) := redeem (RedeemPolicy true false) uid code.
Definition redeemForPaymentFulfillment (uid : Z) (code : string) := redeem (RedeemPolicy false true) uid code.
Definition RedeemForAdminFulfillment (uid : Z) (code : string) := redeem (RedeemPolicy false false) uid code.

(** [GetByCode] and [GetByID] of the service. *)
Definition GetByCode (code : string) : pprog (outcome RedeemCode error) :=
  let! found := PGetCode code in
  Ret (match found with Err e => Err (Wrapped "get redeem code" e) | ok => ok end).

(** ** Administration *)

Definition REDEEM_CODE_CONFLICT (message : string) : error := New 409 "REDEEM_CODE_CONFLICT" message.

Definition resolveCreateAndRedeemExisting (existing : RedeemCode) (uid : Z) : pprog (outcome RedeemCode error) :=
  let redeemed_by (c : RedeemCode) : outcome RedeemCode error :=
    if bool_decide (UsedBy c = Some uid) then Ok c else Err (REDEEM_CODE_CONFLICT "redeem code already used by another user") in
  let! now := PNow in
  if IsExpiredAt existing now then Ret (Err ErrRedeemCodeExpired)
  else
    let! now := PNow in
    if CanUse existing now then
      run! redeemed := RedeemForAdminFulfillment uid (c_Code existing) in
      match redeemed with
      | Ok c => Ret (Ok c)
      | Err e =>
          if negb (errors_Is e ErrRedeemCodeUsed) then Ret (Err e)
          else
            run! latest := GetByCode (c_Code existing) in
            Ret (match latest with Ok c => redeemed_by c | Err _ => redeemed_by existing end)
      end
    else Ret (redeemed_by existing).

(** The work of [CreateAndRedeem]; [c] is the request's code. *)
Definition createAndRedeem (c : RedeemCode) (uid : Z) : pprog (outcome RedeemCode error) :=
  run! found := GetByCode (c_Code c) in
  match found with
  | Ok existing => resolveCreateAndRedeemExisting existing uid
  | Err e =>
      if negb (errors_Is e ErrRedeemCodeNotFound) then Ret (Err e)
      else
        run! created := CreateCode (c <| c_Status := StatusUnused |> <| UsedBy := None |>) in
        match created with
        | Err createErr =>
            run! after := GetByCode (c_Code c) in
            match after with
            | Ok existing => resolveCreateAndRedeemExisting existing uid
            | Err _ => Ret (Err createErr)
            end
        | Ok _ => RedeemForAdminFulfillment uid (c_Code c)
        end
  end.

(** [GenerateRedeemCodes] of the admin service: a failure leaves the codes that
    were created before it. *)
Fixpoint generate_codes (c : RedeemCode) (count : nat) : pprog (outcome (list RedeemCode) error) :=
  match count with
  | O => Ret (Ok [])
  | S count =>
      let! value := PRandomCode in
      match value with
      | Err e => Ret (Err e)
      | Ok value =>
          let code := c <| c_Code := value |> in
          let! created := PCreateCode code in
          match created with
          | Err e => Ret (Err e)
          | Ok _ =>
              run! rest := generate_codes c count in
              Ret (match rest with Ok l => Ok (code :: l) | err => err end)
          end
      end
  end.

Definition GenerateRedeemCodes (count : Z) (codeType : string) (value : Z) (groupID : option Z) (days : Z) (expiresAt : option Time)
    : pprog (outcome (list RedeemCode) error) :=
  let generate : pprog (outcome (list RedeemCode) error) :=
    let subscription := codeType =s RedeemTypeSubscription in
    generate_codes
      (MkCode 0 "" codeType value StatusUnused None expiresAt (if subscription then groupID else None)
         (if subscription then if days <=? 0 then 30 else days else 0) "")
      (Z.to_nat count) in
  let checked : pprog (outcome (list RedeemCode) error) :=
    if codeType =s RedeemTypeSubscription then
      match groupID with
      | None => Ret (Err (PlainError "group_id is required for subscription type"))
      | Some g =>
          let! group := PGroupSubscribable g in
          match (group : outcome bool error) with
          | Err e => Ret (Err (Wrapped "group not found" e))
          | Ok ok => if ok then generate else Ret (Err (PlainError "group must be subscription type"))
          end
      end
    else generate in
  match expiresAt with
  | Some e => let! now := PNow in if negb (After e now) then Ret (Err ErrRedeemCodeExpired) else checked
  | None => checked
  end.

Definition DeleteRedeemCode (id : Z) : pprog (outcome unit error) := let! deleted := PDeleteCode id in Ret deleted.

Definition ExpireRedeemCode (id : Z) : pprog (outcome RedeemCode error) :=
  let! found := PGetCodeByID id in
  match found with
  | Err e => Ret (Err e)
  | Ok c =>
      let c := c <| c_Status := StatusExpired |> in
      let! updated := PUpdateCode c in
      Ret (match updated with Ok _ => Ok c | Err e => Err e end)
  end.

(** [RedeemService.Delete], which refuses used codes. *)
Definition Delete (id : Z) : pprog (outcome unit error) :=
  let! found := PGetCodeByID id in
  match found with
  | Err e => Ret (Err (Wrapped "get redeem code" e))
  | Ok c =>
      if IsUsed c then Ret (Err (New 409 "REDEEM_CODE_DELETE_USED" "cannot delete used redeem code"))
      else
        let! deleted := PDeleteCode id in
        Ret (match deleted with Err e => Err (Wrapped "delete redeem code" e) | ok => ok end)
  end.

Definition HasChanges (f : RedeemCodeBatchUpdateFields) : bool :=
  is_set (u_Status f) || is_set (u_ExpiresAt f) || is_set (u_Notes f) || is_set (u_GroupID f) || is_set (u_Type f) || is_set (u_Value f).
Definition HasCoreFieldChanges (f : RedeemCodeBatchUpdateFields) : bool := is_set (u_Type f) || is_set (u_Value f).
Definition TouchesUsedSensitiveFields (f : RedeemCodeBatchUpdateFields) : bool :=
  is_set (u_Status f) || is_set (u_ExpiresAt f) || is_set (u_GroupID f).

(** Ids without repetition, in order. *)
Definition distinct (ids : list Z) : list Z := foldl (fun l id => if bool_decide (id ∈ l) then l else l ++ [id]) [] ids.

(** The repository's [batchUpdate]: it reads the codes, then updates them. *)
Definition batchUpdate (ids : list Z) (f : RedeemCodeBatchUpdateFields) : pprog (outcome Z error) :=
  let! existing := PGetCodes ids in
  match existing with
  | Err e => Ret (Err e)
  | Ok existing =>
      if negb (Z.of_nat (length existing) =? Z.of_nat (length ids)) then Ret (Err ErrRedeemCodeNotFound)
      else if TouchesUsedSensitiveFields f && existsb (fun c => c_Status c =s StatusUsed) existing then Ret (Err ErrRedeemCodeUsed)
      else
        let! affected := PUpdateCodes ids f in
        Ret (match affected with
             | Ok n => if negb (n =? Z.of_nat (length ids)) then Err ErrRedeemCodeNotFound else Ok n
             | Err e => Err e
             end)
  end.

Definition batch_invalid (reason message : string) : outcome Z error := Err (New 400 reason message).

Definition BatchUpdate (ids : list Z) (f : RedeemCodeBatchUpdateFields) : pprog (outcome Z error) :=
  match ids with
  | [] => Ret (batch_invalid "REDEEM_CODE_BATCH_UPDATE_IDS_REQUIRED" "ids are required")
  | _ =>
      if negb (HasChanges f) then Ret (batch_invalid "REDEEM_CODE_BATCH_UPDATE_EMPTY" "at least one field must be selected")
      else if HasCoreFieldChanges f
      then Ret (batch_invalid "REDEEM_CODE_CORE_FIELDS_IMMUTABLE" "type and value cannot be batch updated")
      else if existsb (fun id => id <=? 0) ids
      then Ret (batch_invalid "REDEEM_CODE_BATCH_UPDATE_INVALID_ID" "ids must be positive")
      else if match u_Status f with Some s => negb ((s =s StatusUnused) || (s =s StatusDisabled)) | None => false end
      then Ret (batch_invalid "REDEEM_CODE_STATUS_INVALID" "status must be unused or disabled")
      else
        let update : pprog (outcome Z error) :=
          if match u_GroupID f with Some (Some g) => g <=? 0 | _ => false end
          then Ret (batch_invalid "REDEEM_CODE_GROUP_ID_INVALID" "group_id must be positive")
          else batchUpdate (distinct ids) f in
        match u_ExpiresAt f with
        | Some (Some e) =>
            let! now := PNow in
            if negb (After e now) then Ret (batch_invalid "REDEEM_CODE_EXPIRES_AT_INVALID" "expires_at must be in the future") else update
        | _ => update
        end
  end.
End RedeemService.
