(* ===== verification/PaymentService.v ===== *)
(** * Payment service

    The handlers of [service/payment_fulfillment.go] and the cancellation, expiry
    and verification of [service/payment_order_lifecycle.go] as programs of
    calls.  Texts of errors leave out the formatted amounts. *)

From Stdlib Require Import QArith SpecFloat.
From S2P Require Import Prelude Programs GoStrings GoFloat AppErrors Subscriptions SubscriptionService PaymentOrders RedeemService.

Module PaymentService.
Export RedeemService.
Import Subscriptions.
#[local] Open Scope Z_scope.

Record PaymentNotification := Notification {
  n_TradeNo : string;
  n_OrderID : string;
  n_Amount : float64;
  n_Status : string;
  n_Metadata : gmap string string
}.
Definition NotificationStatusSuccess : string := "success".

(** ** Currencies *)

Definition DefaultPaymentCurrency : string := "CNY".

(** [None]: not a code of three letters. *)
Definition NormalizePaymentCurrency (raw : string) : option string :=
  let currency := ToUpper (TrimSpace raw) in
  if currency =s "" then Some DefaultPaymentCurrency
  else if negb (Z.of_nat (String.length currency) =? 3) then None
  else if forallb (fun a => (65 <=? byte_of a) && (byte_of a <=? 90)) (to_bytes currency) then Some currency else None.

Record paymentCurrencyAmountUnit := AmountUnit { apiMinorUnit : Z; maxFractionDigits : Z }.
Definition twoDecimalAmountUnit : paymentCurrencyAmountUnit := AmountUnit 2 2.
Definition paymentCurrencyAmountUnits (currency : string) : option paymentCurrencyAmountUnit :=
  let one_of := existsb (String.eqb currency) in
  if one_of ["BIF"; "CLP"; "DJF"; "GNF"; "JPY"; "KMF"; "KRW"; "MGA"; "PYG"; "RWF"; "VND"; "VUV"; "XAF"; "XOF"; "XPF"]
  then Some (AmountUnit 0 0)
  else if one_of ["ISK"; "UGX"] then Some (AmountUnit 2 0)
  else if one_of ["BHD"; "IQD"; "JOD"; "KWD"; "LYD"; "OMR"; "TND"] then Some (AmountUnit 3 3)
  else None.
Definition paymentCurrencyAmountUnitFor (currency : string) : paymentCurrencyAmountUnit :=
  match NormalizePaymentCurrency currency with
  | Some c => default twoDecimalAmountUnit (paymentCurrencyAmountUnits c)
  | None => twoDecimalAmountUnit
  end.
Definition CurrencyMinorUnit (currency : string) : Z := apiMinorUnit (paymentCurrencyAmountUnitFor currency).

Definition PaymentOrderCurrency (o : payment_order) : string :=
  match o_Snapshot o with
  | Some snapshot => default DefaultPaymentCurrency (NormalizePaymentCurrency (Currency snapshot))
  | None => DefaultPaymentCurrency
  end.

(** ** Amounts *)

(** [o.Amount] and [o.PayAmount]. *)
Definition dollars (z : Z) : float64 := numeric_scan 2 z.

Definition amountToleranceCNY : float64 := f64_of_ratio 1 100.
Definition paymentAmountToleranceForCurrency (currency : string) : float64 :=
  let minorUnit := CurrencyMinorUnit currency in
  if minorUnit <=? 2 then amountToleranceCNY else f64_of_ratio 1 (2 * 10 ^ Z.to_pos minorUnit).

Definition isValidProviderAmount (amount : float64) : bool :=
  match amount with S754_nan | S754_infinity _ => false | _ => (f64_zero <? amount)%f64 end.

Definition amounts_differ (x y tolerance : float64) : bool := (tolerance <? SFabs (x - y))%f64.

(** ** Fulfilment *)

Inductive redeemAction := redeemActionCreate | redeemActionRedeem | redeemActionSkipCompleted.

Definition resolveRedeemAction (existing : outcome RedeemCode error) : outcome redeemAction error :=
  match existing with
  | Err e => if errors_Is e ErrRedeemCodeNotFound then Ok redeemActionCreate else Err (Wrapped "lookup payment redeem code" e)
  | Ok c => if IsUsed c then Ok redeemActionSkipCompleted else Ok redeemActionRedeem
  end.

Definition code_error (what : string) (o : payment_order) (detail : string) : option error :=
  Some (PlainError (what +:+ " for order " +:+ Itoa (o_ID o) +:+ detail)).

Definition codeTolerance : float64 := f64_of_ratio 1 (10 ^ 8).

Definition validatePaymentRedeemCode (o : payment_order) (c : RedeemCode) : option error :=
  if negb (c_Code c =s RechargeCode o) then code_error "payment redeem code mismatch" o ""
  else if negb (c_Type c =s RedeemTypeBalance) then code_error "payment redeem code type mismatch" o (": got " +:+ c_Type c)
  else if amounts_differ (value_of c) (dollars (Amount o)) codeTolerance then code_error "payment redeem code amount mismatch" o ""
  else if c_Status c =s StatusUnused then if is_set (UsedBy c) then code_error "unused payment redeem code has a user" o "" else None
  else if c_Status c =s StatusUsed then
    if bool_decide (UsedBy c = Some (o_UserID o)) then None else code_error "payment redeem code user mismatch" o ""
  else code_error "payment redeem code has invalid status" o (": " +:+ c_Status c).

Definition CONFLICT (message : string) : error := New 409 "CONFLICT" message.
Definition INVALID_STATUS (message : string) : error := New 400 "INVALID_STATUS" message.
Definition NOT_FOUND : error := New 404 "NOT_FOUND" "order not found".

(** The lease, [None] when the order is completed already. *)
Definition acquirePaymentFulfillmentLease (o : payment_order) : pprog (outcome (option Time) error) :=
  let! now := PNow in
  let now := now / 1000 * 1000 in
  let! updated := PAcquire (o_ID o) now in
  match updated with
  | Err e => Ret (Err (Wrapped "acquire fulfillment lease" e))
  | Ok n =>
      let! current := PGetOrder (o_ID o) in
      Ret (match current with
           | Err e => Err (Wrapped (if n =? 0 then "reload fulfillment lease" else "reload acquired fulfillment lease") e)
           | Ok current =>
               if n =? 0 then
                 if o_Status current =s OrderStatusCompleted then Ok None
                 else if o_Status current =s OrderStatusRecharging then Err (CONFLICT "order is being processed")
                 else Err (CONFLICT "order status changed while acquiring fulfillment lease")
               else if negb (o_Status current =s OrderStatusRecharging) then Err (CONFLICT "fulfillment lease was lost")
               else Ok (Some (UpdatedAt current))
           end)
  end.

Definition markCompleted (o : payment_order) (lease : Time) (auditAction : string) : pprog (outcome unit error) :=
  let! updated := PMarkCompleted (o_ID o) lease in
  match updated with
  | Err e => Ret (Err (Wrapped "mark completed" e))
  | Ok n =>
      if n =? 0 then
        let! current := PGetOrder (o_ID o) in
        Ret (match current with
             | Ok current => if o_Status current =s OrderStatusCompleted then Ok tt else Err (CONFLICT "fulfillment lease was lost before completion")
             | Err _ => Err (CONFLICT "fulfillment lease was lost before completion")
             end)
      else
        let! logged := PHasAudit (o_ID o) auditAction in
        if (logged : bool) then Ret (Ok tt) else let! _ := PAudit (o_ID o) auditAction in Ret (Ok tt)
  end.

Definition markFailed (id : Z) (lease : Time) : pprog unit :=
  let! updated := PMarkFailed id lease in
  match updated with
  | Ok n => if 0 <? n then let! _ := PAudit id "FULFILLMENT_FAILED" in Ret tt else Ret tt
  | Err _ => Ret tt
  end.

(** The rebate, then the completion. *)
Definition rebate_and_complete (o : payment_order) (lease : Time) (auditAction : string) : pprog (outcome unit error) :=
  let! rebate := PRebate (o_ID o) in
  match rebate with
  | Err e => Ret (Err e)
  | Ok _ => markCompleted o lease auditAction
  end.

Definition doBalance (numeric : float64 -> Q) (o : payment_order) (lease : Time) : pprog (outcome unit error) :=
  run! found := GetByCode (RechargeCode o) in
  match resolveRedeemAction found with
  | Err e => Ret (Err e)
  | Ok action =>
      match match found with Ok c => validatePaymentRedeemCode o c | Err _ => None end with
      | Some e => Ret (Err e)
      | None =>
          let redeem_it :=
            run! r := redeemForPaymentFulfillment (o_UserID o) (RechargeCode o) in
            match r with
            | Err e => Ret (Err (Wrapped "redeem balance" e))
            | Ok _ => rebate_and_complete o lease "RECHARGE_SUCCESS"
            end in
          match action with
          | redeemActionSkipCompleted => rebate_and_complete o lease "RECHARGE_SUCCESS"
          | redeemActionCreate =>
              match numeric_store 8 (numeric (dollars (Amount o))) with
              | None => Ret (Err (Wrapped "create redeem code" overflow))
              | Some value =>
                  run! created := CreateCode (MkCode 0 (RechargeCode o) RedeemTypeBalance value StatusUnused None None None 0 "") in
                  match created with
                  | Err e => Ret (Err (Wrapped "create redeem code" e))
                  | Ok _ => redeem_it
                  end
              end
          | redeemActionRedeem => redeem_it
          end
      end
  end.

Definition doSub (o : payment_order) (groupID days : Z) (lease : Time) : pprog (outcome unit error) :=
  let! active := PGroupActive groupID in
  if negb (active : bool) then Ret (Err (PlainError ("group " +:+ Itoa groupID +:+ " no longer exists or inactive")))
  else
    let! assigned := PAssignTx o groupID days in
    match assigned with
    | Err e => Ret (Err e)
    | Ok _ =>
        let! invalidated := PInvalidate (o_UserID o) in
        match invalidated with
        | Err e => Ret (Err (Wrapped "invalidate subscription cache after fulfillment" e))
        | Ok _ => rebate_and_complete o lease "SUBSCRIPTION_SUCCESS"
        end
    end.

(** The checks, the lease and the failure that both kinds of order share. *)
Definition execute_with (id : Z) (check : payment_order -> option error) (fulfil : payment_order -> Time -> pprog (outcome unit error))
    : pprog (outcome unit error) :=
  let! found := PGetOrder id in
  match found with
  | Err _ => Ret (Err NOT_FOUND)
  | Ok o =>
      if o_Status o =s OrderStatusCompleted then Ret (Ok tt)
      else if psIsRefundStatus (o_Status o) then Ret (Err (INVALID_STATUS "refund-related order cannot fulfill"))
      else if negb ((o_Status o =s OrderStatusPaid) || (o_Status o =s OrderStatusFailed) || (o_Status o =s OrderStatusRecharging))
      then Ret (Err (INVALID_STATUS ("order cannot fulfill in status " +:+ o_Status o)))
      else
        match check o with
        | Some e => Ret (Err e)
        | None =>
            run! lease := acquirePaymentFulfillmentLease o in
            match lease with
            | Err e => Ret (Err e)
            | Ok None => Ret (Ok tt)
            | Ok (Some lease) =>
                run! r := fulfil o lease in
                match r with
                | Err e => run! _ := markFailed id lease in Ret (Err e)
                | Ok _ => Ret (Ok tt)
                end
            end
        end
  end.

Section fulfilment.
Context (numeric : float64 -> Q).

Definition ExecuteBalanceFulfillment (id : Z) : pprog (outcome unit error) := execute_with id (fun _ => None) (doBalance numeric).

Definition ExecuteSubscriptionFulfillment (id : Z) : pprog (outcome unit error) :=
  execute_with id
    (fun o => match SubscriptionGroupID o, SubscriptionDays o with
              | Some _, Some _ => None
              | _, _ => Some (INVALID_STATUS "missing subscription info")
              end)
    (fun o lease => match SubscriptionGroupID o, SubscriptionDays o with
                    | Some g, Some days => doSub o g days lease
                    | _, _ => Ret (Err (INVALID_STATUS "missing subscription info"))
                    end).

Definition executeFulfillment (id : Z) : pprog (outcome unit error) :=
  let! found := PGetOrder id in
  match found with
  | Err e => Ret (Err (Wrapped "get order" e))
  | Ok o => if OrderType o =s OrderTypeSubscription then ExecuteSubscriptionFulfillment id else ExecuteBalanceFulfillment id
  end.

Definition RetryFulfillment (id : Z) : pprog (outcome unit error) :=
  let! found := PGetOrder id in
  match found with
  | Err _ => Ret (Err NOT_FOUND)
  | Ok o =>
      if negb (is_set (PaidAt o)) then Ret (Err (INVALID_STATUS "order is not paid"))
      else if psIsRefundStatus (o_Status o) then Ret (Err (INVALID_STATUS "refund-related order cannot retry"))
      else if o_Status o =s OrderStatusCompleted then Ret (Err (INVALID_STATUS "order already completed"))
      else if negb ((o_Status o =s OrderStatusFailed) || (o_Status o =s OrderStatusPaid) || (o_Status o =s OrderStatusRecharging))
      then Ret (Err (INVALID_STATUS "only paid, failed, and recoverable recharging orders can retry"))
      else let! _ := PAudit id "RECHARGE_RETRY" in executeFulfillment id
  end.

(** ** Notifications *)

Definition psStringValue (value : option string) : string := default "" value.

Definition TypeStripe : string := "stripe".
Definition TypeCard : string := "card".
Definition TypeLink : string := "link".
Definition TypeEasyPay : string := "easypay".
Definition TypeAirwallex : string := "airwallex".

Section providers.
(** [strings.EqualFold]. *)
Context (EqualFold : string -> string -> bool).

Definition expectedNotificationProviderKey (registryKey orderPaymentType orderProviderKey instanceProviderKey : string) : string :=
  let first := List.find (fun k => negb (k =s "")) (map TrimSpace [instanceProviderKey; orderProviderKey; registryKey]) in
  default (TrimSpace orderPaymentType) first.

Definition expectedNotificationProviderKeyForOrder (registryKey : string) (o : payment_order) (instanceProviderKey : string) : string :=
  let orderProviderKey :=
    match o_Snapshot o with
    | Some snapshot => if ProviderKey snapshot =s "" then psStringValue (o_ProviderKey o) else ProviderKey snapshot
    | None => psStringValue (o_ProviderKey o)
    end in
  expectedNotificationProviderKey registryKey (PaymentType o) orderProviderKey instanceProviderKey.

(** One field of a notification against what the order recorded: a text of the
    error when they disagree. *)
Definition field_error (what missing expected actual : string) : option string :=
  let expected := TrimSpace expected in
  if expected =s "" then None
  else if actual =s "" then Some missing
  else if EqualFold expected actual then None
  else Some (what +:+ " mismatch: expected " +:+ expected +:+ ", got " +:+ actual).

Definition state_error (what expected actual : string) : option string :=
  if negb (actual =s "") && negb (EqualFold actual expected)
  then Some (what +:+ " mismatch: expected " +:+ expected +:+ ", got " +:+ actual) else None.

Definition first_error (l : list (option string)) : option error :=
  option_map PlainError (head (omap id l)).

Definition validateProviderSnapshotMetadata (o : payment_order) (providerKey : string) (metadata : gmap string string) : option error :=
  if Z.of_nat (size metadata) =? 0 then None
  else
    match o_Snapshot o with
    | None => None
    | Some s =>
        let m k := TrimSpace (default "" (metadata !! k)) in
        let currency provider := field_error (provider +:+ " currency") (provider +:+ " notification missing currency") (Currency s) (ToUpper (m "currency")) in
        let key := TrimSpace providerKey in
        if key =s TypeWxpay then
          first_error [field_error "wxpay appid" "wxpay notification missing appid" (MerchantAppID s) (m "appid"); field_error "wxpay mchid" "wxpay notification missing mchid" (MerchantID s) (m "mchid");
                       currency "wxpay"; state_error "wxpay trade_state" "SUCCESS" (m "trade_state")]
        else if key =s TypeAlipay then first_error [field_error "alipay app_id" "alipay app_id missing" (MerchantAppID s) (m "app_id")]
        else if key =s TypeEasyPay then first_error [field_error "easypay pid" "easypay pid missing" (MerchantID s) (m "pid")]
        else if key =s TypeStripe then first_error [currency "stripe"]
        else if key =s TypeAirwallex then
          first_error [field_error "airwallex account_id" "airwallex account_id missing" (MerchantID s) (m "account_id"); currency "airwallex";
                       state_error "airwallex status" "SUCCEEDED" (m "status")]
        else None
    end.

Definition alreadyProcessed (id : Z) : pprog (outcome unit error) :=
  let! found := PGetOrder id in
  match found with
  | Err _ => Ret (Ok tt)
  | Ok cur =>
      if (o_Status cur =s OrderStatusFailed) || (o_Status cur =s OrderStatusPaid) || (o_Status cur =s OrderStatusRecharging)
      then executeFulfillment id
      else if o_Status cur =s OrderStatusExpired then let! _ := PAudit id "PAYMENT_AFTER_EXPIRY" in Ret (Ok tt)
      else Ret (Ok tt)
  end.

Definition toPaid (o : payment_order) (tradeNo : string) (paid : float64) : pprog (outcome unit error) :=
  let! now := PNow in
  let! updated := PMarkPaid (o_ID o) tradeNo paid now in
  match updated with
  | Err e => Ret (Err (Wrapped "update to PAID" e))
  | Ok n =>
      if n =? 0 then alreadyProcessed (o_ID o)
      else
        let paid_and_fulfil := let! _ := PAudit (o_ID o) "ORDER_PAID" in executeFulfillment (o_ID o) in
        if (o_Status o =s OrderStatusCancelled) || (o_Status o =s OrderStatusExpired)
        then let! _ := PAudit (o_ID o) "ORDER_RECOVERED" in paid_and_fulfil
        else paid_and_fulfil
  end.

Definition confirmPayment (id : Z) (tradeNo : string) (paid : float64) (pk : string) (metadata : gmap string string)
    : pprog (outcome unit error) :=
  let! found := PGetOrder id in
  match found with
  | Err _ => Ret (Ok tt)
  | Ok o =>
      let! instanceProviderKey := PInstanceKey (o_ID o) in
      let! registryKey := PRegistryKey (PaymentType o) in
      let expected := expectedNotificationProviderKeyForOrder registryKey o instanceProviderKey in
      if negb (expected =s "") && negb (TrimSpace pk =s "") && negb (EqualFold expected (TrimSpace pk))
      then
        let! _ := PAudit (o_ID o) "PAYMENT_PROVIDER_MISMATCH" in
        Ret (Err (PlainError ("provider mismatch: expected " +:+ expected +:+ ", got " +:+ pk)))
      else
        match validateProviderSnapshotMetadata o pk metadata with
        | Some e => let! _ := PAudit (o_ID o) "PAYMENT_PROVIDER_METADATA_MISMATCH" in Ret (Err e)
        | None =>
            if negb (isValidProviderAmount paid)
            then let! _ := PAudit (o_ID o) "PAYMENT_INVALID_AMOUNT" in Ret (Err (PlainError "invalid paid amount from provider"))
            else if amounts_differ paid (dollars (PayAmount o)) (paymentAmountToleranceForCurrency (PaymentOrderCurrency o))
            then let! _ := PAudit (o_ID o) "PAYMENT_AMOUNT_MISMATCH" in Ret (Err (PlainError "amount mismatch"))
            else toPaid o tradeNo paid
        end
  end.

Definition orderIDPrefix : string := "sub2_".

(** [strconv.ParseInt(s, 10, 64)] of a positive number. *)
Definition parseLegacyPaymentOrderID (orderID : string) : option Z :=
  let orderID := TrimSpace orderID in
  if HasPrefix orderID orderIDPrefix then
    match Atoi (str_drop 5 orderID) with
    | Some id => if id <=? 0 then None else Some id
    | None => None
    end
  else None.

Definition HandlePaymentNotification (n : PaymentNotification) (pk : string) : pprog (outcome unit error) :=
  if negb (n_Status n =s NotificationStatusSuccess) then Ret (Ok tt)
  else
    let! found := PFindOrder (n_OrderID n) in
    match found with
    | Ok o => confirmPayment (o_ID o) (n_TradeNo n) (n_Amount n) pk (n_Metadata n)
    | Err e =>
        if errors_Is e order_not_found then
          match parseLegacyPaymentOrderID (n_OrderID n) with
          | Some id => confirmPayment id (n_TradeNo n) (n_Amount n) pk (n_Metadata n)
          | None => Ret (Err (Wrapped (n_OrderID n) ErrOrderNotFound))
          end
        else Ret (Err (Wrapped ("lookup order failed for out_trade_no " +:+ n_OrderID n) e))
    end.

(** ** Cancellation, expiry and verification *)

Definition checkPaidResultAlreadyPaid : string := "already_paid".
Definition checkPaidResultCancelled : string := "cancelled".

Definition GetBasePaymentType (t : string) : string :=
  if t =s TypeEasyPay then TypeEasyPay
  else if t =s TypeAirwallex then TypeAirwallex
  else if (t =s TypeStripe) || (t =s TypeCard) || (t =s TypeLink) then TypeStripe
  else if HasPrefix t TypeAlipay then TypeAlipay
  else if HasPrefix t TypeWxpay then TypeWxpay
  else t.

Definition paymentOrderQueryReference (o : payment_order) (provKey : string) : string :=
  let first := List.find (fun k => negb (k =s ""))
    (map TrimSpace [provKey; match o_Snapshot o with Some s => ProviderKey s | None => "" end; psStringValue (o_ProviderKey o)]) in
  let base := GetBasePaymentType (default (TrimSpace (PaymentType o)) first) in
  if (base =s TypeAlipay) || (base =s TypeEasyPay) || (base =s TypeWxpay) then TrimSpace (OutTradeNo o)
  else
    let tradeNo := TrimSpace (PaymentTradeNo o) in
    if tradeNo =s "" then TrimSpace (OutTradeNo o) else tradeNo.

Definition paymentOrderShouldPersistUpstreamTradeNo (queryRef upstreamTradeNo currentTradeNo : string) : bool :=
  let upstreamTradeNo := TrimSpace upstreamTradeNo in
  negb (upstreamTradeNo =s "") && negb (EqualFold upstreamTradeNo (TrimSpace currentTradeNo)) &&
  negb (EqualFold upstreamTradeNo (TrimSpace queryRef)).

Definition requeryPaidOrderOnce (queryRef : string) : pprog (option QueryOrderResponse) :=
  if TrimSpace queryRef =s "" then Ret None
  else
    let! answer := PQueryProvider queryRef in
    Ret (match (answer : option QueryOrderResponse) with
         | Some resp => if q_paid resp && isValidProviderAmount (q_Amount resp) then Some resp else None
         | None => None
         end).

(** What a provider that says paid leads to. *)
Definition settle_paid (o : payment_order) (provKey queryRef : string) (resp : QueryOrderResponse) : pprog string :=
  let upstreamTradeNo := TrimSpace (q_TradeNo resp) in
  let notify tradeNo :=
    run! _ := HandlePaymentNotification (Notification tradeNo (OutTradeNo o) (q_Amount resp) NotificationStatusSuccess (q_Metadata resp)) provKey in
    Ret checkPaidResultAlreadyPaid in
  if paymentOrderShouldPersistUpstreamTradeNo queryRef upstreamTradeNo (PaymentTradeNo o)
  then let! _ := PSetTradeNo (o_ID o) upstreamTradeNo in notify upstreamTradeNo
  else notify (PaymentTradeNo o).

Definition checkPaidWithOptions (o : payment_order) (cancelIfUnpaid : bool) : pprog string :=
  let! prov := PProvider (o_ID o) in
  match (prov : option string) with
  | None => Ret ""
  | Some provKey =>
      let queryRef := paymentOrderQueryReference o provKey in
      if queryRef =s "" then Ret ""
      else
        let! answer := PQueryProvider queryRef in
        match (answer : option QueryOrderResponse) with
        | None => Ret ""
        | Some resp =>
            if q_paid resp then
              if isValidProviderAmount (q_Amount resp) then settle_paid o provKey queryRef resp
              else
                let! _ := PAudit (o_ID o) "PAYMENT_INVALID_AMOUNT" in
                run! retried := requeryPaidOrderOnce queryRef in
                match retried with None => Ret "" | Some resp => settle_paid o provKey queryRef resp end
            else if negb cancelIfUnpaid then Ret ""
            else let! _ := PCancelPayment queryRef in Ret ""
        end
  end.

Definition checkPaid (o : payment_order) : pprog string := checkPaidWithOptions o true.
Definition reconcilePaid (o : payment_order) : pprog string := checkPaidWithOptions o false.

Definition cancelCore (o : payment_order) (fs : string) : pprog (outcome string error) :=
  let cancel : pprog (outcome string error) :=
    let! updated := PEndPending (o_ID o) fs in
    match (updated : outcome Z error) with
    | Err e => Ret (Err (Wrapped "update order status" e))
    | Ok c =>
        if 0 <? c
        then let! _ := PAudit (o_ID o) (if fs =s OrderStatusExpired then "ORDER_EXPIRED" else "ORDER_CANCELLED") in
             Ret (Ok checkPaidResultCancelled)
        else Ret (Ok checkPaidResultCancelled)
    end in
  if negb (PaymentTradeNo o =s "") || negb (PaymentType o =s "") then
    run! result := checkPaid o in
    if result =s checkPaidResultAlreadyPaid then Ret (Ok checkPaidResultAlreadyPaid) else cancel
  else cancel.

Definition FORBIDDEN : error := New 403 "FORBIDDEN" "no permission for this order".

Definition CancelOrder (id uid : Z) : pprog (outcome string error) :=
  let! found := PGetOrder id in
  match (found : outcome payment_order error) with
  | Err _ => Ret (Err NOT_FOUND)
  | Ok o =>
      if negb (o_UserID o =? uid) then Ret (Err FORBIDDEN)
      else if negb (o_Status o =s OrderStatusPending) then Ret (Err (INVALID_STATUS "order cannot be cancelled in current status"))
      else cancelCore o OrderStatusCancelled
  end.

Definition AdminCancelOrder (id : Z) : pprog (outcome string error) :=
  let! found := PGetOrder id in
  match (found : outcome payment_order error) with
  | Err _ => Ret (Err NOT_FOUND)
  | Ok o =>
      if negb (o_Status o =s OrderStatusPending) then Ret (Err (INVALID_STATUS "order cannot be cancelled in current status"))
      else cancelCore o OrderStatusCancelled
  end.

Definition INVALID_OUT_TRADE_NO (message : string) : error := New 400 "INVALID_OUT_TRADE_NO" message.

Definition trade_no_byte (a : ascii) : bool :=
  let b := byte_of a in
  ((97 <=? b) && (b <=? 122)) || ((65 <=? b) && (b <=? 90)) || ((48 <=? b) && (b <=? 57)) || (b =? 95) || (b =? 45).

Definition normalizeOrderLookupOutTradeNo (raw : string) : outcome string error :=
  let outTradeNo := TrimSpace raw in
  if outTradeNo =s "" then Err (INVALID_OUT_TRADE_NO "out_trade_no is required")
  else if 64 <? Z.of_nat (String.length outTradeNo) then Err (INVALID_OUT_TRADE_NO "out_trade_no is invalid")
  else if forallb trade_no_byte (to_bytes outTradeNo) then Ok outTradeNo
  else Err (INVALID_OUT_TRADE_NO "out_trade_no is invalid").

Definition VerifyOrderByOutTradeNo (outTradeNo : string) (uid : Z) : pprog (outcome payment_order error) :=
  match normalizeOrderLookupOutTradeNo outTradeNo with
  | Err e => Ret (Err e)
  | Ok outTradeNo =>
      let! found := PFindOrder outTradeNo in
      match (found : outcome payment_order error) with
      | Err _ => Ret (Err NOT_FOUND)
      | Ok o =>
          if negb (o_UserID o =? uid) then Ret (Err FORBIDDEN)
          else if (o_Status o =s OrderStatusPending) || (o_Status o =s OrderStatusExpired) then
            run! result := reconcilePaid o in
            if result =s checkPaidResultAlreadyPaid then
              let! reloaded := PGetOrder (o_ID o) in
              Ret (match reloaded with Err e => Err (Wrapped "reload order" e) | ok => ok end)
            else Ret (Ok o)
          else Ret (Ok o)
      end
  end.

Fixpoint reconcile_each (l : list payment_order) (recovered : Z) : pprog Z :=
  match l with
  | [] => Ret recovered
  | o :: l =>
      run! result := reconcilePaid o in
      reconcile_each l (if result =s checkPaidResultAlreadyPaid then recovered + 1 else recovered)
  end.

Definition ReconcilePendingPaymentOrders : pprog (outcome Z error) :=
  let! now := PNow in
  let! found := PReconcilable now in
  match (found : outcome (list payment_order) error) with
  | Err e => Ret (Err (Wrapped "query pending payment orders" e))
  | Ok l => run! n := reconcile_each l 0 in Ret (Ok n)
  end.

Fixpoint expire_each (l : list payment_order) (n : Z) : pprog Z :=
  match l with
  | [] => Ret n
  | o :: l =>
      run! result := cancelCore o OrderStatusExpired in
      expire_each l (match result with
                     | Ok r => if (r =s checkPaidResultAlreadyPaid) || (r =s "") then n else n + 1
                     | Err _ => n
                     end)
  end.

Definition ExpireTimedOutOrders : pprog (outcome Z error) :=
  let! now := PNow in
  let! found := PTimedOut now in
  match (found : outcome (list payment_order) error) with
  | Err e => Ret (Err (Wrapped "query expired" e))
  | Ok l => run! n := expire_each l 0 in Ret (Ok n)
  end.

(** [createOrderInTx]: the insertion of an order, with at most five draws of a
    trade number. *)
Definition createOrder (o : payment_order) (candidate : string) : pprog (outcome payment_order error) :=
  let! created := PInsertOrder o candidate in
  Ret (match created with Err e => Err (Wrapped "create order" e) | ok => ok end).

(** The payment is set up with the provider. *)
Definition invokeProvider (o : payment_order) : pprog (outcome unit error) :=
  let! answer := PCreatePayment o in
  match (answer : outcome (string * string) error) with
  | Err e => Ret (Err e)
  | Ok (tradeNo, providerKey) =>
      let! saved := PSaveProviderReply (o_ID o) tradeNo providerKey in
      match saved with
      | Err e => Ret (Err (Wrapped "update order with payment details" e))
      | Ok _ => let! _ := PAudit (o_ID o) "ORDER_CREATED" in Ret (Ok tt)
      end
  end.

Definition CreateOrder (o : payment_order) (candidate : string) : pprog (outcome payment_order error) :=
  run! created := createOrder o candidate in
  match created with
  | Err e => Ret (Err e)
  | Ok order =>
      run! resp := invokeProvider order in
      match resp with
      | Err e => let! _ := PFailOrder (o_ID order) in Ret (Err e)
      | Ok _ => Ret (Ok order)
      end
  end.
End providers.
End fulfilment.
End PaymentService.
