(* ===== verification/PaymentSystem.v ===== *)
(** * Payments: notifications, retries, users and administrators at once

    Any number of programs of [PaymentService] and [RedeemService] over one
    database, one call at a time; calls fail before or after they take effect,
    programs stop anywhere, the clock moves on, whatever is outside answers
    anything. *)

From Stdlib Require Import QArith SpecFloat.
From S2P Require Import Prelude Programs GoStrings GoFloat AppErrors Subscriptions SubscriptionService PaymentOrders RedeemService PaymentService.

Module PaymentSystem.
Export PaymentService.
Import Subscriptions.
#[local] Open Scope Z_scope.

Section system.
Context (offset : Time -> Duration) (column : Time -> Time) (numeric : float64 -> Q) (EqualFold : string -> string -> bool).

(** ** Calls *)

(** [None] when the answer is from outside. *)
Definition exec_p (now : Time) {A} (c : pcall A) (d : payment_db) : option (A * payment_db) :=
  let counted (r : Z * payment_db) : option (outcome Z error * payment_db) := Some (Ok r.1, r.2) in
  match c in pcall A return option (A * payment_db) with
  | PNow => Some (now, d)
  | PGetOrder id => Some (get_order id d, d)
  | PFindOrder t => Some (order_by_trade_no t d, d)
  | PInsertOrder o candidate => Some (insert_order column o candidate now d)
  | PTimedOut t => Some (Ok (timed_out column t d), d)
  | PReconcilable t => Some (Ok (reconcilable column t d), d)
  | PMarkPaid id tradeNo paid t => Some (mark_paid column numeric id tradeNo paid t d)
  | PAcquire id t => counted (acquire_lease id t d)
  | PMarkCompleted id version => counted (mark_completed column id version now d)
  | PMarkFailed id version => counted (mark_failed column id version now d)
  | PEndPending id status => counted (end_pending column id status now d)
  | PSetTradeNo id tradeNo => counted (set_trade_no column id tradeNo now d)
  | PSaveProviderReply id tradeNo providerKey => Some (save_provider_reply column id tradeNo providerKey now d)
  | PFailOrder id => Some (fail_order column id now d)
  | PHasAudit id action => Some (has_audit id action d, d)
  | PAudit id action => Some (write_audit id action d)
  | PGetCode code => Some (get_code code d, d)
  | PGetCodeByID id => Some (get_code_by_id id d, d)
  | PGetCodes ids => Some (Ok (codes_with_ids ids d), d)
  | PCreateCode c => Some (create_code c d)
  | PUpdateCode c => Some (update_code c d)
  | PUpdateCodes ids f => counted (update_codes column ids f d)
  | PDeleteCode id => Some (Ok tt, delete_code id d)
  | PUserExists uid =>
      Some (match payers d !! uid with Some p => if p_deleted p then Err ErrUserNotFound else Ok tt | None => Err ErrUserNotFound end, d)
  | PRedeemTx c uid => Some (redeem_tx offset column numeric c uid now d)
  | PAssignTx o g days => Some (assign_tx offset column numeric o g days now d)
  | _ => None
  end.

(** The answer when a call fails. *)
Definition failed_p (e : error) {A} (c : pcall A) : option A :=
  match c in pcall A return option A with
  | PNow => None
  | PGetOrder _ | PFindOrder _ | PInsertOrder _ _ => Some (Err e)
  | PTimedOut _ | PReconcilable _ => Some (Err e)
  | PMarkPaid _ _ _ _ | PAcquire _ _ | PMarkCompleted _ _ | PMarkFailed _ _ | PEndPending _ _ | PSetTradeNo _ _ => Some (Err e)
  | PHasAudit _ _ => Some false
  | PSaveProviderReply _ _ _ | PFailOrder _ => Some (Err e)
  | PAudit _ _ | PCreateCode _ | PUpdateCode _ | PDeleteCode _ | PUserExists _ | PRedeemTx _ _ | PAssignTx _ _ _ => Some (Err e)
  | PGetCode _ | PGetCodeByID _ => Some (Err e)
  | PGetCodes _ => Some (Err e)
  | PUpdateCodes _ _ => Some (Err e)
  | _ => None
  end.

(** What happens that money or entitlements come from, and the payments that
    could not be set up. *)
Inductive event :=
| Redeemed (code codeType : string) (value uid : Z)
| Assigned (order uid groupID days : Z) (recovered : bool)
| Credited (uid : Z) (amount : float64)
| SetupFailed (order : Z).

Definition event_of (now : Time) {A} (c : pcall A) (d : payment_db) : option event :=
  match c with
  | PRedeemTx c uid =>
      match redeem_tx offset column numeric c uid now d with
      | (Ok _, _) => Some (Redeemed (c_Code c) (c_Type c) (c_Value c) uid)
      | _ => None
      end
  | PAssignTx o g days =>
      if hasPaymentSubscriptionAssignmentAudit (o_ID o) d then None
      else
        match assign_tx offset column numeric o g days now d with
        | (Ok _, _) => Some (Assigned (o_ID o) (o_UserID o) g days (recovered_from_note o g d))
        | _ => None
        end
  | PFailOrder id => match orders d !! id with Some _ => Some (SetupFailed id) | None => None end
  | _ => None
  end.

Inductive p_sem (now : Time) {A} (c : pcall A) (d : payment_db) : option event -> A -> payment_db -> Prop :=
| sem_done r d' : exec_p now c d = Some (r, d') -> p_sem now c d (event_of now c d) r d'
| sem_lost m r0 r d' : exec_p now c d = Some (r0, d') -> failed_p (DriverError m) c = Some r -> p_sem now c d (event_of now c d) r d'
| sem_fail m r : failed_p (DriverError m) c = Some r -> p_sem now c d None r d
| sem_outside r : exec_p now c d = None -> p_sem now c d None r d.

(** ** Programs

    Administrators create codes; they neither delete nor expire codes, nor set
    their status. *)
Definition done {R} (p : pprog R) : pprog unit := run! _ := p in Ret tt.

Inductive handler : pprog unit -> Prop :=
| h_notification n pk : handler (done (HandlePaymentNotification numeric EqualFold n pk))
| h_retry id : handler (done (RetryFulfillment numeric id))
| h_cancel id uid : handler (done (CancelOrder numeric EqualFold id uid))
| h_admin_cancel id : handler (done (AdminCancelOrder numeric EqualFold id))
| h_verify t uid : handler (done (VerifyOrderByOutTradeNo numeric EqualFold t uid))
| h_reconcile : handler (done (ReconcilePendingPaymentOrders numeric EqualFold))
| h_expire : handler (done (ExpireTimedOutOrders numeric EqualFold))
| h_create o candidate : handler (done (CreateOrder o candidate))
| h_redeem uid code : handler (done (Redeem uid code))
| h_create_and_redeem c uid : handler (done (createAndRedeem c uid))
| h_generate n t v g days e : handler (done (GenerateRedeemCodes n t v g days e))
| h_batch ids f : u_Status f = None -> handler (done (BatchUpdate ids f)).

Record system := System { sys_db : payment_db; sys_now : Time; sys_programs : list (pprog unit); sys_log : list event }.

(** What an order is about stays. *)
Definition order_terms (o : payment_order) : Z * Z * string * Z * string * option Z * option Z :=
  (o_ID o, o_UserID o, OrderType o, Amount o, RechargeCode o, SubscriptionGroupID o, SubscriptionDays o).

(** Completed, or on its way to a refund. *)
Definition paid_out (o : payment_order) : bool := (o_Status o =s OrderStatusCompleted) || psIsRefundStatus (o_Status o).

(** [service/payment_refund.go] refunds orders that were completed, in part by
    their ids alone: whatever their status is by then.  Others change users and
    subscriptions, too; what users have recharged only changes by [UpdateBalance]
    ([step_credit]). *)
Definition others_change_order (o o' : payment_order) : Prop :=
  order_terms o' = order_terms o /\ CompletedAt o' = CompletedAt o /\
  (o_Status o' = o_Status o \/ (is_set (CompletedAt o) = true /\ paid_out o' = true)).

Definition others_change (d d' : payment_db) : Prop :=
  (forall id, option_Forall2 others_change_order (orders d !! id) (orders d' !! id)) /\ next_order d' = next_order d /\
  codes d' = codes d /\ next_code d' = next_code d /\
  (forall id, hasPaymentSubscriptionAssignmentAudit id d' = hasPaymentSubscriptionAssignmentAudit id d) /\
  forall u p, payers d !! u = Some p -> exists p', payers d' !! u = Some p' /\ total_recharged p' = total_recharged p.

Inductive pay_step : system -> system -> Prop :=
| step_start d t ps log p : handler p -> pay_step (System d t ps log) (System d t (p :: ps) log)
| step_call d t ps1 ps2 log {A} (c : pcall A) k e r d' :
    p_sem t c d e r d' ->
    pay_step (System d t (ps1 ++ Do c k :: ps2) log) (System d' t (ps1 ++ k r :: ps2) (log ++ option_list e))
| step_clock d t t' ps log : t <= t' -> pay_step (System d t ps log) (System d t' ps log)
| step_crash d t ps1 ps2 log p : pay_step (System d t (ps1 ++ p :: ps2) log) (System d t (ps1 ++ ps2) log)
| step_others d d' t ps log : others_change d d' -> pay_step (System d t ps log) (System d' t ps log)
(* promo codes, the transfer of an affiliate quota, the rollback of a refund *)
| step_credit d d' t ps log uid amount :
    UpdateBalance numeric uid amount d = (Ok tt, d') -> pay_step (System d t ps log) (System d' t ps (log ++ [Credited uid amount])).

Definition fresh (d : payment_db) : Prop := orders d = ∅ /\ 0 <= next_order d /\ codes d = ∅ /\ audit d = [].
Definition reaches (d0 : payment_db) (t0 : Time) : system -> Prop := rtc pay_step (System d0 t0 [] []).

(** ** Programs alone

    [outside] has the answers of what is not in the database. *)
Section alone.
Context (outside : forall A, pcall A -> option A).

(** At one moment, for at most [n] calls. *)
Fixpoint play {R} (now : Time) (n : nat) (p : pprog R) (d : payment_db) (log : list event) : pprog R * payment_db * list event :=
  match n, p with
  | S n, Do c k =>
      match exec_p now c d with
      | Some (r, d') => play now n (k r) d' (log ++ option_list (event_of now c d))
      | None => match outside _ c with Some r => play now n (k r) d log | None => (p, d, log) end
      end
  | _, _ => (p, d, log)
  end.

Lemma play_steps now n p d log q d' log' ps1 ps2 :
  play now n p d log = (q, d', log') -> rtc pay_step (System d now (ps1 ++ p :: ps2) log) (System d' now (ps1 ++ q :: ps2) log').
Proof.
  revert p d log. induction n as [|n IH]; intros p d log; [by intros [= <- <- <-]|]. destruct p as [r|A c k]; [by intros [= <- <- <-]|].
  cbn [play]. destruct (exec_p now c d) as [[r d1]|] eqn:He.
  - intros H. eapply rtc_l; [|by eapply IH]. apply step_call. by apply sem_done.
  - destruct (outside A c) as [r|]; [|by intros [= <- <- <-]]. intros H. eapply rtc_l; [|by eapply IH].
    rewrite <- (app_nil_r log) at 2. apply (step_call d now ps1 ps2 log c k None). by apply sem_outside.
Qed.

(** To its end. *)
Fixpoint finish {R} (now : Time) (p : pprog R) (d : payment_db) : option (R * payment_db) :=
  match p with
  | Ret r => Some (r, d)
  | Do c k =>
      match exec_p now c d with
      | Some (r, d') => finish now (k r) d'
      | None => match outside _ c with Some r => finish now (k r) d | None => None end
      end
  end.

Lemma finish_bind {A B} now (p : pprog A) (k : A -> pprog B) d :
  finish now (bind p k) d = match finish now p d with Some (r, d1) => finish now (k r) d1 | None => None end.
Proof.
  revert d. induction p as [r|X c k' IH]; intros d; cbn; [done|]. destruct (exec_p now c d) as [[r d1]|]; [apply IH|].
  destruct (outside X c); [apply IH|done].
Qed.

Lemma finish_steps {R} now (p : pprog R) d r d' ps log :
  finish now p d = Some (r, d') -> exists log', rtc pay_step (System d now (done p :: ps) log) (System d' now (Ret tt :: ps) log').
Proof.
  revert d log. induction p as [r1|A c k IH]; intros d log; cbn [finish]; [by intros [= <- <-]; exists log|].
  destruct (exec_p now c d) as [[x d1]|] eqn:He.
  - intros H. destruct (IH x d1 (log ++ option_list (event_of now c d)) H) as [log' Hs]. exists log'.
    eapply rtc_l; [|exact Hs]. apply (step_call d now [] ps log c (fun x => done (k x))). by apply sem_done.
  - destruct (outside A c) as [x|]; [|done]. intros H. destruct (IH x d (log ++ option_list None) H) as [log' Hs]. exists log'.
    eapply rtc_l; [|exact Hs]. apply (step_call d now [] ps log c (fun x => done (k x))). by apply sem_outside.
Qed.
End alone.

(** What is outside as it usually answers. *)
Definition usual (A : Type) (c : pcall A) : option A :=
  match c in pcall A return option A with
  | PInstanceKey _ | PRegistryKey _ => Some ""
  | PCancelPayment _ | PRedeemRebate _ | PUnlock _ | PCountFailure _ => Some tt
  | PRebate _ | PInvalidate _ => Some (Ok tt)
  | PCreatePayment _ => Some (Ok ("", "alipay"))
  | PGroupActive _ | PTryLock _ => Some true
  | PGroupSubscribable _ => Some (Ok true)
  | PRedeemLimit _ => Some None
  | _ => None
  end.
End system.
End PaymentSystem.
