(* ===== verification/PaymentSafety.v ===== *)
(** * A payment is worth one redemption

    What a program has learnt from its calls lets it complete an order only
    when the order's code has been redeemed for its user, or its subscription
    assigned, and each of these happens once. *)

From Stdlib Require Import QArith SpecFloat.
From S2P Require Import Prelude Programs GoStrings GoFloat AppErrors Subscriptions SubscriptionService PaymentOrders RedeemService PaymentService PaymentSystem.

Module PaymentSafety.
Export PaymentSystem.
Import Subscriptions PaymentOrders.
#[local] Open Scope Z_scope.

(** ** Recharge codes name their orders *)

Lemma digits_cut l1 l2 r1 r2 :
  Forall (fun c => is_digit c = true) l1 -> Forall (fun c => is_digit c = true) l2 ->
  l1 ++ chr 45 :: r1 = l2 ++ chr 45 :: r2 -> l1 = l2.
Proof.
  intros H1. revert l2. induction H1 as [|c l1 Hc _ IH]; intros l2 H2 E; destruct H2 as [|c2 l2 Hc2 H2]; try done.
  - by injection E as <- _.
  - by injection E as -> _.
  - injection E as -> E. f_equal. by apply IH.
Qed.

Lemma recharge_code_id i j t u : 0 <= i -> 0 <= j -> recharge_code i t = recharge_code j u -> i = j.
Proof.
  intros Hi Hj E. apply (f_equal to_bytes) in E. unfold recharge_code in E. rewrite !to_bytes_app in E.
  apply (app_inv_head (to_bytes "PAY-")) in E. apply digits_cut in E; [|by apply Itoa_digits..].
  apply (f_equal of_bytes) in E. rewrite !of_to_bytes in E. apply (f_equal (parse_digits 0)) in E.
  rewrite !Itoa_parse in E by done. by injection E.
Qed.

Lemma recharge_code_trim i t : 0 <= i -> 0 <= t -> TrimSpace (recharge_code i t) = recharge_code i t.
Proof.
  intros Hi Ht. assert (Hd : forall z, 0 <= z -> Forall (fun c => 33 <= byte_of c <= 126) (to_bytes (Itoa z))).
  { intros z Hz. eapply Forall_impl; [by apply Itoa_digits|]. intros c Hc. apply digit_bounds in Hc. lia. }
  apply TrimSpace_printable. unfold recharge_code. rewrite !to_bytes_app. repeat apply Forall_app_2.
  - by repeat constructor.
  - by apply Hd.
  - by repeat constructor.
  - apply Hd. apply Z.rem_nonneg; lia.
Qed.

Section safety.
#[local] Set Default Proof Using "Type".
Context (offset : Time -> Duration) (column : Time -> Time) (numeric : float64 -> Q) (EqualFold : string -> string -> bool).

(** ** What it takes to complete an order *)

(** A code's value for an order's amount. *)
Definition covers (o : payment_order) (v : Z) : Prop :=
  numeric_store 8 (numeric (dollars (Amount o))) = Some v \/ amounts_differ (numeric_scan 8 v) (dollars (Amount o)) codeTolerance = false.

Definition settled (log : list event) (o : payment_order) : Prop :=
  if OrderType o =s OrderTypeSubscription then
    exists g days recovered, SubscriptionGroupID o = Some g /\ SubscriptionDays o = Some days /\
      Assigned (o_ID o) (o_UserID o) g days recovered ∈ log
  else exists v, Redeemed (RechargeCode o) RedeemTypeBalance v (o_UserID o) ∈ log /\ covers o v.

Inductive fact := KOrder (o : payment_order) | KCode (code codeType : string) (value : Z) | KUsed (code : string) (uid : Z) | KAssigned (id : Z).

(** What is known when an order is completed. *)
Definition earned (κ : list fact) (o : payment_order) : Prop :=
  if OrderType o =s OrderTypeSubscription then
    is_Some (SubscriptionGroupID o) /\ is_Some (SubscriptionDays o) /\ KAssigned (o_ID o) ∈ κ
  else exists v, KCode (RechargeCode o) RedeemTypeBalance v ∈ κ /\ covers o v /\ KUsed (RechargeCode o) (o_UserID o) ∈ κ.

Definition allowed (A : Type) (κ : list fact) (c : pcall A) : Prop :=
  match c with
  | PMarkCompleted id _ => exists o, KOrder o ∈ κ /\ o_ID o = id /\ earned κ o
  | PRedeemTx c _ => KCode (c_Code c) (c_Type c) (c_Value c) ∈ κ
  | PAssignTx o g days => KOrder o ∈ κ /\ SubscriptionGroupID o = Some g /\ SubscriptionDays o = Some days
  | PCreateCode c => c_Status c = StatusUnused /\ UsedBy c = None
  | PUpdateCode _ | PDeleteCode _ => False
  | PUpdateCodes _ f => u_Status f = None
  | PEndPending _ s => s = OrderStatusCancelled \/ s = OrderStatusExpired
  | PAudit id action => action <> "SUBSCRIPTION_ASSIGNED" /\ (action = "SUBSCRIPTION_SUCCESS" -> KAssigned id ∈ κ)
  | _ => True
  end.

(** The recharge code of an order that was inserted. *)
Definition well_coded (o : payment_order) : Prop := 0 <= o_ID o /\ exists t, 0 <= t /\ RechargeCode o = recharge_code (o_ID o) t.

(** Answers that agree with what is known. *)
Definition possible (A : Type) (κ : list fact) (c : pcall A) : A -> Prop :=
  match c in pcall A return A -> Prop with
  | PGetOrder id => fun r => forall o, r = Ok o ->
      o_ID o = id /\ well_coded o /\ forall o', KOrder o' ∈ κ -> o_ID o' = id -> order_terms o' = order_terms o
  | PGetCode code => fun r => forall c, r = Ok c -> c_Code c = code
  | _ => fun _ => True
  end.

Definition code_facts (c : RedeemCode) : list fact :=
  KCode (c_Code c) (c_Type c) (c_Value c) ::
  match UsedBy c with Some u => if c_Status c =s StatusUsed then [KUsed (c_Code c) u] else [] | None => [] end.

Definition note (A : Type) (κ : list fact) (c : pcall A) : A -> list fact :=
  match c in pcall A return A -> list fact with
  | PGetOrder _ => fun r => match r with Ok o => KOrder o :: κ | Err _ => κ end
  | PGetCode _ => fun r => match r with Ok c => code_facts c ++ κ | Err _ => κ end
  | PCreateCode c => fun r => match r with Ok _ => KCode (c_Code c) (c_Type c) (c_Value c) :: κ | Err _ => κ end
  | PRedeemTx c uid => fun r => match r with Ok _ => KUsed (c_Code c) uid :: κ | Err _ => κ end
  | PAssignTx o _ _ => fun r => match r with Ok _ => KAssigned (o_ID o) :: κ | Err _ => κ end
  | _ => fun _ => κ
  end.

Notation runs := (always allowed possible note).

(** ** The programs know enough *)

Lemma runs_grow {R} (Q : list fact -> R -> Prop) κ (p : pprog R) :
  runs (fun κ' r => κ ⊆ κ' -> Q κ' r) κ p -> runs Q κ p.
Proof.
  clear offset column EqualFold. assert (G : forall κ1, κ ⊆ κ1 -> runs (fun κ' r => κ ⊆ κ' -> Q κ' r) κ1 p -> runs Q κ1 p).
  { induction p as [r|A c k IH]; intros κ1 H1; cbn [always]; [auto|]. intros [Hc Hk]. split; [done|]. intros x Hx.
    apply IH; [|by apply Hk]. etrans; [exact H1|]. destruct c; cbn; try done; destruct x; set_solver. }
  by apply G.
Qed.

(** What a program learns in any case. *)
Definition learns {R} (κ : list fact) (p : pprog R) (P : list fact -> R -> Prop) : Prop :=
  runs (fun κ' r => κ ⊆ κ' /\ P κ' r) κ p.

Lemma learns_intro {R} κ (p : pprog R) P : runs P κ p -> learns κ p P.
Proof. intros H. apply runs_grow. eapply always_mono; [|exact H]. auto. Qed.

Lemma learns_bind {A B} (Q : list fact -> B -> Prop) κ (p : pprog A) (k : A -> pprog B) P :
  learns κ p P -> (forall κ' r, κ ⊆ κ' -> P κ' r -> runs Q κ' (k r)) -> runs Q κ (bind p k).
Proof. intros Hp Hk. apply always_bind. eapply always_mono; [|exact Hp]. intros κ' r [H1 H2]. auto. Qed.

Notation quiet := (runs (fun _ _ => True)).

Lemma quiet_bind {A B} (Q : list fact -> B -> Prop) κ (p : pprog A) (k : A -> pprog B) :
  quiet κ p -> (forall κ' r, κ ⊆ κ' -> runs Q κ' (k r)) -> runs Q κ (bind p k).
Proof. intros Hp Hk. eapply learns_bind; [by apply learns_intro|]. auto. Qed.

Ltac walk :=
  repeat first
    [ exact I | progress cbn [always allowed possible note]
    | match goal with |- _ /\ _ => split; [first [exact I | by left | by right | done]|] end
    | apply quiet_bind | intros ? | case_match ].

(** *** Codes *)

Lemma GetByCode_learns κ code :
  learns κ (GetByCode code) (fun κ' r => forall c, r = Ok c -> code_facts c ⊆ κ' /\ c_Code c = code).
Proof.
  clear offset column EqualFold. apply learns_intro. split; [exact I|]. intros [c|e] Hx; cbn [always note]; [|intros c [=]]. intros c' [= <-].
  split; [set_solver|]. by apply Hx.
Qed.

Lemma CreateCode_learns κ c :
  c_Status c = StatusUnused -> UsedBy c = None -> c_Type c = RedeemTypeBalance ->
  learns κ (CreateCode c) (fun κ' r => r = Ok tt -> KCode (TrimSpace (c_Code c)) RedeemTypeBalance (c_Value c) ∈ κ').
Proof.
  intros Hs Hu Ht. apply learns_intro. unfold CreateCode. cbv zeta. cbn [c_Code c_Type c_Value c_Status set_field]. rewrite Hs, Ht.
  change (RedeemTypeBalance =s "") with false. change (StatusUnused =s "") with false. cbv iota.
  destruct (_ =s ""); [intros [=]|]. destruct (_ && _); [intros [=]|]. split; [exact I|]. intros now _. cbn [note].
  destruct (IsExpiredAt _ now); [intros [=]|]. split; [by split|]. intros [[]|e] _; cbn [always note]; [|intros [=]].
  intros _. cbn. left.
Qed.

Lemma CreateCode_quiet κ c : c_Status c = StatusUnused -> UsedBy c = None -> quiet κ (CreateCode c).
Proof.
  intros Hs Hu. unfold CreateCode. cbv zeta. destruct (_ =s ""); [exact I|].
  match goal with |- context [negb (c_Type ?x =s _)] => set (c1 := x) end.
  assert (E : c_Status c1 = StatusUnused /\ UsedBy c1 = None) by (subst c1; destruct (_ =s ""); done).
  destruct E as [E1 Hu1]. rewrite E1. change (StatusUnused =s "") with false. cbv iota. clearbody c1. walk.
Qed.

Lemma redeem_learns κ policy uid code : learns κ (redeem policy uid code) (fun κ' r => forall c, r = Ok c -> KUsed code uid ∈ κ').
Proof.
  assert (L : forall κ, runs (fun κ' r => forall c : RedeemCode, r = Ok c -> KUsed code uid ∈ κ') κ (redeem_locked policy uid code)).
  { clear κ. intros κ. unfold redeem_locked. cbv zeta. split; [exact I|]. intros [c|e] Hx; cbn [note].
    - specialize (Hx c eq_refl). subst code.
      repeat first [ progress cbn [always allowed possible note] | (intros ? [=]; fail)
                   | match goal with |- _ /\ _ => split; [first [exact I | by left]|] end | intros ? _ | case_match ].
      all: left.
    - destruct (errors_Is _ _); [|intros c [=]]. destruct (limited policy); [|intros c [=]]. split; [exact I|]. intros [] _ c [=]. }
  apply learns_intro. unfold redeem. cbv zeta.
  assert (L2 : forall κ, runs (fun κ' r => forall c : RedeemCode, r = Ok c -> KUsed code uid ∈ κ') κ
    (let! acquired := PTryLock code in
     if negb acquired then Ret (Err ErrRedeemCodeLocked)
     else run! r := redeem_locked policy uid code in let! _ := PUnlock code in Ret r)).
  { clear κ. intros κ. split; [exact I|]. intros acquired _. cbn [note]. destruct (negb acquired); [intros c [=]|].
    eapply learns_bind; [apply learns_intro, L|]. intros κ' r _ Hr. split; [exact I|]. intros [] _. exact Hr. }
  destruct (limited policy); [|apply L2]. split; [exact I|]. intros [e|] _; [intros c [=]|apply L2].
Qed.

Lemma redeem_quiet κ policy uid code : quiet κ (redeem policy uid code).
Proof. eapply always_mono; [|apply redeem_learns]. done. Qed.
Lemma GetByCode_quiet κ code : quiet κ (GetByCode code).
Proof. eapply always_mono; [|apply GetByCode_learns]. done. Qed.

Ltac known_quiet := first [apply redeem_quiet | apply GetByCode_quiet | apply CreateCode_quiet; done].
Ltac stroll := repeat first [progress walk | known_quiet].

Lemma resolve_quiet κ c uid : quiet κ (resolveCreateAndRedeemExisting c uid).
Proof. unfold resolveCreateAndRedeemExisting, RedeemForAdminFulfillment. stroll. Qed.

Lemma createAndRedeem_quiet κ c uid : quiet κ (createAndRedeem c uid).
Proof.
  unfold createAndRedeem. apply quiet_bind; [known_quiet|]. intros κ1 [c1|e] _; [apply resolve_quiet|].
  destruct (negb _); [exact I|]. apply quiet_bind; [known_quiet|]. intros κ2 [u|e2] _; [apply redeem_quiet|].
  apply quiet_bind; [known_quiet|]. intros κ3 [c3|e3] _; [apply resolve_quiet|exact I].
Qed.

Lemma GenerateRedeemCodes_quiet κ n t v g days e : quiet κ (GenerateRedeemCodes n t v g days e).
Proof.
  assert (G : forall m κ c, c_Status c = StatusUnused -> UsedBy c = None -> quiet κ (generate_codes c m)).
  { clear κ. induction m as [|m IH]; intros κ c Hs Hu; [exact I|]. cbn [generate_codes]. split; [exact I|].
    intros [value|?] _; [|exact I]. split; [by split|]. intros [u|?] _; [|exact I]. cbn [note].
    apply quiet_bind; [by apply IH|]. intros κ' [l|?] _; exact I. }
  unfold GenerateRedeemCodes. cbv zeta. repeat first [progress walk | by apply G].
Qed.

Lemma BatchUpdate_quiet κ ids f : u_Status f = None -> quiet κ (BatchUpdate ids f).
Proof. intros Hf. unfold BatchUpdate, batchUpdate. rewrite Hf. walk. all: split; [exact Hf|]; walk. Qed.

(** *** Fulfilment *)

Lemma earned_more κ κ' o : κ ⊆ κ' -> earned κ o -> earned κ' o.
Proof.
  clear offset column EqualFold. unfold earned. intros Hs. destruct (_ =s _).
  - intros (? & ? & H). repeat split; auto.
  - intros (v & H1 & H2 & H3). exists v. auto.
Qed.

Lemma earned_terms κ o o' : order_terms o' = order_terms o -> earned κ o -> earned κ o'.
Proof. unfold earned, covers. intros [= -> -> -> -> -> -> ->]. done. Qed.

Lemma markCompleted_quiet κ o lease action :
  KOrder o ∈ κ -> earned κ o -> action <> "SUBSCRIPTION_ASSIGNED" -> (action = "SUBSCRIPTION_SUCCESS" -> KAssigned (o_ID o) ∈ κ) ->
  quiet κ (markCompleted o lease action).
Proof. intros Ho He Ha Hs. unfold markCompleted. split; [by exists o|]. walk. Qed.

Lemma rebate_quiet κ o lease action :
  KOrder o ∈ κ -> earned κ o -> action <> "SUBSCRIPTION_ASSIGNED" -> (action = "SUBSCRIPTION_SUCCESS" -> KAssigned (o_ID o) ∈ κ) ->
  quiet κ (rebate_and_complete o lease action).
Proof. intros Ho He Ha Hs. split; [exact I|]. intros [u|e] _; [|exact I]. by apply markCompleted_quiet. Qed.

Lemma validated o c :
  validatePaymentRedeemCode o c = None ->
  c_Code c = RechargeCode o /\ c_Type c = RedeemTypeBalance /\ covers o (c_Value c) /\
  (c_Status c = StatusUsed -> UsedBy c = Some (o_UserID o)).
Proof.
  unfold validatePaymentRedeemCode, code_error. destruct (c_Code c =s RechargeCode o) eqn:E1; [|done].
  destruct (c_Type c =s RedeemTypeBalance) eqn:E2; [|done]. cbn [negb]. destruct (amounts_differ _ _ _) eqn:E3; [done|].
  intros H. repeat split; [by apply String.eqb_eq|by apply String.eqb_eq|by right|].
  intros Hs. rewrite Hs in H. change (StatusUsed =s StatusUnused) with false in H. change (StatusUsed =s StatusUsed) with true in H.
  cbv iota in H. by destruct (bool_decide_reflect (UsedBy c = Some (o_UserID o))).
Qed.

Lemma doBalance_quiet κ o lease :
  KOrder o ∈ κ -> (OrderType o =s OrderTypeSubscription) = false -> well_coded o -> quiet κ (doBalance numeric o lease).
Proof.
  clear offset column EqualFold. intros Ho Ht Hw. unfold doBalance.
  assert (Hend : forall κ' v, κ ⊆ κ' -> KCode (RechargeCode o) RedeemTypeBalance v ∈ κ' -> covers o v ->
    KUsed (RechargeCode o) (o_UserID o) ∈ κ' -> quiet κ' (rebate_and_complete o lease "RECHARGE_SUCCESS")).
  { intros κ' v Hs Hc Hv Hu. apply rebate_quiet; [auto| |done|done]. unfold earned. rewrite Ht. eauto. }
  assert (Hredeem : forall κ' v, κ ⊆ κ' -> KCode (RechargeCode o) RedeemTypeBalance v ∈ κ' -> covers o v ->
    quiet κ' (run! r := redeemForPaymentFulfillment (o_UserID o) (RechargeCode o) in
              match r with
              | Err e => Ret (Err (Wrapped "redeem balance" e))
              | Ok _ => rebate_and_complete o lease "RECHARGE_SUCCESS"
              end)).
  { intros κ' v Hs Hc Hv. eapply learns_bind; [apply redeem_learns|]. intros κ2 [c|e] H2 Hr; [|exact I].
    eapply (Hend κ2 v); [by etrans|by apply H2|done|by apply (Hr c)]. }
  eapply learns_bind; [apply GetByCode_learns|]. intros κ1 [c|e] H1 Hc; cbn [resolveRedeemAction].
  - destruct (Hc c eq_refl) as [Hf Hcode]. destruct (validatePaymentRedeemCode o c) as [er|] eqn:Hv; [destruct (IsUsed c); exact I|].
    apply validated in Hv as (_ & Hty & Hcov & Hby).
    assert (Hk : KCode (RechargeCode o) RedeemTypeBalance (c_Value c) ∈ κ1).
    { apply Hf. rewrite <- Hcode, <- Hty. left. }
    destruct (IsUsed c) eqn:Hu; [|by eapply Hredeem].
    apply (Hend κ1 (c_Value c)); [done..|]. unfold IsUsed in Hu. apply Hf. unfold code_facts. rewrite Hcode.
    rewrite Hby by (by apply String.eqb_eq). rewrite Hu. right. left.
  - destruct (errors_Is e _); [|exact I]. destruct (numeric_store _ _) as [value|] eqn:Hn; [|exact I].
    eapply learns_bind; [by apply CreateCode_learns|]. intros κ2 [[]|e2] H2 Hr; [|exact I]. cbn [c_Code c_Value] in Hr.
    destruct Hw as (Hi & t & Hpos & Hrc). rewrite Hrc, recharge_code_trim, <- Hrc in Hr by done.
    eapply (Hredeem κ2 value); [by etrans|by apply Hr|by left].
Qed.

Lemma doSub_quiet κ o g days lease :
  KOrder o ∈ κ -> (OrderType o =s OrderTypeSubscription) = true -> SubscriptionGroupID o = Some g -> SubscriptionDays o = Some days ->
  quiet κ (doSub o g days lease).
Proof.
  clear offset column EqualFold. intros Ho Ht Hg Hd. unfold doSub. split; [exact I|]. intros active _. cbn [note]. destruct (negb active); [exact I|].
  split; [done|]. intros [u|e] _; [|exact I]. cbn [note]. split; [exact I|]. intros [u2|e] _; [|exact I]. cbn [note].
  apply rebate_quiet; [by right| |done|by left]. unfold earned. rewrite Ht, Hg, Hd. repeat split; eauto. left.
Qed.

Lemma execute_quiet κ id check fulfil :
  (forall κ' o lease, κ ⊆ κ' -> KOrder o ∈ κ' -> well_coded o -> (forall o', KOrder o' ∈ κ -> o_ID o' = id -> order_terms o' = order_terms o) ->
    check o = None -> quiet κ' (fulfil o lease)) ->
  quiet κ (execute_with id check fulfil).
Proof.
  clear offset column EqualFold. intros Hf. unfold execute_with. split; [exact I|]. intros [o|e] Hx; [|exact I].
  destruct (Hx o eq_refl) as (Hid & Hw & Hag). cbn [note]. destruct (_ =s OrderStatusCompleted); [exact I|].
  destruct (psIsRefundStatus _); [exact I|]. destruct (negb _); [exact I|]. destruct (check o) eqn:Hc; [exact I|].
  apply quiet_bind; [unfold acquirePaymentFulfillmentLease; walk|]. intros κ1 [[lease|]|e] H1; [|exact I..].
  apply quiet_bind; [apply Hf; [set_solver|apply H1; left|done..]|]. intros κ2 [u|e] H2; [exact I|].
  apply quiet_bind; [unfold markFailed; walk|]. intros κ3 u _. exact I.
Qed.

Lemma executeFulfillment_quiet κ id : quiet κ (executeFulfillment numeric id).
Proof.
  clear offset column EqualFold. unfold executeFulfillment. split; [exact I|]. intros [o|e] Hx; [|exact I].
  destruct (Hx o eq_refl) as (Hid & Hw & _). cbn [note]. destruct (OrderType o =s OrderTypeSubscription) eqn:Ht; apply execute_quiet.
  - intros κ' o' lease Hs Ho' Hw' Hag Hc. destruct (SubscriptionGroupID o') as [g|] eqn:Hg; [|exact I].
    destruct (SubscriptionDays o') as [days|] eqn:Hd; [|exact I]. apply doSub_quiet; [done| |done..].
    assert (E : order_terms o = order_terms o') by (apply Hag; [left|done]). injection E as _ _ <- _ _ _ _. done.
  - intros κ' o' lease Hs Ho' Hw' Hag Hc. apply doBalance_quiet; [done| |done].
    assert (E : order_terms o = order_terms o') by (apply Hag; [left|done]). injection E as _ _ <- _ _ _ _. done.
Qed.

Ltac known_quiet ::= first [apply redeem_quiet | apply GetByCode_quiet | apply executeFulfillment_quiet].

Lemma HandlePaymentNotification_quiet κ n pk : quiet κ (HandlePaymentNotification numeric EqualFold n pk).
Proof.
  assert (P : forall κ o tradeNo paid, quiet κ (toPaid numeric o tradeNo paid)).
  { intros. unfold toPaid, alreadyProcessed. stroll. }
  assert (C : forall κ id tradeNo paid, quiet κ (confirmPayment numeric EqualFold id tradeNo paid pk (n_Metadata n))).
  { intros. unfold confirmPayment. repeat first [progress walk | apply P]. }
  unfold HandlePaymentNotification. repeat first [progress walk | apply C].
Qed.

Lemma RetryFulfillment_quiet κ id : quiet κ (RetryFulfillment numeric id).
Proof. unfold RetryFulfillment. stroll. Qed.

Lemma checkPaid_quiet κ o b : quiet κ (checkPaidWithOptions numeric EqualFold o b).
Proof.
  assert (P : forall κ k q resp, quiet κ (settle_paid numeric EqualFold o k q resp)).
  { intros. unfold settle_paid. cbv zeta. repeat first [progress walk | apply HandlePaymentNotification_quiet]. }
  unfold checkPaidWithOptions, requeryPaidOrderOnce. repeat first [progress walk | apply P].
Qed.

Lemma cancelCore_quiet κ o fs : fs = OrderStatusCancelled \/ fs = OrderStatusExpired -> quiet κ (cancelCore numeric EqualFold o fs).
Proof.
  intros Hfs. unfold cancelCore, checkPaid. cbv zeta.
  repeat first [progress walk | apply checkPaid_quiet | split; [exact Hfs|] | (split; [|done]; case_match; done)].
Qed.

Lemma reconcile_each_quiet l κ n : quiet κ (reconcile_each numeric EqualFold l n).
Proof.
  revert κ n. induction l as [|o l IH]; intros κ n; [exact I|]. cbn [reconcile_each].
  apply quiet_bind; [apply checkPaid_quiet|]. intros κ' r _. apply IH.
Qed.

Lemma expire_each_quiet l κ n : quiet κ (expire_each numeric EqualFold l n).
Proof.
  revert κ n. induction l as [|o l IH]; intros κ n; [exact I|]. cbn [expire_each].
  apply quiet_bind; [apply cancelCore_quiet; by right|]. intros κ' r _. apply IH.
Qed.

Lemma handler_quiet κ p : handler numeric EqualFold p -> quiet κ p.
Proof.
  assert (D : forall R (q : pprog R), quiet κ q -> quiet κ (done q)).
  { intros R q Hq. apply quiet_bind; [done|]. intros κ' r _. exact I. }
  destruct 1; apply D.
  - apply HandlePaymentNotification_quiet.
  - apply RetryFulfillment_quiet.
  - unfold CancelOrder. repeat first [progress walk | apply cancelCore_quiet; by left].
  - unfold AdminCancelOrder. repeat first [progress walk | apply cancelCore_quiet; by left].
  - unfold VerifyOrderByOutTradeNo, reconcilePaid. repeat first [progress walk | apply checkPaid_quiet].
  - unfold ReconcilePendingPaymentOrders. repeat first [progress walk | apply reconcile_each_quiet].
  - unfold ExpireTimedOutOrders. repeat first [progress walk | apply expire_each_quiet].
  - unfold CreateOrder, createOrder, invokeProvider. walk.
  - apply redeem_quiet.
  - apply createAndRedeem_quiet.
  - apply GenerateRedeemCodes_quiet.
  - by apply BatchUpdate_quiet.
Qed.
End safety.
End PaymentSafety.
