(* ===== verification/PaymentOnce.v ===== *)
(** * Orders that are paid out once

    The tables agree with the log of redemptions and assignments, whatever runs
    at once. *)

From Stdlib Require Import QArith SpecFloat.
From S2P Require Import Prelude Programs GoStrings GoFloat AppErrors Subscriptions SubscriptionService PaymentOrders RedeemService PaymentService PaymentSystem PaymentSafety.

Module PaymentOnce.
Export PaymentSafety.
Import Subscriptions SubscriptionService PaymentOrders.
#[local] Open Scope Z_scope.

Section once.
#[local] Set Default Proof Using "Type".
Context (offset : Time -> Duration) (column : Time -> Time) (numeric : float64 -> Q) (EqualFold : string -> string -> bool).
Notation event_of := (event_of offset column numeric).
Notation exec_p := (exec_p offset column numeric).
Notation p_sem := (p_sem offset column numeric).
Notation pay_step := (pay_step offset column numeric EqualFold).
Notation settled := (settled numeric).
Notation allowed := (allowed numeric).

Definition redeemed_code (e : event) : option string := match e with Redeemed code _ _ _ => Some code | _ => None end.
Definition assigned_order (e : event) : option Z := match e with Assigned id _ _ _ _ => Some id | _ => None end.

(** Completed now or before. *)
Definition was_completed (o : payment_order) : bool := paid_out o || is_set (CompletedAt o).

Definition orders_ok (d : payment_db) (log : list event) : Prop :=
  0 <= next_order d /\
  forall id o, orders d !! id = Some o ->
    o_ID o = id /\ id < next_order d /\ well_coded o /\ (was_completed o = true -> settled log o).

Definition used_by (d : payment_db) (code codeType : string) (value uid : Z) : Prop :=
  exists c, codes d !! code = Some c /\ c_Type c = codeType /\ c_Value c = value /\ c_Status c = StatusUsed /\ UsedBy c = Some uid.

Definition codes_ok (d : payment_db) (log : list event) : Prop :=
  (forall code c, codes d !! code = Some c -> c_Code c = code) /\
  (forall code ty v u, Redeemed code ty v u ∈ log <-> used_by d code ty v u) /\ NoDup (omap redeemed_code log).

Definition audit_ok (d : payment_db) (log : list event) : Prop :=
  (forall id u g days b, Assigned id u g days b ∈ log ->
     exists o, orders d !! id = Some o /\ o_UserID o = u /\ SubscriptionGroupID o = Some g /\ SubscriptionDays o = Some days) /\
  (forall id, hasPaymentSubscriptionAssignmentAudit id d = true <-> id ∈ omap assigned_order log) /\
  NoDup (omap assigned_order log).

Definition books_ok (d : payment_db) (log : list event) : Prop := orders_ok d log /\ codes_ok d log /\ audit_ok d log.

Definition holds (d : payment_db) (f : fact) : Prop :=
  match f with
  | KOrder o => exists o', orders d !! o_ID o = Some o' /\ order_terms o' = order_terms o
  | KCode code ty v => exists c, codes d !! code = Some c /\ c_Type c = ty /\ c_Value c = v
  | KUsed code u => exists c, codes d !! code = Some c /\ c_Status c = StatusUsed /\ UsedBy c = Some u
  | KAssigned id => hasPaymentSubscriptionAssignmentAudit id d = true
  end.

Lemma settled_more log e o : settled log o -> settled (log ++ e) o.
Proof.
  unfold settled. destruct (_ =s _).
  - intros (g & days & b & ? & ? & ?). exists g, days, b. rewrite elem_of_app. auto.
  - intros (v & ? & ?). exists v. rewrite elem_of_app. auto.
Qed.

Lemma settled_terms log o o' : order_terms o' = order_terms o -> settled log o -> settled log o'.
Proof. unfold settled, covers. intros [= -> -> -> -> -> -> ->]. done. Qed.

(** What a program knows about an order that it completes settles it. *)
Lemma earned_settles d log κ o :
  books_ok d log -> Forall (holds d) κ -> KOrder o ∈ κ -> earned numeric κ o -> settled log o.
Proof.
  intros (Ho & (_ & Hc & _) & (Ha & Hb & _)) Hκ HK He. rewrite Forall_forall in Hκ. unfold earned in He. unfold settled.
  destruct (_ =s _).
  - destruct He as ([g Hg] & [days Hd] & HA). apply Hκ in HA. cbn in HA. apply Hb, list_elem_of_omap in HA as (e & He & Hid).
    destruct e as [|id u g' days' b| |]; [done| |done..]. injection Hid as ->. exists g, days, b. split; [done|]. split; [done|].
    destruct (Ha _ _ _ _ _ He) as (o1 & Ho1 & <- & Hg1 & Hd1). destruct (Hκ _ HK) as (o2 & Ho2 & Ht). assert (o2 = o1) as -> by congruence.
    injection Ht as _ Hu _ _ _ Hg2 Hd2. assert (g' = g) as -> by congruence. assert (days' = days) as -> by congruence. by rewrite <- Hu.
  - destruct He as (v & HC & Hcov & HU). exists v. split; [|done]. apply Hc. destruct (Hκ _ HC) as (c & Hl & Hty & Hv).
    destruct (Hκ _ HU) as (c' & Hl' & Hs & Hu). assert (c' = c) as -> by congruence. by exists c.
Qed.

(** ** Changes of one table at a time *)

Definition tables_same (d d' : payment_db) : Prop :=
  next_order d' = next_order d /\ codes d' = codes d /\ forall id, hasPaymentSubscriptionAssignmentAudit id d' = hasPaymentSubscriptionAssignmentAudit id d.

(** An order may change but for its terms, and only a settled one is paid out. *)
Definition orders_move (log : list event) (d d' : payment_db) : Prop :=
  tables_same d d' /\
  forall id, option_Forall2 (fun o o' => order_terms o' = order_terms o /\ (was_completed o' = true -> was_completed o = true \/ settled log o))
    (orders d !! id) (orders d' !! id).

Lemma orders_move_ok log d d' :
  books_ok d log -> orders_move log d d' -> books_ok d' log /\ forall f, holds d f -> holds d' f.
Proof.
  intros ((Hn & Ho) & (Hk & Hc & Hnd) & (Ha & Hb & Hnd2)) ((En & Ec & Ea) & Hm). split.
  - split; [split|split].
    + by rewrite En.
    + intros id o' Hl. specialize (Hm id). rewrite Hl in Hm. inversion Hm as [o o2 [Ht Hp] E1|]; subst. symmetry in E1.
      destruct (Ho id o E1) as (Hid & Hlt & Hw & Hs). rewrite En. unfold well_coded in *. pose proof Ht as Ht0.
      injection Ht as -> _ _ _ -> _ _. repeat split; try done; [apply Hw..|]. intros Hpaid. eapply settled_terms; [exact Ht0|].
      destruct (Hp Hpaid) as [?|?]; auto.
    + unfold codes_ok, used_by. rewrite Ec. done.
    + split; [|split; [|done]].
      * intros id u g days b He. destruct (Ha _ _ _ _ _ He) as (o & Hl & H1 & H2 & H3). specialize (Hm id). rewrite Hl in Hm.
        inversion Hm as [o1 o2 [Ht _] E1 E2|]; subst. exists o2. split; [done|]. injection Ht as _ -> _ _ _ -> ->. done.
      * intros id. rewrite Ea. apply Hb.
  - intros [o|code ty v|code u|id]; cbn; rewrite ?Ec, ?Ea; try done. intros (o' & Hl & Ht). specialize (Hm (o_ID o)).
    rewrite Hl in Hm. inversion Hm as [o1 o2 [Ht2 _] E1 E2|]; subst. exists o2. split; [done|]. by rewrite Ht2.
Qed.

Lemma orders_move_refl log d : orders_move log d d.
Proof. split; [by repeat split|]. intros id. destruct (orders d !! id); constructor. auto. Qed.

Lemma update_order_moves log id guard f d :
  (forall o, orders d !! id = Some o -> guard o = true ->
     order_terms (f o) = order_terms o /\ (was_completed (f o) = true -> was_completed o = true \/ settled log o)) ->
  orders_move log d (update_order id guard f d).2.
Proof.
  intros Hf. unfold update_order. destruct (orders d !! id) as [o|] eqn:Hl; [|apply orders_move_refl].
  destruct (guard o) eqn:Hg; [|apply orders_move_refl]. split; [by repeat split|]. intros i. cbn. destruct (decide (i = id)) as [->|Hne].
  - rewrite lookup_insert_eq, Hl. constructor. by apply Hf.
  - rewrite lookup_insert_ne by done. destruct (orders d !! i); constructor. auto.
Qed.

Lemma audit_row_moves log id action d :
  action <> "SUBSCRIPTION_ASSIGNED" -> (action = "SUBSCRIPTION_SUCCESS" -> hasPaymentSubscriptionAssignmentAudit id d = true) ->
  orders_move log d (write_audit id action d).2.
Proof.
  clear offset column EqualFold. intros H1 H2. unfold write_audit. destruct (has_audit id action d) eqn:Hh; [apply orders_move_refl|]. cbn [snd].
  split; [|intros i; cbn; destruct (orders d !! i); constructor; auto]. split; [done|]. split; [done|]. intros i.
  unfold hasPaymentSubscriptionAssignmentAudit, has_audit in *. cbn.
  assert (E : forall a, a = "SUBSCRIPTION_ASSIGNED" \/ a = "SUBSCRIPTION_SUCCESS" -> (i, a) <> (id, action) ->
    bool_decide ((i, a) ∈ audit d ++ [(id, action)]) = bool_decide ((i, a) ∈ audit d)).
  { intros a _ Hne. apply bool_decide_ext. rewrite elem_of_app, list_elem_of_singleton. tauto. }
  rewrite E by (auto; congruence). destruct (decide (i = id /\ action = "SUBSCRIPTION_SUCCESS")) as [[-> ->]|Hne].
  - rewrite H2 by done. apply orb_true_iff. specialize (H2 eq_refl). apply orb_true_iff in H2 as [H|H]; [by left|right].
    apply bool_decide_eq_true. apply bool_decide_eq_true in H. apply elem_of_app. by left.
  - rewrite E; [done|auto|]. intros [= E1 E2]. by apply Hne.
Qed.

(** Codes may change but for what they give, and new ones are unused. *)
Definition same_code (c c' : RedeemCode) : Prop :=
  c_Code c' = c_Code c /\ c_Type c' = c_Type c /\ c_Value c' = c_Value c /\ c_Status c' = c_Status c /\ UsedBy c' = UsedBy c.

Definition codes_move (d d' : payment_db) : Prop :=
  orders d' = orders d /\ next_order d' = next_order d /\ audit d' = audit d /\
  forall code, match codes d !! code, codes d' !! code with
               | Some c, Some c' => same_code c c'
               | None, Some c' => c_Code c' = code /\ c_Status c' = StatusUnused
               | None, None => True
               | Some _, None => False
               end.

Lemma audit_same d d' id : audit d' = audit d -> hasPaymentSubscriptionAssignmentAudit id d' = hasPaymentSubscriptionAssignmentAudit id d.
Proof. unfold hasPaymentSubscriptionAssignmentAudit, has_audit. by intros ->. Qed.

Lemma codes_move_refl d : codes_move d d.
Proof. repeat split. intros code. by destruct (codes d !! code). Qed.

Lemma codes_move_ok log d d' : books_ok d log -> codes_move d d' -> books_ok d' log /\ forall f, holds d f -> holds d' f.
Proof.
  intros (Ho & (Hk & Hc & Hnd) & Ha) (Eo & En & Ea & Hm). split.
  - split; [|split].
    + unfold orders_ok. by rewrite Eo, En.
    + split; [|split; [|done]].
      * intros code c' Hl. specialize (Hm code). rewrite Hl in Hm. destruct (codes d !! code) as [c|] eqn:H1; [|apply Hm].
        destruct Hm as (-> & _). by apply Hk.
      * intros code ty v u. rewrite Hc. specialize (Hm code). unfold used_by. split; intros (c & Hl & H1 & H2 & H3 & H4); rewrite Hl in Hm.
        -- destruct (codes d' !! code) as [c'|]; [|done]. destruct Hm as (_ & E1 & E2 & E3 & E4). exists c'. rewrite E1, E2, E3, E4. done.
        -- destruct (codes d !! code) as [c0|]; [|destruct Hm as [_ Hm]; by rewrite H3 in Hm].
           destruct Hm as (_ & E1 & E2 & E3 & E4). exists c0. rewrite <- E1, <- E2, <- E3, <- E4. done.
    + unfold audit_ok. rewrite Eo. destruct Ha as (H1 & H2 & H3). split; [done|]. split; [|done]. intros id. by rewrite (audit_same d d').
  - intros [o|code ty v|code u|id]; cbn; rewrite ?Eo, ?(audit_same d d') by done; try done.
    + intros (c & Hl & H1 & H2). specialize (Hm code). rewrite Hl in Hm. destruct (codes d' !! code) as [c'|]; [|done].
      destruct Hm as (_ & E1 & E2 & _). exists c'. by rewrite E1, E2.
    + intros (c & Hl & H1 & H2). specialize (Hm code). rewrite Hl in Hm. destruct (codes d' !! code) as [c'|]; [|done].
      destruct Hm as (_ & _ & _ & E1 & E2). exists c'. by rewrite E1, E2.
Qed.

Lemma create_code_moves c d : c_Status c = StatusUnused -> codes_move d (create_code c d).2.
Proof.
  intros Hs. unfold create_code. destruct (codes d !! c_Code c) as [c0|] eqn:Hl; [apply codes_move_refl|]. cbn [snd].
  repeat split. intros code. cbn. destruct (decide (code = c_Code c)) as [->|Hne].
  - by rewrite lookup_insert_eq, Hl.
  - rewrite lookup_insert_ne by done. by destruct (codes d !! code).
Qed.

Lemma update_codes_moves ids f d : u_Status f = None -> codes_move d (update_codes column ids f d).2.
Proof.
  intros Hs. unfold update_codes. cbn [snd]. repeat split. intros code. cbn. rewrite lookup_fmap.
  destruct (codes d !! code) as [c|]; [|done]. cbn. case_match; [|done]. unfold set_fields. rewrite Hs.
  by destruct (u_Notes f), (u_ExpiresAt f), (u_GroupID f).
Qed.

Lemma insert_order_ok log o candidate now d :
  0 <= now -> books_ok d log ->
  books_ok (insert_order column o candidate now d).2 log /\ forall f, holds d f -> holds (insert_order column o candidate now d).2 f.
Proof.
  intros Hnow Hb. unfold insert_order. destruct (_ && _); [by split|]. cbn [snd]. destruct Hb as ((Hn & Ho) & Hc & (H1 & H2 & H3)).
  assert (Hother : forall id o', orders d !! id = Some o' -> id <> next_order d).
  { intros id o' Hl ->. destruct (Ho _ _ Hl). lia. }
  split.
  - split; [split; [cbn; lia|]|split; [exact Hc|]].
    + intros id o'. cbn. intros [[<- <-]|[Hne Hl]]%lookup_insert_Some.
      * cbn. repeat split; [lia|done|by exists now|done].
      * destruct (Ho id o' Hl) as (E1 & E2 & E3 & E4). repeat split; try done; [lia|apply E3..].
    + split; [|split; [|done]].
      * intros id u g days b He. destruct (H1 _ _ _ _ _ He) as (o' & Hl & Hrest). exists o'. cbn.
        rewrite lookup_insert_ne by (by apply not_eq_sym, Hother with o'). done.
      * intros id. rewrite <- H2. by rewrite (audit_same d).
  - intros [o'|code ty v|code u|id]; cbn; try done. intros (o2 & Hl & Ht). exists o2.
    rewrite lookup_insert_ne by (by apply not_eq_sym, Hother with o2). done.
Qed.

(** ** A redemption *)

Definition other_tables_same (d d' : payment_db) : Prop :=
  orders d' = orders d /\ next_order d' = next_order d /\ codes d' = codes d /\ next_code d' = next_code d /\ audit d' = audit d.

Lemma credit_tables uid amount r d d' : UpdateBalance numeric uid amount d = (Ok r, d') -> other_tables_same d d'.
Proof. unfold UpdateBalance, set_payer. intros H. repeat (case_match; try done). all: injection H as _ <-; by repeat split. Qed.

Lemma redeem_gives_tables c uid now d r d' :
  redeem_gives offset column numeric c uid now d = (Ok r, d') -> other_tables_same d d'.
Proof.
  assert (U : forall x, wrap_error "update user balance" x = (Ok r, d') -> x = (Ok r, d')) by (by intros [[|] ?]).
  assert (U2 : forall x, wrap_error "update user concurrency" x = (Ok r, d') -> x = (Ok r, d')) by (by intros [[|] ?]).
  unfold redeem_gives. destruct (_ =s RedeemTypeBalance).
  - intros H%U. unfold ApplyRedeemBalanceAdjustment, UpdateBalance, set_payer in H. repeat (case_match; try done).
    all: injection H as <- <-; by repeat split.
  - destruct (_ =s RedeemTypeConcurrency).
    + intros H%U2. unfold change_concurrency, set_payer in H. repeat (case_match; try done). all: injection H as <- <-; by repeat split.
    + destruct (negb _); [done|]. destruct (c_GroupID c) as [g|]; [|done]. unfold on_subs. destruct (_ <? 0).
      * destruct (reduceOrCancelSubscription _ _ _ _ _ _ _ _) as [[|] s]; [|done]. intros [= <- <-]. by repeat split.
      * destruct (run_alone _ _ _ _ _ _) as [[|] s]; [|done]. intros [= <- <-]. by repeat split.
Qed.

Lemma redeem_tx_cases c uid now d :
  (exists e, redeem_tx offset column numeric c uid now d = (Err e, d)) \/
  exists r row d', redeem_tx offset column numeric c uid now d = (Ok r, d') /\ codes d !! c_Code c = Some row /\ c_Status row = StatusUnused /\
    redeem_gives offset column numeric c uid now
      (d <| codes := <[c_Code c := row <| c_Status := StatusUsed |> <| UsedBy := Some uid |>]> (codes d) |>) = (Ok r, d').
Proof.
  unfold redeem_tx, use_code. destruct (codes d !! c_Code c) as [row|] eqn:Hl; [|by left; eexists].
  destruct ((c_ID row =? c_ID c) && (c_Status row =s StatusUnused)) eqn:Hg; [|by left; eexists].
  apply andb_true_iff in Hg as [_ Hg]. apply String.eqb_eq in Hg.
  destruct (redeem_gives _ _ _ c uid now _) as [[r|e] d'] eqn:Hgive; [|by left; eexists]. right. by exists r, row, d'.
Qed.

Lemma redeem_books log d c row uid d' :
  books_ok d log -> codes d !! c_Code c = Some row -> c_Status row = StatusUnused -> c_Type row = c_Type c -> c_Value row = c_Value c ->
  orders d' = orders d -> next_order d' = next_order d -> audit d' = audit d ->
  codes d' = <[c_Code c := row <| c_Status := StatusUsed |> <| UsedBy := Some uid |>]> (codes d) ->
  books_ok d' (log ++ [Redeemed (c_Code c) (c_Type c) (c_Value c) uid]) /\ (forall f, holds d f -> holds d' f) /\ holds d' (KUsed (c_Code c) uid).
Proof.
  clear EqualFold. intros ((Hn & Ho) & (Hk & Hc & Hnd) & (H1 & H2 & H3)) Hrow Hun Hty Hv Eo En Ea Ec.
  assert (Hnew : c_Code c ∉ omap redeemed_code log).
  { intros (e & He & Hcode)%list_elem_of_omap. destruct e as [code ty v u| | |]; [|done..]. injection Hcode as ->.
    apply Hc in He as (c' & Hl & _ & _ & Hs & _). assert (c' = row) as -> by congruence. by rewrite Hs in Hun. }
  split; [split; [|split]|split].
  - unfold orders_ok. rewrite Eo, En. split; [done|]. intros id o Hl. destruct (Ho id o Hl) as (E1 & E2 & E3 & E4).
    repeat split; try done; [apply E3..|]. intros Hp. by apply settled_more, E4.
  - split; [|split].
    + intros code c'. rewrite Ec. intros [[<- <-]|[_ Hl]]%lookup_insert_Some; [cbn; by apply Hk in Hrow|by apply Hk].
    + intros code ty v u. unfold used_by. rewrite elem_of_app, Hc, list_elem_of_singleton, Ec. unfold used_by. split.
      * intros [(c' & Hl & Hrest)|[= -> -> -> ->]].
        -- exists c'. rewrite lookup_insert_ne; [done|]. intros <-. assert (c' = row) as -> by congruence.
           destruct Hrest as (_ & _ & Hs & _). by rewrite Hs in Hun.
        -- eexists. rewrite lookup_insert_eq. cbn. done.
      * intros (c' & [[<- <-]|[_ Hl]]%lookup_insert_Some & E1 & E2 & E3 & E4); [right|left; by exists c'].
        cbn in E1, E2, E4. injection E4 as <-. congruence.
    + rewrite omap_app. cbn. apply NoDup_app. split; [done|]. split; [|by repeat constructor; set_solver].
      intros x Hx ->%list_elem_of_singleton. done.
  - unfold audit_ok. rewrite omap_app. cbn [omap list_omap assigned_order]. rewrite app_nil_r, Eo. split; [|split; [|done]].
    + intros id u g days b. rewrite elem_of_app, list_elem_of_singleton. intros [He|[=]]. by eapply H1.
    + intros id. rewrite <- H2. by rewrite (audit_same d d').
  - intros [o|code ty v|code u|id]; cbn; rewrite ?Eo, ?Ec, ?(audit_same d d') by done; try done.
    + intros (c' & Hl & E1 & E2). destruct (decide (code = c_Code c)) as [->|Hne].
      * rewrite lookup_insert_eq. eexists. split; [done|]. cbn. assert (c' = row) as -> by congruence. done.
      * rewrite lookup_insert_ne by done. by exists c'.
    + intros (c' & Hl & E1 & E2). exists c'. rewrite lookup_insert_ne; [done|]. intros <-. assert (c' = row) as -> by congruence.
      by rewrite E1 in Hun.
  - cbn. rewrite Ec, lookup_insert_eq. by eexists.
Qed.

(** ** An assignment *)

Lemma assign_tx_cases o g days now d :
  hasPaymentSubscriptionAssignmentAudit (o_ID o) d = false ->
  (exists e, assign_tx offset column numeric o g days now d = (Err e, d)) \/
  exists s, assign_tx offset column numeric o g days now d =
    (Ok tt, d <| pay_subs := s |> <| audit := audit d ++ [(o_ID o, "SUBSCRIPTION_ASSIGNED")] |>).
Proof.
  intros Ha. unfold assign_tx. rewrite Ha. destruct (recovered_from_note o g d).
  - right. exists (pay_subs d). by destruct d.
  - unfold on_subs. destruct (run_alone _ _ _ _ _ _) as [[r|e] s]; [right; by exists s|left; by eexists].
Qed.

Lemma assign_books log d o o' s g days b :
  books_ok d log -> orders d !! o_ID o = Some o' -> order_terms o' = order_terms o -> SubscriptionGroupID o = Some g -> SubscriptionDays o = Some days ->
  hasPaymentSubscriptionAssignmentAudit (o_ID o) d = false ->
  let d' := d <| pay_subs := s |> <| audit := audit d ++ [(o_ID o, "SUBSCRIPTION_ASSIGNED")] |> in
  books_ok d' (log ++ [Assigned (o_ID o) (o_UserID o) g days b]) /\ (forall f, holds d f -> holds d' f) /\ holds d' (KAssigned (o_ID o)).
Proof.
  clear offset column EqualFold. intros ((Hn & Ho) & (Hk & Hc & Hnd) & (H1 & H2 & H3)) Hl Ht Hg Hd Hnone d'.
  assert (Ea : forall id, hasPaymentSubscriptionAssignmentAudit id d' = true <-> hasPaymentSubscriptionAssignmentAudit id d = true \/ id = o_ID o).
  { intros id. unfold hasPaymentSubscriptionAssignmentAudit, has_audit. rewrite !orb_true_iff, !bool_decide_eq_true. subst d'. cbn.
    rewrite !elem_of_app, !list_elem_of_singleton. split; [intros [[?|[= ->]]|[?|[=]]]; auto|intros [[?|?]| ->]; auto]. }
  split; [split; [|split]|split].
  - split; [done|]. intros id o1 Hl1. destruct (Ho id o1 Hl1) as (E1 & E2 & E3 & E4).
    repeat split; try done; [apply E3..|]. intros Hp. by apply settled_more, E4.
  - split; [done|]. rewrite omap_app, app_nil_r. split; [|done]. intros code ty v u.
    rewrite elem_of_app, list_elem_of_singleton, Hc. split; [intros [?|[=]]|]; auto.
  - unfold audit_ok. rewrite omap_app. cbn [omap list_omap assigned_order]. split; [|split].
    + intros id u g' days' b'. rewrite elem_of_app, list_elem_of_singleton. intros [He|[= -> -> -> -> ->]]; [by eapply H1|].
      exists o'. split; [done|]. injection Ht as _ -> _ _ _ -> ->. done.
    + intros id. rewrite Ea, H2, elem_of_app, list_elem_of_singleton. done.
    + apply NoDup_app. split; [done|]. split; [|apply NoDup_singleton]. intros id Hid ->%list_elem_of_singleton.
      apply H2 in Hid. by rewrite Hid in Hnone.
  - intros [o1|code ty v|code u|id]; try done. intros H. cbn. apply Ea. by left.
  - cbn. apply Ea. by right.
Qed.

(** Other events pay nobody out. *)
Definition pays_out (e : event) : bool := match e with Redeemed _ _ _ _ | Assigned _ _ _ _ _ => true | _ => false end.

Lemma other_books log d e : pays_out e = false -> books_ok d log -> books_ok d (log ++ [e]).
Proof.
  clear offset column EqualFold. intros He ((Hn & Ho) & (Hk & Hc & Hnd) & (H1 & H2 & H3)).
  assert (E1 : omap redeemed_code (log ++ [e]) = omap redeemed_code log) by (rewrite omap_app; destruct e; try done; apply app_nil_r).
  assert (E2 : omap assigned_order (log ++ [e]) = omap assigned_order log) by (rewrite omap_app; destruct e; try done; apply app_nil_r).
  split; [|split].
  - split; [done|]. intros id o Hl. destruct (Ho id o Hl) as (? & ? & Hw & Hs). split_and!; try done; [apply Hw..|].
    intros Hp. by apply settled_more, Hs.
  - split; [done|]. rewrite E1. split; [|done]. intros code ty v u. rewrite <- Hc, elem_of_app, list_elem_of_singleton.
    split; [intros [Hin|E]; [done|by rewrite <- E in He]|by left].
  - unfold audit_ok. rewrite E2. split; [|done]. intros id u g days b. rewrite elem_of_app, list_elem_of_singleton.
    intros [Hin|E]; [by eapply H1|by rewrite <- E in He].
Qed.

(** ** Any call *)

Definition keeps (d d' : payment_db) (log : list event) : Prop := books_ok d' log /\ forall f, holds d f -> holds d' f.

Lemma update_keeps log id guard f d :
  books_ok d log ->
  (forall o, orders d !! id = Some o -> guard o = true -> order_terms (f o) = order_terms o /\ (was_completed (f o) = true -> was_completed o = true \/ settled log o)) ->
  keeps d (update_order id guard f d).2 log.
Proof.
  intros Hb Hf. eapply orders_move_ok; [done|]. apply update_order_moves. exact Hf.
Qed.

(** An update that neither completes nor forgets a completion. *)
Lemma same_completion log o o' :
  paid_out o' = false \/ paid_out o' = paid_out o -> CompletedAt o' = CompletedAt o ->
  was_completed o' = true -> was_completed o = true \/ settled log o.
Proof.
  unfold was_completed. intros Hp -> H. left. apply orb_true_iff in H as [H|H]; [|by rewrite H, orb_true_r].
  destruct Hp as [Hp|Hp]; [congruence|]. by rewrite <- Hp, H.
Qed.

Lemma update_one_order id f d : (update_one id f d).2 = (update_order id (fun _ => true) f d).2.
Proof. unfold update_one. by destruct (update_order _ _ _ _). Qed.

Lemma exec_keeps log κ now {A} (c : pcall A) d r d' :
  0 <= now -> books_ok d log -> Forall (holds d) κ -> allowed A κ c -> exec_p now c d = Some (r, d') ->
  event_of now c d = None -> keeps d d' log.
Proof.
  clear EqualFold. intros Hnow Hb Hκ Hal He Hev.
  assert (Hsame : d' = d -> keeps d d' log) by (intros ->; by split).
  destruct c; cbn [exec_p] in He; try done; try (injection He as _ <-; by apply Hsame).
  - injection He as H. destruct (insert_order_ok log o candidate now d Hnow Hb) as [H1 H2]. rewrite H in H1, H2. by split.
  - unfold mark_paid in He. destruct (numeric_store _ _) as [amount|]; [|injection He as _ <-; by apply Hsame].
    match type of He with context [update_order ?i ?g ?f ?x] =>
      assert (Hk : keeps d (update_order i g f x).2 log); [|by destruct (update_order i g f x); injection He as _ <-] end.
    apply update_keeps; [done|]. intros o _ _. split; [done|]. by apply same_completion; [left|].
  - injection He as _ <-. apply update_keeps; [done|]. intros o _ _. split; [done|]. by apply same_completion; [left|].
  - injection He as _ <-. apply update_keeps; [done|]. intros o Hl _. split; [done|]. intros _. right.
    destruct Hal as (o0 & HK & Hid & Hearn). pose proof (earned_settles _ _ _ _ Hb Hκ HK Hearn) as Hs.
    rewrite Forall_forall in Hκ. destruct (Hκ _ HK) as (o1 & Hl1 & Ht). rewrite Hid in Hl1. assert (o1 = o) as -> by congruence.
    by eapply settled_terms.
  - injection He as _ <-. apply update_keeps; [done|]. intros o _ _. split; [done|]. by apply same_completion; [left|].
  - injection He as _ <-. apply update_keeps; [done|]. intros o _ _. split; [done|]. by destruct Hal as [-> | ->]; by apply same_completion; [left|].
  - injection He as _ <-. apply update_keeps; [done|]. intros o _ _. split; [done|]. by left.
  - injection He as H. assert (Hk : keeps d (save_provider_reply column id tradeNo providerKey now d).2 log); [|by rewrite H in Hk].
    unfold save_provider_reply. rewrite update_one_order. apply update_keeps; [done|]. intros o _ _. split; [done|]. by left.
  - unfold PaymentSystem.event_of in Hev. injection He as H. apply Hsame. destruct (orders d !! id) as [o|] eqn:Hl; [done|].
    unfold fail_order, update_one, update_order in H. rewrite Hl in H. by injection H as _ <-.
  - injection He as H. destruct Hal as [Ha1 Ha2]. pose proof (audit_row_moves log id action d Ha1) as Hm. rewrite H in Hm.
    eapply orders_move_ok; [done|]. apply Hm. intros Hact. rewrite Forall_forall in Hκ. by apply Hκ in Ha2.
  - injection He as H. destruct Hal as [Ha1 Ha2]. pose proof (create_code_moves c d Ha1) as Hm. rewrite H in Hm. by eapply codes_move_ok.
  - injection He as _ <-. eapply codes_move_ok; [done|]. by apply update_codes_moves.
  - injection He as H. cbn [event_of] in Hev. unfold PaymentSystem.event_of in Hev. destruct (redeem_tx_cases c uid now d) as [(e & E)|(r1 & row & d1 & E & _)].
    + rewrite E in H. injection H as _ <-. by apply Hsame.
    + by rewrite E in Hev.
  - injection He as H. unfold PaymentSystem.event_of in Hev. destruct (hasPaymentSubscriptionAssignmentAudit (o_ID o) d) eqn:Ha.
    + unfold assign_tx in H. rewrite Ha in H. injection H as _ <-. by apply Hsame.
    + destruct (assign_tx_cases o groupID days now d Ha) as [(e & E)|(s & E)].
      * rewrite E in H. injection H as _ <-. by apply Hsame.
      * by rewrite E in Hev.
Qed.

Lemma exec_event log κ now {A} (c : pcall A) d r d' e :
  books_ok d log -> Forall (holds d) κ -> allowed A κ c -> exec_p now c d = Some (r, d') -> event_of now c d = Some e ->
  keeps d d' (log ++ [e]).
Proof.
  clear EqualFold. intros Hb Hκ Hal He Hev. destruct c; try done; unfold PaymentSystem.event_of in Hev; injection He as H.
  - destruct (orders d !! id) as [o|] eqn:Hl; [|done]. injection Hev as <-.
    assert (Hk : keeps d (fail_order column id now d).2 log); [|rewrite H in Hk; destruct Hk; split; [by apply other_books|done]].
    unfold fail_order. rewrite update_one_order. apply update_keeps; [done|]. intros o1 _ _. split; [done|]. by apply same_completion; [left|].
  - destruct (redeem_tx_cases c uid now d) as [(er & E)|(r1 & row & d1 & E & Hrow & Hun & Hg)]; [by rewrite E in Hev|].
    rewrite E in H, Hev. injection Hev as <-. injection H as _ <-. apply redeem_gives_tables in Hg as (Eo & En & Ec & _ & Ea).
    rewrite Forall_forall in Hκ. apply Hκ in Hal. destruct Hal as (row' & Hrow' & Hty & Hv). assert (row' = row) as -> by congruence.
    destruct (redeem_books log d c row uid d1 Hb Hrow Hun Hty Hv Eo En Ea Ec) as (H1 & H2 & _). by split.
  - destruct (hasPaymentSubscriptionAssignmentAudit (o_ID o) d) eqn:Ha; [done|].
    destruct (assign_tx_cases o groupID days now d Ha) as [(er & E)|(s & E)]; rewrite E in Hev, H; [done|].
    injection Hev as <-. injection H as _ <-. destruct Hal as (HK & Hg & Hd). rewrite Forall_forall in Hκ.
    destruct (Hκ _ HK) as (o' & Hl & Ht).
    destruct (assign_books log d o o' s groupID days (recovered_from_note o groupID d) Hb Hl Ht Hg Hd Ha) as (H1 & H2 & _). by split.
Qed.

Lemma exec_learns log κ now {A} (c : pcall A) d r d' :
  books_ok d log -> Forall (holds d) κ -> Forall (holds d') κ -> allowed A κ c -> exec_p now c d = Some (r, d') ->
  possible A κ c r /\ Forall (holds d') (note A κ c r).
Proof.
  clear EqualFold. intros Hb Hκ Hκ' Hal He. destruct c; cbn [exec_p possible note] in *; try done; try (by split).
  - injection He as <- <-. unfold get_order. destruct (orders d !! id) as [o|] eqn:Hl; [|done]. destruct Hb as ((_ & Ho) & _).
    destruct (Ho id o Hl) as (Hid & _ & Hw & _). split; [|constructor; [|done]; exists o; by rewrite Hid].
    intros o' [= <-]. split; [done|]. split; [done|]. intros o' HK Hid'. rewrite Forall_forall in Hκ.
    destruct (Hκ _ HK) as (o2 & Hl2 & Ht). rewrite Hid' in Hl2. assert (o2 = o) as -> by congruence. done.
  - injection He as <- <-. unfold get_code. destruct (codes d !! code) as [c|] eqn:Hl; [|done]. destruct Hb as (_ & (Hk & _) & _).
    pose proof (Hk code c Hl) as Hcode. split; [by intros c' [= <-]|]. apply Forall_app. split; [|done].
    unfold code_facts. rewrite Hcode. constructor; [by exists c|]. destruct (UsedBy c) as [u|] eqn:Hu; [|done].
    destruct (c_Status c =s StatusUsed) eqn:Hs; [|done]. constructor; [|done]. exists c. by apply String.eqb_eq in Hs.
  - injection He as He. split; [done|]. destruct r as [u|e]; [|done]. constructor; [|done]. unfold create_code in He.
    destruct (codes d !! c_Code c); [done|]. injection He as _ <-. cbn. rewrite lookup_insert_eq. by eexists.
  - injection He as He. split; [done|]. destruct r as [u|e]; [|done]. constructor; [|done].
    destruct (redeem_tx_cases c uid now d) as [(er & E)|(r1 & row & d1 & E & Hrow & Hun & Hg)]; rewrite E in He; [done|].
    injection He as _ <-. apply redeem_gives_tables in Hg as (_ & _ & Ec & _). cbn. rewrite Ec. cbn. rewrite lookup_insert_eq. by eexists.
  - injection He as He. split; [done|]. destruct r as [u|e]; [|done]. constructor; [|done]. cbn.
    destruct (hasPaymentSubscriptionAssignmentAudit (o_ID o) d) eqn:Ha.
    + unfold assign_tx in He. rewrite Ha in He. by injection He as _ <-.
    + destruct (assign_tx_cases o groupID days now d Ha) as [(er & E)|(s & E)]; rewrite E in He; [done|]. injection He as _ <-.
      unfold hasPaymentSubscriptionAssignmentAudit, has_audit. cbn. apply orb_true_iff. left. apply bool_decide_eq_true. set_solver.
Qed.

(** An answer that is not from the database teaches nothing. *)
Lemma outside_learns κ {A} (c : pcall A) r :
  (exists d now, exec_p now c d = None) \/ (exists m, failed_p (DriverError m) c = Some r) -> possible A κ c r /\ note A κ c r = κ.
Proof.
  intros [(d & now & H)|(m & H)]; destruct c; try done; cbn in H; by injection H as <-.
Qed.

Lemma call_ok log κ now {A} (c : pcall A) d e r d' :
  0 <= now -> books_ok d log -> Forall (holds d) κ -> allowed A κ c -> p_sem now c d e r d' ->
  keeps d d' (log ++ option_list e) /\ possible A κ c r /\ Forall (holds d') (note A κ c r).
Proof.
  clear EqualFold. intros Hnow Hb Hκ Hal Hsem.
  assert (G : forall r0 d0, exec_p now c d = Some (r0, d0) -> keeps d d0 (log ++ option_list (event_of now c d))).
  { intros r0 d0 He. destruct (event_of now c d) as [ev|] eqn:Hev; cbn [option_list].
    - by eapply exec_event.
    - rewrite app_nil_r. by eapply exec_keeps. }
  assert (K : forall d0, (forall f, holds d f -> holds d0 f) -> Forall (holds d0) κ) by (intros d0 H; eapply Forall_impl; [exact Hκ|done]).
  destruct Hsem as [r d' He|m r0 r d' He Hf|m r Hf|r He].
  - pose proof (G r d' He) as HG. split; [done|]. eapply exec_learns; [done..| |done|done]. by apply K, HG.
  - pose proof (G r0 d' He) as HG. split; [done|]. destruct (outside_learns κ c r) as [H1 ->]; [right; by exists m|].
    split; [done|]. by apply K, HG.
  - cbn. rewrite app_nil_r. split; [by split|]. destruct (outside_learns κ c r) as [H1 ->]; [right; by exists m|]. by split.
  - cbn. rewrite app_nil_r. split; [by split|]. destruct (outside_learns κ c r) as [H1 ->]; [left; by exists d, now|]. by split.
Qed.

(** ** The system *)

Notation quiet := (always allowed possible note (fun _ _ => True)).

Definition informed (d : payment_db) (p : pprog unit) : Prop := exists κ, Forall (holds d) κ /\ quiet κ p.

Definition system_ok (st : system) : Prop :=
  0 <= sys_now st /\ books_ok (sys_db st) (sys_log st) /\ Forall (informed (sys_db st)) (sys_programs st).

Lemma informed_more d d' p : (forall f, holds d f -> holds d' f) -> informed d p -> informed d' p.
Proof. intros H (κ & Hκ & Hp). exists κ. split; [|done]. eapply Forall_impl; [exact Hκ|done]. Qed.

Lemma system_ok_step st st' : system_ok st -> pay_step st st' -> system_ok st'.
Proof.
  intros (Hnow & Hb & Hps) Hst. destruct Hst as [d t ps log p Hh|d t ps1 ps2 log A c k e r d' Hsem|d t t' ps log Ht|d t ps1 ps2 log p|d d' t ps log Hoth|d d' t ps log uid amount Hcr];
    cbn [sys_now sys_db sys_log sys_programs] in *; unfold system_ok; cbn [sys_now sys_db sys_log sys_programs].
  - split; [done|]. split; [done|]. constructor; [|done]. exists []. split; [done|]. by eapply handler_quiet.
  - apply Forall_app in Hps as [H1 H2]. apply Forall_cons in H2 as [(κ & Hκ & Hal & Hk) H2].
    destruct (call_ok log κ t c d e r d' Hnow Hb Hκ Hal Hsem) as ([Hb' Hkeep] & Hposs & Hnote).
    split; [done|]. split; [done|]. apply Forall_app. split; [|constructor].
    + eapply Forall_impl; [exact H1|]. intros p. by apply informed_more.
    + exists (note A κ c r). split; [done|]. by apply Hk.
    + eapply Forall_impl; [exact H2|]. intros p. by apply informed_more.
  - split; [lia|done].
  - split; [done|]. split; [done|]. apply Forall_app in Hps as [H1 H2]. apply Forall_cons in H2 as [_ H2]. by apply Forall_app.
  - destruct Hoth as (Ho & En & Ec & _ & Ea & _). destruct (orders_move_ok log d d' Hb) as [Hb' Hkeep].
    { split; [by split|]. intros id. specialize (Ho id). inversion Ho as [o o' (Ht & Hco & Hs) E1 E2|E1 E2]; constructor. split; [done|].
      unfold was_completed. rewrite Hco. destruct Hs as [Hs|[-> _]]; [left; by unfold paid_out in *; rewrite <- Hs|left; apply orb_true_r]. }
    split; [done|]. split; [done|]. eapply Forall_impl; [exact Hps|]. intros p. by apply informed_more.
  - apply credit_tables in Hcr as (Eo & En & Ec & _ & Ea). destruct (orders_move_ok log d d' Hb) as [Hb' Hkeep].
    { split; [split; [done|]; split; [done|]; intros id; by apply audit_same|]. intros id. rewrite Eo. destruct (orders d !! id); constructor. auto. }
    split; [done|]. split; [by apply other_books|]. eapply Forall_impl; [exact Hps|]. intros p. by apply informed_more.
Qed.

Lemma fresh_ok d t : fresh d -> 0 <= t -> system_ok (System d t [] []).
Proof.
  intros (Ho & Hn & Hc & Ha) Ht. split; [done|]. split; [|done]. cbn. split; [|split].
  - split; [done|]. intros id o. by rewrite Ho, lookup_empty.
  - split; [|split; [|constructor]].
    + intros code c. by rewrite Hc, lookup_empty.
    + intros code ty v u. unfold used_by. rewrite Hc. split; [by intros ?%elem_of_nil|]. intros (c & Hl & _). by rewrite lookup_empty in Hl.
  - split; [|split; [|constructor]].
    + by intros id u g days b ?%elem_of_nil.
    + intros id. unfold hasPaymentSubscriptionAssignmentAudit, has_audit. rewrite Ha. split; [done|by intros ?%elem_of_nil].
Qed.

Lemma reached_ok d0 t0 st : fresh d0 -> 0 <= t0 -> reaches offset column numeric EqualFold d0 t0 st -> system_ok st.
Proof.
  intros Hf Ht Hr. pose proof (fresh_ok d0 t0 Hf Ht) as Hok. unfold reaches in Hr. revert Hok.
  induction Hr as [st|st1 st2 st3 Hstep _ IH]; [done|]. intros Hok. eapply IH, system_ok_step; done.
Qed.

(** C2: whatever notifications, retries, cancellations, redemptions and
    administrators' requests run at once, with calls that fail and programs
    that stop anywhere: no code is redeemed twice, no order's subscription is
    assigned twice, no two orders share a code, and an order that is completed
    has been paid out: its code was redeemed for its user at its amount, or its
    subscription was assigned. *)
Theorem paid_out_once d0 t0 st :
  fresh d0 -> 0 <= t0 -> reaches offset column numeric EqualFold d0 t0 st ->
  NoDup (omap redeemed_code (sys_log st)) /\ NoDup (omap assigned_order (sys_log st)) /\
  (forall i j oi oj, orders (sys_db st) !! i = Some oi -> orders (sys_db st) !! j = Some oj -> RechargeCode oi = RechargeCode oj -> i = j) /\
  forall id o, orders (sys_db st) !! id = Some o -> paid_out o = true -> settled (sys_log st) o.
Proof.
  intros Hf Ht Hr. destruct (reached_ok d0 t0 st Hf Ht Hr) as (_ & ((_ & Ho) & (_ & _ & H1) & (_ & _ & H2)) & _).
  split; [done|]. split; [done|]. split.
  - intros i j oi oj Hi Hj E. destruct (Ho i oi Hi) as (<- & _ & (Hpi & ti & _ & Ei) & _).
    destruct (Ho j oj Hj) as (<- & _ & (Hpj & tj & _ & Ej) & _). rewrite Ei, Ej in E. by eapply recharge_code_id.
  - intros id o Hl Hp. apply (Ho id o Hl). unfold was_completed. by rewrite Hp.
Qed.
End once.
End PaymentOnce.
