(* ===== verification/PaymentLedger.v ===== *)
(** * What users have recharged

    A user's total of recharges is what their redeemed balance codes are worth
    and what else was credited to them, to the last digit. *)

From Stdlib Require Import QArith SpecFloat.
From S2P Require Import Prelude Programs GoStrings GoFloat AppErrors Subscriptions SubscriptionService PaymentOrders RedeemService PaymentService PaymentSystem PaymentSafety PaymentOnce.

Module PaymentLedger.
Export PaymentOnce.
Import Subscriptions SubscriptionService PaymentOrders.
#[local] Open Scope Z_scope.

Section ledger.
#[local] Set Default Proof Using "Type".
Context (offset : Time -> Duration) (column : Time -> Time) (numeric : float64 -> Q) (EqualFold : string -> string -> bool).
Notation event_of := (event_of offset column numeric).
Notation exec_p := (exec_p offset column numeric).
Notation p_sem := (p_sem offset column numeric).
Notation pay_step := (pay_step offset column numeric EqualFold).

(** A credited amount in units of 10^-8. *)
Definition units (amount : float64) : Z := default 0 (numeric_store 8 (numeric amount)).

(** What an event adds to the recharges of [u], in units of 10^-8: negative
    values and amounts take from the balance only. *)
Definition recharge (u : Z) (e : event) : Z :=
  match e with
  | Redeemed _ ty v uid => if (uid =? u) && (ty =s RedeemTypeBalance) && (f64_zero <? numeric_scan 8 v)%f64 then v else 0
  | Credited uid amount => if (uid =? u) && (f64_zero <? amount)%f64 then units amount else 0
  | Assigned _ _ _ _ _ | SetupFailed _ => 0
  end.

Definition recharges (u : Z) (log : list event) : Z := foldr (fun e t => recharge u e + t) 0 log.

Lemma recharges_app u l1 l2 : recharges u (l1 ++ l2) = recharges u l1 + recharges u l2.
Proof. induction l1 as [|e l1 IH]; [done|]. cbn [recharges foldr app]. fold (recharges u (l1 ++ l2)) (recharges u l1). lia. Qed.

(** The shortest decimal of the [float64] nearest to a column's value, and of
    an amount with at most eight decimals. *)
Definition value_reads_back (e : event) : Prop :=
  match e with
  | Redeemed _ _ v _ => (numeric (numeric_scan 8 v) == v # (10 ^ 8))%Q
  | Credited _ amount => (numeric amount == units amount # (10 ^ 8))%Q
  | Assigned _ _ _ _ _ | SetupFailed _ => True
  end.

Definition recharged_by (d : payment_db) (u : Z) (t : Z) : Prop := exists p, payers d !! u = Some p /\ total_recharged p = t.

Lemma not_both x : (x <? f64_zero)%f64 = true -> (f64_zero <? x)%f64 = false.
Proof. by destruct x as [[]|[]| |[] m e]. Qed.

Lemma set_payer_recharged u uid p p' d t :
  payers d !! uid = Some p -> total_recharged p' = total_recharged p -> recharged_by d u t -> recharged_by (set_payer uid p' d) u t.
Proof.
  intros Hp Hp' (q & Hq & <-). unfold recharged_by, set_payer. cbn. destruct (Z.eqb_spec uid u) as [->|Hne].
  - rewrite lookup_insert_eq. exists p'. split; [done|]. assert (q = p) as -> by congruence. done.
  - rewrite lookup_insert_ne by done. by exists q.
Qed.

Lemma UpdateBalance_recharges uid x v r d d' u t :
  UpdateBalance numeric uid x d = (Ok r, d') -> (numeric x == v # (10 ^ 8))%Q -> recharged_by d u t ->
  recharged_by d' u (t + if (uid =? u) && (f64_zero <? x)%f64 then v else 0).
Proof.
  intros Hg Hv Ht. unfold UpdateBalance in Hg. destruct (payers d !! uid) as [p|] eqn:Hp; [|done].
  destruct (numeric_store 8 (_ + numeric _)%Q) as [b|]; [|done].
  destruct (numeric_store 8 (numeric_value 8 (total_recharged p) + _)%Q) as [t'|] eqn:Ht'; [|done]. injection Hg as _ <-.
  destruct (f64_zero <? x)%f64 eqn:Hpos; rewrite ?andb_true_r, ?andb_false_r.
  - destruct Ht as (q & Hq & <-). unfold recharged_by, set_payer. cbn. destruct (Z.eqb_spec uid u) as [->|Hne].
    + rewrite lookup_insert_eq. eexists. split; [done|]. cbn. assert (q = p) as -> by congruence.
      apply (stored_exact 8 _ _ Ht'). rewrite Hv. unfold numeric_value, Qeq, Qplus. cbn [Qnum Qden]. lia.
    + rewrite lookup_insert_ne by done. exists q. split; [done|]. lia.
  - rewrite Z.add_0_r. eapply set_payer_recharged; [done| |done]. cbn. apply (stored_exact 8 _ _ Ht').
    unfold numeric_value, Qeq, Qplus. cbn. lia.
Qed.

Lemma redeem_gives_recharges c uid now d r d' u t :
  redeem_gives offset column numeric c uid now d = (Ok r, d') -> value_reads_back (Redeemed (c_Code c) (c_Type c) (c_Value c) uid) ->
  recharged_by d u t -> recharged_by d' u (t + recharge u (Redeemed (c_Code c) (c_Type c) (c_Value c) uid)).
Proof.
  intros Hg Hv Ht. cbn [recharge value_reads_back] in *. unfold redeem_gives in Hg.
  assert (U : forall s x, wrap_error s x = (Ok r, d') -> x = (Ok r, d')) by (by intros s [[|] ?]).
  assert (Hsame : forall p' p, payers d !! uid = Some p -> total_recharged p' = total_recharged p -> recharged_by (set_payer uid p' d) u t).
  { intros p' p Hp E. by eapply set_payer_recharged. }
  destruct (c_Type c =s RedeemTypeBalance) eqn:Hty; [|rewrite andb_false_r; cbn; rewrite Z.add_0_r].
  - rewrite andb_true_r. unfold value_of in Hg. destruct (numeric_scan 8 (c_Value c) <? f64_zero)%f64 eqn:Hneg; apply U in Hg.
    + rewrite (not_both _ Hneg), andb_false_r, Z.add_0_r. unfold ApplyRedeemBalanceAdjustment in Hg.
      destruct (payers d !! uid) as [p|] eqn:Hp; [|done]. destruct (p_deleted p); [done|]. destruct (numeric_store _ _); [|done].
      injection Hg as _ <-. by eapply Hsame.
    + by eapply UpdateBalance_recharges.
  - destruct (c_Type c =s RedeemTypeConcurrency).
    + apply U in Hg. unfold change_concurrency in Hg. destruct (payers d !! uid) as [p|] eqn:Hp; [|done].
      destruct (_ <? 0); [destruct (p_deleted p); [done|]|]; injection Hg as _ <-; by eapply Hsame.
    + destruct (negb _); [done|]. destruct (c_GroupID c) as [g|]; [|done]. unfold on_subs in Hg. destruct (_ <? 0).
      * destruct (reduceOrCancelSubscription _ _ _ _ _ _ _ _) as [[|] s]; [|done]. by injection Hg as _ <-.
      * destruct (run_alone _ _ _ _ _ _) as [[|] s]; [|done]. by injection Hg as _ <-.
Qed.

Lemma fail_order_payers id now d : payers (fail_order column id now d).2 = payers d.
Proof. unfold fail_order. rewrite update_one_order. unfold update_order. by destruct (orders d !! id). Qed.

(** Only redemptions touch users. *)
Lemma exec_payers now {A} (c : pcall A) d r d' : exec_p now c d = Some (r, d') -> event_of now c d = None -> payers d' = payers d.
Proof.
  assert (U : forall i g f, payers (update_order i g f d).2 = payers d).
  { intros i g f. unfold update_order. destruct (orders d !! i) as [o|]; [|done]. by destruct (g o). }
  intros He Hev. destruct c; cbn [exec_p] in He; try done; try (by injection He as _ <-); try (injection He as _ <-; apply U).
  - injection He as H. unfold insert_order in H. destruct (_ && _); by injection H as _ <-.
  - unfold mark_paid in He. destruct (numeric_store _ _); [|by injection He as _ <-].
    match type of He with context [update_order ?i ?g ?f ?x] => pose proof (U i g f) as Hu; destruct (update_order i g f x) end.
    by injection He as _ <-.
  - injection He as H. assert (E : payers (save_provider_reply column id tradeNo providerKey now d).2 = payers d); [|by rewrite H in E].
    unfold save_provider_reply. rewrite update_one_order. apply U.
  - injection He as H. pose proof (fail_order_payers id now d) as E. by rewrite H in E.
  - injection He as H. unfold write_audit in H. destruct (has_audit _ _ _); by injection H as _ <-.
  - injection He as H. unfold create_code in H. destruct (codes d !! _); by injection H as _ <-.
  - injection He as H. unfold update_code in H. repeat case_match; by injection H as _ <-.
  - injection He as _ <-. unfold delete_code. by case_match.
  - injection He as H. unfold PaymentSystem.event_of in Hev. destruct (redeem_tx_cases offset column numeric c uid now d) as [(e & E)|(r1 & row & d1 & E & _)].
    + rewrite E in H. by injection H as _ <-.
    + by rewrite E in Hev.
  - injection He as H. unfold assign_tx in H. destruct (hasPaymentSubscriptionAssignmentAudit _ _); [by injection H as _ <-|].
    destruct (recovered_from_note _ _ _); [by injection H as _ <-|]. unfold on_subs in H.
    destruct (run_alone _ _ _ _ _ _) as [[|] s]; by injection H as _ <-.
Qed.

Lemma call_recharges now {A} (c : pcall A) d e r d' u t :
  p_sem now c d e r d' -> Forall value_reads_back (option_list e) -> recharged_by d u t ->
  recharged_by d' u (t + recharges u (option_list e)).
Proof.
  intros Hsem Hv Ht.
  assert (G : forall r0 d0, exec_p now c d = Some (r0, d0) -> Forall value_reads_back (option_list (event_of now c d)) ->
    recharged_by d0 u (t + recharges u (option_list (event_of now c d)))).
  { clear Hsem Hv d' r. intros r d' He Hv. destruct (event_of now c d) as [ev|] eqn:Hev.
    - change (recharges u (option_list (Some ev))) with (recharge u ev + 0). rewrite Z.add_0_r. apply Forall_cons in Hv as [Hv _].
      destruct c; try done; unfold PaymentSystem.event_of in Hev; injection He as H.
      + destruct (orders d !! id); [|done]. injection Hev as <-. cbn. rewrite Z.add_0_r.
        pose proof (fail_order_payers id now d) as E. rewrite H in E. cbn in E. unfold recharged_by. by rewrite E.
      + destruct (redeem_tx_cases offset column numeric c uid now d) as [(er & E)|(r1 & row & d1 & E & Hrow & Hun & Hg)]; rewrite E in Hev, H; [done|].
        injection Hev as <-. injection H as _ <-. eapply redeem_gives_recharges; [exact Hg|done|]. exact Ht.
      + destruct (hasPaymentSubscriptionAssignmentAudit (o_ID o) d) eqn:Ha; [done|].
        destruct (assign_tx_cases offset column numeric o groupID days now d Ha) as [(er & E)|(s & E)]; rewrite E in Hev, H; [done|].
        injection Hev as <-. injection H as _ <-. cbn. by rewrite Z.add_0_r.
    - change (recharges u (option_list None)) with 0. rewrite Z.add_0_r. unfold recharged_by. by rewrite (exec_payers now c d r d'). }
  destruct Hsem as [r d' He|m r0 r d' He _|m r _|r _]; [by eapply G|by eapply G| |]; change (recharges u (option_list None)) with 0; by rewrite Z.add_0_r.
Qed.

Lemma step_recharges st st' u t0 :
  pay_step st st' -> Forall value_reads_back (sys_log st') -> recharged_by (sys_db st) u (t0 + recharges u (sys_log st)) ->
  recharged_by (sys_db st') u (t0 + recharges u (sys_log st')).
Proof.
  intros Hst Hv Ht. destruct Hst as [d t ps log p Hh|d t ps1 ps2 log A c k e r d' Hsem|d t t' ps log Hle|d t ps1 ps2 log p|d d' t ps log Hoth|d d' t ps log uid amount Hcr];
    cbn [sys_db sys_log] in *; try done.
  - apply Forall_app in Hv as [_ Hv]. rewrite recharges_app, Z.add_assoc. by eapply call_recharges.
  - destruct Ht as (p & Hp & <-). destruct Hoth as (_ & _ & _ & _ & _ & Hu). destruct (Hu u p Hp) as (p' & Hp' & E). by exists p'.
  - apply Forall_app in Hv as [_ Hv]. apply Forall_cons in Hv as [Hv _]. rewrite recharges_app, Z.add_assoc.
    cbn [recharges foldr recharge]. rewrite Z.add_0_r. by eapply UpdateBalance_recharges.
Qed.

Lemma step_log st st' : pay_step st st' -> exists l, sys_log st' = sys_log st ++ l.
Proof. destruct 1; cbn; try (exists []; by rewrite app_nil_r). all: by eexists. Qed.

Lemma steps_log st st' : rtc pay_step st st' -> exists l, sys_log st' = sys_log st ++ l.
Proof.
  induction 1 as [st|st1 st2 st3 Hs _ [l IH]]; [exists []; by rewrite app_nil_r|]. apply step_log in Hs as [l1 E].
  exists (l1 ++ l). by rewrite IH, E, app_assoc.
Qed.

(** C7: what a user has recharged is what they had, the value of each balance
    code that was redeemed for them, and each positive amount that another
    service credited to them: payments, retries and lost answers neither credit
    an amount twice nor lose one.  (Of codes whose value the shortest decimal of
    its [float64] gives back, and amounts with at most eight decimals.) *)
Theorem recharges_reconcile d0 t0 st u p :
  reaches offset column numeric EqualFold d0 t0 st -> Forall value_reads_back (sys_log st) -> payers d0 !! u = Some p ->
  exists p', payers (sys_db st) !! u = Some p' /\ total_recharged p' = total_recharged p + recharges u (sys_log st).
Proof.
  intros Hr Hv Hp. assert (H0 : recharged_by d0 u (total_recharged p + recharges u [])) by (exists p; split; [done|cbn; lia]).
  unfold reaches in Hr. remember (System d0 t0 [] []) as st0 eqn:E0.
  assert (H : recharged_by (sys_db st0) u (total_recharged p + recharges u (sys_log st0))) by (by rewrite E0).
  clear E0 H0 Hp. revert Hv H. induction Hr as [st|st1 st2 st3 Hs Hr IH]; intros Hv H; [done|].
  apply IH; [done|]. eapply step_recharges; [done| |done]. destruct (steps_log _ _ Hr) as [l El]. rewrite El in Hv.
  by apply Forall_app in Hv as [Hv _].
Qed.
End ledger.
End PaymentLedger.
