(* ===== verification/PaymentScenarios.v ===== *)
(** * Payments: runs

    Concrete runs: a payment that is notified, fulfilled and credited, and what
    goes wrong when a trade number or a failure of the set-up arrives late, or an
    administrator removes or revives a used code. *)

From Stdlib Require Import QArith SpecFloat.
From S2P Require Import Prelude Programs GoStrings GoFloat AppErrors Subscriptions SubscriptionService PaymentOrders RedeemService PaymentService PaymentSystem PaymentSafety PaymentOnce PaymentLedger.

Module PaymentScenarios.
Export PaymentLedger.
Import Subscriptions PaymentOrders.
#[local] Open Scope Z_scope.

(** Ten dollars of user 7, whose code is worth as much. *)
Definition demo_db : payment_db :=
  PaymentDB ∅ 1 ∅ 1 {[7 := Payer 0 0 5 false]} [] (SubDB ∅ ∅ 1).
Definition demo_order : payment_order :=
  Order 0 7 "" OrderTypeBalance 1000 1000 "" "" 0 (3600 * Second) None "" "alipay" None None 0 None None None.
Definition demo_notification : PaymentNotification := Notification "T1" "sub2_x" (numeric_scan 2 1000) NotificationStatusSuccess ∅.

Definition no_offset (t : Time) : Duration := 0.
Definition whole (t : Time) : Time := t.
Notation demo_play := (play no_offset whole f64_value usual).
Notation demo_step := (pay_step no_offset whole f64_value String.eqb).

Definition created := demo_play 1000 10 (done (CreateOrder demo_order "sub2_x")) demo_db [].
Definition notified :=
  demo_play 2000 100 (done (HandlePaymentNotification f64_value String.eqb demo_notification "alipay")) created.1.2 created.2.

(** A program goes on, or starts, at a later moment. *)
Lemma resume_play outside t t' n p q ps1 ps2 d log d' log' :
  t <= t' -> play no_offset whole f64_value outside t' n p d log = (q, d', log') ->
  rtc demo_step (System d t (ps1 ++ p :: ps2) log) (System d' t' (ps1 ++ q :: ps2) log').
Proof.
  intros Ht Hp. eapply rtc_l; [by apply (step_clock _ _ _ _ d t t')|]. by apply (play_steps _ _ _ _ outside t' n p d log q d' log').
Qed.

Lemma parts {A B C} (x : A * B * C) : x = (x.1.1, x.1.2, x.2).
Proof. by destruct x as [[? ?] ?]. Qed.

Lemma later_play outside t t' n p q ps d log d' log' :
  t <= t' -> handler f64_value String.eqb p -> play no_offset whole f64_value outside t' n p d log = (q, d', log') ->
  rtc demo_step (System d t ps log) (System d' t' (q :: ps) log').
Proof.
  intros Ht Hh Hp. eapply rtc_l; [by apply step_start|]. by apply (resume_play outside t t' n p q [] ps).
Qed.

Lemma demo_reached : reaches no_offset whole f64_value String.eqb demo_db 0 (System notified.1.2 2000 [Ret tt; Ret tt] notified.2).
Proof.
  unfold reaches. etrans; [eapply (later_play usual 0 1000 10 (done (CreateOrder demo_order "sub2_x"))); [lia|constructor|vm_compute; reflexivity]|].
  eapply (later_play usual 1000 2000 100 (done (HandlePaymentNotification f64_value String.eqb demo_notification "alipay"))); [lia|constructor|].
  vm_compute. reflexivity.
Qed.

Lemma demo_fresh : fresh demo_db.
Proof. by repeat split. Qed.

Lemma paid_out_once_witness :
  exists o, orders notified.1.2 !! 1 = Some o /\ paid_out o = true /\ settled f64_value notified.2 o.
Proof.
  assert (Hp : match orders notified.1.2 !! 1 with Some o => paid_out o | None => false end = true) by (vm_compute; reflexivity).
  generalize (paid_out_once no_offset whole f64_value String.eqb demo_db 0 _ demo_fresh (Z.le_refl 0) demo_reached).
  revert Hp. cbn [sys_db sys_log]. generalize notified. intros run Hp (_ & _ & _ & H).
  destruct (orders run.1.2 !! 1) as [o|] eqn:Ho; [|discriminate Hp]. exists o. split; [reflexivity|]. split; [exact Hp|]. exact (H 1 o Ho Hp).
Defined.

(** Then a promo code gives the user five dollars. *)
Definition promo : float64 := numeric_scan 8 (5 * 10 ^ 8).
Definition given : payment_db := (UpdateBalance f64_value 7 promo notified.1.2).2.

Lemma promo_reached :
  reaches no_offset whole f64_value String.eqb demo_db 0 (System given 2000 [Ret tt; Ret tt] (notified.2 ++ [Credited 7 promo])).
Proof. eapply rtc_r; [apply demo_reached|]. apply step_credit. vm_compute. reflexivity. Qed.

Lemma recharges_reconcile_witness :
  exists p, payers given !! 7 = Some p /\ total_recharged p = 0 + recharges f64_value 7 (notified.2 ++ [Credited 7 promo]) /\
    total_recharged p = 15 * 10 ^ 8.
Proof.
  assert (E : notified.2 ++ [Credited 7 promo] = [Redeemed "PAY-1-1000" RedeemTypeBalance (10 ^ 9) 7; Credited 7 promo])
    by (vm_compute; reflexivity).
  generalize (recharges_reconcile no_offset whole f64_value String.eqb demo_db 0 _ 7 (Payer 0 0 5 false) promo_reached).
  cbn [sys_db sys_log total_recharged]. rewrite E. generalize given. intros d H. destruct H as (p & H1 & H2).
  - repeat constructor; vm_compute; reflexivity.
  - reflexivity.
  - exists p. split; [exact H1|]. split; [exact H2|]. rewrite H2. vm_compute. reflexivity.
Defined.

(** ** A trade number that arrives late

    The user's browser asks for the order while it is pending, and the provider
    says paid; then the notification is fulfilled; then the trade number of the
    first answer is stored.  That changes the version of the row, so that the
    fulfilment has lost its lease: the user is credited, every program has
    ended, and the order stays in recharging. *)
Definition paying (A : Type) (c : pcall A) : option A :=
  match c in pcall A return option A with
  | PProvider _ => Some (Some "alipay")
  | PQueryProvider _ => Some (Some (QueryResponse true "T1" (numeric_scan 2 1000) ∅))
  | c => usual _ c
  end.
Notation paying_play := (play no_offset whole f64_value paying).

Definition asked := paying_play 1500 3 (done (VerifyOrderByOutTradeNo f64_value String.eqb "sub2_x" 7)) created.1.2 created.2.
(** Up to [markCompleted]. *)
Definition credited :=
  demo_play 2000 25 (done (HandlePaymentNotification f64_value String.eqb demo_notification "alipay")) asked.1.2 asked.2.
Definition stored := paying_play 3000 100 asked.1.1 credited.1.2 credited.2.
Definition refused := demo_play 4000 100 credited.1.1 stored.1.2 stored.2.

Definition status_of (d : payment_db) (id : Z) : option string := option_map o_Status (orders d !! id).

Strategy expand [created asked credited stored refused].

Notation demo_state run t ps := (System run.1.2 t ps run.2).

Lemma run_created : rtc demo_step (System demo_db 0 [] []) (demo_state created 1000 [created.1.1]).
Proof. exact (later_play usual 0 1000 10 _ _ _ _ _ _ _ (ltac:(lia)) (h_create _ _ demo_order "sub2_x") (parts created)). Qed.
Lemma run_asked : rtc demo_step (demo_state created 1000 [created.1.1]) (demo_state asked 1500 [asked.1.1; created.1.1]).
Proof. exact (later_play paying 1000 1500 3 _ _ _ _ _ _ _ (ltac:(lia)) (h_verify _ _ "sub2_x" 7) (parts asked)). Qed.
Lemma run_credited : rtc demo_step (demo_state asked 1500 [asked.1.1; created.1.1]) (demo_state credited 2000 [credited.1.1; asked.1.1; created.1.1]).
Proof. exact (later_play usual 1500 2000 25 _ _ _ _ _ _ _ (ltac:(lia)) (h_notification _ _ demo_notification "alipay") (parts credited)). Qed.
Lemma run_stored :
  rtc demo_step (demo_state credited 2000 [credited.1.1; asked.1.1; created.1.1]) (demo_state stored 3000 [credited.1.1; stored.1.1; created.1.1]).
Proof. exact (resume_play paying 2000 3000 100 _ _ [credited.1.1] [created.1.1] _ _ _ _ (ltac:(lia)) (parts stored)). Qed.
Lemma run_refused :
  rtc demo_step (demo_state stored 3000 [credited.1.1; stored.1.1; created.1.1]) (demo_state refused 4000 [refused.1.1; stored.1.1; created.1.1]).
Proof. exact (resume_play usual 3000 4000 100 _ _ [] [stored.1.1; created.1.1] _ _ _ _ (ltac:(lia)) (parts refused)). Qed.

Theorem late_trade_number_breaks_lease :
  exists st, reaches no_offset whole f64_value String.eqb demo_db 0 st /\
    Forall (fun p => p = Ret tt) (sys_programs st) /\
    sys_log st = [Redeemed "PAY-1-1000" RedeemTypeBalance (10 ^ 9) 7] /\ status_of (sys_db st) 1 = Some OrderStatusRecharging.
Proof.
  exists (demo_state refused 4000 [refused.1.1; stored.1.1; created.1.1]). split; [|split; [|by split; vm_compute]].
  - unfold reaches. etrans; [apply run_created|]. etrans; [apply run_asked|]. etrans; [apply run_credited|]. etrans; [apply run_stored|apply run_refused].
  - assert (E : refused.1.1 = Ret tt /\ stored.1.1 = Ret tt /\ created.1.1 = Ret tt) by (vm_compute; by repeat split).
    cbn [sys_programs]. destruct E as (-> & -> & ->). by repeat constructor.
Qed.

(** ** A payment whose set-up fails late

    The request to the provider times out, but the provider has the payment: the
    order is paid and completed before [CreateOrder] marks it failed, by its id
    alone.  A retry then fulfils it again; its code keeps it from a second
    credit. *)
Definition unanswered (A : Type) (c : pcall A) : option A :=
  match c in pcall A return option A with
  | PCreatePayment _ => Some (Err (PlainError "timeout"))
  | c => usual _ c
  end.

Definition waiting := demo_play 1000 1 (done (CreateOrder demo_order "sub2_x")) demo_db [].
Definition paid := demo_play 2000 100 (done (HandlePaymentNotification f64_value String.eqb demo_notification "alipay")) waiting.1.2 waiting.2.
Definition set_failed := play no_offset whole f64_value unanswered 3000 100 waiting.1.1 paid.1.2 paid.2.
Definition fulfilled_again := demo_play 4000 100 (done (RetryFulfillment f64_value 1)) set_failed.1.2 set_failed.2.

Theorem late_failure_reopens :
  status_of paid.1.2 1 = Some OrderStatusCompleted /\ status_of set_failed.1.2 1 = Some OrderStatusFailed /\
  status_of fulfilled_again.1.2 1 = Some OrderStatusCompleted /\
  fulfilled_again.2 = [Redeemed "PAY-1-1000" RedeemTypeBalance (10 ^ 9) 7; SetupFailed 1].
Proof. by vm_compute. Qed.

(** ** Codes that come back

    [DeleteRedeemCode] removes used codes too: a paid order whose fulfilment
    was cut short before [markCompleted] is credited again by a retry. *)
Definition deleted := demo_play 3000 10 (done (DeleteRedeemCode 1)) credited.1.2 credited.2.
Definition retried := demo_play (10 * Minute) 100 (done (RetryFulfillment f64_value 1)) deleted.1.2 deleted.2.

Theorem deleted_code_pays_twice :
  status_of retried.1.2 1 = Some OrderStatusCompleted /\
  retried.2 = [Redeemed "PAY-1-1000" RedeemTypeBalance (10 ^ 9) 7; Redeemed "PAY-1-1000" RedeemTypeBalance (10 ^ 9) 7].
Proof. by vm_compute. Qed.

(** A used code that is expired is not used any more, so [BatchUpdate] makes it
    unused, and another user redeems it. *)
Definition unused_again : RedeemCodeBatchUpdateFields := BatchFields (Some StatusUnused) None None None None None.
Definition with_other_user (d : payment_db) : payment_db := d <| payers := <[8 := Payer 0 0 5 false]> (payers d) |>.
Definition expired := demo_play 3000 10 (done (ExpireRedeemCode 1)) (with_other_user notified.1.2) notified.2.
Definition revived := demo_play 4000 10 (done (BatchUpdate [1] unused_again)) expired.1.2 expired.2.
Definition redeemed_again := demo_play 5000 100 (done (Redeem 8 "PAY-1-1000")) revived.1.2 revived.2.

Theorem revived_code_pays_twice :
  redeemed_again.2 = [Redeemed "PAY-1-1000" RedeemTypeBalance (10 ^ 9) 7; Redeemed "PAY-1-1000" RedeemTypeBalance (10 ^ 9) 8].
Proof. by vm_compute. Qed.

(** [batchUpdate] reads the codes and then updates them: a code that is
    redeemed in between is unused again. *)
Definition gift : RedeemCode := MkCode 0 "GIFT" RedeemTypeBalance (10 ^ 9) StatusUnused None None None 0 "".
Definition gift_made := demo_play 1000 10 (done (CreateCode gift)) (with_other_user demo_db) [].
Definition gift_read := demo_play 2000 1 (done (BatchUpdate [1] unused_again)) gift_made.1.2 gift_made.2.
Definition gift_taken := demo_play 2000 100 (done (Redeem 7 "GIFT")) gift_read.1.2 gift_read.2.
Definition gift_reset := demo_play 2000 10 gift_read.1.1 gift_taken.1.2 gift_taken.2.
Definition gift_taken_again := demo_play 3000 100 (done (Redeem 8 "GIFT")) gift_reset.1.2 gift_reset.2.

Theorem batch_update_race :
  gift_taken_again.2 = [Redeemed "GIFT" RedeemTypeBalance (10 ^ 9) 7; Redeemed "GIFT" RedeemTypeBalance (10 ^ 9) 8].
Proof. by vm_compute. Qed.
End PaymentScenarios.
