(* ===== verification/PaymentRetry.v ===== *)
(** * A retry completes a paid order

    However an earlier fulfilment ended, the next one brings the order to its
    end: it creates the code, redeems it or finds it redeemed. *)

From Stdlib Require Import QArith SpecFloat.
From S2P Require Import Prelude Programs GoStrings GoFloat AppErrors Subscriptions SubscriptionService PaymentOrders RedeemService PaymentService PaymentSystem PaymentSafety PaymentOnce PaymentLedger PaymentScenarios.

Module PaymentRetry.
Export PaymentScenarios.
Import Subscriptions PaymentOrders.
#[local] Open Scope Z_scope.

Section retry.
#[local] Set Default Proof Using "Type".
Context (offset : Time -> Duration) (column : Time -> Time) (numeric : float64 -> Q).
Notation finish := (finish offset column numeric usual).

(** The credit of a code's value fits into the columns of its user. *)
Definition fits (p : payer) (v : Z) : Prop :=
  (numeric_scan 8 v <? f64_zero)%f64 = false /\
  is_Some (numeric_store 8 (numeric_value 8 (p_balance p) + numeric (numeric_scan 8 v))%Q) /\
  is_Some (numeric_store 8 (numeric_value 8 (total_recharged p) + (if (f64_zero <? numeric_scan 8 v)%f64 then numeric (numeric_scan 8 v) else 0))%Q).

Lemma finish_do {A R} now (c : pcall A) (k : A -> pprog R) d r d' :
  exec_p offset column numeric now c d = Some (r, d') -> finish now (Do c k) d = finish now (k r) d'.
Proof. cbn [PaymentSystem.finish]. by intros ->. Qed.
Lemma finish_outside {A R} now (c : pcall A) (k : A -> pprog R) d r :
  exec_p offset column numeric now c d = None -> usual A c = Some r -> finish now (Do c k) d = finish now (k r) d.
Proof. cbn [PaymentSystem.finish]. by intros -> ->. Qed.

Lemma code_found code c d : codes d !! code = Some c -> exists c', get_code_by_id (c_ID c) d = Ok c'.
Proof.
  intros Hl. unfold get_code_by_id, code_with_id. destruct (List.find _ _) as [c'|] eqn:Hf; [by eexists|].
  pose proof (find_none _ _ Hf c) as Hn. cbv beta in Hn. rewrite Z.eqb_refl in Hn. exfalso. apply (diff_false_true). symmetry. apply Hn.
  apply list_elem_of_In, list_elem_of_fmap. exists (code, c). split; [done|]. by apply elem_of_map_to_list.
Qed.

Lemma redeem_tx_fits now uid c p d :
  codes d !! c_Code c = Some c -> c_Type c = RedeemTypeBalance -> c_Status c = StatusUnused -> payers d !! uid = Some p -> fits p (c_Value c) ->
  exists d', redeem_tx offset column numeric c uid now d = (Ok tt, d') /\ orders d' = orders d /\
    codes d' = <[c_Code c := c <| c_Status := StatusUsed |> <| UsedBy := Some uid |>]> (codes d).
Proof.
  intros Hc Hty Hst Hp (Hneg & [b Hb] & [t Ht]). unfold redeem_tx, use_code. rewrite Hc, Z.eqb_refl, Hst.
  change (StatusUnused =s StatusUnused) with true. cbn [andb]. unfold redeem_gives, value_of. rewrite Hty, Hneg.
  change (RedeemTypeBalance =s RedeemTypeBalance) with true. cbv iota. unfold UpdateBalance. cbn. rewrite Hp, Hb, Ht.
  eexists. by repeat split.
Qed.

Tactic Notation "call" "by" tactic3(tac) := erewrite finish_do by tac; cbv iota beta.
Ltac ask := erewrite finish_outside by done; cbv iota beta.

Lemma redeem_finishes now uid c p d :
  codes d !! c_Code c = Some c -> c_Type c = RedeemTypeBalance -> c_Status c = StatusUnused -> IsExpiredAt c now = false ->
  payers d !! uid = Some p -> p_deleted p = false -> fits p (c_Value c) ->
  exists c' d', finish now (redeemForPaymentFulfillment uid (c_Code c)) d = Some (Ok c', d') /\ orders d' = orders d /\
    codes d' = <[c_Code c := c <| c_Status := StatusUsed |> <| UsedBy := Some uid |>]> (codes d).
Proof.
  intros Hc Hty Hst Hexp Hp Hdel Hfits. destruct (redeem_tx_fits now uid c p d Hc Hty Hst Hp Hfits) as (d' & Htx & Ho & Hcs).
  destruct (code_found (c_Code c) (c <| c_Status := StatusUsed |> <| UsedBy := Some uid |>) d') as [c' Hc'];
    [by rewrite Hcs, lookup_insert_eq|]. cbn in Hc'.
  exists c', d'. split; [|by split]. unfold redeemForPaymentFulfillment, redeem. cbn [limited].
  ask. cbn [negb]. rewrite finish_bind. unfold redeem_locked. cbv zeta beta.
  call by (cbn [exec_p]; unfold get_code; by rewrite Hc). call by done. rewrite Hexp.
  call by done. unfold CanUse. rewrite Hst, Hexp, Hty. cbn [negb andb].
  change (StatusUnused =s StatusUnused) with true. change (RedeemTypeBalance =s RedeemTypeBalance) with true.
  change (RedeemTypeBalance =s RedeemTypeSubscription) with false. cbn [negb andb orb].
  call by (cbn [exec_p]; by rewrite Hp, Hdel). call by (cbn [exec_p]; by rewrite Htx).
  ask. rewrite andb_false_r. call by (cbn [exec_p]; by rewrite Hc').
  done.
Qed.

(** *** The order *)

Definition with_order (id : Z) (o : payment_order) (d : payment_db) : payment_db := d <| orders := <[id := o]> (orders d) |>.
Definition leased (now : Time) (o : payment_order) : payment_order :=
  o <| o_Status := OrderStatusRecharging |> <| UpdatedAt := now / 1000 * 1000 |>.

Definition finished (now : Time) (o : payment_order) : payment_order :=
  leased now o <| o_Status := OrderStatusCompleted |> <| UpdatedAt := column now |> <| CompletedAt := Some (column now) |>.

(** It can be leased. *)
Definition leasable (now : Time) (o : payment_order) : Prop :=
  o_Status o = OrderStatusPaid \/ o_Status o = OrderStatusFailed \/
  (o_Status o = OrderStatusRecharging /\ UpdatedAt o <= now / 1000 * 1000 - paymentFulfillmentLeaseDuration).

Lemma acquire_finishes now id o d :
  orders d !! id = Some o -> o_ID o = id -> leasable now o ->
  finish now (acquirePaymentFulfillmentLease o) d = Some (Ok (Some (now / 1000 * 1000)), with_order id (leased now o) d).
Proof.
  intros Ho Hid Hs. unfold acquirePaymentFulfillmentLease. rewrite Hid. call by done.
  assert (Hg : (o_Status o =s OrderStatusPaid) || (o_Status o =s OrderStatusFailed) ||
    ((o_Status o =s OrderStatusRecharging) && (UpdatedAt o <=? now / 1000 * 1000 - paymentFulfillmentLeaseDuration)) = true).
  { destruct Hs as [-> |[-> |[-> Hle]]]; [done..|]. apply Z.leb_le in Hle. by rewrite Hle. }
  call by (cbn [exec_p]; unfold acquire_lease, update_order; cbv zeta; by rewrite Ho, Hg). cbv iota beta. cbn [fst snd].
  call by (cbn [exec_p]; unfold get_order; cbn; by rewrite lookup_insert_eq). done.
Qed.

Lemma complete_finishes now id o action d :
  orders d !! id = Some (leased now o) -> o_ID o = id ->
  exists d', finish now (rebate_and_complete o (now / 1000 * 1000) action) d = Some (Ok tt, d') /\
    orders d' !! id = Some (finished now o).
Proof.
  intros Ho Hid. unfold rebate_and_complete. ask. unfold markCompleted. rewrite Hid.
  assert (Hl : holds_lease (now / 1000 * 1000) (leased now o) = true) by (unfold holds_lease; cbn; by rewrite Z.eqb_refl).
  call by (cbn [exec_p]; unfold mark_completed, update_order; by rewrite Ho, Hl). cbn [fst snd].
  change (1 =? 0) with false. cbv iota. call by done. destruct (has_audit _ _ _) eqn:Ha.
  - eexists. split; [done|]. cbn. by rewrite lookup_insert_eq.
  - call by (cbn [exec_p]; unfold write_audit; by rewrite Ha). eexists. split; [done|]. cbn. by rewrite lookup_insert_eq.
Qed.

(** What is left to do about the code of an order: nothing, or a redemption
    that its user can take. *)
Definition code_ready (now : Time) (o : payment_order) (d : payment_db) : Prop :=
  match codes d !! RechargeCode o with
  | Some c =>
      validatePaymentRedeemCode o c = None /\
      (c_Status c = StatusUsed \/
       c_Status c = StatusUnused /\ IsExpiredAt c now = false /\
       exists p, payers d !! o_UserID o = Some p /\ p_deleted p = false /\ fits p (c_Value c))
  | None =>
      exists p v, payers d !! o_UserID o = Some p /\ p_deleted p = false /\ fits p v /\
        numeric_store 8 (numeric (dollars (Amount o))) = Some v /\ v <> 0
  end.

Lemma GetByCode_finishes now code d :
  finish now (GetByCode code) d = Some (match get_code code d with Err e => Err (Wrapped "get redeem code" e) | ok => ok end, d).
Proof. unfold GetByCode. cbn. by destruct (get_code code d). Qed.

Lemma create_finishes now code v d :
  TrimSpace code = code -> code <> "" -> v <> 0 -> codes d !! code = None ->
  exists d', finish now (CreateCode (MkCode 0 code RedeemTypeBalance v StatusUnused None None None 0 "")) d = Some (Ok tt, d') /\
    orders d' = orders d /\ payers d' = payers d /\
    codes d' = <[code := MkCode (next_code d) code RedeemTypeBalance v StatusUnused None None None 0 ""]> (codes d).
Proof.
  intros Htrim Hne Hv Hl. unfold CreateCode. cbv zeta. cbn [c_Code c_Type c_Value c_Status set_field]. rewrite Htrim.
  apply String.eqb_neq in Hne. apply Z.eqb_neq in Hv. rewrite Hne. change (RedeemTypeBalance =s "") with false.
  change (StatusUnused =s "") with false. cbv iota. cbn [c_Type c_Value c_Status set_field]. rewrite Hv, andb_false_r. cbv iota. call by done.
  change (IsExpiredAt _ now) with false. cbv iota. call by (cbn [exec_p]; unfold create_code; cbn; by rewrite Hl). eexists. by repeat split.
Qed.

Lemma doBalance_finishes now id o d :
  orders d !! id = Some (leased now o) -> o_ID o = id -> well_coded o -> code_ready now o d ->
  exists d', finish now (doBalance numeric o (now / 1000 * 1000)) d = Some (Ok tt, d') /\
    orders d' !! id = Some (finished now o).
Proof.
  intros Ho Hid (Hpos & t & Ht & Hrc) Hready. unfold doBalance. rewrite finish_bind, GetByCode_finishes. unfold get_code.
  assert (Hredeem : forall c p d1, codes d1 !! RechargeCode o = Some c -> c_Code c = RechargeCode o -> c_Type c = RedeemTypeBalance ->
    c_Status c = StatusUnused -> IsExpiredAt c now = false -> payers d1 !! o_UserID o = Some p -> p_deleted p = false -> fits p (c_Value c) ->
    orders d1 = orders d ->
    exists d', finish now (run! r := redeemForPaymentFulfillment (o_UserID o) (RechargeCode o) in
        match r with Err e => Ret (Err (Wrapped "redeem balance" e)) | Ok _ => rebate_and_complete o (now / 1000 * 1000) "RECHARGE_SUCCESS" end) d1
        = Some (Ok tt, d') /\
      orders d' !! id = Some (finished now o)).
  { intros c p d1 Hc Hcode Hty Hst Hexp Hp Hdel Hfits Ho1. rewrite <- Hcode in Hc.
    destruct (redeem_finishes now (o_UserID o) c p d1 Hc Hty Hst Hexp Hp Hdel Hfits) as (c' & d2 & E & Ho2 & _).
    rewrite finish_bind, <- Hcode, E. apply complete_finishes; [by rewrite Ho2, Ho1|done]. }
  unfold code_ready in Hready. destruct (codes d !! RechargeCode o) as [c|] eqn:Hc.
  - destruct Hready as [Hvalid Hst]. rewrite Hvalid. cbn [resolveRedeemAction]. unfold IsUsed.
    apply (validated numeric) in Hvalid as (Hcode & Hty & _).
    destruct Hst as [-> |(Hun & Hexp & p & Hp & Hdel & Hfits)].
    + change (StatusUsed =s StatusUsed) with true. cbv iota. by apply complete_finishes.
    + rewrite Hun. change (StatusUnused =s StatusUsed) with false. cbv iota. by eapply Hredeem.
  - destruct Hready as (p & v & Hp & Hdel & Hfits & Hv & Hne). cbn [resolveRedeemAction].
    change (errors_Is (Wrapped "get redeem code" ErrRedeemCodeNotFound) ErrRedeemCodeNotFound) with true. cbv iota beta. rewrite Hv.
    assert (Htrim : TrimSpace (RechargeCode o) = RechargeCode o) by (rewrite Hrc; by apply recharge_code_trim).
    assert (Hnonempty : RechargeCode o <> "") by (by rewrite Hrc).
    destruct (create_finishes now (RechargeCode o) v d Htrim Hnonempty Hne Hc) as (d1 & E & Ho1 & Hp1 & Hc1).
    rewrite finish_bind, E. eapply Hredeem; [rewrite Hc1; by apply lookup_insert_eq|done..| |done|done|done]. by rewrite Hp1.
Qed.

Lemma execute_finishes now id o d :
  orders d !! id = Some o -> o_ID o = id -> (OrderType o =s OrderTypeSubscription) = false -> leasable now o -> well_coded o -> code_ready now o d ->
  exists d', finish now (executeFulfillment numeric id) d = Some (Ok tt, d') /\
    orders d' !! id = Some (finished now o).
Proof.
  intros Ho Hid Hty Hs Hw Hready. unfold executeFulfillment. call by (cbn [exec_p]; unfold get_order; by rewrite Ho). rewrite Hty.
  unfold ExecuteBalanceFulfillment, execute_with. call by (cbn [exec_p]; unfold get_order; by rewrite Ho).
  assert (Hst : (o_Status o =s OrderStatusCompleted) = false /\ psIsRefundStatus (o_Status o) = false /\
    negb ((o_Status o =s OrderStatusPaid) || (o_Status o =s OrderStatusFailed) || (o_Status o =s OrderStatusRecharging)) = false)
    by (by destruct Hs as [-> |[-> |[-> _]]]).
  destruct Hst as (-> & -> & ->). cbv iota. rewrite finish_bind, (acquire_finishes now id o d Ho Hid Hs).
  destruct (doBalance_finishes now id o (with_order id (leased now o) d)) as (d' & E & Hd'); [cbn; by rewrite lookup_insert_eq|done..|].
  rewrite finish_bind, E. by exists d'.
Qed.

Lemma write_audit_rest id action d :
  let d' := (write_audit id action d).2 in orders d' = orders d /\ codes d' = codes d /\ payers d' = payers d.
Proof. cbv zeta. unfold write_audit. by destruct (has_audit id action d). Qed.

(** C8: a paid balance order can always be brought to its end: after whatever
    happened to it, an administrator's retry (once a lease of five minutes has
    run out) completes it and pays it out, when its code is still its own. *)
Theorem retry_completes EqualFold d0 t0 st id o now :
  fresh d0 -> 0 <= t0 -> reaches offset column numeric EqualFold d0 t0 st -> sys_now st <= now ->
  orders (sys_db st) !! id = Some o -> (OrderType o =s OrderTypeSubscription) = false -> is_Some (PaidAt o) ->
  leasable now o -> code_ready now o (sys_db st) ->
  exists d' log' o',
    finish now (RetryFulfillment numeric id) (sys_db st) = Some (Ok tt, d') /\
    reaches offset column numeric EqualFold d0 t0 (System d' now (Ret tt :: sys_programs st) log') /\
    orders d' !! id = Some o' /\ o_Status o' = OrderStatusCompleted /\ order_terms o' = order_terms o /\ settled numeric log' o'.
Proof.
  intros Hf Ht Hr Hnow Ho Hty [paid Hpaid] Hs Hready. destruct (reached_ok _ _ _ _ d0 t0 st Hf Ht Hr) as (_ & ((_ & Hords) & _) & _).
  destruct (Hords id o Ho) as (Hid & _ & Hw & _). destruct (write_audit_rest id "RECHARGE_RETRY" (sys_db st)) as (Eo & Ec & Ep).
  set (d1 := (write_audit id "RECHARGE_RETRY" (sys_db st)).2) in *.
  destruct (execute_finishes now id o d1) as (d' & E & Hd'); [by rewrite Eo|done..|by unfold code_ready; rewrite Ec, Ep|].
  assert (Hfin : finish now (RetryFulfillment numeric id) (sys_db st) = Some (Ok tt, d')).
  { unfold RetryFulfillment. call by (cbn [exec_p]; unfold get_order; by rewrite Ho). rewrite Hpaid. cbn [is_set negb].
    assert (Hst : psIsRefundStatus (o_Status o) = false /\ (o_Status o =s OrderStatusCompleted) = false /\
      negb ((o_Status o =s OrderStatusFailed) || (o_Status o =s OrderStatusPaid) || (o_Status o =s OrderStatusRecharging)) = false)
      by (by destruct Hs as [-> |[-> |[-> _]]]).
    destruct Hst as (-> & -> & ->). cbv iota. subst d1. destruct (write_audit id "RECHARGE_RETRY" (sys_db st)) as [r d1] eqn:Hwa.
    by call by (cbn [exec_p]; by rewrite Hwa). }
  destruct (finish_steps offset column numeric EqualFold usual now _ _ _ _ (sys_programs st) (sys_log st) Hfin) as [log' Hsteps].
  assert (Hr' : reaches offset column numeric EqualFold d0 t0 (System d' now (Ret tt :: sys_programs st) log')).
  { unfold reaches in *. etrans; [exact Hr|]. destruct st as [d t ps log]. cbn [sys_db sys_now sys_programs sys_log] in *.
    eapply rtc_l; [by apply (step_clock _ _ _ _ d t now)|]. eapply rtc_l; [by apply step_start, (h_retry _ _ id)|]. exact Hsteps. }
  exists d', log', (finished now o).
  destruct (reached_ok _ _ _ _ d0 t0 _ Hf Ht Hr') as (_ & ((_ & Hords') & _) & _).
  repeat split; try done. by apply (Hords' id _ Hd').
Qed.
End retry.

(** *** A notification that stops right after the payment is recorded *)

Definition stopped :=
  demo_play 2000 6 (done (HandlePaymentNotification f64_value String.eqb demo_notification "alipay")) created.1.2 created.2.
Definition paid_order : payment_order :=
  Order 1 7 "sub2_x" OrderTypeBalance 1000 1000 "PAY-1-1000" OrderStatusPaid 2000 (3600 * Second) (Some 2000) "T1" "alipay" None None 1000 (Some "alipay") None None.

Strategy expand [stopped].
Lemma run_stopped : reaches no_offset whole f64_value String.eqb demo_db 0 (demo_state stopped 2000 [stopped.1.1; created.1.1]).
Proof.
  unfold reaches. etrans; [apply run_created|].
  exact (later_play usual 1000 2000 6 _ _ _ _ _ _ _ (ltac:(lia)) (h_notification _ _ demo_notification "alipay") (parts stopped)).
Qed.

Lemma stopped_paid : orders stopped.1.2 !! 1 = Some paid_order /\ codes stopped.1.2 !! "PAY-1-1000" = None /\ payers stopped.1.2 !! 7 = Some (Payer 0 0 5 false).
Proof. by vm_compute. Qed.

Lemma retry_completes_witness :
  exists d' log' o', finish no_offset whole f64_value usual 3000 (RetryFulfillment f64_value 1) stopped.1.2 = Some (Ok tt, d') /\
    orders d' !! 1 = Some o' /\ o_Status o' = OrderStatusCompleted /\ settled f64_value log' o'.
Proof.
  destruct stopped_paid as (Ho & Hc & Hp).
  destruct (retry_completes no_offset whole f64_value String.eqb demo_db 0 _ 1 paid_order 3000 demo_fresh (Z.le_refl 0) run_stopped)
    as (d' & log' & o' & H1 & _ & H2 & H3 & _ & H4).
  - cbn [sys_now]. lia.
  - exact Ho.
  - reflexivity.
  - by exists 2000.
  - by left.
  - unfold code_ready. cbn [sys_db RechargeCode paid_order o_UserID]. rewrite Hc, Hp. exists (Payer 0 0 5 false), (10 ^ 9).
    repeat split; try reflexivity; try (vm_compute; by eexists). done.
  - exists d', log', o'. by repeat split.
Defined.
End PaymentRetry.
