(* ===== verification/PaymentLifecycle.v ===== *)
(** * The life of an order

    Which statuses follow one another, whatever runs at once. *)

From Stdlib Require Import QArith SpecFloat.
From S2P Require Import Prelude Programs GoStrings GoFloat AppErrors Subscriptions SubscriptionService PaymentOrders RedeemService PaymentService PaymentSystem PaymentSafety PaymentOnce PaymentLedger PaymentScenarios.

Module PaymentLifecycle.
Export PaymentScenarios.
Import Subscriptions SubscriptionService PaymentOrders.
#[local] Open Scope Z_scope.

Definition unpaid (s : string) : bool := (s =s OrderStatusPending) || (s =s OrderStatusCancelled) || (s =s OrderStatusExpired).

Definition after_completion : list string :=
  [OrderStatusCompleted; OrderStatusRefundRequested; OrderStatusRefunding; OrderStatusRefundPending; OrderStatusPartiallyRefunded;
   OrderStatusRefunded; OrderStatusRefundFailed].

(** Pending orders are paid, cancelled or expire; cancelled and expired ones may
    still be paid; paid and failed ones are fulfilled, which completes or fails;
    completed ones may be refunded. *)
Definition successors (s : string) : list string :=
  if s =s OrderStatusPending then [OrderStatusPaid; OrderStatusCancelled; OrderStatusExpired]
  else if (s =s OrderStatusCancelled) || (s =s OrderStatusExpired) then [OrderStatusPaid]
  else if (s =s OrderStatusPaid) || (s =s OrderStatusFailed) then [OrderStatusRecharging]
  else if s =s OrderStatusRecharging then [OrderStatusCompleted; OrderStatusFailed]
  else if (s =s OrderStatusCompleted) || psIsRefundStatus s then after_completion
  else [].

(** [CreateOrder] fails an order whose payment it could not set up in whatever
    status it finds it; the refund of an order that was completed before then
    ends as it would have. *)
Definition late_successors (s : string) : list string :=
  successors s ++ OrderStatusFailed :: if unpaid s then [] else after_completion.

Definition setup_failed (id : Z) (log : list event) : bool :=
  existsb (fun e => match e with SetupFailed i => i =? id | _ => false end) log.

Definition follows (late : bool) (o o' : payment_order) : Prop :=
  order_terms o' = order_terms o /\
  (o_Status o' = o_Status o \/ o_Status o' ∈ successors (o_Status o) \/ (late = true /\ o_Status o' ∈ late_successors (o_Status o))).

(** Once completed, an order is paid for, and stays paid out unless its set-up
    fails late. *)
Definition completion_kept (log : list event) (id : Z) (o : payment_order) : Prop :=
  is_set (CompletedAt o) = true -> unpaid (o_Status o) = false /\ (setup_failed id log = false -> paid_out o = true).

Definition all_kept (st : system) : Prop := forall id o, orders (sys_db st) !! id = Some o -> completion_kept (sys_log st) id o.

(** From [d] with [log] to [d'] with [log']. *)
Definition orders_follow (log log' : list event) (d d' : payment_db) : Prop :=
  (forall id o, orders d !! id = Some o -> completion_kept log id o ->
     exists o', orders d' !! id = Some o' /\ follows (setup_failed id log') o o' /\ completion_kept log' id o') /\
  forall id o', orders d' !! id = Some o' -> orders d !! id = None -> CompletedAt o' = None.

Lemma setup_failed_app id l1 l2 : setup_failed id (l1 ++ l2) = setup_failed id l1 || setup_failed id l2.
Proof. apply existsb_app. Qed.

Lemma kept_more log l id o : completion_kept log id o -> completion_kept (log ++ l) id o.
Proof. intros H Hs. destruct (H Hs) as [H1 H2]. split; [done|]. rewrite setup_failed_app. intros [H3 _]%orb_false_iff. auto. Qed.

Lemma kept_move log id o o' :
  CompletedAt o' = CompletedAt o -> (unpaid (o_Status o') = true -> unpaid (o_Status o) = true) ->
  (paid_out o = true -> paid_out o' = true) -> completion_kept log id o -> completion_kept log id o'.
Proof.
  intros Hc Hu Hp H. unfold completion_kept. rewrite Hc. intros Hs. destruct (H Hs) as [H1 H2]. split; [|auto].
  destruct (unpaid (o_Status o')); [|done]. by rewrite Hu in H1.
Qed.

Lemma eqs_true s t : (s =s t) = true -> s = t.
Proof. apply String.eqb_eq. Qed.

Lemma paid_out_in o : paid_out o = true -> o_Status o ∈ after_completion.
Proof.
  unfold paid_out, psIsRefundStatus, after_completion. cbn [existsb]. rewrite !orb_true_iff.
  intros [H|[H|[H|[H|[H|[H|[H|H]]]]]]]; try done; apply eqs_true in H; rewrite H; set_solver.
Qed.

Lemma paid_out_successors o o' : paid_out o = true -> paid_out o' = true -> o_Status o' ∈ successors (o_Status o).
Proof.
  intros Ho%paid_out_in Ho'%paid_out_in. unfold after_completion in Ho. rewrite !elem_of_cons in Ho.
  by destruct Ho as [-> |[-> |[-> |[-> |[-> |[-> |[-> |?%elem_of_nil]]]]]]].
Qed.

Lemma late_stays_paid s s' : s' ∈ late_successors s -> unpaid s = false -> unpaid s' = false.
Proof.
  intros Hin Hs. unfold late_successors in Hin. rewrite Hs in Hin. unfold successors, unpaid in *.
  destruct (s =s OrderStatusPending); [done|]. destruct (s =s OrderStatusCancelled); [done|]. destruct (s =s OrderStatusExpired); [done|].
  cbn [orb] in Hin. unfold after_completion in Hin. repeat case_match; cbn [app] in Hin; rewrite !elem_of_cons in Hin;
    repeat (destruct Hin as [->|Hin]; [done|]); by apply elem_of_nil in Hin.
Qed.

Section lifecycle.
#[local] Set Default Proof Using "Type".
Context (offset : Time -> Duration) (column : Time -> Time) (numeric : float64 -> Q) (EqualFold : string -> string -> bool).
Notation exec_p := (exec_p offset column numeric).
Notation event_of := (event_of offset column numeric).
Notation pay_step := (pay_step offset column numeric EqualFold).
Notation allowed := (allowed numeric).

Lemma orders_follow_refl log l d d' : orders d' = orders d -> orders_follow log (log ++ l) d d'.
Proof.
  intros E. unfold orders_follow. rewrite E. split; [|congruence]. intros id o Ho Hk. exists o. split; [done|].
  split; [split; [done|by left]|]. by apply kept_more.
Qed.

Lemma update_follows log l id guard f d :
  (forall o, guard o = true -> follows (setup_failed id (log ++ l)) o (f o) /\
     (completion_kept log id o -> completion_kept (log ++ l) id (f o))) ->
  orders_follow log (log ++ l) d (update_order id guard f d).2.
Proof.
  intros Hf. unfold update_order. destruct (orders d !! id) as [o|] eqn:Ho; [|by apply orders_follow_refl].
  destruct (guard o) eqn:Hg; [|by apply orders_follow_refl]. destruct (Hf o Hg) as [Hfo Hko]. split; cbn.
  - intros i o1 Hi Hk. destruct (decide (i = id)) as [->|Hne].
    + rewrite lookup_insert_eq. exists (f o). assert (o1 = o) as -> by congruence. auto.
    + rewrite lookup_insert_ne by done. exists o1. split; [done|]. split; [split; [done|by left]|by apply kept_more].
  - intros i o' Hi Hno. rewrite lookup_insert_ne in Hi by (intros <-; congruence). congruence.
Qed.

(** An update along [successors] that keeps the time of completion. *)
Lemma update_along log l id guard f d :
  (forall o, guard o = true -> order_terms (f o) = order_terms o /\ CompletedAt (f o) = CompletedAt o /\
     (o_Status (f o) = o_Status o \/ o_Status (f o) ∈ successors (o_Status o) /\ paid_out o = false)) ->
  orders_follow log (log ++ l) d (update_order id guard f d).2.
Proof.
  intros Hf. apply update_follows. intros o Hg. destruct (Hf o Hg) as (Ht & Hc & Hs). split.
  - split; [done|]. destruct Hs as [Hs|[Hs _]]; auto.
  - intros Hk. apply kept_more. eapply kept_move; [exact Hc| | |exact Hk].
    + destruct Hs as [->|[Hs _]]; [done|]. intros Hu. destruct (unpaid (o_Status o)) eqn:Ho; [done|].
      rewrite (late_stays_paid (o_Status o)) in Hu; [done| |done]. unfold late_successors. apply elem_of_app. by left.
    + destruct Hs as [Hs|[_ Hs]]; [by unfold paid_out; rewrite Hs|congruence].
Qed.

Ltac status_cases H := repeat (apply orb_true_iff in H as [H|H]); try (apply andb_true_iff in H as [H _]); apply eqs_true in H.

Lemma exec_follows κ now {A} (c : pcall A) d r d' log :
  books_ok numeric d log -> allowed A κ c -> exec_p now c d = Some (r, d') ->
  orders_follow log (log ++ option_list (event_of now c d)) d d'.
Proof.
  clear EqualFold. intros Hb Hal He. generalize (eq_refl (event_of now c d)). generalize (event_of now c d) at 1 3. intros e Hev.
  destruct c; cbn [exec_p] in He; try done; try (injection He as _ <-; by apply orders_follow_refl).
  - injection He as H. unfold insert_order in H. destruct (_ && _); injection H as _ <-; [by apply orders_follow_refl|]. split; cbn.
    + intros id o1 Ho1 Hk. exists o1. destruct Hb as ((_ & Hords) & _). destruct (Hords id o1 Ho1) as (_ & Hlt & _).
      rewrite lookup_insert_ne by lia. split; [done|]. split; [split; [done|by left]|by apply kept_more].
    + intros id o' [[_ <-]|[_ Hl]]%lookup_insert_Some Hno; [done|congruence].
  - unfold mark_paid in He. destruct (numeric_store _ _) as [amount|]; [|injection He as _ <-; by apply orders_follow_refl].
    match type of He with context [update_order ?i ?g ?f ?x] =>
      assert (Hk : orders_follow log (log ++ option_list e) d (update_order i g f x).2); [|by destruct (update_order i g f x); injection He as _ <-] end.
    apply update_along. intros o Hg. split; [done|]. split; [done|]. right. cbn. status_cases Hg; unfold paid_out; rewrite Hg; by split; [left|].
  - injection He as _ <-. apply update_along. intros o Hg. split; [done|]. split; [done|]. cbn.
    status_cases Hg; unfold paid_out; rewrite Hg; [right; split; [by left|done]..|by left].
  - injection He as _ <-. apply update_follows. intros o [Hg _]%andb_true_iff. apply eqs_true in Hg. split.
    + split; [done|]. rewrite Hg. right. left. left.
    + intros _ _. by split.
  - injection He as _ <-. apply update_along. intros o [Hg _]%andb_true_iff. apply eqs_true in Hg. unfold paid_out. rewrite Hg.
    repeat split. right. split; [right; left|done].
  - injection He as _ <-. apply update_along. intros o Hg. apply eqs_true in Hg. unfold paid_out. rewrite Hg. repeat split. right. cbn.
    split; [|done]. destruct Hal as [-> | ->]; [right; left|right; right; left].
  - injection He as _ <-. apply update_along. intros o _. repeat split. by left.
  - injection He as H. assert (Hk : orders_follow log (log ++ option_list e) d (save_provider_reply column id tradeNo providerKey now d).2);
      [|by rewrite H in Hk]. unfold save_provider_reply. rewrite update_one_order. apply update_along. intros o _. repeat split. by left.
  - injection He as H. assert (Hk : orders_follow log (log ++ option_list e) d (fail_order column id now d).2); [|by rewrite H in Hk].
    unfold fail_order. rewrite update_one_order. unfold PaymentSystem.event_of in Hev.
    destruct (orders d !! id) as [o|] eqn:Ho; [|unfold update_order; rewrite Ho; by apply orders_follow_refl]. subst e.
    assert (Hin : setup_failed id (log ++ option_list (Some (SetupFailed id))) = true)
      by (rewrite setup_failed_app; cbn; rewrite Z.eqb_refl; by rewrite orb_true_r).
    apply update_follows. intros o1 _. rewrite Hin. split.
    + split; [done|]. right. right. split; [done|]. unfold late_successors. cbn. set_solver.
    + intros _ _. rewrite Hin. by split.
  - injection He as H. unfold write_audit in H. destruct (has_audit _ _ _); injection H as _ <-; by apply orders_follow_refl.
  - injection He as H. unfold create_code in H. destruct (codes d !! _); injection H as _ <-; by apply orders_follow_refl.
  - injection He as H. destruct (redeem_tx_cases offset column numeric c uid now d) as [(er & E)|(r1 & row & d1 & E & _ & _ & Hg)]; rewrite E in H; injection H as _ <-.
    + by apply orders_follow_refl.
    + apply redeem_gives_tables in Hg as (Eo & _). by apply orders_follow_refl.
  - injection He as H. unfold assign_tx in H. destruct (hasPaymentSubscriptionAssignmentAudit _ _); [injection H as _ <-; by apply orders_follow_refl|].
    destruct (recovered_from_note _ _ _); [injection H as _ <-; by apply orders_follow_refl|]. unfold on_subs in H.
    destruct (run_alone _ _ _ _ _ _) as [[|] s]; injection H as _ <-; by apply orders_follow_refl.
Qed.

Lemma others_follow log d d' : others_change d d' -> orders_follow log (log ++ []) d d'.
Proof.
  intros (Hords & _). split.
  - intros id o Ho Hk. specialize (Hords id). rewrite Ho in Hords. inversion Hords as [x o' (Ht & Hc & Hs) E1 E2|]; subst.
    exists o'. split; [done|]. rewrite app_nil_r. destruct Hs as [Hs|[Hset Hp]].
    + split; [split; [done|by left]|]. unfold completion_kept, paid_out in *. by rewrite Hc, Hs.
    + destruct (Hk Hset) as [Hu Hpo]. split.
      * split; [done|]. right. destruct (setup_failed id log); [right; split; [done|]|left; by apply paid_out_successors; auto].
        unfold late_successors. rewrite Hu. apply elem_of_app. right. right. by apply paid_out_in.
      * intros _. split; [|done]. apply (late_stays_paid (o_Status o)); [|done]. unfold late_successors. rewrite Hu.
        apply elem_of_app. right. right. by apply paid_out_in.
  - intros id o' Ho' Hno. specialize (Hords id). rewrite Ho', Hno in Hords. inversion Hords.
Qed.

Lemma step_follows st st' :
  system_ok numeric st -> pay_step st st' -> orders_follow (sys_log st) (sys_log st') (sys_db st) (sys_db st').
Proof.
  intros (_ & Hb & Hps) Hs.
  destruct Hs as [d t ps log p Hh|d t ps1 ps2 log A c k e r d' Hsem|d t t' ps log Hle|d t ps1 ps2 log p|d d' t ps log Hoth|d d' t ps log uid amount Hcr];
    cbn [sys_db sys_log sys_programs] in *; try (rewrite <- (app_nil_r log) at 2; by apply orders_follow_refl).
  - apply Forall_app in Hps as [_ Hps]. apply Forall_cons in Hps as [(κ & _ & Hal & _) _].
    destruct Hsem as [r d' He|m r0 r d' He _|m r _|r _]; try by apply orders_follow_refl. all: by eapply exec_follows.
  - rewrite <- (app_nil_r log) at 2. by apply others_follow.
  - apply credit_tables in Hcr as (Eo & _). by apply orders_follow_refl.
Qed.

Lemma step_kept st st' : system_ok numeric st -> pay_step st st' -> all_kept st -> all_kept st'.
Proof.
  intros Hok Hs Hk id o' Ho'. destruct (step_follows st st' Hok Hs) as [H1 H2].
  destruct (orders (sys_db st) !! id) as [o|] eqn:Ho.
  - destruct (H1 id o Ho (Hk id o Ho)) as (o2 & Ho2 & _ & Hk2). assert (o' = o2) as -> by congruence. done.
  - intros Hset. by rewrite (H2 id o' Ho' Ho) in Hset.
Qed.

Lemma reached_kept d0 t0 st : fresh d0 -> 0 <= t0 -> reaches offset column numeric EqualFold d0 t0 st -> system_ok numeric st /\ all_kept st.
Proof.
  intros Hf Ht Hr. pose proof (fresh_ok numeric d0 t0 Hf Ht) as Hok. unfold reaches in Hr.
  assert (Hk : all_kept (System d0 t0 [] [])). { intros id o. cbn. destruct Hf as [-> _]. by rewrite lookup_empty. }
  revert Hok Hk. induction Hr as [st|st1 st2 st3 Hstep _ IH]; [done|]. intros Hok Hk. apply IH; [by eapply system_ok_step|by eapply step_kept].
Qed.

(** C24: whatever runs at once, an order keeps its terms and its status moves
    along [late_successors]: an order that was paid for is never pending,
    cancelled or expired again.  Unless [CreateOrder] failed it late, its status
    moves along [successors]: once completed it is not fulfilled again. *)
Theorem order_lifecycle d0 t0 st st' id o :
  fresh d0 -> 0 <= t0 -> reaches offset column numeric EqualFold d0 t0 st -> rtc pay_step st st' -> orders (sys_db st) !! id = Some o ->
  exists o', orders (sys_db st') !! id = Some o' /\ order_terms o' = order_terms o /\
    rtc (fun s s' => s' ∈ late_successors s) (o_Status o) (o_Status o') /\
    (unpaid (o_Status o) = false -> unpaid (o_Status o') = false) /\
    (setup_failed id (sys_log st') = false -> rtc (fun s s' => s' ∈ successors s) (o_Status o) (o_Status o')).
Proof.
  intros Hf Ht Hr Hst Ho. destruct (reached_kept d0 t0 st Hf Ht Hr) as [Hok Hk]. clear Hf Ht Hr. revert o Ho.
  induction Hst as [st|st1 st2 st3 Hs Hrest IH]; intros o Ho; [by exists o|].
  destruct (proj1 (step_follows st1 st2 Hok Hs) id o Ho (Hk id o Ho)) as (o2 & Ho2 & [Hterms Hmove] & _).
  destruct (IH (system_ok_step _ _ _ _ _ _ Hok Hs) (step_kept _ _ Hok Hs Hk) o2 Ho2) as (o3 & Ho3 & Ht3 & Hlate & Hpaid & Hstrict).
  assert (Hl : o_Status o2 = o_Status o \/ o_Status o2 ∈ late_successors (o_Status o)).
  { destruct Hmove as [?|[Hin|[_ Hin]]]; [by left|right; unfold late_successors; apply elem_of_app; by left|by right]. }
  exists o3. split; [done|]. split; [by rewrite Ht3|]. split; [|split].
  - destruct Hl as [E|Hin]; [by rewrite <- E|by eapply rtc_l].
  - intros Hu. apply Hpaid. destruct Hl as [-> |Hin]; [done|by eapply late_stays_paid].
  - intros Hno. assert (Hno2 : setup_failed id (sys_log st2) = false).
    { destruct (steps_log _ _ _ _ _ _ Hrest) as [l E]. rewrite E, setup_failed_app in Hno. by apply orb_false_iff in Hno as [? _]. }
    destruct Hmove as [E|[Hin|[Hl2 _]]]; [rewrite <- E; auto|eapply rtc_l; [exact Hin|auto]|congruence].
Qed.
End lifecycle.

Lemma run_later : rtc demo_step (demo_state created 1000 [created.1.1]) (demo_state credited 2000 [credited.1.1; asked.1.1; created.1.1]).
Proof. etrans; [apply run_asked|apply run_credited]. Qed.

Lemma order_lifecycle_witness :
  exists o o', orders created.1.2 !! 1 = Some o /\ orders credited.1.2 !! 1 = Some o' /\ o_Status o = OrderStatusPending /\
    o_Status o' = OrderStatusRecharging /\ rtc (fun s s' => s' ∈ successors s) (o_Status o) (o_Status o').
Proof.
  assert (H0 : match orders created.1.2 !! 1 with Some o => o_Status o =s OrderStatusPending | None => false end = true) by (vm_compute; reflexivity).
  assert (H1 : match orders credited.1.2 !! 1 with Some o => o_Status o =s OrderStatusRecharging | None => false end = true) by (vm_compute; reflexivity).
  assert (H2 : setup_failed 1 credited.2 = false) by (vm_compute; reflexivity).
  generalize (fun o => order_lifecycle no_offset whole f64_value String.eqb demo_db 0 _ _ 1 o demo_fresh (Z.le_refl 0) run_created
    run_later).
  revert H0 H1 H2. cbn [sys_db sys_log]. generalize created credited. intros run run' H0 H1 H2 H.
  destruct (orders run.1.2 !! 1) as [o|]; [|discriminate H0]. destruct (H o eq_refl) as (o' & Ho' & _ & _ & _ & Hs). rewrite Ho' in H1.
  exists o, o'. split; [reflexivity|]. split; [exact Ho'|]. apply eqs_true in H0, H1.
  split; [exact H0|]. split; [exact H1|]. exact (Hs H2).
Defined.
End PaymentLifecycle.
